(* ===== verification/_CoqProject ===== *)
-Q . S2P
Prelude.v
Float64.v
Common.v
Rlp.v
Crypto.v
Types.v
Topology.v
Dpos.v
VotePool.v
TurnTimes.v
LeaderCal.v
Cdc.v
MsgPool.v
Engine.v
Controller.v
Service.v
TopNode.v
TxHeap.v
StateTransition.v
Manash.v
ReqCache.v
Work.v
BlkVerify.v
BlkManager.v
PowPool.v
BlkGen.v
Agreement.v
GenManager.v
Election.v
Random.v
Reelect.v
Epoch.v
Abi.v
Deposit.v
Ledger.v
Miner.v
RlpDecode.v
Wire.v
StateDB.v
Snapshot.v
StateRoot.v
StateRun.v
EvmWord.v
EvmMachine.v
EvmAnalysis.v
EvmState.v
Evm.v
EvmFrame.v
EvmSteps.v
EvmTotal.v
EvmNatives.v
EvmGuard.v
EvmRun.v
