(* ===== verification/Prelude.v ===== *)
(** * The consensus core of the MATRIX node

    MATRIX is a go-ethereum fork in which blocks are agreed on by elected
    validators (a DPOS vote) before they are mined.  This library models the
    parts of the node that decide what a validator proposes, signs, accepts and
    writes to the chain, and how validators and miners are elected.  File names
    below are relative to src/.

    ** The parts and how they interact

    A block at a height is proposed by the leader of a consensus turn.  The
    validators of the topology at the parent height verify the proposal and
    sign its hash; with enough signatures the header is released to the miners.
    If this takes too long, the validators re-elect: the account whose turn it
    is inquires, asks for votes, and broadcasts the result, which starts the
    next consensus turn with the next leader.  Every signature carries an
    opinion (agree or disagree) and every count of signatures goes through the
    DPOS engine.  A leader packs pending transactions into the block it
    proposes, validators execute them again, and when a miner's result fits a
    block with enough signatures the block is inserted.  Every 60 blocks the
    validators and miners are elected anew from the depositors: keys that
    validators publish and the hashes of the chain give a seed, the election
    samples the depositors with it, and the re-election data service keeps the
    lists and tells producers and verifiers what a header has to carry.
    Depositors are those of a precompiled contract, which nodes call in
    transactions and whose storage the election reads.  Miners take a certified
    header as a request, search a nonce and send the result back to the leader.

<<
   blockgenor service -> process per height -> mining results, block cache
                                            -> work -> state transition
   state transition  -> virtual machine -> precompiled contracts, state database
   blkverify service -> process per height -> request cache, vote pool
   verifier service  -> controller per height -> turn data, message caches
   topnode service   -> ring of proposals, online state
   reelection service -> election -> generator;  random seeds
                         election -> deposit contract -> argument codec
   miner's worker    -> request control -> search;  results -> blockgenor
   blockgenor, blkverify -> reelection service
            all of them -> DPOS engine -> topology graph, vote signatures
                                            -> header hashes -> RLP
>>

    ** Files

    - [Prelude]: machine integers with their wrap-around ([u32], [u64], [i64]),
      results with errors ([res]), Go's unspecified order of map iteration
      ([GoRange]), shared lemmas.
    - [Float64]: the IEEE 754 operations of the vote target and the election.
    - [Common]: common/broadcast.go, matrix.go, role_type.go, types.go (part),
      reuse_msg.go.
    - [Rlp]: rlp/encode.go and rlp/raw.go.
    - [Crypto]: crypto/signature_cgo.go (signatures with an opinion).
    - [Types]: core/types/block.go (header and hashes), mc/msgdef.go (messages).
    - [Topology]: mc/funcdef.go.
    - [Dpos]: consensus/mtxdpos/mtxdpos.go.
    - [VotePool]: blkconsensus/votepool/vote_pool.go.
    - [TurnTimes], [LeaderCal], [Cdc], [MsgPool]: verifier/trunTimes.go,
      leaderCal.go, cdc.go, msgPool.go and masterCache.go.
    - [Engine]: the engine as an interface ([DPOSEngine]) with what its clients
      rely on ([EngineSound]), and its implementation by [Dpos].
    - [Controller]: verifier/controller.go, ctrlHandle.go, ctrlReelection.go.
    - [Service]: verifier/ctrlManager.go, leaderReElection.go.
    - [TopNode]: topnode/dposRing.go, messageCheck.go, topNodeState.go,
      topNodeService.go.
    - [ReqCache], [BlkVerify], [BlkManager]: blkconsensus/blkverify, its request
      cache, the process of one height, and the service.
    - [TxHeap]: the heap of core/types/transaction.go that orders pending
      transactions by price and nonce.
    - [StateTransition]: core/state_transition.go and core/gaspool.go over an
      abstract machine ([EVM]), with a concrete one ([Accounts]).
    - [Manash]: header checks, difficulty, gas limit, [Prepare], [Finalize] and
      seal check of consensus/manash/consensus.go.
    - [Work]: matrixwork/work.go, packing and executing a block.
    - [PowPool], [BlkGen], [GenManager]: blockgenor, its pool of mining results
      and block cache, the process of one height, and the service.
    - [Agreement]: a leader's turn and a validator's reaction composed.
    - [Election]: election/election.go and the generator of
      election/ManElec100/mt19937.
    - [Random]: random/electionseed.go and randomvote.go.
    - [Reelect]: reelection/reelection.go, topGen.go, checkGen.go, cal.go,
      handlemsg.go.
    - [Epoch]: [Reelect] as the implementation of the class [ReElection] that
      [BlkVerify] and [BlkGen] are written against.
    - [Abi]: accounts/abi, packing and unpacking of contract arguments.
    - [Deposit]: core/vm/deposit.go over what it uses of a state (class [Access],
      for which both [World] and [StateDB] stand in), with the calls of core/vm/evm.go that reach
      it and the readers of depoistInfo/depositInfo.go.
    - [Ledger]: deposits as an abstract ledger, its implementation by [Deposit],
      and the elections from reachable states of the contract.
    - [Miner]: miner/mineReqCtrl.go, miner/worker.go and the search of
      consensus/manash/sealer.go, composed with the check of [BlkGen].
    - [RlpDecode]: rlp/decode.go.
    - [Wire]: headers on the wire.
    - [StateDB]: core/state/statedb.go, state_object.go and journal.go over an
      interface of tries ([Tries], [TrieLaws]).
    - [Snapshot]: what the readers of a state show ([view]), and how the journal
      undoes changes of it.
    - [StateRoot]: the end of a transaction.
    - [StateRun]: transactions as lists of calls, and the theorems on states.
    - [EvmWord]: the arithmetic of core/vm/instructions.go and common/math.
    - [EvmMachine]: core/vm/memory.go, stack.go, contract.go, common.go,
      analysis.go, gas.go, gas_table.go, memory_table.go, params/gas_table.go.
    - [EvmAnalysis]: jump destinations.
    - [EvmState]: what the writers of the state database do to its [view], and
      the states that a machine runs on ([sound]).
    - [Evm]: core/vm/opcodes.go, jump_table.go, stack_table.go, instructions.go,
      interpreter.go and evm.go on [StateDB].
    - [EvmFrame], [EvmSteps], [EvmTotal]: what holds between instructions, that
      each instruction keeps it, and the calls and the loop.
    - [EvmNatives]: core/vm/contracts.go, with [Deposit] on [StateDB].
    - [EvmGuard]: machines that differ in their precompiled contracts: where these
      may panic, compared with an error there, and where the deposit contract writes.
    - [EvmRun]: the theorems on calls, and runs.

    ** How the code is represented

    A struct is a record, an enumeration an inductive type, a method a function
    on the state.  Addresses, hashes and signatures are natural numbers, bytes
    and machine integers are [Z] kept at their width.  Objects shared by pointer
    (requests, controllers, processes, votes of a message) live in a store and
    are referred to by index.  What a component sends or publishes is appended
    to a trace; readings of the clock come from a stream or are arguments.
    A method that runs under a mutex is one step.  A goroutine is the rest of
    its handler, and a step runs one of them through its next critical section
    or up to its next blocking point, so that theorems about reachable states
    cover every interleaving.  A run-time panic is an error value where the
    model reaches it ([ErrPanic], [Panic], or [None] where there is no other
    error).  Three fields are not in the code and record history: [voted] of a
    block verification process (the votes that were sent), [gp_hist] of a
    generation process and [bg_received] of its service (their inputs).
    [interactions] of the re-election service counts its requests and database
    writes, so that a stream can say which of them time out or fail.

    ** What the theorems show

    - Release: every header a validator releases passes the verification that
      other nodes perform ([service_releases_certified]), for any engine that
      satisfies the interface, and the DPOS engine does
      ([MtxDPOS_implements_interface]).
    - Insertion: every block written to the chain passed the engine's
      verification, the seal check or the broadcast check that its height asks
      for, and carries the payload verified for its hash
      ([service_inserts_certified], [inserted_blocks_certified]); a miner has at
      most five results in the pool ([mining_results_bounded]).
    - Agreement: packing keeps each sender's order and the gas limit ([packed_in_order]),
      executing the packed list gives the leader's header back
      ([validator_reproduces_block]), and so a proposal gets the votes of
      validators that know the parent ([honest_proposal_gets_votes]).
    - Elections: every depositor is in exactly one list and the lists have
      their sizes ([elections_partition_depositors]), the numbers drawn are
      32-bit words ([numbers_are_words]), a revealed key counts in the seed
      ([revealed_key_counts]), nodes with one chain agree whatever their
      services went through, unless an answer is taken for that of a later
      request ([nodes_agree_on_elections], [late_answer_stored]), the elected nodes
      become the roles of the graph ([reelection_installs_elected],
      [paraseNetTopology_roundtrip]), a leader's election and topology pass
      another node's checks ([leader_elections_verify]), and nothing changes
      between elections ([accepted_topology_keeps_graph]).
    - Deposits: the contract implements the ledger, call by call
      ([Call_refines_ledger]); in every state that calls can lead to, its list
      holds exactly the depositors, each once, and its balance covers them
      ([depositors_listed_once]), an announced withdrawal is paid
      ([withdrawn_deposit_refundable]), and the election ranks exactly the
      active depositors ([active_depositors_elected]).
    - Mining: miners work only on certified headers ([works_are_certified]) and
      their results pass the leader's check ([miner_result_accepted]).
    - Voting: one request per leader and turn ([leader_request_unique],
      [one_vote_per_turn]), and only for blocks that were checked
      ([votes_are_verified]).
    - Counting: the engine accepts exactly on a quorum of distinct agreeing
      validators ([VerifyHashWithStocks_iff]), two quorums intersect in more
      than a third ([quorum_intersection]), the outcome does not depend on map
      order, and pre-verified votes count like signatures.
    - Re-election: turns advance only with a quorum, votes go only to the
      account whose turn it is, one controller per height, the manager's mutex
      is always released.
    - Votes in store: the pool's invariant, what [GetVotes] returns, expiry.
    - Leaders, phases and topology: fair rotation, the announced successor takes
      over, deadlines lie ahead, topology steps keep graphs well formed.
    - Encoding: the buffered RLP encoder equals the recursive definition and is
      injective; the decoder inverts it ([DecodeBytes_EncodeToBytes]), accepts
      nothing else ([DecodeBytes_canonical]) and ends on every input
      ([DecodeBytes_terminates]), so a header has one wire form and its hash is
      that of the wire form ([header_wire_form]); the signing hash commits to
      the header up to the four fields it leaves out; contract arguments come
      back from the argument codec ([UnpackValues_Pack]).
    - State database: a revert restores what was read when the snapshot was
      taken, whatever happened since ([snapshot_restores]), and only a revert to
      an unknown snapshot panics ([only_invalid_revert_panics]); the end of a
      transaction removes exactly the accounts that are to go
      ([Finalise_reads]), writes the others so that they read back
      ([Finalise_persists]) and gives a root that does not depend on the order
      of Go's maps ([root_order_independent]).
    - Virtual machine: gas bounds the steps of every call with all calls inside
      it, and up to 2^46 gas only the deposit contract and colliding hashes of codes
      can make it panic ([calls_return], [stale_collides]); a
      failed call leaves no trace ([failed_call_undone]) and takes its gas
      ([failed_call_takes_gas]); a failed creation leaves only the creator's
      nonce ([creation_returns]); a static call writes nothing if it does not reach a
      method of the deposit contract that does ([static_call_writes_nothing]); words are computed with as
      numbers modulo 2^256 ([operations_exact]), jumps go only to instructions
      ([has_exact]), and the modular power is one ([bigModExp_correct]).
    - Online states: votes are the node's own observations, and a finished
      proposal has a quorum.
    - Behaviour that the code does not seem to intend is stated as it is:
      [RlpHash_signed_messages_constant], [VerifySignWithValidate_panics],
      [only_first_request_voted], [message_keeps_last_vote],
      [accepted_change_is_empty], [rollback_votes_twice], [readded_vote_lost],
      [CalState_remain_is_elapsed], [GetPOSNotifyMsg_any],
      [leader_lost_after_reelection], [behind_never_answered],
      [resend_invalidates_result], [timer_stops_on_exact_boundary],
      [execute_ignores_roots], [difficulty_corrupts_constant],
      [twist_shifts_other_word], [ratio_is_constant], [stake_in_small_units],
      [newcomer_has_no_stock], [position_overflow],
      [StaticCall_announces_withdrawal], [result_coinbase_free],
      [refund_keeps_node], [shared_node_hides_depositor], [half_zero_id_lost],
      [keys_collide], [negative_big_lost], [nested_array_offset],
      [slice_of_arrays_overlaps], [slice_of_strings_fails],
      [stale_request_blocks], [pendingBlock_deadlocks],
      [byte_array_of_one_zero], [byte_array_slice_loops],
      [optional_two_encodings], [touched_account_stays], [reset_not_written],
      [copy_loses_reset], [static_call_writes_deposit],
      [deposit_list_unmetered], [deposit_list_panics], [memory_price_wraps],
      [stale_bitmap_panics], [bigModExp_panics], [late_answer_stored],
      [self_leader_votes_twice].

    The first of these limits the others: hashes of re-election and online-state
    messages are constant, so a quorum for such a message is a quorum for all of
    its kind.  [one_vote_per_turn] is about one process; [rollback_votes_twice]
    shows that the service as a whole does not have this property when the
    height goes down.

    ** Bounds

    A loop that is not structural takes fuel, and lemmas show that it is enough:
    the length of the input for [CountValues], the number of votes for the limit
    per account of the vote pool, the number of transactions left for
    [commit_loop], twenty rounds for the least hash of the last twenty blocks
    ([min_loop]), and one round per input byte for the loops of the decoder
    (every value is at least a byte long).  The loop of the interpreter takes
    one unit of fuel per instruction, passed on to inner calls; every instruction
    that does not end the run costs gas, so that fuel above the gas of the call is
    enough ([loop_ok]).  Theorems on calls assume at most 2^62 gas ([max_gas]) and
    inputs of at most 2^40 bytes, more than memory can hold ([max_len]); the class
    [GasLimit] is the bound of a proof, and up to 2^46 gas ([modexp_gas]) no operand
    of the modular power is too long for a slice ([bigModExp_panics]).  The size of an integer takes one round per byte of a 64-bit
    integer, and [powerf] one per bit of its exponent.  Theorems on the vote count assume at most
    4096 validators with 16-bit stocks ([stocks_ok]), within which the float64
    target and the 64-bit sums are exact; theorems on encodings assume fewer
    than 2^64 bytes (2^63 for contract arguments, whose offsets are signed);
    theorems on deposits assume fewer than 2^64 - 1 calls and callers with one
    of their first ten bytes set ([plain]), whose storage keys do not meet those
    of the list; theorems on times assume readings within an epoch that
    keeps int64 sums from wrapping ([in_epoch]); theorems on elections assume
    distinct node ids, and those on topologies at most 4096 nodes of a role, as
    many as a position has room for.

    ** Parameters

    The secp256k1 library and Keccak ([Crypto]; theorems on the virtual machine
    assume nothing of its collisions: the one panic that a collision can cause is an
    end of its own, [StaleBitmap]), the hash functions and the elliptic curve of
    the precompiled contracts ([Natives], with [NativeLaws]), the machine that
    executes a block ([EVM], with the laws [EVMLaws] on balances and gas and
    [StateLaws] on repeated roots, which [Accounts.machine] satisfies; they speak of
    all states and all calls return, while [Evm] keeps them on the states that [evm_ok]
    describes and can panic, so it is not an instance), tries and the database under them ([Tries], with the laws [TrieLaws], which finite maps
    satisfy), the roots of transaction and receipt lists, hashimoto, the hash of the method
    signatures of the deposit contract, the chain's headers, states,
    deposits and broadcast transactions, the transaction pool, the node's signer
    and address, key generation and the curve check of the random seeds, clocks,
    and [common.NewResendMsgCtrl], which the sources call and do not contain.
    Block verification is proved for any header check, execution and re-election
    service; [Agreement] and [Epoch] put the modelled ones in their place.

    ** Not modelled

    The identity service, the transaction pool, the import of blocks and the
    storage under it, networking, and the user interfaces.  Of the virtual machine
    tracing, the cancellation of a run and the pool of integers are left out, and
    running out of memory: a slice that Go could make is made.  Of the decoder, types with methods of their own, raw values and readers without a
    limit are left out; of the argument codec the parsing of type names; of the
    miner the threads of its agents.  The lists
    that updateNative.go maintains are left out because nothing reaches that
    code, the 64-bit generator of mt19937.go because nothing uses it.  Of the
    re-election service two generations that run at the same time are left out; an
    answer that comes late stays in its channel and is taken for that of a later
    request, as in the code, and theorems say where they exclude it.  To be
    added, in this order: the identity service's view of topologies and roles,
    the transaction pool under the leader's packing, and the import of blocks. *)

From stdpp Require Export base gmap fin_maps list sets.
From Stdlib Require Export ZArith NArith Lia.

(** ** Machine integers

    Unsigned machine integers are kept as [Z] values; every operation of the
    source that can wrap is followed by the truncation to its width. *)

Declare Scope go_scope.
Delimit Scope go_scope with go.
Open Scope Z_scope.

Definition u8 (x : Z) : Z := x mod 2 ^ 8.
Definition u16 (x : Z) : Z := x mod 2 ^ 16.
Definition u32 (x : Z) : Z := x mod 2 ^ 32.
Definition u64 (x : Z) : Z := x mod 2 ^ 64.

(** Signed 64-bit arithmetic wraps to [-2^63, 2^63). *)
Definition i64 (x : Z) : Z := (x + 2 ^ 63) mod 2 ^ 64 - 2 ^ 63.
Definition in_i64 (x : Z) : Prop := - 2 ^ 63 <= x < 2 ^ 63.

(** [in_u64 x]: [x] is the value of a [uint64]; likewise for the other widths. *)
Definition in_u8 (x : Z) : Prop := 0 <= x < 2 ^ 8.
Definition in_u16 (x : Z) : Prop := 0 <= x < 2 ^ 16.
Definition in_u32 (x : Z) : Prop := 0 <= x < 2 ^ 32.
Definition in_u64 (x : Z) : Prop := 0 <= x < 2 ^ 64.

(** ** Fallible code: a value or an error of the component's error type. *)

Inductive res (E A : Type) : Type :=
| Ok (a : A)
| Err (e : E).
Arguments Ok {E A} a.
Arguments Err {E A} e.

Definition is_ok {E A} (r : res E A) : bool :=
  match r with Ok _ => true | Err _ => false end.

(** [if err != nil { return err }]. *)
Notation "'let?' x := m 'in' k" :=
  (match m with Ok x => k | Err e => Err e end)
  (at level 10, x pattern, m at level 200, k at level 200) : go_scope.
Open Scope go_scope.

(** A loop that threads a state and returns at the first error, and one that
    collects results. *)
Definition foldM {E A W} (f : A -> W -> res E W) : list A -> W -> res E W :=
  fix go l w :=
    match l with
    | [] => Ok w
    | x :: l' => let? w' := f x w in go l' w'
    end.

Definition mapM {E A B} (f : A -> res E B) : list A -> res E (list B) :=
  fix go l :=
    match l with
    | [] => Ok []
    | x :: l' => let? y := f x in let? ys := go l' in Ok (y :: ys)
    end.

(** ** Iteration over a Go map

    Go leaves the iteration order of [for k, v := range m] unspecified.  The
    order is a parameter of the model: [range m] lists the bindings of [m] in
    some order, and nothing else is known about it. *)
Class GoRange := {
  range : forall {K V : Type} `{Countable K}, gmap K V -> list (K * V);
  range_perm : forall {K V : Type} `{Countable K} (m : gmap K V),
      range m ≡ₚ map_to_list m
}.

(** One order the theorems can be evaluated at. *)
Definition sorted_range : GoRange :=
  {| range := fun K V _ _ m => map_to_list m;
     range_perm := fun K V _ _ m => reflexivity _ |}.

Definition range_values `{GoRange} {K V} `{Countable K} (m : gmap K V) : list V :=
  (range m).*2.

(** ** Automation *)

Create HintDb go discriminated.
Create Rewrite HintDb go_rw.

(** Break the innermost [match]/[if] of the goal or of a hypothesis. *)
Ltac case_step :=
  match goal with
  | H : context [match ?x with _ => _ end] |- _ =>
      lazymatch x with context [match _ with _ => _ end] => fail | _ => destruct x eqn:? end
  | |- context [match ?x with _ => _ end] =>
      lazymatch x with context [match _ with _ => _ end] => fail | _ => destruct x eqn:? end
  end.
Ltac cases := repeat (case_step; simplify_eq/=); simplify_eq/=.

(** Turn boolean comparisons of [Z] in the context into propositions. *)
Ltac bool_to_prop :=
  repeat match goal with
  | H : _ && _ = true |- _ => apply andb_true_iff in H; destruct H
  | H : _ || _ = false |- _ => apply orb_false_iff in H; destruct H
  | H : negb _ = true |- _ => apply negb_true_iff in H
  | H : negb _ = false |- _ => apply negb_false_iff in H
  | H : (_ =? _) = true |- _ => apply Z.eqb_eq in H
  | H : (_ =? _) = false |- _ => apply Z.eqb_neq in H
  | H : (_ <? _) = true |- _ => apply Z.ltb_lt in H
  | H : (_ <? _) = false |- _ => apply Z.ltb_ge in H
  | H : (_ <=? _) = true |- _ => apply Z.leb_le in H
  | H : (_ <=? _) = false |- _ => apply Z.leb_gt in H
  | H : bool_decide _ = true |- _ => apply bool_decide_eq_true in H
  | H : bool_decide _ = false |- _ => apply bool_decide_eq_false in H
  end.

(** Decide the integer comparisons of the goal that the context settles. *)
Ltac decide_cmp :=
  repeat match goal with
  | |- context [?a <? ?b] =>
      first [ rewrite (proj2 (Z.ltb_lt a b)) by lia | rewrite (proj2 (Z.ltb_ge a b)) by lia ]
  | |- context [?a <=? ?b] =>
      first [ rewrite (proj2 (Z.leb_le a b)) by lia | rewrite (proj2 (Z.leb_gt a b)) by lia ]
  | |- context [?a =? ?b] =>
      first [ rewrite (proj2 (Z.eqb_eq a b)) by lia | rewrite (proj2 (Z.eqb_neq a b)) by lia ]
  end.

(** ** Lemmas shared by the components *)

Lemma u32_small x : in_u32 x -> u32 x = x.
Proof. intros ?. by apply Z.mod_small. Qed.

Lemma u64_small x : in_u64 x -> u64 x = x.
Proof. intros ?. by apply Z.mod_small. Qed.

Lemma i64_small x : in_i64 x -> i64 x = x.
Proof. unfold in_i64, i64. intros. rewrite Z.mod_small; lia. Qed.

Lemma u32_range x : in_u32 (u32 x).
Proof. by apply Z.mod_pos_bound. Qed.

Lemma u64_range x : in_u64 (u64 x).
Proof. by apply Z.mod_pos_bound. Qed.

#[export] Hint Resolve u32_range u64_range : go.
#[export] Hint Rewrite u32_small u64_small using assumption : go_rw.

Section range_lemmas.
Context `{GoRange} {K V : Type} `{Countable K}.
Implicit Types (m : gmap K V).

Lemma range_elem_of m k v : (k, v) ∈ range m <-> m !! k = Some v.
Proof. rewrite range_perm. apply elem_of_map_to_list. Qed.

Lemma range_NoDup_fst m : NoDup (range m).*1.
Proof. rewrite range_perm. apply NoDup_fst_map_to_list. Qed.

Lemma range_NoDup m : NoDup (range m).
Proof. rewrite range_perm. apply NoDup_map_to_list. Qed.

Lemma range_values_elem_of m v :
  v ∈ range_values m <-> exists k, m !! k = Some v.
Proof.
  unfold range_values. rewrite list_elem_of_fmap. split.
  - intros ([k w] & -> & Hin). exists k. by apply range_elem_of.
  - intros (k & Hk). exists (k, v). split; [done|]. by apply range_elem_of.
Qed.

Lemma length_range m : length (range m) = size m.
Proof. rewrite range_perm. apply length_map_to_list. Qed.

Lemma length_range_values m : length (range_values m) = size m.
Proof. unfold range_values. rewrite length_fmap. apply length_range. Qed.
End range_lemmas.

(** ** Sums and filters *)

Definition zsum (l : list Z) : Z := foldr Z.add 0 l.

Lemma zsum_app l k : zsum (l ++ k) = zsum l + zsum k.
Proof. induction l; simpl; lia. Qed.

#[export] Instance zsum_Permutation : Proper (Permutation ==> eq) zsum.
Proof. induction 1; simpl; lia. Qed.

Lemma zsum_nonneg l : Forall (fun x => 0 <= x) l -> 0 <= zsum l.
Proof. induction 1; simpl; lia. Qed.

Lemma zsum_bound l b : Forall (fun x => x <= b) l -> zsum l <= b * Z.of_nat (length l).
Proof. induction 1; simpl; lia. Qed.

Lemma zsum_submseteq l k : Forall (fun x => 0 <= x) k -> l ⊆+ k -> zsum l <= zsum k.
Proof.
  intros Hk [r Hr]%submseteq_Permutation. rewrite Hr in Hk |- *. rewrite zsum_app.
  apply Forall_app in Hk as [_ Hk%zsum_nonneg]. lia.
Qed.

(** A wrapping sum of small values does not wrap. *)
Lemma foldl_u64_sum l acc :
  0 <= acc -> Forall (fun x => 0 <= x) l -> acc + zsum l < 2 ^ 64 ->
  foldl (fun a s => u64 (a + s)) acc l = acc + zsum l.
Proof.
  intros Ha Hl. revert acc Ha. induction Hl as [|x l Hx Hl IH]; intros acc Ha Hb; simpl in *; [lia|].
  pose proof (zsum_nonneg l Hl). rewrite u64_small by (unfold in_u64; lia).
  rewrite IH; lia.
Qed.

Section filter_lemmas.
Context {A : Type} (P : A -> Prop) `{!forall x, Decision (P x)}.

Lemma filter_partition_length (l : list A) :
  (length (filter P l) + length (filter (fun x => ~ P x) l) = length l)%nat.
Proof.
  induction l as [|x l IH]; [done|]. rewrite !filter_cons.
  destruct (decide (P x)), (decide (~ P x)); simpl; try tauto; lia.
Qed.

Lemma Forall_filter (Q : A -> Prop) (l : list A) : Forall Q l -> Forall Q (filter P l).
Proof.
  rewrite !Forall_forall. intros Hl x [_ Hx]%list_elem_of_filter. by apply Hl.
Qed.

Lemma filter_fmap {B} (f : B -> A) (l : list B) :
  filter P (f <$> l) = f <$> filter (fun y => P (f y)) l.
Proof.
  induction l as [|y l IH]; [done|]. rewrite fmap_cons, !filter_cons, IH.
  by destruct (decide (P (f y))).
Qed.
End filter_lemmas.

Lemma size_list_to_set_le `{Countable A} (l : list A) :
  (size (list_to_set l : gset A) <= length l)%nat.
Proof.
  induction l as [|x l IH]; [rewrite list_to_set_nil, size_empty; done|].
  rewrite list_to_set_cons, size_union_alt, size_singleton. cbn [length].
  assert (size (list_to_set (C:=gset A) l ∖ {[x]}) <= size (list_to_set (C:=gset A) l))%nat
    by (by apply subseteq_size, subseteq_difference_l). lia.
Qed.

Lemma length_omap_le {A B} (f : A -> option B) l : (length (omap f l) <= length l)%nat.
Proof. 
  induction l as [|x l IH]; [done|].
  change (omap f (x :: l)) with (match f x with Some y => y :: omap f l | None => omap f l end).
  destruct (f x); cbn [length]; lia.
Qed.
