(* ===== verification/Float64.v ===== *)
(** * The float64 arithmetic of the DPOS target computation and of the election

    Go's [float64] is IEEE 754 binary64.  The operations below are the
    executable reference semantics of that format (53-bit significand, maximal
    exponent 1024) with round-to-nearest-even: conversion from an integer, the
    rounding of a decimal constant, the four operations, the comparison, and
    conversions back to an integer, by truncation or after [math.Ceil].  Every
    operation rounds, as compiled code for amd64 does: no product is fused with
    a sum. *)

From Corelib Require Import SpecFloat.
From S2P Require Import Prelude.

Module Float64.

Definition prec : Z := 53.
Definition emax : Z := 1024.

(** [float64(n)] for an integer [n]. *)
Definition of_int (n : Z) : spec_float :=
  match n with
  | Z0 => S754_zero false
  | Zpos p => binary_round prec emax false p 0
  | Zneg p => binary_round prec emax true p 0
  end.

(** The float64 nearest to the constant [num/den]. *)
Definition of_const (num den : Z) : spec_float :=
  SFdiv prec emax (of_int num) (of_int den).

Definition mul (x y : spec_float) : spec_float := SFmul prec emax x y.

(** [int(math.Ceil(x))] on finite values; the conversion of an infinity or a
    NaN is implementation-defined in Go and has no value here. *)
Definition ceil_int (x : spec_float) : option Z :=
  match x with
  | S754_zero _ => Some 0
  | S754_finite s m e =>
      let z := if s then Zneg m else Zpos m in
      Some (if 0 <=? e then z * 2 ^ e else - ((- z) / 2 ^ (- e)))
  | _ => None
  end.

Definition add (x y : spec_float) : spec_float := SFadd prec emax x y.
Definition sub (x y : spec_float) : spec_float := SFsub prec emax x y.
Definition div (x y : spec_float) : spec_float := SFdiv prec emax x y.
Definition ltb (x y : spec_float) : bool := SFltb x y.
Definition leb (x y : spec_float) : bool := SFleb x y.

(** [int(x)]: truncation towards zero.  The conversion of a NaN or of a value
    outside int64 is implementation-defined; amd64 gives the least int64. *)
Definition trunc_int (x : spec_float) : Z :=
  let z :=
    match x with
    | S754_zero _ => 0
    | S754_finite s m e =>
        let a := if 0 <=? e then Zpos m * 2 ^ e else Zpos m / 2 ^ (- e) in
        if s then - a else a
    | _ => - 2 ^ 63
    end in
  if (- 2 ^ 63 <=? z) && (z <? 2 ^ 63) then z else - 2 ^ 63.

End Float64.
