(* ===== verification/Common.v ===== *)
(** * Package [common]: identifiers, roles, positions, special heights and
      the re-use controller of messages

    Models common/broadcast.go, common/matrix.go, common/role_type.go, the
    signature and topology records of common/types.go and
    common/reuse_msg.go. *)

From S2P Require Import Prelude.

(** Fixed-size byte arrays are read as the big-endian natural they spell:
    [Address] has 20 bytes, [Hash] 32 and [Signature] 65.  The zero value of
    each ([common.Address{}] and so on) is [0]. *)
Abbreviation Address := N.
Abbreviation Hash := N.
Abbreviation Signature := N.

(** Role bit masks ([RoleType], a uint32). *)
Definition RoleNil : Z := 0x001.
Definition RoleDefault : Z := 0x002.
Definition RoleBucket : Z := 0x004.
Definition RoleBackupMiner : Z := 0x008.
Definition RoleMiner : Z := 0x010.
Definition RoleInnerMiner : Z := 0x020.
Definition RoleBackupValidator : Z := 0x040.
Definition RoleValidator : Z := 0x080.
Definition RoleBackupBroadcast : Z := 0x100.
Definition RoleBroadcast : Z := 0x200.

(** [ElectRoleType], a uint8. *)
Definition ElectRoleMiner : Z := 0.
Definition ElectRoleMinerBackUp : Z := 1.
Definition ElectRoleValidator : Z := 2.
Definition ElectRoleValidatorBackUp : Z := 3.

Definition Transfer2CommonRole (ert : Z) : Z :=
  if ert =? ElectRoleMiner then RoleMiner
  else if ert =? ElectRoleMinerBackUp then RoleBackupMiner
  else if ert =? ElectRoleValidator then RoleValidator
  else if ert =? ElectRoleValidatorBackUp then RoleBackupValidator
  else RoleNil.

(** [ElectRoleType(position >> 12)]: the uint16 is shifted, then converted. *)
Definition GetRoleTypeFromPosition (position : Z) : Z :=
  Transfer2CommonRole (u8 (Z.shiftr position 12)).

(** [uint16(electRole)<<12 + index]: both operations wrap at 16 bits. *)
Definition GeneratePosition (index electRole : Z) : Z :=
  u16 (u16 (Z.shiftl (u16 electRole) 12) + index).

(** Position markers of primary nodes that change state outside the topology. *)
Definition PosOffline : Z := 0xF000.
Definition PosOnline : Z := 0xF001.

Record VerifiedSign := mkVerifiedSign {
  vs_Sign : Signature;
  vs_Account : Address;
  vs_Validate : bool;
  vs_Stock : Z
}.

Record Elect := mkElect {
  el_Account : Address;
  el_Stock : Z;
  el_Type : Z
}.

Record NetTopologyData := mkNetTopologyData {
  ntd_Account : Address;
  ntd_Position : Z
}.

Definition NetTopoTypeAll : Z := 0.
Definition NetTopoTypeChange : Z := 1.

Record NetTopology := mkNetTopology {
  nt_Type : Z;
  nt_Data : list NetTopologyData
}.

#[export] Instance VerifiedSign_eq_dec : EqDecision VerifiedSign.
Proof. solve_decision. Defined.
#[export] Instance NetTopologyData_eq_dec : EqDecision NetTopologyData.
Proof. solve_decision. Defined.

(** ** Broadcast and re-election heights (common/broadcast.go) *)
Module Broadcast.

Definition broadcastInterval : Z := 20.
Definition reelectionInterval : Z := 60.

Definition IsBroadcastNumber (number : Z) : bool :=
  number mod broadcastInterval =? 0.

Definition IsReElectionNumber (number : Z) : bool :=
  number mod reelectionInterval =? 0.

Definition GetLastBroadcastNumber (number : Z) : Z :=
  if IsBroadcastNumber number then number
  else u64 ((number / broadcastInterval) * broadcastInterval).

Definition GetLastReElectionNumber (number : Z) : Z :=
  if IsReElectionNumber number then number
  else u64 ((number / reelectionInterval) * reelectionInterval).

Definition GetNextBroadcastNumber (number : Z) : Z :=
  if IsBroadcastNumber number then number
  else u64 (u64 (number / broadcastInterval + 1) * broadcastInterval).

Definition GetNextReElectionNumber (number : Z) : Z :=
  if IsReElectionNumber number then number
  else u64 (u64 (number / reelectionInterval + 1) * reelectionInterval).

(** The last multiple of [n] at or below [x], computed the way the code does. *)
Lemma last_multiple_bounds n x :
  0 < n -> 0 <= x -> n * (x / n) <= x < n * (x / n) + n.
Proof.
  intros Hn Hx. pose proof (Z.div_mod x n ltac:(lia)).
  pose proof (Z.mod_pos_bound x n Hn). lia.
Qed.

Lemma multiple_cases n x y :
  0 < n -> x mod n = 0 -> y mod n = 0 -> x < y -> x + n <= y.
Proof.
  intros Hn Hx Hy Hlt.
  apply Z.mod_divide in Hx as [a ->]; [|lia].
  apply Z.mod_divide in Hy as [b ->]; [|lia].
  apply Z.mul_lt_mono_pos_r in Hlt; [nia|lia].
Qed.

Lemma IsBroadcastNumber_true x : IsBroadcastNumber x = true <-> x mod 20 = 0.
Proof. unfold IsBroadcastNumber. rewrite Z.eqb_eq. done. Qed.

Lemma IsReElectionNumber_true x : IsReElectionNumber x = true <-> x mod 60 = 0.
Proof. unfold IsReElectionNumber. rewrite Z.eqb_eq. done. Qed.

(** Every re-election height is a broadcast height. *)
Lemma reelection_is_broadcast x :
  IsReElectionNumber x = true -> IsBroadcastNumber x = true.
Proof.
  rewrite IsReElectionNumber_true, IsBroadcastNumber_true. intros Hx.
  apply Z.mod_divide in Hx as [a ->]; [|lia].
  replace (a * 60) with (a * 3 * 20) by lia. by apply Z.mod_mul.
Qed.

Lemma not_two_broadcasts_in_a_row x :
  IsBroadcastNumber x = true -> IsBroadcastNumber (x + 1) = false.
Proof.
  unfold IsBroadcastNumber, broadcastInterval. rewrite Z.eqb_eq, Z.eqb_neq.
  intros. Z.div_mod_to_equations. lia.
Qed.

(** Both lookups around a height, given that the next multiple fits 64 bits. *)
Lemma GetLastBroadcastNumber_spec number :
  in_u64 number ->
  IsBroadcastNumber (GetLastBroadcastNumber number) = true /\
  GetLastBroadcastNumber number <= number < GetLastBroadcastNumber number + 20.
Proof.
  intros Hn. unfold GetLastBroadcastNumber.
  destruct (IsBroadcastNumber number) eqn:E; [split; [done|lia]|].
  unfold in_u64 in Hn.
  pose proof (last_multiple_bounds 20 number ltac:(lia) ltac:(lia)).
  unfold broadcastInterval. rewrite u64_small by (unfold in_u64; lia).
  split; [|lia]. apply IsBroadcastNumber_true. by apply Z.mod_mul.
Qed.

Lemma GetNextBroadcastNumber_spec number :
  0 <= number -> number + 20 < 2 ^ 64 ->
  IsBroadcastNumber (GetNextBroadcastNumber number) = true /\
  number <= GetNextBroadcastNumber number < number + 20.
Proof.
  intros Hn Hb. unfold GetNextBroadcastNumber.
  destruct (IsBroadcastNumber number) eqn:E; [split; [done|lia]|].
  unfold IsBroadcastNumber, broadcastInterval in *. bool_to_prop.
  pose proof (last_multiple_bounds 20 number ltac:(lia) ltac:(lia)).
  pose proof (Z.mod_pos_bound number 20 ltac:(lia)).
  pose proof (Z.div_mod number 20 ltac:(lia)).
  rewrite (u64_small (number / 20 + 1)) by (unfold in_u64; lia).
  rewrite u64_small by (unfold in_u64; lia).
  split; [|lia]. apply Z.eqb_eq. by apply Z.mod_mul.
Qed.

End Broadcast.

(** ** Message re-use control (common/reuse_msg.go)

    The payload is opaque; [useTime] is in seconds. *)
Module ReuseMsg.
Section ReuseMsg.
Context {Msg : Type}.

Inductive error := ErrMsgExist | ErrMsgNotExist | ErrUseMsgTooOften.

Record msgCache := mkMsgCache { mc_msg : Msg; mc_useTime : Z }.

Record ReuseMsgController := mkReuse {
  msgMap : gmap Hash msgCache;
  useInterval : Z
}.

Definition NewReuseMsgController (useInterval : Z) : ReuseMsgController :=
  {| msgMap := ∅; useInterval := useInterval |}.

Definition IsExistMsg (self : ReuseMsgController) (msgKey : Hash) : bool :=
  match msgMap self !! msgKey with Some _ => true | None => false end.

Definition AddMsg (self : ReuseMsgController) (msgKey : Hash) (msg : Msg)
    (lastUseTime : Z) : ReuseMsgController * option error :=
  if IsExistMsg self msgKey then (self, Some ErrMsgExist)
  else ({| msgMap := <[msgKey := mkMsgCache msg lastUseTime]> (msgMap self);
           useInterval := useInterval self |}, None).

Definition GetMsgList `{GoRange} (self : ReuseMsgController) : list Msg :=
  (fun v => mc_msg v) <$> range_values (msgMap self).

Definition GetMsgByKey (self : ReuseMsgController) (msgKey : Hash) : option Msg :=
  match msgMap self !! msgKey with
  | None => None
  | Some cache => Some (mc_msg cache)
  end.

(** [curTime] is the reading of [time.Now().Unix()]. *)
Definition ReUseMsg (self : ReuseMsgController) (msgKey : Hash) (curTime : Z)
    : ReuseMsgController * res error Msg :=
  match msgMap self !! msgKey with
  | None => (self, Err ErrMsgNotExist)
  | Some cache =>
      if curTime - mc_useTime cache <? useInterval self
      then (self, Err ErrUseMsgTooOften)
      else ({| msgMap := <[msgKey := mkMsgCache (mc_msg cache) curTime]> (msgMap self);
               useInterval := useInterval self |}, Ok (mc_msg cache))
  end.

(** A sequence of re-use attempts of one key at given times, with the times of
    the successful ones. *)
Fixpoint reuse_times (self : ReuseMsgController) (k : Hash) (times : list Z) : list Z :=
  match times with
  | [] => []
  | t :: ts =>
      match ReUseMsg self k t with
      | (self', Ok _) => t :: reuse_times self' k ts
      | (self', Err _) => reuse_times self' k ts
      end
  end.

End ReuseMsg.
Arguments msgCache : clear implicits.
Arguments ReuseMsgController : clear implicits.
End ReuseMsg.
