(* ===== verification/Rlp.v ===== *)
(** * Package [rlp]: the encoder with its list-header buffer, and the splitter

    Models rlp/encode.go (the type switch of [makeWriter], the per-kind writers,
    [encbuf] with its deferred list headers, [toBytes]), and rlp/raw.go
    ([readKind], [readSize], [Split] and friends).  Bytes are [Z] values.

    The reference semantics is [enc_item]: the usual recursive RLP encoding of
    a tree of strings.  The theorems show that the buffer-based encoder
    computes it, and that [Split] inverts it. *)

From S2P Require Import Prelude.
Set Warnings "-register-all".

Module Rlp.

Inductive error :=
| ErrNotSerializable      (* rlp: type %v is not RLP-serializable *)
| ErrNegativeBigInt       (* rlp: cannot encode negative *big.Int *)
| ErrUnexpectedEOF
| ErrCanonSize
| ErrValueTooLarge
| ErrExpectedString
| ErrExpectedList.

(** ** Integers as big-endian bytes *)

(** [byte(i >> (8*k))]. *)
Definition byte_of (i k : Z) : Z := u8 (Z.shiftr i (8 * k)).

(** [putint]: the bytes written for a uint64 [i]. *)
Definition putint (i : Z) : list Z :=
  if i <? 2 ^ 8 then [byte_of i 0]
  else if i <? 2 ^ 16 then [byte_of i 1; byte_of i 0]
  else if i <? 2 ^ 24 then [byte_of i 2; byte_of i 1; byte_of i 0]
  else if i <? 2 ^ 32 then [byte_of i 3; byte_of i 2; byte_of i 1; byte_of i 0]
  else if i <? 2 ^ 40 then
    [byte_of i 4; byte_of i 3; byte_of i 2; byte_of i 1; byte_of i 0]
  else if i <? 2 ^ 48 then
    [byte_of i 5; byte_of i 4; byte_of i 3; byte_of i 2; byte_of i 1; byte_of i 0]
  else if i <? 2 ^ 56 then
    [byte_of i 6; byte_of i 5; byte_of i 4; byte_of i 3; byte_of i 2; byte_of i 1; byte_of i 0]
  else
    [byte_of i 7; byte_of i 6; byte_of i 5; byte_of i 4; byte_of i 3; byte_of i 2; byte_of i 1; byte_of i 0].

(** [intsize]: the loop of the source; eight iterations exhaust a uint64. *)
Fixpoint intsize_loop (fuel : nat) (i size : Z) : Z :=
  match fuel with
  | O => size
  | S f => if Z.shiftr i 8 =? 0 then size else intsize_loop f (Z.shiftr i 8) (size + 1)
  end.
Definition intsize (i : Z) : Z := intsize_loop 8 i 1.

Definition headsize (size : Z) : Z := if size <? 56 then 1 else 1 + intsize size.

Definition puthead (smalltag largetag size : Z) : list Z :=
  if size <? 56 then [u8 (smalltag + size)]
  else let sz := putint size in u8 (largetag + Z.of_nat (length sz)) :: sz.

(** [big.Int.Bytes] of a non-negative integer: big-endian, no leading zero. *)
Fixpoint be_bytes (n : nat) (x : Z) : list Z :=
  match n with
  | O => []
  | S m => byte_of x (Z.of_nat m) :: be_bytes m x
  end.
Definition big_Bytes (x : Z) : list Z :=
  if x =? 0 then [] else be_bytes (Z.to_nat (Z.log2 x / 8 + 1)) x.

(** ** The encoding buffer *)

Record listhead := mkListhead { lh_offset : Z; lh_size : Z }.

Record encbuf := mkEncbuf {
  str : list Z;              (* everything except list headers *)
  lheads : list listhead;
  lhsize : Z                 (* sum of the sizes of the encoded list headers *)
}.

Definition empty_encbuf : encbuf := {| str := []; lheads := []; lhsize := 0 |}.

Definition append_str (b : list Z) (w : encbuf) : encbuf :=
  {| str := str w ++ b; lheads := lheads w; lhsize := lhsize w |}.

Definition size (w : encbuf) : Z := Z.of_nat (length (str w)) + lhsize w.

(** [encode] of a list header. *)
Definition listhead_encode (h : listhead) : list Z := puthead 0xC0 0xF7 (lh_size h).

Definition encodeStringHeader (sz : Z) (w : encbuf) : encbuf :=
  if sz <? 56 then append_str [u8 (0x80 + sz)] w
  else let s := putint sz in
       append_str (u8 (0xB7 + Z.of_nat (length s)) :: s) w.

Definition encodeString (b : list Z) (w : encbuf) : encbuf :=
  match b with
  | [b0] => if b0 <=? 0x7F then append_str [b0] w
            else append_str b (encodeStringHeader (Z.of_nat (length b)) w)
  | _ => append_str b (encodeStringHeader (Z.of_nat (length b)) w)
  end.

(** [list()] returns the position of the new header in [lheads]. *)
Definition list_start (w : encbuf) : nat * encbuf :=
  (length (lheads w),
   {| str := str w;
      lheads := lheads w ++ [mkListhead (Z.of_nat (length (str w))) (lhsize w)];
      lhsize := lhsize w |}).

Definition listEnd (lh : nat) (w : encbuf) : encbuf :=
  match lheads w !! lh with
  | None => w
  | Some h =>
      let sz := size w - lh_offset h - lh_size h in
      {| str := str w;
         lheads := <[lh := mkListhead (lh_offset h) sz]> (lheads w);
         lhsize := if sz <? 56 then lhsize w + 1 else lhsize w + (1 + intsize sz) |}
  end.

(** [toBytes]: merge the string data and the headers by offset. *)
Fixpoint merge_heads (s : list Z) (strpos : Z) (hs : list listhead) : list Z :=
  match hs with
  | [] => s
  | h :: hs' =>
      let n := Z.to_nat (lh_offset h - strpos) in
      take n s ++ listhead_encode h ++ merge_heads (drop n s) (lh_offset h) hs'
  end.
Definition toBytes (w : encbuf) : list Z := merge_heads (str w) 0 (lheads w).

(** ** Go types and values, as the reflection-based writers see them

    [TSigned] stands for every kind without a writer: signed integers, floats,
    maps, channels, functions.  Types with an [EncodeRLP] method of their own,
    [RawValue] and fields tagged "tail" are outside the modelled values. *)
Inductive gotype :=
| TUint | TBool | TString | TBytes | TByteArray | TBigInt | TSigned
| TSlice (t : gotype) | TArray (t : gotype)
| TStruct (fields : list gotype)
| TPtr (t : gotype)
| TIface.

Inductive goval :=
| VUint (n : Z)
| VBool (b : bool)
| VString (s : list Z)            (* a string, as its bytes *)
| VBytes (bs : list Z)            (* []byte and [n]byte *)
| VBigInt (i : option Z)          (* *big.Int, None = nil *)
| VSigned (z : Z)
| VSlice (vs : list goval)        (* slices and arrays of other element types *)
| VStruct (vs : list goval)
| VPtr (t : gotype) (v : option goval)
| VIface (v : option (gotype * goval)).

(** [makeWriter]: whether the type has a writer. *)
Fixpoint has_writer (t : gotype) : bool :=
  match t with
  | TSigned => false
  | TSlice t' | TArray t' | TPtr t' => has_writer t'
  | TStruct fs => forallb has_writer fs
  | _ => true
  end.

Definition writeUint (i : Z) (w : encbuf) : encbuf :=
  if i =? 0 then append_str [0x80] w
  else if i <? 128 then append_str [u8 i] w
  else let s := putint i in append_str (u8 (0x80 + Z.of_nat (length s)) :: s) w.

Definition writeBool (b : bool) (w : encbuf) : encbuf :=
  append_str [if b then 0x01 else 0x80] w.

Definition writeString (s : list Z) (w : encbuf) : encbuf :=
  match s with
  | [s0] => if s0 <=? 0x7F then append_str [s0] w
            else append_str s (encodeStringHeader (Z.of_nat (length s)) w)
  | _ => append_str s (encodeStringHeader (Z.of_nat (length s)) w)
  end.

Definition writeBytes (bs : list Z) (w : encbuf) : encbuf := encodeString bs w.

Definition writeBigInt (i : Z) (w : encbuf) : res error encbuf :=
  if i <? 0 then Err ErrNegativeBigInt
  else if i =? 0 then Ok (append_str [0x80] w)
  else Ok (encodeString (big_Bytes i) w).

Definition writeBigIntPtr (i : option Z) (w : encbuf) : res error encbuf :=
  match i with None => Ok (append_str [0x80] w) | Some z => writeBigInt z w end.

(** The nil-pointer handler of [makePtrWriter] for element type [t]. *)
Fixpoint nilfunc (t : gotype) (w : encbuf) : encbuf :=
  match t with
  | TByteArray => append_str [0x80] w
  | TStruct _ | TArray _ | TSlice _ =>
      let '(lh, w1) := list_start w in listEnd lh w1
  | TPtr t' => nilfunc t' w
  | TIface => append_str [0xC0] w
  | TUint => writeUint 0 w
  | TBool => writeBool false w
  | TString => writeString [] w
  | TBytes => writeBytes [] w
  | TBigInt => append_str [0x80] w
  | TSigned => w
  end.

Fixpoint writer (v : goval) (w : encbuf) {struct v} : res error encbuf :=
  match v with
  | VUint n => Ok (writeUint n w)
  | VBool b => Ok (writeBool b w)
  | VString s => Ok (writeString s w)
  | VBytes bs => Ok (writeBytes bs w)
  | VBigInt i => writeBigIntPtr i w
  | VSigned _ => Err ErrNotSerializable
  | VSlice vs | VStruct vs =>
      let '(lh, w1) := list_start w in
      let? w2 := foldM writer vs w1 in
      Ok (listEnd lh w2)
  | VPtr t None => Ok (nilfunc t w)
  | VPtr _ (Some v') => writer v' w
  | VIface None => Ok (append_str [0xC0] w)
  | VIface (Some (t, v')) =>
      if has_writer t then writer v' w else Err ErrNotSerializable
  end.

(** [reflect.ValueOf] unpacks interfaces, so the value given to [EncodeToBytes] is
    never of an interface type itself; an untyped nil argument, on which the
    source panics, is not a value here. *)
Definition EncodeToBytes (t : gotype) (v : goval) : res error (list Z) :=
  if has_writer t
  then let? w := writer v empty_encbuf in Ok (toBytes w)
  else Err ErrNotSerializable.

(** ** raw.go *)

Inductive Kind := Byte | String | List.

Definition read_be (b : list Z) (slen : nat) : Z :=
  foldl (fun acc x => Z.lor (Z.shiftl acc 8) x) 0 (take slen b).

Definition readSize (b : list Z) (slen : Z) : res error Z :=
  if Z.of_nat (length b) <? slen then Err ErrUnexpectedEOF
  else
    let s := read_be b (Z.to_nat slen) in
    if (s <? 56) || (default 0 (b !! 0%nat) =? 0) then Err ErrCanonSize
    else Ok s.

Definition readKind (buf : list Z) : res error (Kind * Z * Z) :=
  match buf with
  | [] => Err ErrUnexpectedEOF
  | b :: buf1 =>
      let? (k, tagsize, contentsize) :=
        if b <? 0x80 then Ok (Byte, 0, 1)
        else if b <? 0xB8 then
          let cs := b - 0x80 in
          if (cs =? 1) && (match buf1 with b1 :: _ => b1 <? 128 | [] => false end)
          then Err ErrCanonSize
          else Ok (String, 1, cs)
        else if b <? 0xC0 then
          let? cs := readSize buf1 (b - 0xB7) in Ok (String, b - 0xB7 + 1, cs)
        else if b <? 0xF8 then Ok (List, 1, b - 0xC0)
        else let? cs := readSize buf1 (b - 0xF7) in Ok (List, b - 0xF7 + 1, cs)
      in
      if u64 (Z.of_nat (length buf) - tagsize) <? contentsize
      then Err ErrValueTooLarge
      else Ok (k, tagsize, contentsize)
  end.

Definition Split (b : list Z) : res error (Kind * list Z * list Z) :=
  let? (k, ts, cs) := readKind b in
  Ok (k, take (Z.to_nat cs) (drop (Z.to_nat ts) b), drop (Z.to_nat (ts + cs)) b).

Definition SplitString (b : list Z) : res error (list Z * list Z) :=
  let? (k, content, rest) := Split b in
  match k with
  | List => Err ErrExpectedString
  | _ => Ok (content, rest)
  end.

Definition SplitList (b : list Z) : res error (list Z * list Z) :=
  let? (k, content, rest) := Split b in
  match k with
  | List => Ok (content, rest)
  | _ => Err ErrExpectedList
  end.

(** [CountValues]: every iteration consumes at least one byte, so the length
    of the input is enough fuel. *)
Fixpoint CountValues_loop (fuel : nat) (b : list Z) (i : Z) : res error Z :=
  match b with
  | [] => Ok i
  | _ =>
      match fuel with
      | O => Ok i
      | S f =>
          let? (_, tagsize, sz) := readKind b in
          CountValues_loop f (drop (Z.to_nat (tagsize + sz)) b) (i + 1)
      end
  end.
Definition CountValues (b : list Z) : res error Z := CountValues_loop (length b) b 0.

Definition ListSize (contentSize : Z) : Z := u64 (headsize contentSize + contentSize).

(** ** Reference semantics *)

Inductive item := Str (b : list Z) | Lst (l : list item).

Definition enc_str (b : list Z) : list Z :=
  match b with
  | [b0] => if b0 <=? 0x7F then [b0] else puthead 0x80 0xB7 1 ++ b
  | _ => puthead 0x80 0xB7 (Z.of_nat (length b)) ++ b
  end.

Fixpoint enc_item (it : item) : list Z :=
  match it with
  | Str b => enc_str b
  | Lst l =>
      let c := concat (map enc_item l) in
      puthead 0xC0 0xF7 (Z.of_nat (length c)) ++ c
  end.

(** The tree a Go value denotes. *)
Fixpoint nil_item (t : gotype) : item :=
  match t with
  | TStruct _ | TArray _ | TSlice _ | TIface => Lst []
  | TPtr t' => nil_item t'
  | _ => Str []
  end.

Fixpoint item_of (v : goval) : res error item :=
  match v with
  | VUint n => Ok (Str (big_Bytes n))
  | VBool b => Ok (Str (if b then [1] else []))
  | VString bs | VBytes bs => Ok (Str bs)
  | VBigInt None => Ok (Str [])
  | VBigInt (Some z) => if z <? 0 then Err ErrNegativeBigInt else Ok (Str (big_Bytes z))
  | VSigned _ => Err ErrNotSerializable
  | VSlice vs | VStruct vs =>
      let? l := mapM item_of vs in Ok (Lst l)
  | VPtr t None => Ok (nil_item t)
  | VPtr _ (Some v') => item_of v'
  | VIface None => Ok (Lst [])
  | VIface (Some (t, v')) => if has_writer t then item_of v' else Err ErrNotSerializable
  end.

(** ** Sizes of the integer encodings *)

Lemma byte_of_range i k : 0 <= byte_of i k < 256.
Proof. apply Z.mod_pos_bound. lia. Qed.

Lemma be_bytes_length n x : length (be_bytes n x) = n.
Proof. induction n; simpl; congruence. Qed.

(** Values with exactly [n] significant bytes. *)
Definition nbytes (n : nat) (x : Z) : Prop :=
  2 ^ (8 * (Z.of_nat n - 1)) <= x < 2 ^ (8 * Z.of_nat n).

Lemma nbytes_log2 n x : (0 < n)%nat -> nbytes n x -> Z.to_nat (Z.log2 x / 8 + 1) = n.
Proof.
  intros Hn [Hl Hu].
  assert (0 < 2 ^ (8 * (Z.of_nat n - 1))) by (apply Z.pow_pos_nonneg; lia).
  assert (8 * (Z.of_nat n - 1) <= Z.log2 x) by (apply Z.log2_le_pow2; lia).
  assert (Z.log2 x < 8 * Z.of_nat n) by (apply Z.log2_lt_pow2; lia).
  assert (Z.log2 x / 8 = Z.of_nat n - 1) by (Z.div_mod_to_equations; lia). lia.
Qed.

Lemma u64_nbytes x :
  0 < x -> in_u64 x -> exists n, (1 <= n <= 8)%nat /\ nbytes n x.
Proof.
  intros Hx [_ Hu]. unfold nbytes.
  destruct (Z.lt_ge_cases x (2 ^ 8)); [exists 1%nat; simpl; lia|].
  destruct (Z.lt_ge_cases x (2 ^ 16)); [exists 2%nat; simpl; lia|].
  destruct (Z.lt_ge_cases x (2 ^ 24)); [exists 3%nat; simpl; lia|].
  destruct (Z.lt_ge_cases x (2 ^ 32)); [exists 4%nat; simpl; lia|].
  destruct (Z.lt_ge_cases x (2 ^ 40)); [exists 5%nat; simpl; lia|].
  destruct (Z.lt_ge_cases x (2 ^ 48)); [exists 6%nat; simpl; lia|].
  destruct (Z.lt_ge_cases x (2 ^ 56)); [exists 7%nat; simpl; lia|].
  exists 8%nat; simpl; lia.
Qed.

(** Case analysis on the number of bytes of a uint64. *)
Ltac nbytes_cases n :=
  destruct n as [|[|[|[|[|[|[|[|[|n]]]]]]]]]; try lia.

Lemma putint_be n x : (1 <= n <= 8)%nat -> nbytes n x -> putint x = be_bytes n x.
Proof.
  intros Hn [Hl Hu]. unfold putint.
  nbytes_cases n; simpl in Hl, Hu;
    repeat (match goal with |- context [?a <? ?b] => destruct (Z.ltb_spec a b); [try lia|try lia] end);
    try reflexivity.
Qed.

Lemma intsize_nbytes n x : (1 <= n <= 8)%nat -> nbytes n x -> intsize x = Z.of_nat n.
Proof.
  intros Hn [Hl Hu]. unfold intsize.
  assert (Hs : forall k, 0 <= k -> Z.shiftr x (8 * k) = x / 2 ^ (8 * k))
    by (intros; apply Z.shiftr_div_pow2; lia).
  assert (Hstep : forall f k, 0 <= k ->
    intsize_loop (S f) (Z.shiftr x (8 * k)) (k + 1)
    = if Z.shiftr x (8 * (k + 1)) =? 0 then k + 1
      else intsize_loop f (Z.shiftr x (8 * (k + 1))) (k + 1 + 1)).
  { intros f k Hk. cbn [intsize_loop].
    rewrite Z.shiftr_shiftr by lia. by replace (8 * k + 8) with (8 * (k + 1)) by lia. }
  assert (Hloop : forall m k f, Z.of_nat m + k = Z.of_nat n - 1 -> 0 <= k -> (m < f)%nat ->
    intsize_loop f (Z.shiftr x (8 * k)) (k + 1) = Z.of_nat n).
  { induction m as [|m IH]; intros k f Hm Hk Hf; (destruct f as [|f]; [lia|]);
      rewrite Hstep, Hs by lia.
    - replace (k + 1) with (Z.of_nat n) by lia.
      rewrite Z.div_small by lia. done.
    - destruct (Z.eqb_spec (x / 2 ^ (8 * (k + 1))) 0) as [E|_].
      + exfalso. assert (0 < 2 ^ (8 * (k + 1))) by (apply Z.pow_pos_nonneg; lia).
        assert (2 ^ (8 * (k + 1)) <= 2 ^ (8 * (Z.of_nat n - 1)))
          by (apply Z.pow_le_mono_r; lia).
        apply Z.div_small_iff in E; lia.
      + rewrite <- Hs by lia. apply (IH (k + 1)); lia. }
  specialize (Hloop (n - 1)%nat 0 8%nat). rewrite Z.mul_0_r, Z.shiftr_0_r in Hloop.
  apply Hloop; lia.
Qed.

Lemma putint_length x : 0 < x -> in_u64 x -> Z.of_nat (length (putint x)) = intsize x.
Proof.
  intros Hx Hu. destruct (u64_nbytes x Hx Hu) as (n & Hn & Hb).
  rewrite (putint_be n), (intsize_nbytes n), be_bytes_length by done. done.
Qed.

Lemma puthead_length t1 t2 n : in_u64 n -> Z.of_nat (length (puthead t1 t2 n)) = headsize n.
Proof.
  intros Hn. unfold puthead, headsize.
  destruct (Z.ltb_spec n 56); [done|].
  cbn [length]. rewrite Nat2Z.inj_succ, putint_length by (try done; lia). lia.
Qed.

(** ** The buffer relation

    [Seg w w' bs]: going from [w] to [w'] appended string data and headers that
    [toBytes] will merge to exactly [bs]. *)

Definition zlen (l : list Z) : Z := Z.of_nat (length l).
Definition shift (d : Z) (h : listhead) : listhead := mkListhead (lh_offset h + d) (lh_size h).

Definition merges (s : list Z) (hs : list listhead) (bs : list Z) : Prop :=
  forall rest p hs', Forall (fun h => p + zlen s <= lh_offset h) hs' ->
    merge_heads (s ++ rest) p (map (shift p) hs ++ hs')
    = bs ++ merge_heads rest (p + zlen s) hs'.

Definition Seg (w w' : encbuf) (bs : list Z) : Prop :=
  exists s hs,
    str w' = str w ++ s /\
    lheads w' = lheads w ++ map (shift (zlen (str w))) hs /\
    lhsize w' = lhsize w + (zlen bs - zlen s) /\
    Forall (fun h => 0 <= lh_offset h) hs /\
    merges s hs bs.

Lemma zlen_app a b : zlen (a ++ b) = zlen a + zlen b.
Proof. unfold zlen. rewrite length_app. lia. Qed.

Lemma zlen_nonneg a : 0 <= zlen a.
Proof. unfold zlen. lia. Qed.

Lemma shift_shift a b h : shift a (shift b h) = shift (a + b) h.
Proof. unfold shift; simpl. f_equal. lia. Qed.

Lemma merges_str s : merges s [] s.
Proof.
  intros rest p hs' Hhs. simpl. destruct hs' as [|h hs']; [done|].
  simpl. inversion Hhs as [|?? Hh _]; subst.
  assert (0 <= zlen s) by apply zlen_nonneg. unfold zlen in *.
  replace (Z.to_nat (lh_offset h - p))
    with (length s + Z.to_nat (lh_offset h - (p + Z.of_nat (length s))))%nat by lia.
  rewrite take_app_add, drop_app_add. by rewrite <- app_assoc.
Qed.

Lemma merges_app s1 hs1 b1 s2 hs2 b2 :
  Forall (fun h => 0 <= lh_offset h) hs2 ->
  merges s1 hs1 b1 -> merges s2 hs2 b2 ->
  merges (s1 ++ s2) (hs1 ++ map (shift (zlen s1)) hs2) (b1 ++ b2).
Proof.
  intros Hpos H1 H2 rest p hs' Hhs.
  rewrite <- app_assoc, map_app, <- app_assoc, H1.
  - rewrite map_map.
    rewrite (map_ext _ (shift (p + zlen s1))) by (intros; apply shift_shift).
    rewrite H2.
    + by rewrite <- app_assoc, zlen_app, Z.add_assoc.
    + rewrite zlen_app in Hhs. eapply Forall_impl; [exact Hhs|]. simpl. lia.
  - rewrite Forall_app. split.
    + apply Forall_map, Forall_map. eapply Forall_impl; [exact Hpos|]. simpl. lia.
    + rewrite zlen_app in Hhs. pose proof (zlen_nonneg s2).
      eapply Forall_impl; [exact Hhs|]. simpl. lia.
Qed.

Lemma merges_head s hs bs n :
  merges s hs bs ->
  merges s (mkListhead 0 n :: hs) (puthead 0xC0 0xF7 n ++ bs).
Proof.
  intros H rest p hs' Hhs.
  assert (Hn : Z.to_nat (lh_offset (shift p (mkListhead 0 n)) - p) = 0%nat) by (simpl; lia).
  cbn [map app merge_heads]. rewrite Hn, drop_0.
  replace (lh_offset (shift p (mkListhead 0 n))) with p by (simpl; lia).
  by rewrite H, <- app_assoc.
Qed.

Lemma Seg_str w bs : Seg w (append_str bs w) bs.
Proof.
  exists bs, []. unfold append_str; simpl. split; [done|].
  split; [by rewrite app_nil_r|]. split; [lia|]. split; [done|]. apply merges_str.
Qed.

Lemma Seg_app w1 w2 w3 a b : Seg w1 w2 a -> Seg w2 w3 b -> Seg w1 w3 (a ++ b).
Proof.
  intros (s1 & hs1 & Hs1 & Hh1 & Hz1 & Hp1 & Hm1) (s2 & hs2 & Hs2 & Hh2 & Hz2 & Hp2 & Hm2).
  exists (s1 ++ s2), (hs1 ++ map (shift (zlen s1)) hs2). split_and!.
  - by rewrite Hs2, Hs1, <- app_assoc.
  - rewrite Hh2, Hh1, Hs1, zlen_app, map_app, map_map, <- app_assoc.
    do 2 f_equal. apply map_ext. intros h. by rewrite shift_shift.
  - rewrite Hz2, Hz1, !zlen_app. lia.
  - apply Forall_app. split; [done|]. apply Forall_map.
    pose proof (zlen_nonneg s1). eapply Forall_impl; [exact Hp2|]. simpl. lia.
  - by apply merges_app.
Qed.

Lemma Seg_nil w : Seg w w [].
Proof.
  exists [], []. rewrite !app_nil_r. simpl. split_and!; try done; [lia|]. apply merges_str.
Qed.

Lemma Seg_list w w2 c lh w1 :
  list_start w = (lh, w1) -> in_u64 (zlen c) -> Seg w1 w2 c ->
  Seg w (listEnd lh w2) (puthead 0xC0 0xF7 (zlen c) ++ c).
Proof.
  intros Hst Hc (s & hs & Hs & Hh & Hz & Hp & Hm).
  injection Hst as <- <-. simpl in *.
  unfold listEnd. rewrite Hh, <- app_assoc.
  rewrite lookup_app_r, Nat.sub_diag by lia. simpl.
  assert (Hsz : size w2 - Z.of_nat (length (str w)) - lhsize w = zlen c).
  { unfold size. rewrite Hs, length_app, Hz. unfold zlen. lia. }
  rewrite Hsz. exists s, (mkListhead 0 (zlen c) :: hs); simpl. split_and!.
  - done.
  - rewrite insert_app_r_alt, Nat.sub_diag by lia. simpl. unfold shift at 1. simpl. done.
  - rewrite Hz, zlen_app. pose proof (puthead_length 0xC0 0xF7 (zlen c) Hc) as Hl.
    fold (zlen (puthead 0xC0 0xF7 (zlen c))) in Hl. rewrite Hl. unfold headsize.
    destruct (zlen c <? 56); lia.
  - constructor; [done|]. done.
  - by apply merges_head.
Qed.

Lemma Seg_toBytes w bs : Seg empty_encbuf w bs -> toBytes w = bs.
Proof.
  intros (s & hs & Hs & Hh & _ & _ & Hm). unfold toBytes. rewrite Hs, Hh.
  specialize (Hm [] 0 [] (Forall_nil_2 _)). rewrite !app_nil_r in Hm.
  change (zlen (str empty_encbuf)) with 0. cbn [str lheads empty_encbuf app].
  exact Hm.
Qed.

(** ** The writers produce the item's encoding *)

Lemma encodeString_Seg b w : Seg w (encodeString b w) (enc_str b).
Proof.
  assert (Hlong : Seg w (append_str b (encodeStringHeader (zlen b) w))
                    (puthead 0x80 0xB7 (zlen b) ++ b)).
  { eapply Seg_app; [|apply Seg_str].
    unfold encodeStringHeader, puthead. case_match; apply Seg_str. }
  unfold encodeString, enc_str. destruct b as [|b0 [|b1 bs]]; try apply Hlong.
  case_match; [apply Seg_str|apply Hlong].
Qed.

Lemma writeUint_Seg n w : in_u64 n -> Seg w (writeUint n w) (enc_str (big_Bytes n)).
Proof.
  intros Hn. enough (writeUint n w = encodeString (big_Bytes n) w) as ->
    by apply encodeString_Seg.
  unfold writeUint, big_Bytes.
  destruct (Z.eqb_spec n 0) as [->|Hn0]; [simpl; unfold encodeStringHeader, append_str; simpl; by rewrite app_nil_r|].
  assert (0 < n) by (unfold in_u64 in Hn; lia).
  destruct (u64_nbytes n ltac:(lia) Hn) as (k & Hk & Hb).
  rewrite (nbytes_log2 k), (putint_be k), be_bytes_length by (done || lia).
  assert (Hone : k = 1%nat -> be_bytes k n = [n]).
  { intros ->. destruct Hb as [_ Hu]. simpl in Hu. simpl. unfold byte_of, u8.
    rewrite Z.shiftr_0_r, Z.mod_small by lia. done. }
  destruct (Z.ltb_spec n 128).
  - assert (k = 1%nat) as ->.
    { destruct Hb as [Hl _]. destruct (decide (k = 1%nat)); [done|].
      assert (2 ^ 8 <= 2 ^ (8 * (Z.of_nat k - 1))) by (apply Z.pow_le_mono_r; lia). lia. }
    rewrite Hone by done. unfold encodeString, u8. rewrite Z.mod_small by lia.
    destruct (Z.leb_spec n 127); [done|lia].
  - transitivity (append_str (be_bytes k n) (encodeStringHeader (Z.of_nat k) w)).
    { unfold encodeStringHeader. destruct (Z.ltb_spec (Z.of_nat k) 56); [|lia].
      unfold append_str; simpl. by rewrite <- app_assoc. }
    unfold encodeString. pose proof (be_bytes_length k n) as Hlen.
    destruct (be_bytes k n) as [|b0 [|b1 bs]] eqn:E; simpl in Hlen.
    + lia.
    + specialize (Hone ltac:(lia)). injection Hone as ->. subst k.
      destruct (Z.leb_spec n 127); [lia|done].
    + subst k. done.
Qed.

(** An induction principle for values that reaches the elements of lists. *)
Lemma goval_ind' (P : goval -> Prop) :
  (forall n, P (VUint n)) -> (forall b, P (VBool b)) -> (forall bs, P (VString bs)) ->
  (forall bs, P (VBytes bs)) ->
  (forall i, P (VBigInt i)) -> (forall z, P (VSigned z)) ->
  (forall vs, Forall P vs -> P (VSlice vs)) ->
  (forall vs, Forall P vs -> P (VStruct vs)) ->
  (forall t, P (VPtr t None)) -> (forall t v, P v -> P (VPtr t (Some v))) ->
  P (VIface None) -> (forall t v, P v -> P (VIface (Some (t, v)))) ->
  forall v, P v.
Proof.
  intros H1 H2 H2' H3 H4 H5 H6 H7 H8 H9 H10 H11. fix IH 1.
  assert (Hl : forall vs, Forall P vs) by (fix IHl 1; intros [|]; constructor; auto).
  intros [| | | | | |vs|vs|t [v|]|[[t v]|]];
    [apply H1|apply H2|apply H2'|apply H3|apply H4|apply H5|apply H6, Hl|apply H7, Hl
    |apply H9, IH|apply H8|apply H11, IH|apply H10].
Qed.

(** Unsigned integers fit their width, bytes are bytes, nil pointers have a
    writable type. *)
Fixpoint wf_val (v : goval) : Prop :=
  match v with
  | VUint n => in_u64 n
  | VString bs | VBytes bs => Forall (fun x => 0 <= x < 256) bs
  | VSlice vs | VStruct vs =>
      (fix go (vs : list goval) : Prop :=
         match vs with [] => True | v' :: vs' => wf_val v' /\ go vs' end) vs
  | VPtr t None => has_writer t = true
  | VPtr _ (Some v') => wf_val v'
  | VIface (Some (_, v')) => wf_val v'
  | _ => True
  end.

Lemma nilfunc_Seg t w : has_writer t = true -> Seg w (nilfunc t w) (enc_item (nil_item t)).
Proof.
  assert (Hl : Seg w (let '(lh, w1) := list_start w in listEnd lh w1) (enc_item (Lst [])))
    by (eapply (Seg_list w _ []); [done|done|apply Seg_nil]).
  induction t; intros Hw; try exact Hl; try apply Seg_str;
    try apply (encodeString_Seg []); auto; done.
Qed.

(** What [writer] does on [v], given the item [v] denotes. *)
Definition writer_spec (v : goval) : Prop :=
  forall w, match item_of v with
            | Ok it => exists w', writer v w = Ok w' /\
                         (zlen (enc_item it) < 2 ^ 64 -> Seg w w' (enc_item it))
            | Err e => writer v w = Err e
            end.

Lemma writer_list_spec vs :
  Forall writer_spec vs ->
  forall w, match mapM item_of vs with
            | Ok l => exists w', foldM writer vs w = Ok w' /\
                        (zlen (concat (map enc_item l)) < 2 ^ 64 ->
                         Seg w w' (concat (map enc_item l)))
            | Err e => foldM writer vs w = Err e
            end.
Proof.
  induction 1 as [|v vs Hv _ IH]; intros w; simpl.
  - eexists. split; [done|]. intros _. apply Seg_nil.
  - specialize (Hv w). destruct (item_of v) as [it|e]; [|by rewrite Hv].
    destruct Hv as (w1 & -> & H1). specialize (IH w1).
    destruct (mapM item_of vs) as [l|e]; [|done].
    destruct IH as (w2 & -> & H2). exists w2. split; [done|]. simpl.
    rewrite zlen_app. intros Hlt. pose proof (zlen_nonneg (enc_item it)).
    pose proof (zlen_nonneg (concat (map enc_item l))).
    eapply Seg_app; [apply H1|apply H2]; lia.
Qed.

Lemma writer_seq_spec vs w :
  Forall writer_spec vs ->
  match mapM item_of vs with
  | Ok l => exists w', (let '(lh, w1) := list_start w in
                        let? w2 := foldM writer vs w1 in Ok (listEnd lh w2)) = Ok w' /\
              (zlen (enc_item (Lst l)) < 2 ^ 64 -> Seg w w' (enc_item (Lst l)))
  | Err e => (let '(lh, w1) := list_start w in
              let? w2 := foldM writer vs w1 in Ok (listEnd lh w2)) = Err e
  end.
Proof.
  intros Hvs. destruct (list_start w) as [lh w1] eqn:E.
  pose proof (writer_list_spec vs Hvs w1) as H.
  destruct (mapM item_of vs) as [l|e]; [|by rewrite H].
  destruct H as (w2 & -> & H2). eexists. split; [done|].
  cbn [enc_item]. intros Hlt.
  fold (zlen (concat (map enc_item l))) in *. rewrite zlen_app in Hlt.
  pose proof (zlen_nonneg (concat (map enc_item l))).
  pose proof (zlen_nonneg (puthead 192 247 (zlen (concat (map enc_item l))))).
  eapply Seg_list; [done|split; lia|apply H2; lia].
Qed.

Lemma wf_val_list vs :
  Forall (fun v => wf_val v -> writer_spec v) vs ->
  wf_val (VSlice vs) -> Forall writer_spec vs.
Proof. induction 1; simpl; [constructor|]. intros [? ?]. constructor; auto. Qed.

Lemma writer_correct v : wf_val v -> writer_spec v.
Proof.
  induction v using goval_ind'; intros Hwf w; simpl.
  - eexists. split; [done|]. intros _. by apply writeUint_Seg.
  - eexists. split; [done|]. intros _. destruct b; apply Seg_str.
  - eexists. split; [done|]. intros _. apply encodeString_Seg.
  - eexists. split; [done|]. intros _. apply encodeString_Seg.
  - destruct i as [z|]; simpl; [|eexists; split; [done|]; intros _; apply Seg_str].
    unfold writeBigInt. destruct (z <? 0); [done|].
    destruct (Z.eqb_spec z 0) as [->|]; (eexists; split; [done|]; intros _).
    + apply Seg_str.
    + apply encodeString_Seg.
  - done.
  - pose proof (writer_seq_spec vs w (wf_val_list vs H Hwf)) as Hs.
    destruct (mapM item_of vs); exact Hs.
  - pose proof (writer_seq_spec vs w (wf_val_list vs H Hwf)) as Hs.
    destruct (mapM item_of vs); exact Hs.
  - eexists. split; [done|]. intros _. by apply nilfunc_Seg.
  - apply (IHv Hwf w).
  - eexists. split; [done|]. intros _. apply Seg_str.
  - destruct (has_writer t); [|done]. apply (IHv Hwf w).
Qed.

(** ** Reading back *)

Lemma lor_shift8 acc b : 0 <= b < 256 -> Z.lor (Z.shiftl acc 8) b = acc * 256 + b.
Proof.
  intros Hb. assert (Hl : Z.land (Z.shiftl acc 8) b = 0).
  { apply Z.bits_inj'. intros k Hk. rewrite Z.land_spec, Z.bits_0.
    destruct (Z.lt_ge_cases k 8).
    - by rewrite Z.shiftl_spec_low.
    - rewrite (Z.bits_above_log2 b), andb_false_r; [done|lia|].
      destruct (Z.eq_dec b 0) as [->|]; [simpl; lia|].
      apply Z.log2_lt_pow2; [lia|]. apply Z.lt_le_trans with (2 ^ 8); [lia|].
      apply Z.pow_le_mono_r; lia. }
  rewrite <- Z.lxor_lor, <- Z.add_nocarry_lxor by done.
  rewrite Z.shiftl_mul_pow2 by lia. done.
Qed.

Lemma foldl_be_bytes n x acc :
  0 <= x ->
  foldl (fun acc b => Z.lor (Z.shiftl acc 8) b) acc (be_bytes n x)
  = acc * 2 ^ (8 * Z.of_nat n) + x mod 2 ^ (8 * Z.of_nat n).
Proof.
  intros Hx. revert acc. induction n as [|n IH]; intros acc.
  - simpl. rewrite Z.mod_1_r. lia.
  - cbn [be_bytes foldl]. rewrite IH, lor_shift8 by apply byte_of_range.
    replace (8 * Z.of_nat (S n)) with (8 + 8 * Z.of_nat n) by lia.
    rewrite Z.pow_add_r by lia. unfold byte_of, u8.
    rewrite Z.shiftr_div_pow2 by lia.
    assert (0 < 2 ^ (8 * Z.of_nat n)) by (apply Z.pow_pos_nonneg; lia).
    rewrite (Z.mul_comm (2 ^ 8)), Z.rem_mul_r by lia. lia.
Qed.

Lemma read_be_bytes n x rest : 0 <= x < 2 ^ (8 * Z.of_nat n) -> read_be (be_bytes n x ++ rest) n = x.
Proof.
  intros Hx. unfold read_be. rewrite take_app_length' by (by rewrite be_bytes_length).
  rewrite foldl_be_bytes by lia. rewrite Z.mod_small by done. lia.
Qed.

Lemma be_bytes_head n x :
  nbytes (S n) x -> exists b bs, be_bytes (S n) x = b :: bs /\ b <> 0.
Proof.
  intros [Hl Hu]. do 2 eexists. split; [done|].
  replace (Z.of_nat (S n) - 1) with (Z.of_nat n) in Hl by lia.
  replace (8 * Z.of_nat (S n)) with (8 * Z.of_nat n + 8) in Hu by lia.
  rewrite Z.pow_add_r in Hu by lia.
  assert (0 < 2 ^ (8 * Z.of_nat n)) by (apply Z.pow_pos_nonneg; lia).
  unfold byte_of, u8. rewrite Z.shiftr_div_pow2 by lia.
  rewrite Z.mod_small.
  - intros E. apply Z.div_small_iff in E; lia.
  - split; [apply Z.div_pos; lia|]. apply Z.div_lt_upper_bound; lia.
Qed.

(** [readSize] reads back the length a long header carries. *)
Lemma readSize_putint n rest :
  56 <= n -> in_u64 n -> readSize (putint n ++ rest) (zlen (putint n)) = Ok n.
Proof.
  intros Hn Hu. destruct (u64_nbytes n ltac:(lia) Hu) as (k & Hk & Hb).
  unfold readSize, zlen. rewrite (putint_be k), be_bytes_length by done.
  rewrite length_app, be_bytes_length.
  destruct (Z.ltb_spec (Z.of_nat (k + length rest)) (Z.of_nat k)); [lia|].
  rewrite Nat2Z.id, read_be_bytes by (destruct Hb; lia).
  destruct (Z.ltb_spec n 56); [lia|]. simpl.
  destruct k as [|k]; [lia|]. destruct (be_bytes_head k n Hb) as (b & bs & -> & Hb0).
  simpl. destruct (Z.eqb_spec b 0); [done|]. done.
Qed.

Lemma putint_length_bounds n : 0 < n -> in_u64 n -> 1 <= zlen (putint n) <= 8.
Proof.
  intros Hn Hu. destruct (u64_nbytes n Hn Hu) as (k & Hk & Hb).
  unfold zlen. rewrite (putint_be k), be_bytes_length by done. lia.
Qed.

(** [b] is a string whose encoding is the byte itself. *)
Definition self_coded (b : list Z) : bool :=
  match b with [b0] => b0 <=? 0x7F | _ => false end.

(** The remaining-input test of [readKind] passes on a complete value. *)
Lemma fits_ok (h c rest : list Z) :
  zlen (h ++ c ++ rest) < 2 ^ 64 ->
  (u64 (zlen (h ++ c ++ rest) - zlen h) <? zlen c) = false.
Proof.
  intros Hl. rewrite !zlen_app in *.
  pose proof (zlen_nonneg h); pose proof (zlen_nonneg c); pose proof (zlen_nonneg rest).
  rewrite u64_small by (unfold in_u64; lia). apply Z.ltb_ge. lia.
Qed.

Lemma content_u64 (h c rest : list Z) : zlen (h ++ c ++ rest) < 2 ^ 64 -> in_u64 (zlen c).
Proof.
  rewrite !zlen_app. pose proof (zlen_nonneg h).
  pose proof (zlen_nonneg c); pose proof (zlen_nonneg rest). unfold in_u64; lia.
Qed.

(** Decide the tag comparisons of [readKind] that the context settles. *)
Ltac tag_tests :=
  repeat match goal with
  | |- context [?a <? ?b] =>
      first [ replace (a <? b) with true by (symmetry; apply Z.ltb_lt; lia)
            | replace (a <? b) with false by (symmetry; apply Z.ltb_ge; lia) ]
  end.

(** The part of [readKind] after the tag: a short header, or a long one with
    [L] length bytes. *)
Lemma readKind_short_string c rest :
  zlen c < 56 -> self_coded c = false ->
  zlen ([0x80 + zlen c] ++ c ++ rest) < 2 ^ 64 ->
  readKind ([0x80 + zlen c] ++ c ++ rest) = Ok (String, 1, zlen c).
Proof.
  intros H56 Hs Hl. pose proof (fits_ok _ _ _ Hl) as Hf. pose proof (zlen_nonneg c).
  change (zlen [0x80 + zlen c]) with 1 in Hf. unfold zlen at 1 in Hf.
  cbn [app readKind] in *. tag_tests.
  replace (0x80 + zlen c - 0x80) with (zlen c) by lia.
  replace ((zlen c =? 1) && _) with false; [by rewrite Hf|]. symmetry.
  destruct (Z.eqb_spec (zlen c) 1) as [E|E]; [|done].
  destruct c as [|c0 [|c1 c]]; unfold zlen in E; simpl in E; try lia.
  simpl in Hs |- *. apply Z.leb_gt in Hs. apply Z.ltb_ge. lia.
Qed.

Lemma readKind_long_string c rest L :
  L = zlen (putint (zlen c)) -> 56 <= zlen c -> 1 <= L <= 8 ->
  zlen (((0xB7 + L) :: putint (zlen c)) ++ c ++ rest) < 2 ^ 64 ->
  readKind (((0xB7 + L) :: putint (zlen c)) ++ c ++ rest) = Ok (String, L + 1, zlen c).
Proof.
  intros HL H56 HLb Hl. pose proof (content_u64 _ _ _ Hl).
  pose proof (fits_ok _ _ _ Hl) as Hf.
  replace (zlen ((0xB7 + L) :: putint (zlen c))) with (L + 1) in Hf
    by (subst L; unfold zlen; simpl; lia).
  unfold zlen at 1 in Hf. cbn [app readKind] in *.
  replace (0xB7 + L - 0xB7) with L by lia.
  pose proof (readSize_putint (zlen c) (c ++ rest) H56 ltac:(done)) as Hr.
  rewrite <- HL in Hr. rewrite Hr. by tag_tests.
Qed.

Lemma readKind_string c rest :
  self_coded c = false ->
  zlen (puthead 0x80 0xB7 (zlen c) ++ c ++ rest) < 2 ^ 64 ->
  readKind (puthead 0x80 0xB7 (zlen c) ++ c ++ rest)
  = Ok (String, zlen (puthead 0x80 0xB7 (zlen c)), zlen c).
Proof.
  intros Hs Hl. pose proof (content_u64 _ _ _ Hl) as Hc. revert Hl.
  unfold puthead, u8. pose proof (zlen_nonneg c).
  destruct (Z.ltb_spec (zlen c) 56) as [H56|H56]; intros Hl.
  - rewrite Z.mod_small in * by lia. by apply readKind_short_string.
  - pose proof (putint_length_bounds (zlen c) ltac:(lia) Hc).
    fold (zlen (putint (zlen c))) in *. rewrite Z.mod_small in * by lia.
    rewrite (readKind_long_string _ _ (zlen (putint (zlen c)))) by done.
    do 3 f_equal. unfold zlen; simpl; lia.
Qed.

Lemma readKind_list c rest :
  zlen (puthead 0xC0 0xF7 (zlen c) ++ c ++ rest) < 2 ^ 64 ->
  readKind (puthead 0xC0 0xF7 (zlen c) ++ c ++ rest)
  = Ok (List, zlen (puthead 0xC0 0xF7 (zlen c)), zlen c).
Proof.
  intros Hl. pose proof (content_u64 _ _ _ Hl) as Hc.
  pose proof (fits_ok _ _ _ Hl) as Hf. unfold zlen at 1 in Hf. revert Hl Hf.
  unfold puthead, u8. pose proof (zlen_nonneg c).
  destruct (Z.ltb_spec (zlen c) 56) as [H56|H56]; intros Hl Hf.
  - rewrite Z.mod_small in * by lia.
    change (zlen [0xC0 + zlen c]) with 1 in *. cbn [app readKind] in *. tag_tests.
    by replace (0xC0 + zlen c - 0xC0) with (zlen c) by lia.
  - pose proof (putint_length_bounds (zlen c) ltac:(lia) Hc).
    fold (zlen (putint (zlen c))) in *. rewrite Z.mod_small in * by lia.
    remember (zlen (putint (zlen c))) as L eqn:HL.
    assert (Ht : zlen ((0xF7 + L) :: putint (zlen c)) = L + 1)
      by (subst L; unfold zlen; simpl; lia).
    rewrite Ht in *. cbn [app readKind] in *.
    replace (0xF7 + L - 0xF7) with L by lia.
    pose proof (readSize_putint (zlen c) (c ++ rest) H56 Hc) as Hr.
    rewrite <- HL in Hr. rewrite Hr. by tag_tests.
Qed.

(** What [Split] finds at the front of an encoded item. *)
Definition kind_of (it : item) : Kind :=
  match it with
  | Str b => if self_coded b then Byte else String
  | Lst _ => List
  end.
Definition content_of (it : item) : list Z :=
  match it with Str b => b | Lst l => concat (map enc_item l) end.

(** Every byte of the tree is a byte. *)
Inductive wf_item : item -> Prop :=
| wf_Str b : Forall (fun x => 0 <= x < 256) b -> wf_item (Str b)
| wf_Lst l : Forall wf_item l -> wf_item (Lst l).

Lemma enc_str_cases b :
  enc_str b = if self_coded b then b else puthead 0x80 0xB7 (zlen b) ++ b.
Proof. destruct b as [|b0 [|b1 b]]; [done| |done]. simpl. by case_match. Qed.

(** The header of an item and how [readKind] reads it. *)
Lemma enc_item_readKind it rest :
  wf_item it -> zlen (enc_item it ++ rest) < 2 ^ 64 ->
  exists h, enc_item it = h ++ content_of it /\
    readKind (enc_item it ++ rest) = Ok (kind_of it, zlen h, zlen (content_of it)) /\
    0 < zlen (enc_item it).
Proof.
  intros Hwf Hl. destruct Hwf as [b Hb|l Hls].
  - cbn [enc_item kind_of content_of] in *. rewrite enc_str_cases in *.
    destruct (self_coded b) eqn:Hs.
    + exists []. destruct b as [|b0 [|b1 b]]; try discriminate.
      simpl in Hs. apply Z.leb_le in Hs.
      inversion Hb as [|?? Hb0 _]; subst. split; [done|]. split; [|done].
      pose proof (fits_ok [] [b0] rest Hl) as Hf. rewrite Z.sub_0_r in Hf.
      unfold zlen at 1 in Hf. cbn [app readKind] in *. tag_tests. rewrite Z.sub_0_r.
      change (zlen [b0]) with 1 in Hf. change (zlen [b0]) with 1. by rewrite Hf.
    + eexists. split; [done|]. rewrite <- app_assoc in *. split.
      * by apply readKind_string.
      * rewrite zlen_app. pose proof (zlen_nonneg b).
        unfold puthead. case_match; unfold zlen; simpl; lia.
  - cbn [enc_item kind_of content_of] in *. eexists. split; [done|].
    fold (zlen (concat (map enc_item l))) in *. rewrite <- app_assoc in *. split.
    + by apply readKind_list.
    + rewrite zlen_app. pose proof (zlen_nonneg (concat (map enc_item l))).
      unfold puthead. case_match; unfold zlen; simpl; lia.
Qed.

Lemma Split_enc_item it rest :
  wf_item it -> zlen (enc_item it ++ rest) < 2 ^ 64 ->
  Split (enc_item it ++ rest) = Ok (kind_of it, content_of it, rest).
Proof.
  intros Hwf Hl. destruct (enc_item_readKind it rest Hwf Hl) as (h & Hh & Hr & _).
  unfold Split. rewrite Hr, Hh, <- app_assoc. unfold zlen. rewrite <- Nat2Z.inj_add, !Nat2Z.id.
  rewrite drop_app_length, take_app_length.
  do 2 f_equal. by rewrite <- drop_drop, drop_app_length, drop_app_length.
Qed.

Lemma item_ind' (P : item -> Prop) :
  (forall b, P (Str b)) -> (forall l, Forall P l -> P (Lst l)) -> forall it, P it.
Proof.
  intros HS HL. fix IH 1. intros [b|l]; [apply HS|apply HL].
  revert l. fix IHl 1. intros [|]; constructor; auto.
Qed.

Lemma concat_enc_inj l1 l2 :
  Forall (fun it1 => forall it2 r1 r2, wf_item it1 -> wf_item it2 ->
    zlen (enc_item it1 ++ r1) < 2 ^ 64 ->
    enc_item it1 ++ r1 = enc_item it2 ++ r2 -> it1 = it2 /\ r1 = r2) l1 ->
  Forall wf_item l1 -> Forall wf_item l2 ->
  zlen (concat (map enc_item l1)) < 2 ^ 64 ->
  concat (map enc_item l1) = concat (map enc_item l2) -> l1 = l2.
Proof.
  intros HP. revert l2. induction HP as [|it1 l1 H1 _ IH]; intros l2 Hw1 Hw2 Hl E.
  - destruct Hw2 as [|it2 l2 Hit Hw2]; [done|]. exfalso. simpl in E.
    destruct (enc_item_readKind it2 (concat (map enc_item l2)) Hit) as (_ & _ & _ & Hpos).
    + rewrite <- E. unfold zlen; simpl; lia.
    + apply (f_equal zlen) in E. rewrite zlen_app in E.
      pose proof (zlen_nonneg (concat (map enc_item l2))). unfold zlen at 1 in E. simpl in E. lia.
  - inversion Hw1 as [|?? Hwi1 Hw1']; subst. destruct Hw2 as [|it2 l2 Hit Hw2].
    + exfalso. simpl in E.
      destruct (enc_item_readKind it1 (concat (map enc_item l1)) Hwi1 Hl) as (_ & _ & _ & Hpos).
      apply (f_equal zlen) in E. rewrite zlen_app in E.
      pose proof (zlen_nonneg (concat (map enc_item l1))). unfold zlen at 3 in E. simpl in E. lia.
    + simpl in E, Hl. destruct (H1 it2 _ _ Hwi1 Hit Hl E) as [-> Er]. f_equal.
      apply IH; try done. rewrite zlen_app in Hl.
      pose proof (zlen_nonneg (enc_item it2)). lia.
Qed.

Lemma enc_item_prefix_free it1 it2 r1 r2 :
  wf_item it1 -> wf_item it2 -> zlen (enc_item it1 ++ r1) < 2 ^ 64 ->
  enc_item it1 ++ r1 = enc_item it2 ++ r2 -> it1 = it2 /\ r1 = r2.
Proof.
  revert it2 r1 r2. induction it1 as [b1|l1 IH] using item_ind'; intros it2 r1 r2 H1 H2 Hl E.
  all: pose proof (Split_enc_item _ r1 H1 Hl) as S1; rewrite E in Hl, S1.
  all: rewrite (Split_enc_item it2 r2 H2 Hl) in S1; injection S1 as Hk Hc <-; split; [|done].
  - destruct it2 as [b2|l2]; simpl in *; [by rewrite Hc|]. by case_match.
  - destruct it2 as [b2|l2]; simpl in *; [by case_match|]. f_equal. symmetry.
    inversion H1; inversion H2; subst. symmetry.
    apply (concat_enc_inj l1 l2); try done. rewrite <- Hc.
    rewrite zlen_app in Hl. pose proof (zlen_nonneg r2). cbn [enc_item] in Hl.
    rewrite !zlen_app in Hl.
    pose proof (zlen_nonneg (puthead 192 247 (Z.of_nat (length (concat (map enc_item l2)))))).
    lia.
Qed.

Lemma CountValues_loop_enc l i fuel :
  Forall wf_item l -> zlen (concat (map enc_item l)) < 2 ^ 64 ->
  zlen (concat (map enc_item l)) <= Z.of_nat fuel ->
  CountValues_loop fuel (concat (map enc_item l)) i = Ok (i + Z.of_nat (length l)).
Proof.
  intros Hw. revert i fuel. induction Hw as [|it l Hit Hw IH]; intros i fuel Hl Hf.
  - destruct fuel; simpl; f_equal; lia.
  - simpl in Hl, Hf |- *.
    destruct (enc_item_readKind it _ Hit Hl) as (h & Hh & Hr & Hpos).
    rewrite zlen_app in Hl, Hf. pose proof (zlen_nonneg (concat (map enc_item l))).
    destruct fuel as [|fuel]; [lia|].
    assert (Hne : exists b bs, enc_item it ++ concat (map enc_item l) = b :: bs).
    { destruct (enc_item it) as [|b bs]; [unfold zlen in Hpos; simpl in Hpos; lia|].
      eexists _, _. done. }
    destruct Hne as (b & bs & Hbs). cbn [CountValues_loop]. rewrite Hbs, <- Hbs, Hr.
    replace (Z.to_nat (zlen h + zlen (content_of it))) with (length (enc_item it)).
    + rewrite drop_app_length, IH by lia. f_equal. lia.
    + rewrite Hh, length_app. unfold zlen. lia.
Qed.

Lemma be_bytes_wf n x : Forall (fun b => 0 <= b < 256) (be_bytes n x).
Proof. induction n; simpl; constructor; [apply byte_of_range|done]. Qed.

Lemma big_Bytes_wf x : wf_item (Str (big_Bytes x)).
Proof. constructor. unfold big_Bytes. case_match; [done|apply be_bytes_wf]. Qed.

Lemma nil_item_wf t : wf_item (nil_item t).
Proof. induction t; simpl; repeat constructor; done. Qed.

Lemma mapM_item_wf vs l :
  Forall (fun v => forall it, wf_val v -> item_of v = Ok it -> wf_item it) vs ->
  wf_val (VSlice vs) -> mapM item_of vs = Ok l -> Forall wf_item l.
Proof.
  intros H. revert l. induction H as [|v vs Hv _ IH]; simpl; intros l Hw E.
  - by simplify_eq.
  - destruct Hw, (item_of v) eqn:?, (mapM item_of vs) eqn:?; simplify_eq.
    constructor; [by apply Hv|]. by apply IH.
Qed.

Lemma item_of_wf v it : wf_val v -> item_of v = Ok it -> wf_item it.
Proof.
  revert it. induction v using goval_ind'; simpl; intros it Hw E; simplify_eq.
  - apply big_Bytes_wf.
  - constructor. by destruct b; repeat constructor.
  - by constructor.
  - by constructor.
  - destruct i; [|by simplify_eq; repeat constructor].
    case_match; simplify_eq. apply big_Bytes_wf.
  - destruct (mapM item_of vs) eqn:?; simplify_eq. constructor. by eapply mapM_item_wf.
  - destruct (mapM item_of vs) eqn:?; simplify_eq. constructor. by eapply mapM_item_wf.
  - apply nil_item_wf.
  - by apply IHv.
  - by repeat constructor.
  - case_match; [|done]. by apply IHv.
Qed.

Lemma EncodeToBytes_item t v it :
  wf_val v -> has_writer t = true -> item_of v = Ok it -> zlen (enc_item it) < 2 ^ 64 ->
  EncodeToBytes t v = Ok (enc_item it).
Proof.
  intros Hw Ht Hi Hl. unfold EncodeToBytes. rewrite Ht.
  pose proof (writer_correct v Hw empty_encbuf) as H. rewrite Hi in H.
  destruct H as (w' & -> & HS). f_equal. by apply Seg_toBytes, HS.
Qed.

Lemma EncodeToBytes_err t v e :
  wf_val v -> has_writer t = true -> item_of v = Err e -> EncodeToBytes t v = Err e.
Proof.
  intros Hw Ht Hi. unfold EncodeToBytes. rewrite Ht.
  pose proof (writer_correct v Hw empty_encbuf) as H. rewrite Hi in H. by rewrite H.
Qed.

(** A type without a writer is rejected before any value is looked at. *)
Lemma EncodeToBytes_no_writer t v :
  has_writer t = false -> EncodeToBytes t v = Err ErrNotSerializable.
Proof. intros H. unfold EncodeToBytes. by rewrite H. Qed.

(** Integers are determined by their bytes. *)
Lemma be_bytes_inj n x y :
  0 <= x < 2 ^ (8 * Z.of_nat n) -> 0 <= y < 2 ^ (8 * Z.of_nat n) ->
  be_bytes n x = be_bytes n y -> x = y.
Proof.
  intros Hx Hy E. rewrite <- (read_be_bytes n x []), <- (read_be_bytes n y []) by done.
  by rewrite E.
Qed.

Lemma big_Bytes_value x :
  0 <= x -> foldl (fun acc b => Z.lor (Z.shiftl acc 8) b) 0 (big_Bytes x) = x.
Proof.
  intros Hx. unfold big_Bytes. destruct (Z.eqb_spec x 0) as [->|]; [done|].
  rewrite foldl_be_bytes by done. pose proof (Z.log2_nonneg x).
  assert (0 <= Z.log2 x / 8) by (apply Z.div_pos; lia).
  rewrite Z2Nat.id by lia. rewrite Z.mod_small; [lia|]. split; [done|].
  destruct (Z.log2_spec x ltac:(lia)) as [_ Hlt].
  eapply Z.lt_le_trans; [exact Hlt|]. apply Z.pow_le_mono_r; [lia|].
  pose proof (Z.div_mod (Z.log2 x) 8 ltac:(lia)).
  pose proof (Z.mod_pos_bound (Z.log2 x) 8 ltac:(lia)). lia.
Qed.

Lemma big_Bytes_inj x y : 0 <= x -> 0 <= y -> big_Bytes x = big_Bytes y -> x = y.
Proof.
  intros Hx Hy E. rewrite <- (big_Bytes_value x), <- (big_Bytes_value y) by done.
  by rewrite E.
Qed.

(** ** Properties of the package *)

(** C38: For every value of a type with a writer, [EncodeToBytes] (buffered
    string data, deferred list headers, final merge by offset) yields exactly
    the recursive RLP encoding of the tree the value denotes, and it fails
    exactly when the value holds a negative big integer or an interface value
    of a type without a writer. *)
Theorem EncodeToBytes_correct t v :
  wf_val v -> has_writer t = true ->
  match item_of v with
  | Ok it => zlen (enc_item it) < 2 ^ 64 -> EncodeToBytes t v = Ok (enc_item it)
  | Err e => EncodeToBytes t v = Err e
  end.
Proof.
  intros Hw Ht. destruct (item_of v) eqn:E.
  - intros. by apply EncodeToBytes_item.
  - by apply EncodeToBytes_err.
Qed.

(** [Split] inverts the encoder: on an encoded value followed by any other
    bytes it returns the kind, the content of the value and those bytes. *)
Theorem Split_EncodeToBytes t v it bytes rest :
  wf_val v -> item_of v = Ok it -> zlen (enc_item it ++ rest) < 2 ^ 64 ->
  EncodeToBytes t v = Ok bytes ->
  Split (bytes ++ rest) = Ok (kind_of it, content_of it, rest).
Proof.
  intros Hw Hi Hl He. assert (Hl' : zlen (enc_item it) < 2 ^ 64)
    by (rewrite zlen_app in Hl; pose proof (zlen_nonneg rest); lia).
  unfold EncodeToBytes in He. destruct (has_writer t) eqn:Ht; [|done].
  fold (EncodeToBytes t v) in He. pose proof (EncodeToBytes_item t v it Hw Ht Hi Hl') as E.
  unfold EncodeToBytes in E. rewrite Ht in E. rewrite He in E. injection E as ->.
  apply Split_enc_item; [|done]. by eapply item_of_wf.
Qed.

(** The encoding is injective: two values of one type with the same bytes
    denote the same tree, so a hash of the bytes commits to all of the
    encoded content. *)
Theorem EncodeToBytes_injective t v1 v2 it1 it2 bytes :
  wf_val v1 -> wf_val v2 -> item_of v1 = Ok it1 -> item_of v2 = Ok it2 ->
  zlen (enc_item it1) < 2 ^ 64 -> zlen (enc_item it2) < 2 ^ 64 ->
  EncodeToBytes t v1 = Ok bytes -> EncodeToBytes t v2 = Ok bytes -> it1 = it2.
Proof.
  intros W1 W2 I1 I2 L1 L2 E1 E2.
  destruct (has_writer t) eqn:Ht; [|by rewrite EncodeToBytes_no_writer in E1].
  rewrite (EncodeToBytes_item t v1 it1) in E1 by done.
  rewrite (EncodeToBytes_item t v2 it2) in E2 by done.
  assert (Hb : enc_item it1 ++ [] = enc_item it2 ++ []) by congruence.
  pose proof (item_of_wf v1 it1 W1 I1). pose proof (item_of_wf v2 it2 W2 I2).
  apply (enc_item_prefix_free it1 it2 [] []); try done. by rewrite app_nil_r.
Qed.

(** [CountValues] terminates within one iteration per input byte and
    counts the values of a concatenation of encoded items. *)
Theorem CountValues_encoded l :
  Forall wf_item l -> zlen (concat (map enc_item l)) < 2 ^ 64 ->
  CountValues (concat (map enc_item l)) = Ok (Z.of_nat (length l)).
Proof. intros Hw Hl. unfold CountValues. by apply CountValues_loop_enc. Qed.

Definition sample : goval :=
  VStruct [VUint 1024; VBytes [0x64; 0x6F; 0x67]; VSlice [VUint 0; VBool true]].
Definition sample_item : item := Lst [Str [4; 0]; Str [0x64; 0x6F; 0x67]; Lst [Str []; Str [1]]].

(** Well-formedness of a concrete value. *)
Ltac wf_sample := repeat split; repeat constructor; try (unfold in_u64; lia).

Lemma EncodeToBytes_correct_witness :
  EncodeToBytes (TStruct [TUint; TString; TSlice TUint]) sample
  = Ok [0xCA; 0x82; 4; 0; 0x83; 0x64; 0x6F; 0x67; 0xC2; 0x80; 1].
Proof.
  apply (EncodeToBytes_correct (TStruct [TUint; TString; TSlice TUint]) sample);
    [wf_sample|reflexivity|reflexivity].
Defined.

Lemma Split_EncodeToBytes_witness :
  Split ([0xCA; 0x82; 4; 0; 0x83; 0x64; 0x6F; 0x67; 0xC2; 0x80; 1] ++ [0x80])
  = Ok (List, content_of sample_item, [0x80]).
Proof.
  apply (Split_EncodeToBytes (TStruct [TUint; TString; TSlice TUint]) sample sample_item);
    [wf_sample|reflexivity|reflexivity|reflexivity].
Defined.

Lemma EncodeToBytes_injective_witness : sample_item = sample_item.
Proof.
  eapply (EncodeToBytes_injective (TStruct [TUint; TString; TSlice TUint]) sample sample);
    [wf_sample|wf_sample|reflexivity..].
Defined.

Lemma CountValues_encoded_witness : CountValues [0x80; 0xC2; 0x80; 1; 5] = Ok 3.
Proof.
  apply (CountValues_encoded [Str []; Lst [Str []; Str [1]]; Str [5]]);
    [wf_sample|reflexivity].
Defined.

End Rlp.
