(* ===== verification/Crypto.v ===== *)
(** * Package [crypto]: signatures that carry an agree/disagree vote

    Models [SignWithValidate] and [VerifySignWithValidate] of
    crypto/signature_cgo.go.  The secp256k1 C library and the Keccak sponge
    are parameters (class [Crypto]).

    A slice expression out of range ends the process in Go; the model returns
    the error [ErrPanic] at that point. *)

From S2P Require Import Prelude Common.

(** The primitives the package calls: Keccak-256 as a 32-byte value, the
    recovery of an uncompressed public key and the signing of a 32-byte
    message with a secret key. *)
Class Crypto := {
  seckey : Type;
  Keccak256 : list Z -> Hash;
  Ecrecover : Hash -> Signature -> option (list Z);
  secp256k1_Sign : Hash -> seckey -> option Signature
}.

Module Signature.
Section Signature.
Context `{Crypto}.

Inductive error := ErrPanic | ErrRecover | ErrInvalidPublicKey | ErrSign.

(** The last of the 65 bytes. *)
Definition sig64 (sig : Signature) : Z := Z.of_N sig mod 256.

(** [msg.Bytes()[:32]] for [msg = hash + 1]: [msg] has less than 32 bytes when
    the leading byte of the sum is zero, and 33 when the sum overflows. *)
Definition next_hash (hash : Hash) : res error Hash :=
  let msg := (hash + 1)%N in
  if (msg <? 2 ^ 248)%N then Err ErrPanic
  else if (msg <? 2 ^ 256)%N then Ok msg
  else Ok (msg / 2 ^ 8)%N.

Definition SignWithValidate (hash : Hash) (validate : bool) (prv : seckey)
    : res error Signature :=
  let? hash' := (if validate then Ok hash else next_hash hash) in
  match secp256k1_Sign hash' prv with
  | None => Err ErrSign
  | Some sig =>
      if validate then Ok sig
      else Ok (Z.to_N (Z.of_N sig - sig64 sig + u8 (sig64 sig + 2)))
  end.

(** The last 20 bytes of the hash of the key without its format byte. *)
Definition pub_address (key : list Z) : Address := (Keccak256 key mod 2 ^ 160)%N.

Definition VerifySignWithValidate (sighash : Hash) (sig : Signature)
    : res error (Address * bool) :=
  let validate := sig64 sig <? 2 in
  let? (sighash', sig') :=
    (if validate then Ok (sighash, sig)
     else let? h := next_hash sighash in Ok (h, (sig - 2)%N)) in
  match Ecrecover sighash' sig' with
  | None => Err ErrRecover
  | Some pub =>
      match pub with
      | 4 :: key => Ok (pub_address key, validate)
      | _ => Err ErrInvalidPublicKey
      end
  end.

(** Hashes whose successor keeps 32 significant bytes. *)
Definition disagreeable (h : Hash) : Prop := (2 ^ 248 <= h + 1)%N.

(** Verification fails with a run-time panic exactly on a disagree
    signature (last byte at least 2) of a hash whose successor has a zero
    leading byte; on every other input it returns. *)
Theorem VerifySignWithValidate_panics h sig :
  VerifySignWithValidate h sig = Err ErrPanic <->
  2 <= sig64 sig /\ (h + 1 < 2 ^ 248)%N.
Proof.
  unfold VerifySignWithValidate, next_hash.
  destruct (Z.ltb_spec (sig64 sig) 2), (N.ltb_spec (h + 1) (2 ^ 248)).
  all: repeat case_match; simplify_eq; split; try done; try lia.
Qed.

Lemma sig64_add2 sig :
  sig64 sig < 2 ->
  let sig' := Z.to_N (Z.of_N sig - sig64 sig + u8 (sig64 sig + 2)) in
  2 <= sig64 sig' /\ (sig' - 2)%N = sig.
Proof.
  unfold sig64, u8. intros Hs. pose proof (Z.mod_pos_bound (Z.of_N sig) 256 ltac:(lia)).
  rewrite (Z.mod_small (_ + 2)) by lia.
  replace (Z.of_N sig - Z.of_N sig mod 256 + (Z.of_N sig mod 256 + 2))
    with (Z.of_N sig + 2) by lia.
  cbn zeta. split; [|lia]. rewrite Z2N.id by lia.
  rewrite Z.add_mod by lia. change (2 mod 256) with 2.
  rewrite Z.mod_small by lia. lia.
Qed.

(** Signing and verification agree.  Let the signing primitive succeed
    with signatures that end in 0 or 1 and from which the recovery primitive
    finds the signer's key.  Then a vote with either opinion can be signed and
    verifies to the signer's address and the same opinion; for a disagreeing
    vote the successor of the hash must keep 32 bytes. *)
Theorem SignWithValidate_roundtrip h validate prv key :
  (forall h', exists s, secp256k1_Sign h' prv = Some s /\
     sig64 s < 2 /\ Ecrecover h' s = Some (4 :: key)) ->
  (validate = false -> disagreeable h) ->
  exists sig, SignWithValidate h validate prv = Ok sig /\
    VerifySignWithValidate h sig = Ok (pub_address key, validate).
Proof.
  unfold SignWithValidate, VerifySignWithValidate. intros Hrec Hd. destruct validate.
  - destruct (Hrec h) as (s & -> & Hv & Hr). eexists. split; [done|].
    replace (sig64 s <? 2) with true by lia. by rewrite Hr.
  - assert (exists h', next_hash h = Ok h') as [h' En].
    { unfold next_hash. specialize (Hd eq_refl). unfold disagreeable in Hd.
      destruct (N.ltb_spec (h + 1) (2 ^ 248)); [lia|]. case_match; eauto. }
    rewrite En. destruct (Hrec h') as (s & -> & Hv & Hr).
    destruct (sig64_add2 s Hv) as [H2 H3]. cbn zeta in *. eexists. split; [done|].
    replace (_ <? 2) with false by (symmetry; apply Z.ltb_ge; lia).
    by rewrite H3, Hr.
Qed.

End Signature.

(** A toy instance: the signature of [h] by key [k] is the pair as a number,
    followed by a recovery byte 0. *)
Definition toy_crypto : Crypto :=
  {| seckey := N;
     Keccak256 := fun bs => foldl (fun acc b => (acc * 256 + Z.to_N b)%N) 0%N bs;
     Ecrecover := fun h s => Some [4; Z.of_N ((s / 256) mod 256)];
     secp256k1_Sign := fun h k => Some ((h * 256 + k mod 256) * 256)%N |}.

Lemma SignWithValidate_roundtrip_witness :
  exists sig, @SignWithValidate toy_crypto (2 ^ 255)%N false 9%N = Ok sig /\
    @VerifySignWithValidate toy_crypto (2 ^ 255)%N sig = Ok (9%N, false).
Proof.
  apply (@SignWithValidate_roundtrip toy_crypto (2 ^ 255)%N false 9%N [9]).
  - cbn [secp256k1_Sign Ecrecover toy_crypto]. intros h'. eexists. split; [reflexivity|].
    unfold sig64. rewrite N2Z.inj_mul, Z.mod_mul by lia. split; [lia|].
    rewrite N.div_mul by lia.
    change (9 mod 256)%N with 9%N. by rewrite N.add_comm, N.Div0.mod_add.
  - intros _. unfold disagreeable. vm_compute. discriminate.
Defined.

End Signature.
