(* ===== verification/Types.v ===== *)
(** * Packages [core/types] and [mc]: headers, consensus messages and their hashes

    Models the header of core/types/block.go with its three hashes and
    [SignAccounts], [RlpHash], and the messages of mc/msgdef.go the modelled
    components exchange, each with the Go type the RLP encoder sees.

    The [*big.Int] fields of a header are non-nil in every header the modelled
    code builds or decodes, and are integers here. *)

From S2P Require Import Prelude Common Rlp Crypto.

(** The Go type of a record and its value, as reflection presents them. *)
Class GoType (A : Type) := {
  go_type : Rlp.gotype;
  go_val : A -> Rlp.goval
}.
Arguments go_type A {_}.

(** Fixed-size byte arrays. *)
Definition byte_array (n : nat) (x : N) : Rlp.goval := Rlp.VBytes (Rlp.be_bytes n (Z.of_N x)).
Definition vHash (h : Hash) : Rlp.goval := byte_array 32 h.
Definition vAddress (a : Address) : Rlp.goval := byte_array 20 a.
Definition vSignature (s : Signature) : Rlp.goval := byte_array 65 s.

(** [big.Int.Uint64]: the low 64 bits of the absolute value. *)
Definition Uint64 (z : Z) : Z := u64 (Z.abs z).

(** ** The header *)

Record Header := mkHeader {
  ParentHash : Hash;
  UncleHash : Hash;
  Leader : Address;
  Coinbase : Address;
  Root : Hash;
  TxHash : Hash;
  ReceiptHash : Hash;
  Bloom : N;               (* 256 bytes *)
  Difficulty : Z;
  Number : Z;
  GasLimit : Z;
  GasUsed : Z;
  Time : Z;
  hElect : list Elect;
  hNetTopology : NetTopology;
  Signatures : list Signature;
  Extra : list Z;
  MixDigest : Hash;
  Nonce : N;               (* 8 bytes *)
  Version : list Z
}.

#[export] Instance Elect_GoType : GoType Elect :=
  {| go_type := Rlp.TStruct [Rlp.TByteArray; Rlp.TUint; Rlp.TUint];
     go_val e := Rlp.VStruct [vAddress (el_Account e); Rlp.VUint (el_Stock e);
                              Rlp.VUint (el_Type e)] |}.

#[export] Instance NetTopologyData_GoType : GoType NetTopologyData :=
  {| go_type := Rlp.TStruct [Rlp.TByteArray; Rlp.TUint];
     go_val d := Rlp.VStruct [vAddress (ntd_Account d); Rlp.VUint (ntd_Position d)] |}.

#[export] Instance NetTopology_GoType : GoType NetTopology :=
  {| go_type := Rlp.TStruct [Rlp.TUint; Rlp.TSlice (go_type NetTopologyData)];
     go_val t := Rlp.VStruct [Rlp.VUint (nt_Type t); Rlp.VSlice (map go_val (nt_Data t))] |}.

Definition tSignatures : Rlp.gotype := Rlp.TSlice Rlp.TByteArray.
Definition vSignatures (l : list Signature) : Rlp.goval := Rlp.VSlice (map vSignature l).

#[export] Instance Header_GoType : GoType Header :=
  {| go_type := Rlp.TPtr (Rlp.TStruct
       [Rlp.TByteArray; Rlp.TByteArray; Rlp.TByteArray; Rlp.TByteArray; Rlp.TByteArray;
        Rlp.TByteArray; Rlp.TByteArray; Rlp.TByteArray; Rlp.TBigInt; Rlp.TBigInt;
        Rlp.TUint; Rlp.TUint; Rlp.TBigInt; Rlp.TSlice (go_type Elect); go_type NetTopology;
        tSignatures; Rlp.TBytes; Rlp.TByteArray; Rlp.TByteArray; Rlp.TBytes]);
     go_val h := Rlp.VStruct
       [vHash (ParentHash h); vHash (UncleHash h); vAddress (Leader h); vAddress (Coinbase h);
        vHash (Root h); vHash (TxHash h); vHash (ReceiptHash h); byte_array 256 (Bloom h);
        Rlp.VBigInt (Some (Difficulty h)); Rlp.VBigInt (Some (Number h));
        Rlp.VUint (GasLimit h); Rlp.VUint (GasUsed h); Rlp.VBigInt (Some (Time h));
        Rlp.VSlice (map go_val (hElect h)); go_val (hNetTopology h);
        vSignatures (Signatures h); Rlp.VBytes (Extra h); vHash (MixDigest h);
        byte_array 8 (Nonce h); Rlp.VBytes (Version h)] |}.

Module Types.
Section Types.
Context `{Crypto}.

(** [rlpHash] and [RlpHash]: the error of [rlp.Encode] is dropped, and a
    failed encoding has written nothing to the sponge. *)
Definition rlpHash (t : Rlp.gotype) (v : Rlp.goval) : Hash :=
  Keccak256 (match Rlp.EncodeToBytes t v with Ok b => b | Err _ => [] end).

Definition RlpHash {A} `{GoType A} (x : A) : Hash := rlpHash (go_type A) (go_val x).

(** [Header.Hash]. *)
Definition Header_Hash (h : Header) : Hash := rlpHash (go_type Header) (go_val h).

(** An element of a [[]interface{}]. *)
Definition any (t : Rlp.gotype) (v : Rlp.goval) : Rlp.goval := Rlp.VIface (Some (t, v)).
Definition tAny : Rlp.gotype := Rlp.TSlice Rlp.TIface.

Definition HashNoNonce (h : Header) : Hash :=
  rlpHash tAny (Rlp.VSlice
    [any Rlp.TByteArray (vHash (ParentHash h)); any Rlp.TByteArray (vHash (UncleHash h));
     any Rlp.TByteArray (vAddress (Leader h)); any Rlp.TByteArray (vHash (Root h));
     any Rlp.TByteArray (vHash (TxHash h)); any Rlp.TByteArray (vHash (ReceiptHash h));
     any Rlp.TByteArray (byte_array 256 (Bloom h));
     any Rlp.TBigInt (Rlp.VBigInt (Some (Difficulty h)));
     any Rlp.TBigInt (Rlp.VBigInt (Some (Number h)));
     any Rlp.TUint (Rlp.VUint (GasLimit h)); any Rlp.TUint (Rlp.VUint (GasUsed h));
     any Rlp.TBigInt (Rlp.VBigInt (Some (Time h)));
     any (Rlp.TSlice (go_type Elect)) (Rlp.VSlice (map go_val (hElect h)));
     any (go_type NetTopology) (go_val (hNetTopology h));
     any tSignatures (vSignatures (Signatures h));
     any Rlp.TBytes (Rlp.VBytes (Extra h)); any Rlp.TBytes (Rlp.VBytes (Version h))]).

Definition sign_content (h : Header) : Rlp.goval :=
  Rlp.VSlice
    [any Rlp.TByteArray (vHash (ParentHash h)); any Rlp.TByteArray (vHash (UncleHash h));
     any Rlp.TByteArray (vAddress (Leader h)); any Rlp.TByteArray (vHash (Root h));
     any Rlp.TByteArray (vHash (TxHash h)); any Rlp.TByteArray (vHash (ReceiptHash h));
     any Rlp.TByteArray (byte_array 256 (Bloom h));
     any Rlp.TBigInt (Rlp.VBigInt (Some (Difficulty h)));
     any Rlp.TBigInt (Rlp.VBigInt (Some (Number h)));
     any Rlp.TUint (Rlp.VUint (GasLimit h)); any Rlp.TUint (Rlp.VUint (GasUsed h));
     any Rlp.TBigInt (Rlp.VBigInt (Some (Time h)));
     any (Rlp.TSlice (go_type Elect)) (Rlp.VSlice (map go_val (hElect h)));
     any (go_type NetTopology) (go_val (hNetTopology h));
     any Rlp.TBytes (Rlp.VBytes (Extra h)); any Rlp.TBytes (Rlp.VBytes (Version h))].

Definition HashNoSignsAndNonce (h : Header) : Hash := rlpHash tAny (sign_content h).

(** [SignAccounts]: the accounts of the agreeing signatures. *)
Definition SignAccounts (h : Header) : res Signature.error (gmap Signature Address) :=
  let hash := HashNoSignsAndNonce h in
  foldM (fun sign accounts =>
           match Signature.VerifySignWithValidate hash sign with
           | Err Signature.ErrPanic => Err Signature.ErrPanic
           | Err _ => Ok accounts
           | Ok (signAccount, validate) =>
               if negb validate then Ok accounts
               else Ok (<[sign := signAccount]> accounts)
           end) (Signatures h) ∅.

Definition IsBroadcastHeader (h : Header) : bool :=
  Broadcast.IsBroadcastNumber (Uint64 (Number h)).

Definition IsReElectionHeader (h : Header) : bool :=
  Broadcast.IsReElectionNumber (Uint64 (Number h)).

End Types.
End Types.

(** ** Messages of the [mc] package *)

Inductive ReelectRSPType :=
| ReelectRSPTypeNone | ReelectRSPTypePOS | ReelectRSPTypeAlreadyRL
| ReelectRSPTypeAgree | ReelectRSPTypeNewBlockReady.

#[export] Instance ReelectRSPType_eq_dec : EqDecision ReelectRSPType.
Proof. solve_decision. Defined.

Record HD_BlkConsensusReqMsg := mkBlkConsensusReq {
  bcr_From : Address;
  bcr_Header : Header;
  bcr_ConsensusTurn : Z;
  bcr_TxsCode : list Z
}.

Record BlockPOSFinishedNotify := mkPOSFinished {
  pf_Number : Z;
  pf_Header : Header;
  pf_ConsensusTurn : Z;
  pf_TxsCode : list Z
}.

Record LeaderChangeNotify := mkLeaderChange {
  lcn_ConsensusState : bool;
  lcn_Leader : Address;
  lcn_NextLeader : Address;
  lcn_Number : Z;
  lcn_ConsensusTurn : Z;
  lcn_ReelectTurn : Z;
  lcn_TurnBeginTime : Z;
  lcn_TurnEndTime : Z
}.

Record OnlineConsensusReq := mkOnlineReq {
  oc_Leader : Address;
  oc_Seq : Z;
  oc_Node : Address;
  oc_OnlineState : Z         (* an int *)
}.

Record HD_ConsensusVote := mkVote {
  cv_SignHash : Hash;
  cv_Round : Z;
  cv_Sign : Signature;
  cv_From : Address
}.

Record HD_ReelectInquiryReqMsg := mkInquiryReq {
  iq_Number : Z;
  iq_ConsensusTurn : Z;
  iq_ReelectTurn : Z;
  iq_TimeStamp : Z;          (* an int64 *)
  iq_Master : Address;
  iq_From : Address
}.

Record HD_ReelectLeaderReqMsg := mkLeaderReq {
  lr_InquiryReq : HD_ReelectInquiryReqMsg;
  lr_AgreeSigns : list Signature;
  lr_TimeStamp : Z
}.

Record HD_ReelectLeaderConsensus := mkLeaderConsensus {
  lc_Req : HD_ReelectLeaderReqMsg;
  lc_Votes : list Signature;
  lc_TimeStamp : Z
}.

Record HD_ReelectInquiryRspMsg := mkInquiryRsp {
  ir_Number : Z;
  ir_ReqHash : Hash;
  ir_Type : ReelectRSPType;
  ir_AgreeSign : Signature;
  ir_POSResult : option HD_BlkConsensusReqMsg;
  ir_RLResult : option HD_ReelectLeaderConsensus;
  ir_NewBlock : option Header;
  ir_From : Address
}.

Record HD_ReelectLeaderVoteMsg := mkLeaderVote {
  lv_Vote : HD_ConsensusVote;
  lv_Number : Z
}.

Record HD_ReelectResultBroadcastMsg := mkResultBroadcast {
  rb_Number : Z;
  rb_Type : ReelectRSPType;
  rb_POSResult : option HD_BlkConsensusReqMsg;
  rb_RLResult : option HD_ReelectLeaderConsensus;
  rb_TimeStamp : Z;
  rb_From : Address
}.

Record HD_ReelectResultRspMsg := mkResultRsp {
  rr_Number : Z;
  rr_ResultHash : Hash;
  rr_Sign : Signature;
  rr_From : Address
}.

(** The types as the encoder sees them.  The messages with an [int] or [int64]
    field contain a kind without a writer. *)
#[export] Instance OnlineConsensusReq_GoType : GoType OnlineConsensusReq :=
  {| go_type := Rlp.TPtr (Rlp.TStruct [Rlp.TByteArray; Rlp.TUint; Rlp.TByteArray; Rlp.TSigned]);
     go_val r := Rlp.VStruct [vAddress (oc_Leader r); Rlp.VUint (oc_Seq r);
                              vAddress (oc_Node r); Rlp.VSigned (oc_OnlineState r)] |}.

#[export] Instance InquiryReq_GoType : GoType HD_ReelectInquiryReqMsg :=
  {| go_type := Rlp.TPtr (Rlp.TStruct
       [Rlp.TUint; Rlp.TUint; Rlp.TUint; Rlp.TSigned; Rlp.TByteArray; Rlp.TByteArray]);
     go_val r := Rlp.VStruct
       [Rlp.VUint (iq_Number r); Rlp.VUint (iq_ConsensusTurn r); Rlp.VUint (iq_ReelectTurn r);
        Rlp.VSigned (iq_TimeStamp r); vAddress (iq_Master r); vAddress (iq_From r)] |}.

#[export] Instance LeaderReq_GoType : GoType HD_ReelectLeaderReqMsg :=
  {| go_type := Rlp.TPtr (Rlp.TStruct
       [go_type HD_ReelectInquiryReqMsg; tSignatures; Rlp.TSigned]);
     go_val r := Rlp.VStruct
       [go_val (lr_InquiryReq r); vSignatures (lr_AgreeSigns r);
        Rlp.VSigned (lr_TimeStamp r)] |}.

#[export] Instance LeaderConsensus_GoType : GoType HD_ReelectLeaderConsensus :=
  {| go_type := Rlp.TPtr (Rlp.TStruct
       [go_type HD_ReelectLeaderReqMsg; tSignatures; Rlp.TSigned]);
     go_val r := Rlp.VStruct
       [go_val (lc_Req r); vSignatures (lc_Votes r); Rlp.VSigned (lc_TimeStamp r)] |}.

#[export] Instance BlkConsensusReq_GoType : GoType HD_BlkConsensusReqMsg :=
  {| go_type := Rlp.TPtr (Rlp.TStruct
       [Rlp.TByteArray; go_type Header; Rlp.TUint; Rlp.TSlice Rlp.TUint]);
     go_val r := Rlp.VStruct
       [vAddress (bcr_From r); go_val (bcr_Header r); Rlp.VUint (bcr_ConsensusTurn r);
        Rlp.VSlice (map Rlp.VUint (bcr_TxsCode r))] |}.

Definition rsp_type_code (t : ReelectRSPType) : Z :=
  match t with
  | ReelectRSPTypeNone => 0 | ReelectRSPTypePOS => 1 | ReelectRSPTypeAlreadyRL => 2
  | ReelectRSPTypeAgree => 3 | ReelectRSPTypeNewBlockReady => 4
  end.

#[export] Instance ResultBroadcast_GoType : GoType HD_ReelectResultBroadcastMsg :=
  {| go_type := Rlp.TPtr (Rlp.TStruct
       [Rlp.TUint; Rlp.TUint; go_type HD_BlkConsensusReqMsg;
        go_type HD_ReelectLeaderConsensus; Rlp.TSigned; Rlp.TByteArray]);
     go_val r := Rlp.VStruct
       [Rlp.VUint (rb_Number r); Rlp.VUint (rsp_type_code (rb_Type r));
        Rlp.VPtr (go_type HD_BlkConsensusReqMsg) (go_val <$> rb_POSResult r);
        Rlp.VPtr (go_type HD_ReelectLeaderConsensus) (go_val <$> rb_RLResult r);
        Rlp.VSigned (rb_TimeStamp r); vAddress (rb_From r)] |}.

(** ** What the hashes commit to *)
Module HashBinding.
Section HashBinding.
Context `{Crypto}.

Lemma RlpHash_no_writer {A} `{GoType A} (x : A) :
  Rlp.has_writer (go_type A) = false -> Types.RlpHash x = Keccak256 [].
Proof.
  intros Hw. unfold Types.RlpHash, Types.rlpHash. by rewrite Rlp.EncodeToBytes_no_writer.
Qed.

(** The hash of a re-election inquiry, a leader request, a leader
    consensus result, a re-election broadcast or an online-consensus request
    does not depend on the message: each of these types has a signed integer
    field, the encoder rejects the type, and [RlpHash] hashes the empty
    string. *)
Theorem RlpHash_signed_messages_constant
    (iq : HD_ReelectInquiryReqMsg) (lr : HD_ReelectLeaderReqMsg)
    (lc : HD_ReelectLeaderConsensus) (rb : HD_ReelectResultBroadcastMsg)
    (oc : OnlineConsensusReq) :
  Forall (fun h => h = Keccak256 [])
    [Types.RlpHash iq; Types.RlpHash lr; Types.RlpHash lc; Types.RlpHash rb; Types.RlpHash oc].
Proof. repeat constructor; by apply RlpHash_no_writer. Qed.

(** Field ranges of a decoded header. *)
Record header_wf (h : Header) : Prop := {
  wf_hashes : Forall (fun x => (x < 2 ^ 256)%N)
    [ParentHash h; UncleHash h; Root h; TxHash h; ReceiptHash h];
  wf_leader : (Leader h < 2 ^ 160)%N;
  wf_bloom : (Bloom h < 2 ^ 2048)%N;
  wf_bigs : Forall (fun x => 0 <= x) [Difficulty h; Number h; Time h];
  wf_gas : Forall in_u64 [GasLimit h; GasUsed h];
  wf_elect : Forall (fun e => (el_Account e < 2 ^ 160)%N /\ in_u64 (el_Stock e) /\
                              in_u64 (el_Type e)) (hElect h);
  wf_topo : in_u64 (nt_Type (hNetTopology h)) /\
    Forall (fun d => (ntd_Account d < 2 ^ 160)%N /\ in_u64 (ntd_Position d))
      (nt_Data (hNetTopology h));
  wf_bytes : Forall (fun b => 0 <= b < 256) (Extra h ++ Version h)
}.

(** The header without the fields the signing hash leaves out. *)
Definition strip (h : Header) : Header :=
  mkHeader (ParentHash h) (UncleHash h) (Leader h) 0%N (Root h) (TxHash h) (ReceiptHash h)
    (Bloom h) (Difficulty h) (Number h) (GasLimit h) (GasUsed h) (Time h) (hElect h)
    (hNetTopology h) [] (Extra h) 0%N 0%N (Version h).

Definition iArr (n : nat) (x : N) : Rlp.item := Rlp.Str (Rlp.be_bytes n (Z.of_N x)).
Definition iNum (x : Z) : Rlp.item := Rlp.Str (Rlp.big_Bytes x).
Definition elect_item (e : Elect) : Rlp.item :=
  Rlp.Lst [iArr 20 (el_Account e); iNum (el_Stock e); iNum (el_Type e)].
Definition topo_item (d : NetTopologyData) : Rlp.item :=
  Rlp.Lst [iArr 20 (ntd_Account d); iNum (ntd_Position d)].

(** The tree the signing hash is computed from. *)
Definition sign_item (h : Header) : Rlp.item :=
  Rlp.Lst
    [iArr 32 (ParentHash h); iArr 32 (UncleHash h); iArr 20 (Leader h); iArr 32 (Root h);
     iArr 32 (TxHash h); iArr 32 (ReceiptHash h); iArr 256 (Bloom h);
     iNum (Difficulty h); iNum (Number h); iNum (GasLimit h); iNum (GasUsed h);
     iNum (Time h); Rlp.Lst (map elect_item (hElect h));
     Rlp.Lst [iNum (nt_Type (hNetTopology h));
              Rlp.Lst (map topo_item (nt_Data (hNetTopology h)))];
     Rlp.Str (Extra h); Rlp.Str (Version h)].

Lemma mapM_items {A} (g : A -> Rlp.goval) (f : A -> Rlp.item) (l : list A) :
  (forall x, Rlp.item_of (g x) = Ok (f x)) ->
  mapM Rlp.item_of (map g l) = Ok (map f l).
Proof. intros Hf. induction l as [|x l IH]; simpl; [done|]. by rewrite Hf, IH. Qed.

Lemma item_of_sign_content h :
  header_wf h -> Rlp.item_of (Types.sign_content h) = Ok (sign_item h).
Proof.
  intros [_ _ _ Hb _ _ _ _]. repeat (apply Forall_cons in Hb as [? Hb]).
  unfold Types.sign_content, Types.any. cbn [Rlp.item_of mapM Rlp.has_writer go_type
    NetTopology_GoType Elect_GoType NetTopologyData_GoType forallb go_val].
  repeat match goal with |- context [?a <? 0] =>
    replace (a <? 0) with false by (symmetry; apply Z.ltb_ge; lia) end.
  cbn [forallb andb Rlp.has_writer].
  by rewrite (mapM_items _ elect_item), (mapM_items _ topo_item).
Qed.

Lemma wf_list_map {A} (g : A -> Rlp.goval) (l : list A) :
  Forall (fun x => Rlp.wf_val (g x)) l -> Rlp.wf_val (Rlp.VSlice (map g l)).
Proof. induction 1; simpl; auto. Qed.

Lemma byte_array_wf n x : Rlp.wf_val (byte_array n x).
Proof. apply Rlp.be_bytes_wf. Qed.

Lemma sign_content_wf h : header_wf h -> Rlp.wf_val (Types.sign_content h).
Proof.
  intros [_ _ _ _ Hg He [Ht Hts] Hby]. apply Forall_app in Hby as [? ?].
  repeat (apply Forall_cons in Hg as [? Hg]).
  cbn -[byte_array Rlp.be_bytes]. split_and!; try done; try apply byte_array_wf.
  - apply wf_list_map. eapply Forall_impl; [exact He|]. intros e (_ & ? & ?).
    cbn -[byte_array]. split_and!; try done. apply byte_array_wf.
  - apply (wf_list_map _ (nt_Data (hNetTopology h))).
    eapply Forall_impl; [exact Hts|]. intros d (_ & ?).
    cbn -[byte_array]. split_and!; try done. apply byte_array_wf.
Qed.

Lemma sign_item_wf h : header_wf h -> Rlp.wf_item (sign_item h).
Proof.
  intros Hh. apply (Rlp.item_of_wf (Types.sign_content h)).
  - by apply sign_content_wf.
  - by apply item_of_sign_content.
Qed.

Lemma iArr_inj n x y :
  (x < 2 ^ (8 * N.of_nat n))%N -> (y < 2 ^ (8 * N.of_nat n))%N -> iArr n x = iArr n y -> x = y.
Proof.
  intros Hx Hy [= E]. apply N2Z.inj. eapply Rlp.be_bytes_inj; [| |exact E];
    (split; [lia|]); apply N2Z.inj_lt in Hx, Hy; rewrite N2Z.inj_pow, N2Z.inj_mul, nat_N_Z in *;
    done.
Qed.

Lemma iNum_inj x y : 0 <= x -> 0 <= y -> iNum x = iNum y -> x = y.
Proof. intros ?? [= E]. by apply Rlp.big_Bytes_inj. Qed.

Lemma map_inj_on {A B} (P : A -> Prop) (f : A -> B) l1 l2 :
  (forall x y, P x -> P y -> f x = f y -> x = y) ->
  Forall P l1 -> Forall P l2 -> map f l1 = map f l2 -> l1 = l2.
Proof.
  intros Hf H1. revert l2. induction H1; intros l2 H2 E; destruct H2; simplify_eq/=; [done|].
  f_equal; eauto.
Qed.

(** From an equation of lists of items to the equations of their elements. *)
Ltac split_items E :=
  apply (f_equal (fun it => match it with Rlp.Lst l => l | _ => [] end)) in E;
  repeat match type of E with
  | ?a :: _ = ?b :: _ =>
      let E1 := fresh "E" in
      assert (E1 : a = b) by exact (f_equal (fun l => hd a l) E);
      apply (f_equal tail) in E; cbn [tail] in E
  end.

Lemma elect_item_inj e1 e2 :
  (el_Account e1 < 2 ^ 160)%N /\ in_u64 (el_Stock e1) /\ in_u64 (el_Type e1) ->
  (el_Account e2 < 2 ^ 160)%N /\ in_u64 (el_Stock e2) /\ in_u64 (el_Type e2) ->
  elect_item e1 = elect_item e2 -> e1 = e2.
Proof.
  intros (? & [? _] & [? _]) (? & [? _] & [? _]) E. destruct e1 as [a1 s1 t1], e2 as [a2 s2 t2].
  cbn [el_Account el_Stock el_Type ntd_Account ntd_Position] in *.
  unfold elect_item, topo_item in E. cbn [el_Account el_Stock el_Type ntd_Account ntd_Position] in E.
  split_items E. f_equal.
  - by apply (iArr_inj 20).
  - by apply iNum_inj.
  - by apply iNum_inj.
Qed.

Lemma topo_item_inj d1 d2 :
  (ntd_Account d1 < 2 ^ 160)%N /\ in_u64 (ntd_Position d1) ->
  (ntd_Account d2 < 2 ^ 160)%N /\ in_u64 (ntd_Position d2) ->
  topo_item d1 = topo_item d2 -> d1 = d2.
Proof.
  intros (? & [? _]) (? & [? _]) E. destruct d1 as [a1 p1], d2 as [a2 p2].
  cbn [el_Account el_Stock el_Type ntd_Account ntd_Position] in *.
  unfold elect_item, topo_item in E. cbn [el_Account el_Stock el_Type ntd_Account ntd_Position] in E.
  split_items E. f_equal.
  - by apply (iArr_inj 20).
  - by apply iNum_inj.
Qed.

Lemma sign_item_inj h1 h2 :
  header_wf h1 -> header_wf h2 -> sign_item h1 = sign_item h2 -> strip h1 = strip h2.
Proof.
  intros [Hh1 Hl1 Hb1 Hn1 Hg1 He1 [Ht1 Hd1] _] [Hh2 Hl2 Hb2 Hn2 Hg2 He2 [Ht2 Hd2] _] E.
  repeat match goal with Hx : Forall _ (_ :: _) |- _ => apply Forall_cons in Hx as [? Hx] end.
  unfold sign_item in E. unfold strip.
  split_items E.
  f_equal.
  1-2,4-6: by apply (iArr_inj 32).
  1: by apply (iArr_inj 20).
  1: by apply (iArr_inj 256).
  1-2,5: by apply iNum_inj.
  1-2: apply iNum_inj; [unfold in_u64 in *; lia..|done].
  - apply (map_inj_on _ _ _ _ elect_item_inj He1 He2). congruence.
  - destruct (hNetTopology h1) as [ty1 d1], (hNetTopology h2) as [ty2 d2].
    cbn [nt_Type nt_Data] in *. f_equal.
    + apply iNum_inj; [unfold in_u64 in *; lia..|congruence].
    + apply (map_inj_on _ _ _ _ topo_item_inj Hd1 Hd2). congruence.
  - congruence.
  - congruence.
Qed.

Lemma HashNoSignsAndNonce_enc h :
  header_wf h -> Rlp.zlen (Rlp.enc_item (sign_item h)) < 2 ^ 64 ->
  Types.HashNoSignsAndNonce h = Keccak256 (Rlp.enc_item (sign_item h)).
Proof.
  intros Hw Hl. unfold Types.HashNoSignsAndNonce, Types.rlpHash.
  by rewrite (Rlp.EncodeToBytes_item Types.tAny (Types.sign_content h) (sign_item h)
    (sign_content_wf h Hw) eq_refl (item_of_sign_content h Hw) Hl).
Qed.

(** C29: The hash validators sign commits to every header field except the
    four it leaves out: provided Keccak-256 does not collide on the two
    encodings, two headers with equal signing hash agree on everything but
    [Coinbase], [Signatures], [MixDigest] and [Nonce]. *)
Theorem HashNoSignsAndNonce_binding h1 h2 :
  header_wf h1 -> header_wf h2 ->
  Rlp.zlen (Rlp.enc_item (sign_item h1)) < 2 ^ 64 ->
  Rlp.zlen (Rlp.enc_item (sign_item h2)) < 2 ^ 64 ->
  (Keccak256 (Rlp.enc_item (sign_item h1)) = Keccak256 (Rlp.enc_item (sign_item h2)) ->
   Rlp.enc_item (sign_item h1) = Rlp.enc_item (sign_item h2)) ->
  Types.HashNoSignsAndNonce h1 = Types.HashNoSignsAndNonce h2 <-> strip h1 = strip h2.
Proof.
  intros W1 W2 L1 L2 Hk. split; intros E.
  - rewrite !HashNoSignsAndNonce_enc in E by done.
    apply sign_item_inj; [done|done|].
    apply (Rlp.enc_item_prefix_free _ _ [] []); rewrite ?app_nil_r;
      auto using sign_item_wf.
  - unfold Types.HashNoSignsAndNonce.
    change (Types.sign_content h1) with (Types.sign_content (strip h1)).
    change (Types.sign_content h2) with (Types.sign_content (strip h2)). by rewrite E.
Qed.

End HashBinding.

Definition sample_header : Header :=
  mkHeader 1 2 3 4 5 6 7 8 9 21 11 12 13 [mkElect 14 15 2]
    (mkNetTopology 0 [mkNetTopologyData 14 8192]) [] [1; 2] 0 0 [3].

(** The same block after mining and signing. *)
Definition sample_mined : Header :=
  mkHeader 1 2 3 40 5 6 7 8 9 21 11 12 13 [mkElect 14 15 2]
    (mkNetTopology 0 [mkNetTopologyData 14 8192]) [77%N] [1; 2] 5 6 [3].

(** Field ranges of a concrete header. *)
Ltac concrete_wf := constructor; cbn; repeat constructor; cbn; unfold in_u64; try lia.

Lemma HashNoSignsAndNonce_binding_witness :
  @Types.HashNoSignsAndNonce Signature.toy_crypto sample_header
  = @Types.HashNoSignsAndNonce Signature.toy_crypto sample_mined
  <-> strip sample_header = strip sample_mined.
Proof.
  apply (@HashNoSignsAndNonce_binding Signature.toy_crypto sample_header sample_mined).
  - concrete_wf.
  - concrete_wf.
  - vm_compute. reflexivity.
  - vm_compute. reflexivity.
  - intros _. vm_compute. reflexivity.
Defined.

End HashBinding.
