(* ===== verification/Topology.v ===== *)
(** * Package [mc]: the topology graph

    Models mc/funcdef.go and the graph records of mc/msgdef.go: the genesis
    graph, and the step from one block's graph to the next, either by a full
    topology or by a list of changes. *)

From S2P Require Import Prelude Common Types.

Record TopologyNodeInfo := mkNode {
  tn_Account : Address;
  tn_Position : Z;
  tn_Type : Z;
  tn_Stock : Z;
  tn_NodeNumber : Z
}.

Record TopologyGraph := mkGraph {
  tg_Number : Z;
  tg_NodeList : list TopologyNodeInfo;
  tg_CurNodeNumber : Z
}.

Module Topology.

Inductive error := ErrGenesisNumber | ErrGenesisType | ErrNumberMismatch | ErrTopologyType.

(** The new value of the counter, which is also the value returned. *)
Definition increaseNodeNumber (cur : Z) : Z := if 99 <=? cur then 0 else u8 (cur + 1).

Fixpoint getNodeStock (addr : Address) (electList : list Elect) : Z :=
  match electList with
  | [] => 1
  | e :: l => if bool_decide (el_Account e = addr) then el_Stock e else getNodeStock addr l
  end.

(** The loop that appends the nodes of a full topology. *)
Fixpoint append_nodes (electList : list Elect) (data : list NetTopologyData)
    (nodes : list TopologyNodeInfo) (cur : Z) : list TopologyNodeInfo * Z :=
  match data with
  | [] => (nodes, cur)
  | topNode :: data' =>
      let cur' := increaseNodeNumber cur in
      append_nodes electList data'
        (nodes ++ [mkNode (ntd_Account topNode) (ntd_Position topNode)
                     (GetRoleTypeFromPosition (ntd_Position topNode))
                     (getNodeStock (ntd_Account topNode) electList) cur'])
        cur'
  end.

Definition NewGenesisTopologyGraph (genesisHeader : Header) : res error TopologyGraph :=
  if negb (Uint64 (Number genesisHeader) =? 0) then Err ErrGenesisNumber
  else if negb (nt_Type (hNetTopology genesisHeader) =? NetTopoTypeAll)
  then Err ErrGenesisType
  else
    let '(nodes, cur) :=
      append_nodes (hElect genesisHeader) (nt_Data (hNetTopology genesisHeader)) [] 99 in
    Ok (mkGraph 0 nodes cur).

(** The inner loop for one change: the first node at the position takes the
    new account, or the first node with an offline account is removed,
    whichever comes first. *)
Fixpoint apply_change (electList : list Elect) (chgInfo : NetTopologyData)
    (nodes : list TopologyNodeInfo) (cur : Z) : list TopologyNodeInfo * Z :=
  match nodes with
  | [] => ([], cur)
  | topNode :: nodes' =>
      if ntd_Position chgInfo =? tn_Position topNode then
        let cur' := increaseNodeNumber cur in
        (mkNode (ntd_Account chgInfo) (tn_Position topNode) (tn_Type topNode)
           (getNodeStock (ntd_Account chgInfo) electList) cur' :: nodes', cur')
      else if (ntd_Position chgInfo =? PosOffline) &&
              bool_decide (ntd_Account chgInfo = tn_Account topNode)
      then (nodes', cur)
      else let '(rest, cur') := apply_change electList chgInfo nodes' cur in
           (topNode :: rest, cur')
  end.

Definition apply_changes (electList : list Elect) (data : list NetTopologyData)
    (nodes : list TopologyNodeInfo) (cur : Z) : list TopologyNodeInfo * Z :=
  foldl (fun '(nodes, cur) chgInfo => apply_change electList chgInfo nodes cur)
    (nodes, cur) data.

Definition Transfer2NextGraph (self : TopologyGraph) (number : Z)
    (blockTopology : NetTopology) (electList : list Elect) : res error TopologyGraph :=
  if negb (u64 (tg_Number self + 1) =? number) then Err ErrNumberMismatch
  else if nt_Type blockTopology =? NetTopoTypeAll then
    let '(nodes, cur) :=
      append_nodes electList (nt_Data blockTopology) [] (tg_CurNodeNumber self) in
    Ok (mkGraph number nodes cur)
  else if nt_Type blockTopology =? NetTopoTypeChange then
    let '(nodes, cur) :=
      apply_changes electList (nt_Data blockTopology) (tg_NodeList self)
        (tg_CurNodeNumber self) in
    Ok (mkGraph number nodes cur)
  else Err ErrTopologyType.

(** ** Invariant *)

Definition node_ok (n : TopologyNodeInfo) : Prop :=
  0 <= tn_NodeNumber n <= 99 /\ tn_Type n = GetRoleTypeFromPosition (tn_Position n).

Definition graph_ok (g : TopologyGraph) : Prop :=
  0 <= tg_CurNodeNumber g <= 99 /\ Forall node_ok (tg_NodeList g).

Definition positions (g : TopologyGraph) : list Z := map tn_Position (tg_NodeList g).

Lemma increaseNodeNumber_bounds cur :
  0 <= cur -> 0 <= increaseNodeNumber cur <= 99.
Proof.
  intros. unfold increaseNodeNumber, u8. destruct (Z.leb_spec 99 cur); [lia|].
  rewrite Z.mod_small; lia.
Qed.

Lemma increaseNodeNumber_mod cur :
  0 <= cur <= 99 -> increaseNodeNumber cur = (cur + 1) mod 100.
Proof.
  intros. unfold increaseNodeNumber, u8. destruct (Z.leb_spec 99 cur).
  - by replace cur with 99 by lia.
  - rewrite !Z.mod_small; lia.
Qed.

Lemma append_nodes_ok el data nodes cur :
  0 <= cur <= 99 -> Forall node_ok nodes ->
  let r := append_nodes el data nodes cur in
  0 <= r.2 <= 99 /\ Forall node_ok r.1.
Proof.
  revert nodes cur. induction data as [|d data IH]; intros nodes cur Hc Hn; simpl; [done|].
  pose proof (increaseNodeNumber_bounds cur ltac:(lia)). apply IH; [done|].
  apply Forall_app. split; [done|]. constructor; [|done]. by split.
Qed.

Lemma apply_change_ok el chg nodes cur :
  0 <= cur <= 99 -> Forall node_ok nodes ->
  let r := apply_change el chg nodes cur in
  0 <= r.2 <= 99 /\ Forall node_ok r.1.
Proof.
  intros Hc Hn. pose proof (increaseNodeNumber_bounds cur ltac:(lia)).
  induction Hn as [|n nodes [Hb Ht] Hn IH]; simpl; [done|].
  case_match; [|case_match; [done|]].
  - split; [done|]. by constructor.
  - destruct (apply_change el chg nodes cur) as [rest cur']; simpl in *.
    destruct IH. split; [done|]. by constructor.
Qed.

Lemma apply_changes_ok el data nodes cur :
  0 <= cur <= 99 -> Forall node_ok nodes ->
  let r := apply_changes el data nodes cur in
  0 <= r.2 <= 99 /\ Forall node_ok r.1.
Proof.
  unfold apply_changes. revert nodes cur.
  induction data as [|d data IH]; intros nodes cur Hc Hn; simpl; [done|].
  pose proof (apply_change_ok el d nodes cur Hc Hn) as H.
  destruct (apply_change el d nodes cur) as [nodes' cur']. by apply IH; apply H.
Qed.

(** Changes never add a position, and keep positions distinct. *)
Lemma apply_change_positions el chg nodes cur :
  map tn_Position (apply_change el chg nodes cur).1 `sublist_of` map tn_Position nodes.
Proof.
  induction nodes as [|n nodes IH]; simpl; [done|].
  case_match; [done|]. case_match; [by apply sublist_cons|].
  destruct (apply_change el chg nodes cur); simpl in *. by apply sublist_skip.
Qed.

Lemma apply_changes_positions el data nodes cur :
  map tn_Position (apply_changes el data nodes cur).1 `sublist_of` map tn_Position nodes.
Proof.
  unfold apply_changes. revert nodes cur.
  induction data as [|d data IH]; intros nodes cur; simpl; [done|].
  pose proof (apply_change_positions el d nodes cur) as H.
  destruct (apply_change el d nodes cur) as [nodes' cur'].
  etrans; [apply IH|exact H].
Qed.

(** What [append_nodes] appends. *)
Fixpoint numbered (el : list Elect) (data : list NetTopologyData) (cur : Z)
    : list TopologyNodeInfo :=
  match data with
  | [] => []
  | d :: data' =>
      let cur' := increaseNodeNumber cur in
      mkNode (ntd_Account d) (ntd_Position d) (GetRoleTypeFromPosition (ntd_Position d))
        (getNodeStock (ntd_Account d) el) cur' :: numbered el data' cur'
  end.

Lemma append_nodes_numbered el data nodes cur :
  (append_nodes el data nodes cur).1 = nodes ++ numbered el data cur.
Proof.
  revert nodes cur. induction data as [|d data IH]; intros nodes cur; simpl.
  - by rewrite app_nil_r.
  - by rewrite IH, <- app_assoc.
Qed.

Lemma numbered_lookup el data cur i n :
  0 <= cur <= 99 -> numbered el data cur !! i = Some n ->
  exists d, data !! i = Some d /\ tn_Account n = ntd_Account d /\
    tn_Position n = ntd_Position d /\ tn_NodeNumber n = (cur + 1 + Z.of_nat i) mod 100.
Proof.
  revert cur i. induction data as [|d data IH]; intros cur i Hc; simpl; [done|].
  rewrite increaseNodeNumber_mod by done. destruct i as [|i]; simpl.
  - intros [= <-]. exists d. simpl. split_and!; try done. by rewrite Z.add_0_r.
  - intros Hl. pose proof (Z.mod_pos_bound (cur + 1) 100 ltac:(lia)).
    destruct (IH ((cur + 1) mod 100) i ltac:(lia) Hl) as (d' & ? & ? & ? & ->).
    exists d'. split_and!; try done.
    rewrite <- Z.add_assoc, Zplus_mod_idemp_l. f_equal. lia.
Qed.

Lemma numbered_length el data cur : length (numbered el data cur) = length data.
Proof. revert cur. induction data; intros; simpl; auto. Qed.

(** ** Changes without departures, as an update of the accounts *)

(** The account at a position: the first node there. *)
Definition account_at (nodes : list TopologyNodeInfo) (p : Z) : option Address :=
  tn_Account <$> head (filter (fun n => tn_Position n = p) nodes).

(** The last change recorded for a position. *)
Definition last_change (data : list NetTopologyData) (p : Z) : option Address :=
  ntd_Account <$> last (filter (fun d => ntd_Position d = p) data).

Lemma apply_change_account el chg nodes cur p :
  ntd_Position chg <> PosOffline ->
  account_at (apply_change el chg nodes cur).1 p
  = if bool_decide (p = ntd_Position chg)
    then const (ntd_Account chg) <$> account_at nodes p else account_at nodes p.
Proof.
  intros Hoff. unfold account_at. induction nodes as [|n nodes IH]; simpl.
  - by case_match.
  - destruct (Z.eqb_spec (ntd_Position chg) (tn_Position n)) as [E|E].
    + simpl. rewrite !filter_cons. simpl.
      destruct (decide (tn_Position n = p)) as [<-|Hp]; simpl.
      * rewrite bool_decide_eq_true_2 by congruence. done.
      * rewrite bool_decide_eq_false_2 by congruence. done.
    + destruct (Z.eqb_spec (ntd_Position chg) PosOffline); [done|]. simpl.
      destruct (apply_change el chg nodes cur) as [rest cur']; simpl in *.
      rewrite !filter_cons. destruct (decide (tn_Position n = p)) as [<-|Hp]; simpl.
      * rewrite bool_decide_eq_false_2 by congruence. done.
      * done.
Qed.

Lemma apply_change_same_positions el chg nodes cur :
  ntd_Position chg <> PosOffline ->
  map tn_Position (apply_change el chg nodes cur).1 = map tn_Position nodes.
Proof.
  intros Hoff. induction nodes as [|n nodes IH]; simpl; [done|].
  case_match; [done|]. destruct (Z.eqb_spec (ntd_Position chg) PosOffline); [done|]. simpl.
  destruct (apply_change el chg nodes cur); simpl in *. by f_equal.
Qed.

Lemma apply_changes_account el data nodes cur p :
  Forall (fun d => ntd_Position d <> PosOffline) data ->
  account_at (apply_changes el data nodes cur).1 p
  = match last_change data p with
    | Some a => const a <$> account_at nodes p
    | None => account_at nodes p
    end.
Proof.
  intros Hoff. unfold apply_changes. revert nodes cur.
  induction Hoff as [|d data Hd Hoff IH]; intros nodes cur; simpl; [done|].
  pose proof (apply_change_account el d nodes cur p Hd) as Hc.
  destruct (apply_change el d nodes cur) as [nodes' cur']; simpl in *.
  rewrite IH, Hc. unfold last_change. rewrite filter_cons.
  destruct (decide (ntd_Position d = p)) as [E|E].
  - rewrite bool_decide_eq_true_2 by done.
    destruct (filter _ data) as [|d' l] eqn:El; simpl; [done|].
    change (last (d :: d' :: l)) with (last (d' :: l)).
    destruct (last (d' :: l)) eqn:E2; [|by apply last_None in E2].
    simpl. by destruct (account_at nodes p).
  - by rewrite bool_decide_eq_false_2 by congruence.
Qed.

(** ** Properties *)

(** Every graph built from a genesis header or by a step from a
    well-formed graph is well formed: node numbers stay in 0..99 and the type
    of each node is the role its position encodes. *)
Theorem Transfer2NextGraph_ok g number topo el g' :
  graph_ok g -> Transfer2NextGraph g number topo el = Ok g' ->
  graph_ok g' /\ tg_Number g' = number /\ u64 (tg_Number g + 1) = number.
Proof.
  intros [Hc Hn]. unfold Transfer2NextGraph.
  destruct (Z.eqb_spec (u64 (tg_Number g + 1)) number) as [E|]; [|done]. simpl.
  pose proof (append_nodes_ok el (nt_Data topo) [] _ Hc (Forall_nil_2 _)) as Ha.
  pose proof (apply_changes_ok el (nt_Data topo) _ _ Hc Hn) as Hch.
  repeat case_match; intros; simplify_eq/=; by split_and!.
Qed.

(** A change topology keeps node positions distinct and adds none; if no
    entry is a departure it keeps the list of positions, and the account at
    each position becomes the last one the block assigns to it. *)
Theorem Transfer2NextGraph_change g number topo el g' :
  nt_Type topo = NetTopoTypeChange -> Transfer2NextGraph g number topo el = Ok g' ->
  (positions g' `sublist_of` positions g) /\
  (NoDup (positions g) -> NoDup (positions g')) /\
  (Forall (fun d => ntd_Position d <> PosOffline) (nt_Data topo) ->
   forall p, account_at (tg_NodeList g') p
             = match last_change (nt_Data topo) p with
               | Some a => const a <$> account_at (tg_NodeList g) p
               | None => account_at (tg_NodeList g) p
               end).
Proof.
  intros Ht. unfold Transfer2NextGraph. rewrite Ht.
  destruct (u64 _ =? number); [|done]. simpl.
  pose proof (apply_changes_positions el (nt_Data topo) (tg_NodeList g) (tg_CurNodeNumber g)) as Hp.
  pose proof (apply_changes_account el (nt_Data topo) (tg_NodeList g) (tg_CurNodeNumber g)) as Ha.
  destruct (apply_changes _ _ _ _) as [nodes cur]; simpl in *. intros [= <-].
  unfold positions; simpl. split_and!; [done| |auto].
  intros Hd. by eapply sublist_NoDup.
Qed.

(** A full topology of at most 100 entries yields one node per entry, in
    order, with pairwise distinct node numbers. *)
Theorem Transfer2NextGraph_full_numbers g number topo el g' :
  graph_ok g -> nt_Type topo = NetTopoTypeAll -> (length (nt_Data topo) <= 100)%nat ->
  Transfer2NextGraph g number topo el = Ok g' ->
  map tn_Account (tg_NodeList g') = map ntd_Account (nt_Data topo) /\
  positions g' = map ntd_Position (nt_Data topo) /\
  NoDup (map tn_NodeNumber (tg_NodeList g')).
Proof.
  intros [Hc _] Ht Hlen. unfold Transfer2NextGraph. rewrite Ht.
  destruct (u64 _ =? number); [|done]. simpl.
  pose proof (append_nodes_numbered el (nt_Data topo) [] (tg_CurNodeNumber g)) as Hn.
  destruct (append_nodes _ _ _ _) as [nodes cur]; simpl in *. intros [= <-].
  unfold positions; simpl. rewrite Hn. split_and!.
  - clear. generalize (tg_CurNodeNumber g). induction (nt_Data topo); intros; simpl; f_equal; auto.
  - clear. generalize (tg_CurNodeNumber g). induction (nt_Data topo); intros; simpl; f_equal; auto.
  - apply NoDup_alt. intros i j x. rewrite !list_lookup_fmap.
    intros (n & Hi & ->)%fmap_Some (m & Hj & Hx)%fmap_Some.
    assert (Hli := lookup_lt_Some _ _ _ Hi). assert (Hlj := lookup_lt_Some _ _ _ Hj).
    rewrite numbered_length in Hli, Hlj.
    destruct (numbered_lookup _ _ _ _ _ Hc Hi) as (_ & _ & _ & _ & Ei).
    destruct (numbered_lookup _ _ _ _ _ Hc Hj) as (_ & _ & _ & _ & Ej).
    rewrite Ei, Ej in Hx. Z.div_mod_to_equations. lia.
Qed.

Definition sample_graph : TopologyGraph :=
  mkGraph 7 [mkNode 1 0x2000 RoleValidator 5 0; mkNode 2 0x2001 RoleValidator 5 1] 1.

Lemma Transfer2NextGraph_ok_witness :
  exists g', graph_ok g' /\ tg_Number g' = 8 /\ u64 (7 + 1) = 8.
Proof.
  eexists. apply (Transfer2NextGraph_ok sample_graph 8
    (mkNetTopology 1 [mkNetTopologyData 3 0x2001]) []); [|reflexivity].
  split; [simpl; lia|]. repeat (constructor; [split; [simpl; lia|reflexivity]|]). constructor.
Defined.

Lemma Transfer2NextGraph_change_witness :
  exists g', account_at (tg_NodeList g') 0x2001 = Some 4%N /\
             account_at (tg_NodeList g') 0x2000 = Some 1%N.
Proof.
  destruct (Transfer2NextGraph_change sample_graph 8
    (mkNetTopology 1 [mkNetTopologyData 3 0x2001; mkNetTopologyData 4 0x2001]) []
    _ eq_refl eq_refl) as (_ & _ & H).
  eexists. split.
  - rewrite H; [reflexivity|]. repeat constructor; discriminate.
  - rewrite H; [reflexivity|]. repeat constructor; discriminate.
Defined.

Definition sample_full : TopologyGraph :=
  mkGraph 8 [mkNode 3 0x2001 RoleValidator 1 2; mkNode 4 0x2002 RoleValidator 1 3] 3.

Lemma Transfer2NextGraph_full_numbers_witness :
  map tn_Account (tg_NodeList sample_full) = [3; 4]%N /\
  positions sample_full = [0x2001; 0x2002] /\
  NoDup (map tn_NodeNumber (tg_NodeList sample_full)).
Proof.
  apply (Transfer2NextGraph_full_numbers sample_graph 8
    (mkNetTopology 0 [mkNetTopologyData 3 0x2001; mkNetTopologyData 4 0x2002]) []);
    [|reflexivity|simpl; lia|reflexivity].
  split; [simpl; lia|]. repeat (constructor; [split; [simpl; lia|reflexivity]|]). constructor.
Defined.

End Topology.
