(* ===== verification/Dpos.v ===== *)
(** * Package [consensus/mtxdpos]: the DPOS engine

    Models all of consensus/mtxdpos/mtxdpos.go: the vote target, the
    collection of votes per validator, the counting loop over the votes (in
    the unspecified order of a Go map), and the verification of hashes,
    blocks and chains of blocks.  The reader of the validator topology and
    the configured broadcast nodes are parameters. *)

From S2P Require Import Prelude Float64 Common Crypto Types Topology.

(** [consensus.ValidatorReader]. *)
Record ValidatorReader := mkReader {
  GetCurrentNumber : Z;
  GetValidatorByNumber : Z -> option TopologyGraph
}.

Module Dpos.

Inductive error :=
| errInputHeaderErr
| errStockCountErr
| errSignCountErr
| errSignStockErr
| errDisagreeCountErr
| errDisagreeStockErr
| errBroadcastSignCount
| errBroadcastVerifySign
| errBroadcastVerifySignFalse
| errReader                            (* the topology reader failed *)
| errSignature (e : Signature.error)
| errBlocksBroadcast (e : error)       (* the three wrappers of VerifyBlocks *)
| errBlocksDpos (e : error)
| errBlocksTopology (e : Topology.error).

(** The factor 0.66667 and the thresholds. *)
Definition DPOSTargetSignCountRatio := Float64.of_const 66667 100000.
Definition DPOSTargetStockRatio := Float64.of_int 0.
Definition DPOSMinStockCount : Z := 3.
Definition DPOSFullSignThreshold : Z := 7.

Record dposTarget := mkTarget {
  totalCount : Z;
  totalStock : Z;
  targetCount : Z;
  targetStock : Z;
  maxDisagreeCount : Z;
  maxDisagreeStock : Z
}.

(** [int(math.Ceil(float64(n) * ratio))]; finite for every count and stock. *)
Definition ceil_ratio (n : Z) (ratio : SpecFloat.spec_float) : Z :=
  default 0 (Float64.ceil_int (Float64.mul (Float64.of_int n) ratio)).

Section Dpos.
Context `{GoRange} `{Crypto}.

Definition calculateDPOSTarget (stocks : gmap Address Z) : res error dposTarget :=
  let total := Z.of_nat (size stocks) in
  if total <? DPOSMinStockCount then Err errStockCountErr
  else
    let stock := foldl (fun acc s => u64 (acc + s)) 0 (range_values stocks) in
    let '(tc, ts) :=
      if total <=? DPOSFullSignThreshold then (total, stock)
      else (ceil_ratio total DPOSTargetSignCountRatio,
            ceil_ratio stock DPOSTargetStockRatio) in
    Ok (mkTarget total stock tc ts (total - tc) (u64 (stock - ts))).

(** One vote entered into the map of votes: an agreeing vote replaces a
    disagreeing one of the same account. *)
Definition record_sign (stocks : gmap Address Z) (sign : Signature) (account : Address)
    (validate : bool) (m : gmap Address VerifiedSign) : gmap Address VerifiedSign :=
  match stocks !! account with
  | None => m
  | Some stock =>
      match m !! account with
      | Some existData =>
          if negb (vs_Validate existData) && validate
          then <[account := mkVerifiedSign sign account validate stock]> m
          else m
      | None => <[account := mkVerifiedSign sign account validate stock]> m
      end
  end.

Definition parseVerifiedSigns (verifiedSigns : list VerifiedSign) (stocks : gmap Address Z)
    : gmap Address VerifiedSign :=
  foldl (fun m sign => record_sign stocks (vs_Sign sign) (vs_Account sign) (vs_Validate sign) m)
    ∅ verifiedSigns.

Definition verifySigns (signHash : Hash) (signs : list Signature) (stocks : gmap Address Z)
    : res error (gmap Address VerifiedSign) :=
  foldM (fun sign m =>
           match Signature.VerifySignWithValidate signHash sign with
           | Err Signature.ErrPanic => Err (errSignature Signature.ErrPanic)
           | Err _ => Ok m
           | Ok (account, signValidate) => Ok (record_sign stocks sign account signValidate m)
           end) signs ∅.

(** The counting loop of [verifyDPOS] over the votes in iteration order. *)
Fixpoint verify_loop (target : dposTarget) (votes : list VerifiedSign)
    (agreeCount disagreeCount agreeStock disagreeStock : Z) (rightSigns : list Signature)
    : res error (list Signature) :=
  match votes with
  | [] =>
      if agreeCount <? targetCount target then Err errSignCountErr
      else if agreeStock <? targetStock target then Err errSignStockErr
      else Ok rightSigns
  | signInfo :: votes' =>
      if vs_Validate signInfo then
        verify_loop target votes' (agreeCount + 1) disagreeCount
          (u64 (agreeStock + vs_Stock signInfo)) disagreeStock (rightSigns ++ [vs_Sign signInfo])
      else
        let disagreeCount := disagreeCount + 1 in
        let disagreeStock := u64 (disagreeStock + vs_Stock signInfo) in
        if maxDisagreeCount target <? disagreeCount then Err errDisagreeCountErr
        else if maxDisagreeStock target <? disagreeStock then Err errDisagreeStockErr
        else verify_loop target votes' agreeCount disagreeCount agreeStock disagreeStock rightSigns
  end.

Definition verifyDPOS (verifiedSigns : gmap Address VerifiedSign) (target : dposTarget)
    : res error (list Signature) :=
  verify_loop target (range_values verifiedSigns) 0 0 0 0 [].

Definition graph2ValidatorStocks (graph : TopologyGraph) : gmap Address Z :=
  foldl (fun stocks node =>
           if negb (tn_Type node =? RoleValidator) then stocks
           else match stocks !! tn_Account node with
                | Some _ => stocks
                | None => <[tn_Account node := tn_Stock node]> stocks
                end) ∅ (tg_NodeList graph).

Definition getValidatorGraph (reader : ValidatorReader) (number : Z) : res error TopologyGraph :=
  let parentNumber := if negb (number =? 0) then u64 (number - 1) else number in
  match GetValidatorByNumber reader parentNumber with
  | None => Err errReader
  | Some graphInfo => Ok graphInfo
  end.

Definition getValidatorStocks (reader : ValidatorReader) (number : Z)
    : res error (gmap Address Z) :=
  let? graphInfo := getValidatorGraph reader number in
  Ok (graph2ValidatorStocks graphInfo).

Definition VerifyHashWithStocks (signHash : Hash) (signs : list Signature)
    (stocks : gmap Address Z) : res error (list Signature) :=
  let? target := calculateDPOSTarget stocks in
  if Z.of_nat (length signs) <? targetCount target then Err errSignCountErr
  else
    let? verifiedSigns := verifySigns signHash signs stocks in
    if Z.of_nat (size verifiedSigns) <? targetCount target then Err errSignCountErr
    else verifyDPOS verifiedSigns target.

Definition VerifyHashWithNumber (reader : ValidatorReader) (signHash : Hash)
    (signs : list Signature) (number : Z) : res error (list Signature) :=
  let? stocks := getValidatorStocks reader number in
  VerifyHashWithStocks signHash signs stocks.

Definition VerifyHash (reader : ValidatorReader) (signHash : Hash) (signs : list Signature)
    : res error (list Signature) :=
  VerifyHashWithNumber reader signHash signs (u64 (GetCurrentNumber reader + 1)).

Definition VerifyHashWithVerifiedSignsAndNumber (reader : ValidatorReader)
    (signs : list VerifiedSign) (number : Z) : res error (list Signature) :=
  let? stocks := getValidatorStocks reader number in
  let? target := calculateDPOSTarget stocks in
  if Z.of_nat (length signs) <? targetCount target then Err errSignCountErr
  else
    let verifiedSigns := parseVerifiedSigns signs stocks in
    if Z.of_nat (size verifiedSigns) <? targetCount target then Err errSignCountErr
    else verifyDPOS verifiedSigns target.

Definition VerifyHashWithVerifiedSigns (reader : ValidatorReader) (signs : list VerifiedSign)
    : res error (list Signature) :=
  VerifyHashWithVerifiedSignsAndNumber reader signs (u64 (GetCurrentNumber reader + 1)).

Section Broadcast.
(** [man.BroadCastNodes]. *)
Variable BroadCastNodes : list Address.

Definition isBroadcastRole (address : Address) : bool :=
  existsb (fun b => bool_decide (b = address)) BroadCastNodes.

Definition verifyBroadcastBlock (header : Header) : res error unit :=
  match Signatures header with
  | [sign] =>
      match Signature.VerifySignWithValidate (Types.HashNoSignsAndNonce header) sign with
      | Err e => Err (errSignature e)
      | Ok (from, result) =>
          if negb (isBroadcastRole from) then Err errBroadcastVerifySign
          else if negb result then Err errBroadcastVerifySignFalse
          else Ok tt
      end
  | _ => Err errBroadcastSignCount
  end.

Definition VerifyBlock (reader : ValidatorReader) (header : Header) : res error unit :=
  if Broadcast.IsBroadcastNumber (Uint64 (Number header)) then verifyBroadcastBlock header
  else
    let? stocks := getValidatorStocks reader (Uint64 (Number header)) in
    let hash := Types.HashNoSignsAndNonce header in
    let? _ := VerifyHashWithStocks hash (Signatures header) stocks in Ok tt.

(** The body of the loop of [VerifyBlocks] for one header, given the graph of
    its parent. *)
Definition verify_next (header : Header) (preGraph : TopologyGraph) : res error TopologyGraph :=
  let hash := Types.HashNoSignsAndNonce header in
  let number := Uint64 (Number header) in
  let? _ :=
    if Broadcast.IsBroadcastNumber number then
      match verifyBroadcastBlock header with
      | Err e => Err (errBlocksBroadcast e) | Ok _ => Ok tt end
    else
      match VerifyHashWithStocks hash (Signatures header) (graph2ValidatorStocks preGraph) with
      | Err e => Err (errBlocksDpos e) | Ok _ => Ok tt end in
  match Topology.Transfer2NextGraph preGraph number (hNetTopology header) [] with
  | Err e => Err (errBlocksTopology e)
  | Ok g => Ok g
  end.

Definition VerifyBlocks (reader : ValidatorReader) (headers : list Header) : res error unit :=
  match headers with
  | [] => Err errInputHeaderErr
  | header :: _ =>
      let? preGraph := getValidatorGraph reader (Uint64 (Number header)) in
      let? _ := foldM verify_next headers preGraph in Ok tt
  end.

End Broadcast.
(** ** The target *)

(** The number of agreeing validators out of [n] that is required. *)
Definition required (n : Z) : Z :=
  if n <=? DPOSFullSignThreshold then n else ceil_ratio n DPOSTargetSignCountRatio.

(** Stocks are 16-bit, and positions have a 12-bit index, so there are at
    most 4096 validators. *)
Definition stocks_ok (stocks : gmap Address Z) : Prop :=
  map_Forall (fun _ s => in_u16 s) stocks /\ (size stocks <= 4096)%nat.

Definition total_stock (stocks : gmap Address Z) : Z := zsum (map_to_list stocks).*2.

Lemma stocks_nonneg stocks :
  stocks_ok stocks -> Forall (fun x => 0 <= x) (map_to_list stocks).*2.
Proof.
  intros [Hs _]. apply Forall_fmap, Forall_forall. intros [a s] Hin%elem_of_map_to_list.
  specialize (Hs a s Hin). unfold in_u16 in Hs. simpl. lia.
Qed.

Lemma total_stock_bound stocks : stocks_ok stocks -> 0 <= total_stock stocks < 2 ^ 32.
Proof.
  intros Hok. split; [by apply zsum_nonneg, stocks_nonneg|].
  destruct Hok as [Hs Hn]. unfold total_stock.
  eapply Z.le_lt_trans; [apply (zsum_bound _ (2 ^ 16 - 1))|].
  - apply Forall_fmap, Forall_forall. intros [a s] Hin%elem_of_map_to_list.
    specialize (Hs a s Hin). unfold in_u16 in Hs. simpl. lia.
  - rewrite length_fmap, length_map_to_list. lia.
Qed.

(** The float product agrees with exact rational rounding up to the bound. *)
Lemma ceil_ratio_exact n :
  1 <= n <= 4096 -> ceil_ratio n DPOSTargetSignCountRatio = (66667 * n + 99999) / 100000.
Proof.
  assert (Hall : forallb (fun k => let n := Z.of_nat k in
      ceil_ratio n DPOSTargetSignCountRatio =? (66667 * n + 99999) / 100000)
      (seq 1 4096) = true) by (vm_compute; reflexivity).
  intros Hn. rewrite forallb_forall in Hall. specialize (Hall (Z.to_nat n)).
  rewrite Z2Nat.id in Hall by lia. apply Z.eqb_eq, Hall, in_seq. lia.
Qed.

Lemma ceil_ratio_zero n : in_u64 n -> ceil_ratio n DPOSTargetStockRatio = 0.
Proof.
  intros Hn. unfold ceil_ratio, DPOSTargetStockRatio, Float64.mul. simpl.
  destruct (Float64.of_int n) as [[]|[]| |[] m e]; done.
Qed.

Lemma required_bounds n :
  3 <= n <= 4096 -> 66667 * n <= 100000 * required n /\ required n <= n.
Proof.
  intros Hn. unfold required, DPOSFullSignThreshold.
  destruct (Z.leb_spec n 7); [lia|]. rewrite ceil_ratio_exact by lia.
  Z.div_mod_to_equations. lia.
Qed.

Lemma calculateDPOSTarget_spec stocks :
  stocks_ok stocks ->
  let n := Z.of_nat (size stocks) in
  calculateDPOSTarget stocks
  = if n <? 3 then Err errStockCountErr
    else let ts := if n <=? 7 then total_stock stocks else 0 in
         Ok (mkTarget n (total_stock stocks) (required n) ts
               (n - required n) (total_stock stocks - ts)).
Proof.
  intros Hok n. unfold calculateDPOSTarget, DPOSMinStockCount. fold n.
  destruct (Z.ltb_spec n 3); [done|].
  pose proof (total_stock_bound stocks Hok) as Hb.
  assert (Hp : range_values stocks ≡ₚ (map_to_list stocks).*2)
    by (unfold range_values; by rewrite range_perm).
  assert (Hsum : zsum (range_values stocks) = total_stock stocks) by (by rewrite Hp).
  assert (Hnn : Forall (fun x => 0 <= x) (range_values stocks))
    by (rewrite Hp; by apply stocks_nonneg).
  rewrite foldl_u64_sum, Hsum, Z.add_0_l by (done || lia).
  rewrite ceil_ratio_zero by (unfold in_u64; lia).
  unfold required, DPOSFullSignThreshold.
  destruct (n <=? 7); cbv iota beta; rewrite (u64_small (_ - _)); try done; unfold in_u64; lia.
Qed.

(** ** The map of votes *)

Definition vote := (Signature * Address * bool)%type.

Definition record_votes (stocks : gmap Address Z) (votes : list vote)
    (m : gmap Address VerifiedSign) : gmap Address VerifiedSign :=
  foldl (fun m '(s, a, v) => record_sign stocks s a v m) m votes.

(** The votes a list of signatures stands for. *)
Definition sign_votes (h : Hash) (signs : list Signature) : list vote :=
  omap (fun s => match Signature.VerifySignWithValidate h s with
                 | Ok (a, v) => Some (s, a, v)
                 | Err _ => None
                 end) signs.

Definition no_panic (h : Hash) (signs : list Signature) : Prop :=
  Forall (fun s => Signature.VerifySignWithValidate h s <> Err Signature.ErrPanic) signs.

Lemma verifySigns_fold h signs stocks m :
  no_panic h signs ->
  foldM (fun sign m =>
           match Signature.VerifySignWithValidate h sign with
           | Err Signature.ErrPanic => Err (errSignature Signature.ErrPanic)
           | Err _ => Ok m
           | Ok (account, signValidate) => Ok (record_sign stocks sign account signValidate m)
           end) signs m
  = Ok (record_votes stocks (sign_votes h signs) m).
Proof.
  intros Hp. revert m. induction Hp as [|s signs Hs Hp IH]; intros m; simpl; [done|].
  destruct (Signature.VerifySignWithValidate h s) as [[a v]|e]; [by rewrite IH|].
  destruct e; try done; by rewrite IH.
Qed.

Lemma verifySigns_votes h signs stocks :
  no_panic h signs -> verifySigns h signs stocks = Ok (record_votes stocks (sign_votes h signs) ∅).
Proof. apply verifySigns_fold. Qed.

Lemma verifySigns_ok_no_panic h signs stocks m :
  verifySigns h signs stocks = Ok m -> no_panic h signs.
Proof.
  unfold verifySigns. generalize (∅ : gmap Address VerifiedSign).
  induction signs as [|s signs IH]; intros m0 E; [constructor|]. simpl in E.
  destruct (Signature.VerifySignWithValidate h s) as [[a v]|[]] eqn:Ev; try discriminate E;
    constructor; try (by rewrite Ev); by eapply IH.
Qed.

(** Each entry is a vote of a validator with its stock; an account votes
    "agree" in the map exactly when one of its votes agrees. *)
Definition votes_in (stocks : gmap Address Z) (m : gmap Address VerifiedSign) : Prop :=
  map_Forall (fun a vs => vs_Account vs = a /\ stocks !! a = Some (vs_Stock vs)) m.

Definition records (stocks : gmap Address Z) (votes : list vote)
    (m : gmap Address VerifiedSign) : Prop :=
  votes_in stocks m /\
  (forall a vs, m !! a = Some vs -> (vs_Sign vs, a, vs_Validate vs) ∈ votes) /\
  (forall s a v, (s, a, v) ∈ votes -> is_Some (stocks !! a) -> is_Some (m !! a)) /\
  (forall s a vs, (s, a, true) ∈ votes -> m !! a = Some vs -> vs_Validate vs = true).

Lemma record_sign_records stocks votes m s a v :
  records stocks votes m -> records stocks (votes ++ [(s, a, v)]) (record_sign stocks s a v m).
Proof.
  intros (Hin & Hsrc & Hall & Hag). unfold record_sign.
  destruct (stocks !! a) as [st|] eqn:Est; [destruct (m !! a) as [old|] eqn:Em|].
  - destruct (negb (vs_Validate old) && v) eqn:Eb.
    + apply andb_true_iff in Eb as [_ ->]. split_and!.
      * apply map_Forall_insert_2; [by rewrite Est|done].
      * intros a' vs [[<- <-]|[? Hl]]%lookup_insert_Some; simpl; set_solver.
      * intros s' a' v' [Hv|[= -> -> ->]%list_elem_of_singleton]%elem_of_app Hs.
        -- apply lookup_insert_is_Some'. right. by eapply Hall.
        -- by rewrite lookup_insert_eq.
      * intros s' a' vs Hv [[<- <-]|[? Hl]]%lookup_insert_Some; [done|].
        apply elem_of_app in Hv as [Hv|[= -> ->]%list_elem_of_singleton]; [by eapply Hag|done].
    + split_and!; [done|set_solver| |].
      * intros s' a' v' [Hv|[= -> -> ->]%list_elem_of_singleton]%elem_of_app Hs;
          [by eapply Hall|by rewrite Em].
      * intros s' a' vs [Hv|[= -> -> <-]%list_elem_of_singleton]%elem_of_app Hl; [by eapply Hag|].
        rewrite Em in Hl. simplify_eq. by destruct (vs_Validate vs).
  - split_and!.
    + apply map_Forall_insert_2; [by rewrite Est|done].
    + intros a' vs [[<- <-]|[? Hl]]%lookup_insert_Some; simpl; set_solver.
    + intros s' a' v' [Hv|[= -> -> ->]%list_elem_of_singleton]%elem_of_app Hs.
      * apply lookup_insert_is_Some'. right. by eapply Hall.
      * by rewrite lookup_insert_eq.
    + intros s' a' vs Hv [[<- <-]|[? Hl]]%lookup_insert_Some;
        apply elem_of_app in Hv as [Hv|[= -> ->]%list_elem_of_singleton]; try done.
      * exfalso. destruct (Hall _ _ _ Hv) as [? Hx]; [by rewrite Est|]. by rewrite Em in Hx.
      * by eapply Hag.
  - split_and!; [done|set_solver| |].
    + intros s' a' v' [Hv|[= -> -> ->]%list_elem_of_singleton]%elem_of_app Hs;
        [by eapply Hall|]. rewrite Est in Hs. by destruct Hs.
    + intros s' a' vs [Hv|[= -> -> <-]%list_elem_of_singleton]%elem_of_app Hl; [by eapply Hag|].
      destruct (Hin _ _ Hl) as [_ Hst]. by rewrite Est in Hst.
Qed.

Lemma record_votes_records stocks votes :
  records stocks votes (record_votes stocks votes ∅).
Proof.
  induction votes as [|[[s a] v] votes IH] using rev_ind.
  - unfold records. split_and!; [by apply map_Forall_empty|set_solver..].
  - unfold record_votes. rewrite foldl_app. simpl. by apply record_sign_records.
Qed.

(** ** Counting *)

Definition agrees (vs : VerifiedSign) : Prop := vs_Validate vs = true.
Definition agree_list (l : list VerifiedSign) := filter agrees l.
Definition disagree_list (l : list VerifiedSign) := filter (fun vs => ~ agrees vs) l.
Definition stock_sum (l : list VerifiedSign) : Z := zsum (map vs_Stock l).

Lemma stock_sum_nonneg l : Forall (fun vs => 0 <= vs_Stock vs) l -> 0 <= stock_sum l.
Proof. intros Hl. apply zsum_nonneg, Forall_map. exact Hl. Qed.

Lemma agree_list_cons vs l :
  agree_list (vs :: l) = if vs_Validate vs then vs :: agree_list l else agree_list l.
Proof.
  unfold agree_list, agrees. rewrite filter_cons. by destruct (vs_Validate vs).
Qed.

Lemma disagree_list_cons vs l :
  disagree_list (vs :: l) = if vs_Validate vs then disagree_list l else vs :: disagree_list l.
Proof.
  unfold disagree_list, agrees. rewrite filter_cons. by destruct (vs_Validate vs).
Qed.

Lemma stock_sum_cons vs l : stock_sum (vs :: l) = vs_Stock vs + stock_sum l.
Proof. done. Qed.

(** The result of the counting loop, when it either tolerates no
    disagreement or has stock to spare for all of it. *)
Lemma verify_loop_spec target l ac dc ags ds rs :
  Forall (fun vs => 0 <= vs_Stock vs) l -> 0 <= ags -> 0 <= ds ->
  ags + stock_sum l < 2 ^ 64 -> ds + stock_sum l < 2 ^ 64 -> dc <= maxDisagreeCount target ->
  dc = maxDisagreeCount target \/
    ds + stock_sum (disagree_list l) <= maxDisagreeStock target ->
  verify_loop target l ac dc ags ds rs
  = if maxDisagreeCount target <? dc + Z.of_nat (length (disagree_list l))
    then Err errDisagreeCountErr
    else if ac + Z.of_nat (length (agree_list l)) <? targetCount target then Err errSignCountErr
    else if ags + stock_sum (agree_list l) <? targetStock target then Err errSignStockErr
    else Ok (rs ++ map vs_Sign (agree_list l)).
Proof.
  intros Hl. revert ac dc ags ds rs.
  induction Hl as [|vs l Hvs Hl IH]; intros ac dc ags ds rs Ha Hd Hab Hdb Hdc Hmax.
  - simpl. rewrite !Z.add_0_r, app_nil_r.
    by replace (maxDisagreeCount target <? dc) with false by lia.
  - pose proof (stock_sum_nonneg l Hl). rewrite agree_list_cons, disagree_list_cons in *.
    rewrite stock_sum_cons in Hab, Hdb. cbn [verify_loop]. destruct (vs_Validate vs).
    + rewrite u64_small by (unfold in_u64; lia). rewrite IH by (done || lia).
      cbn [length map]. rewrite stock_sum_cons, Nat2Z.inj_succ, <- Z.add_1_l, !Z.add_assoc.
      by rewrite <- app_assoc.
    + rewrite u64_small by (unfold in_u64; lia). cbn [length].
      rewrite Nat2Z.inj_succ, <- Z.add_1_l, !Z.add_assoc.
      destruct (Z.ltb_spec (maxDisagreeCount target) (dc + 1)).
      * rewrite (proj2 (Z.ltb_lt _ (_ + 1 + _))) by lia. done.
      * destruct Hmax as [Hmax|Hmax]; [lia|]. rewrite stock_sum_cons in Hmax.
        assert (0 <= stock_sum (disagree_list l)).
        { apply stock_sum_nonneg. unfold disagree_list. by apply Forall_filter. }
        rewrite (proj2 (Z.ltb_ge (maxDisagreeStock target) _)) by lia.
        rewrite IH by (lia || done). done.
Qed.

Lemma stock_sum_split l :
  stock_sum (agree_list l) + stock_sum (disagree_list l) = stock_sum l.
Proof.
  induction l as [|vs l IH]; [done|]. rewrite agree_list_cons, disagree_list_cons.
  destruct (vs_Validate vs); rewrite !stock_sum_cons; lia.
Qed.

Lemma count_split l :
  (length (agree_list l) + length (disagree_list l) = length l)%nat.
Proof. apply filter_partition_length. Qed.

Section votes.
Context (stocks : gmap Address Z) (m : gmap Address VerifiedSign).
Hypothesis (Hok : stocks_ok stocks) (Hin : votes_in stocks m).

Lemma votes_submap : (vs_Stock <$> m) ⊆ stocks.
Proof.
  apply map_subseteq_spec. intros a s (vs & <- & Hl)%lookup_fmap_Some. by apply (Hin a vs Hl).
Qed.

Lemma votes_stocks_perm :
  map vs_Stock (range_values m) ≡ₚ (map_to_list (vs_Stock <$> m)).*2.
Proof.
  unfold range_values. rewrite range_perm, map_to_list_fmap.
  rewrite <- list_fmap_compose. change (map vs_Stock) with (fmap (M:=list) vs_Stock).
  by rewrite <- list_fmap_compose.
Qed.

Lemma votes_stock_sum : stock_sum (range_values m) <= total_stock stocks.
Proof.
  unfold stock_sum, total_stock. rewrite votes_stocks_perm.
  apply zsum_submseteq; [by apply stocks_nonneg|].
  apply fmap_submseteq, map_to_list_submseteq, votes_submap.
Qed.

Lemma votes_nonneg : Forall (fun vs => 0 <= vs_Stock vs) (range_values m).
Proof.
  apply Forall_forall. intros vs [a Ha]%range_values_elem_of.
  destruct (Hin a vs Ha) as [_ Hs]. destruct Hok as [Hst _].
  specialize (Hst a _ Hs). unfold in_u16 in Hst. simpl in Hst. lia.
Qed.

Lemma votes_size : (size m <= size stocks)%nat.
Proof. rewrite <- (map_size_fmap vs_Stock m). apply map_subseteq_size, votes_submap. Qed.

(** If every validator voted, all the stock is counted. *)
Lemma votes_full : size m = size stocks -> stock_sum (range_values m) = total_stock stocks.
Proof.
  intros Hs. unfold stock_sum, total_stock. rewrite votes_stocks_perm.
  replace (vs_Stock <$> m) with stocks; [done|]. symmetry.
  apply map_subseteq_size_eq; [apply votes_submap|]. rewrite map_size_fmap. lia.
Qed.

Lemma verifyDPOS_result target :
  calculateDPOSTarget stocks = Ok target ->
  let n := Z.of_nat (size stocks) in
  let l := range_values m in
  verifyDPOS m target
  = if n - required n <? Z.of_nat (length (disagree_list l)) then Err errDisagreeCountErr
    else if Z.of_nat (length (agree_list l)) <? required n then Err errSignCountErr
    else Ok (map vs_Sign (agree_list l)).
Proof.
  intros Ht n l. rewrite calculateDPOSTarget_spec in Ht by done. fold n in Ht.
  destruct (Z.ltb_spec n 3) as [|Hn]; [done|]. injection Ht as <-.
  assert (Hn4 : n <= 4096) by (destruct Hok; lia).
  destruct (required_bounds n ltac:(lia)) as [Hr1 Hr2].
  pose proof (total_stock_bound stocks Hok) as Htb. pose proof votes_stock_sum as Hvs.
  pose proof (stock_sum_split l) as Hsp. pose proof (count_split l) as Hcs.
  pose proof votes_nonneg as Hnn.
  assert (0 <= stock_sum (agree_list l)) by (by apply stock_sum_nonneg, Forall_filter).
  assert (0 <= stock_sum (disagree_list l)) by (by apply stock_sum_nonneg, Forall_filter).
  assert (Hlen : length l = size m) by apply length_range_values.
  unfold verifyDPOS. fold l. fold l in Hvs, Hnn.
  rewrite verify_loop_spec; cbn [maxDisagreeCount maxDisagreeStock targetCount targetStock].
  2-7: (done || lia).
  - rewrite !Z.add_0_l, app_nil_l.
    destruct (Z.ltb_spec (n - required n) (Z.of_nat (length (disagree_list l)))); [done|].
    destruct (Z.ltb_spec (Z.of_nat (length (agree_list l))) (required n)) as [|Hag]; [done|].
    destruct (Z.leb_spec n 7) as [H7|H7]; [|by rewrite (proj2 (Z.ltb_ge _ _)) by lia].
    assert (required n = n) as Hrn by (unfold required, DPOSFullSignThreshold; by rewrite (proj2 (Z.leb_le n 7))).
    pose proof votes_size. rewrite Hrn in *. rewrite (proj2 (Z.ltb_ge _ _)); [done|].
    rewrite <- votes_full by lia. fold l.
    assert (Hd : disagree_list l = []) by (apply nil_length_inv; lia).
    rewrite Hd in Hsp. change (stock_sum []) with 0 in Hsp. lia.
  - unfold required, DPOSFullSignThreshold in *.
    destruct (Z.leb_spec n 7); [left; lia|right; lia].
Qed.
End votes.

(** ** The validators that agree *)

Definition agreeing_votes (stocks : gmap Address Z) (votes : list vote) : gset Address :=
  list_to_set (omap (fun '(s, a, v) =>
    if (v : bool) && bool_decide (is_Some (stocks !! a)) then Some a else None) votes).

Definition agreeing (h : Hash) (signs : list Signature) (stocks : gmap Address Z)
    : gset Address := agreeing_votes stocks (sign_votes h signs).

Lemma elem_of_agreeing_votes stocks votes a :
  a ∈ agreeing_votes stocks votes <->
  is_Some (stocks !! a) /\ exists s, (s, a, true) ∈ votes.
Proof.
  unfold agreeing_votes. rewrite elem_of_list_to_set, list_elem_of_omap. split.
  - intros ([[s a'] v] & Hv & E). case_match eqn:Eb; simplify_eq.
    apply andb_true_iff in Eb as [-> Hb%bool_decide_eq_true]. eauto.
  - intros (Hs & s & Hv). exists (s, a, true). split; [done|].
    simpl. by rewrite bool_decide_eq_true_2.
Qed.

Lemma elem_of_sign_votes h signs s a v :
  (s, a, v) ∈ sign_votes h signs <->
  s ∈ signs /\ Signature.VerifySignWithValidate h s = Ok (a, v).
Proof.
  unfold sign_votes. rewrite list_elem_of_omap. split.
  - intros (s' & Hs & E). repeat case_match; by simplify_eq.
  - intros (Hs & E). exists s. by rewrite E.
Qed.

Lemma elem_of_agreeing h signs stocks a :
  a ∈ agreeing h signs stocks <->
  is_Some (stocks !! a) /\
  exists s, s ∈ signs /\ Signature.VerifySignWithValidate h s = Ok (a, true).
Proof.
  unfold agreeing. rewrite elem_of_agreeing_votes.
  setoid_rewrite elem_of_sign_votes. done.
Qed.

Lemma agreeing_size_stocks stocks votes : (size (agreeing_votes stocks votes) <= size stocks)%nat.
Proof.
  rewrite <- size_dom. apply subseteq_size. intros a [Ha _]%elem_of_agreeing_votes.
  by apply elem_of_dom.
Qed.

Lemma agreeing_size_votes stocks votes : (size (agreeing_votes stocks votes) <= length votes)%nat.
Proof.
  unfold agreeing_votes. etrans; [apply size_list_to_set_le|]. apply length_omap_le.
Qed.

Lemma agree_pairs (m : gmap Address VerifiedSign) :
  agree_list (range_values m) = (filter (fun kv => agrees kv.2) (range m)).*2.
Proof. apply filter_fmap. Qed.

(** The accounts counted as agreeing are exactly the agreeing validators. *)
Lemma agree_count stocks votes m :
  records stocks votes m ->
  length (agree_list (range_values m)) = size (agreeing_votes stocks votes).
Proof.
  intros (Hin & Hsrc & Hall & Hag). rewrite agree_pairs, length_fmap, <- (length_fmap fst).
  set (ks := (filter _ (range m)).*1).
  assert (Hnd : NoDup ks).
  { eapply sublist_NoDup; [apply (range_NoDup_fst m)|]. apply fmap_sublist, sublist_filter. }
  rewrite <- (size_list_to_set (C:=gset Address) ks Hnd). f_equal.
  apply set_eq. intros a. rewrite elem_of_list_to_set, elem_of_agreeing_votes.
  unfold ks. rewrite list_elem_of_fmap. split.
  - intros ([a' vs] & -> & [Hagr Hr%range_elem_of]%list_elem_of_filter). simpl in *.
    destruct (Hin a' vs Hr) as [_ Hs]. split; [by rewrite Hs|].
    exists (vs_Sign vs). unfold agrees in Hagr. rewrite <- Hagr. by apply Hsrc.
  - intros (Hs & s & Hv). destruct (Hall _ _ _ Hv Hs) as [vs Hm].
    exists (a, vs). split; [done|]. apply list_elem_of_filter. split.
    + by apply (Hag s a vs).
    + by apply range_elem_of.
Qed.

(** The outcome of counting the votes of a list, whichever way they were
    collected. *)
Definition dpos_result (stocks : gmap Address Z) (votes : list vote) (signCount : nat)
    : res error (list Signature) :=
  let n := Z.of_nat (size stocks) in
  let m := record_votes stocks votes ∅ in
  if n <? 3 then Err errStockCountErr
  else if Z.of_nat signCount <? required n then Err errSignCountErr
  else if Z.of_nat (size m) <? required n then Err errSignCountErr
  else if n - required n <? Z.of_nat (length (disagree_list (range_values m)))
  then Err errDisagreeCountErr
  else if Z.of_nat (size (agreeing_votes stocks votes)) <? required n then Err errSignCountErr
  else Ok (map vs_Sign (agree_list (range_values m))).

Lemma count_votes_result stocks votes k :
  stocks_ok stocks ->
  (let? target := calculateDPOSTarget stocks in
   if Z.of_nat k <? targetCount target then Err errSignCountErr
   else if Z.of_nat (size (record_votes stocks votes ∅)) <? targetCount target
   then Err errSignCountErr
   else verifyDPOS (record_votes stocks votes ∅) target)
  = dpos_result stocks votes k.
Proof.
  intros Hok. pose proof (record_votes_records stocks votes) as Hrec.
  destruct (calculateDPOSTarget stocks) as [target|] eqn:Ht.
  - rewrite (verifyDPOS_result stocks) by (done || apply Hrec).
    rewrite (agree_count stocks votes) by done. unfold dpos_result.
    rewrite calculateDPOSTarget_spec in Ht by done.
    destruct (Z.of_nat (size stocks) <? 3); by simplify_eq/=.
  - rewrite calculateDPOSTarget_spec in Ht by done. unfold dpos_result.
    destruct (Z.of_nat (size stocks) <? 3); by simplify_eq/=.
Qed.

Lemma VerifyHashWithStocks_result h signs stocks :
  stocks_ok stocks -> no_panic h signs ->
  VerifyHashWithStocks h signs stocks = dpos_result stocks (sign_votes h signs) (length signs).
Proof.
  intros Hok Hp. rewrite <- count_votes_result by done.
  unfold VerifyHashWithStocks. by rewrite verifySigns_votes.
Qed.

Lemma dpos_result_ok stocks votes k :
  stocks_ok stocks -> (length votes <= k)%nat ->
  is_ok (dpos_result stocks votes k) = true <->
  3 <= Z.of_nat (size stocks) /\
  required (Z.of_nat (size stocks)) <= Z.of_nat (size (agreeing_votes stocks votes)).
Proof.
  intros Hok Hk. pose proof (record_votes_records stocks votes) as Hrec.
  pose proof (agree_count _ _ _ Hrec) as Hag.
  set (m := record_votes stocks votes ∅) in *.
  pose proof (count_split (range_values m)) as Hcs.
  pose proof (length_range_values m) as Hlen.
  pose proof (votes_size stocks m (proj1 Hrec)).
  pose proof (agreeing_size_votes stocks votes).
  unfold dpos_result. fold m.
  destruct (Z.ltb_spec (Z.of_nat (size stocks)) 3) as [|Hn]; [simpl; split; [done|lia]|].
  destruct (required_bounds (Z.of_nat (size stocks))) as [_ Hr]; [destruct Hok; lia|].
  split.
  - intros Hr'. split; [done|]. repeat (case_match; [done|]). bool_to_prop. lia.
  - intros [_ Hq]. decide_cmp. done.
Qed.

(** What the returned signatures are. *)
Lemma dpos_result_signs stocks votes k rs :
  stocks_ok stocks -> dpos_result stocks votes k = Ok rs ->
  length rs = size (agreeing_votes stocks votes) /\
  forall s, s ∈ rs -> exists a, (s, a, true) ∈ votes /\ is_Some (stocks !! a).
Proof.
  intros Hok E. pose proof (record_votes_records stocks votes) as Hrec.
  unfold dpos_result in E. repeat (case_match; [done|]). injection E as <-.
  rewrite length_map, (agree_count stocks votes) by done. split; [done|].
  intros s (vs & -> & [Hv [a Ha]%range_values_elem_of]%list_elem_of_filter)%list_elem_of_fmap.
  destruct Hrec as (Hin & Hsrc & _). exists a. unfold agrees in Hv. rewrite <- Hv.
  split; [by apply Hsrc|]. destruct (Hin a vs Ha) as [_ ->]. done.
Qed.

(** Every agreeing validator is represented in the returned signatures. *)
Lemma dpos_result_cover stocks votes k rs a :
  dpos_result stocks votes k = Ok rs -> a ∈ agreeing_votes stocks votes ->
  exists s, s ∈ rs /\ (s, a, true) ∈ votes.
Proof.
  intros E [Hs [s Hv]]%elem_of_agreeing_votes.
  destruct (record_votes_records stocks votes) as (Hin & Hsrc & Hall & Hag).
  destruct (Hall _ _ _ Hv Hs) as [vs Hm]. pose proof (Hag _ _ _ Hv Hm) as Hvs.
  unfold dpos_result in E. repeat (case_match; [done|]). injection E as <-.
  exists (vs_Sign vs). split; [|rewrite <- Hvs; by apply Hsrc].
  apply list_elem_of_fmap. exists vs. split; [done|].
  apply list_elem_of_filter. split; [done|]. apply range_values_elem_of. eauto.
Qed.

Lemma sign_votes_length h signs : (length (sign_votes h signs) <= length signs)%nat.
Proof. apply length_omap_le. Qed.

Lemma VerifyHashWithStocks_no_panic h signs stocks rs :
  VerifyHashWithStocks h signs stocks = Ok rs -> no_panic h signs.
Proof.
  unfold VerifyHashWithStocks. intros E. repeat (case_match; try done).
  by eapply verifySigns_ok_no_panic.
Qed.

Lemma VerifyHashWithStocks_quorum h signs stocks rs :
  stocks_ok stocks -> VerifyHashWithStocks h signs stocks = Ok rs ->
  3 <= Z.of_nat (size stocks) /\
  required (Z.of_nat (size stocks)) <= Z.of_nat (size (agreeing h signs stocks)).
Proof.
  intros Hok E. pose proof (VerifyHashWithStocks_no_panic _ _ _ _ E) as Hp.
  rewrite VerifyHashWithStocks_result in E by done.
  apply (dpos_result_ok stocks _ (length signs)); [done|apply sign_votes_length|].
  by rewrite E.
Qed.

(** ** Validators of a graph *)

Definition validators (g : TopologyGraph) : gset Address := dom (graph2ValidatorStocks g).

(** Positions are 16-bit and pairwise distinct, stocks are 16-bit. *)
Definition graph_fits (g : TopologyGraph) : Prop :=
  Topology.graph_ok g /\ NoDup (Topology.positions g) /\
  Forall (fun n => in_u16 (tn_Position n) /\ in_u16 (tn_Stock n)) (tg_NodeList g).

Lemma validator_position p :
  in_u16 p -> GetRoleTypeFromPosition p = RoleValidator -> 8192 <= p < 12288.
Proof.
  unfold in_u16, GetRoleTypeFromPosition, Transfer2CommonRole, u8. intros Hp.
  rewrite Z.shiftr_div_pow2 by lia.
  assert (0 <= p / 2 ^ 12 < 16) by (Z.div_mod_to_equations; lia).
  rewrite Z.mod_small by lia.
  unfold ElectRoleMiner, ElectRoleMinerBackUp, ElectRoleValidator, ElectRoleValidatorBackUp.
  destruct (Z.eqb_spec (p / 2 ^ 12) 2) as [E|E].
  - intros _. Z.div_mod_to_equations. lia.
  - repeat case_match; intros [=].
Qed.

Definition is_validator (n : TopologyNodeInfo) : Prop := tn_Type n = RoleValidator.

Lemma graph2ValidatorStocks_lookup nodes a s (acc : gmap Address Z) :
  foldl (fun stocks node =>
           if negb (tn_Type node =? RoleValidator) then stocks
           else match stocks !! tn_Account node with
                | Some _ => stocks
                | None => <[tn_Account node := tn_Stock node]> stocks
                end) acc nodes !! a = Some s ->
  acc !! a = Some s \/ exists n, n ∈ nodes /\ is_validator n /\ tn_Account n = a /\ tn_Stock n = s.
Proof.
  revert acc. induction nodes as [|n nodes IH]; intros acc; simpl; [auto|].
  intros [Hacc|(n' & Hn & Hv)]%IH; [|right; exists n'; split; [by right|done]].
  destruct (Z.eqb_spec (tn_Type n) RoleValidator) as [Ev|]; simpl in Hacc; [|auto].
  destruct (acc !! tn_Account n); [auto|].
  apply lookup_insert_Some in Hacc as [[<- <-]|[_ ?]]; [|auto].
  right. exists n. split; [by left|done].
Qed.

Lemma validators_size g : graph_fits g -> (size (validators g) <= 4096)%nat.
Proof.
  intros ((_ & Hok) & Hnd & Hfit). rewrite !Forall_forall in *.
  set (vs := filter is_validator (tg_NodeList g)).
  assert (Hsub : validators g ⊆ list_to_set (tn_Account <$> vs)).
  { unfold validators. intros a [s Hs]%elem_of_dom. unfold graph2ValidatorStocks in Hs.
    apply graph2ValidatorStocks_lookup in Hs as [Hs|(n & Hn & Hv & Ha & _)];
      [by rewrite lookup_empty in Hs|].
    apply elem_of_list_to_set, list_elem_of_fmap. exists n. split; [done|].
    by apply list_elem_of_filter. }
  apply subseteq_size in Hsub. etrans; [exact Hsub|].
  etrans; [apply size_list_to_set_le|]. rewrite length_fmap, <- (length_fmap tn_Position).
  replace 4096%nat with (length (seqZ 8192 4096)) by (by rewrite length_seqZ).
  apply submseteq_length, NoDup_submseteq.
  - eapply sublist_NoDup; [exact Hnd|]. apply fmap_sublist, sublist_filter.
  - intros p (n & -> & [Hv Hn]%list_elem_of_filter)%list_elem_of_fmap.
    apply elem_of_seqZ. destruct (Hfit n Hn) as [Hp _]. destruct (Hok n Hn) as [_ Ht].
    unfold is_validator in Hv. rewrite Ht in Hv. apply validator_position in Hv; [lia|done].
Qed.

Lemma graph_stocks_ok g : graph_fits g -> stocks_ok (graph2ValidatorStocks g).
Proof.
  intros Hg. split.
  - intros a s Hs. destruct Hg as (_ & _ & Hfit). rewrite Forall_forall in Hfit.
    apply graph2ValidatorStocks_lookup in Hs as [Hs|(n & Hn & _ & _ & <-)];
      [by rewrite lookup_empty in Hs|]. by apply Hfit.
  - rewrite <- size_dom. by apply validators_size.
Qed.

(** Acceptance depends on the validators only, not on their stocks. *)
Lemma agreeing_dom h signs s1 s2 :
  dom s1 = dom s2 -> agreeing h signs s1 = agreeing h signs s2.
Proof.
  intros Hd. apply set_eq. intros a. rewrite !elem_of_agreeing, <- !elem_of_dom. by rewrite Hd.
Qed.

Lemma VerifyHashWithStocks_dom h signs s1 s2 :
  stocks_ok s1 -> stocks_ok s2 -> dom s1 = dom s2 ->
  is_ok (VerifyHashWithStocks h signs s1) = true -> is_ok (VerifyHashWithStocks h signs s2) = true.
Proof.
  intros H1 H2 Hd Hr. destruct (VerifyHashWithStocks h signs s1) as [rs|] eqn:E; [|done].
  pose proof (VerifyHashWithStocks_no_panic _ _ _ _ E) as Hp.
  pose proof (VerifyHashWithStocks_quorum _ _ _ _ H1 E) as [H3 Hq].
  rewrite VerifyHashWithStocks_result by done. apply dpos_result_ok; [done|apply sign_votes_length|].
  fold (agreeing h signs s2). rewrite <- (agreeing_dom h signs s1 s2) by done.
  rewrite <- !size_dom, <- Hd, size_dom. done.
Qed.

(** ** Properties *)

Lemma verifySigns_err h signs stocks e :
  verifySigns h signs stocks = Err e -> e = errSignature Signature.ErrPanic.
Proof.
  unfold verifySigns. generalize (∅ : gmap Address VerifiedSign).
  induction signs as [|s signs IH]; intros m E; simpl in E; [done|].
  destruct (Signature.VerifySignWithValidate h s) as [[a v]|[]]; first [by eapply IH|congruence].
Qed.

Lemma VerifyHashWithStocks_panic h signs stocks :
  stocks_ok stocks ->
  VerifyHashWithStocks h signs stocks = Err (errSignature Signature.ErrPanic) <->
  3 <= Z.of_nat (size stocks) /\ required (Z.of_nat (size stocks)) <= Z.of_nat (length signs) /\ ~ no_panic h signs.
Proof.
  intros Hok. split.
  - intros E. assert (~ no_panic h signs) as Hp.
    { intros Hp. rewrite VerifyHashWithStocks_result in E by done. unfold dpos_result in E. by repeat case_match. }
    unfold VerifyHashWithStocks in E. rewrite calculateDPOSTarget_spec in E by done.
    destruct (Z.ltb_spec (Z.of_nat (size stocks)) 3); [done|]. cbn in E.
    destruct (Z.ltb_spec (Z.of_nat (length signs)) (required (Z.of_nat (size stocks)))); done.
  - intros (Hn & Hl & Hp). unfold VerifyHashWithStocks. rewrite calculateDPOSTarget_spec by done.
    rewrite (proj2 (Z.ltb_ge (Z.of_nat (size stocks)) 3)) by done. cbn.
    rewrite (proj2 (Z.ltb_ge (Z.of_nat (length signs)) _)) by done.
    destruct (verifySigns h signs stocks) as [m|e] eqn:E; [by apply verifySigns_ok_no_panic in E|].
    by apply verifySigns_err in E as ->.
Qed.

(** C9: For at most 4096 validators with 16-bit stocks, [VerifyHashWithStocks]
    accepts exactly when there are at least three validators, the number of
    distinct validators with an agreeing signature reaches the target (all of
    them up to seven, two thirds rounded up above), and no signature makes the
    recovery panic; among signatures that do not, duplicate, foreign, malformed
    and disagreeing ones never change that.  It panics exactly when there are
    three validators, as many signatures as the target, and one of them is a
    disagreeing signature on which the recovery panics. *)
Theorem VerifyHashWithStocks_iff h signs stocks :
  stocks_ok stocks ->
  (is_ok (VerifyHashWithStocks h signs stocks) = true <->
   3 <= Z.of_nat (size stocks) /\
   required (Z.of_nat (size stocks)) <= Z.of_nat (size (agreeing h signs stocks)) /\ no_panic h signs) /\
  (VerifyHashWithStocks h signs stocks = Err (errSignature Signature.ErrPanic) <->
   3 <= Z.of_nat (size stocks) /\ required (Z.of_nat (size stocks)) <= Z.of_nat (length signs) /\
   ~ no_panic h signs).
Proof.
  intros Hok. split; [|by apply VerifyHashWithStocks_panic]. split.
  - intros E. destruct (VerifyHashWithStocks h signs stocks) as [rs|] eqn:Ev; [|done].
    pose proof (VerifyHashWithStocks_no_panic _ _ _ _ Ev) as Hp. rewrite VerifyHashWithStocks_result in Ev by done.
    destruct (proj1 (dpos_result_ok stocks _ (length signs) Hok (sign_votes_length h signs))); [by rewrite Ev|done].
  - intros (Hn & Hr & Hp). rewrite VerifyHashWithStocks_result by done.
    by apply dpos_result_ok; [|apply sign_votes_length|].
Qed.

(** C8: Two accepted hashes share more than a third of the validators: the
    intersection of the two sets of agreeing validators has more than [n/3]
    members. *)
Theorem quorum_intersection h1 signs1 rs1 h2 signs2 rs2 stocks :
  stocks_ok stocks ->
  VerifyHashWithStocks h1 signs1 stocks = Ok rs1 ->
  VerifyHashWithStocks h2 signs2 stocks = Ok rs2 ->
  Z.of_nat (size stocks)
  < 3 * Z.of_nat (size (agreeing h1 signs1 stocks ∩ agreeing h2 signs2 stocks)).
Proof.
  intros Hok E1 E2.
  destruct (VerifyHashWithStocks_quorum _ _ _ _ Hok E1) as [Hn Hq1].
  destruct (VerifyHashWithStocks_quorum _ _ _ _ Hok E2) as [_ Hq2].
  destruct (required_bounds (Z.of_nat (size stocks))) as [Hr _]; [destruct Hok; lia|].
  set (A := agreeing h1 signs1 stocks) in *. set (B := agreeing h2 signs2 stocks) in *.
  assert (Hu : (size (A ∪ B) <= size stocks)%nat).
  { rewrite <- size_dom. apply subseteq_size. intros a Ha. apply elem_of_dom.
    apply elem_of_union in Ha as [Ha|Ha]; by apply elem_of_agreeing in Ha as [? _]. }
  rewrite size_union_alt in Hu.
  assert (Hd : size B = (size (B ∖ A) + size (A ∩ B))%nat).
  { rewrite <- size_union by set_solver. f_equal. apply set_eq. intros a.
    destruct (decide (a ∈ A)); set_solver. }
  lia.
Qed.

Lemma stocks_certificate h signs stocks rs :
  stocks_ok stocks -> VerifyHashWithStocks h signs stocks = Ok rs ->
  length rs = size (agreeing h signs stocks) /\
  (forall s, s ∈ rs -> s ∈ signs /\
     exists a, Signature.VerifySignWithValidate h s = Ok (a, true) /\ is_Some (stocks !! a)) /\
  agreeing h rs stocks = agreeing h signs stocks /\
  is_ok (VerifyHashWithStocks h rs stocks) = true.
Proof.
  intros Hok E. pose proof (VerifyHashWithStocks_no_panic _ _ _ _ E) as Hp.
  pose proof (VerifyHashWithStocks_quorum _ _ _ _ Hok E) as Hq.
  rewrite VerifyHashWithStocks_result in E by done.
  destruct (dpos_result_signs _ _ _ _ Hok E) as [Hlen Hsrc].
  setoid_rewrite elem_of_sign_votes in Hsrc.
  assert (Hagr : agreeing h rs stocks = agreeing h signs stocks).
  { apply set_eq. intros a. split.
    - rewrite !elem_of_agreeing. intros (Ha & s & Hs & Hv). split; [done|].
      destruct (Hsrc s Hs) as (a' & [? ?] & _). eauto.
    - intros Ha. destruct (dpos_result_cover _ _ _ _ _ E Ha) as (s & Hs & Hv).
      apply elem_of_sign_votes in Hv as [_ Hv]. apply elem_of_agreeing in Ha as [Ha _].
      apply elem_of_agreeing. eauto. }
  assert (Hp' : no_panic h rs).
  { apply Forall_forall. intros s Hs. by destruct (Hsrc s Hs) as (a & [_ ->] & _). }
  split_and!; [done| |done|].
  - intros s Hs. destruct (Hsrc s Hs) as (a & [? ?] & ?). eauto.
  - rewrite VerifyHashWithStocks_result by done.
    apply dpos_result_ok; [done|apply sign_votes_length|].
    fold (agreeing h rs stocks). by rewrite Hagr.
Qed.

(** The signatures returned by a successful verification form a
    certificate: there is one per agreeing validator, each is one of the input
    signatures and verifies as an agreement of a validator, and verifying them
    again alone succeeds with the same set of agreeing validators. *)
Theorem VerifyHashWithStocks_certificate h signs stocks rs :
  stocks_ok stocks -> VerifyHashWithStocks h signs stocks = Ok rs ->
  length rs = size (agreeing h signs stocks) /\
  (forall s, s ∈ rs -> s ∈ signs /\
     exists a, Signature.VerifySignWithValidate h s = Ok (a, true) /\ is_Some (stocks !! a)) /\
  agreeing h rs stocks = agreeing h signs stocks /\
  is_ok (VerifyHashWithStocks h rs stocks) = true.
Proof. apply stocks_certificate. Qed.

Lemma verified_signs_same reader h votes number :
  Forall (fun v => Signature.VerifySignWithValidate h (vs_Sign v)
                   = Ok (vs_Account v, vs_Validate v)) votes ->
  VerifyHashWithVerifiedSignsAndNumber reader votes number
  = VerifyHashWithNumber reader h (map vs_Sign votes) number.
Proof.
  intros Hv. unfold VerifyHashWithVerifiedSignsAndNumber, VerifyHashWithNumber.
  destruct (getValidatorStocks reader number) as [stocks|]; [|done].
  unfold VerifyHashWithStocks. rewrite length_map.
  assert (Hm : verifySigns h (map vs_Sign votes) stocks = Ok (parseVerifiedSigns votes stocks)).
  { unfold verifySigns, parseVerifiedSigns. generalize (∅ : gmap Address VerifiedSign).
    induction Hv as [|v votes Hv1 Hv IH]; intros m; simpl; [done|]. rewrite Hv1. apply IH. }
  by rewrite Hm.
Qed.

(** Counting pre-verified votes and verifying the signatures again are
    the same: if every vote carries the account and opinion its signature
    verifies to, both entry points return the same result, errors included. *)
Theorem verified_signs_equivalent reader h votes number :
  Forall (fun v => Signature.VerifySignWithValidate h (vs_Sign v)
                   = Ok (vs_Account v, vs_Validate v)) votes ->
  VerifyHashWithVerifiedSignsAndNumber reader votes number
  = VerifyHashWithNumber reader h (map vs_Sign votes) number.
Proof. apply verified_signs_same. Qed.

Section VerifyBlocks.
Variable BroadCastNodes : list Address.

(** The reader knows, for each header of a chain that starts above [g], a
    parent graph with the validators that the topology transitions give. *)
Fixpoint follows (reader : ValidatorReader) (g : TopologyGraph) (headers : list Header) : Prop :=
  match headers with
  | [] => True
  | header :: rest =>
      (exists g0, getValidatorGraph reader (Uint64 (Number header)) = Ok g0 /\
                  graph_fits g0 /\ validators g0 = validators g) /\
      graph_fits g /\
      forall g', Topology.Transfer2NextGraph g (Uint64 (Number header))
                   (hNetTopology header) [] = Ok g' -> follows reader g' rest
  end.

Lemma verify_next_VerifyBlock reader header g g' :
  (exists g0, getValidatorGraph reader (Uint64 (Number header)) = Ok g0 /\
              graph_fits g0 /\ validators g0 = validators g) ->
  graph_fits g -> verify_next BroadCastNodes header g = Ok g' ->
  VerifyBlock BroadCastNodes reader header = Ok tt /\
  Topology.Transfer2NextGraph g (Uint64 (Number header)) (hNetTopology header) [] = Ok g'.
Proof.
  intros (g0 & Hg0 & Hf0 & Hv) Hf. unfold verify_next, VerifyBlock.
  destruct (Broadcast.IsBroadcastNumber _).
  - destruct (verifyBroadcastBlock BroadCastNodes header) as [[]|]; [|done].
    case_match; [|done]. intros [= ->]. done.
  - destruct (VerifyHashWithStocks _ _ _) as [rs|] eqn:E; [|done].
    case_match; [|done]. intros [= ->]. split; [|done].
    unfold getValidatorStocks. rewrite Hg0.
    pose proof (VerifyHashWithStocks_dom (Types.HashNoSignsAndNonce header) (Signatures header)
      _ _ (graph_stocks_ok g Hf) (graph_stocks_ok g0 Hf0) (eq_sym Hv)) as Hd.
    rewrite E in Hd. specialize (Hd eq_refl).
    by destruct (VerifyHashWithStocks _ _ (graph2ValidatorStocks g0)).
Qed.

Lemma foldM_verify_next reader headers g g' :
  follows reader g headers -> foldM (verify_next BroadCastNodes) headers g = Ok g' ->
  Forall (fun header => VerifyBlock BroadCastNodes reader header = Ok tt) headers.
Proof.
  revert g. induction headers as [|header headers IH]; intros g Hfol E; [constructor|].
  destruct Hfol as (Hg & Hf & Hnext). simpl in E.
  destruct (verify_next BroadCastNodes header g) as [g1|] eqn:E1; [|done].
  destruct (verify_next_VerifyBlock _ _ _ _ Hg Hf E1) as [Hb Ht].
  constructor; [done|]. by apply (IH g1); [apply Hnext|].
Qed.

(** Batch verification is sound for single blocks: if [VerifyBlocks]
    accepts a chain and the reader knows the validators that the chain's
    topology changes produce, then every block of the chain passes
    [VerifyBlock] on its own. *)
Theorem VerifyBlocks_each reader header headers g :
  getValidatorGraph reader (Uint64 (Number header)) = Ok g ->
  follows reader g (header :: headers) ->
  VerifyBlocks BroadCastNodes reader (header :: headers) = Ok tt ->
  Forall (fun h => VerifyBlock BroadCastNodes reader h = Ok tt) (header :: headers).
Proof.
  intros Hg Hfol E. unfold VerifyBlocks in E. rewrite Hg in E.
  destruct (foldM _ _ g) as [g'|] eqn:Ef; [|done]. by eapply foldM_verify_next.
Qed.

(** What an accepted block carries. *)
Lemma VerifyBlock_accepted reader header :
  VerifyBlock BroadCastNodes reader header = Ok tt ->
  let hash := Types.HashNoSignsAndNonce header in
  if Broadcast.IsBroadcastNumber (Uint64 (Number header)) then
    exists sign from, Signatures header = [sign] /\ from ∈ BroadCastNodes /\
      Signature.VerifySignWithValidate hash sign = Ok (from, true)
  else
    exists g, getValidatorGraph reader (Uint64 (Number header)) = Ok g /\
      (graph_fits g ->
       required (Z.of_nat (size (validators g)))
       <= Z.of_nat (size (agreeing hash (Signatures header) (graph2ValidatorStocks g)))).
Proof.
  unfold VerifyBlock, verifyBroadcastBlock, getValidatorStocks.
  destruct (Broadcast.IsBroadcastNumber _).
  - destruct (Signatures header) as [|sign []]; try done.
    destruct (Signature.VerifySignWithValidate _ sign) as [[from result]|] eqn:Ev; [|done].
    destruct (isBroadcastRole BroadCastNodes from) eqn:Eb, result; try done. intros _.
    exists sign, from. split; [done|]. split; [|done].
    unfold isBroadcastRole in Eb. apply existsb_exists in Eb as (b & Hb & ->%bool_decide_eq_true).
    by apply list_elem_of_In.
  - destruct (getValidatorGraph _ _) as [g|]; [|done].
    destruct (VerifyHashWithStocks _ _ _) as [rs|] eqn:E; [|done]. intros _. exists g.
    split; [done|]. intros Hf. unfold validators. rewrite size_dom.
    by eapply VerifyHashWithStocks_quorum; [apply graph_stocks_ok|].
Qed.

End VerifyBlocks.
End Dpos.

(** The outcome does not depend on the iteration order of Go maps: under
    any two orders the verification fails with the same error or succeeds
    with the same signatures up to their order. *)
Theorem VerifyHashWithStocks_order_irrelevant `{Crypto} (R1 R2 : GoRange) h signs stocks :
  stocks_ok stocks -> no_panic h signs ->
  match @VerifyHashWithStocks R1 _ h signs stocks, @VerifyHashWithStocks R2 _ h signs stocks with
  | Ok a, Ok b => a ≡ₚ b
  | Err e, Err e' => e = e'
  | _, _ => False
  end.
Proof.
  intros Hok Hp. rewrite !(@VerifyHashWithStocks_result _ _ h) by done. unfold dpos_result.
  set (m := record_votes _ _ _).
  assert (Hr : @range_values R1 _ _ _ _ m ≡ₚ @range_values R2 _ _ _ _ m)
    by (unfold range_values; by rewrite !range_perm).
  assert (Hd : length (disagree_list (@range_values R1 _ _ _ _ m))
               = length (disagree_list (@range_values R2 _ _ _ _ m)))
    by (unfold disagree_list; by rewrite Hr).
  rewrite Hd. repeat (case_step; [done|]).
  apply Permutation_map. unfold agree_list. by rewrite Hr.
Qed.

(** ** Witnesses: three validators, the toy signature scheme *)

#[local] Instance toy : Crypto := Signature.toy_crypto.
#[local] Instance rng : GoRange := sorted_range.

Definition stocks3 : gmap Address Z := {[1%N := 5; 2%N := 6; 3%N := 7]}.
Definition signs3 : list Signature := [256; 512; 768; 512]%N.

Lemma stocks3_ok : stocks_ok stocks3.
Proof.
  split; [|vm_compute; lia]. intros a s Hs. unfold stocks3 in Hs.
  repeat (apply lookup_insert_Some in Hs as [[_ <-]|[_ Hs]]; [unfold in_u16; lia|]).
  apply lookup_singleton_Some in Hs as [_ <-]. unfold in_u16; lia.
Qed.

Lemma signs3_no_panic h : no_panic h signs3.
Proof. repeat constructor; discriminate. Qed.

Lemma VerifyHashWithStocks_iff_witness :
  is_ok (VerifyHashWithStocks 77%N signs3 stocks3) = true /\
  VerifyHashWithStocks 77%N [256; 512; 771]%N stocks3 = Err (errSignature Signature.ErrPanic).
Proof.
  split.
  - apply (VerifyHashWithStocks_iff 77%N signs3 stocks3 stocks3_ok).
    split; [vm_compute; discriminate|]. split; [vm_compute; discriminate|apply signs3_no_panic].
  - apply (VerifyHashWithStocks_iff 77%N [256; 512; 771]%N stocks3 stocks3_ok).
    split; [vm_compute; discriminate|]. split; [vm_compute; discriminate|].
    intros Hp. apply (proj1 (Forall_forall _ _) Hp 771%N); [by do 2 right; left|reflexivity].
Defined.

Lemma quorum_intersection_witness :
  Z.of_nat (size stocks3)
  < 3 * Z.of_nat (size (agreeing 77%N signs3 stocks3 ∩ agreeing 78%N signs3 stocks3)).
Proof.
  apply (quorum_intersection 77%N signs3 [512; 768; 256]%N 78%N signs3 [512; 768; 256]%N stocks3
    stocks3_ok); vm_compute; reflexivity.
Defined.

Lemma VerifyHashWithStocks_certificate_witness :
  is_ok (VerifyHashWithStocks 77%N [512; 768; 256]%N stocks3) = true.
Proof.
  apply (VerifyHashWithStocks_certificate 77%N signs3 stocks3 [512; 768; 256]%N stocks3_ok).
  vm_compute. reflexivity.
Defined.

Definition graph3 (number : Z) : TopologyGraph :=
  mkGraph number
    [mkNode 1 0x2000 RoleValidator 5 0; mkNode 2 0x2001 RoleValidator 6 1;
     mkNode 3 0x2002 RoleValidator 7 2] 2.

Definition reader3 : ValidatorReader :=
  mkReader 20 (fun _ => Some (graph3 20)).

Lemma verified_signs_equivalent_witness :
  VerifyHashWithVerifiedSignsAndNumber reader3
    [mkVerifiedSign 256 1 true 0; mkVerifiedSign 512 2 true 0] 21
  = VerifyHashWithNumber reader3 77%N [256; 512]%N 21.
Proof.
  apply (verified_signs_equivalent reader3 77%N
    [mkVerifiedSign 256 1 true 0; mkVerifiedSign 512 2 true 0] 21).
  repeat constructor.
Defined.

Lemma VerifyHashWithStocks_order_irrelevant_witness :
  match @VerifyHashWithStocks sorted_range toy 77%N signs3 stocks3,
        @VerifyHashWithStocks sorted_range toy 77%N signs3 stocks3 with
  | Ok a, Ok b => a ≡ₚ b
  | Err e, Err e' => e = e'
  | _, _ => False
  end.
Proof.
  exact (VerifyHashWithStocks_order_irrelevant sorted_range sorted_range 77%N signs3 stocks3
    stocks3_ok (signs3_no_panic 77%N)).
Defined.

(** Block [number] with an unchanged topology and the three signatures. *)
Definition block3 (number : Z) : Header :=
  mkHeader 1 2 3 4 5 6 7 8 9 number 11 12 13 [] (mkNetTopology 1 []) signs3 [1; 2] 0 0 [3].

Lemma graph3_fits number : graph_fits (graph3 number).
Proof.
  split_and!.
  - split; [simpl; lia|]. repeat (constructor; [split; [simpl; lia|reflexivity]|]). constructor.
  - apply (bool_decide_unpack _). vm_compute. done.
  - repeat (constructor; [unfold in_u16; simpl; lia|]). constructor.
Qed.

Lemma VerifyBlocks_each_witness :
  Forall (fun h => VerifyBlock [] reader3 h = Ok tt) [block3 21; block3 22].
Proof.
  apply (VerifyBlocks_each [] reader3 (block3 21) [block3 22] (graph3 20)).
  - reflexivity.
  - split; [|split; [apply graph3_fits|]].
    + exists (graph3 20). split; [reflexivity|]. split; [apply graph3_fits|reflexivity].
    + intros g' [= <-]. split; [|split; [apply (graph3_fits 21)|done]].
      exists (graph3 20). split; [reflexivity|]. split; [apply graph3_fits|reflexivity].
  - vm_compute. reflexivity.
Defined.

End Dpos.
