(* ===== verification/VotePool.v ===== *)
(** * Package [blkconsensus/votepool]: the pool of votes per account

    Models all of vote_pool.go.  Each operation runs under the pool's lock, so
    it is one step on the state; the reading of the clock (milliseconds) is an
    argument of [AddVote]. *)

From Stdlib Require Import Sorted.
From S2P Require Import Prelude Common Crypto Types.

Module VotePool.

Record voteInfo := mkVoteInfo {
  vi_time : Z;
  vi_sign : VerifiedSign;
  vi_fromAccount : Address;
  vi_signHash : Hash
}.

Record VotePool := mkPool {
  voteMap : gmap Address (gmap Hash voteInfo);
  timeIndex : list voteInfo;
  timeoutInterval : Z;
  AccountVoteCountLimit : Z;
  legalRole : Z
}.

Inductive error := ErrSign (e : Signature.error) | ErrFrom | ErrExist.

(** [man.VotePoolTimeout] and [man.VotePoolCountLimit]. *)
Definition VotePoolTimeout : Z := 55 * 1000.
Definition VotePoolCountLimit : Z := 5.

Definition NewVotePool (legalRole : Z) : VotePool :=
  mkPool ∅ [] VotePoolTimeout VotePoolCountLimit legalRole.

Definition set_voteMap (vp : VotePool) (m : gmap Address (gmap Hash voteInfo)) : VotePool :=
  mkPool m (timeIndex vp) (timeoutInterval vp) (AccountVoteCountLimit vp) (legalRole vp).
Definition set_timeIndex (vp : VotePool) (l : list voteInfo) : VotePool :=
  mkPool (voteMap vp) l (timeoutInterval vp) (AccountVoteCountLimit vp) (legalRole vp).

Section VotePool.
Context `{GoRange} `{Crypto}.

Definition addVoteToMap (vp : VotePool) (vote : voteInfo) : VotePool * option error :=
  let accountVoteMap := default ∅ (voteMap vp !! vi_fromAccount vote) in
  match accountVoteMap !! vi_signHash vote with
  | Some _ => (vp, Some ErrExist)
  | None =>
      (set_timeIndex
         (set_voteMap vp (<[vi_fromAccount vote :=
            <[vi_signHash vote := vote]> accountVoteMap]> (voteMap vp)))
         (timeIndex vp ++ [vote]), None)
  end.

(** The effect on the map of dropping one timed-out entry of the index. *)
Definition drop_vote (vote : voteInfo) (m : gmap Address (gmap Hash voteInfo))
    : gmap Address (gmap Hash voteInfo) :=
  match m !! vi_fromAccount vote with
  | None => m
  | Some accountVoteMap =>
      let after := delete (vi_signHash vote) accountVoteMap in
      if negb (Nat.eqb (size accountVoteMap) (size after)) && Nat.eqb (size after) 0
      then delete (vi_fromAccount vote) m
      else <[vi_fromAccount vote := after]> m
  end.

Fixpoint timeout_loop (deadLine : Z) (index : list voteInfo)
    (m : gmap Address (gmap Hash voteInfo))
    : gmap Address (gmap Hash voteInfo) * list voteInfo :=
  match index with
  | [] => (m, [])
  | vote :: index' =>
      if deadLine <=? vi_time vote then (m, index)
      else timeout_loop deadLine index' (drop_vote vote m)
  end.

Definition fixPoolByTimeout (vp : VotePool) (curTime : Z) : VotePool :=
  let deadLine := curTime - timeoutInterval vp in
  let '(m, index) := timeout_loop deadLine (timeIndex vp) (voteMap vp) in
  set_timeIndex (set_voteMap vp m) index.

(** The earliest vote, ties resolved by the iteration order. *)
Definition earliest (m : gmap Hash voteInfo) : option voteInfo :=
  foldl (fun (e : option voteInfo) value =>
           match e with
           | None => Some value
           | Some e' => if vi_time value <? vi_time e' then Some value else e
           end) None (range_values m).

(** Each iteration removes a vote; the size of the map is enough fuel. *)
Fixpoint count_loop (fuel : nat) (limit : Z) (m : gmap Hash voteInfo) : gmap Hash voteInfo :=
  if Z.of_nat (size m) <=? limit then m
  else match fuel with
       | O => m
       | S f => match earliest m with
                | None => m
                | Some e => count_loop f limit (delete (vi_signHash e) m)
                end
       end.

Definition fixPoolByCountLimit (vp : VotePool) (fromAccount : Address) : VotePool :=
  match voteMap vp !! fromAccount with
  | None => vp
  | Some accountVoteMap =>
      set_voteMap vp
        (<[fromAccount := count_loop (size accountVoteMap) (AccountVoteCountLimit vp)
                            accountVoteMap]> (voteMap vp))
  end.

(** [now] is the reading [time.Now().UnixNano() / 1000000]. *)
Definition AddVote (vp : VotePool) (now : Z) (signHash : Hash) (sign : Signature)
    (fromAccount : Address) (verifyFrom : bool) : VotePool * option error :=
  match Signature.VerifySignWithValidate signHash sign with
  | Err e => (vp, Some (ErrSign e))
  | Ok (signAccount, validate) =>
      if verifyFrom && negb (bool_decide (signAccount = fromAccount)) then (vp, Some ErrFrom)
      else
        let vote := mkVoteInfo now (mkVerifiedSign sign signAccount validate 0)
                      signAccount signHash in
        match addVoteToMap vp vote with
        | (vp, Some err) => (vp, Some err)
        | (vp, None) =>
            (fixPoolByCountLimit (fixPoolByTimeout vp now) signAccount, None)
        end
  end.

Definition GetVotes (vp : VotePool) (signHash : Hash) : list VerifiedSign :=
  accountVoteMap ← range_values (voteMap vp);
  '(key, value) ← range accountVoteMap;
  if bool_decide (signHash = key) then [vi_sign value] else [].

Definition DelVotes (vp : VotePool) (signHash : Hash) : VotePool :=
  if bool_decide (signHash = 0%N) then vp
  else
    set_voteMap vp
      (omap (fun accountVoteMap : gmap Hash voteInfo =>
               match accountVoteMap !! signHash with
               | None => Some accountVoteMap
               | Some _ => if Nat.eqb (size accountVoteMap) 1 then None
                           else Some (delete signHash accountVoteMap)
               end) (voteMap vp)).

Definition Clear (vp : VotePool) : VotePool := set_voteMap (set_timeIndex vp []) ∅.

(** ** Invariant *)

(** A stored vote is indexed by its signer and hash, was verified, and still
    has its entry in the time index. *)
Definition vote_ok (index : list voteInfo) (a : Address) (h : Hash) (v : voteInfo) : Prop :=
  vi_fromAccount v = a /\ vi_signHash v = h /\ v ∈ index /\ vs_Account (vi_sign v) = a /\
  Signature.VerifySignWithValidate h (vs_Sign (vi_sign v))
  = Ok (a, vs_Validate (vi_sign v)).

Definition submap_ok (index : list voteInfo) (limit : Z) (a : Address)
    (m : gmap Hash voteInfo) : Prop :=
  m <> ∅ /\ Z.of_nat (size m) <= limit /\ map_Forall (vote_ok index a) m.

(** Accounts may have different limits while a vote is being added. *)
Definition map_ok (index : list voteInfo) (limit : Address -> Z)
    (m : gmap Address (gmap Hash voteInfo)) : Prop :=
  map_Forall (fun a am => submap_ok index (limit a) a am) m.

Definition pool_ok (vp : VotePool) : Prop :=
  0 < AccountVoteCountLimit vp /\ 0 <= timeoutInterval vp /\
  map_ok (timeIndex vp) (fun _ => AccountVoteCountLimit vp) (voteMap vp).

Lemma vote_ok_index index index' a h v :
  (v ∈ index -> v ∈ index') -> vote_ok index a h v -> vote_ok index' a h v.
Proof. intros Hi (? & ? & ? & ? & ?). repeat split; auto. Qed.

(** Removing a vote other than by emptying its account. *)
Lemma submap_ok_delete index limit a h m :
  submap_ok index limit a m -> delete h m <> ∅ -> submap_ok index limit a (delete h m).
Proof.
  intros (Hne & Hsz & Hv) Hd. split_and!; [done| |].
  - pose proof (map_subseteq_size (delete h m) m (delete_subseteq _ _)). lia.
  - by apply map_Forall_delete.
Qed.

Lemma drop_vote_ok index limit vote m :
  map_ok (vote :: index) limit m -> map_ok index limit (drop_vote vote m).
Proof.
  intros Hm. unfold drop_vote.
  assert (Hne : forall a am, m !! a = Some am -> a <> vi_fromAccount vote ->
    submap_ok index (limit a) a am).
  { intros a am Hl Ha. destruct (Hm a am Hl) as (? & ? & Hv). split_and!; try done.
    intros h v Hh. apply (vote_ok_index (vote :: index)); [|by apply Hv].
    intros [->|?]%elem_of_cons; [|done]. by destruct (Hv h vote Hh) as [E _]. }
  destruct (m !! vi_fromAccount vote) as [am|] eqn:El.
  - destruct (Hm _ _ El) as (Hn & Hsz & Hv).
    assert (Hdel : map_Forall (vote_ok index (vi_fromAccount vote)) (delete (vi_signHash vote) am)).
    { intros h v [Hh1 Hh2]%lookup_delete_Some. apply (vote_ok_index (vote :: index)); [|by apply Hv].
      intros [->|?]%elem_of_cons; [|done]. by destruct (Hv h vote Hh2) as (_ & E & _). }
    pose proof (map_subseteq_size _ am (delete_subseteq am (vi_signHash vote))) as Hle.
    destruct (negb _ && _) eqn:Eb.
    + intros a am' [Ha Hl]%lookup_delete_Some. by apply Hne.
    + intros a am' [[<- <-]|[Ha Hl]]%lookup_insert_Some; [|by apply Hne].
      split_and!; [|lia|done]. intros He. rewrite He in Eb, Hle.
      rewrite map_size_empty in Eb.
      apply andb_false_iff in Eb as [Eb|Eb]; [|done].
      apply negb_false_iff, Nat.eqb_eq in Eb. by apply map_size_empty_inv in Eb.
  - intros a am Hl. apply Hne; [done|]. intros ->. by rewrite El in Hl.
Qed.

Lemma timeout_loop_ok deadLine index limit m m' index' :
  timeout_loop deadLine index m = (m', index') ->
  map_ok index limit m -> map_ok index' limit m'.
Proof.
  revert m. induction index as [|v index IH]; intros m E Hm; simpl in E; [by simplify_eq|].
  case_match; [by simplify_eq|]. by eapply IH, drop_vote_ok.
Qed.

(** What remains in the index is a suffix that starts with a vote in time. *)
Lemma timeout_loop_suffix deadLine index m m' index' :
  timeout_loop deadLine index m = (m', index') ->
  index' `suffix_of` index /\ forall v l, index' = v :: l -> deadLine <= vi_time v.
Proof.
  revert m. induction index as [|v index IH]; intros m E; simpl in E.
  - simplify_eq. split; [done|]. by intros.
  - destruct (Z.leb_spec deadLine (vi_time v)); simplify_eq.
    + split; [done|]. intros v' l [= <- <-]. done.
    + destruct (IH _ E) as [? ?]. split; [by apply suffix_cons_r|done].
Qed.

(** ** The count limit *)

Lemma earliest_fold l (e0 : option voteInfo) e :
  foldl (fun (e : option voteInfo) value =>
           match e with
           | None => Some value
           | Some e' => if vi_time value <? vi_time e' then Some value else e
           end) e0 l = Some e ->
  (e0 = Some e \/ e ∈ l) /\
  (forall v, e0 = Some v \/ v ∈ l -> vi_time e <= vi_time v).
Proof.
  revert e0. induction l as [|x l IH]; intros e0 E; simpl in E.
  - subst e0. split; [by left|]. intros v [[= ->]|Hv]; [done|]. by apply elem_of_nil in Hv.
  - apply IH in E as [Hs Hm]. destruct e0 as [e'|].
    + destruct (Z.ltb_spec (vi_time x) (vi_time e')); split.
      * destruct Hs as [[= ->]|?]; right; by constructor.
      * intros v [[= ->]|[->|Hv]%elem_of_cons]; [|by auto|by auto].
        specialize (Hm x (or_introl eq_refl)). lia.
      * destruct Hs as [?|?]; [by left|right; by constructor].
      * intros v [[= ->]|[->|Hv]%elem_of_cons]; [by auto| |by auto].
        specialize (Hm e' (or_introl eq_refl)). lia.
    + split.
      * destruct Hs as [[= ->]|?]; right; by constructor.
      * intros v [[=]|[->|Hv]%elem_of_cons]; auto.
Qed.

Lemma earliest_spec m e :
  earliest m = Some e ->
  (exists k, m !! k = Some e) /\ (forall k v, m !! k = Some v -> vi_time e <= vi_time v).
Proof.
  intros E. apply earliest_fold in E as [[[=]|Hin] Hmin]. split.
  - by apply range_values_elem_of.
  - intros k v Hk. apply Hmin. right. apply range_values_elem_of. eauto.
Qed.

Lemma earliest_some m : m <> ∅ -> is_Some (earliest m).
Proof.
  intros Hm. unfold earliest.
  assert (Hl : range_values m <> []).
  { intros E. pose proof (length_range_values m) as Hlen. rewrite E in Hlen. simpl in Hlen.
    by apply Hm, map_size_empty_inv. }
  assert (Hk : forall l e, is_Some (foldl (fun (e : option voteInfo) value =>
           match e with
           | None => Some value
           | Some e' => if vi_time value <? vi_time e' then Some value else e
           end) (Some e) l)).
  { induction l as [|x l IH]; intros e; simpl; [done|]. by case_match. }
  destruct (range_values m); [done|]. apply Hk.
Qed.

Definition keyed (m : gmap Hash voteInfo) : Prop := map_Forall (fun h v => vi_signHash v = h) m.

Lemma size_delete_keyed (m : gmap Hash voteInfo) h v :
  m !! h = Some v -> size m = S (size (delete h m)).
Proof.
  intros Hl. rewrite map_size_delete_Some by done.
  assert (size m <> 0%nat) by (apply map_size_ne_0_lookup; eauto). lia.
Qed.

(** The loop keeps the latest votes, down to the limit. *)
Lemma count_loop_spec fuel limit m :
  keyed m -> 0 <= limit -> Z.of_nat (size m) <= Z.of_nat fuel + limit ->
  let r := count_loop fuel limit m in
  r ⊆ m /\ Z.of_nat (size r) = Z.min (Z.of_nat (size m)) limit /\
  (forall k v k' v', r !! k = Some v -> m !! k' = Some v' -> r !! k' = None ->
     vi_time v' <= vi_time v).
Proof.
  revert m. induction fuel as [|fuel IH]; intros m Hk Hl Hf; cbn [count_loop];
    (destruct (Z.leb_spec (Z.of_nat (size m)) limit);
     [split_and!; [done|lia|intros; congruence]|]); [lia|].
  destruct (earliest_some m) as [e He]; [intros ->; rewrite map_size_empty in *; lia|].
  rewrite He. destruct (earliest_spec m e He) as [[k Hke] Hmin].
  rewrite (Hk k e Hke : vi_signHash e = k).
  pose proof (size_delete_keyed m k e Hke) as Hsz.
  destruct (IH (delete k m)) as (Hsub & Hmin' & Hord); [by apply map_Forall_delete|done|lia|].
  split_and!.
  - etrans; [exact Hsub|apply delete_subseteq].
  - lia.
  - intros k1 v1 k2 v2 Hk1 Hk2 Hk3. destruct (decide (k2 = k)) as [->|Hne].
    + rewrite Hke in Hk2. injection Hk2 as <-.
      assert (Hd : delete k m !! k1 = Some v1) by (by eapply lookup_weaken).
      apply lookup_delete_Some in Hd as [_ Hd]. by eapply Hmin.
    + apply (Hord k1 v1 k2 v2); [done| |done]. by rewrite lookup_delete_ne.
Qed.

Lemma addVoteToMap_ok vp vote vp' :
  pool_ok vp -> vs_Account (vi_sign vote) = vi_fromAccount vote ->
  Signature.VerifySignWithValidate (vi_signHash vote) (vs_Sign (vi_sign vote))
  = Ok (vi_fromAccount vote, vs_Validate (vi_sign vote)) ->
  addVoteToMap vp vote = (vp', None) ->
  timeIndex vp' = timeIndex vp ++ [vote] /\
  map_ok (timeIndex vp')
    (fun a => if bool_decide (a = vi_fromAccount vote)
              then AccountVoteCountLimit vp + 1 else AccountVoteCountLimit vp) (voteMap vp').
Proof.
  intros (Hlim & _ & Hm) Hacc Hver. unfold addVoteToMap.
  set (am := default ∅ (voteMap vp !! vi_fromAccount vote)).
  destruct (am !! vi_signHash vote) eqn:Eh; [done|]. intros [= <-]. simpl. split; [done|].
  assert (Hold : forall a am0, voteMap vp !! a = Some am0 ->
     submap_ok (timeIndex vp ++ [vote]) (AccountVoteCountLimit vp) a am0).
  { intros a am0 Hl. destruct (Hm a am0 Hl) as (? & ? & Hv). split_and!; try done.
    intros h v Hh. eapply vote_ok_index; [|by apply Hv]. intros. apply elem_of_app. by left. }
  intros a am' [[<- <-]|[Ha Hl]]%lookup_insert_Some.
  - rewrite bool_decide_eq_true_2 by done. split_and!.
    + apply insert_non_empty.
    + rewrite map_size_insert_None by done. unfold am.
      destruct (voteMap vp !! vi_fromAccount vote) as [am0|] eqn:El; simpl.
      * destruct (Hold _ _ El) as (_ & ? & _). lia.
      * rewrite map_size_empty. lia.
    + apply map_Forall_insert_2.
      * split_and!; try done. apply elem_of_app. right. by left.
      * unfold am. destruct (voteMap vp !! vi_fromAccount vote) as [am0|] eqn:El; simpl.
        -- by destruct (Hold _ _ El) as (_ & _ & ?).
        -- by apply map_Forall_empty.
  - rewrite bool_decide_eq_false_2 by done. by apply Hold.
Qed.

Lemma fixPoolByCountLimit_ok vp a :
  0 < AccountVoteCountLimit vp ->
  map_ok (timeIndex vp) (fun a' => if bool_decide (a' = a) then AccountVoteCountLimit vp + 1
                                   else AccountVoteCountLimit vp) (voteMap vp) ->
  map_ok (timeIndex vp) (fun _ => AccountVoteCountLimit vp)
    (voteMap (fixPoolByCountLimit vp a)).
Proof.
  intros Hlim Hm. unfold fixPoolByCountLimit.
  destruct (voteMap vp !! a) as [am|] eqn:El; simpl.
  - intros a' am' [[<- <-]|[Ha Hl]]%lookup_insert_Some.
    + destruct (Hm _ _ El) as (Hne & Hsz & Hv).
      destruct (count_loop_spec (size am) (AccountVoteCountLimit vp) am)
        as (Hsub & Hmin & _); [|lia|lia|].
      { intros h v Hh. by destruct (Hv h v Hh) as (_ & ? & _). }
      assert (0 < Z.of_nat (size am)).
      { destruct (decide (size am = 0%nat)) as [E|]; [|lia]. by apply map_size_empty_inv in E. }
      split_and!.
      * intros E. rewrite E, map_size_empty in Hmin. lia.
      * lia.
      * intros h v Hh. apply Hv. by eapply lookup_weaken.
    + specialize (Hm a' am' Hl). cbv beta in Hm. by rewrite bool_decide_eq_false_2 in Hm by done.
  - intros a' am Hl. specialize (Hm a' am Hl). cbv beta in Hm. rewrite bool_decide_eq_false_2 in Hm; [done|].
    intros ->. by rewrite El in Hl.
Qed.

Lemma fixPoolByTimeout_fields vp now :
  AccountVoteCountLimit (fixPoolByTimeout vp now) = AccountVoteCountLimit vp /\
  timeoutInterval (fixPoolByTimeout vp now) = timeoutInterval vp.
Proof. unfold fixPoolByTimeout. by case_match. Qed.

Lemma fixPoolByTimeout_ok vp now limit :
  map_ok (timeIndex vp) limit (voteMap vp) ->
  map_ok (timeIndex (fixPoolByTimeout vp now)) limit (voteMap (fixPoolByTimeout vp now)).
Proof.
  unfold fixPoolByTimeout. destruct (timeout_loop _ _ _) as [m' index'] eqn:E. simpl.
  by eapply timeout_loop_ok.
Qed.

Lemma fixPoolByCountLimit_fields vp a :
  timeIndex (fixPoolByCountLimit vp a) = timeIndex vp /\
  AccountVoteCountLimit (fixPoolByCountLimit vp a) = AccountVoteCountLimit vp /\
  timeoutInterval (fixPoolByCountLimit vp a) = timeoutInterval vp.
Proof. unfold fixPoolByCountLimit. by case_match. Qed.

(** A failed [AddVote] changes nothing; a successful one is the three steps
    on a verified vote. *)
Lemma AddVote_cases vp now h s from vf vp' r :
  AddVote vp now h s from vf = (vp', r) ->
  (vp' = vp /\ is_Some r) \/
  exists vote vp1, r = None /\ addVoteToMap vp vote = (vp1, None) /\
    vi_time vote = now /\ vi_signHash vote = h /\
    vs_Account (vi_sign vote) = vi_fromAccount vote /\
    Signature.VerifySignWithValidate (vi_signHash vote) (vs_Sign (vi_sign vote))
    = Ok (vi_fromAccount vote, vs_Validate (vi_sign vote)) /\
    vp' = fixPoolByCountLimit (fixPoolByTimeout vp1 now) (vi_fromAccount vote).
Proof.
  unfold AddVote. destruct (Signature.VerifySignWithValidate h s) as [[a v]|e] eqn:Ev;
    [|intros [= <- <-]; eauto].
  destruct (vf && _); [intros [= <- <-]; eauto|].
  unfold addVoteToMap. cbn [vi_signHash vi_fromAccount].
  destruct (default ∅ (voteMap vp !! a) !! h) eqn:Eh; [intros [= <- <-]; eauto|].
  intros [= <- <-]. right.
  exists (mkVoteInfo now (mkVerifiedSign s a v 0) a h). eexists.
  cbn [vi_signHash vi_fromAccount vi_time vi_sign vs_Sign vs_Account vs_Validate].
  rewrite Eh. done.
Qed.

Lemma addVoteToMap_fields vp vote vp' :
  addVoteToMap vp vote = (vp', None) ->
  AccountVoteCountLimit vp' = AccountVoteCountLimit vp /\
  timeoutInterval vp' = timeoutInterval vp.
Proof. unfold addVoteToMap. case_match; [done|]. by intros [= <-]. Qed.

Lemma AddVote_ok vp now h s from vf :
  pool_ok vp -> pool_ok (AddVote vp now h s from vf).1.
Proof.
  intros Hok. destruct (AddVote vp now h s from vf) as [vp' r] eqn:E. simpl.
  apply AddVote_cases in E as [[-> _]|(vote & vp1 & -> & Ha & _ & _ & Hacc & Hver & ->)]; [done|].
  destruct (addVoteToMap_ok vp vote vp1 Hok Hacc Hver Ha) as [_ Hm].
  destruct (addVoteToMap_fields _ _ _ Ha) as [Hl Ht]. destruct Hok as (Hlim & Hto & _).
  destruct (fixPoolByTimeout_fields vp1 now) as [Hl2 Ht2].
  destruct (fixPoolByCountLimit_fields (fixPoolByTimeout vp1 now) (vi_fromAccount vote))
    as (Hi3 & Hl3 & Ht3).
  unfold pool_ok. rewrite Hi3, Hl3, Ht3, Ht2, Hl2, Ht, Hl. split_and!; [done|done|].
  rewrite <- Hl, <- Hl2. apply fixPoolByCountLimit_ok; [lia|].
  rewrite Hl2, Hl. by apply fixPoolByTimeout_ok.
Qed.

Lemma DelVotes_ok vp h : pool_ok vp -> pool_ok (DelVotes vp h).
Proof.
  intros (Hlim & Hto & Hm). unfold DelVotes. case_match; [done|]. split_and!; try done.
  simpl. intros a am Hl. rewrite lookup_omap in Hl.
  destruct (voteMap vp !! a) as [am0|] eqn:El; [|done]. simpl in Hl.
  specialize (Hm a am0 El). destruct (am0 !! h) eqn:Eh; [|by simplify_eq].
  destruct (Nat.eqb_spec (size am0) 1) as [|Hne]; [done|]. injection Hl as <-.
  apply submap_ok_delete; [done|]. intros Hd.
  apply Hne. rewrite (size_delete_keyed am0 h v), Hd by done. by rewrite map_size_empty.
Qed.

(** ** Reachable pools *)

Inductive op :=
| OpAdd (now : Z) (h : Hash) (s : Signature) (from : Address) (verifyFrom : bool)
| OpDel (h : Hash)
| OpClear.

Definition run_op (vp : VotePool) (o : op) : VotePool :=
  match o with
  | OpAdd now h s from vf => (AddVote vp now h s from vf).1
  | OpDel h => DelVotes vp h
  | OpClear => Clear vp
  end.

Lemma NewVotePool_ok r : pool_ok (NewVotePool r).
Proof. split_and!; [done|done|]. by apply map_Forall_empty. Qed.

Lemma run_op_ok vp o : pool_ok vp -> pool_ok (run_op vp o).
Proof.
  intros Hok. destruct o; simpl; [by apply AddVote_ok|by apply DelVotes_ok|].
  destruct Hok as (? & ? & _). by split_and!.
Qed.

(** In every pool reached from an empty one by adding, deleting and
    clearing, each account has at least one and at most the allowed number of
    votes, and every stored vote is filed under the account and hash that its
    signature verifies for. *)
Theorem reachable_pool_ok role ops : pool_ok (foldl run_op (NewVotePool role) ops).
Proof.
  induction ops as [|o ops IH] using rev_ind.
  - apply NewVotePool_ok.
  - rewrite foldl_app. simpl. by apply run_op_ok.
Qed.

(** ** What the pool returns *)

Lemma elem_of_GetVotes vp h s :
  s ∈ GetVotes vp h <->
  exists a am v, voteMap vp !! a = Some am /\ am !! h = Some v /\ vi_sign v = s.
Proof.
  unfold GetVotes. rewrite list_elem_of_bind. split.
  - intros (am & Hs & [a Ha]%range_values_elem_of).
    apply list_elem_of_bind in Hs as ([k v] & Hs & Hkv%range_elem_of).
    case_bool_decide; [|by apply elem_of_nil in Hs].
    apply list_elem_of_singleton in Hs. subst. eauto 10.
  - intros (a & am & v & Ha & Hv & <-). exists am. split.
    + apply list_elem_of_bind. exists (h, v). rewrite bool_decide_eq_true_2 by done.
      split; [by left|]. by apply range_elem_of.
    + apply range_values_elem_of. eauto.
Qed.

(** Within one account there is at most one vote for a hash. *)
Lemma account_votes_single (am : gmap Hash voteInfo) (h : Hash) :
  (range am ≫= fun '(key, value) => if bool_decide (h = key) then [vi_sign value] else [])
  = match am !! h with Some v => [vi_sign v] | None => [] end.
Proof.
  pose proof (range_NoDup_fst am) as Hnd.
  assert (Hr : forall k v, (k, v) ∈ range am <-> am !! k = Some v) by (intros; apply range_elem_of).
  destruct (am !! h) as [v|] eqn:E.
  - apply Hr in E. clear Hr. induction (range am) as [|[k w] l IH]; [by apply elem_of_nil in E|].
    simpl in *. apply NoDup_cons in Hnd as [Hk Hnd].
    apply elem_of_cons in E as [[= -> ->]|E].
    + rewrite bool_decide_eq_true_2 by done. simpl. f_equal.
      clear IH Hnd. induction l as [|[k' w'] l IHl]; [done|]. simpl in *.
      rewrite bool_decide_eq_false_2 by set_solver. apply IHl. set_solver.
    + rewrite bool_decide_eq_false_2; [by apply IH|]. intros ->. apply Hk.
      apply list_elem_of_fmap. by exists (k, v).
  - assert (Hn : forall v, (h, v) ∉ range am) by (intros v Hv%Hr; congruence). clear Hr Hnd E.
    induction (range am) as [|[k w] l IH]; [done|]. simpl.
    rewrite bool_decide_eq_false_2; [apply IH; set_solver|].
    intros ->. apply (Hn w). by left.
Qed.

Lemma GetVotes_alt vp h :
  GetVotes vp h
  = (range (voteMap vp)).*2 ≫= fun am => match am !! h with Some v => [vi_sign v] | None => [] end.
Proof. apply list_bind_ext; [|done]. intros. apply account_votes_single. Qed.

Lemma GetVotes_NoDup vp h : pool_ok vp -> NoDup (vs_Account <$> GetVotes vp h).
Proof.
  intros (_ & _ & Hm). rewrite GetVotes_alt.
  assert (Hv : forall a am v, (a, am) ∈ range (voteMap vp) -> am !! h = Some v ->
    vs_Account (vi_sign v) = a).
  { intros a am v Ha%range_elem_of Hl. destruct (Hm a am Ha) as (_ & _ & Hok).
    by destruct (Hok h v Hl) as (_ & _ & _ & ? & _). }
  pose proof (range_NoDup_fst (voteMap vp)) as Hnd.
  induction (range (voteMap vp)) as [|[a am] l IH]; [constructor|]. simpl in *.
  apply NoDup_cons in Hnd as [Ha Hnd].
  specialize (IH ltac:(intros; eapply Hv; [by right|done]) Hnd).
  destruct (am !! h) as [v|] eqn:E; simpl; [|done]. apply NoDup_cons. split; [|done].
  rewrite (Hv a am v) by (done || by left).
  intros (s & Hs & (am' & Hin & ([a' am''] & -> & Hin')%list_elem_of_fmap)%list_elem_of_bind)
    %list_elem_of_fmap. simpl in Hin.
  destruct (am'' !! h) as [v'|] eqn:E'; [|by apply elem_of_nil in Hin].
  apply list_elem_of_singleton in Hin. subst s. apply Ha, list_elem_of_fmap.
  exists (a', am''). split; [|done]. rewrite Hs. apply (Hv a' am'' v'); [by right|done].
Qed.

Lemma GetVotes_signs vp h :
  pool_ok vp ->
  Forall (fun s => Signature.VerifySignWithValidate h (vs_Sign s)
                   = Ok (vs_Account s, vs_Validate s)) (GetVotes vp h).
Proof.
  intros (_ & _ & Hm). apply Forall_forall. intros s (a & am & v & Ha & Hl & <-)%elem_of_GetVotes.
  destruct (Hm a am Ha) as (_ & _ & Hok). by destruct (Hok h v Hl) as (_ & _ & _ & -> & ?).
Qed.

(** [GetVotes] returns exactly the stored votes for the hash, at most one
    per account, and each carries the account and opinion its signature
    verifies to, which is what the DPOS engine's counting of pre-verified
    votes relies on. *)
Theorem GetVotes_verified vp h :
  pool_ok vp ->
  NoDup (vs_Account <$> GetVotes vp h) /\
  Forall (fun s => Signature.VerifySignWithValidate h (vs_Sign s)
                   = Ok (vs_Account s, vs_Validate s)) (GetVotes vp h) /\
  (forall a, a ∈ vs_Account <$> GetVotes vp h <->
             exists am, voteMap vp !! a = Some am /\ is_Some (am !! h)).
Proof.
  intros Hok. split; [by apply GetVotes_NoDup|]. pose proof Hok as (_ & _ & Hm).
  assert (Hv : forall a am v, voteMap vp !! a = Some am -> am !! h = Some v -> vote_ok _ a h v)
    by (intros a am v Ha Hl; destruct (Hm a am Ha) as (_ & _ & Hs); exact (Hs h v Hl)).
  split; [by apply GetVotes_signs|].
  intros a. rewrite list_elem_of_fmap. split.
  - intros (s & -> & (a' & am & v & Ha & Hl & <-)%elem_of_GetVotes).
    destruct (Hv a' am v Ha Hl) as (_ & _ & _ & -> & ?). eauto.
  - intros (am & Ha & [v Hl]). exists (vi_sign v). split.
    + by destruct (Hv a am v Ha Hl) as (_ & _ & _ & -> & ?).
    + apply elem_of_GetVotes. eauto 10.
Qed.

(** ** Expiry *)

Definition index_sorted (l : list voteInfo) : Prop :=
  StronglySorted (fun v w => vi_time v <= vi_time w) l.

Lemma index_sorted_app l v :
  index_sorted l -> Forall (fun w => vi_time w <= vi_time v) l -> index_sorted (l ++ [v]).
Proof.
  unfold index_sorted. induction 1 as [|w l Hs IH Hw]; intros Hv; simpl.
  - repeat constructor.
  - inversion Hv; subst. constructor; [by apply IH|]. apply Forall_app. split; [done|].
    by repeat constructor.
Qed.

Lemma index_sorted_suffix l l' : l' `suffix_of` l -> index_sorted l -> index_sorted l'.
Proof.
  intros [k ->]. unfold index_sorted. induction k as [|w k IH]; simpl; [done|].
  inversion 1; subst. auto.
Qed.

(** With a clock that does not run backwards, a successful [AddVote]
    leaves no vote older than the timeout in the pool. *)
Theorem AddVote_expires vp now h s from vf vp' :
  pool_ok vp -> index_sorted (timeIndex vp) ->
  Forall (fun v => vi_time v <= now) (timeIndex vp) ->
  AddVote vp now h s from vf = (vp', None) ->
  index_sorted (timeIndex vp') /\
  forall a am k v, voteMap vp' !! a = Some am -> am !! k = Some v ->
    now - timeoutInterval vp <= vi_time v.
Proof.
  intros Hok Hsort Hnow E. pose proof (AddVote_ok vp now h s from vf Hok) as Hok'.
  rewrite E in Hok'. simpl in Hok'.
  apply AddVote_cases in E as [[_ [? [=]]]|(vote & vp1 & _ & Ha & Ht & _ & Hacc & Hver & ->)].
  destruct (addVoteToMap_ok vp vote vp1 Hok Hacc Hver Ha) as [Hi _].
  destruct (addVoteToMap_fields _ _ _ Ha) as [_ Hto].
  destruct (fixPoolByCountLimit_fields (fixPoolByTimeout vp1 now) (vi_fromAccount vote))
    as (Hi3 & _ & _).
  assert (Hs1 : index_sorted (timeIndex vp1)) by (rewrite Hi; apply index_sorted_app; by rewrite ?Ht).
  assert (Hidx : index_sorted (timeIndex (fixPoolByTimeout vp1 now)) /\
    Forall (fun v => now - timeoutInterval vp <= vi_time v) (timeIndex (fixPoolByTimeout vp1 now))).
  { unfold fixPoolByTimeout. rewrite Hto. destruct (timeout_loop _ _ _) as [m' index'] eqn:El. simpl.
    destruct (timeout_loop_suffix _ _ _ _ _ El) as [Hsuf Hhd].
    pose proof (index_sorted_suffix _ _ Hsuf Hs1) as Hs'. split; [done|].
    destruct index' as [|v l]; [constructor|]. specialize (Hhd v l eq_refl).
    inversion Hs' as [|? ? _ Hall]; subst. constructor; [lia|].
    eapply Forall_impl; [exact Hall|]. simpl. lia. }
  rewrite Hi3. split; [by apply Hidx|]. intros a am k v Hl Hk.
  destruct Hok' as (_ & _ & Hm). destruct (Hm a am Hl) as (_ & _ & Hv).
  destruct (Hv k v Hk) as (_ & _ & Hin & _). rewrite Hi3 in Hin.
  destruct Hidx as [_ Hf]. rewrite Forall_forall in Hf. by apply Hf.
Qed.

End VotePool.

(** ** Witnesses and a defect *)

#[local] Instance toy : Crypto := Signature.toy_crypto.
#[local] Instance rng : GoRange := sorted_range.

Definition pool1 : VotePool := foldl run_op (NewVotePool 1) [OpAdd 10 77%N 256%N 1%N true].

Lemma GetVotes_verified_witness :
  NoDup (vs_Account <$> GetVotes pool1 77%N) /\
  Forall (fun s => Signature.VerifySignWithValidate 77%N (vs_Sign s)
                   = Ok (vs_Account s, vs_Validate s)) (GetVotes pool1 77%N) /\
  (forall a, a ∈ vs_Account <$> GetVotes pool1 77%N <->
             exists am, voteMap pool1 !! a = Some am /\ is_Some (am !! 77%N)).
Proof. apply (GetVotes_verified pool1 77%N). apply (AddVote_ok (NewVotePool 1)).
  split_and!; [done|done|by apply map_Forall_empty].
Defined.

Lemma AddVote_expires_witness :
  index_sorted (timeIndex (AddVote pool1 60000 78%N 512%N 2%N true).1) /\
  forall a am k v, voteMap (AddVote pool1 60000 78%N 512%N 2%N true).1 !! a = Some am ->
    am !! k = Some v -> 60000 - 55000 <= vi_time v.
Proof.
  apply (AddVote_expires pool1 60000 78%N 512%N 2%N true).
  - apply (AddVote_ok (NewVotePool 1)). split_and!; [done|done|by apply map_Forall_empty].
  - repeat constructor.
  - repeat constructor. vm_compute. discriminate.
  - vm_compute. reflexivity.
Defined.

(** [DelVotes] leaves the entries of the time index in place.  A vote that is
    deleted and later added again is filed next to its old entry, and the
    expiry pass of that same [AddVote] drops the fresh vote: the call reports
    success and the vote is gone. *)
Lemma readded_vote_lost :
  let vp := foldl run_op (NewVotePool 1) [OpAdd 0 77%N 256%N 1%N true; OpDel 77%N] in
  exists vp', AddVote vp 60000 77%N 256%N 1%N true = (vp', None) /\ GetVotes vp' 77%N = [].
Proof. eexists. split; vm_compute; reflexivity. Qed.

End VotePool.
