(* ===== verification/TurnTimes.v ===== *)
(** * Package [verifier]: the begin times of consensus turns

    Models verifier/trunTimes.go.  Times are int64 seconds and turns uint32;
    arithmetic wraps at those widths. *)

From S2P Require Import Prelude Common.

(** The states of a controller (commdef.go). *)
Inductive state := stIdle | stPos | stReelect | stMining.
#[export] Instance state_eq_dec : EqDecision state.
Proof. solve_decision. Defined.

Module TurnTimes.

(** [man.LRSParentMiningTime] and the other periods. *)
Definition LRSParentMiningTime : Z := 20.
Definition LRSPOSOutTime : Z := 20.
Definition LRSReelectOutTime : Z := 40.
Definition LRSReelectInterval : Z := 5.

Record turnTimes := mkTurnTimes { beginTimes : gmap Z Z }.

Definition newTurnTimes : turnTimes := mkTurnTimes ∅.

Definition SetBeginTime (tt : turnTimes) (consensusTurn time : Z) : turnTimes * bool :=
  let set := mkTurnTimes (<[consensusTurn := time]> (beginTimes tt)) in
  match beginTimes tt !! consensusTurn with
  | Some oldTime => if time <=? oldTime then (tt, false) else (set, true)
  | None => (set, true)
  end.

Definition GetBeginTime (tt : turnTimes) (consensusTurn : Z) : Z :=
  match beginTimes tt !! consensusTurn with
  | Some beginTime => beginTime
  | None => 0
  end.

(** [posTime], the length of the POS phase of a turn. *)
Definition posTime (consensusTurn : Z) : Z :=
  if consensusTurn =? 0 then LRSPOSOutTime + LRSParentMiningTime else LRSPOSOutTime.

Definition GetPosEndTime (tt : turnTimes) (consensusTurn : Z) : Z :=
  i64 (GetBeginTime tt consensusTurn + posTime consensusTurn).

Definition CalState (tt : turnTimes) (consensusTurn time : Z) : state * Z * Z :=
  let posTime := posTime consensusTurn in
  let passTime := i64 (time - GetBeginTime tt consensusTurn) in
  if passTime <? posTime then (stPos, i64 (posTime - passTime), 0)
  else
    let reelectTurn := u32 (u32 (Z.quot (i64 (passTime - posTime)) LRSReelectOutTime) + 1) in
    let remainTime := Z.rem (i64 (passTime - posTime)) LRSReelectOutTime in
    (stReelect, if remainTime =? 0 then LRSReelectOutTime else remainTime, reelectTurn).

Definition CalRemainTime (tt : turnTimes) (consensusTurn reelectTurn time : Z) : Z :=
  let deadLine := i64 (i64 (GetBeginTime tt consensusTurn + posTime consensusTurn)
                       + i64 (reelectTurn * LRSReelectOutTime)) in
  i64 (deadLine - time).

(** ** Phases of a turn *)

(** Times within some years of the epoch, so that no sum leaves the width. *)
Definition in_epoch (t : Z) : Prop := 0 <= t < 2 ^ 36.

Lemma posTime_bounds turn : 20 <= posTime turn <= 40.
Proof. unfold posTime, LRSPOSOutTime, LRSParentMiningTime. case_match; lia. Qed.

Lemma GetBeginTime_epoch tt turn :
  map_Forall (fun _ t => in_epoch t) (beginTimes tt) -> in_epoch (GetBeginTime tt turn).
Proof.
  intros Hall. unfold GetBeginTime. case_match eqn:E; [by apply (Hall turn)|].
  unfold in_epoch; lia.
Qed.

(** The exact timetable of a turn that began at [b]: POS until
    [b + posTime], then re-election turn [k] (from 1) for 40 seconds each. *)
Lemma CalState_timetable tt turn time st remain k :
  in_epoch time -> map_Forall (fun _ t => in_epoch t) (beginTimes tt) ->
  CalState tt turn time = (st, remain, k) ->
  let b := GetBeginTime tt turn in
  (st = stPos /\ time < b + posTime turn /\ remain = b + posTime turn - time /\ k = 0) \/
  (st = stReelect /\ 1 <= k /\
   b + posTime turn + (k - 1) * LRSReelectOutTime <= time
     < b + posTime turn + k * LRSReelectOutTime /\
   let elapsed := time - (b + posTime turn + (k - 1) * LRSReelectOutTime) in
   remain = if elapsed =? 0 then LRSReelectOutTime else elapsed).
Proof.
  intros Ht Hall. pose proof (posTime_bounds turn).
  pose proof (GetBeginTime_epoch tt turn Hall) as Hb. unfold in_epoch in *.
  unfold CalState, LRSReelectOutTime. cbn zeta.
  rewrite i64_small by (unfold in_i64; lia).
  destruct (Z.ltb_spec (time - GetBeginTime tt turn) (posTime turn)).
  - rewrite i64_small by (unfold in_i64; lia). intros [= <- <- <-]. left. split_and!; (done || lia).
  - rewrite i64_small by (unfold in_i64; lia).
    set (d := time - GetBeginTime tt turn - posTime turn).
    assert (0 <= d < 2 ^ 37) by (unfold d; lia).
    rewrite Z.quot_div_nonneg, Z.rem_mod_nonneg by lia.
    pose proof (Z.div_mod d 40 ltac:(lia)). pose proof (Z.mod_pos_bound d 40 ltac:(lia)).
    assert (0 <= d / 40 < 2 ^ 32) by lia.
    rewrite (u32_small (d / 40)) by (unfold in_u32; lia).
    rewrite u32_small by (unfold in_u32; lia). intros [= <- <- <-]. right.
    split; [done|]. split; [lia|]. split; [unfold d in *; lia|]. cbn zeta.
    replace (time - (GetBeginTime tt turn + posTime turn + (d / 40 + 1 - 1) * 40))
      with (d mod 40) by (unfold d in *; lia). done.
Qed.

Lemma CalRemainTime_exact tt turn k time :
  in_epoch time -> in_epoch (GetBeginTime tt turn) -> 0 <= k < 2 ^ 37 ->
  CalRemainTime tt turn k time
  = GetBeginTime tt turn + posTime turn + k * LRSReelectOutTime - time.
Proof.
  intros Ht Hb Hk. pose proof (posTime_bounds turn). unfold in_epoch, CalRemainTime in *.
  rewrite (i64_small (GetBeginTime tt turn + _)) by (unfold in_i64; lia).
  rewrite (i64_small (k * _)) by (unfold in_i64, LRSReelectOutTime; lia).
  rewrite (i64_small (_ + _ + _)) by (unfold in_i64, LRSReelectOutTime; lia).
  rewrite i64_small by (unfold in_i64, LRSReelectOutTime; lia). lia.
Qed.

(** C39: The timetable of a turn, exactly: before the begin time plus 20 seconds
    (40 in turn 0) the phase is POS, with the time to its end remaining; after
    that re-election turns of 40 seconds follow, numbered from 1, and
    [CalRemainTime] gives the time to the end of the current one, which is
    between 1 and 40 seconds.  [CalState] reports the time already spent in the
    re-election turn as remaining, and 40 at its very beginning. *)
Theorem CalState_phase tt turn time :
  in_epoch time -> map_Forall (fun _ t => in_epoch t) (beginTimes tt) ->
  let posEnd := GetBeginTime tt turn + posTime turn in
  (time < posEnd ->
   CalState tt turn time = (stPos, posEnd - time, 0) /\ CalRemainTime tt turn 0 time = posEnd - time) /\
  (posEnd <= time ->
   let k := (time - posEnd) / 40 + 1 in
   let elapsed := (time - posEnd) mod 40 in
   CalState tt turn time = (stReelect, if elapsed =? 0 then 40 else elapsed, k) /\
   CalRemainTime tt turn k time = 40 - elapsed).
Proof.
  intros Ht Hall posEnd. pose proof (posTime_bounds turn).
  pose proof (GetBeginTime_epoch tt turn Hall) as Hb.
  destruct (CalState tt turn time) as [[st remain] k] eqn:E.
  apply CalState_timetable in E; [|done|done]. cbn zeta in E. fold posEnd in E.
  unfold LRSReelectOutTime in E. split; intros Hp.
  - destruct E as [(-> & _ & -> & ->)|(_ & ? & ? & _)]; [|lia].
    rewrite CalRemainTime_exact by (done || lia). unfold posEnd. split; [done|lia].
  - destruct E as [(_ & ? & _)|(-> & Hk & Hint & ->)]; [lia|]. cbn zeta.
    assert ((time - posEnd) / 40 = k - 1) as Hq by (symmetry; apply Z.div_unique with (time - posEnd - 40 * (k - 1)); lia).
    assert ((time - posEnd) mod 40 = time - (posEnd + (k - 1) * 40)) as Hm
      by (symmetry; apply Z.mod_unique with (k - 1); lia).
    rewrite Hq, Hm. replace (k - 1 + 1) with k by lia. split; [done|].
    unfold in_epoch in *. rewrite CalRemainTime_exact by (unfold in_epoch; lia).
    unfold LRSReelectOutTime. fold posEnd. lia.
Qed.

(** In a re-election phase the "remaining time" that [CalState] returns is
    the time already spent in the current re-election turn, not the time left:
    away from the start of the turn the two add up to the 40 seconds of the
    turn. *)
Theorem CalState_remain_is_elapsed tt turn time remain k :
  in_epoch time -> map_Forall (fun _ t => in_epoch t) (beginTimes tt) ->
  CalState tt turn time = (stReelect, remain, k) ->
  remain <> LRSReelectOutTime ->
  remain = LRSReelectOutTime - CalRemainTime tt turn k time.
Proof.
  intros Ht Hall E Hne. pose proof (GetBeginTime_epoch tt turn Hall) as Hb.
  pose proof (posTime_bounds turn).
  apply CalState_timetable in E; [|done|done].
  destruct E as [(? & _)|(_ & Hk & Hint & E)]; [done|]. unfold LRSReelectOutTime in *.
  rewrite CalRemainTime_exact by (unfold in_epoch in *; lia). unfold LRSReelectOutTime in *.
  revert E. case_match; intros ->; [done|lia].
Qed.

(** ** Begin times only move forward *)

Lemma SetBeginTime_spec tt turn time tt' ok :
  SetBeginTime tt turn time = (tt', ok) ->
  (ok = true <-> forall old, beginTimes tt !! turn = Some old -> old < time) /\
  (forall t, beginTimes tt' !! t
             = if ok && (t =? turn) then Some time else beginTimes tt !! t).
Proof.
  unfold SetBeginTime. intros E.
  destruct (beginTimes tt !! turn) as [old|] eqn:El.
  - destruct (Z.leb_spec time old); simplify_eq; simpl; (split; [|intros t]).
    + split; [done|]. intros Hold. specialize (Hold old eq_refl). lia.
    + done.
    + split; [intros _ ? [= <-]; lia|done].
    + destruct (Z.eqb_spec t turn) as [->|]; [by rewrite lookup_insert_eq|].
      by rewrite lookup_insert_ne.
  - simplify_eq; simpl. split; [done|]. intros t.
    destruct (Z.eqb_spec t turn) as [->|]; [by rewrite lookup_insert_eq|].
    by rewrite lookup_insert_ne.
Qed.

(** Whatever sequence of begin times is offered, the begin time of each
    turn never decreases and ends at the largest time offered for it (or
    recorded before). *)
Theorem SetBeginTime_max tt (offers : list (Z * Z)) turn :
  let tt' := foldl (fun tt '(t, time) => (SetBeginTime tt t time).1) tt offers in
  let times := option_list (beginTimes tt !! turn) ++
               (filter (fun o => o.1 = turn) offers).*2 in
  match beginTimes tt' !! turn with
  | Some time => time ∈ times /\ Forall (fun t => t <= time) times
  | None => times = []
  end.
Proof.
  induction offers as [|[t time] offers IH] using rev_ind; cbn zeta in *.
  - simpl. rewrite app_nil_r. destruct (beginTimes tt !! turn); simpl; [|done].
    split; [by left|]. by repeat constructor.
  - rewrite foldl_app. simpl. set (tt1 := foldl _ tt offers) in *.
    destruct (SetBeginTime tt1 t time) as [tt2 ok] eqn:E. simpl.
    destruct (SetBeginTime_spec _ _ _ _ _ E) as [Hok Hl].
    rewrite Hl, filter_app, fmap_app, app_assoc.
    set (times := option_list _ ++ _) in *.
    rewrite filter_cons, filter_nil. destruct (decide ((t, time).1 = turn)) as [Et|Et]; simpl in Et.
    + subst t. rewrite Z.eqb_refl, andb_true_r. simpl. destruct ok.
      * split; [apply elem_of_app; right; by left|]. apply Forall_app. split; [|by repeat constructor].
        destruct (beginTimes tt1 !! turn) as [old|]; [|rewrite IH; constructor].
        destruct IH as [_ IH]. specialize (proj1 Hok eq_refl old eq_refl). intros.
        eapply Forall_impl; [exact IH|]. simpl. lia.
      * destruct (beginTimes tt1 !! turn) as [old|] eqn:Eo.
        -- destruct IH as [Hin IH]. split; [by apply elem_of_app; left|].
           apply Forall_app. split; [done|]. constructor; [|constructor].
           destruct (Z.le_gt_cases time old) as [|Hgt]; [done|].
           assert (false = true) by (apply Hok; intros ? [= <-]; lia). done.
        -- assert (false = true) by (by apply Hok). done.
    + destruct (Z.eqb_spec turn t); [done|]. rewrite andb_false_r. simpl.
      by rewrite app_nil_r.
Qed.

Definition sample_times : turnTimes := mkTurnTimes {[0 := 100; 2 := 300]}.

Lemma sample_times_epoch : map_Forall (fun _ t => in_epoch t) (beginTimes sample_times).
Proof.
  intros k t. unfold sample_times. simpl.
  intros [[_ <-]|[_ [_ <-]%lookup_singleton_Some]]%lookup_insert_Some; unfold in_epoch; lia.
Qed.

Lemma CalState_phase_witness :
  CalState sample_times 0 190 = (stReelect, 10, 2) /\ CalRemainTime sample_times 0 2 190 = 30.
Proof.
  refine (proj2 (CalState_phase sample_times 0 190 _ sample_times_epoch) _).
  - unfold in_epoch; lia.
  - vm_compute. discriminate.
Defined.

Lemma CalState_remain_is_elapsed_witness : 10 = 40 - CalRemainTime sample_times 0 2 190.
Proof.
  apply (CalState_remain_is_elapsed sample_times 0 190 10 2).
  - unfold in_epoch; lia.
  - exact sample_times_epoch.
  - vm_compute. reflexivity.
  - discriminate.
Defined.

End TurnTimes.
