(* ===== verification/LeaderCal.v ===== *)
(** * Package [verifier]: leader rotation

    Models verifier/leaderCal.go.  The block chain is read through [Chain]; the first
    configured broadcast node is a parameter (the configuration loader refuses
    an empty list). *)

From S2P Require Import Prelude Common Types Topology Dpos TurnTimes.

(** The read operations of [core.BlockChain] that the package uses. *)
Record Chain := mkChain {
  GetHeaderByNumber : Z -> option Header;
  GetHeader : Hash -> Z -> option Header;
  chain_GetValidatorByNumber : Z -> option TopologyGraph
}.

Inductive leader_error := ErrValidatorsIsNil | ErrValidatorNotFound | ErrPreviousHeader.

Record leaderData := mkLeaderData { leader : Address; nextLeader : Address }.

Module LeaderCal.

Record leaderCalculator := mkLeaderCal {
  preLeader : Address;
  leaderList : gmap Z Address;
  lc_validators : list TopologyNodeInfo
}.

Definition newLeaderCalculator : leaderCalculator := mkLeaderCal 0%N ∅ [].

Fixpoint findLeaderIndex (preLeader : Address) (validators : list TopologyNodeInfo) (index : nat)
    : res leader_error nat :=
  match validators with
  | [] => Err ErrValidatorNotFound
  | v :: rest =>
      if bool_decide (tn_Account v = preLeader) then Ok index
      else findLeaderIndex preLeader rest (S index)
  end.

Definition rotated (validators : list TopologyNodeInfo) (startPos i : nat) : Address :=
  match validators !! ((startPos + i) mod length validators)%nat with
  | Some v => tn_Account v
  | None => 0%N
  end.

Definition calLeaderList (preLeader : Address) (validators : list TopologyNodeInfo) (number : Z)
    : res leader_error (gmap Z Address) :=
  let ValidatorNum := length validators in
  let? startPos :=
    (if negb (Broadcast.IsReElectionNumber number) then
       let? preIndex := findLeaderIndex preLeader validators 0 in Ok (S preIndex)
     else Ok 0%nat) in
  Ok (foldl (fun leaderList i => <[u32 (Z.of_nat i) := rotated validators startPos i]> leaderList)
        ∅ (seq 0 ValidatorNum)).

Section LeaderCal.
Context (chain : Chain) (broadcastNode : Address).

(** [number] is the height the calculator's [cdc] works on; [validators] is
    [None] for a nil slice. *)
Definition SetValidators (number : Z) (self : leaderCalculator) (preLeader : Address)
    (validators : option (list TopologyNodeInfo)) : res leader_error leaderCalculator :=
  match validators with
  | None => Err ErrValidatorsIsNil
  | Some validators =>
      let preNumber := u64 (number - 1) in
      let? preLeader :=
        (if Broadcast.IsBroadcastNumber preNumber && negb (preNumber =? 0) then
           match GetHeaderByNumber chain (u64 (preNumber - 1)) with
           | None => Err ErrPreviousHeader
           | Some header => Ok (Leader header)
           end
         else Ok preLeader) in
      let? leaderList := calLeaderList preLeader validators number in
      Ok (mkLeaderCal preLeader leaderList validators)
  end.

Definition GetValidators (self : leaderCalculator) : option TopologyGraph :=
  match lc_validators self with
  | [] => None
  | validators => Some (mkGraph 0 validators 0)
  end.

(** A missing key of the Go map reads as the zero address. *)
Definition listed (self : leaderCalculator) (i : Z) : Address :=
  default 0%N (leaderList self !! i).

Definition GetLeader (number : Z) (self : leaderCalculator) (turn : Z)
    : res leader_error leaderData :=
  let leaderCount := u32 (Z.of_nat (size (leaderList self))) in
  if leaderCount =? 0 then Err ErrValidatorsIsNil
  else if Broadcast.IsReElectionNumber number then
    Ok (mkLeaderData broadcastNode (listed self (turn mod leaderCount)))
  else if Broadcast.IsBroadcastNumber number then
    Ok (mkLeaderData broadcastNode (listed self (turn mod leaderCount)))
  else
    Ok (mkLeaderData (listed self (turn mod leaderCount))
          (if Broadcast.IsBroadcastNumber (u64 (number + 1)) then broadcastNode
           else listed self (u32 (turn + 1) mod leaderCount))).

(** ** The rotation *)

Lemma foldl_insert_lookup (f : nat -> Address) n i :
  Z.of_nat n < 2 ^ 32 ->
  foldl (fun m i => <[u32 (Z.of_nat i) := f i]> m) (∅ : gmap Z Address) (seq 0 n) !! i
  = if bool_decide (0 <= i < Z.of_nat n) then Some (f (Z.to_nat i)) else None.
Proof.
  induction n as [|n IH]; intros Hn.
  - simpl. rewrite bool_decide_eq_false_2 by lia. done.
  - rewrite seq_S, foldl_app. simpl.
    rewrite u32_small by (unfold in_u32; lia).
    destruct (decide (i = Z.of_nat n)) as [->|Hne].
    + rewrite lookup_insert_eq, bool_decide_eq_true_2 by lia. by rewrite Nat2Z.id.
    + rewrite lookup_insert_ne, IH by (done || lia).
      destruct (decide (0 <= i < Z.of_nat n)).
      * rewrite !bool_decide_eq_true_2 by lia. done.
      * rewrite !bool_decide_eq_false_2 by lia. done.
Qed.

Lemma foldl_insert_size (f : nat -> Address) n :
  Z.of_nat n < 2 ^ 32 ->
  size (foldl (fun m i => <[u32 (Z.of_nat i) := f i]> m) (∅ : gmap Z Address) (seq 0 n)) = n.
Proof.
  induction n as [|n IH]; intros Hn; [done|].
  rewrite seq_S, foldl_app. simpl. rewrite map_size_insert_None, IH; [done|lia|].
  rewrite foldl_insert_lookup by lia. rewrite u32_small by (unfold in_u32; lia).
  rewrite bool_decide_eq_false_2 by lia. done.
Qed.

Lemma findLeaderIndex_spec pre vs k i :
  findLeaderIndex pre vs k = Ok i ->
  exists v, vs !! (i - k)%nat = Some v /\ tn_Account v = pre /\ (k <= i)%nat.
Proof.
  revert k. induction vs as [|v vs IH]; intros k; simpl; [done|].
  case_bool_decide.
  - intros [= <-]. exists v. rewrite Nat.sub_diag. done.
  - intros E. destruct (IH _ E) as (w & Hw & ? & ?). exists w.
    replace (i - k)%nat with (S (i - S k)) by lia. split; [done|]. split; [done|lia].
Qed.

(** The leader list is the validator list rotated to start after the previous
    leader (or at the first validator on a re-election height). *)
Definition start_of (pre : Address) (vs : list TopologyNodeInfo) (number : Z) (start : nat) : Prop :=
  if Broadcast.IsReElectionNumber number then start = 0%nat
  else exists v i, vs !! i = Some v /\ tn_Account v = pre /\ start = S i.

Lemma calLeaderList_spec pre vs number l :
  Z.of_nat (length vs) < 2 ^ 32 -> calLeaderList pre vs number = Ok l ->
  exists start, start_of pre vs number start /\ size l = length vs /\
    forall i, l !! i = if bool_decide (0 <= i < Z.of_nat (length vs))
                       then Some (rotated vs start (Z.to_nat i)) else None.
Proof.
  intros Hlen. unfold calLeaderList, start_of.
  destruct (Broadcast.IsReElectionNumber number); simpl.
  - intros [= <-]. exists 0%nat. split; [done|]. split; [by apply foldl_insert_size|].
    intros i. by apply foldl_insert_lookup.
  - destruct (findLeaderIndex pre vs 0) as [i|] eqn:Ef; [|done]. intros [= <-].
    destruct (findLeaderIndex_spec _ _ _ _ Ef) as (v & Hv & Ha & _).
    rewrite Nat.sub_0_r in Hv. exists (S i). split; [by eauto|].
    split; [by apply foldl_insert_size|]. intros k. by apply foldl_insert_lookup.
Qed.

(** Heights with a rotating leader. *)
Definition ordinary (number : Z) : Prop := Broadcast.IsBroadcastNumber number = false.

Lemma ordinary_not_reelection number :
  ordinary number -> Broadcast.IsReElectionNumber number = false.
Proof.
  unfold ordinary. intros Hn. destruct (Broadcast.IsReElectionNumber number) eqn:E; [|done].
  by rewrite Broadcast.reelection_is_broadcast in Hn.
Qed.

Lemma listed_rotated self vs start i :
  (forall i, leaderList self !! i = if bool_decide (0 <= i < Z.of_nat (length vs))
                       then Some (rotated vs start (Z.to_nat i)) else None) ->
  0 < Z.of_nat (length vs) -> 0 <= i ->
  listed self (i mod Z.of_nat (length vs)) = rotated vs start (Z.to_nat i).
Proof.
  intros Hl Hn Hi. unfold listed. rewrite Hl.
  pose proof (Z.mod_pos_bound i (Z.of_nat (length vs)) Hn).
  rewrite bool_decide_eq_true_2 by done. simpl. unfold rotated.
  rewrite Z2Nat.inj_mod, Nat2Z.id by lia.
  by rewrite Nat.Div0.add_mod_idemp_r.
Qed.

(** The leaders of an ordinary height as positions in the validator list. *)
Lemma GetLeader_rotated number self pre vs self' :
  ordinary number -> 0 < Z.of_nat (length vs) < 2 ^ 32 ->
  SetValidators number self pre (Some vs) = Ok self' ->
  exists start, start_of (preLeader self') vs number start /\
    forall turn, in_u32 turn ->
      GetLeader number self' turn
      = Ok (mkLeaderData (rotated vs start (Z.to_nat turn))
              (if Broadcast.IsBroadcastNumber (u64 (number + 1)) then broadcastNode
               else rotated vs start (Z.to_nat (u32 (turn + 1))))).
Proof.
  intros Hord Hlen. unfold SetValidators. cbv zeta.
  set (pl := if _ && _ then _ else _). destruct pl as [pre'|]; [|done].
  destruct (calLeaderList pre' vs number) as [l|] eqn:Ec; [|done]. intros [= <-].
  destruct (calLeaderList_spec _ _ _ _ (proj2 Hlen) Ec) as (start & Hst & Hsz & Hl).
  exists start. split; [done|]. intros turn Hturn. unfold GetLeader.
  cbn [leaderList]. rewrite Hsz. rewrite (u32_small (Z.of_nat _)) by (unfold in_u32; lia).
  destruct (Z.eqb_spec (Z.of_nat (length vs)) 0); [lia|].
  rewrite ordinary_not_reelection by done. rewrite Hord.
  pose proof (u32_range (turn + 1)) as Hr. unfold in_u32 in Hturn, Hr.
  rewrite !(listed_rotated _ vs start) by (done || lia). done.
Qed.

(** Any [n] consecutive turns visit the validators in a rotated order. *)
Lemma rotated_seq vs start t :
  map (rotated vs start) (seq t (length vs)) = rotate (start + t) (map tn_Account vs).
Proof.
  apply list_eq. intros i. destruct (decide (i < length vs)%nat) as [Hi|Hi].
  - rewrite lookup_rotate_r by (by rewrite length_map).
    change (map (rotated vs start)) with (fmap (M:=list) (rotated vs start)).
    rewrite list_lookup_fmap, lookup_seq_lt by done. simpl. unfold rotated, rotate_nat_add.
    rewrite length_map.
    replace (Z.to_nat _) with ((start + (t + i)) mod length vs)%nat.
    + change (map tn_Account vs) with (tn_Account <$> vs). rewrite list_lookup_fmap.
      destruct (lookup_lt_is_Some_2 vs ((start + (t + i)) mod length vs)) as [v ->]; [|done].
      apply Nat.mod_upper_bound. lia.
    + rewrite <- Nat2Z.inj_add, <- Nat2Z.inj_mod, Nat2Z.id. f_equal. lia.
  - rewrite !lookup_ge_None_2; [done|..]; rewrite ?length_rotate, ?length_map, ?length_seq; lia.
Qed.

Lemma rotate_Permutation {A} (n : nat) (l : list A) : rotate n l ≡ₚ l.
Proof. unfold rotate. rewrite Permutation_app_comm. by rewrite take_drop. Qed.

(** On an ordinary height the leadership is fair: over any [n] consecutive
    turns, where [n] is the number of validators, the leaders are exactly the
    validators, each as often as it is listed. *)
Theorem GetLeader_fair number self pre vs self' turn :
  ordinary number -> 0 < Z.of_nat (length vs) < 2 ^ 32 ->
  0 <= turn -> turn + Z.of_nat (length vs) <= 2 ^ 32 ->
  SetValidators number self pre (Some vs) = Ok self' ->
  exists leaders,
    mapM (fun t => match GetLeader number self' t with
                   | Ok d => Ok (leader d) | Err e => Err e end)
      (seqZ turn (Z.of_nat (length vs))) = Ok leaders /\
    leaders ≡ₚ map tn_Account vs.
Proof.
  intros Hord Hlen Ht Hmax Hset.
  destruct (GetLeader_rotated _ _ _ _ _ Hord Hlen Hset) as (start & _ & Hget).
  exists (map (rotated vs start) (seq (Z.to_nat turn) (length vs))). split.
  - assert (Hk : forall k t, 0 <= t -> t + Z.of_nat k <= 2 ^ 32 ->
      mapM (fun t => match GetLeader number self' t with
                     | Ok d => Ok (leader d) | Err e => Err e end) (seqZ t (Z.of_nat k))
      = Ok (map (rotated vs start) (seq (Z.to_nat t) k))).
    { induction k as [|k IH]; intros t Ht0 Htk; [done|].
      rewrite seqZ_cons by lia. replace (Z.pred (Z.of_nat (S k))) with (Z.of_nat k) by lia.
      cbn [mapM seq map]. rewrite Hget by (unfold in_u32; lia). simpl.
      rewrite IH by lia. by rewrite Z2Nat.inj_succ by lia. }
    apply Hk; lia.
  - rewrite rotated_seq. apply rotate_Permutation.
Qed.

(** The announced successor does take over: if heights [number] and
    [number + 1] are ordinary with the same validators (listed once each) and
    the block at [number] was led by the leader of turn [turn], then the first
    leader of the next height is the next leader announced for that turn. *)
Theorem nextLeader_takes_over number self1 self2 pre vs s1 s2 turn d :
  0 < number -> number + 1 < 2 ^ 64 ->
  ordinary number -> ordinary (number + 1) ->
  0 < Z.of_nat (length vs) < 2 ^ 32 -> NoDup (map tn_Account vs) ->
  0 <= turn -> turn + 1 < 2 ^ 32 ->
  SetValidators number self1 pre (Some vs) = Ok s1 ->
  GetLeader number s1 turn = Ok d ->
  SetValidators (number + 1) self2 (leader d) (Some vs) = Ok s2 ->
  exists d2, GetLeader (number + 1) s2 0 = Ok d2 /\ leader d2 = nextLeader d.
Proof.
  intros Hn1 Hn2 Ho1 Ho2 Hlen Hnd Ht1 Ht2 Hs1 Hg Hs2.
  destruct (GetLeader_rotated _ _ _ _ _ Ho1 Hlen Hs1) as (st1 & _ & Hg1).
  destruct (GetLeader_rotated _ _ _ _ _ Ho2 Hlen Hs2) as (st2 & Hst2 & Hg2).
  rewrite Hg1 in Hg by (unfold in_u32; lia). injection Hg as <-.
  rewrite Hg2 by done. eexists. split; [done|]. simpl.
  rewrite (u64_small (number + 1)) by (unfold in_u64; lia). rewrite Ho2.
  rewrite (u32_small (turn + 1)) by (unfold in_u32; lia).
  unfold start_of in Hst2. rewrite ordinary_not_reelection in Hst2 by done.
  destruct Hst2 as (v & i & Hi & Ha & ->).
  assert (Hpre : preLeader s2 = rotated vs st1 (Z.to_nat turn)).
  { unfold SetValidators in Hs2. cbv zeta in Hs2.
    replace (number + 1 - 1) with number in Hs2 by lia.
    rewrite (u64_small number) in Hs2 by (unfold in_u64; lia).
    rewrite Ho1 in Hs2. simpl in Hs2.
    destruct (calLeaderList _ _ _); [|done]. by injection Hs2 as <-. }
  rewrite Hpre in Ha. unfold rotated in *.
  set (j := ((st1 + Z.to_nat turn) mod length vs)%nat) in *.
  destruct (lookup_lt_is_Some_2 vs j) as [w Hw]; [apply Nat.mod_upper_bound; lia|].
  rewrite Hw in Ha.
  assert (i = j) as ->.
  { eapply (NoDup_lookup (map tn_Account vs)); [done| |].
    - change (map tn_Account vs) with (tn_Account <$> vs). by rewrite list_lookup_fmap, Hi.
    - change (map tn_Account vs) with (tn_Account <$> vs). by rewrite list_lookup_fmap, Hw, Ha. }
  replace ((S j + Z.to_nat 0) mod length vs)%nat
    with ((st1 + Z.to_nat (turn + 1)) mod length vs)%nat; [done|].
  unfold j. rewrite Nat.add_0_r, <- Nat.add_1_r, Nat.Div0.add_mod_idemp_l. f_equal. lia.
Qed.

End LeaderCal.

Definition validators3 : list TopologyNodeInfo :=
  [mkNode 11 0x2000 RoleValidator 1 0; mkNode 12 0x2001 RoleValidator 1 1;
   mkNode 13 0x2002 RoleValidator 1 2].
(** A chain whose blocks were all led by account 7. *)
Definition chain7 : Chain :=
  mkChain (fun _ => Some (mkHeader 0 0 7 0 0 0 0 0 0 0 0 0 0 [] (mkNetTopology 0 []) [] [] 0 0 []))
          (fun _ _ => None) (fun _ => None).

Lemma GetLeader_fair_witness :
  exists leaders,
    mapM (fun t => match GetLeader 9%N 5 (mkLeaderCal 12 {[0 := 13%N; 1 := 11%N; 2 := 12%N]} validators3) t with
                   | Ok d => Ok (leader d) | Err e => Err e end) (seqZ 4 3) = Ok leaders /\
    leaders ≡ₚ [11; 12; 13]%N.
Proof.
  apply (GetLeader_fair chain7 9%N 5 newLeaderCalculator 12%N validators3 _ 4);
    [reflexivity|simpl; lia|lia|simpl; lia|vm_compute; reflexivity].
Defined.

Lemma nextLeader_takes_over_witness :
  exists d2, GetLeader 9%N 6 (mkLeaderCal 11 {[0 := 12%N; 1 := 13%N; 2 := 11%N]} validators3) 0 = Ok d2
             /\ leader d2 = 12%N.
Proof.
  apply (nextLeader_takes_over chain7 9%N 5 newLeaderCalculator newLeaderCalculator 12%N validators3
    (mkLeaderCal 12 {[0 := 13%N; 1 := 11%N; 2 := 12%N]} validators3)
    (mkLeaderCal 11 {[0 := 12%N; 1 := 13%N; 2 := 11%N]} validators3) 4
    (mkLeaderData 11%N 12%N));
    [lia|lia|reflexivity|reflexivity|simpl; lia| |lia|lia|vm_compute; reflexivity
    |vm_compute; reflexivity|vm_compute; reflexivity].
  apply (bool_decide_unpack _). vm_compute. done.
Defined.

(** After a re-election the rotation restarts from the leader of the last
    ordinary block before it, even though that account need not be among the
    new validators: the height after the re-election block then has no leader
    at all. *)
Lemma leader_lost_after_reelection :
  is_ok (SetValidators chain7 60 newLeaderCalculator 7%N (Some validators3)) = true /\
  SetValidators chain7 61 newLeaderCalculator 9%N (Some validators3) = Err ErrValidatorNotFound.
Proof. split; vm_compute; reflexivity. Qed.

End LeaderCal.
