(* ===== verification/Cdc.v ===== *)
(** * Package [verifier]: the controller's consensus data

    Models verifier/cdc.go: the consensus and re-election turns of one height
    with their leaders, and the reader of validators the DPOS engine gets. *)

From S2P Require Import Prelude Common Types Topology Dpos TurnTimes LeaderCal.

Record cdc := mkCdc {
  cd_state : state;
  number : Z;
  curConsensusTurn : Z;
  consensusLeader : Address;
  curReelectTurn : Z;
  reelectMaster : Address;
  leaderCal : LeaderCal.leaderCalculator;
  turnTime : TurnTimes.turnTimes
}.

Module Cdc.

Definition newCDC (number : Z) : cdc :=
  mkCdc stIdle number 0 0%N 0 0%N LeaderCal.newLeaderCalculator TurnTimes.newTurnTimes.

Definition set_state (dc : cdc) (st : state) : cdc :=
  mkCdc st (number dc) (curConsensusTurn dc) (consensusLeader dc) (curReelectTurn dc)
    (reelectMaster dc) (leaderCal dc) (turnTime dc).
Definition set_turnTime (dc : cdc) (t : TurnTimes.turnTimes) : cdc :=
  mkCdc (cd_state dc) (number dc) (curConsensusTurn dc) (consensusLeader dc) (curReelectTurn dc)
    (reelectMaster dc) (leaderCal dc) t.
Definition set_leaderCal (dc : cdc) (lc : LeaderCal.leaderCalculator) : cdc :=
  mkCdc (cd_state dc) (number dc) (curConsensusTurn dc) (consensusLeader dc) (curReelectTurn dc)
    (reelectMaster dc) lc (turnTime dc).
Definition set_reelect (dc : cdc) (turn : Z) (master : Address) : cdc :=
  mkCdc (cd_state dc) (number dc) (curConsensusTurn dc) (consensusLeader dc) turn master
    (leaderCal dc) (turnTime dc).
Definition set_consensus (dc : cdc) (turn : Z) (leader : Address) : cdc :=
  mkCdc (cd_state dc) (number dc) turn leader (curReelectTurn dc) (reelectMaster dc)
    (leaderCal dc) (turnTime dc).
(** The direct assignment [dc.curReelectTurn = 0] of the handlers. *)
Definition clear_reelectTurn (dc : cdc) : cdc := set_reelect dc 0 (reelectMaster dc).

Section Cdc.
Context (chain : Chain) (broadcastNode : Address).

Definition GetLeader (dc : cdc) (turn : Z) : res leader_error Address :=
  match LeaderCal.GetLeader broadcastNode (number dc) (leaderCal dc) turn with
  | Err e => Err e
  | Ok leaders => Ok (leader leaders)
  end.

Definition SetValidators (dc : cdc) (preLeader : Address)
    (validators : option (list TopologyNodeInfo)) : cdc * option leader_error :=
  match LeaderCal.SetValidators chain (number dc) (leaderCal dc) preLeader validators with
  | Err err => (dc, Some err)
  | Ok lc =>
      let dc := set_leaderCal dc lc in
      match GetLeader dc (curConsensusTurn dc) with
      | Err err => (dc, Some err)
      | Ok consensusLeader =>
          if negb (curReelectTurn dc =? 0) then
            match GetLeader dc (u32 (curConsensusTurn dc + curReelectTurn dc)) with
            | Err err => (dc, Some err)
            | Ok reelectLeader =>
                (set_consensus (set_reelect dc (curReelectTurn dc) reelectLeader)
                   (curConsensusTurn dc) consensusLeader, None)
            end
          else
            (set_consensus (set_reelect dc (curReelectTurn dc) 0%N)
               (curConsensusTurn dc) consensusLeader, None)
      end
  end.

Definition SetConsensusTurn (dc : cdc) (consensusTurn : Z) : cdc * option leader_error :=
  match GetLeader dc consensusTurn with
  | Err err => (dc, Some err)
  | Ok consensusLeader =>
      (set_reelect (set_consensus dc consensusTurn consensusLeader) 0 0%N, None)
  end.

Definition SetReelectTurn (dc : cdc) (reelectTurn : Z) : cdc * option leader_error :=
  if curReelectTurn dc =? reelectTurn then (dc, None)
  else if reelectTurn =? 0 then (set_reelect dc 0 0%N, None)
  else
    match GetLeader dc (u32 (curConsensusTurn dc + reelectTurn)) with
    | Err err => (dc, Some err)
    | Ok master => (set_reelect dc reelectTurn master, None)
    end.

Definition PrepareLeaderMsg (dc : cdc) : res leader_error LeaderChangeNotify :=
  let? leaders := LeaderCal.GetLeader broadcastNode (number dc) (leaderCal dc)
                    (u32 (curConsensusTurn dc + curReelectTurn dc)) in
  Ok (mkLeaderChange (negb (bool_decide (cd_state dc = stReelect)))
        (leader leaders) (nextLeader leaders) (number dc)
        (curConsensusTurn dc) (curReelectTurn dc)
        (TurnTimes.GetBeginTime (turnTime dc) (curConsensusTurn dc))
        (TurnTimes.GetPosEndTime (turnTime dc) (curConsensusTurn dc))).

(** [dc] as the [consensus.ValidatorReader] passed to the engine. *)
Definition reader_of (dc : cdc) : ValidatorReader :=
  mkReader (u64 (number dc - 1))
    (fun n =>
       if number dc <=? n then None
       else match chain_GetValidatorByNumber chain n with
            | Some validators => Some validators
            | None => if n =? u64 (number dc - 1) then LeaderCal.GetValidators (leaderCal dc)
                      else None
            end).

(** ** Turns and leaders agree *)

(** Once leaders are known, the stored consensus leader and re-election
    master are the ones of the stored turns. *)
Definition cdc_ok (dc : cdc) : Prop :=
  in_u32 (curConsensusTurn dc) /\ in_u32 (curReelectTurn dc) /\
  match GetLeader dc (curConsensusTurn dc) with
  | Err _ => True
  | Ok l => consensusLeader dc = l /\
      (curReelectTurn dc <> 0 ->
       GetLeader dc (u32 (curConsensusTurn dc + curReelectTurn dc)) = Ok (reelectMaster dc))
  end.

(** [GetLeader] fails for all turns or for none. *)
Lemma GetLeader_total dc t1 t2 l1 :
  GetLeader dc t1 = Ok l1 -> exists l2, GetLeader dc t2 = Ok l2.
Proof. unfold GetLeader, LeaderCal.GetLeader. repeat case_match; intros; simplify_eq; eauto. Qed.

Lemma newCDC_ok n : cdc_ok (newCDC n).
Proof. by repeat split. Qed.

(** [GetLeader] reads only the height and the leader list. *)
Ltac same_leader E :=
  match type of E with
  | GetLeader ?d0 ?t0 = _ =>
      match goal with
      | |- match GetLeader ?d ?t with _ => _ end =>
          change (GetLeader d t) with (GetLeader d0 t0); rewrite E
      end
  end.

(** Every operation on the turn data keeps the stored leaders in step with
    the stored turns. *)
Lemma cdc_ok_ops dc pre vs turn :
  cdc_ok dc -> in_u32 turn ->
  cdc_ok (SetValidators dc pre vs).1 /\
  cdc_ok (SetConsensusTurn dc turn).1 /\
  cdc_ok (SetReelectTurn dc turn).1.
Proof.
  intros (Hc & Hr & Hok) Ht. split_and!.
  - unfold SetValidators.
    destruct (LeaderCal.SetValidators _ _ _ _ _) as [lc|e]; [|by split_and!].
    set (dc1 := set_leaderCal dc lc).
    destruct (GetLeader dc1 (curConsensusTurn dc1)) as [l|e] eqn:E1.
    + destruct (Z.eqb_spec (curReelectTurn dc1) 0) as [E0|E0].
      * split_and!; [done|done|]. same_leader E1. done.
      * destruct (GetLeader_total dc1 _ (u32 (curConsensusTurn dc1 + curReelectTurn dc1)) _ E1)
          as [l2 E2]. rewrite E2.
        split_and!; [done|done|]. same_leader E1. split; [done|]. intros _. exact E2.
    + split_and!; [done|done|]. same_leader E1. done.
  - unfold SetConsensusTurn. destruct (GetLeader dc turn) as [l|] eqn:E; [|by split_and!].
    split_and!; [done|done|]. same_leader E. done.
  - unfold SetReelectTurn.
    destruct (Z.eqb_spec (curReelectTurn dc) turn); [by split_and!|].
    destruct (GetLeader dc (curConsensusTurn dc)) as [l|] eqn:E1;
      destruct (Z.eqb_spec turn 0) as [->|].
    + split_and!; [done|done|]. same_leader E1. by destruct Hok.
    + destruct (GetLeader dc (u32 (curConsensusTurn dc + turn))) as [m|] eqn:E.
      * split_and!; [done|done|]. same_leader E1. destruct Hok. split; [done|]. intros _. exact E.
      * split_and!; [done|done|]. simpl. by rewrite E1.
    + split_and!; [done|done|]. same_leader E1. done.
    + destruct (GetLeader dc (u32 (curConsensusTurn dc + turn))) as [m|] eqn:E.
      * split_and!; [done|done|]. same_leader E1. done.
      * split_and!; [done|done|]. simpl. by rewrite E1.
Qed.

Lemma cdc_ok_clear_reelectTurn dc : cdc_ok dc -> cdc_ok (clear_reelectTurn dc).
Proof.
  intros (Hc & Hr & Hok). split_and!; [done|done|].
  destruct (GetLeader dc (curConsensusTurn dc)) as [l|] eqn:E.
  - same_leader E. by destruct Hok.
  - same_leader E. done.
Qed.

End Cdc.
End Cdc.
