(* ===== verification/MsgPool.v ===== *)
(** * Package [verifier]: the message pool and the re-election master's cache

    Models verifier/msgPool.go (module [MsgPool]) and verifier/masterCache.go
    (module [MasterCache]).  Messages are non-nil; the readings of
    [time.Now().Unix()] and the node's own address [ca.GetAddress()] are
    arguments.  Error values carry no text. *)

From S2P Require Import Prelude Common Crypto Types TurnTimes.

Inductive pool_error :=
| ErrMsgIsNil | ErrMsgExistInCache | ErrNoMsgInCache | ErrMsgExpired
| ErrSelfReqIsNil | ErrBroadcastIsNil | ErrHashMismatch | ErrSignExist
| ErrSignParse (e : Signature.error) | ErrSignFrom | ErrSignDisagree
| ErrResultExists | ErrResultType | ErrResultNotAgree | ErrNoResult.

Module MsgPool.

Record msgPool := mkMsgPool {
  parentHeader : option Header;
  posNotifyCache : list BlockPOSFinishedNotify;
  inquiryReqCache : gmap Address HD_ReelectInquiryReqMsg;
  rlConsensusCache : gmap Z HD_ReelectLeaderConsensus
}.

Definition newMsgPool : msgPool := mkMsgPool None [] ∅ ∅.

Definition SavePOSNotifyMsg (mp : msgPool) (msg : BlockPOSFinishedNotify)
    : msgPool * option pool_error :=
  if bool_decide (Leader (pf_Header msg) = 0%N) then (mp, Some ErrMsgIsNil)
  else if existsb (fun oldMsg => (pf_ConsensusTurn oldMsg =? pf_ConsensusTurn msg) &&
                     bool_decide (Leader (pf_Header oldMsg) = Leader (pf_Header msg)))
            (posNotifyCache mp)
  then (mp, Some ErrMsgExistInCache)
  else (mkMsgPool (parentHeader mp) (posNotifyCache mp ++ [msg]) (inquiryReqCache mp)
          (rlConsensusCache mp), None).

(** The loop compares each message with itself, so the arguments are unused
    and the first message is returned. *)
Fixpoint find_pos (l : list BlockPOSFinishedNotify) : res pool_error BlockPOSFinishedNotify :=
  match l with
  | [] => Err ErrNoMsgInCache
  | msg :: rest =>
      if (pf_ConsensusTurn msg =? pf_ConsensusTurn msg) &&
         bool_decide (Leader (pf_Header msg) = Leader (pf_Header msg))
      then Ok msg else find_pos rest
  end.

Definition GetPOSNotifyMsg (mp : msgPool) (leader : Address) (consensusTurn : Z)
    : res pool_error BlockPOSFinishedNotify := find_pos (posNotifyCache mp).

Definition SaveInquiryReqMsg (mp : msgPool) (msg : HD_ReelectInquiryReqMsg) : msgPool :=
  if bool_decide (iq_From msg = 0%N) then mp
  else
    let save := mkMsgPool (parentHeader mp) (posNotifyCache mp)
                  (<[iq_From msg := msg]> (inquiryReqCache mp)) (rlConsensusCache mp) in
    match inquiryReqCache mp !! iq_From msg with
    | Some old => if iq_TimeStamp msg <? iq_TimeStamp old then mp else save
    | None => save
    end.

(** [now] is the clock reading. *)
Definition GetInquiryReqMsg (mp : msgPool) (leader : Address) (now : Z)
    : msgPool * res pool_error HD_ReelectInquiryReqMsg :=
  match inquiryReqCache mp !! leader with
  | None => (mp, Err ErrNoMsgInCache)
  | Some msg =>
      let passTime := i64 (now - iq_TimeStamp msg) in
      if TurnTimes.LRSReelectInterval <? passTime then
        (mkMsgPool (parentHeader mp) (posNotifyCache mp) (delete leader (inquiryReqCache mp))
           (rlConsensusCache mp), Err ErrMsgExpired)
      else (mp, Ok msg)
  end.

Definition SaveRLConsensusMsg (mp : msgPool) (msg : HD_ReelectLeaderConsensus) : msgPool :=
  let inq := lr_InquiryReq (lc_Req msg) in
  if bool_decide (iq_Master inq = 0%N) then mp
  else
    let consensusTurn := u32 (iq_ConsensusTurn inq + iq_ReelectTurn inq) in
    mkMsgPool (parentHeader mp) (posNotifyCache mp) (inquiryReqCache mp)
      (<[consensusTurn := msg]> (rlConsensusCache mp)).

Definition GetRLConsensusMsg (mp : msgPool) (consensusTurn : Z)
    : res pool_error HD_ReelectLeaderConsensus :=
  match rlConsensusCache mp !! consensusTurn with
  | None => Err ErrNoMsgInCache
  | Some msg => Ok msg
  end.

Definition SaveParentHeader (mp : msgPool) (header : option Header) : msgPool :=
  match header with
  | None => mp
  | Some _ => mkMsgPool header (posNotifyCache mp) (inquiryReqCache mp) (rlConsensusCache mp)
  end.

Definition GetParentHeader (mp : msgPool) : option Header := parentHeader mp.

(** The cached notifications have non-zero leaders and distinct (turn, leader). *)
Definition pool_ok (mp : msgPool) : Prop :=
  Forall (fun m => Leader (pf_Header m) <> 0%N) (posNotifyCache mp) /\
  NoDup (map (fun m => (pf_ConsensusTurn m, Leader (pf_Header m))) (posNotifyCache mp)) /\
  map_Forall (fun a m => iq_From m = a) (inquiryReqCache mp).

Lemma SavePOSNotifyMsg_ok mp msg : pool_ok mp -> pool_ok (SavePOSNotifyMsg mp msg).1.
Proof.
  intros (Hl & Hnd & Hq). unfold SavePOSNotifyMsg. case_bool_decide; [by split_and!|].
  destruct (existsb _ _) eqn:E; [by split_and!|]. split_and!; simpl.
  - apply Forall_app. split; [done|]. by constructor.
  - rewrite map_app. apply NoDup_app. split; [done|]. split.
    + intros k Hk Hin. apply list_elem_of_singleton in Hin. subst k.
      apply list_elem_of_fmap in Hk as (m & [= Ht Hle] & Hm).
      apply not_true_iff_false in E. apply E, existsb_exists. exists m.
      split; [by apply list_elem_of_In|]. rewrite Ht, Hle, Z.eqb_refl. by rewrite bool_decide_eq_true_2.
    + apply NoDup_singleton.
  - done.
Qed.

Lemma SaveInquiryReqMsg_ok mp msg : pool_ok mp -> pool_ok (SaveInquiryReqMsg mp msg).
Proof.
  intros (Hl & Hnd & Hq). unfold SaveInquiryReqMsg.
  assert (Hs : pool_ok (mkMsgPool (parentHeader mp) (posNotifyCache mp)
    (<[iq_From msg := msg]> (inquiryReqCache mp)) (rlConsensusCache mp))).
  { split_and!; [done|done|]. by apply map_Forall_insert_2. }
  repeat case_match; try done; by split_and!.
Qed.

(** The lookup of a POS notification ignores the leader and the turn it is
    asked for. *)
Lemma GetPOSNotifyMsg_any mp l1 t1 l2 t2 : GetPOSNotifyMsg mp l1 t1 = GetPOSNotifyMsg mp l2 t2.
Proof. done. Qed.

Lemma find_pos_head l : find_pos l = match l with [] => Err ErrNoMsgInCache | m :: _ => Ok m end.
Proof. destruct l; simpl; [done|]. rewrite Z.eqb_refl, bool_decide_eq_true_2; done. Qed.

End MsgPool.

Module MasterCache.

Abbreviation signs := (gmap Address VerifiedSign).

Record masterCache := mkMasterCache {
  mc_number : Z;
  inquiryResult : ReelectRSPType;
  inquiryHash : Hash;
  inquiryMsg : option HD_ReelectInquiryReqMsg;
  inquiryAgreeSignCache : signs;
  rlReqMsg : option HD_ReelectLeaderReqMsg;
  rlReqHash : Hash;
  rlVoteCache : signs;
  resultBroadcastHash : Hash;
  resultBroadcastMsg : option HD_ReelectResultBroadcastMsg;
  resultRspCache : signs
}.

Definition newMasterCache (number : Z) : masterCache :=
  mkMasterCache number ReelectRSPTypeNone 0%N None ∅ None 0%N ∅ 0%N None ∅.

Section MasterCache.
Context `{GoRange} `{Crypto}.

Definition SetInquiryReq (self : masterCache) (req : HD_ReelectInquiryReqMsg)
    : masterCache * Hash :=
  let h := Types.RlpHash req in
  (mkMasterCache (mc_number self) ReelectRSPTypeNone h (Some req) ∅ None 0%N ∅ 0%N None ∅, h).

Definition ClearSelfInquiryMsg (self : masterCache) : masterCache :=
  mkMasterCache (mc_number self) ReelectRSPTypeNone 0%N None ∅ None 0%N ∅ 0%N None ∅.

Definition CheckInquiryRspMsg (self : masterCache) (rsp : HD_ReelectInquiryRspMsg)
    : option pool_error :=
  if bool_decide (inquiryHash self = 0%N) then Some ErrSelfReqIsNil
  else if negb (bool_decide (ir_ReqHash rsp = inquiryHash self)) then Some ErrHashMismatch
  else None.

(** The checks shared by the three signature caches: the cached entry, or why
    the signature is refused. *)
Definition check_sign (cache : signs) (hash : Hash) (sign : Signature) (from : Address)
    : res pool_error signs :=
  match cache !! from with
  | Some _ => Err ErrSignExist
  | None =>
      match Signature.VerifySignWithValidate hash sign with
      | Err err => Err (ErrSignParse err)
      | Ok (signAccount, validate) =>
          if negb (bool_decide (signAccount = from)) then Err ErrSignFrom
          else if negb validate then Err ErrSignDisagree
          else Ok (<[signAccount := mkVerifiedSign sign signAccount validate 0]> cache)
      end
  end.

Definition set_inquiryAgree (self : masterCache) (cache : signs) : masterCache :=
  mkMasterCache (mc_number self) (inquiryResult self) (inquiryHash self) (inquiryMsg self) cache
    (rlReqMsg self) (rlReqHash self) (rlVoteCache self) (resultBroadcastHash self)
    (resultBroadcastMsg self) (resultRspCache self).

Definition SaveInquiryAgreeSign (self : masterCache) (reqHash : Hash) (sign : Signature)
    (from : Address) : masterCache * option pool_error :=
  match check_sign (inquiryAgreeSignCache self) reqHash sign from with
  | Err e => (self, Some e)
  | Ok cache => (set_inquiryAgree self cache, None)
  end.

Definition GetInquiryAgreeSigns (self : masterCache) : list VerifiedSign :=
  range_values (inquiryAgreeSignCache self).

(** [inquiryMsg] is nil only when no inquiry was set; the code then builds a
    request with a nil inquiry, which has no counterpart here. *)
Definition SetInquiryResultAgree (self : masterCache) (rightSign : list Signature)
    : masterCache * option pool_error :=
  if negb (bool_decide (inquiryResult self = ReelectRSPTypeNone)) then (self, Some ErrResultExists)
  else
    (mkMasterCache (mc_number self) ReelectRSPTypeAgree 0%N None ∅
       ((fun q => mkLeaderReq q rightSign 0) <$> inquiryMsg self) (rlReqHash self)
       (rlVoteCache self) (resultBroadcastHash self) (resultBroadcastMsg self)
       (resultRspCache self), None).

Definition SetInquiryResultNotAgree (self : masterCache) (own : Address)
    (result : ReelectRSPType) (rsp : HD_ReelectInquiryRspMsg)
    : masterCache * option pool_error :=
  if negb (bool_decide (result = ReelectRSPTypePOS)) &&
     negb (bool_decide (result = ReelectRSPTypeAlreadyRL)) then (self, Some ErrResultType)
  else if negb (bool_decide (inquiryResult self = ReelectRSPTypeNone))
  then (self, Some ErrResultExists)
  else
    (mkMasterCache (mc_number self) result 0%N None ∅ None (rlReqHash self) (rlVoteCache self)
       (resultBroadcastHash self)
       (Some (mkResultBroadcast (mc_number self) result (ir_POSResult rsp) (ir_RLResult rsp) 0 own))
       (resultRspCache self), None).

Definition SetRLResultBroadcastSuccess (self : masterCache) (own : Address) (now : Z)
    (sgns : list Signature) : masterCache * option pool_error :=
  if negb (bool_decide (inquiryResult self = ReelectRSPTypeAgree)) then (self, Some ErrResultNotAgree)
  else
    let rlResult := (fun req => mkLeaderConsensus req sgns now) <$> rlReqMsg self in
    (mkMasterCache (mc_number self) (inquiryResult self) (inquiryHash self) (inquiryMsg self)
       (inquiryAgreeSignCache self) (rlReqMsg self) (rlReqHash self) (rlVoteCache self)
       (resultBroadcastHash self)
       (Some (mkResultBroadcast (mc_number self) ReelectRSPTypeAgree None rlResult 0 own))
       (resultRspCache self), None).

(** The result stored by [SetRLResultBroadcastSuccess] points to the request
    object itself, so a later change of the request shows in it. *)
Definition share_request (req : HD_ReelectLeaderReqMsg) (msg : HD_ReelectResultBroadcastMsg)
    : HD_ReelectResultBroadcastMsg :=
  if bool_decide (rb_Type msg = ReelectRSPTypeAgree) then
    mkResultBroadcast (rb_Number msg) (rb_Type msg) (rb_POSResult msg)
      ((fun rl => mkLeaderConsensus req (lc_Votes rl) (lc_TimeStamp rl)) <$> rb_RLResult msg)
      (rb_TimeStamp msg) (rb_From msg)
  else msg.

(** [None] for the request stands for a nil pointer, on which the code panics. *)
Definition GetRLReqMsg (self : masterCache) (now : Z)
    : masterCache * res pool_error (HD_ReelectLeaderReqMsg * Hash) :=
  if negb (bool_decide (inquiryResult self = ReelectRSPTypeAgree)) then (self, Err ErrResultNotAgree)
  else
    match rlReqMsg self with
    | None => (self, Err ErrMsgIsNil)
    | Some req =>
        let req := mkLeaderReq (lr_InquiryReq req) (lr_AgreeSigns req) now in
        let h := Types.RlpHash req in
        (mkMasterCache (mc_number self) (inquiryResult self) (inquiryHash self) (inquiryMsg self)
           (inquiryAgreeSignCache self) (Some req) h ∅ (resultBroadcastHash self)
           (share_request req <$> resultBroadcastMsg self) (resultRspCache self), Ok (req, h))
    end.

Definition SaveRLVote (self : masterCache) (signHash : Hash) (sign : Signature) (from : Address)
    : masterCache * option pool_error :=
  if bool_decide (rlReqHash self = 0%N) then (self, Some ErrSelfReqIsNil)
  else if negb (bool_decide (signHash = rlReqHash self)) then (self, Some ErrHashMismatch)
  else
    match check_sign (rlVoteCache self) signHash sign from with
    | Err e => (self, Some e)
    | Ok cache =>
        (mkMasterCache (mc_number self) (inquiryResult self) (inquiryHash self) (inquiryMsg self)
           (inquiryAgreeSignCache self) (rlReqMsg self) (rlReqHash self) cache
           (resultBroadcastHash self) (resultBroadcastMsg self) (resultRspCache self), None)
    end.

Definition GetRLSigns (self : masterCache) : list VerifiedSign := range_values (rlVoteCache self).

Definition GetResultBroadcastMsg (self : masterCache) (now : Z)
    : masterCache * res pool_error (HD_ReelectResultBroadcastMsg * Hash) :=
  match resultBroadcastMsg self with
  | None => (self, Err ErrNoResult)
  | Some msg =>
      let msg := mkResultBroadcast (rb_Number msg) (rb_Type msg) (rb_POSResult msg)
                   (rb_RLResult msg) now (rb_From msg) in
      let h := Types.RlpHash msg in
      (mkMasterCache (mc_number self) (inquiryResult self) (inquiryHash self) (inquiryMsg self)
         (inquiryAgreeSignCache self) (rlReqMsg self) (rlReqHash self) (rlVoteCache self)
         h (Some msg) ∅, Ok (msg, h))
  end.

Definition GetLocalResultMsg (self : masterCache) : res pool_error HD_ReelectResultBroadcastMsg :=
  match resultBroadcastMsg self with None => Err ErrNoResult | Some msg => Ok msg end.

Definition SaveResultRsp (self : masterCache) (resultHash : Hash) (sign : Signature)
    (from : Address) : masterCache * option pool_error :=
  if bool_decide (resultBroadcastHash self = 0%N) then (self, Some ErrBroadcastIsNil)
  else if negb (bool_decide (resultHash = resultBroadcastHash self)) then (self, Some ErrHashMismatch)
  else
    match check_sign (resultRspCache self) resultHash sign from with
    | Err e => (self, Some e)
    | Ok cache =>
        (mkMasterCache (mc_number self) (inquiryResult self) (inquiryHash self) (inquiryMsg self)
           (inquiryAgreeSignCache self) (rlReqMsg self) (rlReqHash self) (rlVoteCache self)
           (resultBroadcastHash self) (resultBroadcastMsg self) cache, None)
    end.

Definition GetResultRspSigns (self : masterCache) : list VerifiedSign :=
  range_values (resultRspCache self).

(** ** Invariant: the caches hold genuine agreements to the current hashes *)

Definition signs_ok (h : Hash) (cache : signs) : Prop :=
  map_Forall (fun a vs => vs_Account vs = a /\ vs_Validate vs = true /\
    Signature.VerifySignWithValidate h (vs_Sign vs) = Ok (a, true)) cache.

Definition cache_ok (self : masterCache) : Prop :=
  signs_ok (inquiryHash self) (inquiryAgreeSignCache self) /\
  signs_ok (rlReqHash self) (rlVoteCache self) /\
  signs_ok (resultBroadcastHash self) (resultRspCache self) /\
  (inquiryResult self = ReelectRSPTypeNone -> inquiryHash self <> 0%N ->
   is_Some (inquiryMsg self)) /\
  (inquiryResult self = ReelectRSPTypeAgree -> is_Some (rlReqMsg self)).

Lemma signs_ok_empty h : signs_ok h ∅.
Proof. apply map_Forall_empty. Qed.

Lemma check_sign_ok cache h sign from cache' :
  signs_ok h cache -> check_sign cache h sign from = Ok cache' -> signs_ok h cache'.
Proof.
  intros Hc. unfold check_sign. destruct (cache !! from); [done|].
  destruct (Signature.VerifySignWithValidate h sign) as [[a v]|] eqn:Ev; [|done].
  case_bool_decide; [|done]. destruct v; [|done]. intros [= <-].
  apply map_Forall_insert_2; [|done]. simpl. subst. done.
Qed.

Hint Resolve signs_ok_empty : go.

Lemma newMasterCache_ok n : cache_ok (newMasterCache n).
Proof. split_and!; auto with go; done. Qed.

Lemma SetInquiryReq_ok self req : cache_ok (SetInquiryReq self req).1.
Proof. split_and!; simpl; auto with go. done. Qed.

Lemma ClearSelfInquiryMsg_ok self : cache_ok (ClearSelfInquiryMsg self).
Proof. split_and!; simpl; auto with go; done. Qed.

Lemma SaveInquiryAgreeSign_ok self sign from :
  cache_ok self -> cache_ok (SaveInquiryAgreeSign self (inquiryHash self) sign from).1.
Proof.
  intros (H1 & H2 & H3 & H4 & H5). unfold SaveInquiryAgreeSign.
  destruct (check_sign _ _ _ _) eqn:E; [|by split_and!].
  split_and!; simpl; auto. by eapply check_sign_ok.
Qed.

Lemma SetInquiryResultAgree_ok self rs :
  cache_ok self -> is_Some (inquiryMsg self) -> cache_ok (SetInquiryResultAgree self rs).1.
Proof.
  intros (H1 & H2 & H3 & H4 & H5) [q Hq]. unfold SetInquiryResultAgree.
  case_bool_decide; [|by split_and!].
  split_and!; simpl; auto with go; [done|]. by rewrite Hq.
Qed.

Lemma SetInquiryResultNotAgree_ok self own r rsp :
  cache_ok self -> cache_ok (SetInquiryResultNotAgree self own r rsp).1.
Proof.
  intros (H1 & H2 & H3 & H4 & H5). unfold SetInquiryResultNotAgree.
  repeat case_bool_decide; simpl; try by split_and!.
  all: split_and!; simpl; auto with go; subst; done.
Qed.

Lemma SetRLResultBroadcastSuccess_ok self own now rs :
  cache_ok self -> cache_ok (SetRLResultBroadcastSuccess self own now rs).1.
Proof.
  intros (H1 & H2 & H3 & H4 & H5). unfold SetRLResultBroadcastSuccess.
  case_bool_decide; by split_and!.
Qed.

Lemma GetRLReqMsg_ok self now : cache_ok self -> cache_ok (GetRLReqMsg self now).1.
Proof.
  intros (H1 & H2 & H3 & H4 & H5). unfold GetRLReqMsg.
  case_bool_decide; [|by split_and!]. destruct (rlReqMsg self) eqn:E; [|simpl].
  - split_and!; simpl; auto with go; done.
  - split_and!; auto. by rewrite E.
Qed.

Lemma SaveRLVote_ok self h sign from :
  cache_ok self -> cache_ok (SaveRLVote self h sign from).1.
Proof.
  intros (H1 & H2 & H3 & H4 & H5). unfold SaveRLVote.
  case_bool_decide; [by split_and!|]. case_bool_decide; [|by split_and!]. simpl. subst h.
  destruct (check_sign _ _ _ _) eqn:E; [|by split_and!].
  split_and!; simpl; auto. by eapply check_sign_ok.
Qed.

Lemma GetResultBroadcastMsg_ok self now : cache_ok self -> cache_ok (GetResultBroadcastMsg self now).1.
Proof.
  intros (H1 & H2 & H3 & H4 & H5). unfold GetResultBroadcastMsg.
  destruct (resultBroadcastMsg self); split_and!; simpl; auto with go.
Qed.

Lemma SaveResultRsp_ok self h sign from :
  cache_ok self -> cache_ok (SaveResultRsp self h sign from).1.
Proof.
  intros (H1 & H2 & H3 & H4 & H5). unfold SaveResultRsp.
  case_bool_decide; [by split_and!|]. case_bool_decide; [|by split_and!]. simpl. subst h.
  destruct (check_sign _ _ _ _) eqn:E; [|by split_and!].
  split_and!; simpl; auto. by eapply check_sign_ok.
Qed.

Lemma signs_ok_votes h cache :
  signs_ok h cache ->
  Forall (fun v => Signature.VerifySignWithValidate h (vs_Sign v)
                   = Ok (vs_Account v, vs_Validate v)) (range_values cache).
Proof.
  intros Hs. apply Forall_forall. intros vs [a Ha]%range_values_elem_of.
  destruct (Hs a vs Ha) as (-> & -> & ?). done.
Qed.

End MasterCache.
End MasterCache.
