(* ===== verification/Engine.v ===== *)
(** * The interface between the DPOS engine and its clients

    [DPOSEngine] is the part of the Go interface [consensus.DPOSEngine]
    (consensus/consensus.go) that the re-election controller calls;
    [EngineSound] is what the controller relies on: an accepted hash or block
    carries the agreement of a quorum of the validators of the parent's
    topology.  [MtxDPOS] is the implementation of consensus/mtxdpos, and its
    instance of [EngineSound] discharges the interface. *)

From S2P Require Import Prelude Common Crypto Types Topology Dpos.

Class DPOSEngine := {
  engine_error : Type;
  VerifyBlock : ValidatorReader -> Header -> res engine_error unit;
  VerifyHashWithNumber :
    ValidatorReader -> Hash -> list Signature -> Z -> res engine_error (list Signature);
  VerifyHashWithVerifiedSignsAndNumber :
    ValidatorReader -> list VerifiedSign -> Z -> res engine_error (list Signature)
}.

Section Interface.
Context `{Crypto}.

(** The required number of validators of the parent of [number] agreed to
    [h] with signatures among [signs]. *)
Definition has_quorum (reader : ValidatorReader) (number : Z) (h : Hash)
    (signs : list Signature) : Prop :=
  exists g, Dpos.getValidatorGraph reader number = Ok g /\
    (Dpos.graph_fits g ->
     Dpos.required (Z.of_nat (size (Dpos.validators g)))
     <= Z.of_nat (size (Dpos.agreeing h signs (Dpos.graph2ValidatorStocks g)))).

(** The validators of the parent of [number] have stocks of their width. *)
Definition readable (reader : ValidatorReader) (number : Z) : Prop :=
  forall g, Dpos.getValidatorGraph reader number = Ok g -> Dpos.graph_fits g.

Class EngineSound (E : DPOSEngine) (BroadCastNodes : list Address) : Prop := {
  hash_quorum reader h signs number rs :
    VerifyHashWithNumber reader h signs number = Ok rs ->
    has_quorum reader number h signs;
  votes_quorum reader h votes number rs :
    Forall (fun v => Signature.VerifySignWithValidate h (vs_Sign v)
                     = Ok (vs_Account v, vs_Validate v)) votes ->
    VerifyHashWithVerifiedSignsAndNumber reader votes number = Ok rs ->
    has_quorum reader number h (map vs_Sign votes);
  block_quorum reader header :
    VerifyBlock reader header = Ok tt ->
    if Broadcast.IsBroadcastNumber (Uint64 (Number header)) then
      exists sign from, Signatures header = [sign] /\ from ∈ BroadCastNodes /\
        Signature.VerifySignWithValidate (Types.HashNoSignsAndNonce header) sign
        = Ok (from, true)
    else has_quorum reader (Uint64 (Number header)) (Types.HashNoSignsAndNonce header)
           (Signatures header);
  (* an ordinary header that is given the returned signatures is accepted *)
  block_certificate reader header votes rs :
    Forall (fun v => Signature.VerifySignWithValidate (Types.HashNoSignsAndNonce header) (vs_Sign v)
                     = Ok (vs_Account v, vs_Validate v)) votes ->
    readable reader (Uint64 (Number header)) ->
    VerifyHashWithVerifiedSignsAndNumber reader votes (Uint64 (Number header)) = Ok rs ->
    Broadcast.IsBroadcastNumber (Uint64 (Number header)) = false ->
    Signatures header = rs -> VerifyBlock reader header = Ok tt
}.

Context `{GoRange} (BroadCastNodes : list Address).

#[export] Instance MtxDPOS : DPOSEngine :=
  {| engine_error := Dpos.error;
     VerifyBlock := Dpos.VerifyBlock BroadCastNodes;
     VerifyHashWithNumber := Dpos.VerifyHashWithNumber;
     VerifyHashWithVerifiedSignsAndNumber := Dpos.VerifyHashWithVerifiedSignsAndNumber |}.

Lemma number_quorum reader h signs number rs :
  Dpos.VerifyHashWithNumber reader h signs number = Ok rs -> has_quorum reader number h signs.
Proof.
  unfold Dpos.VerifyHashWithNumber, Dpos.getValidatorStocks.
  destruct (Dpos.getValidatorGraph reader number) as [g|] eqn:Eg; [|done]. intros E.
  exists g. split; [done|]. intros Hf. unfold Dpos.validators. rewrite size_dom.
  by eapply Dpos.VerifyHashWithStocks_quorum; [apply Dpos.graph_stocks_ok|].
Qed.

Lemma verified_quorum reader h votes number rs :
  Forall (fun v => Signature.VerifySignWithValidate h (vs_Sign v)
                   = Ok (vs_Account v, vs_Validate v)) votes ->
  Dpos.VerifyHashWithVerifiedSignsAndNumber reader votes number = Ok rs ->
  has_quorum reader number h (map vs_Sign votes).
Proof.
  intros Hv E. rewrite (Dpos.verified_signs_same reader h) in E by done. by eapply number_quorum.
Qed.

Lemma verified_certificate reader header votes rs :
  Forall (fun v => Signature.VerifySignWithValidate (Types.HashNoSignsAndNonce header) (vs_Sign v)
                   = Ok (vs_Account v, vs_Validate v)) votes ->
  readable reader (Uint64 (Number header)) ->
  Dpos.VerifyHashWithVerifiedSignsAndNumber reader votes (Uint64 (Number header)) = Ok rs ->
  Broadcast.IsBroadcastNumber (Uint64 (Number header)) = false ->
  Signatures header = rs -> Dpos.VerifyBlock BroadCastNodes reader header = Ok tt.
Proof.
  intros Hv Hr E Hb <-. rewrite (Dpos.verified_signs_same reader (Types.HashNoSignsAndNonce header))
    in E by done.
  unfold Dpos.VerifyHashWithNumber, Dpos.VerifyBlock, Dpos.getValidatorStocks in *. rewrite Hb.
  destruct (Dpos.getValidatorGraph reader _) as [g|] eqn:Eg; [|done]. 
  destruct (Dpos.stocks_certificate _ _ _ _ (Dpos.graph_stocks_ok _ (Hr g Eg)) E) as (_ & _ & _ & Hok).
  destruct (Dpos.VerifyHashWithStocks _ (Signatures header) _); done.
Qed.

#[export] Instance MtxDPOS_sound : EngineSound MtxDPOS BroadCastNodes.
Proof.
  constructor; [exact number_quorum|exact verified_quorum| |exact verified_certificate].
  apply Dpos.VerifyBlock_accepted.
Qed.

(** C10: The engine of consensus/mtxdpos implements the interface its clients
    rely on: an accepted hash carries agreeing signatures of the required
    number of distinct validators of the parent's topology, whether the
    signatures are verified by the engine or were verified before; an accepted
    ordinary block carries such signatures of its signing hash, and an
    accepted broadcast block exactly one agreeing signature, of a broadcast
    node; and an ordinary header that is given the signatures returned for its
    signing hash is accepted in turn. *)
Theorem MtxDPOS_implements_interface : EngineSound MtxDPOS BroadCastNodes.
Proof.
  constructor.
  - apply number_quorum.
  - apply verified_quorum.
  - apply Dpos.VerifyBlock_accepted.
  - apply verified_certificate.
Qed.

End Interface.
