(* ===== verification/Controller.v ===== *)
(** * Package [verifier]: the re-election controller of one height

    Models verifier/controller.go, ctrlHandle.go and ctrlReelection.go.  The
    goroutine of a controller handles one message or timer at a time, so each
    handler is one function on the controller's state.  Messages sent through
    [HD], events published through [mc] and fetch requests are appended to an
    output trace.  A timer is stopped or armed for a number of seconds; the
    successive readings of [time.Now().Unix()] are taken from a clock stream.

    Parameters: the DPOS engine, the chain reader, the signer and address of
    the node, the POW check of the engine, the clock.  Messages are non-nil.

    [sendInquiryRspWithRLConsensus] passes the leader's address where
    [GetRLConsensusMsg] takes a turn; the model looks up the current turn. *)

From S2P Require Import Prelude Common Crypto Types Topology Dpos TurnTimes LeaderCal Cdc.
From S2P Require Import MsgPool Engine.

(** [big.Int.Int64]. *)
Definition Int64 (z : Z) : Z :=
  let v := i64 (u64 (Z.abs z)) in if z <? 0 then i64 (- v) else v.

Record startControllerMsg := mkStart {
  sm_role : Z;
  sm_validators : option (list TopologyNodeInfo);
  sm_parentHeader : option Header
}.

Record sendNewBlockReadyRsp := mkNewBlockReadyRsp {
  nb_repHash : Hash;
  nb_target : Address;
  nb_rspNumber : Z
}.

Inductive event :=
| SendInquiryReq (req : HD_ReelectInquiryReqMsg)                  (* to all validators *)
| SendInquiryRsp (rsp : HD_ReelectInquiryRspMsg) (target : Address)
| SendRLReq (req : HD_ReelectLeaderReqMsg)                        (* to all validators *)
| SendRLVote (rsp : HD_ReelectLeaderVoteMsg) (target : Address)
| SendResultBroadcast (msg : HD_ReelectResultBroadcastMsg)        (* to all validators *)
| SendResultRsp (rsp : HD_ReelectResultRspMsg) (target : Address)
| PublishLeader (msg : LeaderChangeNotify)
| PublishRecoveryPOS (header : Header) (from : Address)
| PublishRecoveryFullHeader (header : Header) (from : Address)
| FetcherNotify (hash : Hash) (number : Z).

Record controller := mkController {
  dc : cdc;
  mp : MsgPool.msgPool;
  selfCache : MasterCache.masterCache;
  timer : option Z;
  reelectTimer : option Z;
  ticks : nat;               (* clock readings so far *)
  out : list event
}.

Module Controller.

Create Rewrite HintDb ctl.

Definition newController (number : Z) : controller :=
  mkController (Cdc.newCDC number) MsgPool.newMsgPool (MasterCache.newMasterCache number)
    None None 0 [].

Definition set_dc (c : controller) (d : cdc) : controller :=
  mkController d (mp c) (selfCache c) (timer c) (reelectTimer c) (ticks c) (out c).
Definition set_mp (c : controller) (m : MsgPool.msgPool) : controller :=
  mkController (dc c) m (selfCache c) (timer c) (reelectTimer c) (ticks c) (out c).
Definition set_cache (c : controller) (m : MasterCache.masterCache) : controller :=
  mkController (dc c) (mp c) m (timer c) (reelectTimer c) (ticks c) (out c).
Definition tick (c : controller) : controller :=
  mkController (dc c) (mp c) (selfCache c) (timer c) (reelectTimer c) (S (ticks c)) (out c).
Definition emit (c : controller) (e : event) : controller :=
  mkController (dc c) (mp c) (selfCache c) (timer c) (reelectTimer c) (ticks c) (out c ++ [e]).

(** [setTimer]: zero stops the timer. *)
Definition timer_of (outTime : Z) : option Z := if outTime =? 0 then None else Some outTime.
Definition setTimer (outTime : Z) (c : controller) : controller :=
  mkController (dc c) (mp c) (selfCache c) (timer_of outTime) (reelectTimer c) (ticks c) (out c).
Definition setReelectTimer (outTime : Z) (c : controller) : controller :=
  mkController (dc c) (mp c) (selfCache c) (timer c) (timer_of outTime) (ticks c) (out c).

Definition State (c : controller) : state := cd_state (dc c).
Definition set_state (c : controller) (st : state) : controller :=
  set_dc c (Cdc.set_state (dc c) st).

Section Controller.
Context `{GoRange} `{Crypto} `{E : DPOSEngine}.
Context (chain : Chain) (broadcastNode : Address) (own : Address).
Context (SignHash : Hash -> option Signature) (VerifyHeader : Header -> bool).
Context (clock : nat -> Z).

Definition now (c : controller) : Z := clock (ticks c).
Definition reader (c : controller) : ValidatorReader := Cdc.reader_of chain (dc c).

Definition sendLeaderMsg (c : controller) : controller :=
  match Cdc.PrepareLeaderMsg broadcastNode (dc c) with
  | Err _ => c
  | Ok msg => emit c (PublishLeader msg)
  end.

Definition processPOSState (c : controller) : controller :=
  if negb (bool_decide (State c = stPos)) then c
  else
    match MsgPool.GetPOSNotifyMsg (mp c) (consensusLeader (dc c)) (curConsensusTurn (dc c)) with
    | Err _ => c
    | Ok _ => set_state c stMining
    end.

(** ** Sending *)

Definition sendInquiryReq (c : controller) : controller :=
  let req := mkInquiryReq (number (dc c)) (curConsensusTurn (dc c)) (curReelectTurn (dc c))
               (now c) own own in
  let c := tick c in
  let '(cache, reqHash) := MasterCache.SetInquiryReq (selfCache c) req in
  let c := set_cache c cache in
  match SignHash reqHash with
  | None => c
  | Some selfSign =>
      match MasterCache.SaveInquiryAgreeSign (selfCache c) reqHash selfSign own with
      | (cache, Some _) => set_cache c cache
      | (cache, None) => emit (set_cache c cache) (SendInquiryReq req)
      end
  end.

Definition sendInquiryRspWithPOS (reqHash : Hash) (target : Address) (number : Z)
    (c : controller) : controller :=
  match MsgPool.GetPOSNotifyMsg (mp c) (consensusLeader (dc c)) (curConsensusTurn (dc c)) with
  | Err _ => c
  | Ok POSMsg =>
      emit c (SendInquiryRsp
        (mkInquiryRsp number reqHash ReelectRSPTypePOS 0%N
           (Some (mkBlkConsensusReq 0%N (pf_Header POSMsg) 0 (pf_TxsCode POSMsg))) None None 0%N)
        target)
  end.

Definition sendInquiryRspWithAgree (reqHash : Hash) (target : Address) (number : Z)
    (c : controller) : controller :=
  match SignHash reqHash with
  | None => c
  | Some sign =>
      emit c (SendInquiryRsp
        (mkInquiryRsp number reqHash ReelectRSPTypeAgree sign None None None 0%N) target)
  end.

Definition sendInquiryRspWithRLConsensus (reqHash : Hash) (target : Address) (number : Z)
    (c : controller) : controller :=
  match MsgPool.GetRLConsensusMsg (mp c) (curConsensusTurn (dc c)) with
  | Err _ => c
  | Ok consensusMsg =>
      emit c (SendInquiryRsp
        (mkInquiryRsp number reqHash ReelectRSPTypeAlreadyRL 0%N None (Some consensusMsg) None 0%N)
        target)
  end.

Definition sendInquiryRspWithNewBlockReady (reqHash : Hash) (target : Address) (number : Z)
    (c : controller) : controller :=
  match MsgPool.GetParentHeader (mp c) with
  | None => c
  | Some parentHeader =>
      emit c (SendInquiryRsp
        (mkInquiryRsp number reqHash ReelectRSPTypeNewBlockReady 0%N None None
           (Some parentHeader) 0%N) target)
  end.

Definition sendRLReq (c : controller) : controller :=
  match MasterCache.GetRLReqMsg (selfCache c) (now c) with
  | (_, Err _) => c
  | (cache, Ok (req, reqHash)) =>
      let c := set_cache (tick c) cache in
      match SignHash reqHash with
      | None => c
      | Some selfSign =>
          match MasterCache.SaveRLVote (selfCache c) reqHash selfSign own with
          | (cache, Some _) => set_cache c cache
          | (cache, None) => emit (set_cache c cache) (SendRLReq req)
          end
      end
  end.

Definition sendResultBroadcastMsg (c : controller) : controller :=
  match MasterCache.GetResultBroadcastMsg (selfCache c) (now c) with
  | (_, Err _) => c
  | (cache, Ok (msg, msgHash)) =>
      let c := set_cache (tick c) cache in
      match SignHash msgHash with
      | None => c
      | Some selfSign =>
          match MasterCache.SaveResultRsp (selfCache c) msgHash selfSign own with
          | (cache, Some _) => set_cache c cache
          | (cache, None) => emit (set_cache c cache) (SendResultBroadcast msg)
          end
      end
  end.

Definition sendResultBroadcastRsp (req : HD_ReelectResultBroadcastMsg) (c : controller)
    : controller :=
  let resultHash := Types.RlpHash req in
  match SignHash resultHash with
  | None => c
  | Some sign =>
      emit c (SendResultRsp (mkResultRsp (number (dc c)) resultHash sign 0%N) (rb_From req))
  end.

(** ** Starting and finishing a re-election *)

Definition startReelect (reelectTurn : Z) (c : controller) : controller :=
  if negb (bool_decide (State c = stReelect)) then c
  else if curReelectTurn (dc c) =? reelectTurn then c
  else
    match Cdc.SetReelectTurn broadcastNode (dc c) reelectTurn with
    | (d, Some _) => set_dc c d
    | (d, None) =>
        let c := set_dc c d in
        let c := if bool_decide (reelectMaster (dc c) = own)
                 then sendInquiryReq (setReelectTimer TurnTimes.LRSReelectInterval c)
                 else setReelectTimer 0 c in
        sendLeaderMsg c
    end.

Definition finishReelectWithPOS (posResult : HD_BlkConsensusReqMsg) (from : Address)
    (c : controller) : controller :=
  let c := emit c (PublishRecoveryPOS (bcr_Header posResult) from) in
  let c := setReelectTimer 0 (setTimer 0 c) in
  let c := set_state c stMining in
  let c := set_dc c (Cdc.SetReelectTurn broadcastNode (dc c) 0).1 in
  let c := set_cache c (MasterCache.ClearSelfInquiryMsg (selfCache c)) in
  sendLeaderMsg c.

(** The consensus turn a leader consensus result moves to. *)
Definition result_turn (rlResult : HD_ReelectLeaderConsensus) : Z :=
  let inq := lr_InquiryReq (lc_Req rlResult) in
  u32 (iq_ConsensusTurn inq + iq_ReelectTurn inq).

(** The tail shared by [handleStartMsg] and [finishReelectWithRLConsensus]:
    enter the phase that the begin time of the turn dictates. *)
Definition enter_phase (consensusTurn : Z) (c : controller) : controller :=
  let curTime := now c in
  let c := tick c in
  let '(st, remainTime, reelectTurn) := TurnTimes.CalState (turnTime (dc c)) consensusTurn curTime in
  let c := set_dc c (Cdc.clear_reelectTurn (Cdc.set_state (dc c) st)) in
  let c := setTimer remainTime c in
  if bool_decide (st = stPos) then processPOSState c
  else if bool_decide (st = stReelect) then startReelect reelectTurn c
  else c.

Definition finishReelectWithRLConsensus (rlResult : HD_ReelectLeaderConsensus) (c : controller)
    : controller :=
  let consensusTurn := result_turn rlResult in
  match Cdc.SetConsensusTurn broadcastNode (dc c) consensusTurn with
  | (d, Some _) => set_dc c d
  | (d, None) =>
      let c := setReelectTimer 0 (set_dc c d) in
      let c := set_cache c (MasterCache.ClearSelfInquiryMsg (selfCache c)) in
      let c := set_dc c (Cdc.set_turnTime (dc c)
        (TurnTimes.SetBeginTime (turnTime (dc c)) consensusTurn (lr_TimeStamp (lc_Req rlResult))).1) in
      sendLeaderMsg (enter_phase consensusTurn c)
  end.

(** [processResultBroadcastMsg]: the new state, and whether it returned nil. *)
Definition processResultBroadcastMsg (msg : HD_ReelectResultBroadcastMsg) (c : controller)
    : controller * bool :=
  match rb_Type msg with
  | ReelectRSPTypePOS =>
      match rb_POSResult msg with
      | None => (c, false)
      | Some posResult =>
          if negb (bool_decide (Leader (bcr_Header posResult) = consensusLeader (dc c)))
          then (c, false)
          else match VerifyBlock (reader c) (bcr_Header posResult) with
               | Err _ => (c, false)
               | Ok _ => (finishReelectWithPOS posResult (rb_From msg) c, true)
               end
      end
  | ReelectRSPTypeAgree | ReelectRSPTypeAlreadyRL =>
      match rb_RLResult msg with
      | None => (c, false)
      | Some rlResult =>
          if result_turn rlResult <? curConsensusTurn (dc c) then (c, false)
          else if lc_TimeStamp rlResult <? lr_TimeStamp (lc_Req rlResult) then (c, false)
          else match VerifyHashWithNumber (reader c) (Types.RlpHash (lc_Req rlResult))
                       (lc_Votes rlResult) (number (dc c)) with
               | Err _ => (c, false)
               | Ok _ => (finishReelectWithRLConsensus rlResult c, true)
               end
      end
  | _ => (c, false)
  end.

(** ** Handlers *)

Definition handleStartMsg (msg : startControllerMsg) (c : controller) : controller :=
  match sm_parentHeader msg with
  | None => c
  | Some parentHeader =>
      if negb (sm_role msg =? RoleValidator)
      then set_mp c (MsgPool.SaveParentHeader (mp c) (Some parentHeader))
      else
        match Cdc.SetValidators chain broadcastNode (dc c) (Leader parentHeader)
                (sm_validators msg) with
        | (d, Some _) => set_dc c d
        | (d, None) =>
            let c := set_dc c d in
            if Broadcast.IsBroadcastNumber (number (dc c)) then
              let c := sendLeaderMsg (set_state c stIdle) in
              set_mp c (MsgPool.SaveParentHeader (mp c) (Some parentHeader))
            else
              let '(t, updated) :=
                TurnTimes.SetBeginTime (turnTime (dc c)) 0 (Int64 (Time parentHeader)) in
              let c := set_dc c (Cdc.set_turnTime (dc c) t) in
              let c :=
                if updated : bool then
                  let c := set_mp c (MsgPool.SaveParentHeader (mp c) (Some parentHeader)) in
                  if curConsensusTurn (dc c) =? 0 then enter_phase 0 c else c
                else c in
              sendLeaderMsg c
        end
  end.

Definition handleBlockPOSFinishedNotify (msg : BlockPOSFinishedNotify) (c : controller)
    : controller :=
  processPOSState (set_mp c (MsgPool.SavePOSNotifyMsg (mp c) msg).1).

Definition timeOutHandle (c : controller) : controller :=
  match State c with
  | stPos =>
      let remainTime := TurnTimes.CalRemainTime (turnTime (dc c)) (curConsensusTurn (dc c)) 1 (now c) in
      startReelect 1 (set_state (setTimer remainTime (tick c)) stReelect)
  | stReelect =>
      let reelectTurn := u32 (curReelectTurn (dc c) + 1) in
      let remainTime := TurnTimes.CalRemainTime (turnTime (dc c)) (curConsensusTurn (dc c))
                          reelectTurn (now c) in
      startReelect reelectTurn (setTimer remainTime (tick c))
  | _ => c
  end.

Definition reelectTimeOutHandle (c : controller) : controller :=
  if negb (bool_decide (State c = stReelect)) then c
  else
    let c := match MasterCache.inquiryResult (selfCache c) with
             | ReelectRSPTypeAgree => sendRLReq c
             | ReelectRSPTypePOS | ReelectRSPTypeAlreadyRL => sendResultBroadcastMsg c
             | _ => sendInquiryReq c
             end in
    setReelectTimer TurnTimes.LRSReelectInterval c.

Definition handleInquiryReq (req : HD_ReelectInquiryReqMsg) (c : controller) : controller :=
  if bool_decide (State c = stIdle) then c
  else if negb (bool_decide (iq_Master req = iq_From req)) then c
  else
    match Cdc.GetLeader broadcastNode (dc c) (u32 (iq_ConsensusTurn req + iq_ReelectTurn req)) with
    | Err _ => c
    | Ok master =>
        if negb (bool_decide (master = iq_From req)) then c
        else if curConsensusTurn (dc c) <? iq_ConsensusTurn req then
          set_mp c (MsgPool.SaveInquiryReqMsg (mp c) req)
        else if iq_ConsensusTurn req =? curConsensusTurn (dc c) then
          match State c with
          | stMining => sendInquiryRspWithPOS (Types.RlpHash req) (iq_From req) (iq_Number req) c
          | stReelect =>
              if negb (iq_ReelectTurn req =? curReelectTurn (dc c)) then c
              else sendInquiryRspWithAgree (Types.RlpHash req) (iq_From req) (iq_Number req) c
          | _ => c
          end
        else sendInquiryRspWithRLConsensus (Types.RlpHash req) (iq_From req) (iq_Number req) c
    end.

Definition processNewBlockReadyRsp (header : option Header) (from : Address) (c : controller)
    : controller :=
  match header with
  | None => c
  | Some header =>
      let number := Uint64 (Number header) in
      match GetHeader chain (ParentHash header) (u64 (number - 1)) with
      | None => emit c (FetcherNotify (ParentHash header) (u64 (number - 1)))
      | Some _ =>
          if negb (VerifyHeader header) then c
          else match VerifyBlock (reader c) header with
               | Err _ => c
               | Ok _ => emit c (PublishRecoveryFullHeader header from)
               end
      end
  end.

Definition handleInquiryRsp (rsp : HD_ReelectInquiryRspMsg) (c : controller) : controller :=
  if negb (bool_decide (MasterCache.inquiryResult (selfCache c) = ReelectRSPTypeNone)) then c
  else
    match MasterCache.CheckInquiryRspMsg (selfCache c) rsp with
    | Some _ => c
    | None =>
        match ir_Type rsp with
        | ReelectRSPTypeNewBlockReady => processNewBlockReadyRsp (ir_NewBlock rsp) (ir_From rsp) c
        | ReelectRSPTypePOS | ReelectRSPTypeAlreadyRL =>
            match MasterCache.SetInquiryResultNotAgree (selfCache c) own (ir_Type rsp) rsp with
            | (_, Some _) => c
            | (cache, None) => sendResultBroadcastMsg (set_cache c cache)
            end
        | ReelectRSPTypeAgree =>
            match MasterCache.SaveInquiryAgreeSign (selfCache c) (ir_ReqHash rsp)
                    (ir_AgreeSign rsp) (ir_From rsp) with
            | (_, Some _) => c
            | (cache, None) =>
                let c := set_cache c cache in
                let signs := MasterCache.GetInquiryAgreeSigns (selfCache c) in
                match VerifyHashWithVerifiedSignsAndNumber (reader c) signs (number (dc c)) with
                | Err _ => c
                | Ok rightSigns =>
                    match MasterCache.SetInquiryResultAgree (selfCache c) rightSigns with
                    | (_, Some _) => c
                    | (cache, None) => sendRLReq (set_cache c cache)
                    end
                end
            end
        | ReelectRSPTypeNone => c
        end
    end.

Definition checkRLReqMsg (req : HD_ReelectLeaderReqMsg) (c : controller) : bool :=
  let inq := lr_InquiryReq req in
  (iq_ConsensusTurn inq =? curConsensusTurn (dc c)) &&
  (iq_ReelectTurn inq =? curReelectTurn (dc c)) &&
  bool_decide (iq_Master inq = iq_From inq) &&
  bool_decide (iq_Master inq = reelectMaster (dc c)) &&
  negb (lr_TimeStamp req <? iq_TimeStamp inq) &&
  is_ok (VerifyHashWithNumber (reader c) (Types.RlpHash inq) (lr_AgreeSigns req) (number (dc c))).

Definition handleRLReq (req : HD_ReelectLeaderReqMsg) (c : controller) : controller :=
  if negb (bool_decide (State c = stReelect)) then c
  else if negb (checkRLReqMsg req c) then c
  else
    let hash := Types.RlpHash req in
    match SignHash hash with
    | None => c
    | Some sign =>
        emit c (SendRLVote
          (mkLeaderVote (mkVote hash (u32 (curReelectTurn (dc c) + curConsensusTurn (dc c))) sign 0%N)
             (number (dc c))) (iq_From (lr_InquiryReq req)))
    end.

Definition handleRLVote (msg : HD_ReelectLeaderVoteMsg) (c : controller) : controller :=
  let vote := lv_Vote msg in
  match MasterCache.SaveRLVote (selfCache c) (cv_SignHash vote) (cv_Sign vote) (cv_From vote) with
  | (_, Some _) => c
  | (cache, None) =>
      let c := set_cache c cache in
      match VerifyHashWithVerifiedSignsAndNumber (reader c)
              (MasterCache.GetRLSigns (selfCache c)) (number (dc c)) with
      | Err _ => c
      | Ok rightSigns =>
          match MasterCache.SetRLResultBroadcastSuccess (selfCache c) own (now c) rightSigns with
          | (_, Some _) => c
          | (cache, None) => sendResultBroadcastMsg (set_cache (tick c) cache)
          end
      end
  end.

Definition handleResultBroadcastMsg (msg : HD_ReelectResultBroadcastMsg) (c : controller)
    : controller :=
  match processResultBroadcastMsg msg c with
  | (c, false) => c
  | (c, true) => sendResultBroadcastRsp msg c
  end.

Definition handleResultRsp (rsp : HD_ReelectResultRspMsg) (c : controller) : controller :=
  match MasterCache.SaveResultRsp (selfCache c) (rr_ResultHash rsp) (rr_Sign rsp) (rr_From rsp) with
  | (_, Some _) => c
  | (cache, None) =>
      let c := set_cache c cache in
      match VerifyHashWithVerifiedSignsAndNumber (reader c)
              (MasterCache.GetResultRspSigns (selfCache c)) (number (dc c)) with
      | Err _ => c
      | Ok _ =>
          match MasterCache.GetLocalResultMsg (selfCache c) with
          | Err _ => c
          | Ok resultMsg => (processResultBroadcastMsg resultMsg c).1
          end
      end
  end.

(** The messages and timers of the controller's loop. *)
Inductive input :=
| InStart (msg : startControllerMsg)
| InPOSFinished (msg : BlockPOSFinishedNotify)
| InInquiryReq (req : HD_ReelectInquiryReqMsg)
| InInquiryRsp (rsp : HD_ReelectInquiryRspMsg)
| InRLReq (req : HD_ReelectLeaderReqMsg)
| InRLVote (msg : HD_ReelectLeaderVoteMsg)
| InResultBroadcast (msg : HD_ReelectResultBroadcastMsg)
| InResultRsp (rsp : HD_ReelectResultRspMsg)
| InNewBlockReady (msg : sendNewBlockReadyRsp)
| InTimer
| InReelectTimer.

(** One iteration of [run]: [handleMsg] or a timer. *)
Definition step (c : controller) (i : input) : controller :=
  match i with
  | InStart msg => handleStartMsg msg c
  | InPOSFinished msg => handleBlockPOSFinishedNotify msg c
  | InInquiryReq req => handleInquiryReq req c
  | InInquiryRsp rsp => handleInquiryRsp rsp c
  | InRLReq req => handleRLReq req c
  | InRLVote msg => handleRLVote msg c
  | InResultBroadcast msg => handleResultBroadcastMsg msg c
  | InResultRsp rsp => handleResultRsp rsp c
  | InNewBlockReady msg =>
      sendInquiryRspWithNewBlockReady (nb_repHash msg) (nb_target msg) (nb_rspNumber msg) c
  | InTimer => timeOutHandle c
  | InReelectTimer => reelectTimeOutHandle c
  end.

Definition run (c : controller) (ins : list input) : controller := foldl step c ins.

(** ** What each helper leaves unchanged *)

Lemma dc_sendLeaderMsg c : dc (sendLeaderMsg c) = dc c.
Proof. unfold sendLeaderMsg. by case_match. Qed.
Lemma mp_sendLeaderMsg c : mp (sendLeaderMsg c) = mp c.
Proof. unfold sendLeaderMsg. by case_match. Qed.
Lemma cache_sendLeaderMsg c : selfCache (sendLeaderMsg c) = selfCache c.
Proof. unfold sendLeaderMsg. by case_match. Qed.

Lemma dc_sendInquiryReq c : dc (sendInquiryReq c) = dc c.
Proof. unfold sendInquiryReq, MasterCache.SetInquiryReq. by repeat case_match. Qed.
Lemma mp_sendInquiryReq c : mp (sendInquiryReq c) = mp c.
Proof. unfold sendInquiryReq, MasterCache.SetInquiryReq. by repeat case_match. Qed.

Lemma dc_sendRLReq c : dc (sendRLReq c) = dc c.
Proof. unfold sendRLReq. by repeat case_match. Qed.
Lemma mp_sendRLReq c : mp (sendRLReq c) = mp c.
Proof. unfold sendRLReq. by repeat case_match. Qed.

Lemma dc_sendResultBroadcastMsg c : dc (sendResultBroadcastMsg c) = dc c.
Proof. unfold sendResultBroadcastMsg. by repeat case_match. Qed.
Lemma mp_sendResultBroadcastMsg c : mp (sendResultBroadcastMsg c) = mp c.
Proof. unfold sendResultBroadcastMsg. by repeat case_match. Qed.

Lemma dc_sendResultBroadcastRsp msg c : dc (sendResultBroadcastRsp msg c) = dc c.
Proof. unfold sendResultBroadcastRsp. by repeat case_match. Qed.
Lemma mp_sendResultBroadcastRsp msg c : mp (sendResultBroadcastRsp msg c) = mp c.
Proof. unfold sendResultBroadcastRsp. by repeat case_match. Qed.
Lemma cache_sendResultBroadcastRsp msg c : selfCache (sendResultBroadcastRsp msg c) = selfCache c.
Proof. unfold sendResultBroadcastRsp. by repeat case_match. Qed.

Hint Rewrite dc_sendLeaderMsg mp_sendLeaderMsg cache_sendLeaderMsg dc_sendInquiryReq
  mp_sendInquiryReq dc_sendRLReq mp_sendRLReq dc_sendResultBroadcastMsg
  mp_sendResultBroadcastMsg dc_sendResultBroadcastRsp mp_sendResultBroadcastRsp
  cache_sendResultBroadcastRsp : ctl.
Ltac ctl :=
  repeat progress (autorewrite with ctl; cbn [dc mp selfCache set_dc set_mp set_cache set_state
    setTimer setReelectTimer tick emit fst]).

Lemma processPOSState_frame c :
  mp (processPOSState c) = mp c /\ selfCache (processPOSState c) = selfCache c /\
  (dc (processPOSState c) = dc c \/
   dc (processPOSState c) = Cdc.set_state (dc c) stMining /\
   MsgPool.posNotifyCache (mp c) <> []).
Proof.
  unfold processPOSState. case_match; [by auto|].
  unfold MsgPool.GetPOSNotifyMsg. rewrite MsgPool.find_pos_head.
  destruct (MsgPool.posNotifyCache (mp c)); simpl; auto.
Qed.

Lemma startReelect_frame k c :
  mp (startReelect k c) = mp c /\
  (dc (startReelect k c) = dc c \/
   dc (startReelect k c) = (Cdc.SetReelectTurn broadcastNode (dc c) k).1).
Proof.
  unfold startReelect. case_match; [by auto|]. case_match; [by auto|].
  destruct (Cdc.SetReelectTurn broadcastNode (dc c) k) as [d [e|]]; [by auto|].
  cbv zeta. ctl. case_match; ctl; auto.
Qed.

(** Fields of the turn data that a re-election turn does not touch. *)
Definition same_turn (d d' : cdc) : Prop :=
  number d' = number d /\ curConsensusTurn d' = curConsensusTurn d /\
  consensusLeader d' = consensusLeader d /\ leaderCal d' = leaderCal d.

Lemma SetReelectTurn_same_turn d k :
  same_turn d (Cdc.SetReelectTurn broadcastNode d k).1 /\
  cd_state (Cdc.SetReelectTurn broadcastNode d k).1 = cd_state d /\
  turnTime (Cdc.SetReelectTurn broadcastNode d k).1 = turnTime d.
Proof. unfold Cdc.SetReelectTurn, same_turn. by repeat case_match. Qed.

Lemma startReelect_same_turn k c :
  same_turn (dc c) (dc (startReelect k c)) /\ State (startReelect k c) = State c.
Proof.
  destruct (startReelect_frame k c) as [_ [Ed|Ed]]; unfold State; rewrite Ed; [done|].
  destruct (SetReelectTurn_same_turn (dc c) k) as (? & ? & _). done.
Qed.

Lemma same_turn_trans d1 d2 d3 : same_turn d1 d2 -> same_turn d2 d3 -> same_turn d1 d3.
Proof. unfold same_turn. intuition congruence. Qed.

Lemma enter_phase_same_turn t c : same_turn (dc c) (dc (enter_phase t c)).
Proof.
  unfold enter_phase. destruct (TurnTimes.CalState _ _ _) as [[st r] k].
  set (c1 := setTimer r _). assert (H1 : same_turn (dc c) (dc c1)) by done.
  case_bool_decide; [|case_bool_decide; [|done]].
  - destruct (processPOSState_frame c1) as (_ & _ & [->|[-> _]]); done.
  - eapply same_turn_trans; [exact H1|]. apply startReelect_same_turn.
Qed.

(** The only change of the consensus turn is to the turn of a leader result. *)
Lemma finishRL_turn rl c :
  let c' := finishReelectWithRLConsensus rl c in
  number (dc c') = number (dc c) /\
  (curConsensusTurn (dc c') = curConsensusTurn (dc c) \/
   curConsensusTurn (dc c') = result_turn rl).
Proof.
  cbn zeta. unfold finishReelectWithRLConsensus, Cdc.SetConsensusTurn.
  destruct (Cdc.GetLeader broadcastNode (dc c) (result_turn rl)); [|by auto]. cbv zeta.
  set (c1 := set_dc _ (Cdc.set_turnTime _ _)).
  ctl. destruct (enter_phase_same_turn (result_turn rl) c1) as (-> & -> & _). simpl. auto.
Qed.

Lemma finishPOS_dc pos from c :
  same_turn (dc c) (dc (finishReelectWithPOS pos from c)).
Proof.
  unfold finishReelectWithPOS. set (c1 := set_cache _ _).
  ctl. unfold c1. cbn [dc set_cache set_dc].
  eapply same_turn_trans; [|apply SetReelectTurn_same_turn]. done.
Qed.

(** A leader result that the engine accepted at [c]. *)
Definition accepted_result (c : controller) (rl : HD_ReelectLeaderConsensus) : Prop :=
  curConsensusTurn (dc c) <= result_turn rl /\
  lr_TimeStamp (lc_Req rl) <= lc_TimeStamp rl /\
  exists rs, VerifyHashWithNumber (reader c) (Types.RlpHash (lc_Req rl)) (lc_Votes rl)
               (number (dc c)) = Ok rs.

Lemma processResult_turn msg c :
  let c' := (processResultBroadcastMsg msg c).1 in
  number (dc c') = number (dc c) /\
  (curConsensusTurn (dc c') = curConsensusTurn (dc c) \/
   exists rl, rb_RLResult msg = Some rl /\ curConsensusTurn (dc c') = result_turn rl /\
              accepted_result c rl).
Proof.
  cbn zeta. unfold processResultBroadcastMsg.
  assert (HRL : forall rl, rb_RLResult msg = Some rl ->
    let r := (if result_turn rl <? curConsensusTurn (dc c) then (c, false)
              else if lc_TimeStamp rl <? lr_TimeStamp (lc_Req rl) then (c, false)
              else match VerifyHashWithNumber (reader c) (Types.RlpHash (lc_Req rl))
                           (lc_Votes rl) (number (dc c)) with
                   | Err _ => (c, false)
                   | Ok _ => (finishReelectWithRLConsensus rl c, true)
                   end).1 in
    number (dc r) = number (dc c) /\
    (curConsensusTurn (dc r) = curConsensusTurn (dc c) \/
     exists rl, Some rl = rb_RLResult msg /\ curConsensusTurn (dc r) = result_turn rl /\
                accepted_result c rl)).
  { intros rl Hrl. cbn zeta.
    destruct (Z.ltb_spec (result_turn rl) (curConsensusTurn (dc c))); [by auto|].
    destruct (Z.ltb_spec (lc_TimeStamp rl) (lr_TimeStamp (lc_Req rl))); [by auto|].
    destruct (VerifyHashWithNumber _ _ _ _) eqn:Ev; [|by auto]. simpl.
    destruct (finishRL_turn rl c) as [-> [-> | ->]]; split; auto.
    right. exists rl. split; [done|]. split; [done|]. split_and!; [done|done|eauto]. }
  destruct (rb_Type msg); try (simpl; by auto).
  - destruct (rb_POSResult msg) as [pos|]; [|by auto]. case_match; [by auto|].
    destruct (VerifyBlock _ _); [|by auto]. simpl.
    destruct (finishPOS_dc pos (rb_From msg) c) as (-> & -> & _). auto.
  - destruct (rb_RLResult msg) as [rl|] eqn:Er; [|by auto].
    destruct (HRL rl eq_refl) as [Hn [Ht | (rl' & Hrl' & Hr)]]; split; auto. right.
    exists rl'. by rewrite Hrl'.
  - destruct (rb_RLResult msg) as [rl|] eqn:Er; [|by auto].
    destruct (HRL rl eq_refl) as [Hn [Ht | (rl' & Hrl' & Hr)]]; split; auto. right.
    exists rl'. by rewrite Hrl'.
Qed.

Lemma SetValidators_turn d pre vs :
  let d' := (Cdc.SetValidators chain broadcastNode d pre vs).1 in
  number d' = number d /\ curConsensusTurn d' = curConsensusTurn d /\
  curReelectTurn d' = curReelectTurn d /\ cd_state d' = cd_state d /\ turnTime d' = turnTime d.
Proof. cbn zeta. unfold Cdc.SetValidators. by repeat case_match. Qed.

Lemma handleStartMsg_turn msg c :
  number (dc (handleStartMsg msg c)) = number (dc c) /\
  curConsensusTurn (dc (handleStartMsg msg c)) = curConsensusTurn (dc c).
Proof.
  unfold handleStartMsg. destruct (sm_parentHeader msg) as [ph|]; [|done].
  case_match; [done|].
  pose proof (SetValidators_turn (dc c) (Leader ph) (sm_validators msg)) as (Hn & Ht & _).
  destruct (Cdc.SetValidators _ _ _ _ _) as [d [e|]]; [done|]. cbv zeta. simpl in Hn, Ht.
  case_match; [by ctl|]. destruct (TurnTimes.SetBeginTime _ _ _) as [t updated]. ctl.
  destruct updated; [|done]. case_match; [|done].
  set (c1 := set_mp _ _). destruct (enter_phase_same_turn 0 c1) as (-> & -> & _). done.
Qed.

Lemma handleInquiryRsp_dc rsp c : dc (handleInquiryRsp rsp c) = dc c.
Proof.
  unfold handleInquiryRsp, processNewBlockReadyRsp.
  repeat (case_match; try (by ctl)); by ctl.
Qed.

Lemma handleRLVote_dc msg c : dc (handleRLVote msg c) = dc c.
Proof. unfold handleRLVote. repeat (case_match; try (by ctl)); by ctl. Qed.

Lemma handleInquiryReq_dc req c : dc (handleInquiryReq req c) = dc c.
Proof.
  unfold handleInquiryReq, sendInquiryRspWithPOS, sendInquiryRspWithAgree,
    sendInquiryRspWithRLConsensus. by repeat case_match.
Qed.

Lemma handleRLReq_dc req c : dc (handleRLReq req c) = dc c.
Proof. unfold handleRLReq. by repeat case_match. Qed.

Lemma reelectTimeOutHandle_dc c : dc (reelectTimeOutHandle c) = dc c.
Proof.
  unfold reelectTimeOutHandle. case_match; [done|]. cbn [dc setReelectTimer].
  case_match; by ctl.
Qed.

Lemma timeOutHandle_turn c : same_turn (dc c) (dc (timeOutHandle c)).
Proof.
  unfold timeOutHandle. destruct (State c); try done.
  - set (c1 := set_state _ _). destruct (startReelect_same_turn 1 c1) as [Hs _].
    eapply same_turn_trans; [|exact Hs]. done.
  - set (c1 := setTimer _ _). destruct (startReelect_same_turn (u32 (curReelectTurn (dc c) + 1)) c1)
      as [Hs _]. eapply same_turn_trans; [|exact Hs]. done.
Qed.

(** The leader result that an input brings: that of the broadcast received, or,
    when a response to the node's own broadcast comes in, that of the broadcast
    the node sent and keeps. *)
Definition brings_result (c : controller) (i : input) (rl : HD_ReelectLeaderConsensus) : Prop :=
  match i with
  | InResultBroadcast msg => rb_RLResult msg = Some rl
  | InResultRsp _ =>
      exists msg, MasterCache.resultBroadcastMsg (selfCache c) = Some msg /\ rb_RLResult msg = Some rl
  | _ => False
  end.

Lemma SaveResultRsp_msg m hash sign from :
  MasterCache.resultBroadcastMsg (MasterCache.SaveResultRsp m hash sign from).1
  = MasterCache.resultBroadcastMsg m.
Proof. unfold MasterCache.SaveResultRsp. by repeat case_match. Qed.

(** The turn after one step, for every input. *)
Lemma step_turn c i :
  number (dc (step c i)) = number (dc c) /\
  (curConsensusTurn (dc (step c i)) = curConsensusTurn (dc c) \/
   exists rl, brings_result c i rl /\ curConsensusTurn (dc (step c i)) = result_turn rl /\
              accepted_result c rl).
Proof.
  assert (Hd : forall d, d = dc c -> number d = number (dc c) /\
    (curConsensusTurn d = curConsensusTurn (dc c) \/
     exists rl, brings_result c i rl /\ curConsensusTurn d = result_turn rl /\ accepted_result c rl))
    by (intros ? ->; auto).
  destruct i; cbn [step].
  - destruct (handleStartMsg_turn msg c) as [-> ->]. auto.
  - unfold handleBlockPOSFinishedNotify.
    destruct (processPOSState_frame (set_mp c (MsgPool.SavePOSNotifyMsg (mp c) msg).1))
      as (_ & _ & [->|[-> _]]); simpl; auto.
  - apply Hd, handleInquiryReq_dc.
  - apply Hd, handleInquiryRsp_dc.
  - apply Hd, handleRLReq_dc.
  - apply Hd, handleRLVote_dc.
  - unfold handleResultBroadcastMsg. pose proof (processResult_turn msg c) as [Hn Ht].
    destruct (processResultBroadcastMsg msg c) as [c' []]; ctl; simpl in *; split; auto;
      destruct Ht as [|(rl & Hrl & ?)]; eauto.
  - unfold handleResultRsp.
    pose proof (SaveResultRsp_msg (selfCache c) (rr_ResultHash rsp) (rr_Sign rsp) (rr_From rsp)) as Hm.
    destruct (MasterCache.SaveResultRsp _ _ _ _) as [cache [e|]]; [by apply Hd|]. cbv zeta.
    destruct (VerifyHashWithVerifiedSignsAndNumber _ _ _); [|by apply Hd].
    unfold MasterCache.GetLocalResultMsg. cbn [selfCache set_cache fst] in Hm |- *.
    destruct (MasterCache.resultBroadcastMsg cache) as [m|]; [|by apply Hd].
    destruct (processResult_turn m (set_cache c cache)) as [Hn [Ht|(rl & Hrl & Ht & Hacc)]];
      rewrite Hn; split; auto. right. exists rl. split; [by exists m|]. split; [done|]. exact Hacc.
  - apply Hd. unfold sendInquiryRspWithNewBlockReady. by case_match.
  - destruct (timeOutHandle_turn c) as (-> & -> & _). auto.
  - apply Hd, reelectTimeOutHandle_dc.
Qed.

(** C24: The consensus turn of a controller never decreases, and it changes
    only to the turn of a leader-consensus result that arrives with this very
    input, in a result broadcast or as the node's own broadcast that a response
    confirms, and whose votes the engine accepted for the height, that is, only
    with signatures of a quorum of the validators over the hash of the request.
    (That hash is the same for all leader requests, see
    [HashBinding.RlpHash_signed_messages_constant]: the signatures are those of
    a quorum for some request, not for the turn of this one.) *)
Theorem consensus_turn_needs_quorum `{!EngineSound E BroadCastNodes} c i :
  number (dc (step c i)) = number (dc c) /\
  curConsensusTurn (dc c) <= curConsensusTurn (dc (step c i)) /\
  (curConsensusTurn (dc (step c i)) <> curConsensusTurn (dc c) ->
   exists rl, brings_result c i rl /\ curConsensusTurn (dc (step c i)) = result_turn rl /\
     lr_TimeStamp (lc_Req rl) <= lc_TimeStamp rl /\
     has_quorum (reader c) (number (dc c)) (Types.RlpHash (lc_Req rl)) (lc_Votes rl)).
Proof.
  destruct (step_turn c i) as [Hn [Ht|(rl & Hin & Ht & Hle & Hst & rs & Hv)]];
    (split; [done|]; split; [lia|]); intros Hne; [done|].
  exists rl. split_and!; [done|done|done|]. by eapply hash_quorum.
Qed.

(** ** The controller's invariant *)

Definition ctl_ok (c : controller) : Prop :=
  Cdc.cdc_ok broadcastNode (dc c) /\ MasterCache.cache_ok (selfCache c) /\ MsgPool.pool_ok (mp c).

Lemma sendInquiryReq_cache c : MasterCache.cache_ok (selfCache (sendInquiryReq c)).
Proof.
  unfold sendInquiryReq.
  set (req := mkInquiryReq _ _ _ _ _ _).
  pose proof (MasterCache.SetInquiryReq_ok (selfCache (tick c)) req) as Hok.
  assert (Hh : (MasterCache.SetInquiryReq (selfCache (tick c)) req).2
    = MasterCache.inquiryHash (MasterCache.SetInquiryReq (selfCache (tick c)) req).1) by done.
  destruct (MasterCache.SetInquiryReq (selfCache (tick c)) req) as [cache h]. simpl in Hok, Hh.
  cbv zeta. destruct (SignHash h) as [sg|]; [|done]. ctl. subst h.
  pose proof (MasterCache.SaveInquiryAgreeSign_ok cache sg own Hok) as Hs.
  destruct (MasterCache.SaveInquiryAgreeSign _ _ _ _) as [cache' [e|]]; done.
Qed.

Lemma sendRLReq_cache c :
  MasterCache.cache_ok (selfCache c) -> MasterCache.cache_ok (selfCache (sendRLReq c)).
Proof.
  intros Hok. unfold sendRLReq. pose proof (MasterCache.GetRLReqMsg_ok _ (now c) Hok) as H1.
  destruct (MasterCache.GetRLReqMsg _ _) as [cache [[req h]|]]; [|done]. simpl in H1. cbv zeta.
  destruct (SignHash h) as [sg|]; [|done]. ctl.
  pose proof (MasterCache.SaveRLVote_ok cache h sg own H1) as H2.
  destruct (MasterCache.SaveRLVote _ _ _ _) as [cache' [e|]]; done.
Qed.

Lemma sendResultBroadcastMsg_cache c :
  MasterCache.cache_ok (selfCache c) -> MasterCache.cache_ok (selfCache (sendResultBroadcastMsg c)).
Proof.
  intros Hok. unfold sendResultBroadcastMsg.
  pose proof (MasterCache.GetResultBroadcastMsg_ok _ (now c) Hok) as H1.
  destruct (MasterCache.GetResultBroadcastMsg _ _) as [cache [[msg h]|]]; [|done].
  simpl in H1. cbv zeta. destruct (SignHash h) as [sg|]; [|done]. ctl.
  pose proof (MasterCache.SaveResultRsp_ok cache h sg own H1) as H2.
  destruct (MasterCache.SaveResultRsp _ _ _ _) as [cache' [e|]]; done.
Qed.

Lemma sendLeaderMsg_ok c : ctl_ok c -> ctl_ok (sendLeaderMsg c).
Proof. unfold ctl_ok. by ctl. Qed.

Lemma sendInquiryReq_ok c : ctl_ok c -> ctl_ok (sendInquiryReq c).
Proof. unfold ctl_ok. ctl. intros (? & _ & ?). auto using sendInquiryReq_cache. Qed.

Lemma sendRLReq_ok c : ctl_ok c -> ctl_ok (sendRLReq c).
Proof. unfold ctl_ok. ctl. intros (? & ? & ?). auto using sendRLReq_cache. Qed.

Lemma sendResultBroadcastMsg_ok c : ctl_ok c -> ctl_ok (sendResultBroadcastMsg c).
Proof. unfold ctl_ok. ctl. intros (? & ? & ?). auto using sendResultBroadcastMsg_cache. Qed.

Lemma set_dc_ok c d : ctl_ok c -> Cdc.cdc_ok broadcastNode d -> ctl_ok (set_dc c d).
Proof. intros (_ & ? & ?) ?. by split_and!. Qed.

Lemma set_cache_ok c m : ctl_ok c -> MasterCache.cache_ok m -> ctl_ok (set_cache c m).
Proof. intros (? & _ & ?) ?. by split_and!. Qed.

Lemma set_mp_ok c m : ctl_ok c -> MsgPool.pool_ok m -> ctl_ok (set_mp c m).
Proof. intros (? & ? & _) ?. by split_and!. Qed.

Lemma processPOSState_ok c : ctl_ok c -> ctl_ok (processPOSState c).
Proof.
  intros (Hd & Hc & Hm). destruct (processPOSState_frame c) as (Em & Ec & Ed).
  unfold ctl_ok. rewrite Em, Ec. destruct Ed as [->|[-> _]]; done.
Qed.

Lemma startReelect_ok k c : in_u32 k -> ctl_ok c -> ctl_ok (startReelect k c).
Proof.
  intros Hk Hok. unfold startReelect. case_match; [done|]. case_match; [done|].
  destruct (Cdc.cdc_ok_ops chain broadcastNode (dc c) 0%N None k (proj1 Hok) Hk) as (_ & _ & Hr).
  destruct (Cdc.SetReelectTurn broadcastNode (dc c) k) as [d [e|]]; simpl in Hr;
    [by apply set_dc_ok|]. cbv zeta.
  apply sendLeaderMsg_ok. case_match; [apply sendInquiryReq_ok|]; by apply (set_dc_ok c d).
Qed.

Lemma CalState_turn_u32 t turn time : in_u32 (TurnTimes.CalState t turn time).2.
Proof. unfold TurnTimes.CalState. case_match; simpl; [done|]. apply u32_range. Qed.

Lemma enter_phase_ok t c : ctl_ok c -> ctl_ok (enter_phase t c).
Proof.
  intros Hok. unfold enter_phase. cbn [tick dc].
  pose proof (CalState_turn_u32 (turnTime (dc c)) t (now c)) as Hk.
  destruct (TurnTimes.CalState _ _ _) as [[st r] k]. simpl in Hk.
  set (c1 := setTimer r _).
  assert (H1 : ctl_ok c1).
  { apply (set_dc_ok c); [done|]. apply Cdc.cdc_ok_clear_reelectTurn. exact (proj1 Hok). }
  case_match; [by apply processPOSState_ok|]. case_match; [by apply startReelect_ok|done].
Qed.

Lemma finishPOS_ok pos from c : ctl_ok c -> ctl_ok (finishReelectWithPOS pos from c).
Proof.
  intros Hok. unfold finishReelectWithPOS. apply sendLeaderMsg_ok.
  apply set_cache_ok; [|apply MasterCache.ClearSelfInquiryMsg_ok].
  set (c1 := set_state _ _). assert (H1 : ctl_ok c1) by exact Hok.
  apply set_dc_ok; [done|]. apply (Cdc.cdc_ok_ops chain broadcastNode _ 0%N None 0); [apply H1|done].
Qed.

Lemma finishRL_ok rl c : ctl_ok c -> ctl_ok (finishReelectWithRLConsensus rl c).
Proof.
  intros Hok. unfold finishReelectWithRLConsensus.
  destruct (Cdc.cdc_ok_ops chain broadcastNode (dc c) 0%N None (result_turn rl)
    (proj1 Hok) (u32_range _)) as (_ & Hr & _).
  destruct (Cdc.SetConsensusTurn broadcastNode (dc c) (result_turn rl)) as [d [e|]];
    simpl in Hr; [by apply set_dc_ok|]. cbv zeta.
  apply sendLeaderMsg_ok, enter_phase_ok. apply set_dc_ok; [|exact Hr].
  apply set_cache_ok; [|apply MasterCache.ClearSelfInquiryMsg_ok]. by apply (set_dc_ok c d).
Qed.

Lemma processResult_ok msg c : ctl_ok c -> ctl_ok (processResultBroadcastMsg msg c).1.
Proof.
  intros Hok. unfold processResultBroadcastMsg.
  repeat (case_match; try done); try (by apply finishPOS_ok); by apply finishRL_ok.
Qed.

Lemma handleStartMsg_ok msg c : ctl_ok c -> ctl_ok (handleStartMsg msg c).
Proof.
  intros Hok. unfold handleStartMsg. destruct (sm_parentHeader msg) as [ph|]; [|done].
  assert (Hsave : forall c', ctl_ok c' -> ctl_ok (set_mp c' (MsgPool.SaveParentHeader (mp c') (Some ph))))
    by (intros c' H'; apply set_mp_ok; [done|]; apply H').
  case_match; [by apply Hsave|].
  destruct (Cdc.cdc_ok_ops chain broadcastNode (dc c) (Leader ph) (sm_validators msg) 0
    (proj1 Hok) ltac:(done)) as (Hv & _ & _).
  destruct (Cdc.SetValidators _ _ _ _ _) as [d [e|]]; simpl in Hv; [by apply set_dc_ok|]. cbv zeta.
  assert (Hc1 : ctl_ok (set_dc c d)) by (by apply set_dc_ok).
  case_match; [by apply Hsave, sendLeaderMsg_ok|].
  destruct (TurnTimes.SetBeginTime _ _ _) as [t updated]. apply sendLeaderMsg_ok.
  destruct updated; [|exact Hc1]. case_match; [apply enter_phase_ok|]; by apply (Hsave (set_dc _ _)).
Qed.

Lemma handleInquiryRsp_ok rsp c : ctl_ok c -> ctl_ok (handleInquiryRsp rsp c).
Proof.
  intros Hok. pose proof Hok as (_ & Hc & _). unfold handleInquiryRsp.
  case_bool_decide as Hres; [|done]. cbn [negb]. unfold MasterCache.CheckInquiryRspMsg.
  case_bool_decide as Hh; [done|]. case_bool_decide as Hq; [|done]. cbn [negb].
  assert (Hn : forall t, ctl_ok (match MasterCache.SetInquiryResultNotAgree (selfCache c) own t rsp with
      | (_, Some _) => c
      | (cache, None) => sendResultBroadcastMsg (set_cache c cache) end)).
  { intros t. pose proof (MasterCache.SetInquiryResultNotAgree_ok (selfCache c) own t rsp Hc) as Hs.
    destruct (MasterCache.SetInquiryResultNotAgree _ _ _ _) as [cache [e|]]; [done|].
    by apply sendResultBroadcastMsg_ok, set_cache_ok. }
  destruct (ir_Type rsp); try apply Hn; [done| |].
  - rewrite Hq. pose proof (MasterCache.SaveInquiryAgreeSign_ok (selfCache c) (ir_AgreeSign rsp)
      (ir_From rsp) Hc) as Hs.
    assert (Hm : MasterCache.inquiryMsg (MasterCache.SaveInquiryAgreeSign (selfCache c)
      (MasterCache.inquiryHash (selfCache c)) (ir_AgreeSign rsp) (ir_From rsp)).1
      = MasterCache.inquiryMsg (selfCache c))
      by (unfold MasterCache.SaveInquiryAgreeSign; by case_match).
    destruct (MasterCache.SaveInquiryAgreeSign _ _ _ _) as [cache [e|]]; [done|].
    simpl in Hs, Hm. cbv zeta.
    assert (Hc1 : ctl_ok (set_cache c cache)) by (by apply set_cache_ok).
    destruct (VerifyHashWithVerifiedSignsAndNumber _ _ _) as [rs|]; [|done].
    assert (is_Some (MasterCache.inquiryMsg cache)) as Hi
      by (rewrite Hm; destruct Hc as (_ & _ & _ & Hi & _); by apply Hi).
    pose proof (MasterCache.SetInquiryResultAgree_ok cache rs Hs Hi) as Ha. ctl.
    destruct (MasterCache.SetInquiryResultAgree _ _) as [cache' [e|]]; [done|].
    by apply sendRLReq_ok, (set_cache_ok (set_cache c cache)).
  - unfold processNewBlockReadyRsp. repeat (case_match; try done).
Qed.

Lemma handleRLVote_ok msg c : ctl_ok c -> ctl_ok (handleRLVote msg c).
Proof.
  intros Hok. pose proof Hok as (_ & Hc & _). unfold handleRLVote. cbv zeta.
  pose proof (MasterCache.SaveRLVote_ok (selfCache c) (cv_SignHash (lv_Vote msg))
    (cv_Sign (lv_Vote msg)) (cv_From (lv_Vote msg)) Hc) as Hs.
  destruct (MasterCache.SaveRLVote _ _ _ _) as [cache [e|]]; [done|]. simpl in Hs.
  assert (Hc1 : ctl_ok (set_cache c cache)) by (by apply set_cache_ok).
  destruct (VerifyHashWithVerifiedSignsAndNumber _ _ _) as [rs|]; [|done]. ctl.
  pose proof (MasterCache.SetRLResultBroadcastSuccess_ok cache own (now (set_cache c cache)) rs Hs) as Ha.
  destruct (MasterCache.SetRLResultBroadcastSuccess _ _ _ _) as [cache' [e|]]; [done|].
  by apply sendResultBroadcastMsg_ok, (set_cache_ok (tick (set_cache c cache))).
Qed.

Lemma step_ok c i : ctl_ok c -> ctl_ok (step c i).
Proof.
  intros Hok. pose proof Hok as (Hd & Hc & Hm). destruct i; cbn [step].
  - by apply handleStartMsg_ok.
  - by apply processPOSState_ok, set_mp_ok, MsgPool.SavePOSNotifyMsg_ok.
  - unfold handleInquiryReq, sendInquiryRspWithPOS, sendInquiryRspWithAgree,
      sendInquiryRspWithRLConsensus.
    repeat (case_match; try done). by apply set_mp_ok, MsgPool.SaveInquiryReqMsg_ok.
  - by apply handleInquiryRsp_ok.
  - unfold handleRLReq. by repeat (case_match; try done).
  - by apply handleRLVote_ok.
  - unfold handleResultBroadcastMsg. pose proof (processResult_ok msg c Hok) as Hp.
    destruct (processResultBroadcastMsg msg c) as [c' []]; [|done].
    unfold ctl_ok in *. by ctl.
  - unfold handleResultRsp.
    pose proof (MasterCache.SaveResultRsp_ok (selfCache c) (rr_ResultHash rsp) (rr_Sign rsp)
      (rr_From rsp) Hc) as Hs.
    destruct (MasterCache.SaveResultRsp _ _ _ _) as [cache [e|]]; [done|]. cbv zeta.
    assert (Hc1 : ctl_ok (set_cache c cache)) by (by apply set_cache_ok).
    repeat (case_match; try done). by apply processResult_ok.
  - unfold sendInquiryRspWithNewBlockReady. by case_match.
  - unfold timeOutHandle. destruct (State c); try done.
    + apply startReelect_ok; [done|]. exact Hok.
    + apply startReelect_ok; [apply u32_range|]. exact Hok.
  - unfold reelectTimeOutHandle. case_match; [done|].
    assert (Hx : forall c', ctl_ok c' -> ctl_ok (setReelectTimer TurnTimes.LRSReelectInterval c'))
      by done.
    apply Hx. case_match; auto using sendInquiryReq_ok, sendRLReq_ok, sendResultBroadcastMsg_ok.
Qed.

(** In every state a controller reaches, whatever messages and timeouts
    arrive in whatever order: the stored leader and master are those of the
    stored turns; every signature it has collected as master is a genuine
    agreement of the named account to the hash currently asked for; and the
    cached POS notifications are distinct and name a leader. *)
Theorem reachable_ctl_ok n ins : ctl_ok (run (newController n) ins).
Proof.
  unfold run. induction ins as [|i ins IH] using rev_ind.
  - split_and!; [apply Cdc.newCDC_ok|apply MasterCache.newMasterCache_ok|].
    split_and!; simpl; [constructor|constructor|]. by apply map_Forall_empty.
  - rewrite foldl_app. simpl. by apply step_ok.
Qed.

(** ** Entering the mining state *)

Definition pos_known (c : controller) : Prop := MsgPool.posNotifyCache (mp c) <> [].

Lemma processPOSState_mining c :
  State (processPOSState c) = stMining -> State c = stMining \/ pos_known c.
Proof.
  destruct (processPOSState_frame c) as (_ & _ & [Ed|[Ed Hp]]); unfold State; rewrite Ed; auto.
Qed.

Lemma enter_phase_mp t c : mp (enter_phase t c) = mp c.
Proof.
  unfold enter_phase. destruct (TurnTimes.CalState _ _ _) as [[st r] k].
  set (c1 := setTimer r _). case_match; [by destruct (processPOSState_frame c1) as (-> & _)|].
  case_match; [by destruct (startReelect_frame k c1) as [-> _]|done].
Qed.

Lemma CalState_not_mining t turn time st r k :
  TurnTimes.CalState t turn time = (st, r, k) -> st <> stMining.
Proof. unfold TurnTimes.CalState. case_match; intros [= <- _ _]; done. Qed.

Lemma enter_phase_mining t c : State (enter_phase t c) = stMining -> pos_known c.
Proof.
  unfold enter_phase. destruct (TurnTimes.CalState _ _ _) as [[st r] k] eqn:Ecal.
  apply CalState_not_mining in Ecal. set (c1 := setTimer r _).
  assert (Hs : State c1 = st) by done. case_bool_decide.
  - intros [Hm|Hp]%processPOSState_mining; [congruence|done].
  - case_bool_decide.
    + destruct (startReelect_same_turn k c1) as [_ ->]. congruence.
    + congruence.
Qed.

Lemma finishRL_mining rl c :
  State (finishReelectWithRLConsensus rl c) = stMining -> State c = stMining \/ pos_known c.
Proof.
  unfold finishReelectWithRLConsensus, Cdc.SetConsensusTurn.
  destruct (Cdc.GetLeader _ _ _); [|by auto]. cbv zeta. unfold State at 1. ctl.
  intros Hm. right. by apply enter_phase_mining in Hm.
Qed.

(** A block of the consensus leader that the engine accepts. *)
Definition verified_pos (c : controller) : Prop :=
  exists header, VerifyBlock (reader c) header = Ok tt /\
                 Leader header = consensusLeader (dc c).

Lemma processResult_mining msg c :
  State (processResultBroadcastMsg msg c).1 = stMining ->
  State c = stMining \/ pos_known c \/ verified_pos c.
Proof.
  unfold processResultBroadcastMsg. destruct (rb_Type msg); try (simpl; by auto).
  - destruct (rb_POSResult msg) as [pos|]; [|by auto].
    case_bool_decide; [|simpl; by auto]. simpl.
    destruct (VerifyBlock (reader c) (bcr_Header pos)) as [[]|] eqn:Ev; [|simpl; by auto].
    intros _. right. right. by exists (bcr_Header pos).
  - destruct (rb_RLResult msg); [|by auto]. repeat (case_match; [simpl; by auto|]).
    case_match; [|simpl; by auto]. intros [?|?]%finishRL_mining; auto.
  - destruct (rb_RLResult msg); [|by auto]. repeat (case_match; [simpl; by auto|]).
    case_match; [|simpl; by auto]. intros [?|?]%finishRL_mining; auto.
Qed.

Lemma handleStartMsg_mining msg c :
  State (handleStartMsg msg c) = stMining -> State c = stMining \/ pos_known c.
Proof.
  unfold handleStartMsg. destruct (sm_parentHeader msg) as [ph|]; [|by auto].
  case_match; [by auto|].
  pose proof (SetValidators_turn (dc c) (Leader ph) (sm_validators msg)) as (_ & _ & _ & Hs & _).
  destruct (Cdc.SetValidators _ _ _ _ _) as [d [e|]]; simpl in Hs; cbv zeta.
  - unfold State; simpl. rewrite Hs. auto.
  - case_match; [unfold State; by ctl|].
    destruct (TurnTimes.SetBeginTime _ _ _) as [t updated]. unfold State at 1. ctl.
    destruct updated; [|simpl; rewrite Hs; by auto].
    case_match; [|simpl; rewrite Hs; by auto].
    intros Hm. right. by apply enter_phase_mining in Hm.
Qed.

Lemma processResult_mp msg c : mp (processResultBroadcastMsg msg c).1 = mp c.
Proof.
  unfold processResultBroadcastMsg, finishReelectWithRLConsensus, finishReelectWithPOS.
  repeat (case_match; ctl; try done); by rewrite enter_phase_mp.
Qed.

(** A controller leaves the race for a height (enters the mining state)
    only if it holds a POS-finished notification or has been shown a block of
    the current consensus leader that passes the engine's verification, hence
    one signed by a quorum of the validators (or by a broadcast node). *)
Theorem mining_needs_pos c i :
  State (step c i) = stMining ->
  State c = stMining \/ MsgPool.posNotifyCache (mp (step c i)) <> [] \/ verified_pos c.
Proof.
  assert (Hd : forall c', dc c' = dc c -> State c' = stMining -> State c = stMining)
    by (unfold State; intros c' ->; done).
  destruct i; cbn [step].
  - intros Hm. pose proof (handleStartMsg_mining _ _ Hm) as [?|Hp]; [by auto|]. right. left.
    unfold handleStartMsg. destruct (sm_parentHeader msg) as [ph|]; [|done].
    repeat (case_match; ctl; try done). by rewrite enter_phase_mp.
  - unfold handleBlockPOSFinishedNotify. set (c1 := set_mp c _).
    destruct (processPOSState_frame c1) as (-> & _).
    intros [?|?]%processPOSState_mining; auto.
  - intros ?%Hd; [by auto|apply handleInquiryReq_dc].
  - intros ?%Hd; [by auto|apply handleInquiryRsp_dc].
  - intros ?%Hd; [by auto|apply handleRLReq_dc].
  - intros ?%Hd; [by auto|apply handleRLVote_dc].
  - unfold handleResultBroadcastMsg. pose proof (processResult_mining msg c) as Hp.
    pose proof (processResult_mp msg c) as Hmp.
    destruct (processResultBroadcastMsg msg c) as [c' []]; unfold State at 1; ctl; simpl in *;
      rewrite Hmp; exact Hp.
  - unfold handleResultRsp.
    destruct (MasterCache.SaveResultRsp _ _ _ _) as [cache [e|]]; [by auto|]. cbv zeta.
    destruct (VerifyHashWithVerifiedSignsAndNumber _ _ _); [|by auto].
    destruct (MasterCache.GetLocalResultMsg _) as [m|]; [|by auto].
    rewrite processResult_mp. intros [?|[?|?]]%processResult_mining; auto.
  - unfold sendInquiryRspWithNewBlockReady. case_match; by auto.
  - clear Hd. unfold timeOutHandle. destruct (State c) eqn:Es; try (intros; left; congruence).
    + set (c1 := set_state _ _). destruct (startReelect_same_turn 1 c1) as [_ ->]. done.
    + set (c1 := setTimer _ _).
      destruct (startReelect_same_turn (u32 (curReelectTurn (dc c) + 1)) c1) as [_ ->].
      intros Hm. unfold c1, State in Hm. simpl in Hm. unfold State in Es. congruence.
  - intros ?%Hd; [by auto|apply reelectTimeOutHandle_dc].
Qed.

(** ** Which votes a controller sends *)

(** Events that are no answer to another node: neither a vote, nor an answer to
    an inquiry, nor the confirmation of a result. *)
Definition quiet (e : event) : Prop :=
  match e with SendRLVote _ _ | SendInquiryRsp _ _ | SendResultRsp _ _ => False | _ => True end.

Definition quietly (c c' : controller) : Prop :=
  exists l, out c' = out c ++ l /\ Forall quiet l.

Lemma quietly_refl c c' : out c' = out c -> quietly c c'.
Proof. intros Ho. exists []. by rewrite Ho, app_nil_r. Qed.

Lemma quietly_trans c1 c2 c3 : quietly c1 c2 -> quietly c2 c3 -> quietly c1 c3.
Proof.
  intros (l1 & H1 & Q1) (l2 & H2 & Q2). exists (l1 ++ l2).
  rewrite H2, H1, app_assoc. split; [done|]. by apply Forall_app.
Qed.

Lemma quietly_emit c c' e : out c' = out c -> quiet e -> quietly c (emit c' e).
Proof. intros Ho He. exists [e]. simpl. rewrite Ho. split; [done|]. by constructor. Qed.

Ltac quiet_step := first
  [ by apply quietly_refl
  | by apply quietly_emit ].

Lemma sendLeaderMsg_quiet c : quietly c (sendLeaderMsg c).
Proof. unfold sendLeaderMsg. case_match; quiet_step. Qed.

Lemma sendInquiryReq_quiet c : quietly c (sendInquiryReq c).
Proof. unfold sendInquiryReq. repeat case_match; quiet_step. Qed.

Lemma sendRLReq_quiet c : quietly c (sendRLReq c).
Proof. unfold sendRLReq. repeat case_match; quiet_step. Qed.

Lemma sendResultBroadcastMsg_quiet c : quietly c (sendResultBroadcastMsg c).
Proof. unfold sendResultBroadcastMsg. repeat case_match; quiet_step. Qed.

Lemma processPOSState_quiet c : quietly c (processPOSState c).
Proof. unfold processPOSState. repeat case_match; quiet_step. Qed.

Lemma startReelect_quiet k c : quietly c (startReelect k c).
Proof.
  unfold startReelect. repeat case_match; try quiet_step;
    (eapply quietly_trans; [|apply sendLeaderMsg_quiet]); [|quiet_step].
  eapply quietly_trans; [|apply sendInquiryReq_quiet]. quiet_step.
Qed.

Lemma enter_phase_quiet t c : quietly c (enter_phase t c).
Proof.
  unfold enter_phase. destruct (TurnTimes.CalState _ _ _) as [[st r] k].
  set (c1 := setTimer r _). assert (H1 : quietly c c1) by quiet_step.
  case_match; [|case_match; [|done]]; (eapply quietly_trans; [exact H1|]).
  - apply processPOSState_quiet.
  - apply startReelect_quiet.
Qed.

Lemma processResult_quiet msg c : quietly c (processResultBroadcastMsg msg c).1.
Proof.
  assert (HR : forall rl, quietly c (finishReelectWithRLConsensus rl c)).
  { intros rl. unfold finishReelectWithRLConsensus. case_match; case_match; [quiet_step|].
    eapply quietly_trans; [|apply sendLeaderMsg_quiet].
    eapply quietly_trans; [|apply enter_phase_quiet]. quiet_step. }
  unfold processResultBroadcastMsg. repeat (case_match; try quiet_step); simpl; try apply HR.
  unfold finishReelectWithPOS. eapply quietly_trans; [|apply sendLeaderMsg_quiet].
  by apply (quietly_emit c c).
Qed.

Lemma handleStartMsg_quiet msg c : quietly c (handleStartMsg msg c).
Proof.
  unfold handleStartMsg. destruct (sm_parentHeader msg); [|quiet_step].
  case_match; [quiet_step|].
  destruct (Cdc.SetValidators _ _ _ _ _) as [d [e|]]; [quiet_step|]. cbv zeta. case_match.
  - set (c1 := set_state _ _).
    apply quietly_trans with (sendLeaderMsg c1); [|quiet_step].
    eapply quietly_trans; [|apply sendLeaderMsg_quiet]. quiet_step.
  - destruct (TurnTimes.SetBeginTime _ _ _) as [t updated].
    eapply quietly_trans; [|apply sendLeaderMsg_quiet].
    destruct updated; [|quiet_step]. case_match; [|quiet_step].
    eapply quietly_trans; [|apply enter_phase_quiet]. quiet_step.
Qed.

Lemma handleInquiryRsp_quiet rsp c : quietly c (handleInquiryRsp rsp c).
Proof.
  unfold handleInquiryRsp, processNewBlockReadyRsp.
  repeat (case_match; try quiet_step).
  1-2: (eapply quietly_trans; [|apply sendResultBroadcastMsg_quiet]; quiet_step).
  eapply quietly_trans; [|apply sendRLReq_quiet]; quiet_step.
Qed.

Lemma handleRLVote_quiet msg c : quietly c (handleRLVote msg c).
Proof.
  unfold handleRLVote. repeat (case_match; try quiet_step).
  eapply quietly_trans; [|apply sendResultBroadcastMsg_quiet]. quiet_step.
Qed.

Lemma timeOutHandle_quiet c : quietly c (timeOutHandle c).
Proof.
  unfold timeOutHandle. destruct (State c); try quiet_step;
    (eapply quietly_trans; [|apply startReelect_quiet]; quiet_step).
Qed.

Lemma reelectTimeOutHandle_quiet c : quietly c (reelectTimeOutHandle c).
Proof.
  unfold reelectTimeOutHandle. case_match; [quiet_step|].
  assert (Hx : forall c', quietly c c' ->
    quietly c (setReelectTimer TurnTimes.LRSReelectInterval c'))
    by (intros c' Hc'; eapply quietly_trans; [exact Hc'|quiet_step]).
  apply Hx. case_match;
    auto using sendInquiryReq_quiet, sendRLReq_quiet, sendResultBroadcastMsg_quiet.
Qed.

Lemma step_quiet c i :
  (forall req, i <> InInquiryReq req) -> (forall req, i <> InRLReq req) ->
  (forall m, i <> InNewBlockReady m) -> (forall m, i <> InResultBroadcast m) -> quietly c (step c i).
Proof.
  intros H1 H2 H3 H4. destruct i; cbn [step];
    try (first [by destruct (H1 req)|by destruct (H2 req)|by destruct (H3 msg)|by destruct (H4 msg)]).
  - apply handleStartMsg_quiet.
  - unfold handleBlockPOSFinishedNotify. eapply quietly_trans; [|apply processPOSState_quiet].
    quiet_step.
  - apply handleInquiryRsp_quiet.
  - apply handleRLVote_quiet.
  - unfold handleResultRsp. repeat (case_match; try quiet_step).
    eapply quietly_trans; [|apply processResult_quiet]. quiet_step.
  - apply timeOutHandle_quiet.
  - apply reelectTimeOutHandle_quiet.
Qed.

(** A result that the controller has verified: a finished block of its leader
    that the engine accepts, or a leader result of a turn that is not past with
    votes of a quorum. *)
Definition verified_result (c : controller) (msg : HD_ReelectResultBroadcastMsg) : Prop :=
  match rb_Type msg with
  | ReelectRSPTypePOS =>
      exists pos, rb_POSResult msg = Some pos /\
        Leader (bcr_Header pos) = consensusLeader (dc c) /\
        VerifyBlock (reader c) (bcr_Header pos) = Ok tt
  | _ =>
      exists rl, rb_RLResult msg = Some rl /\ curConsensusTurn (dc c) <= result_turn rl /\
        has_quorum (reader c) (number (dc c)) (Types.RlpHash (lc_Req rl)) (lc_Votes rl)
  end.

(** The conditions under which [e] may be sent in response to [i]. *)
Definition vote_justified (c : controller) (i : input) (e : event) : Prop :=
  match e, i with
  | SendRLVote v target, InRLReq req =>
      let inq := lr_InquiryReq req in
      State c = stReelect /\ target = reelectMaster (dc c) /\
      iq_ConsensusTurn inq = curConsensusTurn (dc c) /\
      iq_ReelectTurn inq = curReelectTurn (dc c) /\
      cv_SignHash (lv_Vote v) = Types.RlpHash req /\
      has_quorum (reader c) (number (dc c)) (Types.RlpHash inq) (lr_AgreeSigns req)
  | SendInquiryRsp rsp target, InInquiryReq req =>
      target = iq_From req /\ ir_ReqHash rsp = Types.RlpHash req /\
      Cdc.GetLeader broadcastNode (dc c) (u32 (iq_ConsensusTurn req + iq_ReelectTurn req))
      = Ok target /\
      (ir_Type rsp = ReelectRSPTypeAgree ->
       State c = stReelect /\ iq_ConsensusTurn req = curConsensusTurn (dc c) /\
       iq_ReelectTurn req = curReelectTurn (dc c))
  | SendInquiryRsp rsp _, InNewBlockReady _ => ir_Type rsp = ReelectRSPTypeNewBlockReady
  | SendResultRsp rsp target, InResultBroadcast msg =>
      target = rb_From msg /\ rr_ResultHash rsp = Types.RlpHash msg /\ verified_result c msg
  | _, _ => False
  end.

(** [c'] extends the output of [c] by events that are quiet or justified. *)
Definition justified_step (c : controller) (i : input) (c' : controller) : Prop :=
  exists l, out c' = out c ++ l /\ Forall (fun e => quiet e \/ vote_justified c i e) l.

Lemma justified_quietly c i c' : quietly c c' -> justified_step c i c'.
Proof.
  intros (l & Hl & HQ). exists l. split; [done|]. eapply Forall_impl; [exact HQ|]. by left.
Qed.

Lemma justified_same c i c' : out c' = out c -> justified_step c i c'.
Proof. intros. by apply justified_quietly, quietly_refl. Qed.

Lemma justified_emit c i e : vote_justified c i e -> justified_step c i (emit c e).
Proof. intros He. exists [e]. split; [done|]. constructor; [by right|constructor]. Qed.

Lemma handleRLReq_vote `{!EngineSound E BroadCastNodes} req c :
  justified_step c (InRLReq req) (handleRLReq req c).
Proof.
  unfold handleRLReq. case_bool_decide as Hs; [|by apply justified_same]. cbn [negb].
  destruct (checkRLReqMsg req c) eqn:Ec; [|by apply justified_same]. cbn [negb].
  destruct (SignHash _); [|by apply justified_same]. apply justified_emit.
  unfold checkRLReqMsg in Ec. bool_to_prop. simpl.
  assert (Hq : exists rs, VerifyHashWithNumber (reader c) (Types.RlpHash (lr_InquiryReq req))
    (lr_AgreeSigns req) (number (dc c)) = Ok rs).
  { destruct (VerifyHashWithNumber _ _ _ _); [by eauto|done]. }
  destruct Hq as [rs Hq]. split_and!; try done; [congruence|]. by eapply hash_quorum.
Qed.

Lemma handleInquiryReq_vote req c : justified_step c (InInquiryReq req) (handleInquiryReq req c).
Proof.
  unfold handleInquiryReq, sendInquiryRspWithPOS, sendInquiryRspWithAgree,
    sendInquiryRspWithRLConsensus.
  case_bool_decide; [by apply justified_same|].
  case_bool_decide; [|by apply justified_same]. cbn [negb].
  destruct (Cdc.GetLeader _ _ _) as [master|] eqn:El; [|by apply justified_same].
  case_bool_decide as Hm; [|by apply justified_same]. cbn [negb]. subst master.
  destruct (_ <? _); [by apply justified_same|].
  destruct (Z.eqb_spec (iq_ConsensusTurn req) (curConsensusTurn (dc c))).
  - destruct (State c) eqn:Es; try (by apply justified_same).
    + destruct (Z.eqb_spec (iq_ReelectTurn req) (curReelectTurn (dc c)));
        [|by apply justified_same]. cbn [negb]. destruct (SignHash _); [|by apply justified_same].
      apply justified_emit. simpl. by split_and!.
    + destruct (MsgPool.GetPOSNotifyMsg _ _ _); [|by apply justified_same].
      apply justified_emit. simpl. by split_and!.
  - destruct (MsgPool.GetRLConsensusMsg _ _); [|by apply justified_same].
    apply justified_emit. simpl. by split_and!.
Qed.

Lemma processResult_verified `{!EngineSound E BroadCastNodes} msg c c' :
  processResultBroadcastMsg msg c = (c', true) -> verified_result c msg.
Proof.
  unfold processResultBroadcastMsg, verified_result. destruct (rb_Type msg); try done.
  1: destruct (rb_POSResult msg) as [pos|]; [|done]; case_bool_decide; [|done]; cbn [negb];
    destruct (VerifyBlock _ _) as [[]|] eqn:Ev; [|done]; by eauto.
  all: destruct (rb_RLResult msg) as [rl|]; [|done];
    destruct (Z.ltb_spec (result_turn rl) (curConsensusTurn (dc c))); [done|];
    destruct (_ <? _); [done|]; destruct (VerifyHashWithNumber _ _ _ _) eqn:Ev; [|done];
    intros _; exists rl; split_and!; [done|done|by eapply hash_quorum].
Qed.

Lemma handleResultBroadcastMsg_confirms `{!EngineSound E BroadCastNodes} msg c :
  justified_step c (InResultBroadcast msg) (handleResultBroadcastMsg msg c).
Proof.
  unfold handleResultBroadcastMsg. destruct (processResult_quiet msg c) as (l & Hl & Hq).
  assert (Hq' : Forall (fun e => quiet e \/ vote_justified c (InResultBroadcast msg) e) l)
    by (eapply Forall_impl; [exact Hq|by left]).
  destruct (processResultBroadcastMsg msg c) as [c' []] eqn:Ep; cbn [fst] in Hl; [|by exists l].
  unfold sendResultBroadcastRsp. destruct (SignHash _) as [sg|]; [|by exists l].
  exists (l ++ [SendResultRsp (mkResultRsp (number (dc c')) (Types.RlpHash msg) sg 0%N) (rb_From msg)]).
  cbn [out emit]. rewrite Hl, app_assoc. split; [done|]. apply Forall_app. split; [done|].
  constructor; [|constructor]. right. split_and!; [done|done|]. by eapply processResult_verified.
Qed.

(** C25: How a controller answers other nodes in a re-election.  It signs an
    agreement only during a re-election, for the turns it is in, and sends it to
    the account that leads the summed turns; it signs a vote only during a
    re-election, for the turns it is in, and sends it to the current re-election
    master, whose request carries agreements accepted by the engine, hence of a
    quorum; and it signs the confirmation of a result only when it has verified
    that result, a finished block or a leader result with votes of a quorum.
    No other message or timer makes it send such an answer.  (The signatures a
    node puts on its own inquiry, request and result are not answers.) *)
Theorem votes_justified `{!EngineSound E BroadCastNodes} c i : justified_step c i (step c i).
Proof.
  destruct i; try (apply justified_quietly, step_quiet; by intros).
  - apply handleInquiryReq_vote.
  - by apply handleRLReq_vote.
  - by apply handleResultBroadcastMsg_confirms.
  - simpl. unfold sendInquiryRspWithNewBlockReady.
    destruct (MsgPool.GetParentHeader _); [by apply justified_emit|by apply justified_same].
Qed.

(** ** Defects *)

(** Nothing stores a leader-consensus result in the message pool ... *)
Lemma rlConsensusCache_unused c i :
  MsgPool.rlConsensusCache (mp (step c i)) = MsgPool.rlConsensusCache (mp c).
Proof.
  destruct i; cbn [step].
  - unfold handleStartMsg, MsgPool.SaveParentHeader. destruct (sm_parentHeader msg); [|done].
    repeat (case_match; ctl; try done). by rewrite enter_phase_mp.
  - unfold handleBlockPOSFinishedNotify.
    destruct (processPOSState_frame (set_mp c (MsgPool.SavePOSNotifyMsg (mp c) msg).1)) as (-> & _).
    simpl. unfold MsgPool.SavePOSNotifyMsg. by repeat case_match.
  - unfold handleInquiryReq, sendInquiryRspWithPOS, sendInquiryRspWithAgree,
      sendInquiryRspWithRLConsensus, MsgPool.SaveInquiryReqMsg. by repeat case_match.
  - unfold handleInquiryRsp, processNewBlockReadyRsp. repeat (case_match; ctl; try done).
  - unfold handleRLReq. by repeat case_match.
  - unfold handleRLVote. repeat (case_match; ctl; try done).
  - unfold handleResultBroadcastMsg. pose proof (processResult_mp msg c) as Hmp.
    destruct (processResultBroadcastMsg msg c) as [c' []]; ctl; simpl in Hmp; by rewrite Hmp.
  - unfold handleResultRsp. repeat (case_match; try done). by rewrite processResult_mp.
  - unfold sendInquiryRspWithNewBlockReady. by case_match.
  - unfold timeOutHandle. destruct (State c); try done;
      match goal with |- context [startReelect ?k ?c1] =>
        destruct (startReelect_frame k c1) as [-> _] end; done.
  - unfold reelectTimeOutHandle. case_match; [done|]. cbn [mp setReelectTimer]. case_match; by ctl.
Qed.

Lemma run_rlConsensusCache n ins :
  MsgPool.rlConsensusCache (mp (run (newController n) ins)) = ∅.
Proof.
  unfold run. induction ins as [|i ins IH] using rev_ind; [done|].
  rewrite foldl_app. simpl. by rewrite rlConsensusCache_unused.
Qed.

(** A node that is behind on the consensus turn is never told: in every
    reachable state an inquiry with a lower consensus turn leaves the controller
    exactly as it was, so the [ReelectRSPTypeAlreadyRL] answer, which the code
    has for this case, is dead. *)
Theorem behind_never_answered n ins req :
  iq_ConsensusTurn req < curConsensusTurn (dc (run (newController n) ins)) ->
  handleInquiryReq req (run (newController n) ins) = run (newController n) ins.
Proof.
  intros Hlt. pose proof (run_rlConsensusCache n ins) as Hc.
  set (c := run (newController n) ins) in *.
  unfold handleInquiryReq, sendInquiryRspWithRLConsensus, MsgPool.GetRLConsensusMsg.
  rewrite Hc, lookup_empty. rewrite (proj2 (Z.ltb_ge _ _)) by lia.
  rewrite (proj2 (Z.eqb_neq _ _)) by lia. by repeat case_match.
Qed.

(** Firing the timer exactly at the end of a phase computes zero seconds for
    the next one, and [setTimer 0] stops the timer: the controller's re-election
    turns stop advancing. *)
Lemma timer_stops_on_exact_boundary c :
  State c = stReelect ->
  TurnTimes.CalRemainTime (turnTime (dc c)) (curConsensusTurn (dc c))
    (u32 (curReelectTurn (dc c) + 1)) (now c) = 0 ->
  timer (timeOutHandle c) = None.
Proof.
  intros Hs Hr. unfold timeOutHandle. rewrite Hs, Hr.
  unfold startReelect, sendLeaderMsg, sendInquiryReq. repeat (case_match; try done).
Qed.

(** Re-sending the request while the result is being collected stamps the
    shared request with a time after the result's own, and the master's result
    is then rejected by the time check of every controller, its own included. *)
Lemma resend_invalidates_result c msg rl m c' :
  MasterCache.inquiryResult (selfCache c) = ReelectRSPTypeAgree ->
  is_Some (MasterCache.rlReqMsg (selfCache c)) ->
  MasterCache.resultBroadcastMsg (selfCache c) = Some msg ->
  rb_Type msg = ReelectRSPTypeAgree -> rb_RLResult msg = Some rl -> lc_TimeStamp rl < now c ->
  MasterCache.GetLocalResultMsg (selfCache (sendRLReq c)) = Ok m ->
  processResultBroadcastMsg m c' = (c', false).
Proof.
  intros Hr [req Hq] Hm Ht Hrl Hlt. unfold sendRLReq, MasterCache.GetRLReqMsg.
  rewrite Hr, Hq, Hm. simpl. unfold MasterCache.share_request.
  rewrite Ht, bool_decide_eq_true_2, Hrl by done. simpl. intros Hm'.
  set (req' := mkLeaderReq _ _ (now c)) in *.
  set (msg' := mkResultBroadcast _ _ _ _ _ _) in *.
  assert (m = msg') as ->.
  { destruct (SignHash _); [|by injection Hm' as <-].
    unfold MasterCache.SaveRLVote, MasterCache.GetLocalResultMsg in Hm'.
    repeat (case_match; simplify_eq/=; try done). }
  unfold processResultBroadcastMsg, msg'. cbn [rb_Type rb_RLResult lc_TimeStamp lc_Req].
  destruct (_ <? curConsensusTurn _); [done|]. by rewrite (proj2 (Z.ltb_lt _ _)) by exact Hlt.
Qed.

End Controller.

(** ** Witnesses: three validators at height 21, the toy signature scheme *)

Section Witnesses.
#[local] Instance toy : Crypto := Signature.toy_crypto.
#[local] Existing Instance sorted_range.
#[local] Instance engine3 : DPOSEngine := MtxDPOS [].

Definition chain3 : Chain :=
  mkChain (fun n => Some (Dpos.block3 n)) (fun _ n => Some (Dpos.block3 n))
    (fun n => Some (Dpos.graph3 n)).

(** The controller of account 1, started on block 20, in the 45th second of
    the first turn: a re-election whose master is account 2. *)
Definition step3 (clock : nat -> Z) := step chain3 9%N 1%N (fun _ => Some 256%N) (fun _ => true) clock.
Definition start3 : input :=
  InStart (mkStart RoleValidator (Some (tg_NodeList (Dpos.graph3 20))) (Some (Dpos.block3 20))).
Definition late (n : nat) : Z := 13 + 45 + Z.of_nat n.
Definition started3 : controller := step3 late (newController 21) start3.

Definition inquiry3 : HD_ReelectInquiryReqMsg := mkInquiryReq 21 0 1 58 2%N 2%N.
Definition request3 : HD_ReelectLeaderReqMsg := mkLeaderReq inquiry3 [256; 512; 768]%N 59.
Definition result3 : HD_ReelectResultBroadcastMsg :=
  mkResultBroadcast 21 ReelectRSPTypeAgree None
    (Some (mkLeaderConsensus request3 [256; 512; 768]%N 60)) 61 2%N.
Definition consensus3 : controller := step3 late started3 (InResultBroadcast result3).

Lemma consensus_turn_needs_quorum_witness :
  curConsensusTurn (dc consensus3) = 1 /\
  exists rl, rb_RLResult result3 = Some rl /\ curConsensusTurn (dc consensus3) = result_turn rl /\
    lr_TimeStamp (lc_Req rl) <= lc_TimeStamp rl /\
    has_quorum (reader chain3 started3) (number (dc started3)) (Types.RlpHash (lc_Req rl))
      (lc_Votes rl).
Proof.
  destruct (consensus_turn_needs_quorum (BroadCastNodes := []) chain3 9%N 1%N
    (fun _ => Some 256%N) (fun _ => true) late started3 (InResultBroadcast result3)) as (_ & _ & Hq).
  split; [vm_compute; reflexivity|]. apply Hq. vm_compute. discriminate.
Defined.

Lemma votes_justified_witness :
  length (out (step3 late started3 (InRLReq request3))) = S (length (out started3)) /\
  justified_step chain3 9%N started3 (InRLReq request3) (step3 late started3 (InRLReq request3)).
Proof.
  split; [vm_compute; reflexivity|].
  exact (votes_justified (BroadCastNodes := []) chain3 9%N 1%N (fun _ => Some 256%N)
    (fun _ => true) late started3 (InRLReq request3)).
Defined.

Definition early (n : nat) : Z := 20.
Definition pos3 : input := InPOSFinished (mkPOSFinished 21 (Dpos.block3 21) 0 []).
Definition early3 : controller := step3 early (newController 21) start3.

Lemma mining_needs_pos_witness :
  State early3 = stMining \/ MsgPool.posNotifyCache (mp (step3 early early3 pos3)) <> [] \/
  verified_pos chain3 early3.
Proof.
  refine (mining_needs_pos chain3 9%N 1%N (fun _ => Some 256%N) (fun _ => true) early early3 pos3 _).
  vm_compute. reflexivity.
Defined.

Lemma behind_never_answered_witness :
  let c := run chain3 9%N 1%N (fun _ => Some 256%N) (fun _ => true) late (newController 21)
             [start3; InResultBroadcast result3] in
  handleInquiryReq 9%N (fun _ => Some 256%N) inquiry3 c = c.
Proof.
  refine (behind_never_answered chain3 9%N 1%N (fun _ => Some 256%N) (fun _ => true) late 21
    [start3; InResultBroadcast result3] inquiry3 _).
  vm_compute. reflexivity.
Defined.

End Witnesses.
End Controller.
