(* ===== verification/Service.v ===== *)
(** * Package [verifier]: the re-election service

    Models verifier/ctrlManager.go and verifier/leaderReElection.go.  Every
    message of the service is handled by a goroutine of its own, every
    controller runs in a goroutine of its own, and they share the manager
    under its mutex.  The model interleaves them: a goroutine is the rest of a
    handler, one action runs one goroutine up to its next blocking point, and
    an action that would block is not enabled.  Controllers are objects,
    referred to by their index in [procs]; a closed controller keeps its place
    there and may handle further messages until it sees its quit channel.

    Parameters beside those of the controller: the chain's lookup of a header
    by hash, of the topology after a header ([NewTopologyGraph]) and of the
    topology of a height ([GetTopologyGraphByNumber], read by the ca package).
    Messages and the inquiry inside a leader request are non-nil. *)

From S2P Require Import Prelude Common Crypto Types Topology Dpos TurnTimes LeaderCal Cdc.
From S2P Require Import MsgPool Engine Controller.

Record RoleUpdatedMsg := mkRoleUpdated {
  ru_Role : Z;
  ru_BlockNum : Z;
  ru_BlockHash : Hash;
  ru_Leader : Address
}.

Record ControllerManager := mkManager {
  curNumber : Z;
  ctrlMap : gmap Z nat          (* the controller of a height *)
}.

(** A controller with its channels. *)
Record proc := mkProc {
  ctl : controller;
  msgCh : list Controller.input;
  quitCh : bool;                (* closed *)
  exited : bool
}.

(** What a handler still has to do. *)
Inductive goroutine :=
| GStart (number : Z) (msg : startControllerMsg)      (* StartController *)
| GStartSend (id : nat) (i : Controller.input)        (* its send, under the mutex *)
| GGet (number : Z) (i : Controller.input)            (* GetController, then send *)
| GInquiry (req : HD_ReelectInquiryReqMsg)            (* GetCurController *)
| GSend (id : nat) (i : Controller.input).

Record service := mkService {
  mgr : ControllerManager;
  procs : list proc;
  routines : list goroutine
}.

Module Service.

(** Capacity of a controller's message channel. *)
Definition msgCh_cap : nat := 10.

Definition NewControllerManager : ControllerManager := mkManager 0 ∅.
Definition NewLeaderIdentityService : service := mkService NewControllerManager [] [].

Definition set_ctl (p : proc) (c : controller) : proc := mkProc c (msgCh p) (quitCh p) (exited p).
Definition set_msgCh (p : proc) (q : list Controller.input) : proc :=
  mkProc (ctl p) q (quitCh p) (exited p).
Definition close_proc (p : proc) : proc := mkProc (ctl p) (msgCh p) true (exited p).
Definition exit_proc (p : proc) : proc := mkProc (ctl p) (msgCh p) (quitCh p) true.
Definition new_proc (number : Z) : proc := mkProc (Controller.newController number) [] false false.
Definition ctl_Number (p : proc) : Z := number (dc (ctl p)).

Section Manager.
Context `{GoRange}.

Definition getController (number : Z) (cm : ControllerManager) (ps : list proc)
    : ControllerManager * list proc * nat :=
  match ctrlMap cm !! number with
  | Some id => (cm, ps, id)
  | None => (mkManager (curNumber cm) (<[number := length ps]> (ctrlMap cm)),
             ps ++ [new_proc number], length ps)
  end.

Definition isLegalNumber (number : Z) (cm : ControllerManager) : bool :=
  negb (number <? curNumber cm) && negb (u64 (curNumber cm + 2) <? number).

Definition GetController (number : Z) (cm : ControllerManager) (ps : list proc)
    : option (ControllerManager * list proc * nat) :=
  if isLegalNumber number cm then Some (getController number cm ps) else None.

Definition GetCurController (cm : ControllerManager) (ps : list proc)
    : ControllerManager * list proc * nat :=
  getController (curNumber cm) cm ps.

Definition delKeys (cm : ControllerManager) : list (Z * nat) :=
  filter (fun kv => kv.1 < curNumber cm) (range (ctrlMap cm)).

Definition fixCtrlMap (cm : ControllerManager) (ps : list proc) : ControllerManager * list proc :=
  if bool_decide (size (ctrlMap cm) = 0%nat) then (cm, ps)
  else
    (mkManager (curNumber cm) (foldl (fun m kv => delete kv.1 m) (ctrlMap cm) (delKeys cm)),
     foldl (fun ps kv => alter close_proc kv.2 ps) ps (delKeys cm)).

(** [StartController] up to its send; [None] when the height is in the past. *)
Definition StartController (number : Z) (cm : ControllerManager) (ps : list proc)
    : option (ControllerManager * list proc * nat) :=
  if number <? curNumber cm then None
  else
    let '(cm, ps) := if curNumber cm <? number
                     then fixCtrlMap (mkManager number (ctrlMap cm)) ps else (cm, ps) in
    Some (getController number cm ps).

End Manager.

Section Handlers.
Context `{GoRange} `{Crypto} `{E : DPOSEngine}.
Context (chain : Chain) (broadcastNode : Address) (own : Address).
Context (SignHash : Hash -> option Signature) (VerifyHeader : Header -> bool).
Context (clock : Z -> nat -> Z).
Context (GetHeaderByHash : Hash -> option Header).
Context (NewTopologyGraph : Header -> option TopologyGraph).
Context (GetTopologyGraphByNumber : Z -> option TopologyGraph).

(** [ca.GetTopologyByNumber]. *)
Definition GetTopologyByNumber (reqTypes number : Z) : option TopologyGraph :=
  match GetTopologyGraphByNumber number with
  | None => None
  | Some tg =>
      Some (mkGraph (tg_Number tg)
        (filter (fun node => Z.land (tn_Type node) reqTypes <> 0) (tg_NodeList tg))
        (tg_CurNodeNumber tg))
  end.

Definition genValidatorList (header : Header) : option TopologyGraph :=
  match NewTopologyGraph header with
  | None => None
  | Some newGraph =>
      Some (mkGraph (tg_Number newGraph)
        (filter (fun node => tn_Type node = RoleValidator) (tg_NodeList newGraph)) 0)
  end.

Definition getRoleFromTopology (validators : TopologyGraph) : Z :=
  match filter (fun v => tn_Account v = own) (tg_NodeList validators) with
  | v :: _ => tn_Type v
  | [] => RoleNil
  end.

Definition newBlockReadyBCHandle (header : option Header) : list goroutine :=
  match header with
  | None => []
  | Some header =>
      match genValidatorList header with
      | None => []
      | Some validators =>
          [GStart (u64 (Uint64 (Number header) + 1))
             (mkStart (getRoleFromTopology validators) (Some (tg_NodeList validators))
                (Some header))]
      end
  end.

Definition roleUpdateMsgHandle (msg : RoleUpdatedMsg) : list goroutine :=
  if bool_decide (ru_Leader msg = 0%N) then []
  else
    match GetHeaderByHash (ru_BlockHash msg) with
    | None => []
    | Some header =>
        match GetTopologyByNumber RoleValidator (ru_BlockNum msg) with
        | None => []
        | Some validators =>
            [GStart (u64 (ru_BlockNum msg + 1))
               (mkStart (ru_Role msg) (Some (tg_NodeList validators)) (Some header))]
        end
    end.

Definition blockPOSFinishedMsgHandle (msg : BlockPOSFinishedNotify) : list goroutine :=
  if bool_decide (Leader (pf_Header msg) = 0%N) then []
  else [GGet (pf_Number msg) (Controller.InPOSFinished msg)].

(** The messages of the service's loop. *)
Inductive svc_input :=
| NewBlockReady (header : option Header)
| RoleUpdated (msg : RoleUpdatedMsg)
| BlkPOSNotify (msg : BlockPOSFinishedNotify)
| RLInquiryReq (req : HD_ReelectInquiryReqMsg)
| RLInquiryRsp (rsp : HD_ReelectInquiryRspMsg)
| RLReq (req : HD_ReelectLeaderReqMsg)
| RLVote (msg : HD_ReelectLeaderVoteMsg)
| RLResultBC (msg : HD_ReelectResultBroadcastMsg)
| RLResultRsp (rsp : HD_ReelectResultRspMsg).

(** The goroutine a message starts, up to its first use of the manager. *)
Definition spawn (e : svc_input) : list goroutine :=
  match e with
  | NewBlockReady header => newBlockReadyBCHandle header
  | RoleUpdated msg => roleUpdateMsgHandle msg
  | BlkPOSNotify msg => blockPOSFinishedMsgHandle msg
  | RLInquiryReq req => [GInquiry req]
  | RLInquiryRsp rsp => [GGet (ir_Number rsp) (Controller.InInquiryRsp rsp)]
  | RLReq req => [GGet (iq_Number (lr_InquiryReq req)) (Controller.InRLReq req)]
  | RLVote msg => [GGet (lv_Number msg) (Controller.InRLVote msg)]
  | RLResultBC msg => [GGet (rb_Number msg) (Controller.InResultBroadcast msg)]
  | RLResultRsp rsp => [GGet (rr_Number rsp) (Controller.InResultRsp rsp)]
  end.

Definition holds_lock (g : goroutine) : bool :=
  match g with GStartSend _ _ => true | _ => false end.
Definition locked (s : service) : bool := existsb holds_lock (routines s).

(** [ReceiveMsg]: blocks when the channel is full. *)
Definition ReceiveMsg (id : nat) (i : Controller.input) (ps : list proc) : option (list proc) :=
  match ps !! id with
  | None => None
  | Some p =>
      if bool_decide (length (msgCh p) < msgCh_cap)%nat
      then Some (<[id := set_msgCh p (msgCh p ++ [i])]> ps) else None
  end.

(** Run goroutine [k] to its next blocking point. *)
Definition run_routine (k : nat) (s : service) : option service :=
  match routines s !! k with
  | None => None
  | Some g =>
      match g with
      | GStart number msg =>
          if locked s then None
          else Some match StartController number (mgr s) (procs s) with
               | None => mkService (mgr s) (procs s) (delete k (routines s))
               | Some (cm, ps, id) =>
                   mkService cm ps (<[k := GStartSend id (Controller.InStart msg)]> (routines s))
               end
      | GGet number i =>
          if locked s then None
          else Some match GetController number (mgr s) (procs s) with
               | None => mkService (mgr s) (procs s) (delete k (routines s))
               | Some (cm, ps, id) => mkService cm ps (<[k := GSend id i]> (routines s))
               end
      | GInquiry req =>
          if locked s then None
          else
            let '(cm, ps, id) := GetCurController (mgr s) (procs s) in
            let g' :=
              if iq_Number req <? match ps !! id with Some p => ctl_Number p | None => 0 end
              then GSend id (Controller.InNewBlockReady
                     (mkNewBlockReadyRsp (Types.RlpHash req) (iq_From req) (iq_Number req)))
              else GGet (iq_Number req) (Controller.InInquiryReq req) in
            Some (mkService cm ps (<[k := g']> (routines s)))
      | GStartSend id i | GSend id i =>
          match ReceiveMsg id i (procs s) with
          | None => None
          | Some ps => Some (mkService (mgr s) ps (delete k (routines s)))
          end
      end
  end.

(** What can happen next: a message arrives, a handler goes on, a controller
    takes a message, a timer or its quit channel. *)
Inductive action :=
| AReceive (e : svc_input)
| ARoutine (k : nat)
| AMsg (id : nat)
| ATimer (id : nat)
| AReelectTimer (id : nat)
| AQuit (id : nat).

Definition ctl_step (c : controller) (i : Controller.input) : controller :=
  Controller.step chain broadcastNode own SignHash VerifyHeader (clock (number (dc c))) c i.
#[local] Arguments ctl_step : simpl never.

(** One iteration of a controller's [run]; an expired timer is no longer armed. *)
Definition proc_step (a : action) (p : proc) : option proc :=
  if exited p then None
  else
    match a with
    | AMsg _ =>
        match msgCh p with
        | [] => None
        | i :: q => Some (set_ctl (set_msgCh p q) (ctl_step (ctl p) i))
        end
    | ATimer _ =>
        match timer (ctl p) with
        | None => None
        | Some _ => Some (set_ctl p (ctl_step (Controller.setTimer 0 (ctl p)) Controller.InTimer))
        end
    | AReelectTimer _ =>
        match reelectTimer (ctl p) with
        | None => None
        | Some _ => Some (set_ctl p (ctl_step (Controller.setReelectTimer 0 (ctl p))
                                       Controller.InReelectTimer))
        end
    | AQuit _ => if quitCh p then Some (exit_proc p) else None
    | _ => None
    end.

Definition on_proc (id : nat) (a : action) (s : service) : option service :=
  match procs s !! id with
  | None => None
  | Some p =>
      match proc_step a p with
      | None => None
      | Some p' => Some (mkService (mgr s) (<[id := p']> (procs s)) (routines s))
      end
  end.

Definition svc_step (s : service) (a : action) : option service :=
  match a with
  | AReceive e => Some (mkService (mgr s) (procs s) (routines s ++ spawn e))
  | ARoutine k => run_routine k s
  | AMsg id | ATimer id | AReelectTimer id | AQuit id => on_proc id a s
  end.

Inductive reachable : service -> Prop :=
| reach_init : reachable NewLeaderIdentityService
| reach_step s a s' : reachable s -> svc_step s a = Some s' -> reachable s'.

(** ** Invariant *)

(** A message for height [n] is for the controller of that height; only the
    answer "new block ready" is given by the controller of a later one. *)
Definition addressed (n : Z) (i : Controller.input) : Prop :=
  match i with
  | Controller.InPOSFinished msg => pf_Number msg = n
  | Controller.InInquiryReq req => iq_Number req = n
  | Controller.InInquiryRsp rsp => ir_Number rsp = n
  | Controller.InRLReq req => iq_Number (lr_InquiryReq req) = n
  | Controller.InRLVote msg => lv_Number msg = n
  | Controller.InResultBroadcast msg => rb_Number msg = n
  | Controller.InResultRsp rsp => rr_Number rsp = n
  | Controller.InNewBlockReady msg => nb_rspNumber msg < n
  | _ => True
  end.

Definition proc_ok (cm : ControllerManager) (id : nat) (p : proc) : Prop :=
  (if quitCh p then ctl_Number p < curNumber cm else ctrlMap cm !! ctl_Number p = Some id) /\
  (exited p = true -> quitCh p = true) /\
  (length (msgCh p) <= msgCh_cap)%nat /\ Forall (addressed (ctl_Number p)) (msgCh p) /\
  Controller.ctl_ok broadcastNode (ctl p).

Definition window_ok (cm : ControllerManager) (ps : list proc) : Prop :=
  forall k id, ctrlMap cm !! k = Some id ->
    curNumber cm <= k <= curNumber cm + 2 /\
    exists p, ps !! id = Some p /\ ctl_Number p = k /\ quitCh p = false.

Definition distinct (ps : list proc) : Prop :=
  forall id1 id2 p1 p2, ps !! id1 = Some p1 -> ps !! id2 = Some p2 ->
    ctl_Number p1 = ctl_Number p2 -> id1 = id2.

Definition mgr_ok (cm : ControllerManager) (ps : list proc) : Prop :=
  0 <= curNumber cm /\ window_ok cm ps /\
  (forall id p, ps !! id = Some p -> proc_ok cm id p) /\ distinct ps.

Definition routine_ok (ps : list proc) (g : goroutine) : Prop :=
  match g with
  | GStart _ _ | GInquiry _ => True
  | GGet n i => addressed n i
  | GSend id i => exists p, ps !! id = Some p /\ addressed (ctl_Number p) i
  | GStartSend id i =>
      exists p, ps !! id = Some p /\ addressed (ctl_Number p) i /\ quitCh p = false
  end.

Definition svc_ok (s : service) : Prop :=
  mgr_ok (mgr s) (procs s) /\ Forall (routine_ok (procs s)) (routines s) /\
  (length (filter holds_lock (routines s)) <= 1)%nat.

(** Objects stay where they are and keep their height. *)
Definition extends (ps ps' : list proc) : Prop :=
  forall id p, ps !! id = Some p -> exists p', ps' !! id = Some p' /\ ctl_Number p' = ctl_Number p.

Lemma extends_trans ps1 ps2 ps3 : extends ps1 ps2 -> extends ps2 ps3 -> extends ps1 ps3.
Proof.
  intros H12 H23 id p Hp. destruct (H12 id p Hp) as (p2 & Hp2 & <-). by apply H23.
Qed.

Lemma newController_ok n : Controller.ctl_ok broadcastNode (Controller.newController n).
Proof.
  split_and!; [apply Cdc.newCDC_ok|apply MasterCache.newMasterCache_ok|].
  split_and!; simpl; [constructor|constructor|]. by apply map_Forall_empty.
Qed.

Lemma getController_ok n cm ps cm' ps' id :
  curNumber cm <= n <= curNumber cm + 2 -> mgr_ok cm ps ->
  getController n cm ps = (cm', ps', id) ->
  mgr_ok cm' ps' /\ extends ps ps' /\ curNumber cm' = curNumber cm /\
  ctrlMap cm' !! n = Some id.
Proof.
  intros Hn (H0c & Hw & Hp & Hd). unfold getController.
  destruct (ctrlMap cm !! n) as [id0|] eqn:En; intros [= <- <- <-].
  { split_and!; try done. intros id p. eauto. }
  assert (Hfresh : forall id p, ps !! id = Some p -> ctl_Number p <> n).
  { intros id p Hl Heq. destruct (Hp id p Hl) as (Hq & _). destruct (quitCh p); [lia|congruence]. }
  split; [|split; [|split; [done|by simpl; rewrite lookup_insert_eq]]].
  2:{ intros id p Hl. exists p. split; [|done]. by apply lookup_app_l_Some. }
  assert (Hold : forall id p, (ps ++ [new_proc n]) !! id = Some p ->
    ps !! id = Some p \/ id = length ps /\ p = new_proc n).
  { intros id p [Hl|[Hge Hl]]%lookup_app_Some; [by left|]. right.
    apply list_lookup_singleton_Some in Hl as [? <-]. split; [lia|done]. }
  split_and!; [done|..].
  - intros k id Hk. destruct (decide (k = n)) as [->|Hne].
    + simpl in Hk. rewrite lookup_insert_eq in Hk. injection Hk as <-. split; [simpl; lia|].
      exists (new_proc n). split_and!; try done. by apply list_lookup_middle.
    + simpl in Hk. rewrite lookup_insert_ne in Hk by done. destruct (Hw k id Hk) as (? & p & Hl & ? & ?).
      split; [done|]. exists p. split_and!; try done. by apply lookup_app_l_Some.
  - intros id p [Hl|[-> ->]]%Hold.
    + destruct (Hp id p Hl) as (Hq & Hrest). split; [|done]. simpl.
      destruct (quitCh p); [done|]. rewrite lookup_insert_ne; [done|]. by apply not_eq_sym, Hfresh with id.
    + split_and!; simpl; try done; [by rewrite lookup_insert_eq|lia|apply newController_ok].
  - intros id1 id2 p1 p2 [H1|[-> ->]]%Hold [H2|[-> ->]]%Hold Heq; try done.
    + by eapply Hd.
    + by destruct (Hfresh id1 p1 H1).
    + by destruct (Hfresh id2 p2 H2).
Qed.

Lemma in_cons_ne {A} (x y : A) l : x <> y -> x ∈ y :: l <-> x ∈ l.
Proof. rewrite elem_of_cons. tauto. Qed.

Lemma delete_loop_lookup (l : list (Z * nat)) (m : gmap Z nat) k :
  foldl (fun m kv => delete kv.1 m) m l !! k = if bool_decide (k ∈ l.*1) then None else m !! k.
Proof.
  revert m. induction l as [|[k0 v0] l IH]; intros m; [done|]. cbn [foldl fst].
  rewrite IH, fmap_cons. cbn [fst].
  destruct (decide (k = k0)) as [->|Hne].
  - rewrite lookup_delete_eq, (bool_decide_eq_true_2 (k0 ∈ k0 :: _)) by set_solver. by case_match.
  - rewrite lookup_delete_ne by done. rewrite (bool_decide_ext _ _ (in_cons_ne _ _ _ Hne)). done.
Qed.

Lemma close_loop_lookup (l : list (Z * nat)) (ps : list proc) id :
  foldl (fun (ps : list proc) kv => alter close_proc kv.2 ps) ps l !! id
  = (if bool_decide (id ∈ l.*2) then close_proc else (fun p => p)) <$> ps !! id.
Proof.
  revert ps. induction l as [|[k0 v0] l IH]; intros ps.
  { simpl. by destruct (ps !! id). }
  cbn [foldl snd]. rewrite IH, fmap_cons. cbn [snd].
  destruct (decide (id = v0)) as [->|Hne].
  - rewrite list_lookup_alter_eq, (bool_decide_eq_true_2 (v0 ∈ v0 :: _)) by set_solver.
    destruct (ps !! v0); [|done]. simpl. by case_match.
  - rewrite list_lookup_alter_ne by done. rewrite (bool_decide_ext _ _ (in_cons_ne _ _ _ Hne)). done.
Qed.

Lemma elem_of_delKeys n m k id :
  (k, id) ∈ delKeys (mkManager n m) <-> m !! k = Some id /\ k < n.
Proof.
  unfold delKeys. rewrite list_elem_of_filter, range_perm, elem_of_map_to_list. simpl. tauto.
Qed.

Lemma fixCtrlMap_lookup n m ps :
  let r := fixCtrlMap (mkManager n m) ps in
  curNumber r.1 = n /\
  (forall k, ctrlMap r.1 !! k = if k <? n then None else m !! k) /\
  (forall id, exists dead : bool,
     r.2 !! id = (if dead then close_proc else (fun p => p)) <$> ps !! id /\
     (dead = true <-> exists k, m !! k = Some id /\ k < n)).
Proof.
  cbn zeta. unfold fixCtrlMap. case_bool_decide as Hs.
  - apply map_size_empty_inv in Hs. simpl in Hs. subst m. split_and!; [done| |].
    + intros k. rewrite lookup_empty. by case_match.
    + intros id. exists false. simpl. split; [by destruct (ps !! id)|]. split; [done|].
      intros (k & Hk & _). by rewrite lookup_empty in Hk.
  - cbn [fst snd curNumber ctrlMap]. split_and!; [done| |].
    + intros k. rewrite delete_loop_lookup. case_bool_decide as Hin.
      * apply list_elem_of_fmap in Hin as ([k' v] & -> & [_ Hlt]%elem_of_delKeys).
        by rewrite (proj2 (Z.ltb_lt _ _)).
      * destruct (Z.ltb_spec k n); [|done]. destruct (m !! k) as [v|] eqn:Ek; [|done].
        destruct Hin. apply list_elem_of_fmap. exists (k, v). split; [done|].
        by apply elem_of_delKeys.
    + intros id. eexists. rewrite close_loop_lookup. split; [done|].
      rewrite bool_decide_eq_true, list_elem_of_fmap. split.
      * intros ([k v] & -> & Hd%elem_of_delKeys). eauto.
      * intros (k & Hk). exists (k, id). split; [done|]. by apply elem_of_delKeys.
Qed.

Lemma fixCtrlMap_ok n m c ps :
  c < n -> mgr_ok (mkManager c m) ps ->
  let r := fixCtrlMap (mkManager n m) ps in
  mgr_ok r.1 r.2 /\ extends ps r.2 /\ curNumber r.1 = n.
Proof.
  intros Hc (H0c & Hw & Hp & Hd). cbn zeta.
  destruct (fixCtrlMap_lookup n m ps) as (Hcur & Hm & Hps).
  destruct (fixCtrlMap (mkManager n m) ps) as [cm' ps']. simpl in *.
  assert (Hext : extends ps ps').
  { intros id p Hl. destruct (Hps id) as (dead & He & _). rewrite Hl in He.
    eexists. split; [exact He|]. by destruct dead. }
  assert (Hback : forall id p', ps' !! id = Some p' ->
    exists p, ps !! id = Some p /\ ctl_Number p' = ctl_Number p).
  { intros id p' Hl. destruct (Hps id) as (dead & He & _). rewrite Hl in He.
    destruct (ps !! id) as [p|]; [|done]. exists p. split; [done|].
    injection He as ->. by destruct dead. }
  split; [|done]. split_and!; [lia|..].
  - intros k id Hk. rewrite Hm in Hk. destruct (Z.ltb_spec k n); [done|].
    destruct (Hw k id Hk) as (? & p & Hl & Hn & Hq). rewrite Hcur. simpl in *. split; [lia|].
    destruct (Hps id) as (dead & He & Hdead). rewrite Hl in He. simpl in He.
    destruct dead; [|eauto]. destruct Hdead as [(k' & Hk' & ?) _]; [done|].
    destruct (Hw k' id Hk') as (_ & p' & Hl' & Hn' & _). simplify_eq. lia.
  - intros id p' Hl'. destruct (Hps id) as (dead & He & Hdead). rewrite Hl' in He.
    destruct (ps !! id) as [p|] eqn:Hl; [|done]. injection He as ->.
    destruct (Hp id p Hl) as (Hq & Hx & Hrest). simpl in Hq. unfold proc_ok. rewrite Hcur, Hm.
    destruct dead.
    + destruct Hdead as [(k & Hk & Hlt) _]; [done|].
      destruct (Hw k id Hk) as (_ & p' & Hl2 & Hn & _). simplify_eq. split; [done|]. by split.
    + split; [|by split]. destruct (quitCh p); [lia|].
      destruct (Z.ltb_spec (ctl_Number p) n); [|done].
      destruct Hdead as [_ Hdead]. discriminate Hdead. eauto.
  - intros id1 id2 p1 p2 (q1 & H1 & ->)%Hback (q2 & H2 & ->)%Hback. by eapply Hd.
Qed.

Lemma StartController_ok n cm ps cm' ps' id :
  mgr_ok cm ps -> StartController n cm ps = Some (cm', ps', id) ->
  mgr_ok cm' ps' /\ extends ps ps' /\ curNumber cm <= curNumber cm' /\ curNumber cm' = n /\
  ctrlMap cm' !! n = Some id.
Proof.
  intros Hok. unfold StartController. destruct (Z.ltb_spec n (curNumber cm)); [done|].
  destruct (Z.ltb_spec (curNumber cm) n).
  - destruct cm as [c m]. simpl in *.
    destruct (fixCtrlMap_ok n m c ps) as (Hok1 & He1 & Hc1); [done|done|].
    destruct (fixCtrlMap (mkManager n m) ps) as [cm1 ps1]. simpl in *. intros [= Hg].
    apply getController_ok in Hg as (Hok2 & He2 & Hc2 & Hid); [|lia|done].
    split_and!; try done; [by eapply extends_trans|lia|congruence].
  - intros [= Hg]. apply getController_ok in Hg as (Hok2 & He2 & Hc2 & Hid); [|lia|done].
    split_and!; try done; lia.
Qed.

Lemma GetController_ok n cm ps cm' ps' id :
  mgr_ok cm ps -> GetController n cm ps = Some (cm', ps', id) ->
  mgr_ok cm' ps' /\ extends ps ps' /\ curNumber cm' = curNumber cm /\
  ctrlMap cm' !! n = Some id.
Proof.
  intros Hok. unfold GetController, isLegalNumber.
  destruct (Z.ltb_spec n (curNumber cm)); [done|].
  destruct (Z.ltb_spec (u64 (curNumber cm + 2)) n); [done|]. simpl. intros [= Hg].
  pose proof (proj1 Hok).
  assert (u64 (curNumber cm + 2) <= curNumber cm + 2) by (apply Z.mod_le; lia).
  eapply getController_ok; [|done|done]. lia.
Qed.

(** Steps of one object: its height and quit channel stay. *)
Lemma upd_proc_ok s id p p' :
  svc_ok s -> procs s !! id = Some p ->
  ctl_Number p' = ctl_Number p -> quitCh p' = quitCh p ->
  (exited p' = true -> quitCh p' = true) -> (length (msgCh p') <= msgCh_cap)%nat ->
  Forall (addressed (ctl_Number p')) (msgCh p') -> Controller.ctl_ok broadcastNode (ctl p') ->
  svc_ok (mkService (mgr s) (<[id := p']> (procs s)) (routines s)).
Proof.
  intros ((H0c & Hw & Hp & Hd) & Hr & Hone) Hl Hn Hq Hx Hlen Hadr Hctl.
  assert (Hlk : forall id' q', <[id := p']> (procs s) !! id' = Some q' ->
    exists q, procs s !! id' = Some q /\ ctl_Number q' = ctl_Number q /\ quitCh q' = quitCh q).
  { intros id' q' Hq'. destruct (decide (id' = id)) as [->|].
    - rewrite list_lookup_insert_eq in Hq' by (by eapply lookup_lt_Some). simplify_eq. eauto.
    - rewrite list_lookup_insert_ne in Hq' by done. eauto. }
  assert (Hfw : forall id' q, procs s !! id' = Some q ->
    exists q', <[id := p']> (procs s) !! id' = Some q' /\
               ctl_Number q' = ctl_Number q /\ quitCh q' = quitCh q).
  { intros id' q Hq'. destruct (decide (id' = id)) as [->|].
    - rewrite list_lookup_insert_eq by (by eapply lookup_lt_Some). simplify_eq. eauto.
    - rewrite list_lookup_insert_ne by done. eauto. }
  split; [split_and!; [exact H0c|..]|split; [|exact Hone]]; cbn [mgr procs routines].
  - intros k id' (? & q & Hlq & <- & Hqq)%Hw. split; [done|].
    destruct (Hfw id' q Hlq) as (q' & ? & ? & ?). exists q'. split_and!; congruence.
  - intros id' q' Hq'. destruct (decide (id' = id)) as [->|].
    + rewrite list_lookup_insert_eq in Hq' by (by eapply lookup_lt_Some). simplify_eq.
      destruct (Hp id p Hl) as (Hpq & _). split; [by rewrite Hq, Hn|by split_and!].
    + rewrite list_lookup_insert_ne in Hq' by done. by apply Hp.
  - intros id1 id2 p1 p2 (q1 & Hl1 & -> & _)%Hlk (q2 & Hl2 & -> & _)%Hlk. by eapply Hd.
  - eapply Forall_impl; [exact Hr|]. intros [| | | |] Hg; simpl in *; try done.
    + destruct Hg as (q & Hlq & ? & ?). destruct (Hfw _ q Hlq) as (q' & ? & Hn' & Hq').
      exists q'. by rewrite Hn', Hq'.
    + destruct Hg as (q & Hlq & ?). destruct (Hfw _ q Hlq) as (q' & ? & Hn' & _).
      exists q'. by rewrite Hn'.
Qed.

Lemma ctl_step_number c i : number (dc (ctl_step c i)) = number (dc c).
Proof. unfold ctl_step. apply Controller.step_turn. Qed.

Lemma ctl_step_ok c i :
  Controller.ctl_ok broadcastNode c -> Controller.ctl_ok broadcastNode (ctl_step c i).
Proof. apply Controller.step_ok. Qed.

Lemma proc_step_ok a p p' cm id :
  proc_ok cm id p -> proc_step a p = Some p' ->
  ctl_Number p' = ctl_Number p /\ quitCh p' = quitCh p /\
  (exited p' = true -> quitCh p' = true) /\ (length (msgCh p') <= msgCh_cap)%nat /\
  Forall (addressed (ctl_Number p')) (msgCh p') /\ Controller.ctl_ok broadcastNode (ctl p').
Proof.
  intros (_ & Hx & Hlen & Hadr & Hok). unfold proc_step, ctl_Number in *.
  destruct (exited p) eqn:Ex; [done|]. destruct a; try done.
  - destruct (msgCh p) as [|i q] eqn:Eq; [done|]. intros [= <-]. simpl in *.
    rewrite ctl_step_number. apply Forall_cons in Hadr as [_ ?].
    split_and!; try done; [congruence|lia|by apply ctl_step_ok].
  - destruct (timer (ctl p)); [|done]. intros [= <-]. simpl in *. rewrite ctl_step_number.
    split_and!; try done; [congruence|by apply ctl_step_ok].
  - destruct (reelectTimer (ctl p)); [|done]. intros [= <-]. simpl in *. rewrite ctl_step_number.
    split_and!; try done; [congruence|by apply ctl_step_ok].
  - destruct (quitCh p) eqn:Equit; [|done]. intros [= <-]. by split_and!.
Qed.

Lemma on_proc_ok id a s s' : svc_ok s -> on_proc id a s = Some s' -> svc_ok s'.
Proof.
  intros Hok. unfold on_proc. destruct (procs s !! id) as [p|] eqn:Ep; [|done].
  destruct (proc_step a p) as [p'|] eqn:Es; [|done]. intros [= <-].
  pose proof Hok as ((_ & _ & Hp & _) & _).
  destruct (proc_step_ok a p p' (mgr s) id (Hp id p Ep) Es) as (? & ? & ? & ? & ? & ?).
  by eapply upd_proc_ok.
Qed.

(** Routines that do not hold the mutex survive any extension. *)
Lemma routines_extends ps ps' gs :
  extends ps ps' -> filter holds_lock gs = [] -> Forall (routine_ok ps) gs ->
  Forall (routine_ok ps') gs.
Proof.
  intros He Hf Hg. rewrite Forall_forall in Hg |- *. intros g Hin. specialize (Hg g Hin).
  destruct g; simpl in *; try done.
  - exfalso. apply (not_elem_of_nil (GStartSend id i)). rewrite <- Hf.
    by apply list_elem_of_filter.
  - destruct Hg as (p & Hl & ?). destruct (He _ p Hl) as (p' & ? & Hn').
    exists p'. by rewrite Hn'.
Qed.

Lemma unlocked s : locked s = false -> filter holds_lock (routines s) = [].
Proof.
  unfold locked. induction (routines s) as [|g gs IH]; [done|]. simpl.
  intros [Hg Hgs]%orb_false_iff. rewrite filter_cons, Hg. by apply IH.
Qed.

Lemma holds_lock_insert gs k g g' :
  gs !! k = Some g -> filter holds_lock gs = [] ->
  (length (filter holds_lock (<[k := g']> gs)) <= 1)%nat.
Proof.
  intros Hk Hf. rewrite insert_take_drop by (by eapply lookup_lt_Some).
  rewrite <- (take_drop_middle gs k g Hk), filter_app, filter_cons in Hf.
  apply app_eq_nil in Hf as [Ht Hd]. rewrite filter_app, Ht, filter_cons.
  assert (filter holds_lock (drop (S k) gs) = []) as -> by (by case_decide).
  destruct (decide (holds_lock g')); simpl; lia.
Qed.

Lemma holds_lock_delete gs k :
  (length (filter holds_lock (delete k gs)) <= length (filter holds_lock gs))%nat.
Proof.
  destruct (gs !! k) as [g|] eqn:Ek; cycle 1.
  { rewrite delete_take_drop, take_ge, drop_ge, app_nil_r by (apply lookup_ge_None in Ek; lia). done. }
  rewrite delete_take_drop. rewrite <- (take_drop_middle gs k g Ek) at 3.
  rewrite !filter_app, filter_cons, !length_app. case_decide; simpl; lia.
Qed.

(** Running a goroutine that does not hold the mutex, with the manager free. *)
Lemma run_manager_ok s k g cm ps g' :
  svc_ok s -> routines s !! k = Some g -> locked s = false -> mgr_ok cm ps ->
  extends (procs s) ps -> routine_ok ps g' ->
  svc_ok (mkService cm ps (<[k := g']> (routines s))).
Proof.
  intros (_ & Hr & _) Hk Hlk Hok He Hg. pose proof (unlocked s Hlk) as Hf.
  split; [done|]. split; simpl; [|by eapply holds_lock_insert].
  apply Forall_insert; [|done]. by eapply routines_extends.
Qed.

Lemma drop_routine_ok s k : svc_ok s -> svc_ok (mkService (mgr s) (procs s) (delete k (routines s))).
Proof.
  intros (Hm & Hr & Hone). split; [done|]. split; simpl; [by apply Forall_delete|].
  pose proof (holds_lock_delete (routines s) k). lia.
Qed.

Lemma send_ok s k id i ps :
  svc_ok s -> (exists p, procs s !! id = Some p /\ addressed (ctl_Number p) i) ->
  ReceiveMsg id i (procs s) = Some ps -> svc_ok (mkService (mgr s) ps (delete k (routines s))).
Proof.
  intros Hok (p & Hl & Hadr). unfold ReceiveMsg. rewrite Hl.
  case_bool_decide as Hlen; [|done]. intros [= <-].
  pose proof Hok as ((_ & _ & Hp & _) & _). destruct (Hp id p Hl) as (_ & Hx & _ & Hq & Hc).
  apply (drop_routine_ok (mkService (mgr s) _ (routines s)) k).
  eapply upd_proc_ok; try done; simpl.
  - rewrite length_app. simpl. lia.
  - apply Forall_app. split; [done|]. by constructor.
Qed.

Lemma run_routine_ok k s s' : svc_ok s -> run_routine k s = Some s' -> svc_ok s'.
Proof.
  intros Hok. pose proof Hok as (Hm & Hr & _). unfold run_routine.
  destruct (routines s !! k) as [g|] eqn:Ek; [|done].
  pose proof (Forall_lookup_1 _ _ _ _ Hr Ek) as Hg.
  destruct g as [n msg|id i|n i|req|id i]; simpl in Hg.
  - destruct (locked s) eqn:El; [done|]. intros [= <-].
    destruct (StartController n (mgr s) (procs s)) as [[[cm ps] id]|] eqn:Es;
      [|by apply drop_routine_ok].
    apply StartController_ok in Es as (Hok' & He & _ & _ & Hid); [|done].
    eapply run_manager_ok; try done. pose proof Hok' as (_ & Hw & _).
    destruct (Hw n id Hid) as (_ & p & ? & ? & ?). by exists p.
  - destruct (ReceiveMsg id i (procs s)) as [ps|] eqn:Er; [|done]. intros [= <-].
    destruct Hg as (p & ? & ? & _). eapply send_ok; eauto.
  - destruct (locked s) eqn:El; [done|]. intros [= <-].
    destruct (GetController n (mgr s) (procs s)) as [[[cm ps] id]|] eqn:Es;
      [|by apply drop_routine_ok].
    apply GetController_ok in Es as (Hok' & He & _ & Hid); [|done].
    eapply run_manager_ok; try done. pose proof Hok' as (_ & Hw & _).
    destruct (Hw n id Hid) as (_ & p & ? & <- & _). by exists p.
  - destruct (locked s) eqn:El; [done|].
    destruct (GetCurController (mgr s) (procs s)) as [[cm ps] id] eqn:Es. intros [= <-].
    apply getController_ok in Es as (Hok' & He & _ & Hid); [|lia|done].
    eapply run_manager_ok; try done. pose proof Hok' as (_ & Hw & _).
    destruct (Hw _ id Hid) as (_ & p & Hl & _ & _). rewrite Hl.
    destruct (Z.ltb_spec (iq_Number req) (ctl_Number p)); simpl; eauto.
  - destruct (ReceiveMsg id i (procs s)) as [ps|] eqn:Er; [|done]. intros [= <-].
    eapply send_ok; eauto.
Qed.

Lemma spawn_ok ps e :
  Forall (routine_ok ps) (spawn e) /\ filter holds_lock (spawn e) = [].
Proof.
  destruct e; simpl; try (split; [by repeat constructor|done]).
  - unfold newBlockReadyBCHandle. repeat case_match; split; by repeat constructor.
  - unfold roleUpdateMsgHandle. repeat case_match; split; by repeat constructor.
  - unfold blockPOSFinishedMsgHandle. case_match; split; by repeat constructor.
Qed.

Lemma svc_step_ok s a s' : svc_ok s -> svc_step s a = Some s' -> svc_ok s'.
Proof.
  intros Hok. destruct a; simpl; try apply on_proc_ok, Hok.
  - intros [= <-]. destruct Hok as (Hm & Hr & Hone).
    destruct (spawn_ok (procs s) e) as [Hs Hf]. split; [done|]. split; simpl.
    + by apply Forall_app.
    + by rewrite filter_app, Hf, app_nil_r.
  - by apply run_routine_ok.
Qed.

Lemma reachable_ok s : reachable s -> svc_ok s.
Proof.
  induction 1; [|by eapply svc_step_ok].
  split; [split_and!|split; [constructor|simpl; lia]]; simpl; [lia|..].
  - intros k id Hk. simpl in Hk. by rewrite lookup_empty in Hk.
  - intros id p Hp. simpl in Hp. by rewrite lookup_nil in Hp.
  - intros id1 id2 p1 p2 Hp. simpl in Hp. by rewrite lookup_nil in Hp.
Qed.

(** C26: Whatever messages arrive and however the goroutines interleave, the
    re-election service keeps one controller per height, ever: two controllers
    of the same height are the same object, so a node never votes at a height
    from two states.  The controllers in use are at most three, those of the
    current height and the two after it; every other one has been closed, and
    only controllers of past heights are. *)
Theorem one_controller_per_height s :
  reachable s ->
  (forall id1 id2 p1 p2, procs s !! id1 = Some p1 -> procs s !! id2 = Some p2 ->
     ctl_Number p1 = ctl_Number p2 -> id1 = id2) /\
  (forall id p, procs s !! id = Some p ->
     if quitCh p then ctl_Number p < curNumber (mgr s)
     else curNumber (mgr s) <= ctl_Number p <= curNumber (mgr s) + 2 /\
          ctrlMap (mgr s) !! ctl_Number p = Some id) /\
  (size (ctrlMap (mgr s)) <= 3)%nat.
Proof.
  intros ((_ & Hw & Hp & Hd) & _)%reachable_ok. split; [exact Hd|]. split.
  - intros id p Hl. destruct (Hp id p Hl) as (Hq & _). destruct (quitCh p); [done|].
    split; [|done]. by apply (Hw _ id).
  - rewrite <- size_dom. transitivity (size (list_to_set (seqZ (curNumber (mgr s)) 3) : gset Z)).
    + apply subseteq_size. intros k [id Hk]%elem_of_dom. destruct (Hw k id Hk) as [? _].
      apply elem_of_list_to_set, elem_of_seqZ. lia.
    + etransitivity; [apply size_list_to_set_le|]. by rewrite length_seqZ.
Qed.

(** Every message a controller gets is for it, and every controller state
    in the service is a consistent one: channels hold only messages of the
    controller's own height (or a "new block ready" duty for an earlier one),
    never more than their capacity, and the invariant of the controller holds. *)
Theorem service_routes_messages s id p :
  reachable s -> procs s !! id = Some p ->
  (length (msgCh p) <= msgCh_cap)%nat /\ Forall (addressed (ctl_Number p)) (msgCh p) /\
  Controller.ctl_ok broadcastNode (ctl p).
Proof.
  intros ((_ & _ & Hp & _) & _)%reachable_ok Hl. by destruct (Hp id p Hl) as (_ & _ & ? & ? & ?).
Qed.


Lemma unlock_delete gs k g :
  gs !! k = Some g -> holds_lock g = true -> (length (filter holds_lock gs) <= 1)%nat ->
  existsb holds_lock (delete k gs) = false.
Proof.
  intros Hk Hg Hone. rewrite delete_take_drop. rewrite <- (take_drop_middle gs k g Hk) in Hone.
  rewrite filter_app, filter_cons, length_app in Hone.
  rewrite decide_True in Hone by (by rewrite Hg). simpl in Hone.
  apply not_true_iff_false. intros (g' & Hin & Hg')%existsb_exists.
  apply list_elem_of_In, elem_of_app in Hin.
  assert (Hf : g' ∈ filter holds_lock (take k gs) ++ filter holds_lock (drop (S k) gs)).
  { rewrite <- filter_app, list_elem_of_filter, elem_of_app. split; [by rewrite Hg'|done]. }
  destruct (filter holds_lock (take k gs)); [|simpl in Hone; lia].
  destruct (filter holds_lock (drop (S k) gs)); [|simpl in Hone; lia]. by apply elem_of_nil in Hf.
Qed.

(** With room in the channel the send goes through and frees the mutex. *)
Lemma start_send_unlocks s k id i p :
  (length (filter holds_lock (routines s)) <= 1)%nat ->
  routines s !! k = Some (GStartSend id i) -> procs s !! id = Some p ->
  (length (msgCh p) < msgCh_cap)%nat ->
  exists s', svc_step s (ARoutine k) = Some s' /\ locked s' = false.
Proof.
  intros Hone Hk Hp Hlen. simpl. unfold run_routine, ReceiveMsg.
  rewrite Hk, Hp, bool_decide_eq_true_2 by done. eexists. split; [done|].
  unfold locked. simpl. by eapply unlock_delete.
Qed.

Definition svc_run (s : service) (acts : list action) : res unit service :=
  foldM (fun a s => match svc_step s a with Some s' => Ok s' | None => Err tt end) acts s.

(** The mutex is always released: when a goroutine is inside
    [StartController]'s send, its controller is running, and taking at most one
    message from the controller's channel lets the send go through, after which
    no goroutine holds the mutex. *)
Theorem mutex_released s :
  reachable s -> locked s = true ->
  exists acts s', (length acts <= 2)%nat /\ svc_run s acts = Ok s' /\ locked s' = false.
Proof.
  intros ((_ & _ & Hp & _) & Hr & Hone)%reachable_ok (g & Hin & Hg)%existsb_exists.
  apply list_elem_of_In, list_elem_of_lookup in Hin as [k Hk].
  pose proof (Forall_lookup_1 _ _ _ _ Hr Hk) as Hok.
  destruct g as [|id i| | |]; try done. destruct Hok as (p & Hl & _ & Hq).
  destruct (Hp id p Hl) as (_ & Hx & Hlen & _). rewrite Hq in Hx.
  destruct (decide (length (msgCh p) < msgCh_cap)%nat) as [Hroom|Hfull].
  { destruct (start_send_unlocks s k id i p) as (s' & Hs & Hs'); try done.
    exists [ARoutine k], s'. split; [simpl; lia|]. split; [|done].
    unfold svc_run. simpl in *. by rewrite Hs. }
  destruct (msgCh p) as [|j q] eqn:Eq; [unfold msgCh_cap in Hfull; simpl in Hfull; lia|].
  set (p' := set_ctl (set_msgCh p q) (ctl_step (ctl p) j)).
  set (s1 := mkService (mgr s) (<[id := p']> (procs s)) (routines s)).
  assert (H1 : svc_step s (AMsg id) = Some s1).
  { simpl. unfold on_proc, proc_step. rewrite Hl, Eq. destruct (exited p); [|done].
    by specialize (Hx eq_refl). }
  destruct (start_send_unlocks s1 k id i p') as (s' & Hs & Hs'); try done.
  { apply list_lookup_insert_eq. by eapply lookup_lt_Some. }
  exists [AMsg id; ARoutine k], s'. split; [simpl; lia|]. split; [|done].
  unfold svc_run. cbn [foldM]. by rewrite H1, Hs.
Qed.

End Handlers.

(** ** Witnesses: a service that received the parent block of height 21 *)

Section Witnesses.
#[local] Instance toy : Crypto := Signature.toy_crypto.
#[local] Existing Instance sorted_range.
#[local] Instance engine3 : DPOSEngine := MtxDPOS [].

Definition step3 : service -> action -> option service :=
  svc_step Controller.chain3 9%N 1%N (fun _ => Some 256%N) (fun _ => true)
    (fun _ => Controller.late) (fun _ => Some (Dpos.block3 20))
    (fun h => Some (Dpos.graph3 (Number h))) (fun n => Some (Dpos.graph3 n)).
Definition reachable3 : service -> Prop :=
  reachable Controller.chain3 9%N 1%N (fun _ => Some 256%N) (fun _ => true)
    (fun _ => Controller.late) (fun _ => Some (Dpos.block3 20))
    (fun h => Some (Dpos.graph3 (Number h))) (fun n => Some (Dpos.graph3 n)).

Definition run3 (acts : list action) : service :=
  foldl (fun s a => default s (step3 s a)) NewLeaderIdentityService acts.

Lemma run3_reachable acts : reachable3 (run3 acts).
Proof.
  induction acts as [|a acts IH] using rev_ind; [constructor|]. unfold run3.
  rewrite foldl_app. simpl. destruct (step3 _ a) eqn:Es; [|exact IH]. by eapply reach_step.
Qed.

(** The goroutine of the new block is inside its send. *)
Definition sending3 : service := run3 [AReceive (NewBlockReady (Some (Dpos.block3 20))); ARoutine 0].
(** The inquiry of the master of the first re-election waits in the channel. *)
Definition asked3 : service :=
  run3 [AReceive (NewBlockReady (Some (Dpos.block3 20))); ARoutine 0; ARoutine 0; AMsg 0;
        AReceive (RLInquiryReq Controller.inquiry3); ARoutine 0; ARoutine 0; ARoutine 0].

Lemma one_controller_per_height_witness :
  length (procs asked3) = 1%nat /\ (size (ctrlMap (mgr asked3)) <= 3)%nat.
Proof.
  split; [vm_compute; reflexivity|].
  exact (proj2 (proj2 (one_controller_per_height _ _ _ _ _ _ _ _ _ asked3 (run3_reachable _)))).
Defined.

Lemma service_routes_messages_witness :
  exists p, procs asked3 !! 0%nat = Some p /\
    msgCh p = [Controller.InInquiryReq Controller.inquiry3] /\
    Forall (addressed (ctl_Number p)) (msgCh p).
Proof.
  destruct (procs asked3 !! 0%nat) as [p|] eqn:Ep; [|vm_compute in Ep; discriminate].
  exists p. split; [reflexivity|].
  destruct (service_routes_messages _ _ _ _ _ _ _ _ _ asked3 0%nat p (run3_reachable _) Ep)
    as (_ & Ha & _).
  split; [|exact Ha]. vm_compute in Ep. injection Ep as <-. reflexivity.
Defined.

Lemma mutex_released_witness :
  exists acts s', (length acts <= 2)%nat /\
    svc_run Controller.chain3 9%N 1%N (fun _ => Some 256%N) (fun _ => true)
      (fun _ => Controller.late) (fun _ => Some (Dpos.block3 20))
      (fun h => Some (Dpos.graph3 (Number h))) (fun n => Some (Dpos.graph3 n)) sending3 acts = Ok s' /\
    locked s' = false.
Proof.
  apply (mutex_released _ _ _ _ _ _ _ _ _ sending3 (run3_reachable _)).
  vm_compute. reflexivity.
Defined.

End Witnesses.
End Service.
