(* ===== verification/TopNode.v ===== *)
(** * Package [topnode]: consensus on which nodes are online

    Models topnode/dposRing.go, messageCheck.go, topNodeState.go and
    topNodeService.go, and [RlpFnvHash] of messageState/messagePool.go.

    Votes are kept by pointer: [consensusVoteMsgHandler] stores the address of
    its loop variable, which all votes of one message share, so the votes live
    in a store ([cells]) that the handler overwrites.  Each handler runs as one
    step; the evaluations that a leader change starts as goroutines are tasks,
    run in any order.

    Parameters: the DPOS engine and its validator reader, the signer, the own
    address, and the observed online states, which may differ at every call. *)

From S2P Require Import Prelude Common Rlp Crypto Types Topology Dpos Engine.

#[export] Instance ConsensusVote_GoType : GoType HD_ConsensusVote :=
  {| go_type := Rlp.TPtr (Rlp.TStruct
       [Rlp.TByteArray; Rlp.TUint; Rlp.TByteArray; Rlp.TByteArray]);
     go_val v := Rlp.VStruct [vHash (cv_SignHash v); Rlp.VUint (cv_Round v);
                              vSignature (cv_Sign v); vAddress (cv_From v)] |}.

(** ** messageState: the FNV hash of a message *)

Module Fnv.

Definition fnv_prime : Z := 1099511628211.
Definition offset_basis : Z := 14695981039346656037.

(** Big-endian value of the first eight bytes. *)
Definition word (b : list Z) : Z := foldl (fun acc x => Z.lor (Z.shiftl acc 8) x) 0 (take 8 b).

Definition mix (hash : Z) (b : list Z) : Z := u64 (Z.lxor hash (word b) * fnv_prime).

(** The windows [data[i:]] for [i] from 0 to [len(data)-8]. *)
Fixpoint windows (data : list Z) : list (list Z) :=
  match data with
  | [] => []
  | _ :: rest => if (length data <? 8)%nat then [] else data :: windows rest
  end.

Definition fnvHash (data : list Z) : Z :=
  if (8 <=? length data)%nat then foldl mix offset_basis (windows data)
  else mix offset_basis (replicate (8 - length data) 0 ++ data).

Definition RlpFnvHash {A} `{GoType A} (x : A) : Z :=
  match Rlp.EncodeToBytes (go_type A) (go_val x) with
  | Err _ => 0
  | Ok val => fnvHash val
  end.

End Fnv.

(** ** dposRing.go *)

Module Ring.

Record voteInfo := mkVoteInfo { hash : Z; data : nat (* address of the vote *) }.

Record DPosVoteState := mkState {
  ds_Hash : Hash;
  Proposal : option OnlineConsensusReq;
  AffirmativeVotes : list voteInfo
}.

Record DPosVoteRing := mkRing {
  DPosVoteS : list DPosVoteState;
  capacity : Z;
  last : Z
}.

Definition empty_state : DPosVoteState := mkState 0%N None [].

Definition NewDPosVoteRing (capacity : Z) : DPosVoteRing :=
  mkRing (replicate (Z.to_nat capacity) empty_state) capacity (capacity - 1).

Definition state_addProposal (ds : DPosVoteState) (proposal : OnlineConsensusReq)
    : DPosVoteState * bool :=
  (mkState (ds_Hash ds) (Some proposal) (AffirmativeVotes ds),
   match Proposal ds with Some _ => true | None => false end).

(** The result is the proposal with its votes, or nils for a known vote. *)
Definition state_addVote (ds : DPosVoteState) (vote : HD_ConsensusVote) (addr : nat)
    : DPosVoteState * (option OnlineConsensusReq * list voteInfo) :=
  let insVote := mkVoteInfo (Fnv.RlpFnvHash vote) addr in
  if existsb (fun item => hash item =? hash insVote) (AffirmativeVotes ds)
  then (ds, (None, []))
  else
    let ds := mkState (ds_Hash ds) (Proposal ds) (AffirmativeVotes ds ++ [insVote]) in
    (ds, (Proposal ds, AffirmativeVotes ds)).

Definition clear (proposal : Hash) : DPosVoteState := mkState proposal None [].

Definition state_getVotes (ds : DPosVoteState) : option OnlineConsensusReq * list voteInfo :=
  (Proposal ds, AffirmativeVotes ds).

Definition insertLast (ring : DPosVoteRing) : DPosVoteRing * Z :=
  let last := Z.rem (last ring + 1) (capacity ring) in
  (mkRing (DPosVoteS ring) (capacity ring) last, last).

Definition set_slot (ring : DPosVoteRing) (k : nat) (ds : DPosVoteState) : DPosVoteRing :=
  mkRing (<[k := ds]> (DPosVoteS ring)) (capacity ring) (last ring).

(** The index of the slot. *)
Definition insertNewProposal (ring : DPosVoteRing) (hash : Hash) : DPosVoteRing * nat :=
  let '(ring, last) := insertLast ring in
  (set_slot ring (Z.to_nat last) (clear hash), Z.to_nat last).

Definition findProposal (ring : DPosVoteRing) (hash : Hash) : DPosVoteRing * nat * bool :=
  match list_find (fun item => ds_Hash item = hash) (DPosVoteS ring) with
  | Some (k, _) => (ring, k, true)
  | None => (insertNewProposal ring hash, false)
  end.

Definition slot (ring : DPosVoteRing) (k : nat) : DPosVoteState :=
  default empty_state (DPosVoteS ring !! k).

Definition getVotes (ring : DPosVoteRing) (hash : Hash)
    : DPosVoteRing * (option OnlineConsensusReq * list voteInfo) :=
  let '(ring, k, _) := findProposal ring hash in (ring, state_getVotes (slot ring k)).

Definition addProposal (ring : DPosVoteRing) (hash : Hash) (proposal : OnlineConsensusReq)
    : DPosVoteRing * bool :=
  let '(ring, k, have) := findProposal ring hash in
  let '(ds, add) := state_addProposal (slot ring k) proposal in
  (set_slot ring k ds, negb (have && add)).

Definition addVote (ring : DPosVoteRing) (hash : Hash) (vote : HD_ConsensusVote) (addr : nat)
    : DPosVoteRing * (option OnlineConsensusReq * list voteInfo) :=
  let '(ring, k, _) := findProposal ring hash in
  let '(ds, r) := state_addVote (slot ring k) vote addr in
  (set_slot ring k ds, r).

(** ** The ring keeps the last [capacity] proposals *)

(** The ring after [addProposal] of the pairs [ps], oldest first. *)
Definition add_all (ring : DPosVoteRing) (ps : list (Hash * OnlineConsensusReq)) : DPosVoteRing :=
  foldl (fun r hp => (addProposal r hp.1 hp.2).1) ring ps.

(** The slots after [n] additions of [ps] to a new ring. *)
Definition holds (c : Z) (ps : list (Hash * OnlineConsensusReq)) (ring : DPosVoteRing) : Prop :=
  let n := Z.of_nat (length ps) in
  capacity ring = c /\ last ring = (n - 1) mod c /\
  length (DPosVoteS ring) = Z.to_nat c /\
  (forall i h p, ps !! i = Some (h, p) -> n - c <= Z.of_nat i ->
     DPosVoteS ring !! Z.to_nat (Z.of_nat i mod c) = Some (mkState h (Some p) [])) /\
  (forall k ds, DPosVoteS ring !! k = Some ds ->
     ds_Hash ds = 0%N \/ exists i p, ps !! i = Some (ds_Hash ds, p)).

Lemma holds_new c : 0 < c -> holds c [] (NewDPosVoteRing c).
Proof.
  intros Hc. split_and!; simpl; try done.
  - apply (Z.mod_unique_pos _ c (-1)); lia.
  - by rewrite length_replicate.
  - intros k ds [-> _]%lookup_replicate_1. by left.
Qed.

Lemma findProposal_fresh ring h :
  (forall k ds, DPosVoteS ring !! k = Some ds -> ds_Hash ds <> h) ->
  findProposal ring h = (insertNewProposal ring h, false).
Proof.
  intros Hf. unfold findProposal. destruct (list_find _ _) as [[k ds]|] eqn:El; [|done].
  apply list_find_Some in El as (Hl & Hh & _). by destruct (Hf k ds Hl).
Qed.

Lemma addProposal_fresh ring h p c :
  capacity ring = c -> 0 < c -> 0 <= last ring -> length (DPosVoteS ring) = Z.to_nat c ->
  (forall k ds, DPosVoteS ring !! k = Some ds -> ds_Hash ds <> h) ->
  addProposal ring h p
  = (mkRing (<[Z.to_nat ((last ring + 1) mod c) := mkState h (Some p) []]> (DPosVoteS ring)) c
       ((last ring + 1) mod c), true).
Proof.
  intros <- Hc Hl Hlen Hf. unfold addProposal. rewrite findProposal_fresh by done.
  unfold insertNewProposal, insertLast. simpl. rewrite Z.rem_mod_nonneg by lia.
  pose proof (Z.mod_pos_bound (last ring + 1) (capacity ring) Hc).
  unfold slot, set_slot. simpl. rewrite list_lookup_insert_eq by (rewrite Hlen; lia). simpl.
  by rewrite list_insert_insert_eq.
Qed.

Lemma mod_distinct i n c : 0 < c -> 0 <= i -> n - c < i < n -> i mod c <> n mod c.
Proof.
  intros Hc Hi Hn Heq. pose proof (Z.div_mod i c ltac:(lia)). pose proof (Z.div_mod n c ltac:(lia)).
  assert (n / c = i / c \/ i / c + 1 <= n / c \/ n / c + 1 <= i / c) as [|[|]] by lia; nia.
Qed.

Lemma holds_add c ps ring h p :
  0 < c -> h <> 0%N -> h ∉ ps.*1 -> holds c ps ring ->
  holds c (ps ++ [(h, p)]) (addProposal ring h p).1 /\ (addProposal ring h p).2 = true.
Proof.
  intros Hc Hh Hnew (Hcap & Hlast & Hlen & Hin & Hout).
  pose proof (Z.mod_pos_bound (Z.of_nat (length ps) - 1) c Hc) as Hb.
  assert (Hf : forall k ds, DPosVoteS ring !! k = Some ds -> ds_Hash ds <> h).
  { intros k ds Hk <-. destruct (Hout k ds Hk) as [?|(i & p' & Hi)]; [done|].
    apply Hnew, list_elem_of_fmap. exists (ds_Hash ds, p'). split; [done|].
    by eapply list_elem_of_lookup_2. }
  rewrite (addProposal_fresh ring h p c) by (try done; rewrite Hlast; lia).
  simpl. split; [|done].
  assert (Hl : (last ring + 1) mod c = Z.of_nat (length ps) mod c)
    by (rewrite Hlast, Zplus_mod_idemp_l; f_equal; lia).
  rewrite Hl. pose proof (Z.mod_pos_bound (Z.of_nat (length ps)) c Hc).
  split_and!; simpl; try done.
  - rewrite length_app. simpl. f_equal. lia.
  - by rewrite length_insert.
  - rewrite length_app. simpl. intros i h' p' [Hi|[Hge Hi]]%lookup_app_Some Hr.
    + pose proof (lookup_lt_Some _ _ _ Hi). rewrite list_lookup_insert_ne.
      * apply Hin; [done|lia].
      * intros Heq. pose proof (Z.mod_pos_bound (Z.of_nat i) c Hc). apply (mod_distinct (Z.of_nat i) (Z.of_nat (length ps)) c); lia.
    + apply list_lookup_singleton_Some in Hi as [Hi [= <- <-]].
      replace i with (length ps) by lia. by rewrite list_lookup_insert_eq by (rewrite Hlen; lia).
  - intros k ds [(_ & <- & _)|(_ & Hk)]%list_lookup_insert_Some.
    + right. exists (length ps), p. simpl. by apply list_lookup_middle.
    + destruct (Hout k ds Hk) as [|(i & p' & Hi)]; [by left|]. right. exists i, p'.
      by apply lookup_app_l_Some.
Qed.

(** A ring of capacity [c] to which distinct proposals are added holds the
    last [c] of them, each in the slot of its index modulo [c] with no votes,
    the most recent at [last]; each addition reports a new proposal. *)
Theorem ring_keeps_last c ps :
  0 < c -> NoDup ps.*1 -> 0%N ∉ ps.*1 ->
  let ring := add_all (NewDPosVoteRing c) ps in
  last ring = (Z.of_nat (length ps) - 1) mod c /\
  forall i h p, ps !! i = Some (h, p) -> Z.of_nat (length ps) - c <= Z.of_nat i ->
    DPosVoteS ring !! Z.to_nat (Z.of_nat i mod c) = Some (mkState h (Some p) []).
Proof.
  intros Hc Hnd H0.
  assert (Hh : holds c ps (add_all (NewDPosVoteRing c) ps)).
  { induction ps as [|[h p] ps IH] using rev_ind; [by apply holds_new|].
    unfold add_all. rewrite foldl_app. simpl. rewrite fmap_app in Hnd, H0.
    apply NoDup_app in Hnd as (Hnd & Hdisj & _). apply not_elem_of_app in H0 as [H0 H0'].
    apply holds_add; try done.
    - intros ->. apply H0'. by apply list_elem_of_singleton.
    - intros Hin. apply (Hdisj h Hin). by apply list_elem_of_singleton.
    - by apply IH. }
  destruct Hh as (_ & ? & _ & ? & _). done.
Qed.

Lemma ring_keeps_last_witness :
  let ps := [(5%N, mkOnlineReq 1 1 2 1); (6%N, mkOnlineReq 1 2 2 1); (7%N, mkOnlineReq 1 3 2 1)] in
  last (add_all (NewDPosVoteRing 2) ps) = 0 /\
  forall i h p, ps !! i = Some (h, p) -> 1 <= Z.of_nat i ->
    DPosVoteS (add_all (NewDPosVoteRing 2) ps) !! Z.to_nat (Z.of_nat i mod 2)
    = Some (mkState h (Some p) []).
Proof.
  cbn zeta. apply (ring_keeps_last 2
    [(5%N, mkOnlineReq 1 1 2 1); (6%N, mkOnlineReq 1 2 2 1); (7%N, mkOnlineReq 1 3 2 1)]);
    [lia| |]; apply (bool_decide_unpack _); vm_compute; exact I.
Defined.

Definition ring_wf (ring : DPosVoteRing) : Prop :=
  0 < capacity ring /\ 0 <= last ring /\ length (DPosVoteS ring) = Z.to_nat (capacity ring).

Lemma NewDPosVoteRing_wf c : 0 < c -> ring_wf (NewDPosVoteRing c).
Proof. intros Hc. split_and!; simpl; [lia|lia|]. by rewrite length_replicate. Qed.

Lemma set_slot_wf ring k ds : ring_wf ring -> ring_wf (set_slot ring k ds).
Proof. intros (? & ? & ?). split_and!; simpl; [done|done|]. by rewrite length_insert. Qed.

(** The slot that [findProposal] returns is the first with the hash, in range. *)
Definition located (ring : DPosVoteRing) (h : Hash) (k : nat) : Prop :=
  (exists ds, DPosVoteS ring !! k = Some ds /\ ds_Hash ds = h) /\
  (forall j ds, DPosVoteS ring !! j = Some ds -> (j < k)%nat -> ds_Hash ds <> h).

Lemma findProposal_located ring h :
  ring_wf ring -> let '(ring', k, have) := findProposal ring h in
  ring_wf ring' /\ located ring' h k /\ (have = true -> ring' = ring) /\
  (have = false -> slot ring' k = clear h).
Proof.
  intros (Hc & Hl & Hlen). unfold findProposal.
  destruct (list_find _ _) as [[k ds]|] eqn:El.
  - apply list_find_Some in El as (Hk & Hh & Hj).
    split; [by split_and!|]. split; [|done].
    split; [by exists ds|]. intros j d Hd Hlt. by apply (Hj j d).
  - apply list_find_None in El. rewrite Forall_lookup in El.
    unfold insertNewProposal, insertLast. simpl. rewrite Z.rem_mod_nonneg by lia.
    pose proof (Z.mod_pos_bound (last ring + 1) (capacity ring) Hc).
    unfold slot, set_slot. simpl.
    split; [split_and!; simpl; [done|lia|by rewrite length_insert]|]. split; [split; simpl|].
    + exists (clear h). split; [|done]. by rewrite list_lookup_insert_eq by lia.
    + intros j d Hd Hlt. rewrite list_lookup_insert_ne in Hd by lia. by apply El in Hd.
    + split; [done|]. intros _. by rewrite list_lookup_insert_eq by lia.
Qed.

Lemma located_find ring h k :
  located ring h k -> findProposal ring h = (ring, k, true).
Proof.
  intros [(ds & Hk & Hh) Hj]. unfold findProposal.
  rewrite (proj2 (list_find_Some _ _ k ds)); [done|]. split_and!; [done|done|].
  intros j y Hy Hlt. by apply (Hj j y).
Qed.

Lemma located_set_slot ring h k ds :
  located ring h k -> ds_Hash ds = h -> located (set_slot ring k ds) h k.
Proof.
  intros [(d & Hk & Hh) Hj] Hds. split.
  - exists ds. split; [|done]. simpl. apply list_lookup_insert_eq. by eapply lookup_lt_Some.
  - intros j y Hy Hlt. simpl in Hy. rewrite list_lookup_insert_ne in Hy by lia. by apply (Hj j y).
Qed.

Lemma slot_set_slot ring k ds ds0 :
  DPosVoteS ring !! k = Some ds0 -> slot (set_slot ring k ds) k = ds.
Proof.
  intros Hk. unfold slot, set_slot. simpl.
  by rewrite list_lookup_insert_eq by (by eapply lookup_lt_Some).
Qed.

(** A slot with a proposal for [h]. *)
Definition proposed (ring : DPosVoteRing) (h : Hash) : Prop :=
  exists k, located ring h k /\ Proposal (slot ring k) <> None.

Lemma slot_hash ring h k : located ring h k -> ds_Hash (slot ring k) = h.
Proof. intros [(ds & Hk & Hh) _]. unfold slot. by rewrite Hk. Qed.

Lemma addProposal_proposed ring h p :
  ring_wf ring -> ring_wf (addProposal ring h p).1 /\ proposed (addProposal ring h p).1 h /\
  (proposed ring h -> (addProposal ring h p).2 = false).
Proof.
  intros Hwf. unfold addProposal. pose proof (findProposal_located ring h Hwf) as Hf.
  destruct (findProposal ring h) as [[ring' k] have] eqn:Ef. simpl.
  destruct Hf as (Hwf' & Hloc & Hsame & _). split; [by apply set_slot_wf|]. split.
  - exists k. split; [apply located_set_slot; [done|by apply slot_hash]|].
    destruct Hloc as [(ds & Hk & _) _]. by rewrite (slot_set_slot _ _ _ ds).
  - intros (k' & Hloc' & Hp). rewrite (located_find ring h k' Hloc') in Ef. simplify_eq.
    simpl. by destruct (Proposal (slot ring' k)).
Qed.

Lemma addVote_wf ring h v a : ring_wf ring -> ring_wf (addVote ring h v a).1.
Proof.
  intros Hwf. unfold addVote. pose proof (findProposal_located ring h Hwf) as Hf.
  destruct (findProposal ring h) as [[ring' k] have]. destruct Hf as (Hwf' & _).
  destruct (state_addVote (slot ring' k) v a). by apply set_slot_wf.
Qed.

End Ring.

(** ** messageCheck.go *)

Module MessageCheck.

Record messageCheck := mkCheck { leader : Address; curRound : Z }.

Definition newMessageCheck : messageCheck := mkCheck 0%N 0.

Definition checkRound (chk : messageCheck) (round : Z) : bool := curRound chk <=? round.

Definition setRound (chk : messageCheck) (round : Z) : messageCheck * bool :=
  if round <? curRound chk then (chk, false)
  else if curRound chk <? round then (mkCheck (leader chk) round, true) else (chk, true).

Definition setLeader (chk : messageCheck) (leader : Address) : messageCheck :=
  mkCheck leader (curRound chk).

(** [msg.Number*100 + uint64(msg.ReelectTurn)]. *)
Definition notify_round (msg : LeaderChangeNotify) : Z :=
  u64 (u64 (lcn_Number msg * 100) + lcn_ReelectTurn msg).

Definition checkLeaderChangeNotify (chk : messageCheck) (msg : LeaderChangeNotify)
    : messageCheck * bool :=
  if lcn_ConsensusState msg then
    match setRound chk (notify_round msg) with
    | (chk, true) => (setLeader chk (lcn_Leader msg), true)
    | (chk, false) => (chk, false)
    end
  else (chk, false).

Definition checkOnlineConsensusReq (chk : messageCheck) (msg : OnlineConsensusReq)
    : messageCheck * bool := setRound chk (oc_Seq msg).

End MessageCheck.

(** ** topNodeState.go *)

Record NodeOnLineInfo := mkOnlineInfo {
  no_Address : Address;
  no_OnlineState : list Z      (* 30 bytes *)
}.

Module TopState.

Definition onLine : Z := 1.
Definition offLine : Z := 2.
Definition onlineNum : nat := 15.
Definition offlineNum : nat := 3.

Record topNodeState := mkTopState {
  electNode : gset Address;
  onlineNode : gset Address;
  offlineNode : gset Address;
  finishedProposal : Ring.DPosVoteRing
}.

Definition new (capacity : Z) : topNodeState :=
  mkTopState ∅ ∅ ∅ (Ring.NewDPosVoteRing capacity).

Definition set_ring (ts : topNodeState) (r : Ring.DPosVoteRing) : topNodeState :=
  mkTopState (electNode ts) (onlineNode ts) (offlineNode ts) r.

Definition setElectNodes (ts : topNodeState) (nodes : list Address) : topNodeState :=
  let elect := foldl (fun m item => {[item]} ∪ m) ∅ nodes in
  mkTopState elect elect ∅ (finishedProposal ts).

Definition set_online (ts : topNodeState) (item : Address) : topNodeState :=
  mkTopState (electNode ts)
    (if bool_decide (item ∈ electNode ts) then {[item]} ∪ onlineNode ts else onlineNode ts)
    (offlineNode ts ∖ {[item]}) (finishedProposal ts).

Definition set_offline (ts : topNodeState) (item : Address) : topNodeState :=
  mkTopState (electNode ts) (onlineNode ts ∖ {[item]})
    (if bool_decide (item ∈ electNode ts) then {[item]} ∪ offlineNode ts else offlineNode ts)
    (finishedProposal ts).

Definition modifyTopNodeState (ts : topNodeState) (online offline : list Address) : topNodeState :=
  foldl set_offline (foldl set_online ts online) offline.

(** [state[i]] for [i] from 29 down to [30-n], all satisfying [f]. *)
Definition recent (n : nat) (f : Z -> bool) (state : list Z) : bool :=
  forallb (fun i => f (default 0 (state !! (29 - i)%nat))) (seq 0 n).

Definition isOnline (state : list Z) : bool := recent onlineNum (fun x => negb (x =? 0)) state.
Definition isOffline (state : list Z) : bool := recent offlineNum (fun x => x =? 0) state.

(** The address in bytes 0 to 19, the state in byte 21 of 32. *)
Definition getFinishedPropocalHash (node : Address) (onLine : Z) : Hash :=
  (node * 2 ^ 96 + Z.to_N onLine * 2 ^ 80)%N.

Definition isFinishedPropocal (ts : topNodeState) (node : Address) (onLine : Z)
    : topNodeState * bool :=
  let '(r, (propocal, _)) :=
    Ring.getVotes (finishedProposal ts) (getFinishedPropocalHash node onLine) in
  (set_ring ts r, match propocal with Some _ => true | None => false end).

(** One node of [newTopNodeState]: looking up a finished proposal may make room
    for it in the ring. *)
Definition scan_node (acc : topNodeState * list Address * list Address) (value : NodeOnLineInfo)
    : topNodeState * list Address * list Address :=
  let '(ts, online, offline) := acc in
  let a := no_Address value in
  let '(ts, offline) :=
    if bool_decide (a ∈ onlineNode ts) && isOffline (no_OnlineState value) then
      let '(ts, fin) := isFinishedPropocal ts a offLine in
      (ts, if fin : bool then offline else offline ++ [a])
    else (ts, offline) in
  if bool_decide (a ∈ offlineNode ts) && isOnline (no_OnlineState value) then
    let '(ts, fin) := isFinishedPropocal ts a onLine in
    (ts, (if fin : bool then online else online ++ [a]), offline)
  else (ts, online, offline).

Definition newTopNodeState (ts : topNodeState) (nodesOnlineInfo : list NodeOnLineInfo)
    : topNodeState * list Address * list Address :=
  foldl scan_node (ts, [], []) nodesOnlineInfo.

Definition check_node (f : list Z -> bool) (node : Address) (infos : list NodeOnLineInfo) : bool :=
  match list_find (fun item => no_Address item = node) infos with
  | Some (_, item) => f (no_OnlineState item)
  | None => false
  end.
Definition checkNodeOnline : Address -> list NodeOnLineInfo -> bool := check_node isOnline.
Definition checkNodeOffline : Address -> list NodeOnLineInfo -> bool := check_node isOffline.

(** ** Every elected node is online or offline, never both *)

Definition partitioned (ts : topNodeState) : Prop :=
  onlineNode ts ∪ offlineNode ts = electNode ts /\ onlineNode ts ## offlineNode ts.

Lemma setElectNodes_partitioned ts nodes : partitioned (setElectNodes ts nodes).
Proof. unfold partitioned. simpl. set_solver. Qed.

Lemma set_online_partitioned ts a : partitioned ts -> partitioned (set_online ts a).
Proof.
  unfold partitioned, set_online. simpl. intros [Hu Hd]. case_bool_decide as Ha.
  - split; [|set_solver]. rewrite <- Hu in *. apply set_eq. intros x.
    destruct (decide (x = a)) as [->|]; set_solver.
  - assert (a ∉ offlineNode ts) by set_solver. rewrite <- Hu. split; set_solver.
Qed.

Lemma set_offline_partitioned ts a : partitioned ts -> partitioned (set_offline ts a).
Proof.
  unfold partitioned, set_offline. simpl. intros [Hu Hd]. case_bool_decide as Ha.
  - split; [|set_solver]. rewrite <- Hu in *. apply set_eq. intros x.
    destruct (decide (x = a)) as [->|]; set_solver.
  - assert (a ∉ onlineNode ts) by set_solver. rewrite <- Hu. split; set_solver.
Qed.

Lemma modifyTopNodeState_partitioned ts online offline :
  partitioned ts -> partitioned (modifyTopNodeState ts online offline).
Proof.
  intros Hp. unfold modifyTopNodeState.
  assert (H1 : partitioned (foldl set_online ts online)).
  { revert ts Hp. induction online; simpl; auto using set_online_partitioned. }
  revert H1. generalize (foldl set_online ts online). clear ts Hp.
  induction offline; simpl; auto using set_offline_partitioned.
Qed.

(** The recent states decide at most one way. *)
Lemma isOffline_not_isOnline state : isOffline state = true -> isOnline state = false.
Proof.
  unfold isOffline, isOnline, recent. simpl. intros Ho.
  apply andb_true_iff in Ho as [Ho _]. by rewrite Ho.
Qed.

Lemma isFinishedPropocal_sets ts a st :
  let ts' := (isFinishedPropocal ts a st).1 in
  electNode ts' = electNode ts /\ onlineNode ts' = onlineNode ts /\ offlineNode ts' = offlineNode ts.
Proof.
  cbn zeta. unfold isFinishedPropocal. destruct (Ring.getVotes _ _) as [r [p v]]. done.
Qed.

(** What a scan proposes: nodes whose recorded state differs from what was
    observed of them. *)
Definition scan_sound (ts : topNodeState) (infos : list NodeOnLineInfo)
    (acc : topNodeState * list Address * list Address) : Prop :=
  let '(ts', online, offline) := acc in
  electNode ts' = electNode ts /\ onlineNode ts' = onlineNode ts /\
  offlineNode ts' = offlineNode ts /\
  (forall a, a ∈ online -> a ∈ offlineNode ts /\
     exists info, info ∈ infos /\ no_Address info = a /\ isOnline (no_OnlineState info) = true) /\
  (forall a, a ∈ offline -> a ∈ onlineNode ts /\
     exists info, info ∈ infos /\ no_Address info = a /\ isOffline (no_OnlineState info) = true).

Lemma scan_sound_grow ts infos info ts' online offline online' offline' ts'' :
  scan_sound ts infos (ts', online, offline) ->
  electNode ts'' = electNode ts' -> onlineNode ts'' = onlineNode ts' ->
  offlineNode ts'' = offlineNode ts' ->
  (forall a, a ∈ online' -> a ∈ online \/ a = no_Address info /\ a ∈ offlineNode ts' /\
     isOnline (no_OnlineState info) = true) ->
  (forall a, a ∈ offline' -> a ∈ offline \/ a = no_Address info /\ a ∈ onlineNode ts' /\
     isOffline (no_OnlineState info) = true) ->
  scan_sound ts (infos ++ [info]) (ts'', online', offline').
Proof.
  intros (H0 & H1 & H2 & Hon & Hoff) E0 E1 E2 Hon' Hoff'.
  split_and!; [congruence|congruence|congruence| |].
  - intros a [Ha|(-> & Ha & Hi)]%Hon'.
    + destruct (Hon a Ha) as (? & x & ? & ?). split; [done|]. exists x. set_solver.
    + split; [congruence|]. exists info. set_solver.
  - intros a [Ha|(-> & Ha & Hi)]%Hoff'.
    + destruct (Hoff a Ha) as (? & x & ? & ?). split; [done|]. exists x. set_solver.
    + split; [congruence|]. exists info. set_solver.
Qed.

Lemma scan_node_sound ts infos acc info :
  scan_sound ts infos acc -> scan_sound ts (infos ++ [info]) (scan_node acc info).
Proof.
  destruct acc as [[ts1 online] offline]. intros Hs. unfold scan_node.
  set (a := no_Address info).
  destruct (bool_decide (a ∈ onlineNode ts1) && isOffline (no_OnlineState info)) eqn:E1.
  - bool_to_prop. pose proof (isFinishedPropocal_sets ts1 a offLine) as (Hel & Hon & Hoff).
    destruct (isFinishedPropocal ts1 a offLine) as [ts2 fin]. simpl in Hel, Hon, Hoff.
    rewrite (isOffline_not_isOnline (no_OnlineState info)), andb_false_r by done.
    eapply scan_sound_grow; [exact Hs|done|done|done|by left|].
    intros x Hx. destruct fin; [by left|].
    apply elem_of_app in Hx as [|Hx]; [by left|]. apply list_elem_of_singleton in Hx as ->. by right.
  - destruct (bool_decide (a ∈ offlineNode ts1) && isOnline (no_OnlineState info)) eqn:E2.
    + clear E1. bool_to_prop. pose proof (isFinishedPropocal_sets ts1 a onLine) as (Hel & Hon & Hoff).
      destruct (isFinishedPropocal ts1 a onLine) as [ts2 fin]. simpl in Hel, Hon, Hoff.
      eapply scan_sound_grow; [exact Hs|done|done|done| |by left].
      intros x Hx. destruct fin; [by left|].
      apply elem_of_app in Hx as [|Hx]; [by left|]. apply list_elem_of_singleton in Hx as ->. by right.
    + by eapply scan_sound_grow; [exact Hs|..]; auto.
Qed.

(** What a leader proposes: each node it proposes as online is recorded
    offline and was seen in each of the last 15 periods, each node it proposes
    as offline is recorded online and was missing in the last 3, and no node
    is proposed both ways. *)
Theorem newTopNodeState_sound ts infos ts' online offline :
  partitioned ts -> newTopNodeState ts infos = (ts', online, offline) ->
  (forall a, a ∈ online -> a ∈ offlineNode ts /\
     exists info, info ∈ infos /\ no_Address info = a /\ isOnline (no_OnlineState info) = true) /\
  (forall a, a ∈ offline -> a ∈ onlineNode ts /\
     exists info, info ∈ infos /\ no_Address info = a /\ isOffline (no_OnlineState info) = true) /\
  (forall a, a ∈ online -> a ∉ offline) /\ partitioned ts'.
Proof.
  intros [Hu Hd] Hrun.
  assert (Hs : scan_sound ts infos (newTopNodeState ts infos)).
  { unfold newTopNodeState. clear Hrun. induction infos as [|info infos IH] using rev_ind.
    - split_and!; try done; intros a Ha; by apply elem_of_nil in Ha.
    - rewrite foldl_app. simpl. by apply scan_node_sound. }
  rewrite Hrun in Hs. destruct Hs as (H0 & H1 & H2 & Hon & Hoff).
  split; [exact Hon|]. split; [exact Hoff|]. split.
  - intros a [Ha _]%Hon [Hb _]%Hoff. by apply (Hd a).
  - unfold partitioned. by rewrite H0, H1, H2.
Qed.

Lemma newTopNodeState_sound_witness :
  let ts := mkTopState {[1%N; 2%N]} {[1%N]} {[2%N]} (Ring.NewDPosVoteRing 64) in
  let infos := [mkOnlineInfo 1 (replicate 30 0); mkOnlineInfo 2 (replicate 30 1)] in
  (newTopNodeState ts infos).1.2 = [2%N] /\ (newTopNodeState ts infos).2 = [1%N] /\
  partitioned (newTopNodeState ts infos).1.1.
Proof.
  cbn zeta. split; [vm_compute; reflexivity|]. split; [vm_compute; reflexivity|].
  apply (newTopNodeState_sound (mkTopState {[1%N; 2%N]} {[1%N]} {[2%N]} (Ring.NewDPosVoteRing 64))
    [mkOnlineInfo 1 (replicate 30 0); mkOnlineInfo 2 (replicate 30 1)] _ [2%N] [1%N]).
  - split; [reflexivity|]. apply (bool_decide_unpack _). vm_compute. exact I.
  - vm_compute. reflexivity.
Defined.

End TopState.

(** ** topNodeService.go *)

Inductive topnode_event :=
| SendConsensusReq (reqs : list OnlineConsensusReq)      (* to all validators *)
| SendConsensusVote (votes : list HD_ConsensusVote).     (* to all validators *)

Record TopNodeService := mkTopNode {
  stateMap : TopState.topNodeState;
  msgCheck : MessageCheck.messageCheck;
  dposRing : Ring.DPosVoteRing;
  cells : list HD_ConsensusVote;
  tasks : list (option OnlineConsensusReq * list Ring.voteInfo);
  sent : list topnode_event
}.

Module TopNode.

Definition NewTopNodeService : TopNodeService :=
  mkTopNode (TopState.new 64) MessageCheck.newMessageCheck (Ring.NewDPosVoteRing 64) [] [] [].

Definition set_stateMap (s : TopNodeService) ts : TopNodeService :=
  mkTopNode ts (msgCheck s) (dposRing s) (cells s) (tasks s) (sent s).
Definition set_msgCheck (s : TopNodeService) chk : TopNodeService :=
  mkTopNode (stateMap s) chk (dposRing s) (cells s) (tasks s) (sent s).
Definition set_dposRing (s : TopNodeService) r : TopNodeService :=
  mkTopNode (stateMap s) (msgCheck s) r (cells s) (tasks s) (sent s).
Definition set_cells (s : TopNodeService) c : TopNodeService :=
  mkTopNode (stateMap s) (msgCheck s) (dposRing s) c (tasks s) (sent s).
Definition set_tasks (s : TopNodeService) t : TopNodeService :=
  mkTopNode (stateMap s) (msgCheck s) (dposRing s) (cells s) t (sent s).
Definition send (s : TopNodeService) e : TopNodeService :=
  mkTopNode (stateMap s) (msgCheck s) (dposRing s) (cells s) (tasks s) (sent s ++ [e]).

Section TopNode.
Context `{Crypto} `{E : DPOSEngine}.
Context (validatorReader : ValidatorReader) (own : Address).
Context (SignWithValidate : Hash -> bool -> option Signature).

Definition sendRequest (online offline : list Address) (s : TopNodeService) : TopNodeService :=
  let turn := MessageCheck.curRound (msgCheck s) in
  let req st item := mkOnlineReq own turn item st in
  let reqs := map (req TopState.onLine) online ++ map (req TopState.offLine) offline in
  match reqs with [] => s | _ => send s (SendConsensusReq reqs) end.

Definition checkTopNodeState (infos : list NodeOnLineInfo) (s : TopNodeService) : TopNodeService :=
  let '(ts, online, offline) := TopState.newTopNodeState (stateMap s) infos in
  sendRequest online offline (set_stateMap s ts).

(** The vote stored at an address. *)
Definition vote_at (s : TopNodeService) (addr : nat) : HD_ConsensusVote :=
  default (mkVote 0%N 0 0%N 0%N) (cells s !! addr).

Definition sign_list (s : TopNodeService) (votes : list Ring.voteInfo) : list Signature :=
  map (fun value => cv_Sign (vote_at s (Ring.data value))) votes.

Definition consensusVotes (pv : option OnlineConsensusReq * list Ring.voteInfo)
    (s : TopNodeService) : TopNodeService :=
  match pv with
  | (Some prop, (v0 :: _) as votes) =>
      if negb (bool_decide (MessageCheck.leader (msgCheck s) = oc_Leader prop)) then s
      else
        (* an old round is logged, and the votes are counted all the same *)
        match VerifyHashWithNumber validatorReader (cv_SignHash (vote_at s (Ring.data v0)))
                (sign_list s votes) 10 with
        | Err _ => s
        | Ok _ =>
            set_stateMap s (TopState.set_ring (stateMap s)
              (Ring.addProposal (TopState.finishedProposal (stateMap s))
                 (TopState.getFinishedPropocalHash (oc_Node prop) (Z.modulo (oc_OnlineState prop) 256))
                 prop).1)
        end
  | _ => s
  end.

(** [update] on a leader change: the check, then the handler. *)
Definition LeaderChangeNotifyHandler (msg : LeaderChangeNotify) (infos : list NodeOnLineInfo)
    (s : TopNodeService) : TopNodeService :=
  if bool_decide (own = lcn_Leader msg) then checkTopNodeState infos s
  else set_tasks s (tasks s ++ map Ring.state_getVotes (Ring.DPosVoteS (dposRing s))).

(** Whether the node observed the state that a request claims. *)
Definition observed (tempReq : OnlineConsensusReq) (infos : list NodeOnLineInfo) : bool :=
  if oc_OnlineState tempReq =? TopState.onLine
  then TopState.checkNodeOnline (oc_Node tempReq) infos
  else TopState.checkNodeOffline (oc_Node tempReq) infos.

Definition voteToReq (tempReq : OnlineConsensusReq) (infos : list NodeOnLineInfo)
    : option (Signature * Hash) :=
  let reqHash := Types.RlpHash tempReq in
  match SignWithValidate reqHash (observed tempReq infos) with
  | None => None
  | Some sign => Some (sign, reqHash)
  end.

Definition vote_request (infos : list NodeOnLineInfo)
    (acc : TopNodeService * list HD_ConsensusVote) (item : OnlineConsensusReq)
    : TopNodeService * list HD_ConsensusVote :=
  let '(s, votes) := acc in
  let '(chk, fresh) := MessageCheck.checkOnlineConsensusReq (msgCheck s) item in
  let s := set_msgCheck s chk in
  if negb fresh then (s, votes)
  else
    let '(ring, added) := Ring.addProposal (dposRing s) (Types.RlpHash item) item in
    let s := set_dposRing s ring in
    if negb added then (s, votes)
    else
      match voteToReq item infos with
      | None => (s, votes)
      | Some (sign, reqHash) => (s, votes ++ [mkVote reqHash (oc_Seq item) sign 0%N])
      end.

Definition consensusReqMsgHandler (requests : list OnlineConsensusReq)
    (infos : list NodeOnLineInfo) (s : TopNodeService) : TopNodeService :=
  match requests with
  | [] => s
  | _ =>
      let '(s, votes) := foldl (vote_request infos) (s, []) requests in
      send s (SendConsensusVote votes)
  end.

(** One iteration over the votes of a message; [addr] is the loop variable. *)
Definition count_vote (addr : nat) (s : TopNodeService) (item : HD_ConsensusVote)
    : TopNodeService :=
  let s := set_cells s (<[addr := item]> (cells s)) in
  let '(ring, pv) := Ring.addVote (dposRing s) (cv_SignHash item) item addr in
  consensusVotes pv (set_dposRing s ring).

Definition consensusVoteMsgHandler (msg : list HD_ConsensusVote) (s : TopNodeService)
    : TopNodeService :=
  match msg with
  | [] => s
  | item :: _ =>
      foldl (count_vote (length (cells s))) (set_cells s (cells s ++ [item])) msg
  end.

(** The messages of [update], and the goroutines it starts; what the node
    observes of the others comes with them. *)
Inductive topnode_input :=
| LeaderChange (msg : LeaderChangeNotify) (infos : list NodeOnLineInfo)
| ConsensusReq (reqs : list OnlineConsensusReq) (infos : list NodeOnLineInfo)
| ConsensusVote (votes : list HD_ConsensusVote)
| RunTask (k : nat).

Definition update (s : TopNodeService) (i : topnode_input) : TopNodeService :=
  match i with
  | LeaderChange msg infos =>
      match MessageCheck.checkLeaderChangeNotify (msgCheck s) msg with
      | (chk, true) => LeaderChangeNotifyHandler msg infos (set_msgCheck s chk)
      | (chk, false) => set_msgCheck s chk
      end
  | ConsensusReq reqs infos => consensusReqMsgHandler reqs infos s
  | ConsensusVote votes => consensusVoteMsgHandler votes s
  | RunTask k =>
      match tasks s !! k with
      | None => s
      | Some pv => consensusVotes pv (set_tasks s (delete k (tasks s)))
      end
  end.

Definition run (s : TopNodeService) (ins : list topnode_input) : TopNodeService :=
  foldl update s ins.

(** ** Votes *)

(** [v] is this node's vote on a request of [reqs]: signed over the request's
    hash, in favour iff the node observed what the request claims. *)
Definition own_vote (reqs : list OnlineConsensusReq) (infos : list NodeOnLineInfo)
    (v : HD_ConsensusVote) : Prop :=
  exists item, item ∈ reqs /\ cv_SignHash v = Types.RlpHash item /\ cv_Round v = oc_Seq item /\
    SignWithValidate (Types.RlpHash item) (observed item infos) = Some (cv_Sign v).

Lemma vote_request_own reqs infos acc item :
  item ∈ reqs -> Forall (own_vote reqs infos) acc.2 ->
  Forall (own_vote reqs infos) (vote_request infos acc item).2 /\
  sent (vote_request infos acc item).1 = sent acc.1.
Proof.
  destruct acc as [s votes]. intros Hin Hv. unfold vote_request, voteToReq. simpl in Hv.
  destruct (MessageCheck.checkOnlineConsensusReq _ _) as [chk fresh].
  destruct fresh; simpl; [|done]. destruct (Ring.addProposal _ _ _) as [ring added].
  destruct added; simpl; [|done].
  destruct (SignWithValidate _ _) as [sg|] eqn:Es; simpl; [|done]. split; [|done].
  apply Forall_app. split; [done|]. constructor; [|constructor]. by exists item.
Qed.

(** A node answers a request message with one message of votes, each a
    signature over the hash of a request of the message and in favour exactly
    if the node itself observed the state that the request claims. *)
Theorem votes_are_own_observations reqs infos s :
  reqs <> [] ->
  exists votes, sent (consensusReqMsgHandler reqs infos s) = sent s ++ [SendConsensusVote votes] /\
    Forall (own_vote reqs infos) votes.
Proof.
  intros Hne.
  assert (Hf : forall l acc, (forall x, x ∈ l -> x ∈ reqs) -> Forall (own_vote reqs infos) acc.2 ->
    Forall (own_vote reqs infos) (foldl (vote_request infos) acc l).2 /\
    sent (foldl (vote_request infos) acc l).1 = sent acc.1).
  { induction l as [|x l IH]; intros acc Hsub Hacc; [done|]. simpl.
    destruct (vote_request_own reqs infos acc x) as [Hv Hs]; [apply Hsub; apply elem_of_cons; by left|done|].
    rewrite <- Hs. apply IH; [|done]. intros y Hy. apply Hsub, elem_of_cons. by right. }
  destruct (Hf reqs (s, [])) as [Hv Hs]; [done|constructor|].
  unfold consensusReqMsgHandler. destruct reqs as [|r reqs]; [done|].
  destruct (foldl _ _ _) as [s' votes]. simpl in *. exists votes. by rewrite Hs.
Qed.

(** A proposal enters the finished ones only as the current leader's, and
    only when the engine accepts the votes counted for it: the signatures of
    its votes carry a quorum of the validators at height 10 over the hash that
    its first vote names. *)
Theorem finished_needs_quorum `{!EngineSound E BroadCastNodes} pv s :
  stateMap (consensusVotes pv s) <> stateMap s ->
  exists prop v0 votes, pv = (Some prop, v0 :: votes) /\
    oc_Leader prop = MessageCheck.leader (msgCheck s) /\
    has_quorum validatorReader 10 (cv_SignHash (vote_at s (Ring.data v0)))
      (sign_list s (v0 :: votes)).
Proof.
  unfold consensusVotes. destruct pv as [[prop|] [|v0 votes]]; try done.
  case_bool_decide as Hl; [|done]. cbn [negb].
  destruct (VerifyHashWithNumber _ _ _ _) eqn:Ev; [|done]. intros _.
  exists prop, v0, votes. split_and!; [done|done|]. eapply hash_quorum, Ev.
Qed.

(** ** Rounds *)

Lemma consensusVotes_frame pv s :
  msgCheck (consensusVotes pv s) = msgCheck s /\ dposRing (consensusVotes pv s) = dposRing s.
Proof. unfold consensusVotes. by repeat case_match. Qed.

Lemma consensusVoteMsgHandler_frame votes s :
  msgCheck (consensusVoteMsgHandler votes s) = msgCheck s /\
  (Ring.ring_wf (dposRing s) -> Ring.ring_wf (dposRing (consensusVoteMsgHandler votes s))).
Proof.
  unfold consensusVoteMsgHandler. destruct votes as [|v votes]; [done|].
  generalize (length (cells s)) as addr.
  assert (Hx : forall addr l s, msgCheck (foldl (count_vote addr) s l) = msgCheck s /\
    (Ring.ring_wf (dposRing s) -> Ring.ring_wf (dposRing (foldl (count_vote addr) s l)))).
  { intros addr. induction l as [|x l IH]; intros s'; [done|]. cbn [foldl].
    destruct (IH (count_vote addr s' x)) as [-> Hr]. unfold count_vote in *.
    pose proof (Ring.addVote_wf (dposRing s') (cv_SignHash x) x addr) as Hv. cbn [dposRing set_cells] in *.
    destruct (Ring.addVote _ _ _ _) as [ring pv].
    destruct (consensusVotes_frame pv (set_dposRing (set_cells s' (<[addr:=x]> (cells s'))) ring))
      as [-> Hd]. split; [done|]. intros Hwf. apply Hr. rewrite Hd. by apply Hv. }
  intros addr. apply (Hx addr (v :: votes) (set_cells s _)).
Qed.

Lemma vote_request_frame infos acc item :
  (Ring.ring_wf (dposRing acc.1) -> Ring.ring_wf (dposRing (vote_request infos acc item).1)) /\
  MessageCheck.curRound (msgCheck acc.1)
  <= MessageCheck.curRound (msgCheck (vote_request infos acc item).1).
Proof.
  destruct acc as [s votes]. unfold vote_request, MessageCheck.checkOnlineConsensusReq,
    MessageCheck.setRound. simpl.
  destruct (Z.ltb_spec (oc_Seq item) (MessageCheck.curRound (msgCheck s))); [simpl; split; [done|lia]|].
  assert (Hr : forall chk, MessageCheck.curRound (msgCheck s) <= MessageCheck.curRound chk ->
    let r := (let '(ring, added) := Ring.addProposal (dposRing s) (Types.RlpHash item) item in
       let s1 := set_dposRing (set_msgCheck s chk) ring in
       if negb added then (s1, votes)
       else match voteToReq item infos with
            | None => (s1, votes)
            | Some (sign, reqHash) => (s1, votes ++ [mkVote reqHash (oc_Seq item) sign 0%N])
            end).1 in
    (Ring.ring_wf (dposRing s) -> Ring.ring_wf (dposRing r)) /\
    MessageCheck.curRound (msgCheck s) <= MessageCheck.curRound (msgCheck r)).
  { intros chk Hle. cbn zeta.
    pose proof (Ring.addProposal_proposed (dposRing s) (Types.RlpHash item) item) as Hp.
    destruct (Ring.addProposal _ _ _) as [ring added]. simpl in Hp.
    assert (Hx : Ring.ring_wf (dposRing s) -> Ring.ring_wf ring) by (intros Hw; apply (Hp Hw)).
    destruct added; simpl; [|done]. by destruct (voteToReq item infos) as [[sg h]|]. }
  destruct (Z.ltb_spec (MessageCheck.curRound (msgCheck s)) (oc_Seq item)); apply Hr; simpl; lia.
Qed.

Lemma vote_requests_frame infos l acc :
  (Ring.ring_wf (dposRing acc.1) -> Ring.ring_wf (dposRing (foldl (vote_request infos) acc l).1)) /\
  MessageCheck.curRound (msgCheck acc.1)
  <= MessageCheck.curRound (msgCheck (foldl (vote_request infos) acc l).1).
Proof.
  revert acc. induction l as [|x l IH]; intros acc; [simpl; split; [done|lia]|]. cbn [foldl].
  destruct (vote_request_frame infos acc x). destruct (IH (vote_request infos acc x)).
  split; [auto|lia].
Qed.

Lemma checkTopNodeState_frame infos s :
  msgCheck (checkTopNodeState infos s) = msgCheck s /\
  dposRing (checkTopNodeState infos s) = dposRing s.
Proof.
  unfold checkTopNodeState, sendRequest. destruct (TopState.newTopNodeState _ _) as [[ts on] off].
  by destruct (_ ++ _).
Qed.

Lemma checkLeaderChangeNotify_round chk msg :
  MessageCheck.curRound chk <= MessageCheck.curRound (MessageCheck.checkLeaderChangeNotify chk msg).1.
Proof.
  unfold MessageCheck.checkLeaderChangeNotify, MessageCheck.setRound.
  destruct (lcn_ConsensusState msg); [|simpl; lia].
  destruct (Z.ltb_spec (MessageCheck.notify_round msg) (MessageCheck.curRound chk)); [simpl; lia|].
  destruct (Z.ltb_spec (MessageCheck.curRound chk) (MessageCheck.notify_round msg)); simpl; lia.
Qed.

Lemma update_frame s i :
  (Ring.ring_wf (dposRing s) -> Ring.ring_wf (dposRing (update s i))) /\
  MessageCheck.curRound (msgCheck s) <= MessageCheck.curRound (msgCheck (update s i)).
Proof.
  destruct i as [msg infos|reqs infos|votes|k]; simpl.
  - pose proof (checkLeaderChangeNotify_round (msgCheck s) msg) as Hr.
    destruct (MessageCheck.checkLeaderChangeNotify (msgCheck s) msg) as [chk [|]]; [|done].
    unfold LeaderChangeNotifyHandler. case_match; [|done].
    destruct (checkTopNodeState_frame infos (set_msgCheck s chk)) as [-> ->]. done.
  - unfold consensusReqMsgHandler. destruct reqs as [|r reqs]; [split; [done|lia]|].
    destruct (vote_requests_frame infos (r :: reqs) (s, [])) as [Hw Hr].
    by destruct (foldl _ _ _) as [s' votes].
  - destruct (consensusVoteMsgHandler_frame votes s) as [-> ?]. split; [done|lia].
  - destruct (tasks s !! k) as [pv|]; [|split; [done|lia]].
    destruct (consensusVotes_frame pv (set_tasks s (delete k (tasks s)))) as [-> ->].
    simpl. split; [done|lia].
Qed.

Lemma run_ring_wf ins : Ring.ring_wf (dposRing (run NewTopNodeService ins)).
Proof.
  unfold run. induction ins as [|i ins IH] using rev_ind.
  - by apply Ring.NewDPosVoteRing_wf.
  - rewrite foldl_app. simpl. by apply update_frame.
Qed.

(** ** Defects *)

(** The hash of a request is the hash of no bytes, so all requests share a slot. *)
Lemma request_hash (r : OnlineConsensusReq) : Types.RlpHash r = Keccak256 [].
Proof. by apply HashBinding.RlpHash_no_writer. Qed.

Definition occupied (s : TopNodeService) : Prop :=
  Ring.ring_wf (dposRing s) /\ Ring.proposed (dposRing s) (Keccak256 []).

Lemma vote_request_occupied infos acc item :
  occupied acc.1 -> occupied (vote_request infos acc item).1 /\
  (vote_request infos acc item).2 = acc.2 /\
  sent (vote_request infos acc item).1 = sent acc.1.
Proof.
  destruct acc as [s votes]. intros [Hwf Hp]. unfold vote_request. rewrite request_hash.
  destruct (MessageCheck.checkOnlineConsensusReq _ _) as [chk fresh].
  destruct fresh; simpl; [|by split_and!].
  destruct (Ring.addProposal_proposed (dposRing s) (Keccak256 []) item Hwf) as (Hw & Hq & Hadd).
  specialize (Hadd Hp). destruct (Ring.addProposal _ _ _) as [ring added]. simpl in *.
  subst added. simpl. by split_and!.
Qed.

Lemma first_request_occupies infos r s :
  Ring.ring_wf (dposRing s) -> MessageCheck.curRound (msgCheck s) <= oc_Seq r ->
  occupied (consensusReqMsgHandler [r] infos s).
Proof.
  intros Hwf Hr. unfold consensusReqMsgHandler. simpl.
  unfold MessageCheck.checkOnlineConsensusReq, MessageCheck.setRound.
  rewrite (proj2 (Z.ltb_ge _ _)) by lia. rewrite request_hash.
  destruct (Ring.addProposal_proposed (dposRing s) (Keccak256 []) r Hwf) as (Hw & Hq & _).
  destruct (MessageCheck.curRound (msgCheck s) <? oc_Seq r); cbn [negb dposRing set_msgCheck];
    destruct (Ring.addProposal _ _ _) as [ring added]; destruct added; simpl in *;
    try (by split); destruct (voteToReq r infos) as [[sg h]|]; by split.
Qed.

(** Once a node has handled one fresh request, it votes on no other: every
    later request hashes to the same value, is taken for a repetition of the
    first, and is answered with an empty list of votes, whatever node, round
    and state it is about.  (dposRing_test.go expects 100 requests with
    different rounds to take 100 successive slots.) *)
Theorem only_first_request_voted ins r infos reqs infos' :
  let s := run NewTopNodeService ins in
  MessageCheck.curRound (msgCheck s) <= oc_Seq r -> reqs <> [] ->
  let s1 := consensusReqMsgHandler [r] infos s in
  sent (consensusReqMsgHandler reqs infos' s1) = sent s1 ++ [SendConsensusVote []].
Proof.
  cbn zeta. intros Hr Hne. pose proof (run_ring_wf ins) as Hwf.
  pose proof (first_request_occupies infos r _ Hwf Hr) as Hocc. revert Hocc.
  generalize (consensusReqMsgHandler [r] infos (run NewTopNodeService ins)). intros s1 Hocc.
  assert (Hf : forall l acc, occupied acc.1 -> (foldl (vote_request infos') acc l).2 = acc.2 /\
    sent (foldl (vote_request infos') acc l).1 = sent acc.1).
  { induction l as [|x l IH]; intros acc Ha; [done|]. cbn [foldl].
    destruct (vote_request_occupied infos' acc x Ha) as (Ho & <- & <-). by apply IH. }
  unfold consensusReqMsgHandler. destruct reqs as [|q reqs]; [done|].
  destruct (Hf (q :: reqs) (s1, []) Hocc) as [Hv Hs].
  destruct (foldl _ _ _) as [s2 votes]. simpl in *. by rewrite Hs, Hv.
Qed.

(** All votes of one message are stored as the address of the handler's loop
    variable, which ends up holding the last of them. *)
Lemma message_keeps_last_vote v votes s :
  cells (consensusVoteMsgHandler (v :: votes) s) = cells s ++ [List.last (v :: votes) v].
Proof.
  assert (Hc : forall pv s, cells (consensusVotes pv s) = cells s)
    by (intros pv s'; unfold consensusVotes; by repeat case_match).
  assert (Hf : forall l s' pre x, cells s' = pre ++ [x] ->
    cells (foldl (count_vote (length pre)) s' l) = pre ++ [List.last l x]).
  { induction l as [|y l IH]; intros s' pre x Hs; [done|]. cbn [foldl].
    rewrite (IH _ pre y).
    - destruct l as [|z l]; [done|]. do 2 f_equal. clear. revert z.
      induction l as [|w l IHl]; intros z; [done|]. apply (IHl w).
    - unfold count_vote. destruct (Ring.addVote _ _ _ _) as [ring pv]. rewrite Hc. simpl.
      rewrite Hs, insert_app_r_alt, Nat.sub_diag by lia. done. }
  by apply (Hf (v :: votes) (set_cells s (cells s ++ [v])) (cells s) v).
Qed.

End TopNode.

(** ** Witnesses: three validators, the toy signature scheme *)

Section Witnesses.
#[local] Instance toy : Crypto := Signature.toy_crypto.
#[local] Existing Instance sorted_range.
#[local] Instance engine3 : DPOSEngine := MtxDPOS [].

Definition sign1 (h : Hash) (b : bool) : option Signature := Some (if b then 256%N else 257%N).
Definition online7 : list NodeOnLineInfo := [mkOnlineInfo 7 (replicate 30 1)].
Definition leader5 : topnode_input :=
  LeaderChange (mkLeaderChange true 5 6 1 0 0 0 0) online7.
Definition request7 : OnlineConsensusReq := mkOnlineReq 5 100 7 TopState.onLine.

Lemma votes_are_own_observations_witness :
  exists votes,
    sent (consensusReqMsgHandler sign1 [request7] online7 NewTopNodeService)
    = [SendConsensusVote votes] /\ Forall (own_vote sign1 [request7] online7) votes.
Proof.
  apply (votes_are_own_observations sign1 [request7] online7 NewTopNodeService). discriminate.
Defined.

(** The three votes of account 1, 2 and 3, in three messages. *)
Definition vote7 (sg : Signature) : HD_ConsensusVote := mkVote (Types.RlpHash request7) 100 sg 0%N.
Definition voted : TopNodeService :=
  run Dpos.reader3 1%N sign1 NewTopNodeService
    [leader5; ConsensusReq [request7] online7; ConsensusVote [vote7 256]; ConsensusVote [vote7 512];
     ConsensusVote [vote7 768]].

(** The same votes, not yet counted. *)
Definition uncounted : TopNodeService := set_stateMap voted (TopState.new 64).
Definition counted : option OnlineConsensusReq * list Ring.voteInfo :=
  (Some request7, [Ring.mkVoteInfo 1 0; Ring.mkVoteInfo 2 1; Ring.mkVoteInfo 3 2]).

Lemma finished_needs_quorum_witness :
  exists prop v0 votes, counted = (Some prop, v0 :: votes) /\
    oc_Leader prop = MessageCheck.leader (msgCheck uncounted) /\
    has_quorum Dpos.reader3 10 (cv_SignHash (vote_at uncounted (Ring.data v0)))
      (sign_list uncounted (v0 :: votes)).
Proof.
  refine (finished_needs_quorum (BroadCastNodes := []) Dpos.reader3 counted uncounted _).
  intros Heq. apply (f_equal (fun ts => Ring.last (TopState.finishedProposal ts))) in Heq.
  vm_compute in Heq. discriminate.
Defined.

Lemma only_first_request_voted_witness :
  let s1 := consensusReqMsgHandler sign1 [request7] online7
              (run Dpos.reader3 1%N sign1 NewTopNodeService [leader5]) in
  sent (consensusReqMsgHandler sign1 [mkOnlineReq 5 100 8 TopState.offLine] online7 s1)
  = sent s1 ++ [SendConsensusVote []].
Proof.
  refine (only_first_request_voted Dpos.reader3 1%N sign1 [leader5] request7 online7
    [mkOnlineReq 5 100 8 TopState.offLine] online7 _ _); [vm_compute; discriminate|discriminate].
Defined.

End Witnesses.
End TopNode.
