(* ===== verification/TxHeap.v ===== *)
(** * The transactions to pack: a price heap of the accounts' next transactions

    Models [TxByPrice] and [TransactionsByPriceAndNonce] of
    core/types/transaction.go, and of Go's container/heap the operations they
    use ([Init], [Fix], [Pop] with their sifting loops).

    The heap is a slice; indices out of range do not occur and are no-ops here.
    A transaction is opaque but for what the packing of a block reads of it
    (class [TxView]). *)

From S2P Require Import Prelude Common.

(** ** container/heap on a slice ordered by decreasing key *)

Module Heap.
Section Heap.
Context {A : Type} (key : A -> Z).

Definition kat (l : list A) (i : nat) : Z :=
  match l !! i with Some a => key a | None => 0 end.

(** [Less] of [TxByPrice]: the larger key comes first. *)
Definition less (l : list A) (i j : nat) : bool := kat l j <? kat l i.

Definition swap (l : list A) (i j : nat) : list A :=
  match l !! i, l !! j with
  | Some a, Some b => <[i := b]> (<[j := a]> l)
  | _, _ => l
  end.

(** The larger child of [i], whose first child is [j1]. *)
Definition child (l : list A) (j1 n : nat) : nat :=
  if (j1 + 1 <? n)%nat && less l (j1 + 1) j1 then (j1 + 1)%nat else j1.

(** The index doubles in each round, so [n] rounds are enough. *)
Fixpoint down_loop (fuel : nat) (l : list A) (i n : nat) : list A * nat :=
  match fuel with
  | O => (l, i)
  | S f =>
      let j1 := (2 * i + 1)%nat in
      if (n <=? j1)%nat then (l, i)
      else
        let j := child l j1 n in
        if negb (less l j i) then (l, i) else down_loop f (swap l i j) j n
  end.

Definition down (l : list A) (i n : nat) : list A * bool :=
  let '(l', i') := down_loop n l i n in (l', (i <? i')%nat).

Fixpoint up_loop (fuel : nat) (l : list A) (j : nat) : list A :=
  match fuel with
  | O => l
  | S f =>
      let i := ((j - 1) / 2)%nat in
      if Nat.eqb i j || negb (less l j i) then l else up_loop f (swap l i j) i
  end.

Definition up (l : list A) (j : nat) : list A := up_loop (S j) l j.

(** [for i := n/2 - 1; i >= 0; i--]: [k] rounds are left. *)
Fixpoint init_loop (k : nat) (l : list A) (n : nat) : list A :=
  match k with
  | O => l
  | S i => init_loop i (down l i n).1 n
  end.

Definition Init (l : list A) : list A := init_loop (length l / 2) l (length l).

Definition Fix (l : list A) (i : nat) : list A :=
  let '(l', moved) := down l i (length l) in if moved then l' else up l' i.

(** [heap.Pop] with the [Pop] of the slice, which drops the last element. *)
Definition pop (l : list A) : list A :=
  let n := (length l - 1)%nat in
  take n (down (swap l 0 n) 0 n).1.

(** ** The heap property *)

Definition parent (j : nat) : nat := ((j - 1) / 2)%nat.

(** No element of the first [n] is larger than its parent, for the parents
    from [k] on. *)
Definition heap_from (k n : nat) (l : list A) : Prop :=
  forall j, (0 < j < n)%nat -> (k <= parent j)%nat -> kat l j <= kat l (parent j).

Definition heap_ok (l : list A) : Prop := heap_from 0 (length l) l.

Lemma length_swap l i j : length (swap l i j) = length l.
Proof. unfold swap. repeat case_match; by rewrite ?length_insert. Qed.

Lemma kat_swap l i j x :
  (i < length l)%nat -> (j < length l)%nat ->
  kat (swap l i j) x = if Nat.eqb x i then kat l j else if Nat.eqb x j then kat l i else kat l x.
Proof.
  intros Hi Hj. destruct (lookup_lt_is_Some_2 l i Hi) as [a Ha].
  destruct (lookup_lt_is_Some_2 l j Hj) as [b Hb].
  unfold swap. rewrite Ha, Hb. unfold kat at 1.
  destruct (Nat.eqb_spec x i) as [->|Hxi].
  - rewrite list_lookup_insert_eq by (by rewrite length_insert). unfold kat. by rewrite Hb.
  - rewrite list_lookup_insert_ne by done. destruct (Nat.eqb_spec x j) as [->|Hxj].
    + rewrite list_lookup_insert_eq by done. unfold kat. by rewrite Ha.
    + rewrite list_lookup_insert_ne by done. done.
Qed.

Lemma swap_perm l i j : swap l i j ≡ₚ l.
Proof.
  unfold swap. destruct (l !! i) as [a|] eqn:Ha; [|done]. destruct (l !! j) as [b|] eqn:Hb; [|done].
  destruct (decide (i = j)) as [->|Hij].
  - rewrite Ha in Hb. injection Hb as <-. by rewrite !list_insert_id by (rewrite ?list_insert_id; done).
  - symmetry. apply Permutation_inj. split; [by rewrite !length_insert|].
    exists (fun x => if Nat.eqb x i then j else if Nat.eqb x j then i else x). split.
    + intros x y Hxy. repeat case_match; bool_to_prop; repeat match goal with
        | H : (_ =? _)%nat = true |- _ => apply Nat.eqb_eq in H
        | H : (_ =? _)%nat = false |- _ => apply Nat.eqb_neq in H end; subst; congruence.
    + intros x. destruct (Nat.eqb_spec x i) as [->|Hxi].
      * rewrite list_lookup_insert_ne, list_lookup_insert_eq; [done|by eapply lookup_lt_Some|done].
      * destruct (Nat.eqb_spec x j) as [->|Hxj].
        -- rewrite list_lookup_insert_eq; [done|]. rewrite length_insert. by eapply lookup_lt_Some.
        -- by rewrite !list_lookup_insert_ne by done.
Qed.

Lemma parent_child i j : (0 < j)%nat -> parent j = i <-> (j = 2 * i + 1 \/ j = 2 * i + 2)%nat.
Proof.
  unfold parent. intros Hj. pose proof (Nat.div_mod_eq (j - 1) 2).
  pose proof (Nat.mod_upper_bound (j - 1) 2). lia.
Qed.

Lemma parent_lt j : (0 < j)%nat -> (parent j < j)%nat.
Proof. intros Hj. destruct (proj1 (parent_child (parent j) j Hj) eq_refl); lia. Qed.

(** The larger child is a child of [i], in range, and no smaller than its
    sibling. *)
Lemma child_spec l i n :
  (2 * i + 1 < n)%nat ->
  let j := child l (2 * i + 1) n in
  (j < n)%nat /\ (0 < j)%nat /\ parent j = i /\
  forall x, (0 < x < n)%nat -> parent x = i -> kat l x <= kat l j.
Proof.
  intros Hn. unfold child, less. set (j1 := (2 * i + 1)%nat) in *.
  assert (parent j1 = i /\ parent (j1 + 1) = i) as [Hp Hp'].
  { split; apply parent_child; lia. }
  destruct ((j1 + 1 <? n)%nat && _) eqn:E; bool_to_prop.
  - apply Nat.ltb_lt in H. split_and!; [lia|lia|done|]. intros x Hx Hpx.
    apply parent_child in Hpx; [|lia]. destruct Hpx as [->| ->].
    + fold j1. lia.
    + replace (2 * i + 2)%nat with (j1 + 1)%nat by lia. lia.
  - split_and!; [lia|lia|done|]. intros x Hx Hpx.
    apply parent_child in Hpx; [|lia]. destruct Hpx as [->| ->]; [fold j1; lia|].
    replace (2 * i + 2)%nat with (j1 + 1)%nat by lia.
    apply andb_false_iff in E as [E|E]; [apply Nat.ltb_ge in E; lia|bool_to_prop; lia].
Qed.

(** The heap property except between [i] and its children, whose keys are
    bounded by the parent of [i] all the same. *)
Definition heap_except (k n i : nat) (l : list A) : Prop :=
  (forall j, (0 < j < n)%nat -> (k <= parent j)%nat -> parent j <> i ->
     kat l j <= kat l (parent j)) /\
  (forall j, (0 < j < n)%nat -> parent j = i -> (0 < i)%nat -> (k <= parent i)%nat ->
     kat l j <= kat l (parent i)).

Lemma swap_except k n i l :
  (n <= length l)%nat -> (k <= i)%nat -> (2 * i + 1 < n)%nat -> heap_except k n i l ->
  let j := child l (2 * i + 1) n in
  kat l i < kat l j -> heap_except k n j (swap l i j).
Proof.
  intros Hlen Hk Hn [Hh Hg] j Hlt. destruct (child_spec l i n Hn) as (Hjn & Hj0 & Hpj & Hmax).
  fold j in Hjn, Hj0, Hpj, Hmax. pose proof (parent_lt j Hj0).
  assert (forall x, kat (swap l i j) x
    = if Nat.eqb x i then kat l j else if Nat.eqb x j then kat l i else kat l x) as Hs.
  { intros x. apply kat_swap; lia. }
  split.
  - intros x Hx Hkx Hpx. rewrite !Hs.
    destruct (Nat.eqb_spec x i) as [->|Hxi].
    + pose proof (parent_lt i ltac:(lia)). rewrite (proj2 (Nat.eqb_neq _ _)) by lia.
      rewrite (proj2 (Nat.eqb_neq _ _)) by lia. apply Hg; auto; lia.
    + destruct (Nat.eqb_spec x j) as [->|Hxj].
      * rewrite Hpj, Nat.eqb_refl. lia.
      * destruct (Nat.eqb_spec (parent x) i) as [Hpi|Hpi]; [by apply Hmax|].
        rewrite (proj2 (Nat.eqb_neq _ _)) by done. by apply Hh.
  - intros x Hx Hpx _ Hkp. rewrite !Hs, Hpj, Nat.eqb_refl.
    pose proof (parent_lt x ltac:(lia)).
    rewrite !(proj2 (Nat.eqb_neq _ _)) by lia. rewrite <- Hpx. apply Hh; lia.
Qed.

(** Sifting down restores the heap property, permutes the first [n] elements
    and terminates within the fuel. *)
Lemma down_loop_spec k n fuel l i :
  (n - i <= fuel)%nat -> (n <= length l)%nat -> (k <= i)%nat -> heap_except k n i l ->
  let l' := (down_loop fuel l i n).1 in
  heap_from k n l' /\ l' ≡ₚ l /\ drop n l' = drop n l.
Proof.
  revert l i. induction fuel as [|fuel IH]; intros l i Hf Hlen Hk He; cbn [down_loop].
  - simpl. split_and!; [|done|done]. intros x Hx Hkx. apply He; auto. 
    pose proof (parent_lt x ltac:(lia)). lia.
  - destruct (n <=? 2 * i + 1)%nat eqn:En.
    { apply Nat.leb_le in En. simpl. split_and!; [|done|done]. intros x Hx Hkx. apply He; auto.
      intros Hpx. apply parent_child in Hpx; lia. }
    apply Nat.leb_gt in En. destruct (child_spec l i n En) as (Hjn & Hj0 & Hpj & Hmax).
    pose proof (parent_lt _ Hj0).
    destruct (less l (child l (2 * i + 1) n) i) eqn:El; cbn [negb]; unfold less in El; bool_to_prop.
    + pose proof (swap_except k n i l Hlen Hk En He El) as He'.
      specialize (IH (swap l i (child l (2 * i + 1) n)) (child l (2 * i + 1) n)).
      rewrite length_swap in IH. destruct IH as (Hh & Hp & Hd); [lia|done|lia|done|].
      split_and!; [done|by rewrite Hp, swap_perm|]. rewrite Hd. apply list_eq. intros x.
      rewrite !lookup_drop. unfold swap. repeat case_match; [|done..].
      by rewrite !list_lookup_insert_ne by lia.
    + simpl. split_and!; [|done|done]. intros x Hx Hkx.
      destruct (decide (parent x = i)) as [Hpx|Hpx]; [|by apply He].
      rewrite Hpx. transitivity (kat l (child l (2 * i + 1) n)); [by apply Hmax|lia].
Qed.

Lemma down_spec k n l i :
  (n <= length l)%nat -> (k <= i)%nat -> heap_except k n i l ->
  let l' := (down l i n).1 in
  heap_from k n l' /\ l' ≡ₚ l /\ drop n l' = drop n l.
Proof.
  intros Hlen Hk He. pose proof (down_loop_spec k n n l i ltac:(lia) Hlen Hk He) as Hd.
  unfold down. by destruct (down_loop n l i n).
Qed.

Lemma init_loop_spec k n l :
  n = length l -> heap_from k n l ->
  heap_from 0 n (init_loop k l n) /\ init_loop k l n ≡ₚ l.
Proof.
  revert l. induction k as [|k IH]; intros l -> Hh; [done|]. cbn [init_loop].
  destruct (down_spec k (length l) l k) as (Hh' & Hp & _); [done|done| |].
  - split; [intros j Hj Hkj Hne; apply Hh; lia|].
    intros j Hj Hpj Hk0 Hkp. pose proof (parent_lt k Hk0). lia.
  - destruct (IH (down l k (length l)).1) as [? ?]; [by rewrite Hp|done|].
    split; [done|]. by transitivity (down l k (length l)).1.
Qed.

Lemma Init_spec l : heap_ok (Init l) /\ Init l ≡ₚ l.
Proof.
  unfold heap_ok, Init. destruct (init_loop_spec (length l / 2) (length l) l) as [Hh Hp]; [done| |].
  - intros j Hj Hk. exfalso. pose proof (proj1 (parent_child (parent j) j ltac:(lia)) eq_refl).
    pose proof (Nat.div_mod_eq (length l) 2). pose proof (Nat.mod_upper_bound (length l) 2). lia.
  - split; [|done]. by rewrite (Permutation_length Hp).
Qed.

(** A heap whose root was replaced. *)
Lemma heap_except_root l l' n :
  heap_from 0 n l -> (forall j, (0 < j < n)%nat -> kat l' j = kat l j) -> heap_except 0 n 0 l'.
Proof.
  intros Hh Hk. split; [|lia]. intros j Hj _ Hp. pose proof (parent_lt j ltac:(lia)).
  rewrite (Hk j), (Hk (parent j)) by lia. apply Hh; lia.
Qed.

Lemma Fix_spec l a :
  l <> [] -> heap_ok l ->
  heap_ok (Fix (<[0%nat := a]> l) 0) /\ Fix (<[0%nat := a]> l) 0 ≡ₚ <[0%nat := a]> l.
Proof.
  intros Hne Hh. set (l0 := <[0%nat := a]> l).
  assert (length l0 = length l) as Hl by (unfold l0; by rewrite length_insert).
  destruct (down_spec 0 (length l0) l0 0) as (Hd & Hp & _); [done|lia| |].
  { rewrite Hl. eapply heap_except_root; [done|]. intros j Hj. unfold kat, l0.
    by rewrite list_lookup_insert_ne by lia. }
  unfold Fix, heap_ok. destruct (down l0 0 (length l0)) as [l' moved]; cbn [fst] in *.
  assert ((if moved then l' else up l' 0) = l') as -> by (by destruct moved).
  split; [by rewrite (Permutation_length Hp)|done].
Qed.

Lemma Pop_spec a l :
  heap_ok (a :: l) -> heap_ok (pop (a :: l)) /\ pop (a :: l) ≡ₚ l.
Proof.
  intros Hh. unfold pop. set (n := (length (a :: l) - 1)%nat).
  assert (n = length l) as Hn by (unfold n; simpl; lia).
  set (s := swap (a :: l) 0 n). assert (length s = S n) as Hs.
  { unfold s. rewrite length_swap. simpl. lia. }
  destruct (down_spec 0 n s 0) as (Hd & Hp & Hdrop); [lia|lia| |].
  { eapply (heap_except_root (a :: l)).
    - intros j Hj _. apply Hh; [simpl; lia|lia].
    - intros j Hj. unfold s. rewrite kat_swap by (simpl; lia).
      by rewrite !(proj2 (Nat.eqb_neq _ _)) by lia. }
  assert (drop n s = [a]) as Ha.
  { destruct (lookup_lt_is_Some_2 (a :: l) n) as [c Hc]; [simpl; lia|].
    unfold s, swap. rewrite Hc. change ((a :: l) !! 0%nat) with (Some a). cbv iota.
    apply list_eq. intros [|x]; rewrite lookup_drop.
    - rewrite Nat.add_0_r. destruct (decide (n = 0%nat)) as [->|Hn0].
      + rewrite list_lookup_insert_eq by (rewrite length_insert; simpl; lia). by injection Hc as <-.
      + rewrite list_lookup_insert_ne, list_lookup_insert_eq by (simpl; lia). done.
    - apply lookup_ge_None_2. rewrite !length_insert. simpl. lia. }
  set (d := (down s 0 n).1) in *. assert (length d = S n) as Hld by (by rewrite Hp).
  split.
  - intros j Hj Hk. rewrite length_take in Hj. specialize (Hd j ltac:(lia) Hk).
    unfold kat in *. rewrite !lookup_take_lt; [done|pose proof (parent_lt j ltac:(lia)); lia|lia].
  - apply (Permutation_app_inv_r [a]). transitivity d.
    + rewrite <- (take_drop n d) at 2. by rewrite Hdrop, Ha.
    + rewrite Hp. unfold s. rewrite swap_perm. apply (Permutation_app_comm [a] l).
Qed.

(** The root of a heap has the largest key. *)
Lemma heap_root_max l j : heap_ok l -> (j < length l)%nat -> kat l j <= kat l 0.
Proof.
  intros Hh. induction j as [j IH] using lt_wf_ind. intros Hj.
  destruct (decide (j = 0%nat)) as [->|Hj0]; [lia|].
  transitivity (kat l (parent j)); [apply Hh; lia|].
  pose proof (parent_lt j ltac:(lia)). apply IH; lia.
Qed.

End Heap.
End Heap.

(** ** TransactionsByPriceAndNonce *)

(** What packing reads of a transaction.  [Sender] is [types.Sender] with the
    error dropped, as all callers here drop it. *)
Class TxView := {
  Tx : Type;
  GasPrice : Tx -> Z;
  Sender : Tx -> Address
}.

Record TransactionsByPriceAndNonce `{TxView} := mkTxSet {
  ts_txs : gmap Address (list Tx);
  heads : list Tx
}.
Arguments mkTxSet {_}.

Module TxSet.

(** Indexing an empty slice. *)
Inductive panic := IndexOutOfRange.

Section TxSet.
Context `{TxView} `{GoRange}.

(** One round of the loop over the accounts.  The loop reads and writes the map
    it iterates over: a key deleted before its round is skipped, and so are
    keys that were added, which Go permits. *)
Definition take_head (from : Address) (acc : list Tx * gmap Address (list Tx))
    : res panic (list Tx * gmap Address (list Tx)) :=
  let '(hs, txs) := acc in
  match txs !! from with
  | None => Ok (hs, txs)
  | Some [] => Err IndexOutOfRange
  | Some (tx :: rest) =>
      let acc := Sender tx in
      let txs := <[acc := rest]> txs in
      Ok (hs ++ [tx], if bool_decide (from = acc) then txs else delete from txs)
  end.

Definition NewTransactionsByPriceAndNonce (txs : gmap Address (list Tx))
    : res panic TransactionsByPriceAndNonce :=
  let? (hs, txs) := foldM take_head (range txs).*1 ([], txs) in
  Ok (mkTxSet txs (Heap.Init GasPrice hs)).

Definition Peek (t : TransactionsByPriceAndNonce) : option Tx := head (heads t).

Definition Shift (t : TransactionsByPriceAndNonce) : TransactionsByPriceAndNonce :=
  match heads t with
  | [] => t (* not called without a head *)
  | h :: _ =>
      let acc := Sender h in
      match ts_txs t !! acc with
      | Some (tx :: rest) =>
          mkTxSet (<[acc := rest]> (ts_txs t)) (Heap.Fix GasPrice (<[0%nat := tx]> (heads t)) 0)
      | _ => mkTxSet (ts_txs t) (Heap.pop GasPrice (heads t))
      end
  end.

Definition Pop (t : TransactionsByPriceAndNonce) : TransactionsByPriceAndNonce :=
  match heads t with
  | [] => t (* not called without a head *)
  | _ => mkTxSet (ts_txs t) (Heap.pop GasPrice (heads t))
  end.

(** ** Invariant *)

(** What the pool hands over: per account a non-empty list of its own
    transactions. *)
Definition pending_ok (pending : gmap Address (list Tx)) : Prop :=
  map_Forall (fun a l => l <> [] /\ Forall (fun tx => Sender tx = a) l) pending.

(** The transactions of an account still to come. *)
Definition rest_of (t : TransactionsByPriceAndNonce) (a : Address) : list Tx :=
  default [] (ts_txs t !! a).

(** The heads form a heap with one head per account, and a head with the rest of
    its account is what is left of the account's list. *)
Definition set_ok (pending : gmap Address (list Tx)) (t : TransactionsByPriceAndNonce) : Prop :=
  Heap.heap_ok GasPrice (heads t) /\ NoDup (Sender <$> heads t) /\
  Forall (fun h => (h :: rest_of t (Sender h)) `suffix_of` default [] (pending !! Sender h))
    (heads t).

(** The number of transactions left, which every [Shift] and [Pop] decreases. *)
Definition remaining (t : TransactionsByPriceAndNonce) : nat :=
  (length (heads t) + map_fold (fun _ l n => length l + n) 0 (ts_txs t))%nat.

Lemma foldM_take_head pending ks hs m :
  pending_ok pending -> NoDup ks -> (forall k, k ∈ ks -> is_Some (pending !! k) /\ m !! k = pending !! k) ->
  exists hs' m', foldM take_head ks (hs, m) = Ok (hs ++ hs', m') /\
    Sender <$> hs' = ks /\
    (forall k, k ∉ ks -> m' !! k = m !! k) /\
    Forall (fun h => exists l, pending !! Sender h = Some (h :: l) /\ m' !! Sender h = Some l) hs'.
Proof.
  intros Hp. revert hs m. induction ks as [|k ks IH]; intros hs m Hnd Hk.
  - exists [], m. rewrite app_nil_r. split_and!; auto.
  - apply NoDup_cons in Hnd as [Hnk Hnd].
    destruct (Hk k) as [[l Hl] Hm]; [by left|]. rewrite Hl in Hm.
    destruct (Hp k l Hl) as [Hne Hs]. destruct l as [|tx rest]; [done|].
    apply Forall_cons in Hs as [Hs _]. cbn [foldM take_head]. rewrite Hm, Hs, bool_decide_true by done.
    destruct (IH (hs ++ [tx]) (<[k := rest]> m)) as (hs' & m' & E & Hks & Hout & Hall); [done| |].
    { intros k' Hk'. assert (k <> k') by set_solver.
      rewrite lookup_insert_ne by done. apply Hk. by right. }
    exists (tx :: hs'), m'. rewrite E, <- app_assoc. split_and!; [done|by rewrite <- Hks, <- Hs| |].
    + intros k' Hk'. rewrite Hout by set_solver. rewrite lookup_insert_ne; set_solver.
    + constructor; [|done]. exists rest. rewrite Hs. split; [done|].
      rewrite Hout by done. by rewrite lookup_insert_eq.
Qed.

Lemma NewTransactionsByPriceAndNonce_ok pending :
  pending_ok pending ->
  exists t, NewTransactionsByPriceAndNonce pending = Ok t /\ set_ok pending t /\
    (forall a, a ∈ Sender <$> heads t <-> is_Some (pending !! a)).
Proof.
  intros Hp. unfold NewTransactionsByPriceAndNonce.
  destruct (foldM_take_head pending (range pending).*1 [] pending) as (hs & m & E & Hks & _ & Hall);
    [done|apply range_NoDup_fst| |].
  { intros k [[k' v] [-> Hkv]]%list_elem_of_fmap. apply range_elem_of in Hkv.
    cbn [fst]. by rewrite Hkv. }
  rewrite E. eexists. split; [done|]. destruct (Heap.Init_spec GasPrice hs) as [Hh Hperm].
  assert (Sender <$> Heap.Init GasPrice hs ≡ₚ (range pending).*1) as Hs by (by rewrite Hperm, Hks).
  unfold set_ok, rest_of; cbn [heads ts_txs app]. split; [split_and!|].
  - done.
  - rewrite Hs. apply range_NoDup_fst.
  - rewrite Hperm. eapply Forall_impl; [exact Hall|]. intros h (l & -> & ->). done.
  - intros a. rewrite Hs. rewrite list_elem_of_fmap. split.
    + intros [[k v] [-> Hkv]]. apply range_elem_of in Hkv. cbn [fst]. by rewrite Hkv.
    + intros [v Hv]. exists (a, v). by rewrite range_elem_of.
Qed.

Lemma total_insert (m : gmap Address (list Tx)) k x l :
  m !! k = Some (x :: l) ->
  map_fold (fun _ l n => length l + n)%nat 0%nat m
  = S (map_fold (fun _ l n => length l + n)%nat 0%nat (<[k := l]> m)).
Proof.
  intros Hk. rewrite <- (insert_delete_id m k _ Hk), insert_insert_eq.
  rewrite !map_fold_insert_L by (apply lookup_delete_eq || (intros; lia)). simpl. lia.
Qed.

Lemma suffix_sender pending h l :
  pending_ok pending -> l `suffix_of` default [] (pending !! h) -> Forall (fun tx => Sender tx = h) l.
Proof.
  intros Hp [l0 Hl]. destruct (pending !! h) as [lp|] eqn:E; simpl in Hl.
  - destruct (Hp h lp E) as [_ Hs]. rewrite Hl in Hs. by apply Forall_app in Hs as [_ Hs].
  - destruct l0, l; done.
Qed.

Lemma Pop_head_ok pending h hs m :
  set_ok pending (mkTxSet m (h :: hs)) ->
  set_ok pending (mkTxSet m (Heap.pop GasPrice (h :: hs))) /\
  Heap.pop GasPrice (h :: hs) ≡ₚ hs.
Proof.
  intros (Hh & Hnd & Hall). destruct (Heap.Pop_spec GasPrice h hs Hh) as [Hh' Hp].
  split; [|done]. split_and!; cbn [heads] in *; [done| |].
  - rewrite Hp. by apply NoDup_cons in Hnd as [_ Hnd].
  - rewrite Hp. by apply Forall_cons in Hall as [_ Hall].
Qed.

Lemma Pop_ok pending t :
  set_ok pending t -> heads t <> [] -> set_ok pending (Pop t) /\ (remaining (Pop t) < remaining t)%nat.
Proof.
  destruct t as [m [|h hs]]; [done|]. intros Hok _.
  destruct (Pop_head_ok _ _ _ _ Hok) as [Hok' Hp]. split; [done|].
  unfold remaining. simpl. rewrite (Permutation_length Hp). lia.
Qed.

Lemma Shift_ok pending t :
  pending_ok pending -> set_ok pending t -> heads t <> [] ->
  set_ok pending (Shift t) /\ (remaining (Shift t) < remaining t)%nat.
Proof.
  intros Hpend Hok Hne. destruct t as [m [|h hs]]; [done|]. unfold Shift; cbn [heads ts_txs].
  destruct (m !! Sender h) as [[|tx rest]|] eqn:Em; try by apply (Pop_ok pending (mkTxSet m (h :: hs))).
  destruct Hok as (Hh & Hnd & Hall). cbn [heads] in *.
  apply Forall_cons in Hall as [Hsuf Hall]. unfold rest_of in Hsuf; cbn in Hsuf. rewrite Em in Hsuf.
  assert (Sender tx = Sender h) as Hs.
  { apply (suffix_sender pending) in Hsuf; [|done].
    by apply Forall_cons in Hsuf as [_ [Hs _]%Forall_cons]. }
  destruct (Heap.Fix_spec GasPrice (h :: hs) tx) as [Hh' Hp]; [done|done|]. cbn in Hp.
  apply NoDup_cons in Hnd as [Hni Hnd]. split; [split_and!|]; cbn [heads ts_txs].
  - done.
  - cbn. rewrite Hp. cbn. rewrite Hs. by apply NoDup_cons.
  - cbn. rewrite Hp. constructor.
    + unfold rest_of; cbn. rewrite Hs, lookup_insert_eq. by eapply suffix_cons_l.
    + apply Forall_forall. intros x Hx. rewrite Forall_forall in Hall. specialize (Hall x Hx).
      unfold rest_of in *; cbn in *. rewrite lookup_insert_ne; [done|].
      intros E. apply Hni. rewrite E. by apply list_elem_of_fmap_2.
  - unfold remaining; cbn. rewrite (Permutation_length Hp), (total_insert m _ _ _ Em). simpl. lia.
Qed.

(** What [Peek] returns has the highest price of all heads. *)
Lemma Peek_max pending t tx :
  set_ok pending t -> Peek t = Some tx -> Forall (fun h => GasPrice h <= GasPrice tx) (heads t).
Proof.
  intros (Hh & _ & _) Hp. apply Forall_lookup. intros i h Hi.
  pose proof (Heap.heap_root_max GasPrice (heads t) i Hh (lookup_lt_Some _ _ _ Hi)) as Hm.
  unfold Heap.kat in Hm. rewrite Hi in Hm. unfold Peek in Hp. destruct (heads t); [done|].
  by injection Hp as ->.
Qed.

End TxSet.
End TxSet.
