(* ===== verification/StateTransition.v ===== *)
(** * Package [core]: applying one transaction

    Models core/gaspool.go, core/state_transition.go, [ApplyTransaction] of
    core/state_processor.go and [NewEVMContext] of core/evm.go, with the
    transactions and receipts of core/types.

    Parameters (class [EVM]): the account state, the calls into the virtual
    machine, the recovery of a sender.  A call is assumed to return: that it does,
    and where it can panic instead, is the subject of EvmRun.v.  A transaction that fails is reverted by
    the caller to the snapshot it took, so the state of a failed application is
    not returned; the gas pool, which is not reverted, is.

    Using a nil gas pool, which broadcast transactions are applied with, ends the
    process, and so does a gas pool that overflows; the model returns
    [RuntimePanic] at that point. *)

From S2P Require Import Prelude Common Crypto Types TxHeap.

(** ** Transactions, messages and receipts (core/types) *)

Record Tx_to := mkTxTo {
  to_Recipient : option Address;      (* nil for a contract creation *)
  to_Amount : Z;
  to_Payload : list Z
}.

Record Matrix_Extra := mkExtra {
  ex_TxType : Z;
  ex_LockHeight : Z;
  ex_ExtraTo : list Tx_to
}.

Record Transaction := mkTransaction {
  AccountNonce : Z;
  Price : Z;
  tx_GasLimit : Z;
  Recipient : option Address;
  Amount : Z;
  tx_Payload : list Z;
  tx_V : Z; tx_R : Z; tx_S : Z;
  tx_Extra : list Matrix_Extra;
  tx_N : option Z                     (* nil, or the number the pool appended first *)
}.

Record Message := mkMessage {
  m_to : option Address;
  m_from : Address;
  m_nonce : Z;
  m_amount : Z;
  m_gasLimit : Z;
  m_gasPrice : Z;
  m_data : list Z;
  m_checkNonce : bool;
  m_extra : Matrix_Extra
}.

Record Receipt {Log : Type} := mkReceipt {
  PostState : option Hash;
  Status_failed : bool;
  CumulativeGasUsed : Z;
  r_Bloom : N;
  Logs : list Log;
  r_TxHash : Hash;
  ContractAddress : Address;
  r_GasUsed : Z
}.
Arguments Receipt : clear implicits.

(** What the fork rules of the chain configuration decide per height. *)
Record ChainConfig := mkConfig {
  IsHomestead : Z -> bool;
  IsByzantium : Z -> bool;
  IsEIP155 : Z -> bool;
  IsEIP158 : Z -> bool
}.

(** [vm.Context].  The function [GetHash] is determined by the parent hash and
    the number of the block. *)
Record EVMContext := mkContext {
  ctx_GetHash : Hash * Z;
  Origin : Address;
  ctx_Coinbase : Address;
  BlockNumber : Z;
  ctx_Time : Z;
  ctx_Difficulty : Z;
  ctx_GasLimit : Z;
  ctx_GasPrice : Z
}.

Inductive apply_error :=
| ErrGasLimitReached | ErrNonceTooLow | ErrNonceTooHigh
| errInsufficientBalanceForGas | ErrOutOfGas | ErrTXCountOverflow
| ErrInsufficientBalance | ErrSender | RuntimePanic.
#[export] Instance apply_error_eq_dec : EqDecision apply_error.
Proof. solve_decision. Defined.

(** Errors of the virtual machine, as far as [TransitionDb] tells them apart. *)
Inductive vm_error := vmInsufficientBalance | vmOther.

Class EVM := {
  state : Type;
  Log : Type;
  GetBalance : state -> Address -> Z;
  SubBalance : state -> Address -> Z -> state;
  AddBalance : state -> Address -> Z -> state;
  GetNonce : state -> Address -> Z;
  SetNonce : state -> Address -> Z -> state;
  GetRefund : state -> Z;
  Prepare : state -> Hash -> Z -> state;          (* transaction hash and index *)
  Finalise : state -> state;
  IntermediateRoot : state -> bool -> state * Hash;
  GetLogs : state -> Hash -> list Log;
  CreateBloom : list (list Log) -> N;             (* of the logs of each receipt *)
  Call : EVMContext -> Address -> Address -> list Z -> Z -> Z -> state
         -> state * Z * option vm_error;
  Create : EVMContext -> Address -> list Z -> Z -> Z -> state -> state * Z * option vm_error;
  CreateAddress : Address -> Z -> Address;
  TxHashOf : Transaction -> Hash;
  SenderAt : Z -> Transaction -> option Address;  (* with the signer of a height *)
  EIP155Sender : Transaction -> option Address
}.

#[export] Instance transaction_view `{EVM} : TxView :=
  {| Tx := Transaction;
     GasPrice := Price;
     Sender tx := default 0%N (EIP155Sender tx) |}.

Module StateTransition.
Section StateTransition.
Context `{EVM} (config : ChainConfig).

Definition MaxUint64 : Z := 2 ^ 64 - 1.
Definition TxGas : Z := 21000.
Definition TxGasContractCreation : Z := 53000.
Definition TxDataZeroGas : Z := 4.
Definition TxDataNonZeroGas : Z := 68.
Definition TxCount : Z := 1000.

(** ** Gas pool *)

Definition AddGas (gp amount : Z) : option Z :=
  if MaxUint64 - amount <? gp then None else Some (gp + amount).

Definition SubGas (gp amount : Z) : option Z :=
  if gp <? amount then None else Some (gp - amount).

Definition IntrinsicGas (data : list Z) (contractCreation homestead : bool) : option Z :=
  let gas := if contractCreation && homestead then TxGasContractCreation else TxGas in
  match data with
  | [] => Some gas
  | _ =>
      let nz := Z.of_nat (length (filter (fun b => b <> 0) data)) in
      if (MaxUint64 - gas) / TxDataNonZeroGas <? nz then None
      else
        let gas := gas + nz * TxDataNonZeroGas in
        let z := Z.of_nat (length data) - nz in
        if (MaxUint64 - gas) / TxDataZeroGas <? z then None
        else Some (gas + z * TxDataZeroGas)
  end.

(** The loop that adds the intrinsic gas of the further recipients. *)
Fixpoint extra_gas (homestead : bool) (gas : Z) (l : list Tx_to) : option Z :=
  match l with
  | [] => Some gas
  | ex :: l' =>
      match IntrinsicGas (to_Payload ex) (bool_decide (to_Recipient ex = None)) homestead with
      | None => None
      | Some tmpgas => extra_gas homestead (u64 (gas + tmpgas)) l'
      end
  end.

(** The calls to the further recipients; the first failing one ends the loop. *)
Fixpoint extra_calls (ctx : EVMContext) (sender : Address) (l : list Tx_to) (gas : Z) (st : state)
    : state * Z * option vm_error :=
  match l with
  | [] => (st, gas, None)
  | ex :: l' =>
      match (match to_Recipient ex with
             | None => Create ctx sender (to_Payload ex) gas (to_Amount ex) st
             | Some r => Call ctx sender r (to_Payload ex) gas (to_Amount ex) st
             end) with
      | (st, gas, None) => extra_calls ctx sender l' gas st
      | (st, gas, Some e) => (st, gas, Some e)
      end
  end.

Definition preCheck (msg : Message) (st : state) : option apply_error :=
  if m_checkNonce msg then
    let nonce := GetNonce st (m_from msg) in
    if nonce <? m_nonce msg then Some ErrNonceTooHigh
    else if m_nonce msg <? nonce then Some ErrNonceTooLow else None
  else None.

(** [buyGas]: the pool and the state after it. *)
Definition buyGas (msg : Message) (gp : option Z) (st : state) : res apply_error (Z * state) :=
  let mgval := m_gasLimit msg * m_gasPrice msg in
  if GetBalance st (m_from msg) <? mgval then Err errInsufficientBalanceForGas
  else
    match gp with
    | None => Err RuntimePanic
    | Some gp =>
        match SubGas gp (m_gasLimit msg) with
        | None => Err ErrGasLimitReached
        | Some gp => Ok (gp, SubBalance st (m_from msg) mgval)
        end
    end.

Definition refundGas (msg : Message) (gas gp : Z) (st : state) : option (Z * Z * state) :=
  let refund := u64 (m_gasLimit msg - gas) / 2 in
  let refund := if GetRefund st <? refund then GetRefund st else refund in
  let gas := u64 (gas + refund) in
  let st := AddBalance st (m_from msg) (gas * m_gasPrice msg) in
  match AddGas gp gas with
  | None => None
  | Some gp => Some (gas, gp, st)
  end.

(** The first call, and the calls to the further recipients after it. *)
Definition run_message (ctx : EVMContext) (msg : Message) (gas : Z) (st : state)
    : state * Z * option vm_error :=
  let first :=
    match m_to msg with
    | None => Create ctx (m_from msg) (m_data msg) gas (m_amount msg) st
    | Some to =>
        let st := SetNonce st (m_from msg) (u64 (GetNonce st (m_from msg) + 1)) in
        Call ctx (m_from msg) to (m_data msg) gas (m_amount msg) st
    end in
  match first with
  | (st, gas, None) => extra_calls ctx (m_from msg) (ex_ExtraTo (m_extra msg)) gas st
  | r => r
  end.

(** [TransitionDb], called through [ApplyMessage]: the pool left, and the new
    state with the gas used and whether the execution failed. *)
Definition TransitionDb (ctx : EVMContext) (msg : Message) (gp : option Z) (st : state)
    : option Z * res apply_error (state * Z * bool) :=
  match preCheck msg st with
  | Some e => (gp, Err e)
  | None =>
      match buyGas msg gp st with
      | Err e => (gp, Err e)
      | Ok (gp, st) =>
          let homestead := IsHomestead config (BlockNumber ctx) in
          match IntrinsicGas (m_data msg) (bool_decide (m_to msg = None)) homestead with
          | None => (Some gp, Err ErrOutOfGas)
          | Some gas =>
              let extra := ex_ExtraTo (m_extra msg) in
              if TxCount - 1 <? Z.of_nat (length extra) then (Some gp, Err ErrTXCountOverflow)
              else
                match extra_gas homestead gas extra with
                | None => (Some gp, Ok (st, 0, false)) (* returns err, which is nil here *)
                | Some gas =>
                    if m_gasLimit msg <? gas then (Some gp, Err ErrOutOfGas)
                    else
                      let '(st, gas, vmerr) := run_message ctx msg (m_gasLimit msg - gas) st in
                      match vmerr with
                      | Some vmInsufficientBalance => (Some gp, Err ErrInsufficientBalance)
                      | _ =>
                          match refundGas msg gas gp st with
                          | None => (Some gp, Err RuntimePanic) (* the pool overflows *)
                          | Some (gas, gp, st) =>
                              (Some gp, Ok (st, u64 (m_gasLimit msg - gas),
                                        match vmerr with Some _ => true | None => false end))
                          end
                      end
                end
          end
      end
  end.

Definition NewEVMContext (msg : Message) (header : Header) (author : Address) : EVMContext :=
  mkContext (ParentHash header, Number header) (m_from msg) author (Number header) (Time header)
    (Difficulty header) (GasLimit header) (m_gasPrice msg).

Definition AsMessage (tx : Transaction) (number : Z) : option Message :=
  match SenderAt number tx with
  | None => None
  | Some from =>
      Some (mkMessage (Recipient tx) from (AccountNonce tx) (Amount tx) (tx_GasLimit tx) (Price tx)
              (tx_Payload tx) true (default (mkExtra 0 0 []) (head (tx_Extra tx))))
  end.

(** [ApplyTransaction]: the pool left, and the new state, the gas used in the
    block so far and the receipt. *)
Definition ApplyTransaction (author : Address) (gp : option Z) (st : state) (header : Header)
    (tx : Transaction) (usedGas : Z) : option Z * res apply_error (state * Z * Receipt Log) :=
  match AsMessage tx (Number header) with
  | None => (gp, Err ErrSender)
  | Some msg =>
      let '(gp, r) :=
        if ex_TxType (m_extra msg) =? 1 then (gp, Ok (st, 0, true))
        else TransitionDb (NewEVMContext msg header author) msg gp st in
      match r with
      | Err e => (gp, Err e)
      | Ok (st, gas, failed) =>
          let '(st, root) :=
            if IsByzantium config (Number header) then (Finalise st, None)
            else let '(st, h) := IntermediateRoot st (IsEIP158 config (Number header)) in
                 (st, Some h) in
          let usedGas := u64 (usedGas + gas) in
          let logs := GetLogs st (TxHashOf tx) in
          (gp, Ok (st, usedGas,
             mkReceipt _ root failed usedGas (CreateBloom [logs]) logs (TxHashOf tx)
               (match m_to msg with
                | None => CreateAddress (m_from msg) (AccountNonce tx)
                | Some _ => 0%N
                end) gas))
      end
  end.

End StateTransition.

(** ** Gas accounting *)

(** Documented behaviour of the virtual machine: a call returns at most the gas
    it was given, and the refund counter is unsigned. *)
Class EVMLaws `{EVM} : Prop := {
  Call_gas ctx a b data gas value st st' gas' e :
    0 <= gas -> Call ctx a b data gas value st = (st', gas', e) -> 0 <= gas' <= gas;
  Create_gas ctx a data gas value st st' gas' e :
    0 <= gas -> Create ctx a data gas value st = (st', gas', e) -> 0 <= gas' <= gas;
  GetRefund_nonneg st : 0 <= GetRefund st
}.

Section Gas.
Context `{EVMLaws} (config : ChainConfig).

Lemma extra_calls_gas ctx sender l gas st st' gas' e :
  0 <= gas -> extra_calls ctx sender l gas st = (st', gas', e) -> 0 <= gas' <= gas.
Proof.
  revert gas st. induction l as [|ex l IH]; intros gas st Hg; cbn [extra_calls].
  { intros [= <- <- <-]. lia. }
  destruct (match to_Recipient ex with None => _ | Some _ => _ end) as [[st1 g1] e1] eqn:E.
  assert (0 <= g1 <= gas) as Hg1.
  { destruct (to_Recipient ex); [by eapply Call_gas|by eapply Create_gas]. }
  destruct e1; [intros [= <- <- <-]; lia|]. intros E'. apply IH in E'; lia.
Qed.

Lemma run_message_gas ctx msg gas st st' gas' e :
  0 <= gas -> run_message ctx msg gas st = (st', gas', e) -> 0 <= gas' <= gas.
Proof.
  intros Hg. unfold run_message.
  destruct (match m_to msg with None => _ | Some _ => _ end) as [[st1 g1] e1] eqn:E.
  assert (0 <= g1 <= gas) as Hg1.
  { destruct (m_to msg); [by eapply Call_gas|by eapply Create_gas]. }
  destruct e1; [intros [= <- <- <-]; lia|]. intros E'. apply extra_calls_gas in E'; lia.
Qed.

(** The refund returns at most the gas that was bought. *)
Lemma refundGas_spec msg gas gp st :
  in_u64 (m_gasLimit msg) -> 0 <= gas <= m_gasLimit msg -> 0 <= gp ->
  gp + m_gasLimit msg <= MaxUint64 ->
  exists g st', gas <= g <= m_gasLimit msg /\
    forall d, 0 <= d -> gp + d + m_gasLimit msg <= MaxUint64 ->
      refundGas msg gas (gp + d) st = Some (g, gp + d + g, st').
Proof.
  unfold in_u64, MaxUint64. intros Hl Hg Hgp Hm. pose proof (GetRefund_nonneg st) as Hr.
  set (u := m_gasLimit msg - gas).
  set (refund := if GetRefund st <? u / 2 then GetRefund st else u / 2).
  assert (0 <= refund <= u) as Href.
  { pose proof (Z.div_pos u 2 ltac:(lia) ltac:(lia)).
    pose proof (Z.div_le_upper_bound u 2 u ltac:(lia) ltac:(lia)).
    unfold refund. case_match; bool_to_prop; lia. }
  exists (gas + refund), (AddBalance st (m_from msg) ((gas + refund) * m_gasPrice msg)).
  split; [lia|]. intros d Hd Hmd. unfold refundGas, AddGas, MaxUint64.
  rewrite (u64_small (m_gasLimit msg - gas)) by (unfold in_u64; lia). fold u refund.
  rewrite (u64_small (gas + refund)) by (unfold in_u64; lia).
  by rewrite (proj2 (Z.ltb_ge _ _)) by lia.
Qed.

Lemma IntrinsicGas_nonneg data c h gas : IntrinsicGas data c h = Some gas -> 0 <= gas.
Proof.
  unfold IntrinsicGas, TxGasContractCreation, TxGas, TxDataNonZeroGas, TxDataZeroGas.
  pose proof (length_filter (fun b : Z => b <> 0) data).
  destruct data; [intros [= <-]; by case_match|]. repeat (case_match; try done); intros [= <-]; lia.
Qed.

Lemma extra_gas_nonneg h gas l gas' : 0 <= gas -> extra_gas h gas l = Some gas' -> 0 <= gas'.
Proof.
  revert gas. induction l as [|ex l IH]; intros gas Hg; cbn [extra_gas]; [by intros [= <-]|].
  destruct (IntrinsicGas _ _ _); [|done]. apply IH, u64_range.
Qed.

(** On success the gas used was taken from the pool, and a larger pool gives the
    same result. *)
Lemma TransitionDb_ok ctx msg gp st gp' st' used failed :
  in_u64 (m_gasLimit msg) -> 0 <= gp <= MaxUint64 ->
  TransitionDb config ctx msg (Some gp) st = (gp', Ok (st', used, failed)) ->
  exists g', gp' = Some g' /\ 0 <= used /\ 0 <= g' /\ used + g' <= gp /\
    forall d, 0 <= d -> gp + d <= MaxUint64 ->
      TransitionDb config ctx msg (Some (gp + d)) st = (Some (g' + d), Ok (st', used, failed)).
Proof.
  intros Hl Hgp. unfold TransitionDb. destruct (preCheck msg st); [done|].
  unfold buyGas, SubGas. destruct (GetBalance st (m_from msg) <? _); [done|].
  destruct (gp <? m_gasLimit msg) eqn:Eg; [done|]. bool_to_prop.
  assert (forall d, 0 <= d -> (gp + d <? m_gasLimit msg) = false) as Hd by (intros; lia).
  destruct (IntrinsicGas _ _ _) as [gas0|] eqn:E0; [|done]. apply IntrinsicGas_nonneg in E0 as Hg0.
  destruct (TxCount - 1 <? _); [done|].
  destruct (extra_gas _ gas0 _) as [gas|] eqn:E1.
  - apply extra_gas_nonneg in E1; [|done].
    destruct (m_gasLimit msg <? gas) eqn:El; [done|]. bool_to_prop.
    destruct (run_message ctx msg (m_gasLimit msg - gas) _) as [[st1 g1] e1] eqn:Er.
    apply run_message_gas in Er as Hg1; [|lia].
    destruct (refundGas_spec msg g1 (gp - m_gasLimit msg) st1) as (g & st2 & Hg & Href);
      [done|lia|lia|lia|].
    assert (u64 (m_gasLimit msg - g) = m_gasLimit msg - g) as Hu
      by (apply u64_small; unfold in_u64 in *; lia).
    pose proof (Href 0 ltac:(lia) ltac:(lia)) as Href0. rewrite Z.add_0_r in Href0.
    assert (forall d, 0 <= d -> gp + d <= MaxUint64 ->
      refundGas msg g1 (gp + d - m_gasLimit msg) st1
      = Some (g, gp - m_gasLimit msg + d + g, st2)) as Href'.
    { intros d Hd0 Hm. replace (gp + d - m_gasLimit msg) with (gp - m_gasLimit msg + d) by lia.
      apply Href; lia. }
    destruct e1 as [[]|]; [done|..]; rewrite Href0, Hu; intros [= <- <- <- <-]; eexists;
      (split_and!; [done|lia|lia|lia|]); intros d Hd0 Hm;
      rewrite (Hd d Hd0); cbv beta iota; rewrite Er; rewrite (Href' d Hd0 Hm), Hu; do 2 f_equal; lia.
  - intros [= <- <- <- <-]. unfold in_u64 in Hl. eexists. split_and!; [done|lia|lia|lia|].
    intros d Hd0 Hm. rewrite (Hd d Hd0). cbv beta iota. do 2 f_equal. lia.
Qed.

(** Whatever happens, the pool stays a pool and does not grow. *)
Lemma TransitionDb_pool ctx msg gp st gp' r :
  in_u64 (m_gasLimit msg) -> 0 <= gp <= MaxUint64 ->
  TransitionDb config ctx msg (Some gp) st = (gp', r) ->
  exists g', gp' = Some g' /\ 0 <= g' <= gp.
Proof.
  intros Hl Hgp E. destruct r as [[[st' used] failed]|e].
  { apply TransitionDb_ok in E as (g' & -> & ? & ? & ? & _); [|done..]. exists g'. split; [done|lia]. }
  revert E. unfold TransitionDb, buyGas, SubGas, in_u64 in *.
  repeat (case_match; simplify_eq/=); intros; simplify_eq/=; bool_to_prop; eexists; split; (done || lia).
Qed.

Definition tx_ok (tx : Transaction) : Prop := in_u64 (tx_GasLimit tx).

Lemma AsMessage_gas tx number msg : AsMessage tx number = Some msg -> m_gasLimit msg = tx_GasLimit tx.
Proof. unfold AsMessage. destruct (SenderAt number tx); [|done]. by intros [= <-]. Qed.

Lemma ApplyTransaction_ok author gp st header tx usedGas gp' st' usedGas' receipt :
  tx_ok tx -> 0 <= gp <= MaxUint64 ->
  ApplyTransaction config author (Some gp) st header tx usedGas = (gp', Ok (st', usedGas', receipt)) ->
  exists g' gas, gp' = Some g' /\ usedGas' = u64 (usedGas + gas) /\ 0 <= gas /\ 0 <= g' /\ gas + g' <= gp /\
    forall d, 0 <= d -> gp + d <= MaxUint64 ->
      ApplyTransaction config author (Some (gp + d)) st header tx usedGas
      = (Some (g' + d), Ok (st', usedGas', receipt)).
Proof.
  unfold ApplyTransaction. intros Htx Hgp. destruct (AsMessage tx (Number header)) as [msg|] eqn:Em; [|done].
  apply AsMessage_gas in Em as Hg.
  destruct (ex_TxType (m_extra msg) =? 1).
  - destruct (if IsByzantium config (Number header) then _ else _) as [st1 root].
    intros [= <- <- <- <-]. exists gp, 0. split_and!; [done|done|lia|lia|lia|done].
  - destruct (TransitionDb config _ msg (Some gp) st) as [gp1 [[[st1 gas] failed]|]] eqn:Et; [|done].
    apply TransitionDb_ok in Et as (g' & -> & ? & ? & ? & Hd); [|by rewrite Hg|done].
    destruct (if IsByzantium config (Number header) then _ else _) as [st2 root] eqn:Eb.
    intros [= <- <- <- <-]. exists g', gas. split_and!; [done|done|done|done|done|].
    intros d Hd0 Hm. rewrite (Hd d Hd0 Hm). cbv beta iota. by rewrite Eb.
Qed.

Lemma ApplyTransaction_pool author gp st header tx usedGas gp' r :
  tx_ok tx -> 0 <= gp <= MaxUint64 ->
  ApplyTransaction config author (Some gp) st header tx usedGas = (gp', r) ->
  exists g', gp' = Some g' /\ 0 <= g' <= gp.
Proof.
  unfold ApplyTransaction. intros Htx Hgp. destruct (AsMessage tx (Number header)) as [msg|] eqn:Em.
  2: { intros [= <- <-]. exists gp. split; [done|lia]. }
  apply AsMessage_gas in Em as Hg.
  destruct (ex_TxType (m_extra msg) =? 1).
  { destruct (if IsByzantium config _ then _ else _). intros [= <- <-]. exists gp. split; [done|lia]. }
  destruct (TransitionDb config _ msg (Some gp) st) as [gp1 r1] eqn:Et.
  apply TransitionDb_pool in Et; [|by rewrite Hg|done].
  repeat case_match; by intros [= <- <-].
Qed.

(** The header fields that execution reads. *)
Definition same_env (h h' : Header) : Prop :=
  ParentHash h = ParentHash h' /\ Number h = Number h' /\ Time h = Time h' /\
  Difficulty h = Difficulty h' /\ GasLimit h = GasLimit h'.

Lemma ApplyTransaction_env author gp st h h' tx usedGas :
  same_env h h' ->
  ApplyTransaction config author gp st h tx usedGas = ApplyTransaction config author gp st h' tx usedGas.
Proof.
  intros (Hp & Hn & Ht & Hd & Hg). unfold ApplyTransaction, NewEVMContext. by rewrite Hp, Hn, Ht, Hd, Hg.
Qed.

End Gas.
End StateTransition.

(** ** An account machine the theorems can be evaluated at

    Balances and nonces; a call moves value and uses no gas of its own, so a
    transfer costs the intrinsic gas.  [tx_V] is the sender. *)
Module Accounts.

Record accounts := mkAccounts {
  acc : gmap Address (Z * Z);          (* nonce, balance *)
  current : Hash * Z                   (* what [Prepare] sets *)
}.

Definition get (s : accounts) (a : Address) : Z * Z := default (0, 0) (acc s !! a).
Definition put (s : accounts) (a : Address) (p : Z * Z) : accounts :=
  mkAccounts (<[a := p]> (acc s)) (current s).
Definition add (s : accounts) (a : Address) (v : Z) : accounts :=
  put s a (fst (get s a), snd (get s a) + v).
Definition transfer (a b : Address) (gas v : Z) (s : accounts) : accounts * Z * option vm_error :=
  if snd (get s a) <? v then (s, gas, Some vmInsufficientBalance)
  else (add (add s a (- v)) b v, gas, None).
Definition root (s : accounts) : Hash :=
  foldr (fun '(a, (n, b)) h => h * 1000003 + a * 10007 + Z.to_N n * 101 + Z.to_N b)%N 1%N
    (map_to_list (acc s)).

Definition machine : EVM :=
  {| state := accounts; Log := unit;
     GetBalance s a := snd (get s a);
     SubBalance s a v := add s a (- v);
     AddBalance s a v := add s a v;
     GetNonce s a := fst (get s a);
     SetNonce s a n := put s a (n, snd (get s a));
     GetRefund _ := 0;
     Prepare s h i := mkAccounts (acc s) (h, i);
     Finalise s := s;
     IntermediateRoot s _ := (s, root s);
     GetLogs _ _ := [];
     CreateBloom _ := 0%N;
     Call ctx a b _ gas v s := transfer a b gas v s;
     Create ctx a _ gas v s := transfer a 0%N gas v s;
     CreateAddress a n := (a * 1000 + Z.to_N n)%N;
     TxHashOf tx := (Z.to_N (tx_V tx) * 1000 + Z.to_N (AccountNonce tx) + 1)%N;
     SenderAt _ tx := Some (Z.to_N (tx_V tx));
     EIP155Sender tx := Some (Z.to_N (tx_V tx)) |}.

Lemma transfer_gas a b gas v s s' gas' e :
  0 <= gas -> transfer a b gas v s = (s', gas', e) -> 0 <= gas' <= gas.
Proof. unfold transfer. intros ?. case_match; intros [= <- <- <-]; lia. Qed.

Lemma machine_laws : @StateTransition.EVMLaws machine.
Proof.
  split; [| |done]; intros *; intros Hg E; exact (transfer_gas _ _ _ _ _ _ _ _ Hg E).
Qed.

(** A transfer of the sender's [n]-th transaction. *)
Definition pay (from : Z) (n price : Z) (to : Address) (v : Z) : Transaction :=
  mkTransaction n price 30000 (Some to) v [] from 0 0 [] (Some (from * 100 + n)).

End Accounts.
