(* ===== verification/Manash.v ===== *)
(** * Package [consensus/manash]: difficulty, header checks and finalization

    Models [CalcDifficulty] with its three rules, [verifyHeader],
    [VerifyHeader], [VerifySeal], [Prepare] and [Finalize] of
    consensus/manash/consensus.go, [CalcGasLimit] of core/block_validator.go, and
    [NewBlock] and [NewBlockWithTxs] of core/types/block.go.

    The package keeps the constant 1 in a variable ([big1]) of pointer type, and
    the Byzantium rule may compute in place through an alias of it.  The value
    of the variable is therefore threaded through the computations.

    Parameters: the chain's headers, the clock, the search function
    ([hashimotoLight]), the checks of fork data, the roots of transaction and
    receipt tries. *)

From S2P Require Import Prelude Common Rlp Crypto Types TxHeap StateTransition.

(** ** Updates of a header *)

Definition set_Difficulty (h : Header) (d : Z) : Header :=
  mkHeader (ParentHash h) (UncleHash h) (Leader h) (Coinbase h) (Root h) (TxHash h) (ReceiptHash h)
    (Bloom h) d (Number h) (GasLimit h) (GasUsed h) (Time h) (hElect h) (hNetTopology h)
    (Signatures h) (Extra h) (MixDigest h) (Nonce h) (Version h).
Definition set_Root (h : Header) (r : Hash) : Header :=
  mkHeader (ParentHash h) (UncleHash h) (Leader h) (Coinbase h) r (TxHash h) (ReceiptHash h)
    (Bloom h) (Difficulty h) (Number h) (GasLimit h) (GasUsed h) (Time h) (hElect h)
    (hNetTopology h) (Signatures h) (Extra h) (MixDigest h) (Nonce h) (Version h).
Definition set_GasUsed (h : Header) (g : Z) : Header :=
  mkHeader (ParentHash h) (UncleHash h) (Leader h) (Coinbase h) (Root h) (TxHash h) (ReceiptHash h)
    (Bloom h) (Difficulty h) (Number h) (GasLimit h) g (Time h) (hElect h) (hNetTopology h)
    (Signatures h) (Extra h) (MixDigest h) (Nonce h) (Version h).
Definition set_TxHash (h : Header) (r : Hash) : Header :=
  mkHeader (ParentHash h) (UncleHash h) (Leader h) (Coinbase h) (Root h) r (ReceiptHash h)
    (Bloom h) (Difficulty h) (Number h) (GasLimit h) (GasUsed h) (Time h) (hElect h)
    (hNetTopology h) (Signatures h) (Extra h) (MixDigest h) (Nonce h) (Version h).
Definition set_ReceiptHash (h : Header) (r : Hash) (b : N) : Header :=
  mkHeader (ParentHash h) (UncleHash h) (Leader h) (Coinbase h) (Root h) (TxHash h) r
    b (Difficulty h) (Number h) (GasLimit h) (GasUsed h) (Time h) (hElect h)
    (hNetTopology h) (Signatures h) (Extra h) (MixDigest h) (Nonce h) (Version h).
Definition set_UncleHash (h : Header) (r : Hash) : Header :=
  mkHeader (ParentHash h) r (Leader h) (Coinbase h) (Root h) (TxHash h) (ReceiptHash h)
    (Bloom h) (Difficulty h) (Number h) (GasLimit h) (GasUsed h) (Time h) (hElect h)
    (hNetTopology h) (Signatures h) (Extra h) (MixDigest h) (Nonce h) (Version h).

Inductive manash_error :=
| ErrUnknownAncestor | errExtraTooLong | ErrFutureBlock | errZeroBlockTime | errDifficulty
| errGasLimitCap | errGasUsed | errGasLimitBounds | ErrInvalidNumber | errInvalidPoW
| errInvalidDifficulty | errInvalidMixDigest | errFork.

(** An engine: the fake modes with the height at which they fail, without or
    with a shared engine to delegate to. *)
Inductive Ethash :=
| mkEthash (fullFake fake : bool) (fakeFail : Z)
| mkSharedEthash (fullFake fake : bool) (fakeFail : Z) (shared : Ethash).

Definition fullFake (e : Ethash) : bool :=
  match e with mkEthash b _ _ | mkSharedEthash b _ _ _ => b end.

Module Manash.

Definition DifficultyBoundDivisor : Z := 256.
Definition MinimumDifficulty : Z := 10.
Definition DurationLimit : Z := 6.
Definition expDiffPeriod : Z := 100000.
Definition MaximumExtraDataSize : Z := 32.
Definition GasLimitBoundDivisor : Z := 1024.
Definition MinGasLimit : Z := 5000.
Definition TargetGasLimit : Z := 4712388.
Definition allowedFutureBlockTime : Z := 15.

Section Difficulty.
Context `{Crypto} (config : ChainConfig).

(** [CalcUncleHash(nil)]. *)
Definition EmptyUncleHash : Hash := Types.rlpHash (Rlp.TSlice (go_type Header)) (Rlp.VSlice []).

(** [y.Exp(big2, y, nil)], which is 1 for a non-positive exponent. *)
Definition exp2 (y : Z) : Z := 2 ^ Z.max 0 y.

(** Each rule returns the difficulty and the value of [big1] afterwards. *)
Definition calcDifficultyByzantium (big1 time : Z) (parent : Header) : Z * Z :=
  let x := (time - Time parent) / DurationLimit in
  let x := if bool_decide (UncleHash parent = EmptyUncleHash) then big1 - x else 2 - x in
  let x := if x <? -99 then -99 else x in
  let y := Difficulty parent / DifficultyBoundDivisor in
  let alias := y =? 0 in                        (* y = big1 *)
  let y := if alias then big1 else y in
  let x := Difficulty parent + y * x in
  let x := if x <? MinimumDifficulty then MinimumDifficulty else x in
  let fakeBlockNumber := if 2999999 <=? Number parent then Number parent - 2999999 else 0 in
  let periodCount := fakeBlockNumber / expDiffPeriod in
  if big1 <? periodCount then
    let y := exp2 (periodCount - 2) in
    (x + y, if alias then y else big1)
  else (x, big1).

Definition calcDifficultyHomestead (big1 time : Z) (parent : Header) : Z * Z :=
  let x := big1 - (time - Time parent) / 10 in
  let x := if x <? -99 then -99 else x in
  let y := Difficulty parent / DifficultyBoundDivisor in
  let x := Difficulty parent + y * x in
  let x := if x <? MinimumDifficulty then MinimumDifficulty else x in
  let periodCount := (Number parent + big1) / expDiffPeriod in
  if big1 <? periodCount then (x + exp2 (periodCount - 2), big1) else (x, big1).

Definition calcDifficultyFrontier (big1 time : Z) (parent : Header) : Z * Z :=
  let adjust := Difficulty parent / DifficultyBoundDivisor in
  let diff := if time - Time parent <? DurationLimit
              then Difficulty parent + adjust else Difficulty parent - adjust in
  let diff := if diff <? MinimumDifficulty then MinimumDifficulty else diff in
  let periodCount := (Number parent + big1) / expDiffPeriod in
  if big1 <? periodCount
  then (Z.max (diff + exp2 (periodCount - 2)) MinimumDifficulty, big1) else (diff, big1).

Definition CalcDifficulty (big1 time : Z) (parent : Header) : Z * Z :=
  let next := Number parent + big1 in
  if IsByzantium config next then calcDifficultyByzantium big1 time parent
  else if IsHomestead config next then calcDifficultyHomestead big1 time parent
  else calcDifficultyFrontier big1 time parent.

(** The difficulty never falls below the minimum. *)
Lemma CalcDifficulty_min big1 time parent : MinimumDifficulty <= (CalcDifficulty big1 time parent).1.
Proof.
  assert (forall y, 0 < exp2 y) as He by (intros; unfold exp2; apply Z.pow_pos_nonneg; lia).
  unfold CalcDifficulty, calcDifficultyByzantium, calcDifficultyHomestead, calcDifficultyFrontier,
    MinimumDifficulty.
  repeat match goal with |- context [exp2 ?y] =>
    lazymatch goal with _ : 0 < exp2 y |- _ => fail | _ => pose proof (He y) end end.
  repeat (case_match; simpl); bool_to_prop; lia.
Qed.

(** Up to height 3200000 no computation touches the shared constant. *)
Lemma CalcDifficulty_big1 time parent :
  Number parent < 3199999 -> (CalcDifficulty 1 time parent).2 = 1.
Proof.
  intros Hn. unfold CalcDifficulty.
  destruct (IsByzantium config _); [|destruct (IsHomestead config _)].
  2: unfold calcDifficultyHomestead; by case_match.
  2: unfold calcDifficultyFrontier; by case_match.
  unfold calcDifficultyByzantium, expDiffPeriod.
  rewrite (proj2 (Z.ltb_ge 1 _)); [done|]. case_match; bool_to_prop; [|vm_compute; discriminate].
  apply Z.lt_succ_r, Z.div_lt_upper_bound; lia.
Qed.

End Difficulty.

(** Beyond it, with a difficulty below 256, the Byzantium rule overwrites the
    constant 1 of the package.  The same call made again gives another
    difficulty: what a node takes for the right difficulty depends on what it
    has computed before. *)
Lemma difficulty_corrupts_constant `{Crypto} parent time :
  Difficulty parent = 100 -> Number parent = 3400000 -> time = Time parent ->
  UncleHash parent = EmptyUncleHash ->
  calcDifficultyByzantium 1 time parent = (105, 4) /\
  (calcDifficultyByzantium 4 time parent).1 = 116.
Proof.
  intros Hd Hn -> Hu. unfold calcDifficultyByzantium. rewrite Hd, Hn, Z.sub_diag, Hu.
  rewrite bool_decide_true by done. split; vm_compute; reflexivity.
Qed.

(** ** Verification of a header *)

Section Verify.
Context `{Crypto} (config : ChainConfig).
Context (hashimotoLight : Hash -> N -> Hash * Z).
Context (fork_ok : Header -> bool).
Context (GetHeader : Hash -> Z -> option Header).

Definition seal_ok (header : Header) : res manash_error unit :=
  if Difficulty header <=? 0 then Err errInvalidDifficulty
  else
    let '(digest, result) := hashimotoLight (Types.HashNoNonce header) (Nonce header) in
    if negb (bool_decide (MixDigest header = digest)) then Err errInvalidMixDigest
    else if 2 ^ 256 / Difficulty header <? result then Err errInvalidPoW
    else Ok tt.

Fixpoint VerifySeal (manash : Ethash) (header : Header) : res manash_error unit :=
  match manash with
  | mkEthash ff f fakeFail =>
      if ff || f then
        if fakeFail =? Uint64 (Number header) then Err errInvalidPoW else Ok tt
      else seal_ok header
  | mkSharedEthash ff f fakeFail shared =>
      if ff || f then
        if fakeFail =? Uint64 (Number header) then Err errInvalidPoW else Ok tt
      else VerifySeal shared header
  end.

(** [verifyHeader] of a header that is not an uncle, at the time [now]. *)
Definition verifyHeader (manash : Ethash) (big1 now : Z) (header parent : Header) (seal : bool)
    : res manash_error unit :=
  if MaximumExtraDataSize <? Z.of_nat (length (Extra header)) then Err errExtraTooLong
  else if now + allowedFutureBlockTime <? Time header then Err ErrFutureBlock
  else if Time header <=? Time parent then Err errZeroBlockTime
  else if negb ((CalcDifficulty config big1 (Uint64 (Time header)) parent).1 =? Difficulty header)
  then Err errDifficulty
  else if 2 ^ 63 - 1 <? GasLimit header then Err errGasLimitCap
  else if GasLimit header <? GasUsed header then Err errGasUsed
  else
    let diff := i64 (i64 (GasLimit parent) - i64 (GasLimit header)) in
    let diff := if diff <? 0 then i64 (- diff) else diff in
    let limit := GasLimit parent / GasLimitBoundDivisor in
    if (limit <=? u64 diff) || (GasLimit header <? MinGasLimit) then Err errGasLimitBounds
    else if negb (Number header - Number parent =? 1) then Err ErrInvalidNumber
    else
      let? _ := (if seal then VerifySeal manash header else Ok tt) in
      if fork_ok header then Ok tt else Err errFork.

Definition VerifyHeader (manash : Ethash) (big1 now : Z) (header : Header) (seal : bool)
    : res manash_error unit :=
  if fullFake manash then Ok tt
  else
    let number := Uint64 (Number header) in
    match GetHeader (Types.Header_Hash header) number with
    | Some _ => Ok tt
    | None =>
        match GetHeader (ParentHash header) (u64 (number - 1)) with
        | None => Err ErrUnknownAncestor
        | Some parent => verifyHeader manash big1 now header parent seal
        end
    end.

(** [Prepare], with the value of [big1] before and after. *)
Definition Prepare (big1 : Z) (header : Header) : Z * res manash_error Header :=
  match GetHeader (ParentHash header) (u64 (Uint64 (Number header) - 1)) with
  | None => (big1, Err ErrUnknownAncestor)
  | Some parent =>
      let '(d, big1) := CalcDifficulty config big1 (Uint64 (Time header)) parent in
      (big1, Ok (set_Difficulty header d))
  end.

Definition CalcGasLimit (parent : Header) : Z :=
  let contrib := u64 (GasUsed parent + GasUsed parent / 2) / GasLimitBoundDivisor in
  let decay := u64 (GasLimit parent / GasLimitBoundDivisor - 1) in
  let limit := u64 (u64 (GasLimit parent - decay) + contrib) in
  let limit := if limit <? MinGasLimit then MinGasLimit else limit in
  if limit <? TargetGasLimit then
    let limit := u64 (GasLimit parent + decay) in
    if TargetGasLimit <? limit then TargetGasLimit else limit
  else limit.

(** A parent whose gas fields passed verification; the bound keeps the sums of
    [CalcGasLimit] from wrapping. *)
Definition parent_gas_ok (parent : Header) : Prop :=
  MinGasLimit <= GasLimit parent < 2 ^ 62 /\ 0 <= GasUsed parent <= GasLimit parent.

Lemma CalcGasLimit_bounds parent :
  parent_gas_ok parent ->
  MinGasLimit <= CalcGasLimit parent < 2 ^ 63 - 1 /\
  Z.abs (GasLimit parent - CalcGasLimit parent) < GasLimit parent / GasLimitBoundDivisor.
Proof.
  unfold parent_gas_ok, CalcGasLimit, MinGasLimit, TargetGasLimit, GasLimitBoundDivisor.
  intros [Hl Hu]. set (pl := GasLimit parent) in *. set (gu := GasUsed parent) in *.
  pose proof (Z.div_mod pl 1024 ltac:(lia)). pose proof (Z.mod_pos_bound pl 1024 ltac:(lia)).
  pose proof (Z.div_mod gu 2 ltac:(lia)). pose proof (Z.mod_pos_bound gu 2 ltac:(lia)).
  rewrite (u64_small (gu + gu / 2)) by (unfold in_u64; lia).
  pose proof (Z.div_mod (gu + gu / 2) 1024 ltac:(lia)).
  pose proof (Z.mod_pos_bound (gu + gu / 2) 1024 ltac:(lia)).
  rewrite (u64_small (pl / 1024 - 1)) by (unfold in_u64; lia).
  rewrite (u64_small (pl - _)) by (unfold in_u64; lia).
  rewrite (u64_small (pl - _ + _)) by (unfold in_u64; lia).
  rewrite (u64_small (pl + _)) by (unfold in_u64; lia).
  repeat case_match; bool_to_prop; lia.
Qed.

(** The header checks accept what a leader following the rules produces: a
    later time that is not in the future, the difficulty of [Prepare], the gas
    limit of [CalcGasLimit]. *)
Lemma verifyHeader_accepts manash big1 now header parent :
  parent_gas_ok parent -> (length (Extra header) <= 32)%nat ->
  Time parent < Time header <= now + allowedFutureBlockTime ->
  Difficulty header = (CalcDifficulty config big1 (Uint64 (Time header)) parent).1 ->
  GasLimit header = CalcGasLimit parent -> 0 <= GasUsed header <= GasLimit header ->
  Number header = Number parent + 1 -> fork_ok header = true ->
  verifyHeader manash big1 now header parent false = Ok tt.
Proof.
  intros Hp He [Ht Hn] Hd Hg Hu Hnum Hf. destruct (CalcGasLimit_bounds parent Hp) as [Hb Habs].
  unfold parent_gas_ok, MinGasLimit, GasLimitBoundDivisor in *. unfold verifyHeader.
  unfold MaximumExtraDataSize, GasLimitBoundDivisor, MinGasLimit.
  rewrite !(proj2 (Z.ltb_ge _ _)) by lia. rewrite (proj2 (Z.leb_gt _ _)) by lia.
  rewrite <- Hd, Z.eqb_refl. cbn [negb]. rewrite (proj2 (Z.eqb_eq (Number header - _) 1)) by lia.
  rewrite (proj2 (Z.ltb_ge (GasLimit header) _)) by lia.
  assert (forall x, - 2 ^ 63 <= x < 2 ^ 63 -> i64 x = x) as Hi by (intros; by apply i64_small).
  rewrite !Hi by (rewrite ?Hi; lia). cbn [negb]. rewrite Hf.
  rewrite (proj2 (orb_false_iff _ _)); [done|]. split; [|lia].
  apply Z.leb_gt. case_match; bool_to_prop; rewrite ?Hi, u64_small by (unfold in_u64; lia); lia.
Qed.

End Verify.

(** ** Finalization *)

Section Finalize.
Context `{Crypto} `{EVM} (config : ChainConfig).
Context (DeriveSha_txs : list Transaction -> Hash) (DeriveSha_receipts : list (Receipt Log) -> Hash).

Definition EmptyRootHash : Hash := DeriveSha_txs [].

(** The header of [NewBlock(header, txs, nil, receipts)]. *)
Definition NewBlock (header : Header) (txs : list Transaction) (receipts : list (Receipt Log)) : Header :=
  let header := set_TxHash header
    (match txs with [] => EmptyRootHash | _ => DeriveSha_txs txs end) in
  let header :=
    match receipts with
    | [] => set_ReceiptHash header EmptyRootHash (Bloom header)
    | _ => set_ReceiptHash header (DeriveSha_receipts receipts) (CreateBloom (map Logs receipts))
    end in
  set_UncleHash header EmptyUncleHash.

Definition NewBlockWithTxs (header : Header) (txs : list Transaction) : Header :=
  set_TxHash header (match txs with [] => EmptyRootHash | _ => DeriveSha_txs txs end).

(** The header as [Finalize] leaves it, the state, and the header of the block
    it returns. *)
Definition Finalize (header : Header) (st : state) (txs : list Transaction)
    (receipts : list (Receipt Log)) : Header * state * Header :=
  let '(st, root) := IntermediateRoot st (IsEIP158 config (Number header)) in
  let header := set_Root header root in
  (header, st, NewBlock header txs receipts).

End Finalize.

End Manash.
