(* ===== verification/ReqCache.v ===== *)
(** * Package [blkconsensus/blkverify]: the cache of verification requests

    Models req_cache.go.  Requests are objects shared by the cache and the
    process that verifies one of them, so they live in a store and are referred
    to by their index.  The transactions, receipts and state of a block are
    opaque here: [Payload] names their types. *)

From S2P Require Import Prelude Common Crypto Types.

Class Payload := {
  Transactions : Type;
  Receipts : Type;
  StateDB : Type
}.

(** [localVerifyResult...]. *)
Inductive verifyResult :=
| localVerifyResultProcessing
| localVerifyResultSuccess
| localVerifyResultFailedButCanRecover
| localVerifyResultStateFailed.
#[export] Instance verifyResult_eq_dec : EqDecision verifyResult.
Proof. solve_decision. Defined.

Record LocalBlockVerifyConsensusReq `{Payload} := mkLocalReq {
  lb_BlkVerifyConsensusReq : HD_BlkConsensusReqMsg;
  lb_Txs : Transactions;
  lb_Receipts : Receipts;
  lb_State : StateDB
}.

Record reqData `{Payload} := mkReqData {
  rd_req : HD_BlkConsensusReqMsg;
  rd_hash : Hash;
  rd_txs : option Transactions;
  rd_receipts : option Receipts;
  rd_stateDB : option StateDB;
  rd_localReq : bool;
  rd_localVerifyResult : verifyResult
}.

Record reqCache `{Payload} := mkReqCache {
  curTurn : Z;
  leaderReqCache : gmap Address nat;
  otherReqCache : list nat;
  otherReqLimit : nat;
  store : list reqData
}.

Arguments mkLocalReq {_}.
Arguments mkReqData {_}.
Arguments mkReqCache {_}.

Module ReqCache.

Inductive error := leaderReqExistErr | cantFindErr | paramErr | turnErr.

Definition otherReqCountMax : nat := 50.

Section ReqCache.
Context `{Payload} `{GoRange} `{Crypto}.

Definition newReqData (req : HD_BlkConsensusReqMsg) : reqData :=
  mkReqData req (Types.HashNoSignsAndNonce (bcr_Header req)) None None None false
    localVerifyResultProcessing.

Definition newReqDataByLocalReq (localReq : LocalBlockVerifyConsensusReq) : reqData :=
  let req := lb_BlkVerifyConsensusReq localReq in
  mkReqData req (Types.HashNoSignsAndNonce (bcr_Header req)) (Some (lb_Txs localReq))
    (Some (lb_Receipts localReq)) (Some (lb_State localReq)) true localVerifyResultProcessing.

Definition newReqCache : reqCache := mkReqCache 0 ∅ [] otherReqCountMax [].

Definition turn_at (rc : reqCache) (id : nat) : Z :=
  match store rc !! id with Some d => bcr_ConsensusTurn (rd_req d) | None => 0 end.

Definition set_leaderReq (rc : reqCache) (leader : Address) (d : reqData) : reqCache :=
  mkReqCache (curTurn rc) (<[leader := length (store rc)]> (leaderReqCache rc)) (otherReqCache rc)
    (otherReqLimit rc) (store rc ++ [d]).

Definition AddReq (rc : reqCache) (req : HD_BlkConsensusReqMsg) : reqCache * option error :=
  if bcr_ConsensusTurn req <? curTurn rc then (rc, Some turnErr)
  else if bool_decide (Leader (bcr_Header req) = bcr_From req) then
    match leaderReqCache rc !! bcr_From req with
    | Some old =>
        if bcr_ConsensusTurn req <=? turn_at rc old then (rc, Some leaderReqExistErr)
        else (set_leaderReq rc (bcr_From req) (newReqData req), None)
    | None => (set_leaderReq rc (bcr_From req) (newReqData req), None)
    end
  else
    let kept := if bool_decide (otherReqLimit rc <= length (otherReqCache rc))%nat
                then tail (otherReqCache rc) else otherReqCache rc in
    (mkReqCache (curTurn rc) (leaderReqCache rc) (kept ++ [length (store rc)]) (otherReqLimit rc)
       (store rc ++ [newReqData req]), None).

Definition AddLocalReq (rc : reqCache) (req : LocalBlockVerifyConsensusReq) : reqCache :=
  set_leaderReq rc (Leader (bcr_Header (lb_BlkVerifyConsensusReq req))) (newReqDataByLocalReq req).

(** The keys of the requests of past turns. *)
Definition deleteList (rc : reqCache) (turn : Z) : list Address :=
  (filter (fun kv => turn_at rc kv.2 < turn) (range (leaderReqCache rc))).*1.

Definition SetCurTurn (rc : reqCache) (consensusTurn : Z) : reqCache :=
  if consensusTurn <=? curTurn rc then rc
  else
    mkReqCache consensusTurn
      (foldl (fun m k => delete k m) (leaderReqCache rc) (deleteList rc consensusTurn))
      (filter (fun id => consensusTurn <= turn_at rc id) (otherReqCache rc))
      (otherReqLimit rc) (store rc).

Definition GetLeaderReq (rc : reqCache) (leader : Address) (consensusTurn : Z) : res error nat :=
  if bool_decide (leader = 0%N) then Err paramErr
  else
    match leaderReqCache rc !! leader with
    | None => Err cantFindErr
    | Some id => if negb (turn_at rc id =? consensusTurn) then Err turnErr else Ok id
    end.

Definition GetAllReq (rc : reqCache) : list nat :=
  range_values (leaderReqCache rc) ++ otherReqCache rc.

Definition GetLeaderReqByHash (rc : reqCache) (hash : Hash) : res error nat :=
  if bool_decide (hash = 0%N) then Err paramErr
  else
    match list_find (fun id => rd_hash <$> store rc !! id = Some hash) (GetAllReq rc) with
    | Some (_, id) => Ok id
    | None => Err cantFindErr
    end.

(** ** One request per leader and turn *)

(** The entry of a leader without local requests: a request it sent itself, of
    a turn not in the past. *)
Definition entry_ok (rc : reqCache) (leader : Address) : Prop :=
  forall id, leaderReqCache rc !! leader = Some id ->
    curTurn rc <= turn_at rc id /\
    exists d, store rc !! id = Some d /\ Leader (bcr_Header (rd_req d)) = leader /\
              rd_localReq d = false.

(** Request [id] of [leader] was the entry for its turn, and no other request
    can take that place: it is still the entry, or its turn has passed. *)
Definition settled (rc : reqCache) (leader : Address) (id : nat) : Prop :=
  turn_at rc id < curTurn rc \/
  exists id', leaderReqCache rc !! leader = Some id' /\ (id' = id \/ turn_at rc id < turn_at rc id').

(** The operations that change the cache. *)
Inductive op :=
| OpAdd (req : HD_BlkConsensusReqMsg)
| OpAddLocal (req : LocalBlockVerifyConsensusReq)
| OpTurn (turn : Z).

Definition run_op (rc : reqCache) (o : op) : reqCache :=
  match o with
  | OpAdd req => (AddReq rc req).1
  | OpAddLocal req => AddLocalReq rc req
  | OpTurn turn => SetCurTurn rc turn
  end.

Definition not_local (leader : Address) (o : op) : Prop :=
  match o with
  | OpAddLocal req => Leader (bcr_Header (lb_BlkVerifyConsensusReq req)) <> leader
  | _ => True
  end.

Lemma turn_at_app rc rc' l id :
  store rc' = store rc ++ l -> is_Some (store rc !! id) -> turn_at rc' id = turn_at rc id.
Proof. intros Hs [d Hd]. unfold turn_at. by rewrite Hs, (lookup_app_l_Some _ _ _ _ Hd), Hd. Qed.

Lemma deleteList_elem rc turn a :
  a ∈ deleteList rc turn <-> exists id, leaderReqCache rc !! a = Some id /\ turn_at rc id < turn.
Proof.
  unfold deleteList. rewrite list_elem_of_fmap. split.
  - intros ([k id] & -> & [Ht Hin]%list_elem_of_filter). rewrite range_perm in Hin.
    apply elem_of_map_to_list in Hin. eauto.
  - intros (id & Hl & Ht). exists (a, id). split; [done|]. apply list_elem_of_filter.
    split; [done|]. rewrite range_perm. by apply elem_of_map_to_list.
Qed.

Lemma delete_keys_lookup (l : list Address) (m : gmap Address nat) a :
  foldl (fun m k => delete k m) m l !! a = if bool_decide (a ∈ l) then None else m !! a.
Proof.
  revert m. induction l as [|k l IH]; intros m; [done|]. cbn [foldl]. rewrite IH.
  destruct (decide (a = k)) as [->|Hne].
  - rewrite lookup_delete_eq, (bool_decide_eq_true_2 (k ∈ k :: l)) by (apply elem_of_cons; by left).
    by case_match.
  - rewrite lookup_delete_ne by done. assert (a ∈ k :: l <-> a ∈ l) as Hiff
      by (rewrite elem_of_cons; tauto). by rewrite (bool_decide_ext _ _ Hiff).
Qed.

Lemma SetCurTurn_lookup rc turn a :
  curTurn rc < turn ->
  leaderReqCache (SetCurTurn rc turn) !! a =
  match leaderReqCache rc !! a with
  | Some id => if turn_at rc id <? turn then None else Some id
  | None => None
  end.
Proof.
  intros Ht. unfold SetCurTurn. rewrite (proj2 (Z.leb_gt _ _)) by lia. simpl.
  rewrite delete_keys_lookup. case_bool_decide as Hin; rewrite deleteList_elem in Hin.
  - destruct Hin as (id & -> & Hlt). by rewrite (proj2 (Z.ltb_lt _ _)).
  - destruct (leaderReqCache rc !! a) as [id|] eqn:El; [|done].
    destruct (Z.ltb_spec (turn_at rc id) turn); [|done]. destruct Hin. eauto.
Qed.

(** What every operation does to the entry of a leader and to the store. *)
Lemma run_op_store rc o : exists l, store (run_op rc o) = store rc ++ l.
Proof.
  destruct o as [req|req|turn]; simpl.
  - unfold AddReq. repeat case_match; simpl; eauto using app_nil_r; exists []; by rewrite app_nil_r.
  - simpl. eauto.
  - unfold SetCurTurn. case_match; exists []; by rewrite app_nil_r.
Qed.

Lemma run_op_turn_at rc o id : is_Some (store rc !! id) -> turn_at (run_op rc o) id = turn_at rc id.
Proof. intros Hid. destruct (run_op_store rc o) as [l Hl]. by eapply turn_at_app. Qed.

Lemma run_op_curTurn rc o : curTurn rc <= curTurn (run_op rc o).
Proof.
  destruct o as [req|req|turn]; simpl; [|simpl; lia|].
  - unfold AddReq. repeat case_match; simpl; lia.
  - unfold SetCurTurn. destruct (Z.leb_spec turn (curTurn rc)); simpl; lia.
Qed.

(** The entry after an operation: as before, a newer request of the leader, or
    removed because its turn has passed. *)
Lemma run_op_entry rc o leader :
  not_local leader o ->
  leaderReqCache (run_op rc o) !! leader = leaderReqCache rc !! leader \/
  (exists req, o = OpAdd req /\ Leader (bcr_Header req) = leader /\
     curTurn rc <= bcr_ConsensusTurn req /\
     leaderReqCache (run_op rc o) !! leader = Some (length (store rc)) /\
     store (run_op rc o) = store rc ++ [newReqData req] /\
     curTurn (run_op rc o) = curTurn rc /\
     forall old, leaderReqCache rc !! leader = Some old -> turn_at rc old < bcr_ConsensusTurn req) \/
  (exists id, leaderReqCache rc !! leader = Some id /\ turn_at rc id < curTurn (run_op rc o) /\
     leaderReqCache (run_op rc o) !! leader = None).
Proof.
  intros Hnl. destruct o as [req|req|turn].
  - simpl. unfold AddReq. destruct (Z.ltb_spec (bcr_ConsensusTurn req) (curTurn rc)); [by left|].
    case_bool_decide as Hf; [|by left].
    destruct (decide (leader = bcr_From req)) as [->|Hne].
    + destruct (leaderReqCache rc !! bcr_From req) as [old|] eqn:El.
      * destruct (Z.leb_spec (bcr_ConsensusTurn req) (turn_at rc old)); [by left|].
        right. left. exists req. simpl. rewrite lookup_insert_eq.
        split_and!; try done. intros old' [= <-]. lia.
      * right. left. exists req. simpl. rewrite lookup_insert_eq. by split_and!.
    + left. destruct (leaderReqCache rc !! bcr_From req) as [old|];
        [destruct (_ <=? _)|]; simpl; try done; by rewrite lookup_insert_ne.
  - simpl in *. left. by rewrite lookup_insert_ne.
  - cbn [run_op]. destruct (Z.leb_spec turn (curTurn rc)) as [Hle|Hlt].
    { left. unfold SetCurTurn. by rewrite (proj2 (Z.leb_le _ _)). }
    rewrite SetCurTurn_lookup by done. destruct (leaderReqCache rc !! leader) as [id|] eqn:El; [|by left].
    destruct (Z.ltb_spec (turn_at rc id) turn); [|by left]. right. right. exists id.
    split_and!; try done. unfold SetCurTurn. by rewrite (proj2 (Z.leb_gt _ _)).
Qed.

Lemma run_op_entry_ok rc o leader :
  not_local leader o -> entry_ok rc leader -> entry_ok (run_op rc o) leader.
Proof.
  intros Hnl Hok id Hid.
  destruct (run_op_entry rc o leader Hnl) as [E|[(req & -> & Hl & Ht & E & Hst & Hc & _)|(? & _ & _ & E)]].
  - rewrite E in Hid. destruct (Hok id Hid) as (Hle & d & Hd & ?).
    rewrite run_op_turn_at by done. split.
    + destruct o as [req|req|turn]; [|done|].
      * replace (curTurn (run_op rc (OpAdd req))) with (curTurn rc); [done|].
        simpl. unfold AddReq. by repeat case_match.
      * cbn [run_op] in *. destruct (Z.leb_spec turn (curTurn rc)) as [|Hlt].
        { unfold SetCurTurn. by rewrite (proj2 (Z.leb_le _ _)). }
        rewrite SetCurTurn_lookup, Hid in E by done.
        destruct (Z.ltb_spec (turn_at rc id) turn); [done|].
        unfold SetCurTurn. by rewrite (proj2 (Z.leb_gt _ _)).
    + exists d. split; [|done]. destruct (run_op_store rc o) as [l ->]. by apply lookup_app_l_Some.
  - rewrite E in Hid. injection Hid as <-. unfold turn_at. rewrite Hst, Hc.
    rewrite list_lookup_middle by done. split; [done|]. by exists (newReqData req).
  - by rewrite E in Hid.
Qed.

Lemma run_op_settled rc o leader id :
  not_local leader o -> entry_ok rc leader -> is_Some (store rc !! id) -> settled rc leader id ->
  settled (run_op rc o) leader id.
Proof.
  intros Hnl Hok Hid [Hp|(id' & Hl & Hr)]; unfold settled; rewrite (run_op_turn_at _ _ id) by done.
  { left. pose proof (run_op_curTurn rc o). lia. }
  destruct (Hok id' Hl) as (_ & d & Hd & _).
  assert (Hle : turn_at rc id <= turn_at rc id') by (destruct Hr as [->|]; lia).
  destruct (run_op_entry rc o leader Hnl) as [E|[(req & -> & _ & _ & E & Hst & _ & Hnew)|(id2 & E2 & Ht & _)]].
  - right. exists id'. rewrite E, (run_op_turn_at _ _ id') by done. done.
  - right. exists (length (store rc)). split; [done|]. right. specialize (Hnew id' Hl).
    unfold turn_at at 2. rewrite Hst, list_lookup_middle by done. simpl. lia.
  - left. rewrite Hl in E2. injection E2 as <-. lia.
Qed.

Lemma GetLeaderReq_settled rc leader turn id :
  GetLeaderReq rc leader turn = Ok id -> turn_at rc id = turn /\ settled rc leader id.
Proof.
  unfold GetLeaderReq. case_bool_decide; [done|].
  destruct (leaderReqCache rc !! leader) as [id0|] eqn:El; [|done].
  destruct (Z.eqb_spec (turn_at rc id0) turn); [|done]. intros [= <-]. split; [done|].
  right. eauto.
Qed.

Lemma settled_unique rc leader id id2 :
  entry_ok rc leader -> settled rc leader id ->
  GetLeaderReq rc leader (turn_at rc id) = Ok id2 -> id2 = id.
Proof.
  intros Hok Hs. unfold GetLeaderReq. case_bool_decide; [done|].
  destruct (leaderReqCache rc !! leader) as [id0|] eqn:El; [|done].
  destruct (Z.eqb_spec (turn_at rc id0) (turn_at rc id)) as [Ht|]; [|done]. intros [= <-].
  destruct (Hok id0 El) as [Hc _]. destruct Hs as [?|(id' & Hl & [->|?])]; [lia|congruence|].
  rewrite El in Hl. injection Hl as <-. lia.
Qed.

(** For each leader and turn a validator considers one request only: once
    the cache has given out a request of a leader for a turn, it gives out that
    same request or none for that turn, whatever requests arrive and however
    the turns move afterwards, as long as no request is injected locally in the
    leader's name (which only the leader's own node does). *)
Theorem leader_request_unique ops1 ops2 leader turn id1 id2 :
  Forall (not_local leader) (ops1 ++ ops2) ->
  let rc := foldl run_op newReqCache ops1 in
  GetLeaderReq rc leader turn = Ok id1 ->
  GetLeaderReq (foldl run_op rc ops2) leader turn = Ok id2 -> id1 = id2.
Proof.
  cbn zeta. intros [Hn1 Hn2]%Forall_app.
  assert (Hok : entry_ok (foldl run_op newReqCache ops1) leader).
  { clear Hn2. induction ops1 as [|o ops IH] using rev_ind; [intros id Hid; simpl in Hid; by rewrite lookup_empty in Hid|].
    apply Forall_app in Hn1 as [Hn1 Ho]. inversion Ho; subst. rewrite foldl_app. simpl.
    by apply run_op_entry_ok; [|apply IH]. }
  generalize dependent (foldl run_op newReqCache ops1). intros rc Hok Hg1 Hg2.
  assert (Hst : is_Some (store rc !! id1)).
  { unfold GetLeaderReq in Hg1. case_bool_decide; [done|].
    destruct (leaderReqCache rc !! leader) as [id0|] eqn:El; [|done].
    destruct (negb _); [done|]. injection Hg1 as <-. destruct (Hok id0 El) as (_ & d & Hd & _). eauto. }
  destruct (GetLeaderReq_settled _ _ _ _ Hg1) as [<- Hs]. symmetry.
  clear Hn1 Hg1. revert rc Hok Hst Hs Hg2. induction ops2 as [|o ops IH]; intros rc Hok Hst Hs Hg2.
  { by eapply settled_unique. }
  inversion Hn2; subst. cbn [foldl] in Hg2. destruct (run_op_store rc o) as [l Hl].
  apply (IH ltac:(done) (run_op rc o)).
  - by apply run_op_entry_ok.
  - rewrite Hl. destruct Hst as [d Hd]. exists d. by apply lookup_app_l_Some.
  - by apply run_op_settled.
  - by rewrite run_op_turn_at.
Qed.

End ReqCache.

Section Witnesses.
#[local] Instance toy : Crypto := Signature.toy_crypto.
#[local] Existing Instance sorted_range.
#[local] Instance unit_payload : Payload := {| Transactions := unit; Receipts := unit; StateDB := unit |}.

(** Two requests of leader 3 for turn 1, and one for turn 2 that replaces the first. *)
Definition request (turn gas : Z) : HD_BlkConsensusReqMsg :=
  mkBlkConsensusReq 3%N
    (mkHeader 1 2 3 4 5 6 7 8 9 21 11 gas 13 [] (mkNetTopology 1 []) [] [] 0 0 []) turn [].

Lemma leader_request_unique_witness :
  (AddReq (foldl run_op newReqCache [OpAdd (request 1 0)]) (request 1 7)).2 = Some leaderReqExistErr /\
  0%nat = 0%nat.
Proof.
  split; [vm_compute; reflexivity|].
  refine (leader_request_unique [OpAdd (request 1 0)] [OpAdd (request 1 7); OpTurn 1] 3%N 1 0 0 _ _ _).
  - repeat constructor.
  - vm_compute. reflexivity.
  - vm_compute. reflexivity.
Defined.

End Witnesses.
End ReqCache.
