(* ===== verification/Work.v ===== *)
(** * Package [matrixwork]: packing and executing the transactions of a block

    Models [NewWork], [commitTransactions], [commitTransaction],
    [ProcessTransactions], [ProcessBroadcastTransactions] and
    [ConsensusTransactions] of matrixwork/work.go, and the execution of a block
    by a validator ([execute]: the lines that blkverify's [VerifyTxs] and
    blockgenor's [runTxs] share).

    The leader packs transactions from the pool by price and nonce; a validator
    executes the list it is given.  The main theorem is that the two agree: the
    validator reproduces the state root, the gas used and the receipts.

    Parameters: the state at the parent block, the pending transactions of the
    pool.  The events about pending logs and states are not modelled. *)

From S2P Require Import Prelude Common Rlp Crypto Types TxHeap StateTransition Manash ReqCache.

Record Work `{EVM} := mkWork {
  w_State : state;
  tcount : Z;
  gasPool : option Z;
  w_header : Header;
  w_txs : list Transaction;
  w_Receipts : list (Receipt Log)
}.
Arguments mkWork {_}.

#[export] Instance ledger `{EVM} : Payload :=
  {| Transactions := list Transaction; Receipts := list (Receipt Log); StateDB := state |}.

Module Work.

Section Work.
Context `{EVM} `{GoRange} (config : ChainConfig).

(** [isProtectedV]. *)
Definition Protected (tx : Transaction) : bool :=
  if Z.abs (tx_V tx) <? 256
  then negb (Uint64 (tx_V tx) =? 27) && negb (Uint64 (tx_V tx) =? 28) else true.

(** [StateAt] gives the state at the root of the block with a hash. *)
Definition NewWork (StateAt : Hash -> option state) (header : Header) : option Work :=
  match StateAt (ParentHash header) with
  | None => None
  | Some st => Some (mkWork st 0 None header [] [])
  end.

Definition set_w_State (w : Work) (st : state) : Work :=
  mkWork st (tcount w) (gasPool w) (w_header w) (w_txs w) (w_Receipts w).
Definition set_gasPool (w : Work) (gp : option Z) : Work :=
  mkWork (w_State w) (tcount w) gp (w_header w) (w_txs w) (w_Receipts w).
Definition count_tx (w : Work) : Work :=
  mkWork (w_State w) (tcount w + 1) (gasPool w) (w_header w) (w_txs w) (w_Receipts w).

(** [commitTransaction] with the coinbase [common.Address{}] of all callers, and
    with the work's gas pool or with nil. *)
Definition commitTransaction (tx : Transaction) (pooled : bool) (w : Work)
    : Work * option apply_error :=
  let gp := if pooled then gasPool w else None in
  let '(gp', r) := StateTransition.ApplyTransaction config 0%N gp (w_State w) (w_header w) tx
                     (GasUsed (w_header w)) in
  let w := if pooled then set_gasPool w gp' else w in
  match r with
  | Err e => (w, Some e) (* the state is reverted to the snapshot *)
  | Ok (st, usedGas, receipt) =>
      (mkWork st (tcount w) (gasPool w) (set_GasUsed (w_header w) usedGas) (w_txs w ++ [tx])
         (w_Receipts w ++ [receipt]), None)
  end.

(** [if env.gasPool == nil]. *)
Definition init_gasPool (w : Work) : Work :=
  match gasPool w with
  | Some _ => w
  | None => set_gasPool w (StateTransition.AddGas 0 (GasLimit (w_header w)))
  end.

Definition prepare_tx (tx : Transaction) (w : Work) : Work :=
  set_w_State w (StateTransition.Prepare (w_State w) (TxHashOf tx) (tcount w)).

(** The work, the transaction set and the packed numbers and transactions after
    the loop, or [None] when the fuel did not suffice. *)
Fixpoint commit_loop (fuel : nat) (txs : TransactionsByPriceAndNonce) (w : Work)
    (listN : list Z) (retTxs : list Transaction) : option (Work * list Z * list Transaction) :=
  if default 0 (gasPool w) <? StateTransition.TxGas then Some (w, listN, retTxs)
  else
    match TxSet.Peek txs with
    | None => Some (w, listN, retTxs)
    | Some tx =>
        match fuel with
        | O => None
        | S f =>
            match tx_N tx with
            | None => commit_loop f (TxSet.Pop txs) w listN retTxs
            | Some n =>
                if Protected tx && negb (IsEIP155 config (Number (w_header w)))
                then commit_loop f (TxSet.Pop txs) w listN retTxs
                else
                  match commitTransaction tx true (prepare_tx tx w) with
                  | (w, Some ErrGasLimitReached) => commit_loop f (TxSet.Pop txs) w listN retTxs
                  | (w, Some ErrNonceTooLow) => commit_loop f (TxSet.Shift txs) w listN retTxs
                  | (w, Some ErrNonceTooHigh) => commit_loop f (TxSet.Pop txs) w listN retTxs
                  | (w, None) =>
                      commit_loop f (TxSet.Shift txs) (count_tx w) (listN ++ [n]) (retTxs ++ [tx])
                  | (w, Some _) => commit_loop f (TxSet.Shift txs) w listN retTxs
                  end
            end
        end
    end.

Definition commitTransactions (txs : TransactionsByPriceAndNonce) (w : Work)
    : option (Work * list Z * list Transaction) :=
  commit_loop (TxSet.remaining txs) txs (init_gasPool w) [] [].

(** [pending] is what the pool returns, [None] on an error. *)
Definition ProcessTransactions (pending : option (gmap Address (list Transaction))) (w : Work)
    : option (Work * list Z * list Transaction) :=
  match pending with
  | None => Some (w, [], [])
  | Some pending =>
      match TxSet.NewTransactionsByPriceAndNonce pending with
      | Err _ => None
      | Ok txs => commitTransactions txs w
      end
  end.

(** Errors of single transactions are dropped; a nil gas pool is not. *)
Definition ProcessBroadcastTransactions (txs : list Transaction) (w : Work) : res apply_error Work :=
  foldM (fun tx w => match commitTransaction tx false w with
                     | (_, Some RuntimePanic) => Err RuntimePanic
                     | (w, _) => Ok w
                     end) txs w.

Fixpoint consensus_loop (txs : list Transaction) (w : Work) : res apply_error Work :=
  match txs with
  | [] => Ok w
  | tx :: txs' =>
      if default 0 (gasPool w) <? StateTransition.TxGas then Err ErrOutOfGas
      else
        match commitTransaction tx true (prepare_tx tx w) with
        | (w, None) => consensus_loop txs' (count_tx w)
        | (_, Some e) => Err e
        end
  end.

Definition ConsensusTransactions (txs : list Transaction) (w : Work) : res apply_error Work :=
  consensus_loop txs (init_gasPool w).

(** ** The packing loop *)

Definition pending_txs_ok (pending : gmap Address (list Transaction)) : Prop :=
  TxSet.pending_ok pending /\
  map_Forall (fun _ l => Forall StateTransition.tx_ok l) pending.

(** Induction over the rounds of the loop: a round drops the head transaction or
    all of its account, with or without having tried it, or it packs it.  The
    fuel of [commitTransactions] is enough for all rounds. *)
Lemma commit_loop_ind (P : TransactionsByPriceAndNonce -> Work -> list Transaction -> Prop) pending :
  pending_txs_ok pending ->
  (forall t w txs tx t' w', TxSet.set_ok pending t -> TxSet.Peek t = Some tx ->
     P t w txs -> t' = TxSet.Pop t \/ t' = TxSet.Shift t ->
     w' = w \/ (exists e, commitTransaction tx true (prepare_tx tx w) = (w', Some e)) ->
     P t' w' txs) ->
  (forall t w txs tx w', TxSet.set_ok pending t -> TxSet.Peek t = Some tx ->
     StateTransition.TxGas <= default 0 (gasPool w) -> P t w txs ->
     commitTransaction tx true (prepare_tx tx w) = (w', None) ->
     P (TxSet.Shift t) (count_tx w') (txs ++ [tx])) ->
  forall fuel t w ns txs, (TxSet.remaining t <= fuel)%nat -> TxSet.set_ok pending t -> P t w txs ->
  exists t' w' ns' txs', commit_loop fuel t w ns txs = Some (w', ns', txs') /\ P t' w' txs'.
Proof.
  intros [Hpend _] Hdrop Hpack fuel. induction fuel as [|fuel IH]; intros t w ns txs Hf Hset HP;
    cbn [commit_loop]; (destruct (default 0 (gasPool w) <? StateTransition.TxGas) eqn:Eg; [by eauto 10|]);
    (destruct (TxSet.Peek t) as [tx|] eqn:Ep; [|by eauto 10]); bool_to_prop;
    assert (heads t <> []) as Hne by (by intros E; unfold TxSet.Peek in Ep; rewrite E in Ep).
  { exfalso. unfold TxSet.remaining in Hf. destruct (heads t); [done|simpl in Hf; lia]. }
  destruct (@TxSet.Pop_ok transaction_view pending t Hset Hne) as [Hpop Hpopr].
  destruct (@TxSet.Shift_ok transaction_view pending t Hpend Hset Hne) as [Hshift Hshiftr].
  assert (P (TxSet.Pop t) w txs) as Hdropped by (eapply (Hdrop t w txs tx); eauto).
  destruct (tx_N tx) as [n|]; [|apply IH; [lia|done|done]].
  destruct (Protected tx && _); [apply IH; [lia|done|done]|].
  destruct (commitTransaction tx true (prepare_tx tx w)) as [w' [e|]] eqn:Ec.
  - assert (forall t', t' = TxSet.Pop t \/ t' = TxSet.Shift t -> P t' w' txs) as Hd by eauto 10.
    destruct e; (apply IH; [lia|done|apply Hd; auto]).
  - apply IH; [lia|done|by eapply Hpack].
Qed.

Lemma Peek_pending pending t tx :
  TxSet.set_ok pending t -> TxSet.Peek t = Some tx ->
  exists l, pending !! Sender tx = Some l /\ tx ∈ l.
Proof.
  intros (_ & _ & Hall) Hp. unfold TxSet.Peek in Hp. destruct (heads t) as [|h hs]; [done|].
  injection Hp as ->. apply Forall_cons in Hall as [[l0 Hl] _].
  destruct (pending !! Sender tx) as [l|]; [|by destruct l0].
  exists l. split; [done|]. simpl in Hl. rewrite Hl. set_solver.
Qed.

Lemma Peek_tx_ok pending t tx :
  pending_txs_ok pending -> TxSet.set_ok pending t -> TxSet.Peek t = Some tx ->
  StateTransition.tx_ok tx.
Proof.
  intros [_ Hok] Hset Hp. destruct (Peek_pending _ _ _ Hset Hp) as (l & Hl & Hin).
  specialize (Hok _ _ Hl). by rewrite Forall_forall in Hok; apply Hok.
Qed.

(** ** Nonce order *)

Definition of_sender (a : Address) (txs : list Transaction) : list Transaction :=
  filter (fun tx => Sender tx = a) txs.

(** What was packed of an account, followed by what is left of it, is part of
    its list, in the order of the list. *)
Definition in_order (pending : gmap Address (list Transaction)) (t : TransactionsByPriceAndNonce)
    (txs : list Transaction) : Prop :=
  (forall a, of_sender a txs `sublist_of` default [] (pending !! a)) /\
  Forall (fun h => (of_sender (Sender h) txs ++ h :: TxSet.rest_of t (Sender h))
                   `sublist_of` default [] (pending !! Sender h)) (heads t).

Lemma in_order_Pop pending t txs :
  TxSet.set_ok pending t -> in_order pending t txs -> in_order pending (TxSet.Pop t) txs.
Proof.
  intros (Hh & _ & _) [Ha Hall]. split; [done|]. destruct t as [m [|h hs]]; [done|].
  cbn [heads TxSet.Pop] in *. unfold TxSet.Pop; cbn.
  rewrite (proj2 (Heap.Pop_spec _ h hs Hh)). by apply Forall_cons in Hall as [_ Hall].
Qed.

(** Shifting to the next transaction of the account, the head being packed or
    dropped. *)
Lemma in_order_Shift pending t txs txs' tx :
  pending_txs_ok pending -> TxSet.set_ok pending t -> TxSet.Peek t = Some tx ->
  in_order pending t txs -> txs' = txs \/ txs' = txs ++ [tx] ->
  in_order pending (TxSet.Shift t) txs'.
Proof.
  intros [Hpend _] Hset Hp [Ha Hall] Htxs. destruct t as [m [|h hs]]; [done|]. injection Hp as ->.
  cbn [heads] in Hall. apply Forall_cons in Hall as [Htx Hall].
  assert (forall a, a <> Sender tx -> of_sender a txs' = of_sender a txs) as Hother.
  { intros a Hne. destruct Htxs as [->| ->]; [done|]. unfold of_sender.
    rewrite filter_app, filter_cons_False, filter_nil, app_nil_r by done. done. }
  assert (forall l, (of_sender (Sender tx) txs' ++ l)
                    `sublist_of` (of_sender (Sender tx) txs ++ tx :: l)) as Hsub.
  { intros l. destruct Htxs as [->| ->].
    - apply sublist_app; [done|by constructor].
    - unfold of_sender. rewrite filter_app, filter_cons_True, filter_nil, <- app_assoc by done. done. }
  split.
  - intros a. destruct (decide (a = Sender tx)) as [->|Hne]; [|by rewrite (Hother a)].
    rewrite <- Htx. etrans; [|apply (Hsub (TxSet.rest_of (mkTxSet m (tx :: hs)) (Sender tx)))].
    by apply sublist_inserts_r.
  - destruct Hset as (Hh & Hnd & Hsuf). cbn [heads] in *.
    apply NoDup_cons in Hnd as [Hni Hnd]. apply Forall_cons in Hsuf as [Hsuf _].
    assert (forall t', (forall a, a <> Sender tx ->
        TxSet.rest_of t' a = TxSet.rest_of (mkTxSet m (tx :: hs)) a) ->
      Forall (fun h => (of_sender (Sender h) txs' ++ h :: TxSet.rest_of t' (Sender h))
                       `sublist_of` default [] (pending !! Sender h)) hs) as Hrest.
    { intros t' Ht'. apply Forall_forall. intros x Hx. rewrite Forall_forall in Hall.
      specialize (Hall x Hx). assert (Sender x <> Sender tx) as Hne.
      { intros E. apply Hni. rewrite <- E. by apply list_elem_of_fmap_2. }
      by rewrite (Hother _ Hne), (Ht' _ Hne). }
    unfold TxSet.Shift; cbn [heads ts_txs].
    destruct (m !! Sender tx) as [[|tx' rest]|] eqn:Em; cbn [heads].
    1, 3: rewrite (proj2 (Heap.Pop_spec _ tx hs Hh)); by apply Hrest.
    unfold TxSet.rest_of in Hsuf; cbn [ts_txs] in Hsuf; rewrite Em in Hsuf.
    assert (Sender tx' = Sender tx) as Hs.
    { apply (@TxSet.suffix_sender transaction_view pending) in Hsuf; [|done].
      by apply Forall_cons in Hsuf as [_ [Hs _]%Forall_cons]. }
    rewrite (proj2 (Heap.Fix_spec _ (tx :: hs) tx' ltac:(done) Hh)).
    change (<[0%nat := tx']> (tx :: hs)) with (tx' :: hs). constructor.
    + rewrite Hs, <- Htx. unfold TxSet.rest_of; cbn [ts_txs]. rewrite lookup_insert_eq, Em. apply Hsub.
    + apply Hrest. intros a Hne. unfold TxSet.rest_of; cbn [ts_txs]. by rewrite lookup_insert_ne.
Qed.

End Work.

(** ** Gas and agreement *)

(** Two states that differ at most in the transaction that is being prepared
    for. *)
Definition same_state `{EVM} (s s' : state) : Prop :=
  forall h i, StateTransition.Prepare s h i = StateTransition.Prepare s' h i.

(** Documented behaviour of [StateDB.Prepare]: it sets the current transaction
    hash and index, which the next call overwrites and roots do not contain. *)
Class StateLaws `{EVM} : Prop := {
  Prepare_same s h i : same_state (StateTransition.Prepare s h i) s;
  IntermediateRoot_same s s' b : same_state s s' ->
    (IntermediateRoot s b).2 = (IntermediateRoot s' b).2 /\
    same_state (IntermediateRoot s b).1 (IntermediateRoot s' b).1
}.

Section Agreement.
Context `{EVM} `{!StateTransition.EVMLaws} `{!StateLaws} `{GoRange} (config : ChainConfig).
Abbreviation commit := (commitTransaction config).

#[export] Instance same_state_equivalence : Equivalence same_state.
Proof.
  split; [done|by intros s s' E h i; rewrite E|].
  intros s1 s2 s3 E1 E2 h i. by rewrite E1, E2.
Qed.

(** The gas used and the gas left never exceed the limit of the block, and only
    the gas used of the header changes. *)
Definition gas_ok (h0 : Header) (w : Work) : Prop :=
  exists gp, gasPool w = Some gp /\ 0 <= gp /\ 0 <= GasUsed (w_header w) /\
    GasUsed (w_header w) + gp <= GasLimit h0 /\
    w_header w = set_GasUsed h0 (GasUsed (w_header w)).

Lemma commit_gas h0 w tx w' r :
  0 <= GasLimit h0 <= StateTransition.MaxUint64 -> StateTransition.tx_ok tx -> gas_ok h0 w ->
  commit tx true (prepare_tx tx w) = (w', r) -> gas_ok h0 w'.
Proof.
  unfold StateTransition.MaxUint64. intros Hl Htx (gp & Hgp & Hgp0 & Hu & Hsum & Hh).
  unfold commitTransaction. cbn [gasPool prepare_tx set_w_State w_State w_header]. rewrite Hgp.
  destruct (StateTransition.ApplyTransaction config 0%N (Some gp) _ _ tx _) as [gp' [[[st u] rc]|e]] eqn:E.
  - apply StateTransition.ApplyTransaction_ok in E as (g' & gas & -> & -> & ? & ? & ? & _);
      [|done|unfold StateTransition.MaxUint64; lia].
    rewrite u64_small by (unfold in_u64; lia). intros [= <- <-]. exists g'; cbn.
    split_and!; [done|lia|lia|lia|]. by rewrite Hh.
  - apply StateTransition.ApplyTransaction_pool in E as (g' & -> & ?);
      [|done|unfold StateTransition.MaxUint64; lia].
    intros [= <- <-]. exists g'; cbn. split_and!; [done|lia|lia|lia|done].
Qed.

(** A leader's work [w] and a validator's work [wv] on the same list: the
    validator has executed what the leader has packed, with no less gas left. *)
Definition sim (w wv : Work) : Prop :=
  same_state (w_State w) (w_State wv) /\ tcount w = tcount wv /\ w_Receipts w = w_Receipts wv /\
  GasUsed (w_header w) = GasUsed (w_header wv) /\
  StateTransition.same_env (w_header w) (w_header wv) /\
  exists gp d, gasPool w = Some gp /\ 0 <= gp /\ 0 <= d /\ gasPool wv = Some (gp + d) /\
    gp + d <= StateTransition.MaxUint64.

Lemma commit_fails_sim tx w w' e wv :
  StateTransition.tx_ok tx -> sim w wv ->
  commit tx true (prepare_tx tx w) = (w', Some e) -> sim w' wv.
Proof.
  intros Htx (Hs & Ht & Hr & Hu & He & gp & d & Hgp & Hgp0 & Hd & Hv & Hm).
  unfold commitTransaction. cbn [gasPool prepare_tx set_w_State w_State w_header]. rewrite Hgp.
  destruct (StateTransition.ApplyTransaction config 0%N (Some gp) _ _ tx _) as [gp' [[[st u] rc]|e']] eqn:E;
    [done|].
  apply StateTransition.ApplyTransaction_pool in E as (g' & -> & ?); [|done|lia].
  intros [= <- <-]. split_and!; cbn; try done.
  - by rewrite Prepare_same.
  - exists g', (gp + d - g'). split_and!; [done|lia|lia| |lia]. rewrite Hv. f_equal. lia.
Qed.

Lemma commit_packs_sim tx w w' wv :
  StateTransition.tx_ok tx -> sim w wv -> commit tx true (prepare_tx tx w) = (w', None) ->
  exists wv', commit tx true (prepare_tx tx wv) = (wv', None) /\ sim (count_tx w') (count_tx wv').
Proof.
  intros Htx (Hs & Ht & Hr & Hu & He & gp & d & Hgp & Hgp0 & Hd & Hv & Hm).
  unfold commitTransaction. cbn [gasPool prepare_tx set_w_State w_State w_header]. rewrite Hgp, Hv.
  destruct (StateTransition.ApplyTransaction config 0%N (Some gp) _ _ tx _) as [gp' [[[st u] rc]|e']] eqn:E;
    [|done].
  apply StateTransition.ApplyTransaction_ok in E as (g' & gas & -> & -> & ? & ? & ? & Hmono);
    [|done|lia].
  specialize (Hmono d Hd Hm). rewrite (StateTransition.ApplyTransaction_env _ _ _ _ _ _ _ _ He) in Hmono.
  rewrite <- Hu, <- Ht, <- Hs, Hmono. intros [= <-]. eexists. split; [done|].
  split; [done|]. split; cbn; [by rewrite ?Ht|]. split; [by rewrite Hr|]. split; [by rewrite ?Hu|].
  split; [by destruct He as (?&?&?&?&?)|].
  exists g', d. split_and!; [done|lia|lia|done|lia].
Qed.

Lemma consensus_loop_app txs1 txs2 w :
  consensus_loop config (txs1 ++ txs2) w
  = let? w' := consensus_loop config txs1 w in consensus_loop config txs2 w'.
Proof.
  revert w. induction txs1 as [|tx txs1 IH]; intros w; [done|]. cbn [consensus_loop app].
  destruct (_ <? _); [done|]. destruct (commit tx true _) as [w' [e|]]; [done|apply IH].
Qed.

(** What the packing loop establishes, from the works [w0] of the leader and
    [wv0] of a validator. *)
Definition packed (pending : gmap Address (list Transaction)) (h0 : Header) (wv0 : Work)
    (t : TransactionsByPriceAndNonce) (w : Work) (txs : list Transaction) : Prop :=
  in_order pending t txs /\ gas_ok h0 w /\
  exists wv, consensus_loop config txs wv0 = Ok wv /\ sim w wv.

Lemma commit_loop_packed pending h0 wv0 t w :
  pending_txs_ok pending -> 0 <= GasLimit h0 <= StateTransition.MaxUint64 ->
  TxSet.set_ok pending t -> gas_ok h0 w -> sim w wv0 ->
  exists t' w' ns txs, commit_loop config (TxSet.remaining t) t w [] [] = Some (w', ns, txs) /\
    packed pending h0 wv0 t' w' txs.
Proof.
  intros Hp Hl Hset Hg Hsim.
  apply (commit_loop_ind config (packed pending h0 wv0) pending); [done| | |done|done|].
  - intros t1 w1 txs tx t2 w2 Hset1 Hpeek (Hord & Hgas & wv & Hwv & Hs) Ht2 Hw2.
    pose proof (Peek_tx_ok _ _ _ Hp Hset1 Hpeek) as Htx. split; [|split].
    + destruct Ht2 as [->| ->]; [by apply in_order_Pop|]. eapply in_order_Shift; eauto.
    + destruct Hw2 as [->|[e He]]; [done|]. by eapply commit_gas.
    + exists wv. split; [done|]. destruct Hw2 as [->|[e He]]; [done|]. by eapply commit_fails_sim.
  - intros t1 w1 txs tx w2 Hset1 Hpeek Hgas1 (Hord & Hgas & wv & Hwv & Hs) Hc.
    pose proof (Peek_tx_ok _ _ _ Hp Hset1 Hpeek) as Htx. split; [|split].
    + eapply in_order_Shift; eauto.
    + by eapply commit_gas in Hc; [|done..].
    + destruct (commit_packs_sim _ _ _ _ Htx Hs Hc) as (wv' & Hc' & Hs'). exists (count_tx wv').
      split; [|done]. rewrite consensus_loop_app, Hwv. cbn [consensus_loop]. rewrite Hc'.
      destruct Hs as (_ & _ & _ & _ & _ & gp & d & Hgp & _ & Hd & Hv & _).
      rewrite Hgp in Hgas1. rewrite Hv. cbn in *. by rewrite (proj2 (Z.ltb_ge _ _)) by lia.
  - split; [|split; [done|by exists wv0]]. split; [intros a; apply sublist_nil_l|].
    destruct Hset as (_ & _ & Hsuf). apply Forall_forall. intros h Hh.
    rewrite Forall_forall in Hsuf. destruct (Hsuf h Hh) as [l E]. cbv beta.
    etrans; [by apply (sublist_inserts_l l)|]. apply reflexive_eq. symmetry. exact E.
Qed.

End Agreement.

(** ** Blocks *)

Inductive exec_error := NewWorkErr | ExecErr.

Section Block.
Context `{Crypto} `{EVM} `{GoRange} (config : ChainConfig) (StateAt : Hash -> option state).
Context (DeriveSha_txs : list Transaction -> Hash) (DeriveSha_receipts : list (Receipt Log) -> Hash).

(** The execution of a given list: the header that is left in place, the
    receipts and the state.  The block that [Finalize] returns is not used. *)
Definition execute (header : Header) (txs : list Transaction)
    : res exec_error (Header * list (Receipt Log) * state) :=
  match NewWork StateAt header with
  | None => Err NewWorkErr
  | Some w =>
      match ConsensusTransactions config txs w with
      | Err _ => Err ExecErr
      | Ok w =>
          let '(header, st, _) := Manash.Finalize config DeriveSha_txs DeriveSha_receipts
                                    (w_header w) (w_State w) txs (w_Receipts w) in
          Ok (header, w_Receipts w, st)
      end
  end.

(** The leader's counterpart: the header of the block that [Finalize] returns,
    the numbers and the transactions packed, the receipts and the state. *)
Definition pack (header : Header) (pending : option (gmap Address (list Transaction)))
    : res exec_error (Header * list Z * list Transaction * list (Receipt Log) * state) :=
  match NewWork StateAt header with
  | None => Err NewWorkErr
  | Some w =>
      match ProcessTransactions config pending w with
      | None => Err ExecErr
      | Some (w, txsCode, txs) =>
          let '(_, st, block) := Manash.Finalize config DeriveSha_txs DeriveSha_receipts
                                   (w_header w) (w_State w) txs (w_Receipts w) in
          Ok (block, txsCode, txs, w_Receipts w, st)
      end
  end.

(** Transactions change the gas used of the header, nothing else. *)
Lemma commitTransaction_header tx pooled w w' e :
  commitTransaction config tx pooled w = (w', e) ->
  w_header w' = set_GasUsed (w_header w) (GasUsed (w_header w')).
Proof.
  unfold commitTransaction.
  destruct (StateTransition.ApplyTransaction _ _ _ _ _ _ _) as [gp' [[[st u] rc]|e']], pooled;
    intros [= <- <-]; cbn; by destruct (w_header w).
Qed.

Lemma ProcessBroadcastTransactions_header txs w w' :
  ProcessBroadcastTransactions config txs w = Ok w' ->
  w_header w' = set_GasUsed (w_header w) (GasUsed (w_header w')).
Proof.
  unfold ProcessBroadcastTransactions. revert w. induction txs as [|tx txs IH]; intros w; cbn [foldM].
  { intros [= <-]. by destruct (w_header w). }
  destruct (commitTransaction config tx false w) as [w1 e] eqn:E.
  apply commitTransaction_header in E. destruct e as [[]|]; cbn; try done; intros Hw';
    (etrans; [exact (IH _ Hw')|by rewrite E]).
Qed.

(** Header changes that execution does not notice. *)
Definition with_roots (x y : Hash) (b : N) (h : Header) : Header :=
  set_ReceiptHash (set_TxHash h x) y b.
Definition rehead (x y : Hash) (b : N) (w : Work) : Work :=
  mkWork (w_State w) (tcount w) (gasPool w) (with_roots x y b (w_header w)) (w_txs w) (w_Receipts w).

Lemma commit_rehead x y b tx pooled w :
  commitTransaction config tx pooled (rehead x y b w)
  = (let '(w', r) := commitTransaction config tx pooled w in (rehead x y b w', r)).
Proof.
  unfold commitTransaction. cbn [gasPool w_State w_header rehead].
  rewrite (StateTransition.ApplyTransaction_env _ _ _ _ (with_roots x y b (w_header w)) (w_header w))
    by (by split_and!).
  cbn [with_roots set_ReceiptHash set_TxHash GasUsed].
  destruct (StateTransition.ApplyTransaction _ _ _ _ _ _ _) as [gp' [[[st u] rc]|e]];
    by destruct pooled.
Qed.

Lemma consensus_rehead x y b txs w :
  consensus_loop config txs (rehead x y b w)
  = (let? w' := consensus_loop config txs w in Ok (rehead x y b w')).
Proof.
  revert w. induction txs as [|tx txs IH]; intros w; [done|]. cbn [consensus_loop gasPool rehead].
  destruct (_ <? _); [done|].
  change (prepare_tx tx (rehead x y b w)) with (rehead x y b (prepare_tx tx w)). rewrite commit_rehead.
  destruct (commitTransaction config tx true _) as [w' [e|]]; [done|].
  change (count_tx (rehead x y b w')) with (rehead x y b (count_tx w')). apply IH.
Qed.

(** The execution by which validators verify a block does not look at its
    transaction root, receipt root and log bloom: whatever these three fields
    say, the verdict is the same, and the header that is hashed and compared
    afterwards carries them unchanged.  (The comment above the execution in
    [VerifyTxs] says that it verifies them.) *)
Theorem execute_ignores_roots header txs x y b :
  execute (with_roots x y b header) txs
  = match execute header txs with
    | Err e => Err e
    | Ok (header', receipts, st) => Ok (with_roots x y b header', receipts, st)
    end.
Proof.
  unfold execute, NewWork. change (ParentHash (with_roots x y b header)) with (ParentHash header).
  destruct (StateAt (ParentHash header)) as [st|]; [|done]. unfold ConsensusTransactions.
  assert (init_gasPool (mkWork st 0 None (with_roots x y b header) [] [])
          = rehead x y b (init_gasPool (mkWork st 0 None header [] []))) as -> by done.
  rewrite consensus_rehead. destruct (consensus_loop config txs _) as [w|]; [|done].
  unfold Manash.Finalize. cbn [w_header w_State w_Receipts rehead with_roots set_ReceiptHash set_TxHash Number].
  by destruct (IntermediateRoot _ _).
Qed.

Context `{!StateTransition.EVMLaws} `{!StateLaws}.

(** The works of a leader and of a validator start alike. *)
Lemma start_sim header st :
  0 <= GasLimit header <= StateTransition.MaxUint64 -> GasUsed header = 0 ->
  gas_ok header (init_gasPool (mkWork st 0 None header [] [])) /\
  forall hv, StateTransition.same_env header hv -> GasUsed hv = 0 ->
    sim (init_gasPool (mkWork st 0 None header [] [])) (init_gasPool (mkWork st 0 None hv [] [])).
Proof.
  intros Hl Hu. unfold init_gasPool, StateTransition.AddGas; cbn.
  rewrite (proj2 (Z.ltb_ge _ 0)) by lia. split.
  - exists (0 + GasLimit header). cbn. rewrite Hu. split_and!; [done|lia|lia|lia|].
    rewrite <- Hu. by destruct header.
  - intros hv Henv Huv. pose proof Henv as (_ & _ & _ & _ & Hg). rewrite <- Hg.
    rewrite (proj2 (Z.ltb_ge _ 0)) by lia. split_and!; cbn; [done|done|done|by rewrite Hu|done|].
    exists (0 + GasLimit header), 0. split_and!; [done|lia|lia|f_equal; lia|lia].
Qed.

Lemma consensus_loop_header txs w w' :
  consensus_loop config txs w = Ok w' -> w_header w' = set_GasUsed (w_header w) (GasUsed (w_header w')).
Proof.
  revert w. induction txs as [|tx txs IH]; intros w; cbn [consensus_loop].
  { intros [= <-]. by destruct (w_header w). }
  destruct (_ <? _); [done|]. destruct (commitTransaction config tx true _) as [w1 [e|]] eqn:E; [done|].
  intros Hw'. etrans; [exact (IH _ Hw')|]. apply commitTransaction_header in E. cbn. by rewrite E.
Qed.

Lemma ProcessTransactions_packed header st pending :
  pending_txs_ok pending -> 0 <= GasLimit header <= StateTransition.MaxUint64 -> GasUsed header = 0 ->
  exists w ns txs,
    ProcessTransactions config (Some pending) (mkWork st 0 None header [] []) = Some (w, ns, txs) /\
    gas_ok header w /\ (forall a, of_sender a txs `sublist_of` default [] (pending !! a)) /\
    forall hv, StateTransition.same_env header hv -> GasUsed hv = 0 ->
      exists wv, ConsensusTransactions config txs (mkWork st 0 None hv [] []) = Ok wv /\ sim w wv /\
        w_header wv = set_GasUsed hv (GasUsed (w_header w)).
Proof.
  intros Hp Hl Hu. destruct (start_sim header st Hl Hu) as [Hg Hsim].
  destruct (@TxSet.NewTransactionsByPriceAndNonce_ok transaction_view _ pending (proj1 Hp)) as (t & Ht & Hset & _).
  unfold ProcessTransactions, commitTransactions. rewrite Ht.
  destruct (commit_loop_packed config pending header _ t _ Hp Hl Hset Hg
              (Hsim header ltac:(by split_and!) Hu)) as (t' & w & ns & txs & E & Hord & Hgas & _).
  exists w, ns, txs. split_and!; [done|done|apply Hord|]. intros hv Henv Huv.
  destruct (commit_loop_packed config pending header _ t _ Hp Hl Hset Hg (Hsim hv Henv Huv))
    as (t2 & w2 & ns2 & txs2 & E2 & _ & _ & wv & Hwv & Hs).
  rewrite E in E2. injection E2 as <- <- <-. exists wv. split_and!; [done|done|].
  destruct Hs as (_ & _ & _ & HuU & _). rewrite HuU. exact (consensus_loop_header _ _ _ Hwv).
Qed.

(** C37: What a leader packs.  Every call of the virtual machine returns here, by
    the class [EVM]; the packing loop itself then ends, on every set of pending
    transactions, with a list in which each sender's transactions are some of
    its pending ones, each at most once and in their order, and with no more gas
    used than the block's limit. *)
Theorem packed_in_order header st pending :
  pending_txs_ok pending -> 0 <= GasLimit header <= StateTransition.MaxUint64 -> GasUsed header = 0 ->
  exists w ns txs,
    ProcessTransactions config (Some pending) (mkWork st 0 None header [] []) = Some (w, ns, txs) /\
    (forall a, of_sender a txs `sublist_of` default [] (pending !! a)) /\
    0 <= GasUsed (w_header w) <= GasLimit header.
Proof.
  intros Hp Hl Hu. destruct (ProcessTransactions_packed header st pending Hp Hl Hu)
    as (w & ns & txs & E & (gp & _ & ? & ? & ? & _) & Hord & _).
  exists w, ns, txs. split_and!; [done|done|lia|lia].
Qed.

(** The header of a packed block: what packing may change, and the gas used. *)
Definition packed_header (header block : Header) : Prop :=
  exists gas root t r b u, 0 <= gas <= GasLimit header /\
    block = set_UncleHash (set_ReceiptHash (set_TxHash (set_Root (set_GasUsed header gas) root) t) r b) u.

(** What a validator computes from a leader's header: the same header. *)
Lemma pack_spec header pending st0 :
  pending_txs_ok pending -> 0 <= GasLimit header <= StateTransition.MaxUint64 -> GasUsed header = 0 ->
  StateAt (ParentHash header) = Some st0 ->
  exists block ns txs receipts st,
    pack header (Some pending) = Ok (block, ns, txs, receipts, st) /\ packed_header header block /\
    exists st', execute (set_GasUsed block 0) txs = Ok (block, receipts, st') /\ same_state st st'.
Proof.
  intros Hp Hl Hu Est. unfold pack, execute, NewWork. rewrite Est.
  destruct (ProcessTransactions_packed header st0 pending Hp Hl Hu)
    as (w & ns & txs & E & (gp & _ & ? & ? & ? & Hh) & _ & Hval).
  rewrite E. unfold Manash.Finalize at 1.
  destruct (IntermediateRoot (w_State w) _) as [st1 root] eqn:Er.
  set (block := Manash.NewBlock _ _ _ _ _). exists block, ns, txs, (w_Receipts w), st1.
  assert (packed_header header block) as (gas & root' & t & r & b & u & Hgas & Hb).
  { unfold block, Manash.NewBlock. rewrite Hh. cbn [GasUsed set_GasUsed].
    destruct (w_Receipts w); eexists (GasUsed (w_header w)), root, _, _, _, _;
      (split; [lia|reflexivity]). }
  split; [done|]. split; [by exists gas, root', t, r, b, u|].
  assert (gas = GasUsed (w_header w)) as Hgu.
  { apply (f_equal GasUsed) in Hb. revert Hb. unfold block, Manash.NewBlock. by destruct (w_Receipts w). }
  assert (root' = root) as Hroot'.
  { apply (f_equal Root) in Hb. revert Hb. unfold block, Manash.NewBlock. by destruct (w_Receipts w). }
  assert (ParentHash (set_GasUsed block 0) = ParentHash header) as -> by (by rewrite Hb). rewrite Est.
  destruct (Hval (set_GasUsed block 0)) as (wv & -> & (Hs & _ & Hr & _ & He & _) & Hhv);
    [by rewrite Hb; split_and!|done|].
  unfold Manash.Finalize. rewrite <- Hr, Hhv. cbn [Number set_GasUsed].
  assert (Number block = Number (w_header w)) as -> by (by rewrite Hb, Hh).
  destruct (IntermediateRoot_same _ _ (IsEIP158 config (Number (w_header w))) Hs) as [Hroot Hst].
  rewrite Er in Hroot, Hst. destruct (IntermediateRoot (w_State wv) _) as [st2 root2].
  cbn in Hroot, Hst. subst root2. exists st2. split; [|done]. rewrite <- Hgu, <- Hroot', Hb. done.
Qed.

(** C31: Validators reproduce an honest leader's block: executing the packed list
    on the leader's header, with the gas used reset as verification does, gives
    back exactly the leader's header (so the same hash to sign), receipts and
    state. *)
Theorem validator_reproduces_block header pending block ns txs receipts st :
  pending_txs_ok pending -> 0 <= GasLimit header <= StateTransition.MaxUint64 -> GasUsed header = 0 ->
  pack header (Some pending) = Ok (block, ns, txs, receipts, st) ->
  exists st', execute (set_GasUsed block 0) txs = Ok (block, receipts, st') /\ same_state st st'.
Proof.
  intros Hp Hl Hu Hpack. destruct (StateAt (ParentHash header)) as [st0|] eqn:Est.
  - destruct (pack_spec header pending st0 Hp Hl Hu Est) as (? & ? & ? & ? & ? & E & _ & Hex).
    rewrite Hpack in E. by simplify_eq.
  - exfalso. revert Hpack. unfold pack, NewWork. by rewrite Est.
Qed.

End Block.

(** ** Witnesses *)

#[local] Instance machine : EVM := Accounts.machine.
#[local] Instance machine_laws : StateTransition.EVMLaws := Accounts.machine_laws.
#[local] Instance toy : Crypto := Signature.toy_crypto.
#[local] Existing Instance sorted_range.

#[local] Instance machine_state_laws : StateLaws.
Proof.
  split; [done|]. intros [a c] [a' c'] b E. pose proof (f_equal Accounts.acc (E 0%N 0)) as Ha.
  cbn in Ha. subst a'. done.
Qed.

Definition config0 : ChainConfig := mkConfig (fun _ => true) (fun _ => true) (fun _ => true) (fun _ => true).
Definition state0 : @state machine := Accounts.mkAccounts {[5%N := (0, 10 ^ 9); 6%N := (4, 10 ^ 9)]} (0%N, 0).

(** The second sender's list has a gap: its transaction with nonce 6 is not
    packed. *)
Definition pending0 : gmap Address (list Transaction) :=
  {[5%N := [Accounts.pay 5 0 2 9%N 10; Accounts.pay 5 1 1 9%N 20];
    6%N := [Accounts.pay 6 4 3 9%N 30; Accounts.pay 6 6 3 9%N 40]]}.
Definition header0 : Header :=
  mkHeader 3%N 0%N 7%N 0%N 0%N 0%N 0%N 0%N 100 8 100000 0 1000 [] (mkNetTopology 0 []) [] [] 0%N 0%N [].

Lemma pending0_ok : pending_txs_ok pending0.
Proof. split; repeat apply map_Forall_insert_2; try apply map_Forall_empty; by repeat constructor. Qed.

Lemma header0_gas : 0 <= GasLimit header0 <= StateTransition.MaxUint64.
Proof. by vm_compute. Qed.

Definition packed0 : res exec_error (Header * list Z * list Transaction * list (Receipt unit) * state) :=
  pack config0 (fun _ => Some state0) (fun txs => N.of_nat (length txs)) (fun r => N.of_nat (length r))
    header0 (Some pending0).
Definition executed0 (h : Header) (txs : list Transaction) :=
  execute config0 (fun _ => Some state0) (fun txs => N.of_nat (length txs)) (fun r => N.of_nat (length r)) h txs.

Lemma packed_in_order_witness :
  exists w ns txs,
    ProcessTransactions config0 (Some pending0) (mkWork state0 0 None header0 [] []) = Some (w, ns, txs) /\
    (forall a, of_sender a txs `sublist_of` default [] (pending0 !! a)) /\
    0 <= GasUsed (w_header w) <= GasLimit header0.
Proof.
  apply (packed_in_order config0 header0 state0 pending0); [apply pending0_ok|apply header0_gas|done].
Defined.

Lemma validator_reproduces_block_witness :
  match packed0 with
  | Ok (block, ns, txs, receipts, st) =>
      ns = [604; 500; 501] /\ GasUsed block = 63000 /\
      exists st', executed0 (set_GasUsed block 0) txs = Ok (block, receipts, st') /\ same_state st st'
  | Err _ => False
  end.
Proof.
  destruct packed0 as [[[[[block ns] txs] receipts] st]|e] eqn:E; [|by vm_compute in E].
  split_and!; [by vm_compute in E; injection E as <-|by vm_compute in E; injection E as <- _|].
  refine (validator_reproduces_block config0 _ _ _ header0 pending0 block ns txs receipts st
            pending0_ok header0_gas eq_refl E).
Defined.

End Work.
