(* ===== verification/BlkVerify.v ===== *)
(** * Package [blkconsensus/blkverify]: verifying and voting on a block

    Models verify_process.go, broadcast_process.go, msg_resend_process.go and
    verify_election_topology.go: the process of one height.  Each exported
    method runs under the process's mutex, so it is one step on the process and
    the vote pool it shares with the others.  Fetching transactions is
    asynchronous: its results and timeouts are inputs that may arrive at any
    time, and the sequence number decides whether they count.

    Parameters: the DPOS engine and validator reader, the checks of the chain
    ([VerifyHeader]), the execution of a block ([matrixwork] and the engine's
    [Finalize]), the re-election service, the signer, the clock of the vote
    pool.  [common.NewResendMsgCtrl], which the sources use and do not contain,
    is a parameter that may fail; a sender is the message it repeats.

    Header and request objects: [Signatures] and the verification result of a
    request are updated in place, visible through the cache. *)

From S2P Require Import Prelude Common Rlp Crypto Types Topology Dpos VotePool Engine Controller.
From S2P Require Import ReqCache.

Inductive State := StateIdle | StateStart | StateReqVerify | StateTxsVerify | StateDPOSVerify | StateEnd.
#[export] Instance State_eq_dec : EqDecision State.
Proof. solve_decision. Defined.

Definition state_index (s : State) : Z :=
  match s with
  | StateIdle => 0 | StateStart => 1 | StateReqVerify => 2 | StateTxsVerify => 3
  | StateDPOSVerify => 4 | StateEnd => 5
  end.

Record BlockLocalVerifyOK `{Payload} := mkLocalVerifyOK {
  ok_Header : Header;
  ok_BlockHash : Hash;
  ok_Txs : option Transactions;
  ok_Receipts : option Receipts;
  ok_State : option StateDB
}.
Arguments mkLocalVerifyOK {_}.

(** The result of [ReturnAllTxsByN]. *)
Record RetChan `{Payload} := mkRetChan {
  rt_Rxs : Transactions;
  rt_Err : bool;
  rt_Resqe : Z
}.
Arguments mkRetChan {_}.

Inductive blkverify_event `{Payload} :=
| AcquireTxs (codes : list Z) (seq : Z) (leader : Address)
| VoteSender (vote : HD_ConsensusVote)
| MineReqSender (header : Header)
| PosedReqSender (req : HD_BlkConsensusReqMsg)
| PublishVerifyOK (result : BlockLocalVerifyOK)
| PublishPOSFinished (notify : BlockPOSFinishedNotify).
Arguments AcquireTxs {_}.
Arguments VoteSender {_}.
Arguments MineReqSender {_}.
Arguments PosedReqSender {_}.
Arguments PublishVerifyOK {_}.
Arguments PublishPOSFinished {_}.

(** The execution of a block on top of its parent. *)
Inductive executed `{Payload} :=
| WorkErr                       (* NewWork failed *)
| TxsErr                        (* ConsensusTransactions or Finalize failed *)
| Executed (localHeader : Header) (receipts : Receipts) (st : StateDB).
Arguments WorkErr {_}.
Arguments TxsErr {_}.
Arguments Executed {_}.

Record Process `{Payload} := mkProcess {
  leaderCache : LeaderChangeNotify;
  p_number : Z;
  role : Z;
  p_state : State;
  curProcessReq : option nat;
  cache : reqCache;
  txsAcquireSeq : Z;
  voteMsgSender : option HD_ConsensusVote;
  mineReqMsgSender : option Header;
  posedReqSender : option HD_BlkConsensusReqMsg;
  pool : VotePool.VotePool;       (* shared, as the process sees it *)
  p_ticks : nat;                  (* clock readings so far *)
  p_out : list blkverify_event;
  voted : list (Address * nat)    (* history: leader and request of each vote sent *)
}.
Arguments mkProcess {_}.

(** What the process asks of the re-election service (package [reelection]). *)
Class ReElection := {
  ElectInfo : Type;
  TopoInfo : Type;
  AlterInfo : Type;
  GetElection : Z -> option ElectInfo;
  TransferToElectionStu : ElectInfo -> list Elect;
  GetNetTopologyAll : Z -> option TopoInfo;
  TransferToNetTopologyAllStu : TopoInfo -> NetTopology;
  ParseTopNodeOffline : NetTopology -> TopologyGraph -> list Address;
  ParsePrimaryTopNodeState : NetTopology -> list Address * list Address;
  GetTopoChange : Z -> list Address -> option AlterInfo;
  TransferToNetTopologyChgStu : AlterInfo -> list Address -> list Address -> NetTopology
}.

Module BlkVerify.

Inductive error :=
| errGetElection | errElectionSize | errElectionInfo | errTopoSize | errTopoInfo
| errTopNodeState | errPrimaryNodeState | errReElection | errTopology.

(** [topnode.OnlineState]. *)
Definition Online : Z := 1.
Definition Offline : Z := 2.

(** topnode's [GetConsensusOnlineState], which returns two nil maps. *)
Definition GetConsensusOnlineState : gmap Address Z * gmap Address Z := (∅, ∅).

Section Verify.
Context `{ReElection} `{Crypto}.
Context (GetTopologyByNumber : Z -> Z -> option TopologyGraph).

Definition verifyElection (number : Z) (header : Header) : res error unit :=
  match GetElection number with
  | None => Err errGetElection
  | Some info =>
      let electInfo := TransferToElectionStu info in
      if negb (Nat.eqb (length electInfo) (length (hElect header))) then Err errElectionSize
      else if Nat.eqb (length electInfo) 0 then Ok tt
      else
        let rlp l := Types.rlpHash (Rlp.TSlice (go_type Elect)) (Rlp.VSlice (map go_val l)) in
        if negb (bool_decide (rlp (hElect header) = rlp electInfo)) then Err errElectionInfo
        else Ok tt
  end.

(** The comparison with the topology of the header that ends both checks. *)
Definition same_topology (header : Header) (netTopology : NetTopology) : res error unit :=
  if negb (Nat.eqb (length (nt_Data netTopology)) (length (nt_Data (hNetTopology header))))
  then Err errTopoSize
  else
    let rlp t := Types.rlpHash (Rlp.TPtr (go_type NetTopology)) (go_val t) in
    if negb (bool_decide (rlp (hNetTopology header) = rlp netTopology)) then Err errTopoInfo
    else Ok tt.

Definition verifyAllNetTopology (header : Header) : res error unit :=
  match GetNetTopologyAll (Uint64 (Number header)) with
  | None => Err errReElection
  | Some info => same_topology header (TransferToNetTopologyAllStu info)
  end.

Definition checkStateByConsensus (offlineNodes onlineNodes : list Address)
    (stateMap : gmap Address Z) : bool :=
  forallb (fun n => bool_decide (stateMap !! n = Some Offline)) offlineNodes &&
  forallb (fun n => bool_decide (stateMap !! n = Some Online)) onlineNodes.

Definition parseOnlineState (header : Header) (prevTopology : TopologyGraph)
    : list Address * list Address * list Address :=
  let '(onlinePrimaryNods, offlinePrimaryNodes) := ParsePrimaryTopNodeState (hNetTopology header) in
  (ParseTopNodeOffline (hNetTopology header) prevTopology, onlinePrimaryNods, offlinePrimaryNodes).

Definition verifyChgNetTopology (number : Z) (header : Header) : res error unit :=
  match nt_Data (hNetTopology header) with
  | [] => Ok tt
  | _ =>
      match GetTopologyByNumber (Z.lor (Z.lor RoleValidator RoleBackupValidator)
                                       (Z.lor RoleMiner RoleBackupMiner)) (u64 (number - 1)) with
      | None => Err errTopology
      | Some prevTopology =>
          let '(offlineTopNodes, onlinePrimaryNods, offlinePrimaryNodes) :=
            parseOnlineState header prevTopology in
          let '(curTopNodeState, primaryNodeState) := GetConsensusOnlineState in
          if negb (checkStateByConsensus offlineTopNodes [] curTopNodeState)
          then Err errTopNodeState
          else if negb (checkStateByConsensus offlinePrimaryNodes onlinePrimaryNods primaryNodeState)
          then Err errPrimaryNodeState
          else
            match GetTopoChange number offlineTopNodes with
            | None => Err errReElection
            | Some alterInfo =>
                same_topology header
                  (TransferToNetTopologyChgStu alterInfo onlinePrimaryNods offlinePrimaryNodes)
            end
      end
  end.

Definition verifyNetTopology (number : Z) (header : Header) : res error unit :=
  if nt_Type (hNetTopology header) =? NetTopoTypeAll then verifyAllNetTopology header
  else verifyChgNetTopology number header.

(** [GetConsensusOnlineState] knows no node, so an accepted change of the
    topology takes no node online or offline. *)
Lemma accepted_change_is_empty number header :
  verifyChgNetTopology number header = Ok tt ->
  nt_Data (hNetTopology header) = [] \/
  exists prevTopology, parseOnlineState header prevTopology = ([], [], []).
Proof.
  unfold verifyChgNetTopology, checkStateByConsensus. destruct (nt_Data _) as [|x l]; [by left|].
  destruct (GetTopologyByNumber _ _) as [prev|]; [|done].
  destruct (parseOnlineState header prev) as [[off on'] offp] eqn:Ep. simpl.
  intros Hok. right. exists prev. rewrite Ep.
  destruct off; [|done]. destruct offp; [|done]. by destruct on'.
Qed.

End Verify.

Section Process.
Context `{Payload} `{GoRange} `{Crypto} `{E : DPOSEngine} `{ReElection}.
Context (reader : ValidatorReader) (GetTopologyByNumber : Z -> Z -> option TopologyGraph).
Context (VerifyHeader : Header -> bool) (execute : Header -> Transactions -> executed).
Context (SignHashWithValidate : Hash -> bool -> option Signature).
Context (NewResendMsgCtrl : bool) (clock : nat -> Z).

Definition newProcess (number : Z) (vp : VotePool.VotePool) : Process :=
  mkProcess (mkLeaderChange false 0%N 0%N number 0 0 0 0) number RoleNil StateIdle None
    ReqCache.newReqCache 0 None None None vp 0 [] [].

Definition set_leaderCache (p : Process) (l : LeaderChangeNotify) : Process :=
  mkProcess l (p_number p) (role p) (p_state p) (curProcessReq p) (cache p) (txsAcquireSeq p)
    (voteMsgSender p) (mineReqMsgSender p) (posedReqSender p) (pool p) (p_ticks p) (p_out p) (voted p).
Definition set_role (p : Process) (r : Z) : Process :=
  mkProcess (leaderCache p) (p_number p) r (p_state p) (curProcessReq p) (cache p) (txsAcquireSeq p)
    (voteMsgSender p) (mineReqMsgSender p) (posedReqSender p) (pool p) (p_ticks p) (p_out p) (voted p).
Definition set_state (p : Process) (s : State) : Process :=
  mkProcess (leaderCache p) (p_number p) (role p) s (curProcessReq p) (cache p) (txsAcquireSeq p)
    (voteMsgSender p) (mineReqMsgSender p) (posedReqSender p) (pool p) (p_ticks p) (p_out p) (voted p).
Definition set_cur (p : Process) (c : option nat) : Process :=
  mkProcess (leaderCache p) (p_number p) (role p) (p_state p) c (cache p) (txsAcquireSeq p)
    (voteMsgSender p) (mineReqMsgSender p) (posedReqSender p) (pool p) (p_ticks p) (p_out p) (voted p).
Definition set_cache (p : Process) (c : reqCache) : Process :=
  mkProcess (leaderCache p) (p_number p) (role p) (p_state p) (curProcessReq p) c (txsAcquireSeq p)
    (voteMsgSender p) (mineReqMsgSender p) (posedReqSender p) (pool p) (p_ticks p) (p_out p) (voted p).
Definition set_seq (p : Process) (n : Z) : Process :=
  mkProcess (leaderCache p) (p_number p) (role p) (p_state p) (curProcessReq p) (cache p) n
    (voteMsgSender p) (mineReqMsgSender p) (posedReqSender p) (pool p) (p_ticks p) (p_out p) (voted p).
Definition set_senders (p : Process) v m r : Process :=
  mkProcess (leaderCache p) (p_number p) (role p) (p_state p) (curProcessReq p) (cache p)
    (txsAcquireSeq p) v m r (pool p) (p_ticks p) (p_out p) (voted p).
Definition set_pool (p : Process) (vp : VotePool.VotePool) : Process :=
  mkProcess (leaderCache p) (p_number p) (role p) (p_state p) (curProcessReq p) (cache p)
    (txsAcquireSeq p) (voteMsgSender p) (mineReqMsgSender p) (posedReqSender p) vp (p_ticks p)
    (p_out p) (voted p).
Definition tick (p : Process) : Process :=
  mkProcess (leaderCache p) (p_number p) (role p) (p_state p) (curProcessReq p) (cache p)
    (txsAcquireSeq p) (voteMsgSender p) (mineReqMsgSender p) (posedReqSender p) (pool p)
    (S (p_ticks p)) (p_out p) (voted p).
Definition emit (p : Process) (e : blkverify_event) : Process :=
  mkProcess (leaderCache p) (p_number p) (role p) (p_state p) (curProcessReq p) (cache p)
    (txsAcquireSeq p) (voteMsgSender p) (mineReqMsgSender p) (posedReqSender p) (pool p) (p_ticks p)
    (p_out p ++ [e]) (voted p).
Definition record_vote (p : Process) (leader : Address) (id : nat) : Process :=
  mkProcess (leaderCache p) (p_number p) (role p) (p_state p) (curProcessReq p) (cache p)
    (txsAcquireSeq p) (voteMsgSender p) (mineReqMsgSender p) (posedReqSender p) (pool p) (p_ticks p)
    (p_out p) (voted p ++ [(leader, id)]).

(** The request object at an index, and its update in place. *)
Definition get_req (p : Process) (id : nat) : option reqData := store (cache p) !! id.
Definition put_req (p : Process) (id : nat) (d : reqData) : Process :=
  let rc := cache p in
  set_cache p (mkReqCache (curTurn rc) (leaderReqCache rc) (otherReqCache rc) (otherReqLimit rc)
                 (<[id := d]> (store rc))).
Definition set_result (d : reqData) (r : verifyResult) : reqData :=
  mkReqData (rd_req d) (rd_hash d) (rd_txs d) (rd_receipts d) (rd_stateDB d) (rd_localReq d) r.
Definition set_txs (d : reqData) (txs : Transactions) : reqData :=
  mkReqData (rd_req d) (rd_hash d) (Some txs) (rd_receipts d) (rd_stateDB d) (rd_localReq d)
    (rd_localVerifyResult d).
Definition set_executed (d : reqData) (rc : Receipts) (st : StateDB) : reqData :=
  mkReqData (rd_req d) (rd_hash d) (rd_txs d) (Some rc) (Some st) (rd_localReq d)
    (rd_localVerifyResult d).
Definition with_signatures (h : Header) (signs : list Signature) : Header :=
  mkHeader (ParentHash h) (UncleHash h) (Leader h) (Coinbase h) (Root h) (TxHash h) (ReceiptHash h)
    (Bloom h) (Difficulty h) (Number h) (GasLimit h) (GasUsed h) (Time h) (hElect h)
    (hNetTopology h) signs (Extra h) (MixDigest h) (Nonce h) (Version h).
Definition set_signatures (d : reqData) (signs : list Signature) : reqData :=
  let r := rd_req d in
  mkReqData (mkBlkConsensusReq (bcr_From r) (with_signatures (bcr_Header r) signs)
               (bcr_ConsensusTurn r) (bcr_TxsCode r))
    (rd_hash d) (rd_txs d) (rd_receipts d) (rd_stateDB d) (rd_localReq d) (rd_localVerifyResult d).

Definition checkState (p : Process) (s : State) : bool := bool_decide (p_state p = s).
Definition changeState (p : Process) (target : State) : Process :=
  if state_index (p_state p) =? state_index target - 1 then set_state p target else p.

(** ** msg_resend_process.go *)

Definition closeMineReqMsgSender (p : Process) : Process :=
  set_senders p (voteMsgSender p) None (posedReqSender p).
Definition stopSender (p : Process) : Process := set_senders p None None None.

Definition startSendMineReq (header : Header) (p : Process) : Process :=
  if NewResendMsgCtrl
  then emit (set_senders p (voteMsgSender p) (Some header) (posedReqSender p)) (MineReqSender header)
  else set_senders p (voteMsgSender p) None (posedReqSender p).
Definition startPosedReqSender (req : HD_BlkConsensusReqMsg) (p : Process) : Process :=
  if NewResendMsgCtrl
  then emit (set_senders p (voteMsgSender p) (mineReqMsgSender p) (Some req)) (PosedReqSender req)
  else set_senders p (voteMsgSender p) (mineReqMsgSender p) None.
Definition startVoteMsgSender (vote : HD_ConsensusVote) (p : Process) : Process :=
  if NewResendMsgCtrl
  then emit (set_senders p (Some vote) (mineReqMsgSender p) (posedReqSender p)) (VoteSender vote)
  else set_senders p None (mineReqMsgSender p) (posedReqSender p).

(** ** Voting and finishing *)

Definition add_vote (hash : Hash) (sign : Signature) (p : Process) : Process :=
  let now := clock (p_ticks p) in
  set_pool (tick p) (VotePool.AddVote (pool p) now hash sign 0%N false).1.

Definition local_ok (d : reqData) : BlockLocalVerifyOK :=
  mkLocalVerifyOK (bcr_Header (rd_req d)) (rd_hash d) (rd_txs d) (rd_receipts d) (rd_stateDB d).

Definition sendVote (id : nat) (d : reqData) (validate : bool) (p : Process) : Process :=
  match SignHashWithValidate (rd_hash d) validate with
  | None => p
  | Some sign =>
      let p := startVoteMsgSender (mkVote (rd_hash d) (p_number p) sign 0%N) p in
      let p := record_vote p (lcn_Leader (leaderCache p)) id in
      let p := add_vote (rd_hash d) sign p in
      emit p (PublishVerifyOK (local_ok d))
  end.

Definition finishedProcess (d : reqData) (p : Process) : Process :=
  match rd_localVerifyResult d with
  | localVerifyResultProcessing | localVerifyResultStateFailed => p
  | result =>
      let req := rd_req d in
      let p := if bool_decide (result = localVerifyResultSuccess)
               then emit p (PublishPOSFinished (mkPOSFinished (p_number p) (bcr_Header req)
                              (bcr_ConsensusTurn req) (bcr_TxsCode req)))
               else p in
      let p := startSendMineReq (bcr_Header req) p in
      let p := startPosedReqSender req p in
      set_state (set_pool p (VotePool.DelVotes (pool p) (rd_hash d))) StateEnd
  end.

(** A nil current request has no object to read, on which the code panics. *)
Definition processDPOSOnce (p : Process) : Process :=
  if negb (checkState p StateDPOSVerify) then p
  else
    match curProcessReq p ≫= get_req p, curProcessReq p with
    | Some d, Some id =>
        let signs := VotePool.GetVotes (pool p) (rd_hash d) in
        match VerifyHashWithVerifiedSignsAndNumber reader signs (p_number p) with
        | Err _ => p
        | Ok rightSigns =>
            let d := set_signatures d rightSigns in
            finishedProcess d (put_req p id d)
        end
    | _, _ => p
    end.

Definition bcFinishedProcess (id : nat) (d : reqData) (lvResult : verifyResult) (p : Process)
    : Process :=
  let d := set_result d lvResult in
  let p := put_req p id d in
  match lvResult with
  | localVerifyResultProcessing | localVerifyResultStateFailed => p
  | localVerifyResultSuccess => set_state (emit p (PublishVerifyOK (local_ok d))) StateEnd
  | localVerifyResultFailedButCanRecover => set_state p StateEnd
  end.

Definition startDPOSVerify (lvResult : verifyResult) (p : Process) : Process :=
  if state_index StateDPOSVerify <=? state_index (p_state p) then p
  else
    match curProcessReq p ≫= get_req p, curProcessReq p with
    | Some d, Some id =>
        if role p =? RoleBroadcast then bcFinishedProcess id d lvResult p
        else
          let p := if bool_decide (lvResult = localVerifyResultSuccess)
                   then sendVote id d true p else p in
          let p := put_req p id (set_result d lvResult) in
          processDPOSOnce (set_state p StateDPOSVerify)
    | _, _ => p
    end.

(** ** Verifying a request *)

Definition startTxsVerify (d : reqData) (p : Process) : Process :=
  if negb (checkState p StateReqVerify) then p
  else
    let p := changeState p StateTxsVerify in
    let p := set_seq p (txsAcquireSeq p + 1) in
    emit p (AcquireTxs (bcr_TxsCode (rd_req d)) (txsAcquireSeq p) (Leader (bcr_Header (rd_req d)))).

(** The timestamp check of a request. *)
Definition time_ok (l : LeaderChangeNotify) (header : Header) : bool :=
  let headerTime := Int64 (Time header) in
  negb ((headerTime <? lcn_TurnBeginTime l) || (lcn_TurnEndTime l <? headerTime)).

Definition processReqOnce (d : reqData) (p : Process) : Process :=
  if negb (checkState p StateReqVerify) then p
  else if rd_localReq d then startDPOSVerify localVerifyResultSuccess p
  else
    let header := bcr_Header (rd_req d) in
    if negb (time_ok (leaderCache p) header) then startDPOSVerify localVerifyResultStateFailed p
    else if negb (VerifyHeader header) then startDPOSVerify localVerifyResultStateFailed p
    else if negb (is_ok (verifyElection (p_number p) header))
    then startDPOSVerify localVerifyResultStateFailed p
    else if negb (is_ok (verifyNetTopology GetTopologyByNumber (p_number p) header))
    then startDPOSVerify localVerifyResultFailedButCanRecover p
    else startTxsVerify d p.

Definition startReqVerifyCommon (p : Process) : Process :=
  if negb (checkState p StateStart) then p
  else if negb (lcn_ConsensusState (leaderCache p)) then p
  else
    match ReqCache.GetLeaderReq (cache p) (lcn_Leader (leaderCache p))
            (lcn_ConsensusTurn (leaderCache p)) with
    | Err _ => p
    | Ok id =>
        match get_req p id with
        | None => p
        | Some d => processReqOnce d (set_state (set_cur p (Some id)) StateReqVerify)
        end
    end.

(** ** broadcast_process.go *)

Definition bcProcessReqVerify (id : nat) (d : reqData) (p : Process) : Process :=
  if negb (checkState p StateReqVerify) then p
  else if negb (VerifyHeader (bcr_Header (rd_req d)))
  then bcFinishedProcess id d localVerifyResultStateFailed p
  else startTxsVerify d p.

(** The loop over the cached requests: those already processed are skipped,
    those without a quorum are marked failed, the first other one is taken. *)
Fixpoint bc_loop (reqList : list nat) (p : Process) : Process :=
  match reqList with
  | [] => p
  | id :: rest =>
      match get_req p id with
      | None => bc_loop rest p
      | Some d =>
          if negb (bool_decide (rd_localVerifyResult d = localVerifyResultProcessing))
          then bc_loop rest p
          else
            match VerifyBlock reader (bcr_Header (rd_req d)) with
            | Err _ => bc_loop rest (put_req p id (set_result d localVerifyResultStateFailed))
            | Ok _ => bcProcessReqVerify id d (set_state (set_cur p (Some id)) StateReqVerify)
            end
      end
  end.

Definition startReqVerifyBC (p : Process) : Process :=
  if negb (checkState p StateStart) && negb (checkState p StateEnd) then p
  else bc_loop (ReqCache.GetAllReq (cache p)) p.

(** ** The exported methods *)

Definition start_by_role (p : Process) : Process :=
  if role p =? RoleBroadcast then startReqVerifyBC p
  else if role p =? RoleValidator then startReqVerifyCommon p
  else p.

Definition StartRunning (r : Z) (p : Process) : Process :=
  start_by_role (changeState (set_role p r) StateStart).

Definition Close (p : Process) : Process := stopSender (set_cur (set_state p StateIdle) None).

Definition stopProcess (p : Process) : Process :=
  let p := closeMineReqMsgSender p in
  let p := set_leaderCache p (mkLeaderChange (lcn_ConsensusState (leaderCache p)) 0%N 0%N
                                (lcn_Number (leaderCache p)) 0 0 0 0) in
  let p := set_cur p None in
  if 0 <? state_index (p_state p) then set_state p StateStart else p.

Definition SetLeaderInfo (info : LeaderChangeNotify) (p : Process) : Process :=
  let l := leaderCache p in
  if negb (lcn_ConsensusState info) then
    stopProcess (set_leaderCache p (mkLeaderChange false (lcn_Leader l) (lcn_NextLeader l)
      (lcn_Number l) (lcn_ConsensusTurn l) (lcn_ReelectTurn l) (lcn_TurnBeginTime l)
      (lcn_TurnEndTime l)))
  else if bool_decide (lcn_Leader l = lcn_Leader info) &&
          (lcn_ConsensusTurn l =? lcn_ConsensusTurn info)
  then set_leaderCache p (mkLeaderChange true (lcn_Leader l) (lcn_NextLeader l)
      (lcn_Number l) (lcn_ConsensusTurn l) (lcn_ReelectTurn l) (lcn_TurnBeginTime l)
      (lcn_TurnEndTime l))
  else
    let p := set_leaderCache p (mkLeaderChange true (lcn_Leader info) (lcn_NextLeader info)
      (lcn_Number l) (lcn_ConsensusTurn info) (lcn_ReelectTurn info) (lcn_TurnBeginTime info)
      (lcn_TurnEndTime info)) in
    let p := set_cur p None in
    let p := set_cache p (ReqCache.SetCurTurn (cache p) (lcn_ConsensusTurn info)) in
    let p := stopSender p in
    if 0 <? state_index (p_state p) then
      let p := set_state p StateStart in
      if role p =? RoleValidator then startReqVerifyCommon p else p
    else p.

Definition AddReq (reqMsg : HD_BlkConsensusReqMsg) (p : Process) : Process :=
  match ReqCache.AddReq (cache p) reqMsg with
  | (_, Some _) => p
  | (rc, None) => start_by_role (set_cache p rc)
  end.

Definition AddLocalReq (localReq : LocalBlockVerifyConsensusReq) (p : Process) : Process :=
  start_by_role (set_cache p (ReqCache.AddLocalReq (cache p) localReq)).

(** The header of a [RecoveryStateMsg]. *)
Definition ProcessRecoveryMsg (header : Header) (p : Process) : Process :=
  match ReqCache.GetLeaderReqByHash (cache p) (Types.HashNoSignsAndNonce header) with
  | Err _ => p
  | Ok id =>
      match get_req p id with
      | None => p
      | Some d =>
          let p := set_pool p (VotePool.DelVotes (pool p) (rd_hash d)) in
          processDPOSOnce (foldl (fun p sign => add_vote (rd_hash d) sign p) p (Signatures header))
      end
  end.

Definition ProcessTxsAcquireTimeOut (seq : Z) (p : Process) : Process :=
  if negb (seq =? txsAcquireSeq p) then p
  else if negb (checkState p StateTxsVerify) then p
  else startDPOSVerify localVerifyResultFailedButCanRecover p.

Definition reset_gasUsed (h : Header) : Header :=
  mkHeader (ParentHash h) (UncleHash h) (Leader h) (Coinbase h) (Root h) (TxHash h) (ReceiptHash h)
    (Bloom h) (Difficulty h) (Number h) (GasLimit h) 0 (Time h) (hElect h) (hNetTopology h)
    (Signatures h) (Extra h) (MixDigest h) (Nonce h) (Version h).

Definition VerifyTxs (result : RetChan) (p : Process) : Process :=
  if negb (checkState p StateTxsVerify) then p
  else if negb (rt_Resqe result =? txsAcquireSeq p) then p
  else if rt_Err result then startDPOSVerify localVerifyResultFailedButCanRecover p
  else
    match curProcessReq p ≫= get_req p, curProcessReq p with
    | Some d, Some id =>
        let d := set_txs d (rt_Rxs result) in
        let p := put_req p id d in
        match execute (reset_gasUsed (bcr_Header (rd_req d))) (rt_Rxs result) with
        | WorkErr => startDPOSVerify localVerifyResultFailedButCanRecover p
        | TxsErr => startDPOSVerify localVerifyResultStateFailed p
        | Executed localHeader receipts st =>
            if negb (bool_decide (Types.HashNoSignsAndNonce localHeader = rd_hash d))
            then startDPOSVerify localVerifyResultStateFailed p
            else startDPOSVerify localVerifyResultSuccess
                   (put_req p id (set_executed d receipts st))
        end
    | _, _ => p
    end.

(** What can happen to a process; [InPool] is a change of the shared pool by
    a vote from the network or by the process of another height, and [InDPOS]
    is [ProcessDPOSOnce]. *)
Inductive input :=
| InStart (r : Z)
| InClose
| InLeader (info : LeaderChangeNotify)
| InReq (req : HD_BlkConsensusReqMsg)
| InLocalReq (req : LocalBlockVerifyConsensusReq)
| InDPOS
| InRecovery (header : Header)
| InTxs (result : RetChan)
| InTxsTimeout (seq : Z)
| InPool (o : VotePool.op).

Definition step (p : Process) (i : input) : Process :=
  match i with
  | InStart r => StartRunning r p
  | InClose => Close p
  | InLeader info => SetLeaderInfo info p
  | InReq req => AddReq req p
  | InLocalReq req => AddLocalReq req p
  | InDPOS => processDPOSOnce p
  | InRecovery header => ProcessRecoveryMsg header p
  | InTxs result => VerifyTxs result p
  | InTxsTimeout seq => ProcessTxsAcquireTimeOut seq p
  | InPool o => set_pool p (VotePool.run_op (pool p) o)
  end.

Definition run (p : Process) (ins : list input) : Process := foldl step p ins.

(** ** Updates of request objects in place *)

(** What stays of a request when its object is updated. *)
Definition stable (d d' : reqData) : Prop :=
  rd_hash d' = rd_hash d /\ rd_localReq d' = rd_localReq d /\
  bcr_ConsensusTurn (rd_req d') = bcr_ConsensusTurn (rd_req d) /\
  Leader (bcr_Header (rd_req d')) = Leader (bcr_Header (rd_req d)).

Lemma put_req_get p id d d' j :
  get_req p id = Some d ->
  get_req (put_req p id d') j = if decide (j = id) then Some d' else get_req p j.
Proof.
  intros Hd. unfold get_req, put_req in *. simpl. case_decide as Hj.
  - subst j. apply list_lookup_insert_eq. by eapply lookup_lt_Some.
  - by rewrite list_lookup_insert_ne.
Qed.

Lemma put_req_turn_at p id d d' j :
  get_req p id = Some d -> stable d d' ->
  ReqCache.turn_at (cache (put_req p id d')) j = ReqCache.turn_at (cache p) j.
Proof.
  intros Hd (_ & _ & Ht & _). pose proof (put_req_get p id d d' j Hd) as Hg.
  unfold ReqCache.turn_at, get_req in *. rewrite Hg. case_decide; [subst j|done].
  by rewrite Hd, Ht.
Qed.

(** What the request object of a vote says about the block. *)
Definition passed (number : Z) (l : LeaderChangeNotify) (header : Header) : Prop :=
  time_ok l header = true /\ VerifyHeader header = true /\
  is_ok (verifyElection number header) = true /\
  is_ok (verifyNetTopology GetTopologyByNumber number header) = true.

(** ** Invariant for the votes of a leader [L] *)

Definition req_ok (d : reqData) : Prop :=
  rd_hash d = Types.HashNoSignsAndNonce (bcr_Header (rd_req d)).

Section Votes.
Context (L : Address) (ins : list input).

(** The reasons for a vote in [leader]'s name, all among the inputs [ins]: the
    block is a local proposal, or a leader notification opened [leader]'s turn,
    a request of that turn holds the block, whose header (with the signatures
    gathered since) is within that notification's time window and passes the
    header, election and topology checks, and its transactions, as they
    arrived, execute to a header with the voted hash. *)
Definition verified_vote (number : Z) (leader : Address) (hash : Hash) : Prop :=
  exists info req signs result lh rc st,
    let header := with_signatures (bcr_Header req) signs in
    InLeader info ∈ ins /\ lcn_ConsensusState info = true /\ lcn_Leader info = leader /\
    InReq req ∈ ins /\ bcr_ConsensusTurn req = lcn_ConsensusTurn info /\
    InTxs result ∈ ins /\ rt_Err result = false /\
    Types.HashNoSignsAndNonce header = hash /\ passed number info header /\
    execute (reset_gasUsed header) (rt_Rxs result) = Executed lh rc st /\
    Types.HashNoSignsAndNonce lh = hash.

Definition proposed_here (hash : Hash) : Prop :=
  exists req, InLocalReq req ∈ ins /\
    Types.HashNoSignsAndNonce (bcr_Header (lb_BlkVerifyConsensusReq req)) = hash.

Definition justified (number : Z) (leader : Address) (d : reqData) : Prop :=
  proposed_here (rd_hash d) \/ verified_vote number leader (rd_hash d).

Lemma justified_stable number a d d' :
  stable d d' -> justified number a d -> justified number a d'.
Proof. intros (Hh & _). unfold justified. by rewrite Hh. Qed.

(** Where a stored request comes from. *)
Definition sourced (d : reqData) : Prop :=
  if rd_localReq d then proposed_here (rd_hash d)
  else exists req signs, InReq req ∈ ins /\
    bcr_Header (rd_req d) = with_signatures (bcr_Header req) signs /\
    bcr_ConsensusTurn (rd_req d) = bcr_ConsensusTurn req.

(** The current leader, its turn and its window come from a notification. *)
Definition leader_ok (l : LeaderChangeNotify) : Prop :=
  lcn_Leader l = 0%N \/
  exists info, InLeader info ∈ ins /\ lcn_ConsensusState info = true /\
    lcn_Leader info = lcn_Leader l /\ lcn_ConsensusTurn info = lcn_ConsensusTurn l /\
    lcn_TurnBeginTime info = lcn_TurnBeginTime l /\ lcn_TurnEndTime info = lcn_TurnEndTime l.

Definition stored_ok (d : reqData) : Prop := req_ok d /\ sourced d.

Lemma newReqData_stored_ok req : InReq req ∈ ins -> stored_ok (ReqCache.newReqData req).
Proof.
  intros Hin. split; [done|]. exists req, (Signatures (bcr_Header req)).
  split_and!; [done|simpl; by destruct (bcr_Header req)|done].
Qed.

Lemma localReqData_stored_ok req :
  InLocalReq req ∈ ins -> stored_ok (ReqCache.newReqDataByLocalReq req).
Proof. intros Hin. split; [done|]. by exists req. Qed.

Lemma set_signatures_stored_ok d signs : stored_ok d -> stored_ok (set_signatures d signs).
Proof.
  intros [Hr Hs]. split; [exact Hr|]. unfold sourced in *. simpl.
  destruct (rd_localReq d); [done|]. destruct Hs as (req & s0 & Hin & Hh & Ht).
  exists req, signs. rewrite Hh. by split_and!.
Qed.

(** The current request of leader [L] is settled, and is the one voted for. *)
Definition cur_ok (p : Process) (id : nat) : Prop :=
  is_Some (get_req p id) /\
  (lcn_Leader (leaderCache p) = L ->
   ReqCache.settled (cache p) L id /\
   forall id', (L, id') ∈ voted p ->
     ReqCache.turn_at (cache p) id' = ReqCache.turn_at (cache p) id -> id' = id).

Definition txs_ok (p : Process) : Prop :=
  exists id d, curProcessReq p = Some id /\ get_req p id = Some d /\
    rd_localReq d = false /\ lcn_Leader (leaderCache p) <> 0%N /\
    bcr_ConsensusTurn (rd_req d) = lcn_ConsensusTurn (leaderCache p) /\
    passed (p_number p) (leaderCache p) (bcr_Header (rd_req d)).

Definition votes_ok (p : Process) : Prop :=
  (forall a id, (a, id) ∈ voted p ->
     exists d, get_req p id = Some d /\ justified (p_number p) a d) /\
  (forall id, (L, id) ∈ voted p -> ReqCache.settled (cache p) L id) /\
  (forall id1 id2, (L, id1) ∈ voted p -> (L, id2) ∈ voted p ->
     ReqCache.turn_at (cache p) id1 = ReqCache.turn_at (cache p) id2 -> id1 = id2).

Definition inv (p : Process) : Prop :=
  (role p <> RoleBroadcast /\ leader_ok (leaderCache p)) /\
  (forall id d, get_req p id = Some d -> stored_ok d) /\
  ReqCache.entry_ok (cache p) L /\
  (forall id, curProcessReq p = Some id -> cur_ok p id) /\
  (p_state p = StateTxsVerify -> txs_ok p) /\ votes_ok p.

Lemma put_req_settled p id d d' j :
  get_req p id = Some d -> stable d d' -> ReqCache.settled (cache p) L j ->
  ReqCache.settled (cache (put_req p id d')) L j.
Proof.
  intros Hd Hs [Hp|(id' & Hl & Hr)]; unfold ReqCache.settled;
    rewrite (put_req_turn_at p id d d' j Hd Hs); [by left|].
  right. exists id'. by rewrite (put_req_turn_at p id d d' id' Hd Hs).
Qed.

Lemma put_req_entry_ok p id d d' :
  get_req p id = Some d -> stable d d' -> ReqCache.entry_ok (cache p) L ->
  ReqCache.entry_ok (cache (put_req p id d')) L.
Proof.
  intros Hd Hs Hok j Hj. rewrite (put_req_turn_at p id d d' j Hd Hs).
  destruct (Hok j Hj) as (Ht & dj & Hdj & Hl & Hloc). split; [done|].
  pose proof (put_req_get p id d d' j Hd) as Hg. unfold get_req in Hg. rewrite Hg.
  case_decide; [subst j|by exists dj]. exists d'. split; [done|].
  change (store (cache p) !! id) with (get_req p id) in Hdj. rewrite Hd in Hdj. injection Hdj as <-.
  destruct Hs as (_ & Hl1 & _ & Hl2). split; congruence.
Qed.

(** Replacing the object of a request: anything but the state is kept. *)
Lemma put_req_inv p id d d' :
  inv p -> get_req p id = Some d -> stable d d' -> stored_ok d' ->
  (p_state p = StateTxsVerify -> rd_req d' = rd_req d) -> inv (put_req p id d').
Proof.
  intros ([Hrole Hlead] & Hreq & Hent & Hcur & Htxs & Hv1 & Hv2 & Hv3) Hd Hs Hok Hst.
  unfold inv, votes_ok. split_and!; [done|done| | | | | | |].
  - intros j dj. rewrite (put_req_get p id d d' j Hd). case_decide; [by intros [= <-]|]. apply Hreq.
  - by eapply put_req_entry_ok.
  - intros j Hj. destruct (Hcur j Hj) as [Hsome Hx]. split.
    + rewrite (put_req_get p id d d' j Hd). by case_decide.
    + intros Hl. destruct (Hx Hl) as [Hset Hu]. split; [by eapply put_req_settled|].
      intros id'. rewrite !(put_req_turn_at p id d d' _ Hd Hs). apply Hu.
  - intros Ht. destruct (Htxs Ht) as (j & dj & Hcj & Hdj & Hp). exists j.
    destruct (decide (j = id)) as [->|Hne].
    + exists d'. rewrite (put_req_get p id d d' id Hd), decide_True by done.
      rewrite Hd in Hdj. injection Hdj as <-. rewrite (Hst Ht).
      destruct Hs as (_ & -> & _). done.
    + exists dj. by rewrite (put_req_get p id d d' j Hd), decide_False by done.
  - intros a j (dj & Hdj & Hju)%Hv1. rewrite (put_req_get p id d d' j Hd).
    case_decide; [subst j|by eauto]. exists d'. split; [done|].
    rewrite Hd in Hdj. injection Hdj as <-. by eapply justified_stable.
  - intros j Hj. eapply put_req_settled; eauto.
  - intros j1 j2 Hj1 Hj2. rewrite !(put_req_turn_at p id d d' _ Hd Hs). by apply Hv3.
Qed.

(** Leaving the transaction phase, or changing what no vote depends on. *)
Lemma set_state_inv p s : s <> StateTxsVerify -> inv p -> inv (set_state p s).
Proof. intros Hs ([? ?] & ? & ? & ? & _ & ?). by split_and!. Qed.

Lemma record_vote_inv p id d :
  inv p -> curProcessReq p = Some id -> get_req p id = Some d ->
  justified (p_number p) (lcn_Leader (leaderCache p)) d ->
  inv (record_vote p (lcn_Leader (leaderCache p)) id).
Proof.
  intros ([Hrole Hlead] & Hreq & Hent & Hcur & Htxs & Hv1 & Hv2 & Hv3) Hc Hd Hj.
  destruct (Hcur id Hc) as [Hsome Hx].
  assert (Hin : forall a j, (a, j) ∈ voted p ++ [(lcn_Leader (leaderCache p), id)] ->
    (a, j) ∈ voted p \/ a = lcn_Leader (leaderCache p) /\ j = id).
  { intros a j [?|Hjn]%elem_of_app; [by left|]. apply list_elem_of_singleton in Hjn. right. by simplify_eq. }
  unfold inv, votes_ok. split_and!; try done.
  - intros j Hcj. simpl in Hcj. rewrite Hc in Hcj. injection Hcj as <-. split; [done|].
    intros Hl. destruct (Hx Hl) as [Hset Hu]. split; [done|].
    intros id' [Hv|[_ ->]]%Hin Ht; [by apply Hu|done].
  - intros a j [Hv|[-> ->]]%Hin; [by apply (Hv1 a)|by exists d].
  - intros j [Hv|[Hl ->]]%Hin; [by apply Hv2|by apply Hx].
  - intros j1 j2 [Hv1'|[Hl1 ->]]%Hin [Hv2'|[Hl2 ->]]%Hin Ht; try done.
    + by apply Hv3.
    + by apply (Hx (eq_sym Hl2)).
    + symmetry. by apply (Hx (eq_sym Hl1)).
Qed.

Lemma finishedProcess_inv d p : inv p -> inv (finishedProcess d p).
Proof.
  intros Hinv. unfold finishedProcess, startSendMineReq, startPosedReqSender.
  destruct (rd_localVerifyResult d); try done; cbv zeta;
    apply set_state_inv; try done; destruct NewResendMsgCtrl; repeat case_match; exact Hinv.
Qed.

Lemma processDPOSOnce_inv p : inv p -> inv (processDPOSOnce p).
Proof.
  intros Hinv. unfold processDPOSOnce, checkState. case_bool_decide as Hst; [|done]. cbn [negb].
  destruct (curProcessReq p) as [id|] eqn:Hc; [|done]. simpl.
  destruct (get_req p id) as [d|] eqn:Hd; [|done].
  destruct (VerifyHashWithVerifiedSignsAndNumber _ _ _) as [rs|]; [|done].
  apply finishedProcess_inv. pose proof Hinv as (_ & Hreq & _).
  eapply put_req_inv; [done|exact Hd|done| |by rewrite Hst].
  apply set_signatures_stored_ok. exact (Hreq id d Hd).
Qed.

Lemma sendVote_inv id d p :
  inv p -> curProcessReq p = Some id -> get_req p id = Some d ->
  justified (p_number p) (lcn_Leader (leaderCache p)) d ->
  inv (sendVote id d true p).
Proof.
  intros Hinv Hc Hd Hj. unfold sendVote. destruct (SignHashWithValidate _ _) as [sg|]; [|done].
  cbv zeta. set (p1 := startVoteMsgSender _ _).
  assert (Hp1 : inv p1 /\ leaderCache p1 = leaderCache p /\ curProcessReq p1 = Some id /\
    get_req p1 id = Some d /\ p_number p1 = p_number p)
    by (unfold p1, startVoteMsgSender; destruct NewResendMsgCtrl; done).
  destruct Hp1 as (Hi & Hl & Hc1 & Hd1 & Hn).
  apply (record_vote_inv p1 id d); [done|done|done|]. by rewrite Hn, Hl.
Qed.

(** The fields that a vote leaves as they were. *)
Lemma sendVote_frame id d v p :
  cache (sendVote id d v p) = cache p /\ curProcessReq (sendVote id d v p) = curProcessReq p /\
  p_number (sendVote id d v p) = p_number p /\ p_state (sendVote id d v p) = p_state p.
Proof.
  unfold sendVote, startVoteMsgSender. destruct (SignHashWithValidate _ _); [|done].
  by destruct NewResendMsgCtrl.
Qed.

Lemma startDPOSVerify_inv lv p :
  inv p ->
  (lv = localVerifyResultSuccess -> forall id d, curProcessReq p = Some id ->
     get_req p id = Some d -> justified (p_number p) (lcn_Leader (leaderCache p)) d) ->
  inv (startDPOSVerify lv p).
Proof.
  intros Hinv Hj. unfold startDPOSVerify. destruct (_ <=? _); [done|].
  destruct (curProcessReq p) as [id|] eqn:Hc; [|done]. simpl.
  destruct (get_req p id) as [d|] eqn:Hd; [|done].
  pose proof Hinv as ([Hrole _] & Hreq & _). apply Z.eqb_neq in Hrole. rewrite Hrole.
  apply processDPOSOnce_inv.
  set (p1 := if bool_decide _ then _ else p).
  assert (Hp1 : inv p1 /\ get_req p1 id = Some d).
  { unfold p1. case_bool_decide as Hlv; [|done]. split; [apply sendVote_inv; [done|done|done|by apply (Hj Hlv id d)]|].
    unfold get_req. by destruct (sendVote_frame id d true p) as [-> _]. }
  destruct Hp1 as [Hi1 Hd1].
  apply (put_req_inv (set_state p1 StateDPOSVerify) id d (set_result d lv)); try done.
  - by apply set_state_inv.
  - exact (Hreq id d Hd).
Qed.

Lemma startTxsVerify_inv id d p :
  inv p -> curProcessReq p = Some id -> get_req p id = Some d -> rd_localReq d = false ->
  lcn_Leader (leaderCache p) <> 0%N ->
  bcr_ConsensusTurn (rd_req d) = lcn_ConsensusTurn (leaderCache p) ->
  passed (p_number p) (leaderCache p) (bcr_Header (rd_req d)) -> inv (startTxsVerify d p).
Proof.
  intros Hinv Hc Hd Hloc Hl0 Htu Hp. pose proof Hinv as ([Hrole Hlead] & Hreq & Hent & Hcur & _ & Hv).
  unfold startTxsVerify. destruct (negb _); [done|]. unfold changeState. cbv zeta.
  case_match; (split; [done|]); (split_and!; [done|done|done| |exact Hv]); intros _; by exists id, d.
Qed.

Lemma processReqOnce_inv id d p :
  inv p -> curProcessReq p = Some id -> get_req p id = Some d ->
  lcn_Leader (leaderCache p) <> 0%N ->
  bcr_ConsensusTurn (rd_req d) = lcn_ConsensusTurn (leaderCache p) ->
  inv (processReqOnce d p).
Proof.
  intros Hinv Hc Hd Hl0 Htu. unfold processReqOnce. destruct (negb _); [done|].
  assert (Hfail : forall lv, lv <> localVerifyResultSuccess -> inv (startDPOSVerify lv p))
    by (intros lv Hlv; by apply startDPOSVerify_inv).
  destruct (rd_localReq d) eqn:El.
  { apply startDPOSVerify_inv; [done|]. intros _ id' d' Hc' Hd'. left.
    rewrite Hc in Hc'. injection Hc' as <-. rewrite Hd in Hd'. injection Hd' as <-.
    destruct Hinv as (_ & Hreq & _). destruct (Hreq id d Hd) as [_ Hs].
    unfold sourced in Hs. by rewrite El in Hs. }
  destruct (time_ok (leaderCache p) _) eqn:Et; [|by apply Hfail].
  destruct (VerifyHeader _) eqn:Eh; [|by apply Hfail].
  destruct (is_ok (verifyElection _ _)) eqn:Ee; [|by apply Hfail].
  destruct (is_ok (verifyNetTopology _ _ _)) eqn:En; [|by apply Hfail].
  by eapply startTxsVerify_inv.
Qed.

Lemma startReqVerifyCommon_inv p : inv p -> inv (startReqVerifyCommon p).
Proof.
  intros Hinv. unfold startReqVerifyCommon. destruct (negb _); [done|]. destruct (negb _); [done|].
  destruct (ReqCache.GetLeaderReq _ _ _) as [id|] eqn:Eg; [|done].
  destruct (get_req p id) as [d|] eqn:Hd; [|done].
  assert (Hgl : lcn_Leader (leaderCache p) <> 0%N /\
    bcr_ConsensusTurn (rd_req d) = lcn_ConsensusTurn (leaderCache p)).
  { split; [unfold ReqCache.GetLeaderReq in Eg; by case_bool_decide|].
    destruct (ReqCache.GetLeaderReq_settled _ _ _ _ Eg) as [<- _].
    unfold ReqCache.turn_at. change (store (cache p) !! id) with (get_req p id). by rewrite Hd. }
  destruct Hgl as [Hl0 Htu]. apply (processReqOnce_inv id); try done.
  destruct Hinv as ([Hrole Hlead] & Hreq & Hent & Hcur & _ & Hv1 & Hv2 & Hv3).
  unfold inv, votes_ok. split_and!; try done. intros j [= <-]. split; [by exists d|].
  simpl. intros Hl. rewrite Hl in Eg.
  destruct (ReqCache.GetLeaderReq_settled _ _ _ _ Eg) as [Ht Hs]. split; [done|].
  intros id' Hv Ht'. symmetry. eapply ReqCache.settled_unique; [done|by apply Hv2|].
  by rewrite Ht', Ht.
Qed.

Lemma start_by_role_inv p : inv p -> inv (start_by_role p).
Proof.
  intros Hinv. unfold start_by_role. pose proof Hinv as ([Hrole _] & _).
  apply Z.eqb_neq in Hrole. rewrite Hrole. case_match; [|done]. by apply startReqVerifyCommon_inv.
Qed.

(** A change of the cache by one of its operations. *)
Lemma cache_op_inv p o :
  inv p -> ReqCache.not_local L o ->
  (forall id d, store (ReqCache.run_op (cache p) o) !! id = Some d -> stored_ok d) ->
  inv (set_cache p (ReqCache.run_op (cache p) o)).
Proof.
  intros ([Hrole Hlead] & Hreq & Hent & Hcur & Htxs & Hv1 & Hv2 & Hv3) Hnl Hnew.
  destruct (ReqCache.run_op_store (cache p) o) as [l Hl].
  assert (Hget : forall id d, get_req p id = Some d ->
    get_req (set_cache p (ReqCache.run_op (cache p) o)) id = Some d).
  { intros id d Hd. unfold get_req in *. simpl. rewrite Hl. by apply lookup_app_l_Some. }
  assert (Hsome : forall a id, (a, id) ∈ voted p -> is_Some (store (cache p) !! id)).
  { intros a id (d & Hd & _)%Hv1. by exists d. }
  unfold inv, votes_ok. split_and!; [done|done|exact Hnew|by apply ReqCache.run_op_entry_ok| | | | |]; simpl.
  - intros id Hc. destruct (Hcur id Hc) as [[d Hd] Hx]. split; [exists d; by apply Hget|].
    simpl. intros HL. destruct (Hx HL) as [Hs Hu]. split; [by apply ReqCache.run_op_settled; [..|exists d|]|].
    intros id' Hv. rewrite !ReqCache.run_op_turn_at; [by apply Hu|by exists d|by eapply Hsome].
  - intros Ht. destruct (Htxs Ht) as (id & d & ? & Hd & Hp). exists id, d.
    split; [done|]. split; [by apply Hget|exact Hp].
  - intros a id (d & Hd & Hj)%Hv1. exists d. split; [by apply Hget|done].
  - intros id Hv. apply ReqCache.run_op_settled; [done|done|by eapply Hsome|by apply Hv2].
  - intros id1 id2 Hj1 Hj2. rewrite !ReqCache.run_op_turn_at by (by eapply Hsome). by apply Hv3.
Qed.

Lemma VerifyTxs_inv result p : InTxs result ∈ ins -> inv p -> inv (VerifyTxs result p).
Proof.
  intros Hin Hinv. unfold VerifyTxs, checkState. case_bool_decide as Hst; [|done]. cbn [negb].
  destruct (negb _); [done|].
  assert (Hfail : forall lv q, lv <> localVerifyResultSuccess -> inv q -> inv (startDPOSVerify lv q))
    by (intros lv q Hlv Hq; by apply startDPOSVerify_inv).
  destruct (rt_Err result) eqn:Err; [by apply Hfail|].
  pose proof Hinv as ([_ Hlead] & Hreq & _ & _ & Htxs & _).
  destruct (Htxs Hst) as (id & d & Hc & Hd & Hloc & Hl0 & Htu & Hp). rewrite Hc. simpl. rewrite Hd.
  set (d1 := set_txs d (rt_Rxs result)). set (p1 := put_req p id d1).
  assert (Hi1 : inv p1) by (apply (put_req_inv p id d); try done; exact (Hreq id d Hd)).
  assert (Hd1 : get_req p1 id = Some d1)
    by (unfold p1; by rewrite (put_req_get p id d), decide_True by done).
  destruct (execute _ _) as [| |lh rc st] eqn:Ee; [by apply Hfail|by apply Hfail|].
  case_bool_decide as Hh; [|by apply Hfail]. cbn [negb].
  set (d2 := set_executed d1 rc st).
  apply startDPOSVerify_inv.
  { apply (put_req_inv p1 id d1); try done. exact (Hreq id d Hd). }
  intros _ id' d' Hc' Hd'. simpl in Hc'. rewrite Hc in Hc'. injection Hc' as <-.
  rewrite (put_req_get p1 id d1), decide_True in Hd' by done. injection Hd' as <-. right.
  destruct (Hreq id d Hd) as [Hrq Hsrc]. unfold sourced in Hsrc. rewrite Hloc in Hsrc.
  destruct Hsrc as (req & signs & Hri & Hrh & Hrt).
  destruct Hlead as [?|(info & Hii & His & Hil & Hit & Hib & Hie)]; [done|].
  exists info, req, signs, result, lh, rc, st. cbv zeta. rewrite <- Hrh.
  assert (Hw : time_ok info (bcr_Header (rd_req d)) = true)
    by (unfold time_ok; rewrite Hib, Hie; apply Hp).
  split_and!; try done; [congruence|]. split; [exact Hw|apply Hp].
Qed.

Lemma no_cur_inv p l s :
  s <> StateTxsVerify -> leader_ok l -> inv p ->
  inv (set_state (set_cur (set_leaderCache p l) None) s).
Proof. intros Hs Hl ([? _] & ? & ? & _ & _ & ?). by split_and!. Qed.

Lemma SetLeaderInfo_inv info p : InLeader info ∈ ins -> inv p -> inv (SetLeaderInfo info p).
Proof.
  intros Hin Hinv. unfold SetLeaderInfo, stopProcess.
  destruct (lcn_ConsensusState info) eqn:Ec; cbn [negb].
  2:{ destruct (p_state p) eqn:Es; simpl; rewrite Es; simpl;
        try (by apply (no_cur_inv p _ StateStart); [|left|]).
      pose proof (no_cur_inv p (mkLeaderChange false 0%N 0%N (lcn_Number (leaderCache p)) 0 0 0 0)
        StateIdle ltac:(done) (or_introl eq_refl) Hinv) as Hi. rewrite <- Es in Hi. exact Hi. }
  destruct (_ && _); [exact Hinv|]. cbv zeta.
  set (l := mkLeaderChange true _ _ _ _ _ _ _).
  assert (Hl : leader_ok l) by (right; by exists info).
  assert (Hs : forall s, s <> StateTxsVerify ->
    inv (set_state (stopSender (set_cache (set_cur (set_leaderCache p l) None)
      (ReqCache.SetCurTurn (cache p) (lcn_ConsensusTurn info)))) s)).
  { intros s Hs. pose proof (no_cur_inv p l s Hs Hl Hinv) as Hi.
    apply (cache_op_inv _ (ReqCache.OpTurn (lcn_ConsensusTurn info))) in Hi; [exact Hi|done|].
    intros id d Hd. destruct Hinv as (_ & Hreq & _). apply (Hreq id d). revert Hd. simpl.
    unfold ReqCache.SetCurTurn. by case_match. }
  cbn [p_state stopSender set_senders set_cache set_cur set_leaderCache].
  destruct (p_state p) eqn:Es; cbn [state_index Z.ltb Z.compare];
    try (case_match; [apply startReqVerifyCommon_inv|]; by apply Hs).
  specialize (Hs StateIdle ltac:(done)). rewrite <- Es in Hs. exact Hs.
Qed.

(** Inputs of a validator's process, without local requests in [L]'s name. *)
Definition fair_input (i : input) : Prop :=
  match i with
  | InStart r => r <> RoleBroadcast
  | InLocalReq req => Leader (bcr_Header (lb_BlkVerifyConsensusReq req)) <> L
  | _ => True
  end.

Lemma add_votes_inv h signs p :
  inv p -> inv (foldl (fun p sign => add_vote h sign p) p signs).
Proof. revert p. induction signs as [|sg signs IH]; intros p Hinv; [done|]. simpl. by apply IH. Qed.

Lemma step_inv p i : i ∈ ins -> fair_input i -> inv p -> inv (step p i).
Proof.
  intros Hin Hf Hinv. destruct i as [r| |info|req|req| |header|result|seq|o]; simpl in *.
  - unfold StartRunning, changeState. apply start_by_role_inv.
    assert (Hr : inv (set_role p r)) by (destruct Hinv as ([_ ?] & ?); by split).
    case_match; [by apply set_state_inv|done].
  - destruct Hinv as ([? ?] & ? & ? & _ & _ & ?). by split_and!.
  - by apply SetLeaderInfo_inv.
  - unfold AddReq. pose proof (cache_op_inv p (ReqCache.OpAdd req) Hinv I) as Hi.
    destruct (ReqCache.AddReq (cache p) req) as [rc [e|]] eqn:Ea; [done|].
    apply start_by_role_inv. simpl in Hi. rewrite Ea in Hi. apply Hi.
    destruct Hinv as (_ & Hreq & _). unfold ReqCache.AddReq in Ea. intros id d Hd.
    assert (store rc = store (cache p) ++ [ReqCache.newReqData req]) as Hst
      by (repeat case_match; simplify_eq/=; done). simpl in Hd. rewrite Hst in Hd.
    apply lookup_app_Some in Hd as [Hd|[_ Hd]]; [by apply (Hreq id)|].
    apply list_lookup_singleton_Some in Hd as [_ <-]. by apply newReqData_stored_ok.
  - apply start_by_role_inv. apply (cache_op_inv p (ReqCache.OpAddLocal req) Hinv Hf).
    destruct Hinv as (_ & Hreq & _). intros id d Hd. simpl in Hd.
    apply lookup_app_Some in Hd as [Hd|[_ Hd]]; [by apply (Hreq id)|].
    apply list_lookup_singleton_Some in Hd as [_ <-]. by apply localReqData_stored_ok.
  - by apply processDPOSOnce_inv.
  - unfold ProcessRecoveryMsg. destruct (ReqCache.GetLeaderReqByHash _ _) as [id|]; [|done].
    destruct (get_req p id) as [d|]; [|done]. apply processDPOSOnce_inv, add_votes_inv. exact Hinv.
  - by apply VerifyTxs_inv.
  - unfold ProcessTxsAcquireTimeOut. destruct (negb _); [done|]. destruct (negb _); [done|].
    by apply startDPOSVerify_inv.
  - exact Hinv.
Qed.

Lemma run_inv number vp pre :
  pre ⊆ ins -> Forall fair_input pre -> inv (run (newProcess number vp) pre).
Proof.
  unfold run. induction pre as [|i pre IH] using rev_ind; intros Hsub Hf.
  - unfold inv, votes_ok. split_and!; simpl; try done.
    + by left.
    + intros a id Hv. by apply elem_of_nil in Hv.
    + intros id Hv. by apply elem_of_nil in Hv.
    + intros id1 id2 Hv. by apply elem_of_nil in Hv.
  - apply Forall_app in Hf as [Hf Hi]. inversion Hi; subst. rewrite foldl_app. simpl.
    apply step_inv; [set_solver|done|]. apply IH; [set_solver|done].
Qed.

End Votes.

(** ** A process keeps its height *)

Lemma number_finished d p : p_number (finishedProcess d p) = p_number p.
Proof.
  unfold finishedProcess, startSendMineReq, startPosedReqSender.
  by destruct (rd_localVerifyResult d), NewResendMsgCtrl.
Qed.

Lemma number_DPOS p : p_number (processDPOSOnce p) = p_number p.
Proof.
  unfold processDPOSOnce. repeat (case_match; try done). by rewrite number_finished.
Qed.

Lemma number_startDPOS lv p : p_number (startDPOSVerify lv p) = p_number p.
Proof.
  unfold startDPOSVerify, bcFinishedProcess.
  repeat (case_match; try done); rewrite number_DPOS; simpl; try done;
    destruct (sendVote_frame n r true p) as (_ & _ & ? & _); done.
Qed.

Lemma number_startTxs d p : p_number (startTxsVerify d p) = p_number p.
Proof. unfold startTxsVerify, changeState. by repeat case_match. Qed.

Lemma number_startCommon p : p_number (startReqVerifyCommon p) = p_number p.
Proof.
  unfold startReqVerifyCommon, processReqOnce.
  repeat (case_match; try done); by rewrite ?number_startDPOS, ?number_startTxs.
Qed.

Lemma number_start_by_role p : p_number (start_by_role p) = p_number p.
Proof.
  assert (Hbc : forall l q, p_number (bc_loop l q) = p_number q).
  { induction l as [|id l IH]; intros q; [done|]. simpl. unfold bcProcessReqVerify, bcFinishedProcess.
    repeat (case_match; try done); by rewrite ?IH, ?number_startTxs. }
  unfold start_by_role, startReqVerifyBC.
  repeat (case_match; try done); by rewrite ?Hbc, ?number_startCommon.
Qed.

Lemma number_step p i : p_number (step p i) = p_number p.
Proof.
  destruct i as [r| |info|req|req| |header|result|seq|o]; simpl; try done.
  - unfold StartRunning, changeState. rewrite number_start_by_role. by case_match.
  - unfold SetLeaderInfo, stopProcess. repeat (case_match; try done); by rewrite number_startCommon.
  - unfold AddReq. repeat (case_match; try done). by rewrite number_start_by_role.
  - unfold AddLocalReq. by rewrite number_start_by_role.
  - apply number_DPOS.
  - assert (Hf : forall h l q, p_number (foldl (fun p sign => add_vote h sign p) q l) = p_number q).
    { intros h. induction l as [|sg l IH]; intros q; [done|]. simpl. by rewrite IH. }
    unfold ProcessRecoveryMsg. repeat (case_match; try done). by rewrite number_DPOS, Hf.
  - unfold VerifyTxs. repeat (case_match; try done); by rewrite number_startDPOS.
  - unfold ProcessTxsAcquireTimeOut. repeat (case_match; try done). by rewrite number_startDPOS.
Qed.

Lemma height_run number vp ins : p_number (run (newProcess number vp) ins) = number.
Proof.
  unfold run. induction ins as [|i ins IH] using rev_ind; [done|].
  by rewrite foldl_app; simpl; rewrite number_step.
Qed.

(** C3: A process that never runs as a broadcast node votes for at most one
    block per consensus turn of a leader in whose name it gets no local request
    (every leader but the node itself): however requests, votes, transactions,
    leader changes and restarts interleave, two votes it sends for that leader
    and the same turn are for the same request.  For the node's own turns this
    does not hold, as [self_leader_votes_twice] shows. *)
Theorem one_vote_per_turn number vp ins leader id1 id2 :
  Forall (fair_input leader) ins ->
  let p := run (newProcess number vp) ins in
  (leader, id1) ∈ voted p -> (leader, id2) ∈ voted p ->
  ReqCache.turn_at (cache p) id1 = ReqCache.turn_at (cache p) id2 -> id1 = id2.
Proof.
  cbn zeta. intros Hf.
  pose proof (run_inv leader ins number vp ins ltac:(done) Hf) as (_ & _ & _ & _ & _ & _ & _ & Hu).
  apply Hu.
Qed.

Definition validator_input (i : input) : Prop :=
  match i with InStart r => r <> RoleBroadcast | _ => True end.

(** A leader no local request is for. *)
Lemma fresh_leader ins : Forall validator_input ins -> exists L, Forall (fair_input L) ins.
Proof.
  intros Hv.
  set (ls := omap (fun i => match i with
    | InLocalReq req => Some (Leader (bcr_Header (lb_BlkVerifyConsensusReq req)))
    | _ => None end) ins).
  exists (fresh ls). apply Forall_forall. intros i Hi.
  rewrite Forall_forall in Hv. specialize (Hv i Hi). destruct i; try done.
  simpl. intros Heq. apply (infinite_is_fresh ls). rewrite <- Heq.
  apply list_elem_of_omap. by eexists.
Qed.

(** C27: A validator votes only for blocks it has verified, or proposed itself:
    every vote for a leader is for the hash of a local proposal, or the process
    was told of that leader and received a request of the leader's turn whose
    header has the voted hash, is timed within the window of that very
    notification and passes the header, election and topology checks, and
    executing the transactions it received gives a header with that hash. *)
Theorem votes_are_verified number vp ins leader id :
  Forall validator_input ins ->
  let p := run (newProcess number vp) ins in
  (leader, id) ∈ voted p ->
  exists d, get_req p id = Some d /\
    (proposed_here ins (rd_hash d) \/ verified_vote ins number leader (rd_hash d)).
Proof.
  cbn zeta. intros [L Hf]%fresh_leader Hin.
  pose proof (run_inv L ins number vp ins ltac:(done) Hf) as (_ & _ & _ & _ & _ & Hv & _).
  destruct (Hv leader id Hin) as (d & Hd & Hj). exists d. split; [done|].
  unfold justified in Hj. by rewrite height_run in Hj.
Qed.

(** ** What a process releases *)

Section Release.
Context (number : Z).

(** Every stored request is for the height of the process. *)
Definition sound_req (d : reqData) : Prop :=
  req_ok d /\ Uint64 (Number (bcr_Header (rd_req d))) = number.

(** Headers that leave for the miners, the broadcast nodes and the leader service. *)
Definition released (e : blkverify_event) : option Header :=
  match e with
  | MineReqSender header => Some header
  | PosedReqSender req => Some (bcr_Header req)
  | PublishPOSFinished notify => Some (pf_Header notify)
  | _ => None
  end.

(** An ordinary height whose validators the engine can read. *)
Definition ordinary : Prop :=
  readable reader number /\ Broadcast.IsBroadcastNumber number = false.

Definition certified (e : blkverify_event) : Prop :=
  ordinary -> forall header, released e = Some header -> VerifyBlock reader header = Ok tt.

Definition good (p : Process) : Prop :=
  p_number p = number /\ VotePool.pool_ok (pool p) /\
  (forall id d, get_req p id = Some d -> sound_req d) /\ Forall certified (p_out p).

Lemma good_emit p e : good p -> certified e -> good (emit p e).
Proof. intros (? & ? & ? & Ho) He. split_and!; try done. apply Forall_app. by repeat constructor. Qed.

Lemma good_put p id d d' :
  good p -> get_req p id = Some d -> sound_req d' -> good (put_req p id d').
Proof.
  intros (? & ? & Hr & ?) Hd Hs. split_and!; try done. intros j dj.
  rewrite (put_req_get p id d d' j Hd). case_decide; [by intros [= <-]|]. apply Hr.
Qed.

Lemma good_pool p vp : good p -> VotePool.pool_ok vp -> good (set_pool p vp).
Proof. intros (? & ? & ? & ?) ?. by split_and!. Qed.

Lemma good_senders p v m r : good p -> good (set_senders p v m r).
Proof. done. Qed.

Lemma good_add_vote h sg p : good p -> good (add_vote h sg p).
Proof. intros Hg. apply (good_pool (tick p)); [exact Hg|]. apply VotePool.AddVote_ok, Hg. Qed.

Lemma good_finished d p :
  good p -> (ordinary -> VerifyBlock reader (bcr_Header (rd_req d)) = Ok tt) ->
  good (finishedProcess d p).
Proof.
  intros Hg Hv.
  assert (He : forall e, released e = Some (bcr_Header (rd_req d)) -> certified e)
    by (intros e Hr Ho h Hh; rewrite Hr in Hh; injection Hh as <-; by apply Hv).
  assert (Hfin : forall q, good q ->
    good (set_state (set_pool q (VotePool.DelVotes (pool q) (rd_hash d))) StateEnd))
    by (intros q Hq; apply (good_pool q); [done|]; apply VotePool.DelVotes_ok, Hq).
  assert (Hs : forall q, good q -> good (startPosedReqSender (rd_req d)
                                      (startSendMineReq (bcr_Header (rd_req d)) q))).
  { intros q Hq. unfold startPosedReqSender, startSendMineReq. destruct NewResendMsgCtrl; [|exact Hq].
    apply good_emit, He; [|done]. apply good_senders, good_emit, He; [|done]. by apply good_senders. }
  unfold finishedProcess. destruct (rd_localVerifyResult d); try done; cbv zeta; apply Hfin, Hs.
  - apply good_emit; [done|by apply He].
  - exact Hg.
Qed.

Lemma good_processDPOSOnce `{!EngineSound E BroadCastNodes} p : good p -> good (processDPOSOnce p).
Proof.
  intros Hg. unfold processDPOSOnce. destruct (negb _); [done|].
  destruct (curProcessReq p) as [id|]; [|done]. simpl.
  destruct (get_req p id) as [d|] eqn:Hd; [|done].
  destruct (VerifyHashWithVerifiedSignsAndNumber _ _ _) as [rs|] eqn:Ev; [|done].
  pose proof Hg as (Hn & Hpool & Hreq & _). destruct (Hreq id d Hd) as [Hh Hnum].
  apply good_finished; [eapply good_put; [done|exact Hd|exact (Hreq id d Hd)]|].
  intros [Hrd Hb]. rewrite Hn, <- Hnum in Ev. rewrite <- Hnum in Hrd, Hb.
  eapply (block_certificate reader (bcr_Header (rd_req (set_signatures d rs)))
    (VotePool.GetVotes (pool p) (rd_hash d)) rs); try done.
  change (Types.HashNoSignsAndNonce (bcr_Header (rd_req (set_signatures d rs))))
    with (Types.HashNoSignsAndNonce (bcr_Header (rd_req d))).
  unfold req_ok in Hh. rewrite <- Hh. by apply VotePool.GetVotes_signs.
Qed.

Lemma good_sendVote id d v p : good p -> good (sendVote id d v p).
Proof.
  intros Hg. unfold sendVote. destruct (SignHashWithValidate _ _) as [sg|]; [|done]. cbv zeta.
  apply good_emit; [|done]. apply good_add_vote.
  unfold startVoteMsgSender. destruct NewResendMsgCtrl; [|exact Hg].
  apply (good_emit (set_senders p _ _ _)); [exact Hg|done].
Qed.

Section Steps.
Context `{!EngineSound E BroadCastNodes}.

Lemma good_startDPOSVerify lv p : good p -> good (startDPOSVerify lv p).
Proof.
  intros Hg. unfold startDPOSVerify. destruct (_ <=? _); [done|].
  destruct (curProcessReq p) as [id|]; [|done]. simpl.
  destruct (get_req p id) as [d|] eqn:Hd; [|done].
  pose proof Hg as (_ & _ & Hreq & _). pose proof (Hreq id d Hd) as Hs.
  destruct (role p =? RoleBroadcast).
  - unfold bcFinishedProcess.
    assert (Hp : good (put_req p id (set_result d lv))) by (by eapply good_put).
    destruct lv; try exact Hp. by apply (good_emit (put_req p id _)).
  - eapply good_processDPOSOnce.
    set (p1 := if bool_decide _ then _ else p).
    assert (Hp1 : good p1 /\ get_req p1 id = Some d).
    { unfold p1. case_bool_decide; [|done]. split; [by apply good_sendVote|].
      unfold get_req. by destruct (sendVote_frame id d true p) as [-> _]. }
    destruct Hp1 as [Hg1 Hd1]. by apply (good_put p1 id d).
Qed.

Lemma good_startTxsVerify d p : good p -> good (startTxsVerify d p).
Proof.
  intros Hg. unfold startTxsVerify, changeState. destruct (negb _); [done|].
  apply good_emit; [|done]. case_match; exact Hg.
Qed.

Lemma good_startReqVerifyCommon p : good p -> good (startReqVerifyCommon p).
Proof.
  intros Hg. unfold startReqVerifyCommon. destruct (negb _); [done|]. destruct (negb _); [done|].
  destruct (ReqCache.GetLeaderReq _ _ _) as [id|]; [|done].
  destruct (get_req p id) as [d|]; [|done]. unfold processReqOnce.
  set (p1 := set_state _ _). assert (Hg1 : good p1) by exact Hg.
  repeat (case_match; try (by apply good_startDPOSVerify)); [done|by apply good_startTxsVerify].
Qed.

Lemma good_bc_loop l p : good p -> good (bc_loop l p).
Proof.
  revert p. induction l as [|id l IH]; intros p Hg; [done|]. simpl.
  destruct (get_req p id) as [d|] eqn:Hd; [|by apply IH]. destruct (negb _); [by apply IH|].
  pose proof Hg as (_ & _ & Hreq & _). pose proof (Hreq id d Hd) as Hs.
  destruct (VerifyBlock _ _).
  - unfold bcProcessReqVerify, bcFinishedProcess. case_match; [exact Hg|].
    case_match; [|by apply good_startTxsVerify]. by apply (good_put p id d).
  - apply IH. by apply (good_put p id d).
Qed.

Lemma good_start_by_role p : good p -> good (start_by_role p).
Proof.
  intros Hg. unfold start_by_role, startReqVerifyBC.
  repeat (case_match; try done); [by apply good_bc_loop|by apply good_startReqVerifyCommon].
Qed.

Lemma good_VerifyTxs result p : good p -> good (VerifyTxs result p).
Proof.
  intros Hg. unfold VerifyTxs. destruct (negb _); [done|]. destruct (negb _); [done|].
  destruct (rt_Err result); [by apply good_startDPOSVerify|].
  destruct (curProcessReq p) as [id|]; [|done]. simpl.
  destruct (get_req p id) as [d|] eqn:Hd; [|done].
  pose proof Hg as (_ & _ & Hreq & _). pose proof (Hreq id d Hd) as Hs.
  set (d1 := set_txs d (rt_Rxs result)).
  assert (Hg1 : good (put_req p id d1)) by (by apply (good_put p id d)).
  destruct (execute _ _); [by apply good_startDPOSVerify|by apply good_startDPOSVerify|].
  case_match; apply good_startDPOSVerify; [done|].
  apply (good_put _ id d1); [done| |done]. by rewrite (put_req_get p id d), decide_True by done.
Qed.

(** A request of another height is not routed to this process. *)
Definition addressed (i : input) : Prop :=
  match i with
  | InReq req => Uint64 (Number (bcr_Header req)) = number
  | InLocalReq req => Uint64 (Number (bcr_Header (lb_BlkVerifyConsensusReq req))) = number
  | _ => True
  end.

Lemma good_cache p rc :
  good p -> (forall id d, store rc !! id = Some d -> sound_req d) -> good (set_cache p rc).
Proof. intros (? & ? & _ & ?) Hrc. by split_and!. Qed.

Lemma sound_app (l : list reqData) d0 :
  (forall id d, l !! id = Some d -> sound_req d) -> sound_req d0 ->
  forall id d, (l ++ [d0]) !! id = Some d -> sound_req d.
Proof.
  intros Hl H0' id d [Hd|[_ Hd]]%lookup_app_Some; [by eapply Hl|].
  apply list_lookup_singleton_Some in Hd as [_ <-]. done.
Qed.

Lemma good_SetLeaderInfo info p : good p -> good (SetLeaderInfo info p).
Proof.
  intros Hg. unfold SetLeaderInfo, stopProcess. destruct (negb _); [case_match; exact Hg|].
  destruct (_ && _); [exact Hg|]. cbv zeta.
  set (p1 := stopSender _).
  assert (Hg1 : good p1).
  { apply good_senders, good_cache; [exact Hg|]. destruct Hg as (_ & _ & Hreq & _).
    intros id d Hd. apply (Hreq id d). revert Hd. simpl. unfold ReqCache.SetCurTurn. by case_match. }
  case_match; [|done]. case_match; [by apply good_startReqVerifyCommon|done].
Qed.

Lemma good_step p i : addressed i -> good p -> good (step p i).
Proof.
  intros Ha Hg. destruct i as [r| |info|req|req| |header|result|seq|o]; simpl in *.
  - unfold StartRunning, changeState. apply good_start_by_role. case_match; exact Hg.
  - exact Hg.
  - by apply good_SetLeaderInfo.
  - unfold AddReq. destruct (ReqCache.AddReq (cache p) req) as [rc [e|]] eqn:Ea; [done|].
    apply good_start_by_role, good_cache; [done|]. unfold ReqCache.AddReq in Ea.
    assert (store rc = store (cache p) ++ [ReqCache.newReqData req]) as ->
      by (repeat case_match; simplify_eq/=; done).
    apply sound_app; [apply Hg|by split].
  - apply good_start_by_role, good_cache; [done|]. simpl. apply sound_app; [apply Hg|by split].
  - by eapply good_processDPOSOnce.
  - unfold ProcessRecoveryMsg. destruct (ReqCache.GetLeaderReqByHash _ _) as [id|]; [|done].
    destruct (get_req p id) as [d|]; [|done]. eapply good_processDPOSOnce.
    assert (Hg1 : good (set_pool p (VotePool.DelVotes (pool p) (rd_hash d))))
      by (apply good_pool; [done|]; apply VotePool.DelVotes_ok, Hg).
    revert Hg1. generalize (set_pool p (VotePool.DelVotes (pool p) (rd_hash d))).
    induction (Signatures header) as [|sg l IH]; intros q Hq; [done|]. simpl.
    by apply IH, good_add_vote.
  - by apply good_VerifyTxs.
  - unfold ProcessTxsAcquireTimeOut. repeat case_match; try done. by apply good_startDPOSVerify.
  - apply good_pool; [done|]. apply VotePool.run_op_ok, Hg.
Qed.

End Steps.
End Release.

(** Every header that a validator's process releases, to the miners, to the
    broadcast nodes or as a finished proof-of-stake round, passes the
    verification of the DPOS engine that any other node performs on it: it
    carries signatures of a quorum of the validators over its signing hash.
    (The process is that of an ordinary height and gets the requests of its
    height; the topology's stocks are within their width.) *)
Theorem released_headers_certified `{!EngineSound E BroadCastNodes} number legalRole ins :
  Forall (addressed number) ins -> ordinary number ->
  forall e header, e ∈ p_out (run (newProcess number (VotePool.NewVotePool legalRole)) ins) ->
    released e = Some header -> VerifyBlock reader header = Ok tt.
Proof.
  intros Ha Hord. set (p := run _ ins).
  assert (Hg : good number p).
  { unfold p, run. induction ins as [|i ins IH] using rev_ind.
    - split; [done|]. split; [apply VotePool.NewVotePool_ok|done].
    - apply Forall_app in Ha as [Ha Hi]. inversion Hi; subst. rewrite foldl_app. simpl.
      eapply good_step; try done. by apply IH. }
  destruct Hg as (_ & _ & _ & Ho). intros e header He. rewrite Forall_forall in Ho.
  by apply (Ho e He Hord).
Qed.

End Process.

(** ** Witnesses: account 1 of three validators, height 21, the toy signature scheme *)

Section Witnesses.
#[local] Instance toy : Crypto := Signature.toy_crypto.
#[local] Existing Instance sorted_range.
#[local] Instance engine3 : DPOSEngine := MtxDPOS [].
#[local] Instance unit_payload : Payload := {| Transactions := unit; Receipts := unit; StateDB := unit |}.
#[local] Instance no_elections : ReElection :=
  {| ElectInfo := unit; TopoInfo := unit; AlterInfo := unit;
     GetElection _ := Some tt; TransferToElectionStu _ := [];
     GetNetTopologyAll _ := None; TransferToNetTopologyAllStu _ := mkNetTopology 0 [];
     ParseTopNodeOffline _ _ := []; ParsePrimaryTopNodeState _ := ([], []);
     GetTopoChange _ _ := None; TransferToNetTopologyChgStu _ _ _ := mkNetTopology 0 [] |}.

Definition run3 (ins : list input) : Process :=
  run Dpos.reader3 (fun _ _ => None) (fun _ => true)
    (fun _ _ => Executed (Dpos.block3 21) tt tt) (fun _ b => Some (if b then 256%N else 257%N))
    true (fun _ => 1000) (newProcess 21 (VotePool.NewVotePool RoleValidator)) ins.

Definition leader3 (state : bool) : input :=
  InLeader (mkLeaderChange state 3%N 1%N 21 0 0 0 100).

(** A block is verified and voted for; the leader is suspended and confirmed
    again, and the same block is voted for again; the other votes arrive. *)
Definition scenario3 : list input :=
  [InStart RoleValidator; leader3 true; InReq (mkBlkConsensusReq 3%N (Dpos.block3 21) 0 []);
   InTxs (mkRetChan tt false 1); leader3 false; leader3 true; InTxs (mkRetChan tt false 2);
   InPool (VotePool.OpAdd 1000 (Types.HashNoSignsAndNonce (Dpos.block3 21)) 512%N 2%N true); InDPOS;
   InPool (VotePool.OpAdd 1001 (Types.HashNoSignsAndNonce (Dpos.block3 21)) 768%N 3%N true); InDPOS].

Lemma one_vote_per_turn_witness :
  voted (run3 scenario3) = [(3%N, 0%nat); (3%N, 0%nat)] /\ 0%nat = 0%nat.
Proof.
  split; [vm_compute; reflexivity|].
  refine (one_vote_per_turn Dpos.reader3 (fun _ _ => None) (fun _ => true)
    (fun _ _ => Executed (Dpos.block3 21) tt tt) (fun _ b => Some (if b then 256%N else 257%N))
    true (fun _ => 1000) 21 (VotePool.NewVotePool RoleValidator) scenario3 3%N 0%nat 0%nat _ _ _ _).
  - repeat constructor; discriminate.
  - apply (bool_decide_unpack _). vm_compute. exact I.
  - apply (bool_decide_unpack _). vm_compute. exact I.
  - reflexivity.
Defined.

(** A leader's own process: a second local request of the turn replaces the
    first, and after its leadership is suspended and confirmed again, the
    process votes for the second block as well. *)
Definition own_request (gas : Z) : input :=
  InLocalReq (mkLocalReq (mkBlkConsensusReq 1%N
    (mkHeader 1 2 1 4 5 6 7 8 9 21 11 gas 13 [] (mkNetTopology 1 []) [] [] 0 0 []) 0 []) tt tt tt).

Lemma self_leader_votes_twice :
  let lead state := InLeader (mkLeaderChange state 1%N 2%N 21 0 0 0 100) in
  let p := run3 [InStart RoleValidator; lead true; own_request 1; own_request 2;
                 lead false; lead true] in
  voted p = [(1%N, 0%nat); (1%N, 1%nat)] /\
  ReqCache.turn_at (cache p) 0 = ReqCache.turn_at (cache p) 1 /\
  rd_hash <$> get_req p 0 <> rd_hash <$> get_req p 1.
Proof. vm_compute. split_and!; [reflexivity|reflexivity|discriminate]. Qed.

Lemma votes_are_verified_witness :
  exists d, get_req (run3 scenario3) 0 = Some d /\
    (proposed_here scenario3 (rd_hash d) \/
     verified_vote (fun _ _ => None) (fun _ => true)
       (fun _ _ => Executed (Dpos.block3 21) tt tt) scenario3 21 3%N (rd_hash d)).
Proof.
  refine (votes_are_verified Dpos.reader3 (fun _ _ => None) (fun _ => true)
    (fun _ _ => Executed (Dpos.block3 21) tt tt) (fun _ b => Some (if b then 256%N else 257%N))
    true (fun _ => 1000) 21 (VotePool.NewVotePool RoleValidator) scenario3 3%N 0%nat _ _).
  - repeat constructor; discriminate.
  - apply (bool_decide_unpack _). vm_compute. exact I.
Defined.

Lemma released_headers_certified_witness :
  length (omap released (p_out (run3 scenario3))) = 3%nat /\
  forall e header, e ∈ p_out (run3 scenario3) -> released e = Some header ->
    VerifyBlock Dpos.reader3 header = Ok tt.
Proof.
  split; [vm_compute; reflexivity|].
  refine (released_headers_certified (BroadCastNodes := []) Dpos.reader3 (fun _ _ => None)
    (fun _ => true) (fun _ _ => Executed (Dpos.block3 21) tt tt)
    (fun _ b => Some (if b then 256%N else 257%N)) true (fun _ => 1000) 21 RoleValidator scenario3
    _ _).
  - repeat constructor.
  - split; [|reflexivity]. intros g [= <-]. apply (Dpos.graph3_fits 20).
Defined.

End Witnesses.
End BlkVerify.
