(* ===== verification/BlkManager.v ===== *)
(** * Package [blkconsensus/blkverify]: the block verification service

    Models process_manage.go and block_verify.go.  Every message is handled by
    a goroutine; the methods of the manager, of the vote pool and of a process
    each run under their own mutex.  A task is the rest of a handler, and one
    action runs one task through its next critical section, so the sections of
    different handlers interleave freely.  Processes are objects, referred to
    by their index; the vote pool is shared by all of them.  The results of
    fetching transactions arrive as messages to a process. *)

From S2P Require Import Prelude Common Crypto Types Topology Dpos VotePool Engine Controller Service.
From S2P Require Import ReqCache BlkVerify.

Record ProcessManage `{Payload} := mkPM {
  pm_curNumber : Z;
  processMap : gmap Z nat;
  processes : list Process;
  votePool : VotePool.VotePool
}.
Arguments mkPM {_}.

(** The rest of a handler. *)
Inductive task `{Payload} :=
| TRole (number r : Z)                       (* SetCurNumber, then start *)
| TCurrent (i : BlkVerify.input)             (* GetCurrentProcess, then its method *)
| TGet (number : Z) (i : BlkVerify.input)    (* GetProcess, then its method *)
| TVote (signHash : Hash) (sign : Signature) (from : Address)
| TRecovery (header : Header)
| TOn (id : nat) (i : BlkVerify.input).      (* a method of a process *)
Arguments TRole {_}.
Arguments TCurrent {_}.
Arguments TGet {_}.
Arguments TVote {_}.
Arguments TRecovery {_}.
Arguments TOn {_}.

Record BlockVerify `{Payload} := mkBV {
  processManage : ProcessManage;
  bv_tasks : list task
}.
Arguments mkBV {_}.

Module BlkManager.
Section BlkManager.
Context `{Payload} `{GoRange} `{Crypto} `{E : DPOSEngine} `{ReElection}.
Context (reader : ValidatorReader) (GetTopologyByNumber : Z -> Z -> option TopologyGraph).
Context (VerifyHeader : Header -> bool) (execute : Header -> Transactions -> executed).
Context (SignHashWithValidate : Hash -> bool -> option Signature).
Context (NewResendMsgCtrl : bool) (clock : nat -> Z) (now : nat -> Z).

Abbreviation pstep := (BlkVerify.step reader GetTopologyByNumber VerifyHeader execute
  SignHashWithValidate NewResendMsgCtrl clock).

Definition NewProcessManage : ProcessManage :=
  mkPM 0 ∅ [] (VotePool.NewVotePool RoleValidator).

Definition fixProcessMap (pm : ProcessManage) : ProcessManage :=
  let old := filter (fun kv => kv.1 < pm_curNumber pm) (range (processMap pm)) in
  mkPM (pm_curNumber pm) (foldl (fun m kv => delete kv.1 m) (processMap pm) old)
    (foldl (fun ps kv => alter BlkVerify.Close kv.2 ps) (processes pm) old) (votePool pm).

Definition SetCurNumber (number : Z) (pm : ProcessManage) : ProcessManage :=
  let pm := mkPM number (processMap pm) (processes pm) (votePool pm) in
  if bool_decide (size (processMap pm) = 0%nat) then pm else fixProcessMap pm.

Definition getProcess (number : Z) (pm : ProcessManage) : ProcessManage * nat :=
  match processMap pm !! number with
  | Some id => (pm, id)
  | None =>
      let id := length (processes pm) in
      (mkPM (pm_curNumber pm) (<[number := id]> (processMap pm))
         (processes pm ++ [BlkVerify.newProcess number (votePool pm)]) (votePool pm), id)
  end.

Definition GetCurrentProcess (pm : ProcessManage) : ProcessManage * nat :=
  getProcess (pm_curNumber pm) pm.

Definition isLegalNumber (number : Z) (pm : ProcessManage) : bool :=
  negb (number <? pm_curNumber pm) && negb (u64 (pm_curNumber pm + 2) <? number).

Definition GetProcess (number : Z) (pm : ProcessManage) : option (ProcessManage * nat) :=
  if isLegalNumber number pm then Some (getProcess number pm) else None.

Definition AddVoteToPool (t : Z) (signHash : Hash) (sign : Signature) (from : Address)
    (pm : ProcessManage) : ProcessManage * bool :=
  let '(vp, err) := VotePool.AddVote (votePool pm) t signHash sign from true in
  (mkPM (pm_curNumber pm) (processMap pm) (processes pm) vp,
   match err with None => true | Some _ => false end).

(** A method of a process, on the shared pool. *)
Definition on_process (id : nat) (i : BlkVerify.input) (pm : ProcessManage) : ProcessManage :=
  match processes pm !! id with
  | None => pm
  | Some p =>
      let p' := pstep (BlkVerify.set_pool p (votePool pm)) i in
      mkPM (pm_curNumber pm) (processMap pm) (<[id := p']> (processes pm)) (pool p')
  end.

(** The handlers of block_verify.go, up to their first critical section. *)
Definition handleRoleUpdatedMsg (msg : RoleUpdatedMsg) : list task :=
  [TRole (u64 (ru_BlockNum msg + 1)) (ru_Role msg)].

Definition handleLeaderChangeNotify (msg : LeaderChangeNotify) : list task :=
  [TGet (lcn_Number msg) (BlkVerify.InLeader msg)].

Definition handleRequestMsg (req : HD_BlkConsensusReqMsg) : list task :=
  if bool_decide (Leader (bcr_Header req) = 0%N) then []
  else [TGet (Uint64 (Number (bcr_Header req))) (BlkVerify.InReq req)].

Definition handleLocalRequestMsg (req : LocalBlockVerifyConsensusReq) : list task :=
  let header := bcr_Header (lb_BlkVerifyConsensusReq req) in
  if bool_decide (Leader header = 0%N) then []
  else [TGet (Uint64 (Number header)) (BlkVerify.InLocalReq req)].

Definition handleVoteMsg (vote : HD_ConsensusVote) : list task :=
  [TVote (cv_SignHash vote) (cv_Sign vote) (cv_From vote)].

Definition handleRecoveryMsg (header : Header) : list task := [TRecovery header].

Inductive bv_input :=
| RoleUpdated (msg : RoleUpdatedMsg)
| LeaderChanged (msg : LeaderChangeNotify)
| Request (req : HD_BlkConsensusReqMsg)
| LocalRequest (req : LocalBlockVerifyConsensusReq)
| Vote (vote : HD_ConsensusVote)
| Recovery (header : Header).

(** [update]: the goroutine a message starts. *)
Definition update (e : bv_input) : list task :=
  match e with
  | RoleUpdated msg => handleRoleUpdatedMsg msg
  | LeaderChanged msg => handleLeaderChangeNotify msg
  | Request req => handleRequestMsg req
  | LocalRequest req => handleLocalRequestMsg req
  | Vote vote => handleVoteMsg vote
  | Recovery header => handleRecoveryMsg header
  end.

(** One critical section of a task, and what remains of it. *)
Definition run_task (k : nat) (t : task) (pm : ProcessManage) : ProcessManage * list task :=
  match t with
  | TRole number r =>
      (SetCurNumber number pm,
       if (r =? RoleValidator) || (r =? RoleBroadcast) then [TCurrent (BlkVerify.InStart r)] else [])
  | TCurrent i => let '(pm, id) := GetCurrentProcess pm in (pm, [TOn id i])
  | TGet number i =>
      match GetProcess number pm with
      | None => (pm, [])
      | Some (pm, id) => (pm, [TOn id i])
      end
  | TVote h s from =>
      let '(pm, ok) := AddVoteToPool (now k) h s from pm in
      (pm, if ok : bool then [TCurrent BlkVerify.InDPOS] else [])
  | TRecovery header =>
      let '(pm, id) := GetCurrentProcess pm in
      (pm, match processes pm !! id with
           | Some p => if p_number p =? Uint64 (Number header)
                       then [TOn id (BlkVerify.InRecovery header)] else []
           | None => []
           end)
  | TOn id i => (on_process id i pm, [])
  end.

(** What can happen next: a message, a task going on ([k] also names the clock
    reading it may take), transactions fetched for a process or timed out. *)
Inductive action :=
| AReceive (e : bv_input)
| ATask (k : nat)
| ATxs (id : nat) (result : RetChan)
| ATimeout (id : nat) (seq : Z).

Definition bv_step (s : BlockVerify) (a : action) : BlockVerify :=
  match a with
  | AReceive e => mkBV (processManage s) (bv_tasks s ++ update e)
  | ATask k =>
      match bv_tasks s !! k with
      | None => s
      | Some t =>
          let '(pm, rest) := run_task k t (processManage s) in
          mkBV pm (delete k (bv_tasks s) ++ rest)
      end
  | ATxs id result => mkBV (on_process id (BlkVerify.InTxs result) (processManage s)) (bv_tasks s)
  | ATimeout id seq => mkBV (on_process id (BlkVerify.InTxsTimeout seq) (processManage s)) (bv_tasks s)
  end.

Definition bv_run (s : BlockVerify) (acts : list action) : BlockVerify := foldl bv_step s acts.
Definition NewBlockVerify : BlockVerify := mkBV NewProcessManage [].

(** ** Routing, and certification for the whole service *)

(** A process and what is on its way to it. *)
Definition input_for (number : Z) (i : BlkVerify.input) : Prop := BlkVerify.addressed number i.

Definition task_ok (ps : list Process) (t : task) : Prop :=
  match t with
  | TCurrent i => forall number, input_for number i
  | TGet number i => input_for number i
  | TOn id i => exists p, ps !! id = Some p /\ input_for (p_number p) i
  | _ => True
  end.

Definition process_ok (p : Process) : Prop := BlkVerify.good reader (p_number p) p.

Definition pm_ok (pm : ProcessManage) : Prop :=
  VotePool.pool_ok (votePool pm) /\
  (forall id p, processes pm !! id = Some p -> process_ok p) /\
  (forall number id, processMap pm !! number = Some id ->
     exists p, processes pm !! id = Some p /\ p_number p = number).

Definition bv_ok (s : BlockVerify) : Prop :=
  pm_ok (processManage s) /\ Forall (task_ok (processes (processManage s))) (bv_tasks s).

(** Processes stay where they are and keep their height. *)
Definition extends (ps ps' : list Process) : Prop :=
  forall id p, ps !! id = Some p -> exists p', ps' !! id = Some p' /\ p_number p' = p_number p.

Lemma task_ok_extends ps ps' t : extends ps ps' -> task_ok ps t -> task_ok ps' t.
Proof.
  intros He. destruct t; simpl; try done. intros (p & Hp & Hi).
  destruct (He id p Hp) as (p' & Hp' & Hn). exists p'. by rewrite Hn.
Qed.

Lemma process_ok_new number vp : VotePool.pool_ok vp -> process_ok (BlkVerify.newProcess number vp).
Proof. intros Hv. by split_and!. Qed.

Lemma getProcess_ok number pm pm' id :
  pm_ok pm -> getProcess number pm = (pm', id) ->
  pm_ok pm' /\ extends (processes pm) (processes pm') /\
  exists p, processes pm' !! id = Some p /\ p_number p = number.
Proof.
  intros (Hv & Hp & Hm). unfold getProcess.
  destruct (processMap pm !! number) as [id0|] eqn:El; intros [= <- <-].
  { split; [by split_and!|]. split; [intros j p; eauto|by apply Hm]. }
  set (new := BlkVerify.newProcess number (votePool pm)).
  assert (He : extends (processes pm) (processes pm ++ [new])).
  { intros j p Hl. exists p. split; [by apply lookup_app_l_Some|done]. }
  split; [|split; [done|exists new; split; [by apply list_lookup_middle|done]]].
  split_and!; simpl; [done| |].
  - intros j p [Hl|[_ Hl]]%lookup_app_Some; [by apply (Hp j)|].
    apply list_lookup_singleton_Some in Hl as [_ <-]. by apply process_ok_new.
  - intros n j [[<- <-]|[_ Hl]]%lookup_insert_Some.
    + exists new. split; [by apply list_lookup_middle|done].
    + destruct (Hm n j Hl) as (p & Hlp & Hn). destruct (He j p Hlp) as (p' & ? & ?).
      exists p'. split; [done|congruence].
Qed.

Lemma on_process_ok `{!EngineSound E BroadCastNodes} id i pm p :
  pm_ok pm -> processes pm !! id = Some p -> input_for (p_number p) i ->
  pm_ok (on_process id i pm) /\ extends (processes pm) (processes (on_process id i pm)).
Proof.
  intros (Hv & Hp & Hm) Hl Hi. unfold on_process. rewrite Hl. cbv zeta.
  set (p' := pstep (BlkVerify.set_pool p (votePool pm)) i).
  assert (Hn : p_number p' = p_number p)
    by exact (BlkVerify.number_step _ _ _ _ _ _ _ (BlkVerify.set_pool p (votePool pm)) i).
  assert (Hok : process_ok p').
  { unfold process_ok. rewrite Hn. eapply BlkVerify.good_step; [eassumption|exact Hi|].
    apply BlkVerify.good_pool; [by apply (Hp id)|done]. }
  assert (He : extends (processes pm) (<[id := p']> (processes pm))).
  { intros j q Hq. destruct (decide (j = id)) as [->|].
    - exists p'. split; [apply list_lookup_insert_eq; by eapply lookup_lt_Some|congruence].
    - exists q. by rewrite list_lookup_insert_ne. }
  split; [|exact He]. split_and!; simpl; [apply Hok| |].
  - intros j q [(_ & <- & _)|[_ Hq]]%list_lookup_insert_Some; [done|by apply (Hp j)].
  - intros n j (q & Hq & <-)%Hm. destruct (He j q Hq) as (q' & ? & ?). eauto.
Qed.

Lemma fixProcessMap_ok pm :
  pm_ok pm -> pm_ok (fixProcessMap pm) /\ extends (processes pm) (processes (fixProcessMap pm)).
Proof.
  intros (Hv & Hp & Hm). unfold fixProcessMap. cbv zeta.
  set (old := filter _ _). clearbody old.
  assert (Hps : forall l ps, (forall id p, ps !! id = Some p -> process_ok p) ->
    let ps' := foldl (fun (ps : list Process) (kv : Z * nat) => alter BlkVerify.Close kv.2 ps) ps l in
    (forall id p, ps' !! id = Some p -> process_ok p) /\ extends ps ps').
  { induction l as [|[k j] l IH]; intros ps Hok; [split; [done|intros id p; eauto]|]. simpl.
    destruct (IH (alter BlkVerify.Close j ps)) as [Hok' He].
    - intros id p Hl. destruct (decide (id = j)) as [->|].
      + rewrite list_lookup_alter_eq in Hl. destruct (ps !! j) as [q|] eqn:Eq; [|done].
        injection Hl as <-. exact (Hok j q Eq).
      + rewrite list_lookup_alter_ne in Hl by done. by apply (Hok id).
    - split; [done|]. intros id p Hl. destruct (decide (id = j)) as [->|].
      + destruct (He j (BlkVerify.Close p)) as (p' & ? & ?); [by rewrite list_lookup_alter_eq, Hl|eauto].
      + apply He. by rewrite list_lookup_alter_ne. }
  destruct (Hps old (processes pm) Hp) as [Hok He]. split; [|exact He]. split_and!; simpl; [done|done|].
  intros n id Hl.
  assert (Hsub : forall l (m : gmap Z nat) n id,
    foldl (fun m (kv : Z * nat) => delete kv.1 m) m l !! n = Some id -> m !! n = Some id).
  { clear. induction l as [|[k j] l IH]; intros m n id Hl; [done|]. simpl in Hl.
    apply IH, lookup_delete_Some in Hl. by destruct Hl. }
  apply Hsub in Hl. destruct (Hm n id Hl) as (p & Hlp & Hn).
  destruct (He id p Hlp) as (p' & ? & ?). exists p'. split; [done|congruence].
Qed.

Lemma SetCurNumber_ok n pm :
  pm_ok pm -> pm_ok (SetCurNumber n pm) /\ extends (processes pm) (processes (SetCurNumber n pm)).
Proof.
  intros Hok. unfold SetCurNumber. case_match.
  - split; [exact Hok|]. intros id p. eauto.
  - by apply (fixProcessMap_ok (mkPM n (processMap pm) (processes pm) (votePool pm))).
Qed.

Lemma run_task_ok `{!EngineSound E BroadCastNodes} k t pm pm' rest :
  pm_ok pm -> task_ok (processes pm) t -> run_task k t pm = (pm', rest) ->
  pm_ok pm' /\ extends (processes pm) (processes pm') /\ Forall (task_ok (processes pm')) rest.
Proof.
  intros Hok Ht. destruct t as [number r|i|number i|h sg from|header|id i]; cbn [run_task].
  - intros [= <- <-]. destruct (SetCurNumber_ok number pm Hok) as [? ?]. split_and!; try done.
    case_match; by repeat constructor.
  - destruct (GetCurrentProcess pm) as [pm1 id] eqn:Eg. intros [= <- <-].
    destruct (getProcess_ok _ _ _ _ Hok Eg) as (? & ? & p & Hp & Hn). split_and!; try done.
    constructor; [|constructor]. exists p. split; [done|]. apply Ht.
  - unfold GetProcess. destruct (isLegalNumber number pm); [|intros [= <- <-]; split_and!; [done|intros id p; eauto|constructor]].
    destruct (getProcess number pm) as [pm1 id] eqn:Eg. intros [= <- <-].
    destruct (getProcess_ok _ _ _ _ Hok Eg) as (? & ? & p & Hp & Hn). split_and!; try done.
    constructor; [|constructor]. exists p. split; [done|]. by rewrite Hn.
  - unfold AddVoteToPool.
    pose proof (VotePool.AddVote_ok (votePool pm) (now k) h sg from true (proj1 Hok)) as Hv.
    destruct (VotePool.AddVote _ _ _ _ _ _) as [vp err]. simpl in Hv. intros [= <- <-].
    destruct Hok as (_ & Hp & Hm). split_and!; try done; [intros id p; eauto|].
    case_match; by repeat constructor.
  - destruct (GetCurrentProcess pm) as [pm1 id] eqn:Eg. intros [= <- <-].
    destruct (getProcess_ok _ _ _ _ Hok Eg) as (? & ? & p & Hp & Hn). split_and!; try done.
    rewrite Hp. case_match; [|constructor]. constructor; [|constructor]. by exists p.
  - intros [= <- <-]. destruct Ht as (p & Hp & Hi).
    destruct (on_process_ok id i pm p Hok Hp Hi) as [? ?]. by split_and!.
Qed.

Lemma update_ok ps e : Forall (task_ok ps) (update e).
Proof.
  destruct e; simpl; try (by repeat constructor).
  - unfold handleRequestMsg. case_match; by repeat constructor.
  - unfold handleLocalRequestMsg. case_match; by repeat constructor.
Qed.

Lemma bv_step_ok `{!EngineSound E BroadCastNodes} s a : bv_ok s -> bv_ok (bv_step s a).
Proof.
  intros [Hok Ht]. assert (Hon : forall id i, (forall n, input_for n i) ->
    bv_ok (mkBV (on_process id i (processManage s)) (bv_tasks s))).
  { intros id i Hi. destruct (processes (processManage s) !! id) as [p|] eqn:Ep.
    - destruct (on_process_ok id i _ p Hok Ep (Hi _)) as [Hok' He]. split; [done|].
      eapply Forall_impl; [exact Ht|]. intros t. by apply task_ok_extends.
    - unfold on_process. rewrite Ep. by split. }
  destruct a as [e|k|id result|id seq]; simpl.
  - split; [done|]. apply Forall_app. split; [done|apply update_ok].
  - destruct (bv_tasks s !! k) as [t|] eqn:Ek; [|by split].
    destruct (run_task k t (processManage s)) as [pm rest] eqn:Er.
    destruct (run_task_ok k t _ _ _ Hok (Forall_lookup_1 _ _ _ _ Ht Ek) Er) as (Hok' & He & Hr).
    split; [done|]. apply Forall_app. split; [|done]. apply Forall_delete.
    eapply Forall_impl; [exact Ht|]. intros t'. by apply task_ok_extends.
  - by apply Hon.
  - by apply Hon.
Qed.

(** C1: Whatever messages reach the block verification service and however
    its handlers interleave, every header that any of its processes releases at
    an ordinary height passes the verification of the DPOS engine, and every
    process only ever gets requests of its own height. *)
Theorem service_releases_certified `{!EngineSound E BroadCastNodes} acts id p e header :
  let s := bv_run NewBlockVerify acts in
  processes (processManage s) !! id = Some p ->
  readable reader (p_number p) -> Broadcast.IsBroadcastNumber (p_number p) = false ->
  e ∈ p_out p -> BlkVerify.released e = Some header -> VerifyBlock reader header = Ok tt.
Proof.
  cbn zeta. intros Hp Hr Hb He Hh.
  assert (Hok : bv_ok (bv_run NewBlockVerify acts)).
  { unfold bv_run. clear Hp Hr Hb He Hh. induction acts as [|a acts IH] using rev_ind.
    - split; [|constructor]. split_and!; simpl; [apply VotePool.NewVotePool_ok| |].
      + intros j q Hl. by rewrite lookup_nil in Hl.
      + intros n j Hl. by rewrite lookup_empty in Hl.
    - rewrite foldl_app. simpl. by eapply bv_step_ok. }
  destruct Hok as ((_ & Hps & _) & _). destruct (Hps id p Hp) as (_ & _ & _ & Ho).
  rewrite Forall_forall in Ho. by apply (Ho e He).
Qed.

End BlkManager.

(** ** Witnesses: account 1 of three validators, the toy signature scheme *)

Section Witnesses.
#[local] Instance toy : Crypto := Signature.toy_crypto.
#[local] Existing Instance sorted_range.
#[local] Instance engine3 : DPOSEngine := MtxDPOS [].
#[local] Instance unit_payload : Payload := {| Transactions := unit; Receipts := unit; StateDB := unit |}.
#[local] Instance no_elections : ReElection :=
  {| ElectInfo := unit; TopoInfo := unit; AlterInfo := unit;
     GetElection _ := Some tt; TransferToElectionStu _ := [];
     GetNetTopologyAll _ := None; TransferToNetTopologyAllStu _ := mkNetTopology 0 [];
     ParseTopNodeOffline _ _ := []; ParsePrimaryTopNodeState _ := ([], []);
     GetTopoChange _ _ := None; TransferToNetTopologyChgStu _ _ _ := mkNetTopology 0 [] |}.

Definition run3 (acts : list action) : BlockVerify :=
  bv_run Dpos.reader3 (fun _ _ => None) (fun _ => true) (fun h _ => Executed h tt tt)
    (fun _ b => Some (if b then 256%N else 257%N)) true (fun _ => 1000) (fun _ => 1000)
    NewBlockVerify acts.

(** A message, handled to the end. *)
Definition deliver (e : bv_input) : list action := [AReceive e; ATask 0; ATask 0; ATask 0].
Definition role_at (number : Z) : list action :=
  deliver (RoleUpdated (mkRoleUpdated RoleValidator (number - 1) 1%N 3%N)).
Definition leader_at (number : Z) : list action :=
  deliver (LeaderChanged (mkLeaderChange true 3%N 1%N number 0 0 0 100)).

(** A block of leader 3 at height 21. *)
Definition block_with (extra : Z) : Header :=
  mkHeader 1 2 3 4 5 6 7 8 9 21 11 0 13 [] (mkNetTopology 1 []) [] [extra] 0 0 [].
Definition request_with (extra : Z) : list action :=
  deliver (Request (mkBlkConsensusReq 3%N (block_with extra) 0 [])).
Definition vote_with (extra : Z) (sign : Signature) (from : Address) : list action :=
  deliver (Vote (mkVote (Types.HashNoSignsAndNonce (block_with extra)) 21 sign from)).

Definition scenario3 : list action :=
  role_at 21 ++ leader_at 21 ++ request_with 7 ++ [ATxs 0 (mkRetChan tt false 1)] ++
  vote_with 7 512%N 2%N ++ vote_with 7 768%N 3%N.

(** The process of height 21, and the header it gives to the miners. *)
Definition proc3 : Process :=
  default (BlkVerify.newProcess 0 (VotePool.NewVotePool 0))
    (processes (processManage (run3 scenario3)) !! 0%nat).
Definition mined3 : Header := default (block_with 0) (mineReqMsgSender proc3).

Lemma service_releases_certified_witness :
  length (Signatures mined3) = 3%nat /\ VerifyBlock Dpos.reader3 mined3 = Ok tt.
Proof.
  split; [vm_compute; reflexivity|].
  refine (service_releases_certified (BroadCastNodes := []) Dpos.reader3 (fun _ _ => None)
    (fun _ => true) (fun h _ => Executed h tt tt) (fun _ b => Some (if b then 256%N else 257%N))
    true (fun _ => 1000) (fun _ => 1000) scenario3 0%nat proc3 (MineReqSender mined3) mined3 _ _ _ _ _).
  - vm_compute. reflexivity.
  - intros g [= <-]. apply (Dpos.graph3_fits 20).
  - vm_compute. reflexivity.
  - apply (list_elem_of_lookup_2 _ 4). vm_compute. reflexivity.
  - reflexivity.
Defined.

(** The manager follows the height of the role messages down as well as up.
    After a message for a lower height the process of that height is a new
    object, and the node votes for a second block of the same leader and turn. *)
Lemma rollback_votes_twice :
  let s := run3 (role_at 21 ++ leader_at 21 ++ request_with 7 ++ [ATxs 0 (mkRetChan tt false 1)] ++
                 role_at 22 ++ role_at 21 ++ leader_at 21 ++ request_with 8 ++
                 [ATxs 2 (mkRetChan tt false 1)]) in
  let vote id := p ← processes (processManage s) !! id;
                 d ← BlkVerify.get_req p 0; Some (p_number p, voted p, rd_hash d) in
  vote 0%nat = Some (21, [(3%N, 0%nat)], Types.HashNoSignsAndNonce (block_with 7)) /\
  vote 2%nat = Some (21, [(3%N, 0%nat)], Types.HashNoSignsAndNonce (block_with 8)) /\
  Types.HashNoSignsAndNonce (block_with 7) <> Types.HashNoSignsAndNonce (block_with 8).
Proof. cbv zeta. split_and!; vm_compute; [reflexivity|reflexivity|discriminate]. Qed.

End Witnesses.
End BlkManager.
