(* ===== verification/PowPool.v ===== *)
(** * Package [blockgenor]: the pool of mining results and the block cache

    Models pow_pool.go and blockCache.go.  The pool keeps the results of miners
    by signing hash, difficulty and sender, and bounds the number of results of
    a sender; the cache keeps the verified block of each leader.  The nested
    maps of the pool are objects that only the pool refers to, so an update of
    an inner map is an update of the pool.  The mutex makes each exported method
    of the pool one step. *)

From S2P Require Import Prelude Common Crypto Types VotePool Controller ReqCache BlkVerify.

(** [mc.HD_MiningRspMsg]. *)
Record HD_MiningRspMsg := mkMiningRsp {
  mr_From : Address;
  mr_Number : Z;
  mr_BlockHash : Hash;
  mr_Difficulty : Z;
  mr_Nonce : N;
  mr_Coinbase : Address;
  mr_MixDigest : Hash;
  mr_Signatures : list Signature
}.

(** [resultMap]: the results by difficulty and sender. *)
Abbreviation blockPowCache := (gmap Hash (gmap Address HD_MiningRspMsg)).

Record PowPool := mkPowPool {
  powMap : gmap Hash blockPowCache;
  countMap : gmap Address Z;
  countLimit : Z
}.

Module PowPool.

Inductive error := ErrPowExist | ErrTooMany | ErrNoHash | ErrNoDiff.

(** [BytesToHash(diff.Bytes())]: the last 32 bytes of the absolute value. *)
Definition diffHash (diff : Z) : Hash := Z.to_N (Z.abs diff mod 2 ^ 256).

Section PowPool.
Context `{GoRange}.

(** ** One signing hash *)

(** The inner map is created even when the result is refused. *)
Definition addPow (diff : Z) (r : HD_MiningRspMsg) (bpc : blockPowCache) : blockPowCache * option error :=
  let fromMap := default ∅ (bpc !! diffHash diff) in
  match fromMap !! mr_From r with
  | Some _ => (<[diffHash diff := fromMap]> bpc, Some ErrPowExist)
  | None => (<[diffHash diff := <[mr_From r := r]> fromMap]> bpc, None)
  end.

Definition delPow (diff : Z) (from : Address) (bpc : blockPowCache) : blockPowCache * bool :=
  match bpc !! diffHash diff with
  | None => (bpc, false)
  | Some fromMap =>
      let after := delete from fromMap in
      (<[diffHash diff := after]> bpc, negb (bool_decide (size fromMap = size after)))
  end.

Definition getPow (diff : Z) (bpc : blockPowCache) : res error (list HD_MiningRspMsg) :=
  match bpc !! diffHash diff with
  | None => Err ErrNoDiff
  | Some fromMap => if bool_decide (size fromMap = 0%nat) then Err ErrNoDiff else Ok (range_values fromMap)
  end.

(** ** The pool *)

Definition NewPowPool : PowPool := mkPowPool ∅ ∅ VotePool.VotePoolCountLimit.

Definition set_powMap (p : PowPool) (m : gmap Hash blockPowCache) : PowPool :=
  mkPowPool m (countMap p) (countLimit p).

Definition getFromCount (p : PowPool) (a : Address) : Z := default 0 (countMap p !! a).

Definition plusFromCount (a : Address) (p : PowPool) : PowPool :=
  mkPowPool (powMap p)
    (<[a := match countMap p !! a with None => 1 | Some count => count + 1 end]> (countMap p))
    (countLimit p).

Definition minusFromCount (a : Address) (p : PowPool) : PowPool :=
  match countMap p !! a with
  | None => p
  | Some count =>
      mkPowPool (powMap p) (<[a := if 0 <? count then count - 1 else 0]> (countMap p)) (countLimit p)
  end.

Definition AddMinerResult (blockHash : Hash) (diff : Z) (r : HD_MiningRspMsg) (p : PowPool)
    : PowPool * option error :=
  if countLimit p <=? getFromCount p (mr_From r) then (p, Some ErrTooMany)
  else
    match addPow diff r (default ∅ (powMap p !! blockHash)) with
    | (bpc, Some e) => (set_powMap p (<[blockHash := bpc]> (powMap p)), Some e)
    | (bpc, None) =>
        (plusFromCount (mr_From r) (set_powMap p (<[blockHash := bpc]> (powMap p))), None)
    end.

Definition DelOneResult (blockHash : Hash) (diff : Z) (from : Address) (p : PowPool) : PowPool :=
  match powMap p !! blockHash with
  | None => p
  | Some bpc =>
      let '(bpc, success) := delPow diff from bpc in
      let p := set_powMap p (<[blockHash := bpc]> (powMap p)) in
      if success then minusFromCount from p else p
  end.

Definition GetMinerResults (blockHash : Hash) (diff : Z) (p : PowPool) : res error (list HD_MiningRspMsg) :=
  match powMap p !! blockHash with
  | None => Err ErrNoHash
  | Some bpc => getPow diff bpc
  end.

(** ** What the pool stores *)

Definition result_at (p : PowPool) (b d : Hash) (a : Address) : option HD_MiningRspMsg :=
  powMap p !! b ≫= (fun bpc => bpc !! d ≫= (fun m => m !! a)).

(** The counter of a sender is the number of results stored for it, and it is
    within the limit. *)
Definition counts_ok (p : PowPool) : Prop :=
  forall a, exists keys : gset (Hash * Hash),
    (forall b d, (b, d) ∈ keys <-> is_Some (result_at p b d a)) /\
    getFromCount p a = Z.of_nat (size keys) /\ getFromCount p a <= countLimit p.

Lemma result_at_insert p b d bpc m b' d' a' :
  bpc = default ∅ (powMap p !! b) ->
  result_at (set_powMap p (<[b := <[d := m]> bpc]> (powMap p))) b' d' a'
  = if decide (b' = b /\ d' = d) then m !! a' else result_at p b' d' a'.
Proof.
  intros ->. unfold result_at; cbn [powMap set_powMap]. destruct (decide (b' = b)) as [->|Hb].
  - rewrite lookup_insert_eq; cbn. destruct (decide (d' = d)) as [->|Hd].
    + by rewrite lookup_insert_eq, decide_True.
    + rewrite lookup_insert_ne, decide_False by naive_solver.
      destruct (powMap p !! b); [done|]. cbn. by rewrite lookup_empty.
  - by rewrite lookup_insert_ne, decide_False by naive_solver.
Qed.

(** The results after an addition: as before, and the new one if it was added. *)
Lemma AddMinerResult_results b diff r p p' e :
  AddMinerResult b diff r p = (p', e) ->
  countLimit p' = countLimit p /\
  (e = None -> result_at p b (diffHash diff) (mr_From r) = None /\
               getFromCount p (mr_From r) < countLimit p) /\
  (forall a, getFromCount p' a = getFromCount p a + if decide (e = None /\ a = mr_From r) then 1 else 0) /\
  (forall b' d' a', result_at p' b' d' a'
     = if decide (e = None /\ b' = b /\ d' = diffHash diff /\ a' = mr_From r) then Some r
       else result_at p b' d' a').
Proof.
  unfold AddMinerResult, addPow. destruct (_ <=? _) eqn:El.
  { intros [= <- <-]. split_and!; try done; intros; rewrite ?decide_False by naive_solver; try lia; done. }
  set (bpc := default ∅ (powMap p !! b)). set (m := default ∅ (bpc !! diffHash diff)). bool_to_prop.
  assert (forall a, result_at p b (diffHash diff) a = m !! a) as Hm.
  { intros a. unfold result_at, m, bpc. destruct (powMap p !! b); cbn; [|by rewrite !lookup_empty].
    destruct (_ !! diffHash diff); cbn; [done|by rewrite lookup_empty]. }
  destruct (m !! mr_From r) eqn:Em; intros [= <- <-]; split_and!; try done.
  - intros a. rewrite decide_False by naive_solver. unfold getFromCount; cbn. lia.
  - intros b' d' a'. rewrite (decide_False (P := _ = None /\ _)) by naive_solver.
    rewrite (result_at_insert p b) by done. case_decide as Hbd; [|done].
    destruct Hbd as [-> ->]. by rewrite Hm.
  - intros _. rewrite Hm. split; [done|lia].
  - intros a. unfold getFromCount, plusFromCount; cbn.
    destruct (decide (a = mr_From r)) as [->|Hne].
    + rewrite lookup_insert_eq, decide_True by done. destruct (countMap p !! mr_From r); cbn; lia.
    + rewrite lookup_insert_ne, decide_False by naive_solver. lia.
  - intros b' d' a'. change (result_at (plusFromCount ?x ?q)) with (result_at q).
    rewrite (result_at_insert p b) by done. case_decide as Hbd.
    + destruct Hbd as [-> ->]. destruct (decide (a' = mr_From r)) as [->|Hne].
      * by rewrite lookup_insert_eq, decide_True.
      * by rewrite lookup_insert_ne, decide_False, Hm by naive_solver.
    + by rewrite decide_False by naive_solver.
Qed.

(** The results after a deletion. *)
Lemma DelOneResult_results b diff from p :
  countLimit (DelOneResult b diff from p) = countLimit p /\
  (forall b' d' a', result_at (DelOneResult b diff from p) b' d' a'
     = if decide (b' = b /\ d' = diffHash diff /\ a' = from) then None else result_at p b' d' a') /\
  (forall a, 0 <= getFromCount p a ->
     getFromCount (DelOneResult b diff from p) a
     = if decide (a = from /\ is_Some (result_at p b (diffHash diff) from))
       then Z.max 0 (getFromCount p a - 1) else getFromCount p a).
Proof.
  unfold DelOneResult, delPow. destruct (powMap p !! b) as [bpc|] eqn:Eb.
  2: { split_and!; [done| |].
       - intros. case_decide as Hx; [|done]. destruct Hx as (-> & _). unfold result_at. by rewrite Eb.
       - intros. rewrite decide_False; [done|]. unfold result_at. rewrite Eb. by intros [_ [? ?]]. }
  destruct (bpc !! diffHash diff) as [m|] eqn:Ed.
  2: { assert (set_powMap p (<[b:=bpc]> (powMap p)) = p) as ->.
       { destruct p; unfold set_powMap; cbn in *. by rewrite insert_id. }
       split_and!; [done| |].
       - intros. case_decide as Hx; [|done]. destruct Hx as (-> & -> & ->). unfold result_at. by rewrite Eb; cbn; rewrite Ed.
       - intros. rewrite decide_False; [done|]. unfold result_at. rewrite Eb; cbn. rewrite Ed.
         by intros [_ [? ?]]. }
  assert (forall a, result_at p b (diffHash diff) a = m !! a) as Hm.
  { intros a. unfold result_at. rewrite Eb; cbn. by rewrite Ed. }
  set (q := set_powMap p _).
  assert (forall b' d' a', result_at q b' d' a'
     = if decide (b' = b /\ d' = diffHash diff /\ a' = from) then None else result_at p b' d' a') as Hq.
  { intros b' d' a'. unfold q. rewrite (result_at_insert p b) by (by rewrite Eb).
    case_decide as Hbd; [destruct Hbd as [-> ->]|by rewrite decide_False by naive_solver].
    destruct (decide (a' = from)) as [->|Hne].
    - by rewrite lookup_delete_eq, decide_True.
    - by rewrite lookup_delete_ne, decide_False, Hm by naive_solver. }
  rewrite Hm. destruct (m !! from) as [r|] eqn:Ef.
  - rewrite bool_decide_false; cbn [negb].
    2: { rewrite map_size_delete_Some by (by eexists). assert (size m <> 0%nat); [|lia].
         apply map_size_ne_0_lookup. exists from. by eexists. }
    unfold minusFromCount. change (countMap q) with (countMap p).
    destruct (countMap p !! from) as [c|] eqn:Ec; (split_and!; [done|exact Hq|]); intros a Ha;
      unfold getFromCount in *; cbn in *; (destruct (decide (a = from)) as [->|Hne]).
    + rewrite lookup_insert_eq, decide_True by (split; [done|by eexists]). rewrite Ec in *. cbn in *.
      case_match; bool_to_prop; lia.
    + rewrite lookup_insert_ne, decide_False by naive_solver. done.
    + rewrite Ec, decide_True by (split; [done|by eexists]). done.
    + by rewrite decide_False by naive_solver.
  - rewrite bool_decide_true; cbn [negb]; [|by rewrite delete_id].
    split_and!; [done|exact Hq|]. intros a _. rewrite decide_False; [done|]. by intros [_ [? ?]].
Qed.

Lemma counts_ok_NewPowPool : counts_ok NewPowPool.
Proof.
  intros a. exists ∅. unfold getFromCount, result_at; cbn. rewrite size_empty. split_and!; [|done|].
  - intros b d. rewrite lookup_empty. cbn. split; [set_solver|by intros [? ?]].
  - by vm_compute.
Qed.

Lemma counts_ok_AddMinerResult b diff r p : counts_ok p -> counts_ok (AddMinerResult b diff r p).1.
Proof.
  intros Hok. destruct (AddMinerResult b diff r p) as [p' e] eqn:E.
  destruct (AddMinerResult_results _ _ _ _ _ _ E) as (Hl & Hnew & Hc & Hr). cbn [fst].
  intros a. destruct (Hok a) as (keys & Hkeys & Hcount & Hlim). rewrite Hl, (Hc a).
  destruct (decide (e = None /\ a = mr_From r)) as [[He ->]|Hno].
  - destruct (Hnew He) as [Hnone Hlt]. exists ({[(b, diffHash diff)]} ∪ keys). split_and!; [| |lia].
    + intros b' d'. rewrite elem_of_union, elem_of_singleton, Hkeys, Hr.
      destruct (decide (_ /\ _)) as [(_ & -> & -> & _)|Hn]; [naive_solver|].
      assert ((b', d') <> (b, diffHash diff)) by naive_solver. naive_solver.
    + rewrite size_union, size_singleton; [lia|].
      rewrite disjoint_singleton_l, Hkeys, Hnone. by intros [? ?].
  - exists keys. split_and!; [|lia|lia]. intros b' d'. rewrite Hkeys, Hr.
    by rewrite decide_False by naive_solver.
Qed.

Lemma counts_ok_DelOneResult b diff from p : counts_ok p -> counts_ok (DelOneResult b diff from p).
Proof.
  intros Hok a. destruct (DelOneResult_results b diff from p) as (Hl & Hr & Hc).
  destruct (Hok a) as (keys & Hkeys & Hcount & Hlim). rewrite Hl, Hc by lia.
  destruct (decide (a = from /\ _)) as [[-> Hs]|Hno].
  - pose proof (proj2 (Hkeys _ _) Hs) as Hin. exists (keys ∖ {[(b, diffHash diff)]}). split_and!; [| |lia].
    + intros b' d'. rewrite elem_of_difference, elem_of_singleton, Hkeys, Hr.
      destruct (decide (_ /\ _)) as [(-> & -> & _)|Hn]; [split; [naive_solver|by intros [? ?]]|].
      assert ((b', d') <> (b, diffHash diff)) by naive_solver. naive_solver.
    + rewrite size_difference, size_singleton by (by apply singleton_subseteq_l).
      assert (size keys <> 0%nat); [|lia]. apply size_non_empty_iff. set_solver.
  - exists keys. split_and!; [|lia|lia]. intros b' d'. rewrite Hkeys, Hr.
    destruct (decide (_ /\ _)) as [(-> & -> & ->)|Hn]; [|done]. split; [naive_solver|by intros [? ?]].
Qed.

(** Results are found under the signing hash and the difficulty they name. *)
Definition keys_ok (p : PowPool) : Prop :=
  forall b d a r, result_at p b d a = Some r ->
    mr_BlockHash r = b /\ diffHash (mr_Difficulty r) = d /\ mr_From r = a.

Lemma keys_ok_NewPowPool : keys_ok NewPowPool.
Proof. done. Qed.

Lemma keys_ok_AddMinerResult r p :
  keys_ok p -> keys_ok (AddMinerResult (mr_BlockHash r) (mr_Difficulty r) r p).1.
Proof.
  intros Hk b d a r'. destruct (AddMinerResult _ _ r p) as [p' e] eqn:E.
  destruct (AddMinerResult_results _ _ _ _ _ _ E) as (_ & _ & _ & Hr). cbn [fst]. rewrite Hr.
  case_decide as Hd; [|apply Hk]. destruct Hd as (_ & -> & -> & ->). by intros [= <-].
Qed.

Lemma keys_ok_DelOneResult b diff from p : keys_ok p -> keys_ok (DelOneResult b diff from p).
Proof.
  intros Hk b' d a r. destruct (DelOneResult_results b diff from p) as (_ & Hr & _). rewrite Hr.
  case_decide; [done|apply Hk].
Qed.

(** What [GetMinerResults] returns. *)
Lemma GetMinerResults_elem b diff p l r :
  GetMinerResults b diff p = Ok l -> r ∈ l <-> exists a, result_at p b (diffHash diff) a = Some r.
Proof.
  unfold GetMinerResults, getPow, result_at. destruct (powMap p !! b) as [bpc|]; [|done]. cbn.
  destruct (bpc !! diffHash diff) as [m|]; [|done]. case_bool_decide; [done|]. intros [= <-].
  apply range_values_elem_of.
Qed.

End PowPool.
End PowPool.

(** ** The block cache *)

Inductive blockState := blockStateLocalVerified | blockStateReady.
#[export] Instance blockState_eq_dec : EqDecision blockState.
Proof. solve_decision. Defined.

Record blockCacheData `{Payload} := mkBlockData {
  bd_block : BlockLocalVerifyOK;
  bd_state : blockState
}.
Arguments mkBlockData {_}.

(** By leader.  The methods that return an entry return its key too, by which
    the process updates the entry in place. *)
Abbreviation blockCache := (gmap Address blockCacheData).

Module BlockCache.
Section BlockCache.
Context `{Payload} `{GoRange}.

Definition newBlockCache : blockCache := ∅.

Definition SaveVerifiedBlock (block : BlockLocalVerifyOK) (c : blockCache) : blockCache :=
  match c !! Leader (ok_Header block) with
  | Some _ => c
  | None => <[Leader (ok_Header block) := mkBlockData block blockStateLocalVerified]> c
  end.

Definition SaveReadyBlock (block : BlockLocalVerifyOK) (c : blockCache) : blockCache :=
  <[Leader (ok_Header block) := mkBlockData block blockStateReady]> c.

Definition GetBlockData (leader : Address) (c : blockCache) : option (Address * blockCacheData) :=
  match c !! leader with
  | None => None
  | Some d => Some (leader, d)
  end.

(** The block with the latest positive time, the first of those in the order of
    the iteration. *)
Definition last_loop (acc : option (Address * blockCacheData) * Z) (kv : Address * blockCacheData)
    : option (Address * blockCacheData) * Z :=
  let blockTime := Int64 (Time (ok_Header (bd_block kv.2))) in
  if acc.2 <? blockTime then (Some kv, blockTime) else acc.

Definition GetLastBlockData (c : blockCache) : option (Address * blockCacheData) :=
  (foldl last_loop (None, 0) (range c)).1.

Definition GetBlockDataByBlockHash (hash : Hash) (c : blockCache) : option (Address * blockCacheData) :=
  head (filter (fun kv => hash = ok_BlockHash (bd_block kv.2)) (range c)).

Lemma GetBlockData_Some leader c k d : GetBlockData leader c = Some (k, d) -> c !! k = Some d.
Proof. unfold GetBlockData. destruct (c !! leader) eqn:E; [|done]. by intros [= <- <-]. Qed.

Lemma last_loop_spec l acc :
  let r := foldl last_loop acc l in
  (r = acc \/ exists kv, kv ∈ l /\ r = (Some kv, Int64 (Time (ok_Header (bd_block kv.2))))) /\
  acc.2 <= r.2 /\ Forall (fun kv => Int64 (Time (ok_Header (bd_block kv.2))) <= r.2) l.
Proof.
  revert acc. induction l as [|kv l IH]; intros acc; cbn [foldl]; [by repeat split; auto; lia|].
  destruct (IH (last_loop acc kv)) as (Hr & Hle & Hall). cbn zeta.
  assert (acc.2 <= (last_loop acc kv).2 /\
          Int64 (Time (ok_Header (bd_block kv.2))) <= (last_loop acc kv).2) as [H1 H2]
    by (unfold last_loop; case_match; bool_to_prop; cbn; lia).
  split_and!; [|lia|constructor; [lia|done]].
  destruct Hr as [->|(kv' & Hin & ->)]; [|right; exists kv'; set_solver].
  unfold last_loop. case_match; [right|by left]. exists kv. set_solver.
Qed.

(** The entry returned is one of the cache and no entry is later. *)
Lemma GetLastBlockData_Some c k d :
  GetLastBlockData c = Some (k, d) ->
  c !! k = Some d /\
  forall k' d', c !! k' = Some d' ->
    Int64 (Time (ok_Header (bd_block d'))) <= Int64 (Time (ok_Header (bd_block d))).
Proof.
  unfold GetLastBlockData. destruct (last_loop_spec (range c) (None, 0)) as (Hr & _ & Hall).
  destruct Hr as [E|(kv & Hin & E)]; rewrite E in Hall |- *; [done|]. cbn. intros [= ->].
  split; [by apply range_elem_of|]. intros k' d' Hk'%range_elem_of.
  rewrite Forall_forall in Hall. exact (Hall _ Hk').
Qed.

End BlockCache.
End BlockCache.
