(* ===== verification/BlkGen.v ===== *)
(** * Package [blockgenor]: generating and inserting the block of one height

    Models process.go, process_header.go, process_block.go,
    process_broadcast.go and gen_election_topology.go, and
    [GetAccountOriginalRole] of ca/ca.go.  A validator that leads a turn
    proposes a block; validators and broadcast nodes wait for the block to be
    verified and mined, and the leader of the next height inserts it.  Each
    exported method runs under the mutex of the process, so it is one step.

    What a step reads from outside and that changes over time is its
    environment ([Env]): the chain, the transaction pool, the clock, whether the
    insertion of a block succeeds.  Constant parameters: the DPOS engine and the
    validators it reads, the topology, the re-election service, the search
    function of the proof of work, the signer.

    Waiting for a future time stamp, the events about mined blocks and logs and
    the messages to the log are not modelled.  A runtime panic, which ends the
    node, is recorded as the event [Panicked] and the step stops there. *)

From S2P Require Import Prelude Common Rlp Crypto Types Topology Dpos VotePool Engine Controller.
From S2P Require Import TxHeap StateTransition Manash ReqCache Work BlkVerify PowPool.

Record HD_FullBlockReqMsg := mkFullBlockReq {
  fq_HeaderHash : Hash;
  fq_Number : Z;
  fq_From : Address
}.

(** [mc.BlockData]. *)
Record BlockData := mkData {
  dt_Header : Header;
  dt_Txs : list Transaction
}.

Inductive gen_event `{EVM} :=
| SendBlockInsert (header : Header)                        (* HD_NewBlockInsert *)
| CacheTxs (txs : list Transaction) (hash : Hash) (number : Z)
| HeaderVerifyReq (req : LocalBlockVerifyConsensusReq)     (* to the local verifier *)
| ConsensusReqSender (req : HD_BlkConsensusReqMsg)
| BroadcastMiningReq (data : BlockData)
| NewBlockReady (header : Header)
| Inserted (block : Header) (txs : list Transaction) (receipts : option (list (Receipt Log)))
    (st : option state)
| HeaderGenerateReq (number : Z)
| FetcherNotify (hash : Hash) (number : Z)
| SendFullBlockReq (req : HD_FullBlockReqMsg) (to : Address)
| SendFullBlockRsp (header : Header) (txs : list Transaction) (to : Address)
| Panicked.

Record Env `{EVM} := mkEnv {
  GetHeaderByNumber : Z -> option Header;
  GetHeader : Hash -> Z -> option Header;
  GetBlockByHash : Hash -> option Header;
  Genesis : Header;
  StateAt : Hash -> option state;
  Pending : option (gmap Address (list Transaction));
  GetAllSpecialTxs : gmap Address (list Transaction);
  GetOriginalElect : Z -> option (list Elect);
  WriteBlockWithState : Header -> list Transaction -> option (list (Receipt Log)) -> option state -> bool;
  NewResendMsgCtrl : bool;
  unix_now : Z;
  manash_big1 : Z               (* the shared constant of package manash *)
}.
Arguments mkEnv {_}.

Module BlkGen.

Inductive State :=
| StateIdle | StateBlockBroadcast | StateHeaderGen | StateMinerResultVerify | StateBlockInsert | StateEnd.
#[export] Instance State_eq_dec : EqDecision State.
Proof. solve_decision. Defined.

Definition state_index (s : State) : Z :=
  match s with
  | StateIdle => 0 | StateBlockBroadcast => 1 | StateHeaderGen => 2 | StateMinerResultVerify => 3
  | StateBlockInsert => 4 | StateEnd => 5
  end.

Inductive error :=
| MinerResultError | HaveNotOKResultError | HaveNoGenBlockError | HashNoSignNotMatchError
| ErrWriteBlock | ErrParent | ErrNewWork | ErrRunTxs | ErrVerify | ErrPrepare | ErrSignHash | ErrPanic.

Record Process `{EVM} := mkProcess {
  curLeader : Address;
  nextLeader : Address;
  consensusTurn : Z;
  preBlockHash : Hash;
  number : Z;
  role : Z;
  p_state : State;
  powPool : PowPool;
  broadcastRstCache : list BlockData;
  p_blockCache : blockCache;
  insertBlockHash : list Hash;
  FullBlockReqCache : ReuseMsg.ReuseMsgController HD_FullBlockReqMsg;
  consensusReqSender : option HD_BlkConsensusReqMsg;
  p_out : list gen_event
}.
Arguments mkProcess {_}.

Section Setters.
Context `{EVM}.
Definition set_leaders (cur next : Address) (turn : Z) (p : Process) : Process :=
  mkProcess cur next turn (preBlockHash p) (number p) (role p) (p_state p) (powPool p)
    (broadcastRstCache p) (p_blockCache p) (insertBlockHash p) (FullBlockReqCache p)
    (consensusReqSender p) (p_out p).
Definition set_preBlockHash (h : Hash) (p : Process) : Process :=
  mkProcess (curLeader p) (nextLeader p) (consensusTurn p) h (number p) (role p) (p_state p)
    (powPool p) (broadcastRstCache p) (p_blockCache p) (insertBlockHash p) (FullBlockReqCache p)
    (consensusReqSender p) (p_out p).
Definition set_role (r : Z) (p : Process) : Process :=
  mkProcess (curLeader p) (nextLeader p) (consensusTurn p) (preBlockHash p) (number p) r (p_state p)
    (powPool p) (broadcastRstCache p) (p_blockCache p) (insertBlockHash p) (FullBlockReqCache p)
    (consensusReqSender p) (p_out p).
Definition set_state (s : State) (p : Process) : Process :=
  mkProcess (curLeader p) (nextLeader p) (consensusTurn p) (preBlockHash p) (number p) (role p) s
    (powPool p) (broadcastRstCache p) (p_blockCache p) (insertBlockHash p) (FullBlockReqCache p)
    (consensusReqSender p) (p_out p).
Definition set_powPool (pp : PowPool) (p : Process) : Process :=
  mkProcess (curLeader p) (nextLeader p) (consensusTurn p) (preBlockHash p) (number p) (role p)
    (p_state p) pp (broadcastRstCache p) (p_blockCache p) (insertBlockHash p) (FullBlockReqCache p)
    (consensusReqSender p) (p_out p).
Definition set_broadcastRst (l : list BlockData) (p : Process) : Process :=
  mkProcess (curLeader p) (nextLeader p) (consensusTurn p) (preBlockHash p) (number p) (role p)
    (p_state p) (powPool p) l (p_blockCache p) (insertBlockHash p) (FullBlockReqCache p)
    (consensusReqSender p) (p_out p).
Definition set_blockCache (c : blockCache) (p : Process) : Process :=
  mkProcess (curLeader p) (nextLeader p) (consensusTurn p) (preBlockHash p) (number p) (role p)
    (p_state p) (powPool p) (broadcastRstCache p) c (insertBlockHash p) (FullBlockReqCache p)
    (consensusReqSender p) (p_out p).
Definition saveInsertedBlockHash (h : Hash) (p : Process) : Process :=
  mkProcess (curLeader p) (nextLeader p) (consensusTurn p) (preBlockHash p) (number p) (role p)
    (p_state p) (powPool p) (broadcastRstCache p) (p_blockCache p) (insertBlockHash p ++ [h])
    (FullBlockReqCache p) (consensusReqSender p) (p_out p).
Definition set_FullBlockReqCache c (p : Process) : Process :=
  mkProcess (curLeader p) (nextLeader p) (consensusTurn p) (preBlockHash p) (number p) (role p)
    (p_state p) (powPool p) (broadcastRstCache p) (p_blockCache p) (insertBlockHash p) c
    (consensusReqSender p) (p_out p).
Definition set_sender (s : option HD_BlkConsensusReqMsg) (p : Process) : Process :=
  mkProcess (curLeader p) (nextLeader p) (consensusTurn p) (preBlockHash p) (number p) (role p)
    (p_state p) (powPool p) (broadcastRstCache p) (p_blockCache p) (insertBlockHash p)
    (FullBlockReqCache p) s (p_out p).
Definition emit (e : gen_event) (p : Process) : Process :=
  mkProcess (curLeader p) (nextLeader p) (consensusTurn p) (preBlockHash p) (number p) (role p)
    (p_state p) (powPool p) (broadcastRstCache p) (p_blockCache p) (insertBlockHash p)
    (FullBlockReqCache p) (consensusReqSender p) (p_out p ++ [e]).
End Setters.

Section Process.
Context `{Crypto} `{EVM} `{GoRange} `{E : DPOSEngine} `{ReElection}.
Context (config : ChainConfig).
Context (DeriveSha_txs : list Transaction -> Hash) (DeriveSha_receipts : list (Receipt Log) -> Hash).
Context (manash : Ethash) (hashimotoLight : Hash -> N -> Hash * Z) (fork_ok : Header -> bool).
Context (reader : ValidatorReader) (GetTopologyByNumber : Z -> Z -> option TopologyGraph).
Context (BroadCastNodes : list Address) (self : Address).
Context (SignHashWithValidate : Hash -> bool -> option Signature).

(** The engine, as the process calls it. *)
Definition VerifySeal (header : Header) : bool :=
  is_ok (Manash.VerifySeal hashimotoLight manash header).
Definition VerifyHeader (e : Env) (header : Header) : bool :=
  is_ok (Manash.VerifyHeader config hashimotoLight fork_ok (GetHeader e) manash (manash_big1 e)
           (unix_now e) header true).

(** [ca.GetAccountOriginalRole], whose error the callers ignore. *)
Definition GetAccountOriginalRole (e : Env) (account : Address) (num : Z) : Z :=
  if bool_decide (account ∈ BroadCastNodes) then RoleBroadcast
  else
    match GetOriginalElect e num with
    | None => RoleNil
    | Some ori =>
        match head (filter (fun el => el_Account el = account) ori) with
        | Some el => Transfer2CommonRole (el_Type el)
        | None => RoleNil
        end
    end.

(** ** process.go *)

Definition newProcess (num : Z) : Process :=
  mkProcess 0%N 0%N 0 0%N num RoleNil StateIdle PowPool.NewPowPool [] BlockCache.newBlockCache []
    (ReuseMsg.NewReuseMsgController 3) None [].

Definition checkState (s : State) (p : Process) : bool := bool_decide (p_state p = s).
Definition changeState (target : State) (p : Process) : Process :=
  if state_index (p_state p) =? state_index target - 1 then set_state target p else p.
Definition checkRepeatInsert (h : Hash) (p : Process) : bool := bool_decide (h ∈ insertBlockHash p).

Definition closeConsensusReqSender (p : Process) : Process := set_sender None p.

(** A started sender repeats the request. *)
Definition startConsensusReqSender (e : Env) (req : HD_BlkConsensusReqMsg) (p : Process) : Process :=
  let p := closeConsensusReqSender p in
  if NewResendMsgCtrl e then emit (ConsensusReqSender req) (set_sender (Some req) p) else p.

Definition copyHeader (header : Header) (r : HD_MiningRspMsg) : Header :=
  mkHeader (ParentHash header) (UncleHash header) (Leader header) (mr_Coinbase r) (Root header)
    (TxHash header) (ReceiptHash header) (Bloom header) (Difficulty header) (Number header)
    (GasLimit header) (GasUsed header) (Time header) (hElect header) (hNetTopology header)
    (mr_Signatures r) (Extra header) (mr_MixDigest r) (mr_Nonce r) (Version header).

(** ** Inserting *)

(** The entry the process works on. *)
Definition current_block (leader : Address) (p : Process) : option (Address * blockCacheData) :=
  if role p =? RoleBroadcast then BlockCache.GetLastBlockData (p_blockCache p)
  else BlockCache.GetBlockData leader (p_blockCache p).

(** [insertAndBcBlock], with the header of an insert message or on the process's
    own account ([None]). *)
Definition insertAndBcBlock (e : Env) (header : option Header) (p : Process)
    : Process * res error Hash :=
  match current_block (curLeader p) p with
  | None => (p, Err HaveNoGenBlockError)
  | Some (_, blockData) =>
      if negb (bool_decide (bd_state blockData = blockStateReady)) then (p, Err HaveNoGenBlockError)
      else
        let block := bd_block blockData in
        match (match header with
               | None => Ok (ok_Header block)
               | Some header =>
                   if negb (bool_decide (Types.HashNoSignsAndNonce header
                                         = Types.HashNoSignsAndNonce (ok_Header block)))
                   then Err HashNoSignNotMatchError else Ok header
               end) with
        | Err err => (p, Err err)
        | Ok insertHeader =>
            let txs := default [] (ok_Txs block) in
            let b := Manash.NewBlockWithTxs DeriveSha_txs insertHeader txs in
            if WriteBlockWithState e b txs (ok_Receipts block) (ok_State block) then
              let p := emit (Inserted b txs (ok_Receipts block) (ok_State block)) p in
              (emit (HeaderGenerateReq (u64 (number p + 1))) p, Ok (Types.Header_Hash b))
            else (p, Err ErrWriteBlock)
        end
  end.

(** The guards of [processBlockInsert] after its state check. *)
Definition inserter (p : Process) : bool :=
  if Broadcast.IsBroadcastNumber (u64 (number p + 1)) then role p =? RoleBroadcast
  else (role p =? RoleValidator) && negb (bool_decide (nextLeader p = 0%N)) &&
       bool_decide (nextLeader p = self).

Definition processBlockInsert (e : Env) (p : Process) : Process :=
  if state_index (p_state p) <? state_index StateBlockInsert then p
  else if negb (inserter p) then p
  else
    match insertAndBcBlock e None p with
    | (p, Err _) => p
    | (p, Ok _) => set_state StateEnd p
    end.

(** ** process_block.go: mining results *)

Definition verifyOneResult (rawHeader : Header) (r : HD_MiningRspMsg) : res error unit :=
  let header := copyHeader rawHeader r in
  if negb (bool_decide (Types.HashNoSignsAndNonce header = mr_BlockHash r)) then Err MinerResultError
  else if negb (is_ok (VerifyBlock reader header)) then Err ErrVerify
  else if negb (VerifySeal header) then Err ErrVerify
  else Ok tt.

(** The results that do not verify leave the pool. *)
Fixpoint pickSatisfyMinerResults (header : Header) (results : list HD_MiningRspMsg) (p : Process)
    : Process * res error HD_MiningRspMsg :=
  match results with
  | [] => (p, Err HaveNotOKResultError)
  | r :: results' =>
      match verifyOneResult header r with
      | Ok _ => (p, Ok r)
      | Err _ =>
          pickSatisfyMinerResults header results'
            (set_powPool (PowPool.DelOneResult (mr_BlockHash r) (mr_Difficulty r) (mr_From r)
                            (powPool p)) p)
      end
  end.

(** The end of [dealMinerResultVerifyCommon]. *)
Definition block_ready (e : Env) (header : Header) (p : Process) : Process :=
  processBlockInsert e (set_state StateBlockInsert (emit (NewBlockReady header) p)).

Definition set_ok_Header (b : BlockLocalVerifyOK) (h : Header) : BlockLocalVerifyOK :=
  mkLocalVerifyOK h (ok_BlockHash b) (ok_Txs b) (ok_Receipts b) (ok_State b).

Definition dealMinerResultVerifyCommon (e : Env) (leader : Address) (p : Process) : Process :=
  match current_block leader p with
  | None => p
  | Some (key, blockData) =>
      let block := bd_block blockData in
      match bd_state blockData with
      | blockStateReady => block_ready e (ok_Header block) p
      | blockStateLocalVerified =>
          match PowPool.GetMinerResults (ok_BlockHash block) (Int64 (Difficulty (ok_Header block)))
                  (powPool p) with
          | Err _ => p
          | Ok results =>
              match pickSatisfyMinerResults (ok_Header block) results p with
              | (p, Err _) => p
              | (p, Ok r) =>
                  let header := copyHeader (ok_Header block) r in
                  block_ready e header
                    (set_blockCache (<[key := mkBlockData (set_ok_Header block header) blockStateReady]>
                                       (p_blockCache p)) p)
              end
          end
      end
  end.

(** ** process_broadcast.go *)

Definition preVerifyBroadcastMinerResult (e : Env) (result : BlockData) : bool :=
  let header := dt_Header result in
  if negb (GetAccountOriginalRole e (Leader header) (Uint64 (Number header)) =? RoleBroadcast) then false
  else
    match Signatures header with
    | [sign] =>
        if negb (Broadcast.IsBroadcastNumber (Uint64 (Number header))) then false
        else
          match Signature.VerifySignWithValidate (Types.HashNoSignsAndNonce header) sign with
          | Err _ => false
          | Ok (from, validate) =>
              if negb (bool_decide (from = Leader header)) then false else validate
          end
    | _ => false
    end.

(** The loop of [dealMinerResultVerifyBroadcast]: the first result that can be
    executed.  Executing it changes its header, an object that the list keeps. *)
Inductive broadcast_run :=
| NoneReady
| RunPanic
| Ready (block : BlockLocalVerifyOK).

Fixpoint run_broadcast (e : Env) (l : list BlockData) : list BlockData * broadcast_run :=
  match l with
  | [] => ([], NoneReady)
  | result :: l' =>
      let header := dt_Header result in
      let skip := let '(l'', r) := run_broadcast e l' in (result :: l'', r) in
      match GetBlockByHash e (ParentHash header) with
      | None => skip
      | Some _ =>
          match Work.NewWork (StateAt e) header with
          | None => skip
          | Some w =>
              match Work.ProcessBroadcastTransactions config (dt_Txs result) w with
              | Err _ => (l, RunPanic)
              | Ok w =>
                  let '(header, st, _) := Manash.Finalize config DeriveSha_txs DeriveSha_receipts
                                            (w_header w) (w_State w) (dt_Txs result) (w_Receipts w) in
                  (mkData header (dt_Txs result) :: l',
                   Ready (mkLocalVerifyOK header 0%N (Some (dt_Txs result)) (Some (w_Receipts w)) (Some st)))
              end
          end
      end
  end.

Definition dealMinerResultVerifyBroadcast (e : Env) (p : Process) : Process :=
  let '(l, r) := run_broadcast e (broadcastRstCache p) in
  let p := set_broadcastRst l p in
  match r with
  | NoneReady => p
  | RunPanic => emit Panicked p
  | Ready block =>
      let p := set_blockCache (BlockCache.SaveReadyBlock block (p_blockCache p)) p in
      let p := emit (NewBlockReady (ok_Header block)) p in
      processBlockInsert e (changeState StateBlockInsert p)
  end.

Definition processMinerResultVerify (e : Env) (leader : Address) (check : bool) (p : Process) : Process :=
  if check && negb (checkState StateMinerResultVerify p) then p
  else if Broadcast.IsBroadcastNumber (number p) then dealMinerResultVerifyBroadcast e p
  else dealMinerResultVerifyCommon e leader p.

Definition AddBroadcastMinerResult (e : Env) (result : BlockData) (p : Process) : Process :=
  if negb (preVerifyBroadcastMinerResult e result) then p
  else
    processMinerResultVerify e (curLeader p) true
      (set_broadcastRst (broadcastRstCache p ++ [result]) p).

(** ** gen_election_topology.go *)

Definition genElection (num : Z) : list Elect :=
  match GetElection num with
  | None => []
  | Some info => TransferToElectionStu info
  end.

Definition genAllNetTopology (num : Z) : option NetTopology :=
  match GetNetTopologyAll num with
  | None => None
  | Some info => Some (TransferToNetTopologyAllStu info)
  end.

Definition getPrevTopology (num : Z) : option TopologyGraph :=
  GetTopologyByNumber (Z.lor (Z.lor RoleValidator RoleBackupValidator)
                             (Z.lor RoleMiner RoleBackupMiner)) (u64 (num - 1)).

Definition genChgNetTopology (currentNetTopology : NetTopology) (num : Z) : option NetTopology :=
  match getPrevTopology num with
  | None => None
  | Some prevTopology =>
      let offlineTopNodes := ParseTopNodeOffline currentNetTopology prevTopology in
      let '(onlinePrimaryNods, offlinePrimaryNodes) := ParsePrimaryTopNodeState currentNetTopology in
      match GetTopoChange num offlineTopNodes with
      | None => None
      | Some alterInfo =>
          Some (TransferToNetTopologyChgStu alterInfo onlinePrimaryNods offlinePrimaryNodes)
      end
  end.

Definition getNetTopology (currentNetTopology : NetTopology) (num : Z) : option NetTopology :=
  if Broadcast.IsReElectionNumber (u64 (num + 1)) then genAllNetTopology num
  else genChgNetTopology currentNetTopology num.

(** ** process_header.go *)

Definition getParentBlock (e : Env) (p : Process) : res error Header :=
  if number p =? 1 then Ok (Genesis e)
  else if bool_decide (preBlockHash p = 0%N) then Err ErrParent
  else match GetBlockByHash e (preBlockHash p) with None => Err ErrParent | Some parent => Ok parent end.

(** The time stamp of a proposal. *)
Definition time_stamp (e : Env) (parent : Header) : Z :=
  if unix_now e <=? Time parent then i64 (Int64 (Time parent) + 1) else unix_now e.

Definition header_of (e : Env) (parent : Header) (p : Process) : Header :=
  mkHeader (Types.Header_Hash parent) 0%N self 0%N 0%N 0%N 0%N 0%N 0 (number p)
    (Manash.CalcGasLimit parent) 0 (time_stamp e parent) (genElection (number p))
    (default (mkNetTopology NetTopoTypeChange []) (getNetTopology (hNetTopology parent) (number p)))
    [] [] 0%N 0%N (Version parent).

Definition set_Signatures (h : Header) (signs : list Signature) : Header :=
  mkHeader (ParentHash h) (UncleHash h) (Leader h) (Coinbase h) (Root h) (TxHash h) (ReceiptHash h)
    (Bloom h) (Difficulty h) (Number h) (GasLimit h) (GasUsed h) (Time h) (hElect h)
    (hNetTopology h) signs (Extra h) (MixDigest h) (Nonce h) (Version h).

(** The branch of a broadcast height. *)
Definition gen_broadcast (e : Env) (header : Header) (p : Process) : Process * res error unit :=
  match Work.NewWork (StateAt e) header with
  | None => (p, Err ErrNewWork)
  | Some w =>
      let txs := concat (range_values (GetAllSpecialTxs e)) in
      match Work.ProcessBroadcastTransactions config txs w with
      | Err _ => (emit Panicked p, Err ErrPanic)
      | Ok w =>
          let '(_, _, header) := Manash.Finalize config DeriveSha_txs DeriveSha_receipts
                                   (w_header w) (w_State w) txs (w_Receipts w) in
          match SignHashWithValidate (Types.HashNoSignsAndNonce header) true with
          | None => (p, Err ErrSignHash)
          | Some sign => (emit (BroadcastMiningReq (mkData (set_Signatures header [sign]) txs)) p, Ok tt)
          end
      end
  end.

(** The branch of an ordinary height. *)
Definition gen_ordinary (e : Env) (header : Header) (p : Process) : Process * res error unit :=
  match Work.pack config (StateAt e) DeriveSha_txs DeriveSha_receipts header (Pending e) with
  | Err Work.NewWorkErr => (p, Err ErrNewWork)
  | Err Work.ExecErr => (emit Panicked p, Err ErrPanic)
  | Ok (header, txsCode, txs, receipts, st) =>
      let p2pBlock := mkBlkConsensusReq self header (consensusTurn p) txsCode in
      let localBlock := mkLocalReq p2pBlock txs receipts st in
      let p := emit (CacheTxs txs (Types.HashNoSignsAndNonce header) (number p)) p in
      let p := emit (HeaderVerifyReq localBlock) p in
      (startConsensusReqSender e p2pBlock p, Ok tt)
  end.

Definition processHeaderGen (e : Env) (p : Process) : Process * res error unit :=
  match getParentBlock e p with
  | Err err => (p, Err err)
  | Ok parent =>
      match (Manash.Prepare config (GetHeader e) (manash_big1 e) (header_of e parent p)).2 with
      | Err _ => (p, Err ErrPrepare)
      | Ok header =>
          if Broadcast.IsBroadcastNumber (Uint64 (Number header)) then gen_broadcast e header p
          else gen_ordinary e header p
      end
  end.

(** ** process.go: the phases *)

(** Entering the last phase that waits. *)
Definition await_result (e : Env) (p : Process) : Process :=
  processMinerResultVerify e (curLeader p) true (set_state StateMinerResultVerify p).

Definition canGenHeader (e : Env) (p : Process) : Process * bool :=
  if role p =? RoleBroadcast then
    if negb (Broadcast.IsBroadcastNumber (number p)) then (await_result e p, false) else (p, true)
  else if role p =? RoleValidator then
    if Broadcast.IsBroadcastNumber (number p) then (await_result e p, false)
    else if bool_decide (curLeader p = 0%N) then (p, false)
    else if negb (bool_decide (curLeader p = self)) then (await_result e p, false)
    else (p, true)
  else (p, false).

Definition startHeaderGen (e : Env) (p : Process) : Process :=
  if negb (checkState StateHeaderGen p) then p
  else
    match canGenHeader e p with
    | (p, false) => p
    | (p, true) =>
        match processHeaderGen e p with
        | (p, Err _) => p
        | (p, Ok _) => await_result e p
        end
    end.

Definition canBcBlock (p : Process) : bool :=
  if role p =? RoleBroadcast then true
  else if role p =? RoleValidator then negb (bool_decide (curLeader p = 0%N))
  else false.

Definition startBcBlock (e : Env) (p : Process) : Process :=
  if negb (checkState StateBlockBroadcast p) then p
  else if negb (canBcBlock p) then p
  else
    match GetHeaderByNumber e (u64 (number p - 1)) with
    | None => emit Panicked p
    | Some header =>
        let p := if number p =? 1 then p else emit (SendBlockInsert header) p in
        startHeaderGen e (set_state StateHeaderGen (set_preBlockHash (Types.Header_Hash header) p))
    end.

Definition startBlockInsert (e : Env) (header : Header) (p : Process) : Process :=
  let blockHash := Types.Header_Hash header in
  if checkRepeatInsert blockHash p then p
  else
    let insert :=
      match insertAndBcBlock e (Some header) p with
      | (p, Ok _) => saveInsertedBlockHash blockHash p
      | (p, Err _) => saveInsertedBlockHash blockHash (emit (FetcherNotify blockHash (number p)) p)
      end in
    if Broadcast.IsBroadcastNumber (number p) then
      match Signatures header with
      | [] => emit Panicked p
      | sign :: _ =>
          match Signature.VerifySignWithValidate (Types.HashNoSignsAndNonce header) sign with
          | Err _ => p
          | Ok (signAccount, _) =>
              if negb (bool_decide (signAccount = Leader header)) then p
              else if negb (GetAccountOriginalRole e signAccount (u64 (number p - 1)) =? RoleBroadcast)
              then p
              else insert
          end
      end
    else if negb (is_ok (VerifyBlock reader header)) then p
    else if negb (VerifySeal header) then p
    else insert.

(** ** process.go and process_block.go: the exported methods *)

Definition StartRunning (e : Env) (r : Z) (p : Process) : Process :=
  startBcBlock e (changeState StateBlockBroadcast (set_role r p)).

Definition Close (p : Process) : Process :=
  closeConsensusReqSender (set_preBlockHash 0%N (set_leaders 0%N 0%N 0 (set_state StateIdle p))).

Definition ReInit (p : Process) : Process :=
  if checkState StateIdle p then p
  else closeConsensusReqSender
         (set_preBlockHash 0%N (set_leaders 0%N 0%N 0 (set_state StateBlockBroadcast p))).

Definition ReInitNextLeader (p : Process) : Process :=
  set_leaders (curLeader p) 0%N (consensusTurn p) p.

Definition SetCurLeader (e : Env) (leader : Address) (turn : Z) (p : Process) : Process :=
  if bool_decide (curLeader p = leader) && (consensusTurn p =? turn) then p
  else
    let p := closeConsensusReqSender (set_leaders leader (nextLeader p) turn p) in
    if checkState StateIdle p then p
    else startBcBlock e (set_preBlockHash 0%N (set_leaders leader 0%N turn (set_state StateBlockBroadcast p))).

Definition SetNextLeader (e : Env) (leader : Address) (p : Process) : Process :=
  if bool_decide (nextLeader p = leader) then p
  else
    let p := set_leaders (curLeader p) leader (consensusTurn p) p in
    if state_index (p_state p) <? state_index StateBlockInsert then p else processBlockInsert e p.

Definition AddInsertBlockInfo (e : Env) (header : Header) (p : Process) : Process :=
  startBlockInsert e header p.

Definition AddMinerResult (e : Env) (r : HD_MiningRspMsg) (p : Process) : Process :=
  match PowPool.AddMinerResult (mr_BlockHash r) (mr_Difficulty r) r (powPool p) with
  | (pp, Some _) => set_powPool pp p
  | (pp, None) => processMinerResultVerify e (curLeader p) true (set_powPool pp p)
  end.

Definition AddConsensusBlock (e : Env) (block : BlockLocalVerifyOK) (p : Process) : Process :=
  processMinerResultVerify e (curLeader p) true
    (set_blockCache (BlockCache.SaveVerifiedBlock block (p_blockCache p)) p).

(** The result that a complete header stands for. *)
Definition result_of (header : Header) : HD_MiningRspMsg :=
  mkMiningRsp (Coinbase header) (Uint64 (Number header)) (Types.HashNoSignsAndNonce header)
    (Difficulty header) (Nonce header) (Coinbase header) (MixDigest header) (Signatures header).

Definition ProcessRecoveryMsg (e : Env) (header : Header) (from : Address) (p : Process) : Process :=
  let headerHash := Types.HashNoSignsAndNonce header in
  let p := set_powPool (PowPool.AddMinerResult headerHash (Difficulty header) (result_of header)
                          (powPool p)).1 p in
  let p := processMinerResultVerify e (Leader header) false p in
  if checkState StateEnd p then p
  else if ReuseMsg.IsExistMsg (FullBlockReqCache p) headerHash then
    match ReuseMsg.ReUseMsg (FullBlockReqCache p) headerHash (unix_now e) with
    | (c, Err _) => set_FullBlockReqCache c p
    | (c, Ok reqMsg) => emit (SendFullBlockReq reqMsg from) (set_FullBlockReqCache c p)
    end
  else
    let reqMsg := mkFullBlockReq headerHash (Uint64 (Number header)) 0%N in
    let c := (ReuseMsg.AddMsg (FullBlockReqCache p) headerHash reqMsg (unix_now e)).1 in
    emit (SendFullBlockReq reqMsg from) (set_FullBlockReqCache c p).

Definition ProcessFullBlockReq (req : HD_FullBlockReqMsg) (p : Process) : Process :=
  match BlockCache.GetBlockDataByBlockHash (fq_HeaderHash req) (p_blockCache p) with
  | None => p
  | Some (_, blockData) =>
      if negb (bool_decide (bd_state blockData = blockStateReady)) then p
      else emit (SendFullBlockRsp (ok_Header (bd_block blockData))
                   (default [] (ok_Txs (bd_block blockData))) (fq_From req)) p
  end.

Definition runTxs (e : Env) (header : Header) (headerHash : Hash) (txs : list Transaction)
    : res error (list (Receipt Log) * state) :=
  match GetBlockByHash e (ParentHash header) with
  | None => Err ErrParent
  | Some _ =>
      match Work.execute config (StateAt e) DeriveSha_txs DeriveSha_receipts (set_GasUsed header 0) txs with
      | Err _ => Err ErrRunTxs
      | Ok (localHeader, receipts, st) =>
          if negb (bool_decide (Types.HashNoSignsAndNonce localHeader = headerHash)) then Err ErrRunTxs
          else Ok (receipts, st)
      end
  end.

Definition ProcessFullBlockRsp (e : Env) (header : Header) (txs : list Transaction) (p : Process)
    : Process :=
  let headerHash := Types.HashNoSignsAndNonce header in
  match BlockCache.GetBlockDataByBlockHash headerHash (p_blockCache p) with
  | Some _ => p
  | None =>
      if negb (VerifyHeader e header) then p
      else if negb (is_ok (VerifyBlock reader header)) then p
      else
        match runTxs e header headerHash txs with
        | Err _ => p
        | Ok (receipts, st) =>
            let block := mkLocalVerifyOK header 0%N (Some txs) (Some receipts) (Some st) in
            block_ready e header (set_blockCache (BlockCache.SaveReadyBlock block (p_blockCache p)) p)
        end
  end.

Inductive input :=
| InStart (r : Z)
| InClose
| InReInit
| InReInitNextLeader
| InCurLeader (leader : Address) (turn : Z)
| InNextLeader (leader : Address)
| InInsert (header : Header)
| InMinerResult (r : HD_MiningRspMsg)
| InBroadcastResult (result : BlockData)
| InConsensusBlock (block : BlockLocalVerifyOK)
| InRecovery (header : Header) (from : Address)
| InFullBlockReq (req : HD_FullBlockReqMsg)
| InFullBlockRsp (header : Header) (txs : list Transaction).

Definition step (e : Env) (i : input) (p : Process) : Process :=
  match i with
  | InStart r => StartRunning e r p
  | InClose => Close p
  | InReInit => ReInit p
  | InReInitNextLeader => ReInitNextLeader p
  | InCurLeader leader turn => SetCurLeader e leader turn p
  | InNextLeader leader => SetNextLeader e leader p
  | InInsert header => AddInsertBlockInfo e header p
  | InMinerResult r => AddMinerResult e r p
  | InBroadcastResult result => AddBroadcastMinerResult e result p
  | InConsensusBlock block => AddConsensusBlock e block p
  | InRecovery header from => ProcessRecoveryMsg e header from p
  | InFullBlockReq req => ProcessFullBlockReq req p
  | InFullBlockRsp header txs => ProcessFullBlockRsp e header txs p
  end.

Definition run (p : Process) (ins : list (Env * input)) : Process :=
  foldl (fun p ei => step ei.1 ei.2 p) p ins.

(** ** What is inserted *)

(** [hist] is what happened to the process so far. *)
Abbreviation history := (list (Env * input)).

(** What executing a block changes in its header. *)
Definition executed_from (h0 h : Header) : Prop :=
  exists gas root, h = set_Root (set_GasUsed h0 gas) root.

(** The first signature is of the leader of the header, a broadcast node. *)
Definition broadcast_signed (e : Env) (h : Header) : Prop :=
  exists sign validate n, head (Signatures h) = Some sign /\
    Signature.VerifySignWithValidate (Types.HashNoSignsAndNonce h) sign = Ok (Leader h, validate) /\
    GetAccountOriginalRole e (Leader h) n = RoleBroadcast.

(** Transactions, receipts and state belong to a signing hash when the block
    verification delivered them for it, when executing the transactions that
    came with a header of this hash gave them and the hash again, or when they
    are the execution of a mining result of a broadcast node. *)
Inductive payload_ok (hist : history) (hash : Hash) (b : BlockLocalVerifyOK) : Prop :=
| payload_verified e b' :
    (e, InConsensusBlock b') ∈ hist -> Types.HashNoSignsAndNonce (ok_Header b') = hash ->
    ok_Txs b = ok_Txs b' -> ok_Receipts b = ok_Receipts b' -> ok_State b = ok_State b' ->
    payload_ok hist hash b
| payload_executed e header txs rc st :
    (e, InFullBlockRsp header txs) ∈ hist ->
    Types.HashNoSignsAndNonce header = hash -> runTxs e header hash txs = Ok (rc, st) ->
    ok_Txs b = Some txs -> ok_Receipts b = Some rc -> ok_State b = Some st -> payload_ok hist hash b
| payload_broadcast e i w0 w h txs st blk :
    (e, i) ∈ hist -> Work.NewWork (StateAt e) (w_header w0) = Some w0 ->
    Work.ProcessBroadcastTransactions config txs w0 = Ok w ->
    Manash.Finalize config DeriveSha_txs DeriveSha_receipts (w_header w) (w_State w) txs (w_Receipts w)
    = (h, st, blk) -> Types.HashNoSignsAndNonce h = hash ->
    ok_Txs b = Some txs -> ok_Receipts b = Some (w_Receipts w) -> ok_State b = Some st ->
    payload_ok hist hash b.

Section Height.
Context (num : Z).

(** A header is certified when the DPOS engine accepts its signatures and the
    proof-of-work engine its seal, the latter on its own or in a full header
    check; at a broadcast height also when a broadcast node signed the header
    it was executed from. *)
Inductive certified (hist : history) (h : Header) : Prop :=
| certified_sealed :
    is_ok (VerifyBlock reader h) = true -> VerifySeal h = true -> certified hist h
| certified_checked e i :
    is_ok (VerifyBlock reader h) = true -> (e, i) ∈ hist -> VerifyHeader e h = true -> certified hist h
| certified_broadcast e i h0 :
    Broadcast.IsBroadcastNumber num = true -> (e, i) ∈ hist -> executed_from h0 h ->
    broadcast_signed e h0 -> certified hist h.

Definition entry_ok (hist : history) (d : blockCacheData) : Prop :=
  payload_ok hist (Types.HashNoSignsAndNonce (ok_Header (bd_block d))) (bd_block d) /\
  (bd_state d = blockStateReady -> certified hist (ok_Header (bd_block d))).

Definition event_ok (hist : history) (ev : gen_event) : Prop :=
  match ev with
  | Inserted block txs rc st =>
      exists h b, block = Manash.NewBlockWithTxs DeriveSha_txs h txs /\ certified hist h /\
        payload_ok hist (Types.HashNoSignsAndNonce h) b /\
        txs = default [] (ok_Txs b) /\ rc = ok_Receipts b /\ st = ok_State b
  | NewBlockReady h => certified hist h
  | _ => True
  end.

(** The results of broadcast nodes were checked before they were kept. *)
Definition result_ok (hist : history) (r : BlockData) : Prop :=
  exists e r0, (e, InBroadcastResult r0) ∈ hist /\ preVerifyBroadcastMinerResult e r0 = true /\
    dt_Txs r = dt_Txs r0 /\ executed_from (dt_Header r0) (dt_Header r).

Definition inv (hist : history) (p : Process) : Prop :=
  number p = num /\ (forall k d, p_blockCache p !! k = Some d -> entry_ok hist d) /\
  Forall (event_ok hist) (p_out p) /\ Forall (result_ok hist) (broadcastRstCache p).

Lemma certified_mono hist hist' h : hist ⊆ hist' -> certified hist h -> certified hist' h.
Proof. intros Hs []; [by constructor 1|econstructor 2; eauto|econstructor 3; eauto]. Qed.

Lemma payload_mono hist hist' h b : hist ⊆ hist' -> payload_ok hist h b -> payload_ok hist' h b.
Proof. intros Hs []; [econstructor 1|econstructor 2|econstructor 3]; eauto. Qed.

(** The header of the block does not matter. *)
Lemma payload_set_header hist h b hd : payload_ok hist h b -> payload_ok hist h (set_ok_Header b hd).
Proof. intros []; [econstructor 1|econstructor 2|econstructor 3]; eauto. Qed.

Lemma inv_mono hist hist' p : hist ⊆ hist' -> inv hist p -> inv hist' p.
Proof.
  intros Hs (Hn & Hc & Ho & Hr). split_and!; [done| | |].
  - intros k d Hd. destruct (Hc k d Hd) as [Hp Hready]. split; [by eapply payload_mono|].
    intros Hr'. by eapply certified_mono; [|apply Hready].
  - eapply Forall_impl; [exact Ho|]. intros [] Hev; try done; cbn in *.
    + by eapply certified_mono.
    + destruct Hev as (h & b & -> & Hcert & Hpay & Heq). exists h, b.
      split_and!; try apply Heq; [done|by eapply certified_mono|by eapply payload_mono].
  - eapply Forall_impl; [exact Hr|]. intros r (e & r0 & Hin & Hr0). exists e, r0. auto.
Qed.

(** A change of other fields, with harmless events. *)
Lemma inv_same hist p p' l :
  number p' = number p -> p_blockCache p' = p_blockCache p -> p_out p' = p_out p ++ l ->
  broadcastRstCache p' = broadcastRstCache p ->
  Forall (event_ok hist) l -> inv hist p -> inv hist p'.
Proof.
  intros Hn Hc Ho Hr Hl (Hn' & Hc' & Ho' & Hr'). split_and!; [by rewrite Hn|by rewrite Hc| |by rewrite Hr].
  rewrite Ho. by apply Forall_app.
Qed.

Ltac evs := repeat (apply Forall_cons_2; [cbn; by auto|]); apply Forall_nil_2.
Ltac same l :=
  eapply (inv_same _ _ _ l); [..|eassumption];
  [done|done|cbn; rewrite ?app_nil_r; done|done|solve [evs]].

Lemma inv_cache hist p k d :
  inv hist p -> entry_ok hist d -> inv hist (set_blockCache (<[k := d]> (p_blockCache p)) p).
Proof.
  intros (Hn & Hc & Ho & Hr) Hd. split_and!; [done| |done|done]. cbn. intros k' d'.
  destruct (decide (k' = k)) as [->|Hne]; [rewrite lookup_insert_eq; by intros [= <-]|].
  rewrite lookup_insert_ne by done. apply Hc.
Qed.

Lemma current_block_cached leader p k d :
  current_block leader p = Some (k, d) -> p_blockCache p !! k = Some d.
Proof.
  unfold current_block. case_match; [apply BlockCache.GetLastBlockData_Some|apply BlockCache.GetBlockData_Some].
Qed.

Lemma insertAndBcBlock_inv hist e header p :
  inv hist p -> (forall h, header = Some h -> certified hist h) ->
  inv hist (insertAndBcBlock e header p).1.
Proof.
  intros Hinv Hcert. unfold insertAndBcBlock.
  destruct (current_block (curLeader p) p) as [[k d]|] eqn:Ed; [|done].
  apply current_block_cached in Ed. case_bool_decide as Hr; [|done]. cbn [negb].
  destruct (proj1 (proj2 Hinv) k d Ed) as [Hpay Hready]. specialize (Hready Hr).
  set (txs := default [] (ok_Txs (bd_block d))).
  assert (forall h, certified hist h ->
    Types.HashNoSignsAndNonce h = Types.HashNoSignsAndNonce (ok_Header (bd_block d)) ->
    inv hist (emit (HeaderGenerateReq (u64 (number p + 1)))
      (emit (Inserted (Manash.NewBlockWithTxs DeriveSha_txs h txs) txs (ok_Receipts (bd_block d))
               (ok_State (bd_block d))) p))) as Hins.
  { intros h Hch Hh. eapply (inv_same _ p _ [_; _]); [done|done|cbn; by rewrite <- app_assoc|done| |done].
    apply Forall_cons_2; [|evs]. exists h, (bd_block d). by rewrite Hh. }
  destruct header as [h|]; [case_bool_decide; [|done]|]; cbn [negb]; (case_match; [|done]); by apply Hins; auto.
Qed.

Lemma processBlockInsert_inv hist e p : inv hist p -> inv hist (processBlockInsert e p).
Proof.
  intros Hinv. unfold processBlockInsert. do 2 (case_match; [done|]).
  pose proof (insertAndBcBlock_inv hist e None p Hinv ltac:(done)) as Hi.
  destruct (insertAndBcBlock e None p) as [p' [h|err]]; [|done]. cbn in Hi. by same (@nil gen_event).
Qed.

Lemma block_ready_inv hist e h p : certified hist h -> inv hist p -> inv hist (block_ready e h p).
Proof. intros Hc Hinv. apply processBlockInsert_inv. by same [NewBlockReady h]. Qed.

(** Only the pool changes, and the result picked verifies. *)
Lemma pick_spec hist h results p :
  inv hist p -> inv hist (pickSatisfyMinerResults h results p).1 /\
  forall r, (pickSatisfyMinerResults h results p).2 = Ok r -> verifyOneResult h r = Ok tt.
Proof.
  revert p. induction results as [|r results IH]; intros p Hinv; cbn [pickSatisfyMinerResults]; [done|].
  destruct (verifyOneResult h r) as [[]|] eqn:Ev; [by split; [|intros r' [= <-]]|].
  apply IH. by same (@nil gen_event).
Qed.

Lemma verified_certified hist h r : verifyOneResult h r = Ok tt -> certified hist (copyHeader h r).
Proof.
  unfold verifyOneResult. case_match; [done|]. case_match; [done|]. case_match; [done|].
  bool_to_prop. by constructor 1.
Qed.

Lemma dealMinerResultVerifyCommon_inv hist e leader p :
  inv hist p -> inv hist (dealMinerResultVerifyCommon e leader p).
Proof.
  intros Hinv. unfold dealMinerResultVerifyCommon.
  destruct (current_block leader p) as [[k d]|] eqn:Ed; [|done].
  apply current_block_cached in Ed. destruct (proj1 (proj2 Hinv) k d Ed) as [Hpay Hready].
  destruct (bd_state d) eqn:Es; [|by apply block_ready_inv; auto].
  destruct (PowPool.GetMinerResults _ _ _) as [results|]; [|done].
  destruct (pick_spec hist (ok_Header (bd_block d)) results p Hinv) as [Hi Hv].
  destruct (pickSatisfyMinerResults _ _ _) as [p' [r|]]; [|done]. cbn in *.
  specialize (Hv r eq_refl). apply block_ready_inv; [by apply verified_certified|].
  apply inv_cache; [done|]. split; [by apply payload_set_header|].
  intros _. by apply verified_certified.
Qed.

Lemma executed_from_refl h : executed_from h h.
Proof. exists (GasUsed h), (Root h). by destruct h. Qed.

Lemma preVerify_signed e r :
  preVerifyBroadcastMinerResult e r = true -> broadcast_signed e (dt_Header r).
Proof.
  unfold preVerifyBroadcastMinerResult. destruct (_ =? RoleBroadcast) eqn:Er; [|done]. cbn [negb].
  destruct (Signatures (dt_Header r)) as [|sign []] eqn:Es; try done. case_match; [done|].
  destruct (Signature.VerifySignWithValidate _ sign) as [[from validate]|] eqn:Ev; [|done].
  case_bool_decide; [subst from|done]. bool_to_prop. intros _. by eexists sign, validate, _; rewrite Es.
Qed.

Section Step.
Context (hist : history) (e : Env) (i : input) (Hin : (e, i) ∈ hist).

Lemma run_broadcast_spec l l' r :
  Forall (result_ok hist) l -> run_broadcast e l = (l', r) ->
  Forall (result_ok hist) l' /\
  forall block, r = Ready block -> payload_ok hist (Types.HashNoSignsAndNonce (ok_Header block)) block /\
    exists e0 i0 h0, (e0, i0) ∈ hist /\ executed_from h0 (ok_Header block) /\ broadcast_signed e0 h0.
Proof.
  revert l' r. induction l as [|res l IH]; intros l' r Hl; cbn [run_broadcast]; [by intros [= <- <-]|].
  apply Forall_cons in Hl as [Hres Hl].
  assert ((let '(l'', r0) := run_broadcast e l in (res :: l'', r0)) = (l', r) ->
    Forall (result_ok hist) l' /\ forall block, r = Ready block ->
      payload_ok hist (Types.HashNoSignsAndNonce (ok_Header block)) block /\
      exists e0 i0 h0, (e0, i0) ∈ hist /\ executed_from h0 (ok_Header block) /\ broadcast_signed e0 h0) as Hskip.
  { destruct (run_broadcast e l) as [l1 r1]. intros [= <- <-].
    destruct (IH l1 r1 Hl eq_refl) as [Hl1 Hr1]. split; [by constructor|done]. }
  destruct (GetBlockByHash e _); [|done]. destruct (Work.NewWork _ _) as [w0|] eqn:E0; [|done].
  destruct (Work.ProcessBroadcastTransactions _ _ _) as [w|] eqn:Ep;
    [|intros [= <- <-]; by split; [constructor|]].
  destruct (Manash.Finalize _ _ _ _ _ _ _) as [[hd st] blk] eqn:Ef. intros [= <- <-].
  assert (w_header w0 = dt_Header res) as Hw0.
  { revert E0. unfold Work.NewWork. destruct (StateAt e _); [|done]. by intros [= <-]. }
  assert (executed_from (dt_Header res) hd) as Hexec.
  { revert Ef. unfold Manash.Finalize. destruct (IntermediateRoot _ _) as [st1 root]. intros [= <- _ _].
    rewrite (Work.ProcessBroadcastTransactions_header _ _ _ _ Ep), Hw0. by eexists _, _. }
  destruct Hres as (e0 & r0 & Hin0 & Hpre & Htxs & g0 & root0 & Hr0). split.
  - constructor; [|done]. exists e0, r0. split_and!; [done|done|done|]. cbn.
    destruct Hexec as (g & root & ->). rewrite Hr0. by exists g, root.
  - intros block [= <-]. split.
    + eapply payload_broadcast; [exact Hin|by rewrite Hw0|exact Ep|exact Ef|done..].
    + exists e0, (InBroadcastResult r0), (dt_Header r0). split_and!; [done| |by apply preVerify_signed].
      cbn. destruct Hexec as (g & root & ->). rewrite Hr0. by exists g, root.
Qed.

Lemma dealMinerResultVerifyBroadcast_inv p :
  Broadcast.IsBroadcastNumber num = true -> inv hist p -> inv hist (dealMinerResultVerifyBroadcast e p).
Proof.
  intros Hb Hinv. unfold dealMinerResultVerifyBroadcast.
  destruct (run_broadcast e (broadcastRstCache p)) as [l r] eqn:Er.
  destruct (run_broadcast_spec _ _ _ (proj2 (proj2 (proj2 Hinv))) Er) as [Hl Hr].
  assert (inv hist (set_broadcastRst l p)) as Hinv1 by (destruct Hinv as (? & ? & ? & _); by split_and!).
  destruct r as [| |block]; [done|by same [Panicked]|].
  destruct (Hr block eq_refl) as (Hpay & e0 & i0 & h0 & Hin0 & Hexec & Hsign).
  assert (certified hist (ok_Header block)) as Hc by (by econstructor 3).
  apply processBlockInsert_inv.
  assert (inv hist (set_blockCache (BlockCache.SaveReadyBlock block (p_blockCache p)) (set_broadcastRst l p)))
    as Hinv2 by (by apply (inv_cache hist (set_broadcastRst l p))).
  unfold changeState. case_match; by same [NewBlockReady (ok_Header block)].
Qed.

Lemma processMinerResultVerify_inv leader check p :
  inv hist p -> inv hist (processMinerResultVerify e leader check p).
Proof.
  intros Hinv. unfold processMinerResultVerify. case_match; [done|]. rewrite (proj1 Hinv).
  case_match; [by apply dealMinerResultVerifyBroadcast_inv|by apply dealMinerResultVerifyCommon_inv].
Qed.

Lemma await_result_inv p : inv hist p -> inv hist (await_result e p).
Proof. intros Hinv. apply processMinerResultVerify_inv. by same (@nil gen_event). Qed.

Lemma processHeaderGen_inv p : inv hist p -> inv hist (processHeaderGen e p).1.
Proof.
  intros Hinv. unfold processHeaderGen. destruct (getParentBlock e p); [|done].
  destruct (_.2) as [header|]; [|done]. case_match.
  - unfold gen_broadcast. destruct (Work.NewWork _ _); [|done].
    destruct (Work.ProcessBroadcastTransactions _ _ _); [|by same [Panicked]].
    destruct (Manash.Finalize _ _ _ _ _ _ _) as [[? ?] ?]. case_match; [|done]. eapply inv_same; cbn; eauto.
    solve [evs].
  - unfold gen_ordinary.
    destruct (Work.pack _ _ _ _ _ _) as [[[[[? ?] ?] ?] ?]|[]]; [|done|by same [Panicked]].
    unfold startConsensusReqSender.
    case_match; eapply inv_same; cbn; rewrite <- ?app_assoc; eauto; solve [evs].
Qed.

Lemma startHeaderGen_inv p : inv hist p -> inv hist (startHeaderGen e p).
Proof.
  intros Hinv. unfold startHeaderGen. case_match; [done|].
  assert (inv hist (canGenHeader e p).1) as Hcan.
  { unfold canGenHeader. repeat case_match; cbn; auto using await_result_inv. }
  destruct (canGenHeader e p) as [p1 []]; [|done]. cbn in Hcan.
  pose proof (processHeaderGen_inv p1 Hcan) as Hg.
  destruct (processHeaderGen e p1) as [p2 []]; [|done]. by apply await_result_inv.
Qed.

Lemma startBcBlock_inv p : inv hist p -> inv hist (startBcBlock e p).
Proof.
  intros Hinv. unfold startBcBlock. do 2 (case_match; [done|]).
  destruct (GetHeaderByNumber e _) as [h|]; [|by same [Panicked]]. apply startHeaderGen_inv.
  case_match; [by same (@nil gen_event)|by same [SendBlockInsert h]].
Qed.

Lemma startBlockInsert_inv h p : inv hist p -> inv hist (startBlockInsert e h p).
Proof.
  intros Hinv. unfold startBlockInsert. case_match; [done|]. rewrite (proj1 Hinv).
  set (insert := match insertAndBcBlock _ _ _ with (_, _) => _ end).
  assert (certified hist h -> inv hist insert) as Hins.
  { intros Hc. pose proof (insertAndBcBlock_inv hist e (Some h) p Hinv ltac:(by intros ? [= <-])) as Hi.
    unfold insert. destruct (insertAndBcBlock e (Some h) p) as [p' []]; cbn in Hi; [by same (@nil gen_event)|].
    by eapply (inv_same _ p' _ [_]); [done|done|done|done|evs|]. }
  clearbody insert. destruct (Broadcast.IsBroadcastNumber num) eqn:Eb.
  - destruct (Signatures h) as [|sign signs] eqn:Es; [by same [Panicked]|].
    destruct (Signature.VerifySignWithValidate _ sign) as [[a v]|] eqn:Ev; [|done].
    case_bool_decide; [subst a|done]. destruct (_ =? RoleBroadcast) eqn:Er; [|done]. cbn [negb].
    bool_to_prop. apply Hins. econstructor 3; [done|exact Hin|apply executed_from_refl|].
    by eexists sign, v, _; rewrite Es.
  - destruct (is_ok _) eqn:Ev; [|done]. destruct (VerifySeal h) eqn:Es; [|done]. apply Hins. by constructor 1.
Qed.

Lemma ProcessFullBlockRsp_inv header txs p :
  i = InFullBlockRsp header txs -> inv hist p -> inv hist (ProcessFullBlockRsp e header txs p).
Proof.
  intros Hi Hinv. unfold ProcessFullBlockRsp. case_match; [done|].
  destruct (VerifyHeader e header) eqn:Eh; [|done]. destruct (is_ok (VerifyBlock reader header)) eqn:Eb; [|done].
  cbn [negb]. destruct (runTxs e header _ txs) as [[rc st]|] eqn:Er; [|done].
  assert (certified hist header) as Hc by (by econstructor 2).
  apply block_ready_inv; [done|]. apply inv_cache; [done|]. split; [|done].
  eapply payload_executed; [by rewrite <- Hi|done|exact Er|done..].
Qed.

Lemma ProcessRecoveryMsg_inv header from p : inv hist p -> inv hist (ProcessRecoveryMsg e header from p).
Proof.
  intros Hinv. unfold ProcessRecoveryMsg. set (q := processMinerResultVerify _ _ _ _).
  assert (inv hist q) as Hq by (apply processMinerResultVerify_inv; by same (@nil gen_event)).
  clearbody q. case_match; [done|].
  case_match; [|by eapply (inv_same _ q _ [_]); [done|done|done|done|evs|done]].
  destruct (ReuseMsg.ReUseMsg _ _ _) as [c []]; [|by same (@nil gen_event)].
  by eapply (inv_same _ q _ [_]); [done|done|done|done|evs|done].
Qed.

Lemma step_inv_in p : inv hist p -> inv hist (step e i p).
Proof.
  intros Hinv. assert (exists j, j = i) as [j Ei] by eauto. rewrite <- Ei. destruct j; cbn [step].
  - apply startBcBlock_inv. unfold changeState. case_match; by same (@nil gen_event).
  - by same (@nil gen_event).
  - unfold ReInit. case_match; [done|]. by same (@nil gen_event).
  - by same (@nil gen_event).
  - unfold SetCurLeader. case_match; [done|]. case_match; [by same (@nil gen_event)|].
    apply startBcBlock_inv. by same (@nil gen_event).
  - unfold SetNextLeader. case_match; [done|]. case_match; [|apply processBlockInsert_inv];
      by same (@nil gen_event).
  - by apply startBlockInsert_inv.
  - unfold AddMinerResult. destruct (PowPool.AddMinerResult _ _ _ _) as [pp []];
      [|apply processMinerResultVerify_inv]; by same (@nil gen_event).
  - unfold AddBroadcastMinerResult. destruct (preVerifyBroadcastMinerResult e result) eqn:Ep; [|done].
    apply processMinerResultVerify_inv. destruct Hinv as (? & ? & ? & Hr). split_and!; [done|done|done|].
    cbn. apply Forall_app. split; [done|]. apply Forall_singleton. exists e, result.
    split_and!; [by rewrite Ei|done|done|apply executed_from_refl].
  - apply processMinerResultVerify_inv. unfold BlockCache.SaveVerifiedBlock.
    case_match; [by same (@nil gen_event)|]. apply inv_cache; [done|]. split; [|done].
    eapply payload_verified; [by rewrite Ei|done..].
  - by apply ProcessRecoveryMsg_inv.
  - unfold ProcessFullBlockReq. destruct (BlockCache.GetBlockDataByBlockHash _ _) as [[k d]|]; [|done].
    case_match; [done|]. by eapply (inv_same _ p _ [_]); [done|done|done|done|evs|done].
  - by eapply ProcessFullBlockRsp_inv.
Qed.

End Step.

Lemma gen_run_inv ins : inv ins (run (newProcess num) ins).
Proof.
  induction ins as [|[e i] ins IH] using rev_ind; [by split_and!|].
  unfold run. rewrite foldl_app. cbn [foldl fst snd]. apply step_inv_in; [set_solver|].
  eapply inv_mono; [|exact IH]. set_solver.
Qed.

End Height.

Lemma inserted_certified num ins block txs rc st :
  Inserted block txs rc st ∈ p_out (run (newProcess num) ins) ->
  exists h b, block = Manash.NewBlockWithTxs DeriveSha_txs h txs /\ certified num ins h /\
    payload_ok ins (Types.HashNoSignsAndNonce h) b /\
    txs = default [] (ok_Txs b) /\ rc = ok_Receipts b /\ st = ok_State b.
Proof.
  intros Hin. destruct (gen_run_inv num ins) as (_ & _ & Hev & _). rewrite Forall_forall in Hev.
  exact (Hev _ Hin).
Qed.

(** Every block the process of a height writes to the chain is certified: it
    is the block [NewBlockWithTxs] makes of a header whose signatures the DPOS
    engine and whose seal the proof-of-work engine accept (at a broadcast height
    also of a header executed from one that a broadcast node signed), and its
    transactions, receipts and state are those that were verified for exactly
    the signing hash of this header. *)
Theorem inserted_blocks_certified num ins block txs rc st :
  Inserted block txs rc st ∈ p_out (run (newProcess num) ins) ->
  exists h b, block = Manash.NewBlockWithTxs DeriveSha_txs h txs /\ certified num ins h /\
    payload_ok ins (Types.HashNoSignsAndNonce h) b /\
    txs = default [] (ok_Txs b) /\ rc = ok_Receipts b /\ st = ok_State b.
Proof.
  intros Hin. destruct (gen_run_inv num ins) as (_ & _ & Hev & _). rewrite Forall_forall in Hev.
  exact (Hev _ Hin).
Qed.

(** ** The pool of mining results *)

Lemma insertAndBcBlock_pool e header p : powPool (insertAndBcBlock e header p).1 = powPool p.
Proof.
  unfold insertAndBcBlock. destruct (current_block _ p) as [[k d]|]; [|done].
  case_match; [done|]. destruct header; repeat case_match; done.
Qed.

Lemma processBlockInsert_pool e p : powPool (processBlockInsert e p) = powPool p.
Proof.
  unfold processBlockInsert. do 2 (case_match; [done|]).
  pose proof (insertAndBcBlock_pool e None p) as Hi.
  by destruct (insertAndBcBlock e None p) as [p' []].
Qed.

Lemma dealMinerResultVerifyBroadcast_pool e p :
  powPool (dealMinerResultVerifyBroadcast e p) = powPool p.
Proof.
  unfold dealMinerResultVerifyBroadcast. destruct (run_broadcast e _) as [l []]; [done|done|].
  rewrite processBlockInsert_pool. unfold changeState. by case_match.
Qed.

Lemma processHeaderGen_pool e p : powPool (processHeaderGen e p).1 = powPool p.
Proof.
  unfold processHeaderGen. destruct (getParentBlock e p); [|done]. destruct (_.2); [|done]. case_match.
  - unfold gen_broadcast. destruct (Work.NewWork _ _); [|done].
    destruct (Work.ProcessBroadcastTransactions _ _ _); [|done].
    destruct (Manash.Finalize _ _ _ _ _ _ _) as [[? ?] ?]. by case_match.
  - unfold gen_ordinary, startConsensusReqSender.
    destruct (Work.pack _ _ _ _ _ _) as [[[[[? ?] ?] ?] ?]|[]]; try done. by case_match.
Qed.

Lemma startBlockInsert_pool e h p : powPool (startBlockInsert e h p) = powPool p.
Proof.
  unfold startBlockInsert. case_match; [done|].
  set (insert := match insertAndBcBlock _ _ _ with (_, _) => _ end).
  assert (powPool insert = powPool p) as Hi.
  { unfold insert. pose proof (insertAndBcBlock_pool e (Some h) p) as Hi.
    by destruct (insertAndBcBlock e (Some h) p) as [p' []]. }
  clearbody insert. by repeat case_match.
Qed.

(** A property of the pool that its two operations keep, as the process calls
    them, is kept by the process. *)
Section Pool.
Context (Q : PowPool -> Prop).
Context (Hadd : forall r pp, Q pp -> Q (PowPool.AddMinerResult (mr_BlockHash r) (mr_Difficulty r) r pp).1).
Context (Hdel : forall r pp, Q pp ->
  Q (PowPool.DelOneResult (mr_BlockHash r) (mr_Difficulty r) (mr_From r) pp)).

Lemma processMinerResultVerify_pool e leader check p :
  Q (powPool p) -> Q (powPool (processMinerResultVerify e leader check p)).
Proof.
  intros HQ. unfold processMinerResultVerify. case_match; [done|]. case_match.
  { by rewrite dealMinerResultVerifyBroadcast_pool. }
  unfold dealMinerResultVerifyCommon. destruct (current_block leader p) as [[k d]|]; [|done].
  unfold block_ready. case_match; [|by rewrite processBlockInsert_pool].
  destruct (PowPool.GetMinerResults _ _ _) as [results|]; [|done].
  assert (Q (powPool (pickSatisfyMinerResults (ok_Header (bd_block d)) results p).1)) as Hp.
  { clear -HQ Hdel. revert p HQ. induction results as [|r results IH]; intros p HQ;
      cbn [pickSatisfyMinerResults]; [done|]. case_match; [done|]. apply IH. by apply Hdel. }
  destruct (pickSatisfyMinerResults _ _ _) as [p' []]; [|done]. by rewrite processBlockInsert_pool.
Qed.

Lemma startBcBlock_pool e p : Q (powPool p) -> Q (powPool (startBcBlock e p)).
Proof.
  intros HQ. unfold startBcBlock. do 2 (case_match; [done|]). destruct (GetHeaderByNumber e _) as [h|]; [|done].
  set (q := set_state _ _). assert (Q (powPool q)) as Hq by (unfold q; by case_match). clearbody q.
  assert (forall q, Q (powPool q) -> Q (powPool (await_result e q))) as Hw
    by (intros; by apply processMinerResultVerify_pool).
  unfold startHeaderGen. case_match; [done|].
  assert (Q (powPool (canGenHeader e q).1)) as Hc by (unfold canGenHeader; repeat case_match; cbn; auto).
  destruct (canGenHeader e q) as [p1 []]; [|done]. cbn in Hc.
  rewrite <- (processHeaderGen_pool e) in Hc. destruct (processHeaderGen e p1) as [p2 []]; auto.
Qed.

Lemma step_pool e i p : Q (powPool p) -> Q (powPool (step e i p)).
Proof.
  intros HQ. destruct i; cbn [step]; try done.
  - apply startBcBlock_pool. unfold changeState. by case_match.
  - unfold ReInit. by case_match.
  - unfold SetCurLeader. case_match; [done|]. case_match; [done|]. by apply startBcBlock_pool.
  - unfold SetNextLeader. repeat case_match; rewrite ?processBlockInsert_pool; done.
  - unfold AddInsertBlockInfo. by rewrite startBlockInsert_pool.
  - unfold AddMinerResult. apply (Hadd r) in HQ.
    destruct (PowPool.AddMinerResult _ _ _ _) as [pp []]; [done|]. by apply processMinerResultVerify_pool.
  - unfold AddBroadcastMinerResult. case_match; [done|]. by apply processMinerResultVerify_pool.
  - by apply processMinerResultVerify_pool.
  - unfold ProcessRecoveryMsg. set (q := processMinerResultVerify _ _ _ _).
    assert (Q (powPool q)) as Hq.
    { apply processMinerResultVerify_pool. by apply (Hadd (result_of header)). }
    clearbody q. case_match; [done|]. case_match; [|done]. by destruct (ReuseMsg.ReUseMsg _ _ _) as [c []].
  - unfold ProcessFullBlockReq. by repeat case_match.
  - unfold ProcessFullBlockRsp. repeat case_match; try done. unfold block_ready.
    by rewrite processBlockInsert_pool.
Qed.
End Pool.

(** In every run of a process, the counter of a miner is the number of its
    results in the pool, at most five; every result is found under its own
    signing hash and difficulty. *)
Theorem mining_results_bounded num ins :
  let pp := powPool (run (newProcess num) ins) in
  countLimit pp = 5 /\ PowPool.counts_ok pp /\ PowPool.keys_ok pp.
Proof.
  set (Q := fun pp => countLimit pp = 5 /\ PowPool.counts_ok pp /\ PowPool.keys_ok pp).
  change (Q (powPool (run (newProcess num) ins))). unfold run.
  assert (Q (powPool (newProcess num))) as HQ.
  { split_and!; [done|apply PowPool.counts_ok_NewPowPool|apply PowPool.keys_ok_NewPowPool]. }
  revert HQ. generalize (newProcess num). induction ins as [|[e i] ins IH]; intros p HQ; [done|].
  apply IH. apply step_pool; [| |done].
  - intros r pp (Hl & Hc & Hk). split_and!; [|by apply PowPool.counts_ok_AddMinerResult|by apply PowPool.keys_ok_AddMinerResult].
    destruct (PowPool.AddMinerResult _ _ r pp) as [pp' err] eqn:Ea.
    etrans; [exact (proj1 (PowPool.AddMinerResult_results _ _ _ _ _ _ Ea))|done].
  - intros r pp (Hl & Hc & Hk). split_and!; [|by apply PowPool.counts_ok_DelOneResult|by apply PowPool.keys_ok_DelOneResult].
    etrans; [exact (proj1 (PowPool.DelOneResult_results _ _ _ _))|done].
Qed.

(** ** Proposals *)

(** Events are only added. *)
Lemma processBlockInsert_out e p : p_out p `prefix_of` p_out (processBlockInsert e p).
Proof.
  unfold processBlockInsert. do 2 (case_match; [done|]).
  assert (p_out p `prefix_of` p_out (insertAndBcBlock e None p).1) as Hi.
  { unfold insertAndBcBlock. destruct (current_block _ p) as [[k d]|]; [|done].
    case_match; [done|]. case_match; [|done]. cbn. rewrite <- app_assoc. by eexists. }
  by destruct (insertAndBcBlock e None p) as [p' []].
Qed.

Lemma await_result_out e p :
  Broadcast.IsBroadcastNumber (number p) = false -> p_out p `prefix_of` p_out (await_result e p).
Proof.
  intros Hn. unfold await_result, processMinerResultVerify. case_match; [done|].
  change (number (set_state ?s ?q)) with (number q). rewrite Hn.
  unfold dealMinerResultVerifyCommon. set (q := set_state _ p).
  assert (forall h q', p_out q `prefix_of` p_out q' -> p_out q `prefix_of` p_out (block_ready e h q')) as Hready.
  { intros h q' Hq. etrans; [|apply processBlockInsert_out]. cbn. by apply prefix_app_r. }
  assert (forall h l q', p_out (pickSatisfyMinerResults h l q').1 = p_out q') as Hpick.
  { intros h l. induction l as [|r l IH]; intros q'; cbn [pickSatisfyMinerResults]; [done|].
    case_match; [done|]. by rewrite IH. }
  destruct (current_block _ q) as [[k d]|]; [|done]. case_match; [|by apply Hready].
  destruct (PowPool.GetMinerResults _ _ _) as [results|]; [|done].
  specialize (Hpick (ok_Header (bd_block d)) results q).
  destruct (pickSatisfyMinerResults _ _ _) as [p' []]; [|cbn in Hpick; by rewrite Hpick].
  apply Hready. cbn in *. by rewrite Hpick.
Qed.

(** What the leader of a height [num] needs: the parent block and its state. *)
Record knows_parent (e : Env) (num : Z) (parent : Header) (st0 : state) : Prop := {
  kp_number : GetHeaderByNumber e (num - 1) = Some parent;
  kp_block : GetBlockByHash e (Types.Header_Hash parent) = Some parent;
  kp_header : GetHeader e (Types.Header_Hash parent) (num - 1) = Some parent;
  kp_hash : Types.Header_Hash parent <> 0%N;
  kp_state : StateAt e (Types.Header_Hash parent) = Some st0
}.

(** The header a leader starts from. *)
Definition proposal (e : Env) (parent : Header) (num : Z) : Header :=
  set_Difficulty (header_of e parent (newProcess num))
    (Manash.CalcDifficulty config (manash_big1 e) (Uint64 (time_stamp e parent)) parent).1.

(** The guards that make a process propose. *)
Definition ready_to_lead (p : Process) (turn : Z) : Prop :=
  role p = RoleValidator /\ p_state p <> StateIdle /\ 1 < number p < 2 ^ 64 /\ self <> 0%N /\
  Broadcast.IsBroadcastNumber (number p) = false /\ (curLeader p <> self \/ consensusTurn p <> turn).

Lemma startBcBlock_validator e p parent :
  role p = RoleValidator -> p_state p = StateBlockBroadcast -> curLeader p <> 0%N -> 1 < number p < 2 ^ 64 ->
  GetHeaderByNumber e (number p - 1) = Some parent ->
  startBcBlock e p = startHeaderGen e (set_state StateHeaderGen
    (set_preBlockHash (Types.Header_Hash parent) (emit (SendBlockInsert parent) p))).
Proof.
  intros Hr Hs Hc Hn Hh. unfold startBcBlock, checkState, canBcBlock.
  rewrite Hr, Hs, bool_decide_true by done. change (RoleValidator =? RoleBroadcast) with false.
  change (RoleValidator =? RoleValidator) with true. rewrite bool_decide_false by done. cbn [negb].
  rewrite u64_small by (unfold in_u64; lia). rewrite Hh.
  by rewrite (proj2 (Z.eqb_neq (number p) 1)) by lia.
Qed.

Lemma startHeaderGen_leader e p :
  role p = RoleValidator -> p_state p = StateHeaderGen -> curLeader p = self -> self <> 0%N ->
  Broadcast.IsBroadcastNumber (number p) = false ->
  startHeaderGen e p = match processHeaderGen e p with
                       | (p, Err _) => p
                       | (p, Ok _) => await_result e p
                       end.
Proof.
  intros Hr Hs Hc Hself Hb. unfold startHeaderGen, checkState, canGenHeader.
  rewrite Hr, Hs, Hb, Hc, bool_decide_true by done. change (RoleValidator =? RoleBroadcast) with false.
  change (RoleValidator =? RoleValidator) with true. cbn [negb].
  by rewrite (bool_decide_false (self = 0%N)), bool_decide_true by done.
Qed.

Lemma processHeaderGen_ordinary e p parent st0 :
  knows_parent e (number p) parent st0 -> 1 < number p < 2 ^ 64 ->
  preBlockHash p = Types.Header_Hash parent -> Broadcast.IsBroadcastNumber (number p) = false ->
  processHeaderGen e p = gen_ordinary e (proposal e parent (number p)) p.
Proof.
  intros Hk Hn Hpre Hb. unfold processHeaderGen, getParentBlock.
  rewrite (proj2 (Z.eqb_neq (number p) 1)) by lia. rewrite Hpre.
  rewrite (bool_decide_false (_ = 0%N)) by apply (kp_hash _ _ _ _ Hk). rewrite (kp_block _ _ _ _ Hk).
  unfold Manash.Prepare. change (header_of e parent p) with (header_of e parent (newProcess (number p))).
  cbn [ParentHash Number Time header_of number newProcess].
  assert (Uint64 (number p) = number p) as Hu by (unfold Uint64; rewrite u64_small; unfold in_u64; lia).
  rewrite Hu, u64_small by (unfold in_u64; lia). rewrite (kp_header _ _ _ _ Hk). unfold proposal.
  destruct (Manash.CalcDifficulty _ _ _ _) as [d big1]. cbn [snd fst].
  change (Number (set_Difficulty _ _)) with (number p). by rewrite Hu, Hb.
Qed.

Lemma SetCurLeader_proposes e turn p parent st0 block codes txs rc st :
  ready_to_lead p turn -> knows_parent e (number p) parent st0 -> NewResendMsgCtrl e = true ->
  Work.pack config (StateAt e) DeriveSha_txs DeriveSha_receipts (proposal e parent (number p)) (Pending e)
  = Ok (block, codes, txs, rc, st) ->
  let req := mkBlkConsensusReq self block turn codes in
  HeaderVerifyReq (mkLocalReq req txs rc st) ∈ p_out (SetCurLeader e self turn p) /\
  ConsensusReqSender req ∈ p_out (SetCurLeader e self turn p).
Proof.
  intros (Hrole & Hidle & Hn & Hself & Hb & Hnew) Hk Hsend Hpack req. unfold SetCurLeader.
  assert (bool_decide (curLeader p = self) && (consensusTurn p =? turn) = false) as ->.
  { apply andb_false_iff. destruct Hnew; [left; by rewrite bool_decide_false|right; lia]. }
  assert (checkState StateIdle (closeConsensusReqSender (set_leaders self (nextLeader p) turn p)) = false)
    as -> by (by apply bool_decide_false).
  rewrite (startBcBlock_validator e _ parent) by (try done; apply (kp_number _ _ _ _ Hk)).
  set (q := set_state StateHeaderGen _).
  rewrite startHeaderGen_leader, (processHeaderGen_ordinary e q parent st0) by done.
  change (number q) with (number p). unfold gen_ordinary. rewrite Hpack.
  unfold startConsensusReqSender. rewrite Hsend. set (q2 := emit (ConsensusReqSender _) _).
  pose proof (await_result_out e q2 Hb) as [l Hl]. rewrite Hl.
  split; apply elem_of_app; left; unfold q2; cbn; set_solver.
Qed.

End Process.

(** ** Witnesses: account 1 of three validators, height 21, the toy signature scheme *)

Section Witnesses.
#[local] Instance toy : Crypto := Signature.toy_crypto.
#[local] Instance machine : EVM := Accounts.machine.
#[local] Existing Instance sorted_range.
#[local] Instance engine3 : DPOSEngine := MtxDPOS [].
#[local] Instance no_elections : ReElection :=
  {| ElectInfo := unit; TopoInfo := unit; AlterInfo := unit;
     GetElection _ := Some tt; TransferToElectionStu _ := [];
     GetNetTopologyAll _ := None; TransferToNetTopologyAllStu _ := mkNetTopology 0 [];
     ParseTopNodeOffline _ _ := []; ParsePrimaryTopNodeState _ := ([], []);
     GetTopoChange _ _ := None; TransferToNetTopologyChgStu _ _ _ := mkNetTopology 0 [] |}.

Definition env3 : Env :=
  mkEnv (fun n => Some (Dpos.block3 n)) (fun _ n => Some (Dpos.block3 n)) (fun _ => Some (Dpos.block3 20))
    (Dpos.block3 0) (fun _ => Some (Accounts.mkAccounts ∅ (0%N, 0))) (Some ∅) ∅ (fun _ => None)
    (fun _ _ _ _ => true) true 1000 1.

Definition run3 (ins : list input) : Process :=
  run Work.config0 (fun txs => N.of_nat (length txs)) (fun r => N.of_nat (length r))
    (mkEthash false false 0) (fun _ _ => (MixDigest (Dpos.block3 21), 0)) (fun _ => true) Dpos.reader3
    (fun _ _ => None) [] 1%N (fun _ _ => None) (newProcess 21) (map (fun i => (env3, i)) ins).

(** The verified block of leader 3 arrives, then its mining result; account 1
    leads the next height and inserts the block. *)
Definition hash3 : Hash := Types.HashNoSignsAndNonce (Dpos.block3 21).
Definition scenario3 : list input :=
  [InStart RoleValidator; InCurLeader 3%N 0;
   InConsensusBlock (mkLocalVerifyOK (Dpos.block3 21) hash3 (Some []) (Some [])
                       (Some (Accounts.mkAccounts ∅ (0%N, 0))));
   InMinerResult (mkMiningRsp 7%N 21 hash3 (Difficulty (Dpos.block3 21)) 5%N 7%N
                    (MixDigest (Dpos.block3 21)) [256%N; 512%N; 768%N]);
   InNextLeader 1%N].

Definition inserted3 : Header :=
  default (Dpos.block3 0) (head (omap (fun ev => match ev with Inserted b _ _ _ => Some b | _ => None end)
                                   (p_out (run3 scenario3)))).

Lemma inserted_blocks_certified_witness :
  Coinbase inserted3 = 7%N /\ p_state (run3 scenario3) = StateEnd /\
  exists h b, inserted3 = Manash.NewBlockWithTxs (fun txs => N.of_nat (length txs)) h [] /\
    certified Work.config0 (mkEthash false false 0) (fun _ _ => (MixDigest (Dpos.block3 21), 0))
      (fun _ => true) Dpos.reader3 [] 21 (map (fun i => (env3, i)) scenario3) h /\
    payload_ok Work.config0 (fun txs => N.of_nat (length txs)) (fun r => N.of_nat (length r))
      (map (fun i => (env3, i)) scenario3) (Types.HashNoSignsAndNonce h) b /\
    [] = default [] (ok_Txs b) /\ Some [] = ok_Receipts b /\
    Some (Accounts.mkAccounts ∅ (0%N, 0)) = ok_State b.
Proof.
  split; [vm_compute; reflexivity|]. split; [vm_compute; reflexivity|].
  refine (inserted_blocks_certified Work.config0 (fun txs => N.of_nat (length txs))
    (fun r => N.of_nat (length r)) (mkEthash false false 0) (fun _ _ => (MixDigest (Dpos.block3 21), 0))
    (fun _ => true) Dpos.reader3 (fun _ _ => None) [] 1%N (fun _ _ => None) 21
    (map (fun i => (env3, i)) scenario3) inserted3 [] (Some []) (Some (Accounts.mkAccounts ∅ (0%N, 0))) _).
  apply (list_elem_of_lookup_2 _ 2).
  vm_cast_no_check (eq_refl (Some (Inserted inserted3 [] (Some []) (Some (Accounts.mkAccounts ∅ (0%N, 0)))))).
Defined.

End Witnesses.
End BlkGen.
