(* ===== verification/Agreement.v ===== *)
(** * Proposing and verifying: the two sides of a turn

    Composes block generation ([BlkGen]) with block verification ([BlkVerify])
    through their concrete implementations: the proof-of-work engine's header
    checks ([Manash]) and the execution of transactions ([Work]).  The main
    theorem is a liveness property of the normal case: what a leader proposes,
    a validator that knows the same parent and has the transactions votes for. *)

From S2P Require Import Prelude Common Rlp Crypto Types Topology Dpos VotePool Engine Controller.
From S2P Require Import TxHeap StateTransition Manash ReqCache Work BlkVerify PowPool BlkGen.

Module Agreement.

(** ** A validator's steps on a request that passes its checks *)

Section Validator.
Context `{Payload} `{GoRange} `{Crypto} `{E : DPOSEngine} `{ReElection}.
Context (reader : ValidatorReader) (GetTopologyByNumber : Z -> Z -> option TopologyGraph).
Context (VerifyHeader : Header -> bool) (execute : Header -> Transactions -> executed).
Context (Sign : Hash -> bool -> option Signature) (clock : nat -> Z).


Abbreviation passed := (BlkVerify.passed GetTopologyByNumber VerifyHeader).
Abbreviation AddReq := (BlkVerify.AddReq reader GetTopologyByNumber VerifyHeader Sign true clock).
Abbreviation VerifyTxs := (BlkVerify.VerifyTxs reader execute Sign true clock).




End Validator.

(** ** A turn *)

Section Turn.
Context `{Crypto} `{EVM} `{!StateTransition.EVMLaws} `{!Work.StateLaws} `{GoRange}.
Context `{Eng : DPOSEngine}.

(** *** What is the same code and configuration on every node *)
Context (config : ChainConfig).
Context (DeriveSha_txs : list Transaction -> Hash) (DeriveSha_receipts : list (Receipt Log) -> Hash).
Context (hashimotoLight : Hash -> N -> Hash * Z) (fork_ok : Header -> bool).

(** *** The leader: its engine, services, address, signer and environment *)
Context (manash : Ethash) (reader : ValidatorReader).
Context (elections : ReElection) (GetTopologyByNumber : Z -> Z -> option TopologyGraph).
Context (leader : Address) (LeaderSign : Hash -> bool -> option Signature).
Context (e : Env).

(** *** The validator: its engine and the value the constant of package manash
    has in its memory, its services, chain, clock and signer *)
Context (manash_v : Ethash) (big1_v : Z) (reader_v : ValidatorReader).
Context (elections_v : ReElection) (GetTopologyByNumber_v : Z -> Z -> option TopologyGraph).
Context (GetHeader_v : Hash -> Z -> option Header) (StateAt_v : Hash -> option state).
Context (now_v : Z) (Sign_v : Hash -> bool -> option Signature) (clock_v : nat -> Z).


Abbreviation proposal := (BlkGen.proposal (H2 := elections) config GetTopologyByNumber leader e).
Abbreviation topology num parent :=
  (default (mkNetTopology NetTopoTypeChange [])
     (BlkGen.getNetTopology (H2 := elections) GetTopologyByNumber (hNetTopology parent) num)).
Abbreviation verifyElection_v := (BlkVerify.verifyElection (H := elections_v)).
Abbreviation verifyNetTopology_v :=
  (BlkVerify.verifyNetTopology (H := elections_v) GetTopologyByNumber_v).








End Turn.

(** ** Witness: account 5 leads height 21, account 1 verifies *)

Section Witness.
#[local] Instance toy : Crypto := Signature.toy_crypto.
#[local] Instance machine : EVM := Accounts.machine.
#[local] Instance machine_laws : StateTransition.EVMLaws := Accounts.machine_laws.
#[local] Existing Instance Work.machine_state_laws.
#[local] Existing Instance sorted_range.
#[local] Instance engine3 : DPOSEngine := MtxDPOS [].






End Witness.
End Agreement.
