(* ===== verification/GenManager.v ===== *)
(** * Package [blockgenor]: the block generation service

    Models process_manage.go and the handlers of blockgenor.go.  Every message is
    handled by a goroutine; the methods of the manager and of a process each run
    under their own mutex.  A task is the rest of a handler, and one action runs
    one task through its next critical section, so the sections of different
    handlers interleave freely.  Processes are objects, referred to by their
    index.  Each keeps, for the theorems only, the list of the methods that were
    run on it; the service keeps the list of the messages it received. *)

From S2P Require Import Prelude Common Rlp Crypto Types Topology Dpos VotePool Engine Controller Service.
From S2P Require Import TxHeap StateTransition Manash ReqCache Work BlkVerify PowPool BlkGen.

Record gen_process `{Crypto} `{EVM} := mkGenProcess {
  gp_process : BlkGen.Process;
  gp_hist : list (Env * BlkGen.input)
}.
Arguments mkGenProcess {_ _}.

Record GenProcessManage `{Crypto} `{EVM} := mkGenPM {
  gm_curNumber : Z;
  gm_processMap : gmap Z nat;
  gm_processes : list gen_process
}.
Arguments mkGenPM {_ _}.

Inductive gen_input `{Crypto} `{EVM} :=
| GRoleUpdated (msg : RoleUpdatedMsg)
| GLeaderChange (msg : LeaderChangeNotify)
| GMinerResult (r : HD_MiningRspMsg)
| GBroadcastMinerResult (result : BlockData)
| GConsensusBlock (block : BlockLocalVerifyOK)
| GBlockInsert (header : Header)
| GRecovery (fullHeader : bool) (header : option Header) (from : Address)
| GFullBlockReq (req : HD_FullBlockReqMsg)
| GFullBlockRsp (header : option Header) (txs : list Transaction).

(** The rest of a handler. *)
Inductive gen_task `{Crypto} `{EVM} :=
| GSetNumber (num : Z) (r : Z)                    (* SetCurNumber, then start by role *)
| GStart (r : Z)                                  (* GetCurrentProcess, then StartRunning *)
| GLeader (msg : LeaderChangeNotify)              (* GetProcess or GetProcessAndPreProcess *)
| GGet (num : Z) (i : BlkGen.input)               (* GetProcess, then its method *)
| GInsert (header : Header)                       (* GetCurNumber *)
| GOn (l : list (nat * BlkGen.input)) (next : option (Z * Address)).
                                                  (* methods, then the next process's leader *)

Record BlockGenor `{Crypto} `{EVM} := mkGenor {
  bg_pm : GenProcessManage;
  bg_tasks : list gen_task;
  bg_out : list (Hash * Z);                       (* FetcherNotify *)
  bg_received : list gen_input
}.
Arguments mkGenor {_ _}.

Module GenManager.
Section GenManager.
Context `{Crypto} `{EVM} `{GoRange} `{E : DPOSEngine} `{ReElection}.
Context (config : ChainConfig).
Context (DeriveSha_txs : list Transaction -> Hash) (DeriveSha_receipts : list (Receipt Log) -> Hash).
Context (manash : Ethash) (hashimotoLight : Hash -> N -> Hash * Z) (fork_ok : Header -> bool).
Context (reader : ValidatorReader) (GetTopologyByNumber : Z -> Z -> option TopologyGraph).
Context (BroadCastNodes : list Address) (self : Address).
Context (SignHashWithValidate : Hash -> bool -> option Signature).

Abbreviation pstep := (BlkGen.step config DeriveSha_txs DeriveSha_receipts manash hashimotoLight fork_ok
  reader GetTopologyByNumber BroadCastNodes self SignHashWithValidate).
Abbreviation prun := (BlkGen.run config DeriveSha_txs DeriveSha_receipts manash hashimotoLight fork_ok
  reader GetTopologyByNumber BroadCastNodes self SignHashWithValidate).

(** ** process_manage.go *)

Definition NewProcessManage : GenProcessManage := mkGenPM 0 ∅ [].

Definition on_object (e : Env) (i : BlkGen.input) (g : gen_process) : gen_process :=
  mkGenProcess (pstep e i (gp_process g)) (gp_hist g ++ [(e, i)]).

(** A method of the process with an index. *)
Definition on_process (e : Env) (id : nat) (i : BlkGen.input) (pm : GenProcessManage) : GenProcessManage :=
  mkGenPM (gm_curNumber pm) (gm_processMap pm) (alter (on_object e i) id (gm_processes pm)).

Definition fixProcessMap (e : Env) (pm : GenProcessManage) : GenProcessManage :=
  if gm_curNumber pm =? 0 then pm
  else if bool_decide (size (gm_processMap pm) = 0%nat) then pm
  else
    let old := filter (fun kv => kv.1 < gm_curNumber pm - 1) (range (gm_processMap pm)) in
    mkGenPM (gm_curNumber pm) (foldl (fun m kv => delete kv.1 m) (gm_processMap pm) old)
      (foldl (fun ps kv => alter (on_object e BlkGen.InClose) kv.2 ps) (gm_processes pm) old).

Definition SetCurNumber (e : Env) (num : Z) (pm : GenProcessManage) : GenProcessManage :=
  fixProcessMap e (mkGenPM num (gm_processMap pm) (gm_processes pm)).

Definition getProcess (num : Z) (pm : GenProcessManage) : GenProcessManage * nat :=
  match gm_processMap pm !! num with
  | Some id => (pm, id)
  | None =>
      let id := length (gm_processes pm) in
      (mkGenPM (gm_curNumber pm) (<[num := id]> (gm_processMap pm))
         (gm_processes pm ++ [mkGenProcess (BlkGen.newProcess num) []]), id)
  end.

Definition GetCurrentProcess (pm : GenProcessManage) : GenProcessManage * nat :=
  getProcess (gm_curNumber pm) pm.

Definition isLegalNumber (num : Z) (pm : GenProcessManage) : bool :=
  let minNumber := if gm_curNumber pm <? 1 then 0 else gm_curNumber pm - 1 in
  negb (num <? minNumber) && negb (u64 (gm_curNumber pm + 2) <? num).

Definition GetProcess (num : Z) (pm : GenProcessManage) : option (GenProcessManage * nat) :=
  if isLegalNumber num pm then Some (getProcess num pm) else None.

Definition GetProcessAndPreProcess (num : Z) (pm : GenProcessManage)
    : option (GenProcessManage * nat * option nat) :=
  if negb (isLegalNumber num pm) then None
  else
    let '(pm, id) := getProcess num pm in
    if num =? 0 then Some (pm, id, None)
    else let '(pm, pre) := getProcess (num - 1) pm in Some (pm, id, Some pre).

(** ** blockgenor.go *)

(** The handlers up to their first critical section. *)
Definition roleUpdatedMsgHandle (msg : RoleUpdatedMsg) : list gen_task :=
  [GSetNumber (u64 (ru_BlockNum msg + 1)) (ru_Role msg)].
Definition leaderChangeNotifyHandle (msg : LeaderChangeNotify) : list gen_task := [GLeader msg].
Definition minerResultHandle (r : HD_MiningRspMsg) : list gen_task :=
  [GGet (mr_Number r) (BlkGen.InMinerResult r)].
Definition broadcastMinerResultHandle (result : BlockData) : list gen_task :=
  [GGet (Uint64 (Number (dt_Header result))) (BlkGen.InBroadcastResult result)].
Definition consensusBlockMsgHandle (block : BlockLocalVerifyOK) : list gen_task :=
  [GGet (Uint64 (Number (ok_Header block))) (BlkGen.InConsensusBlock block)].
Definition blockInsertMsgHandle (header : Header) : list gen_task := [GInsert header].
Definition handleRecoveryMsg (fullHeader : bool) (header : option Header) (from : Address)
    : list gen_task :=
  match header with
  | Some header => if fullHeader then [GGet (Uint64 (Number header)) (BlkGen.InRecovery header from)] else []
  | None => []
  end.
Definition handleNewBlockReqMsg (req : HD_FullBlockReqMsg) : list gen_task :=
  [GGet (fq_Number req) (BlkGen.InFullBlockReq req)].
Definition handleNewBlockRspMsg (header : option Header) (txs : list Transaction) : list gen_task :=
  match header with
  | Some header => [GGet (Uint64 (Number header)) (BlkGen.InFullBlockRsp header txs)]
  | None => []
  end.

Definition handle (msg : gen_input) : list gen_task :=
  match msg with
  | GRoleUpdated m => roleUpdatedMsgHandle m
  | GLeaderChange m => leaderChangeNotifyHandle m
  | GMinerResult r => minerResultHandle r
  | GBroadcastMinerResult r => broadcastMinerResultHandle r
  | GConsensusBlock b => consensusBlockMsgHandle b
  | GBlockInsert h => blockInsertMsgHandle h
  | GRecovery full h from => handleRecoveryMsg full h from
  | GFullBlockReq req => handleNewBlockReqMsg req
  | GFullBlockRsp h txs => handleNewBlockRspMsg h txs
  end.

(** The methods a leader message leads to, once the processes are known. *)
Definition leader_methods (msg : LeaderChangeNotify) (id : nat) (pre : option nat) : gen_task :=
  let on_pre i := match pre with Some pid => [(pid, i)] | None => [] end in
  if lcn_ConsensusState msg then
    GOn ([(id, BlkGen.InCurLeader (lcn_Leader msg) (lcn_ConsensusTurn msg));
          (id, BlkGen.InNextLeader (lcn_NextLeader msg))] ++ on_pre (BlkGen.InNextLeader (lcn_Leader msg)))
      (Some (u64 (lcn_Number msg + 1), lcn_NextLeader msg))
  else GOn ((id, BlkGen.InReInit) :: on_pre BlkGen.InReInitNextLeader) None.

(** One critical section: the manager and the rest of the task. *)
Definition run_task (e : Env) (t : gen_task) (pm : GenProcessManage) : GenProcessManage * list gen_task :=
  match t with
  | GSetNumber num r =>
      (SetCurNumber e num pm, if (r =? RoleValidator) || (r =? RoleBroadcast) then [GStart r] else [])
  | GStart r => let '(pm, id) := GetCurrentProcess pm in (pm, [GOn [(id, BlkGen.InStart r)] None])
  | GLeader msg =>
      if lcn_Number msg =? 1 then
        match GetProcess 1 pm with
        | None => (pm, [])
        | Some (pm, id) => (pm, [leader_methods msg id None])
        end
      else
        match GetProcessAndPreProcess (lcn_Number msg) pm with
        | None => (pm, [])
        | Some (pm, id, pre) => (pm, [leader_methods msg id pre])
        end
  | GGet num i =>
      match GetProcess num pm with
      | None => (pm, [])
      | Some (pm, id) => (pm, [GOn [(id, i)] None])
      end
  | GInsert header =>
      if gm_curNumber pm <? Uint64 (Number header) then (pm, [])
      else (pm, [GGet (Uint64 (Number header)) (BlkGen.InInsert header)])
  | GOn [] None => (pm, [])
  | GOn [] (Some (num, leader)) => (pm, [GGet num (BlkGen.InCurLeader leader 0)])
  | GOn ((id, i) :: l) next => (on_process e id i pm, [GOn l next])
  end.

(** The block insert handler asks the fetcher for a block above the current
    height. *)
Definition fetches (t : gen_task) (pm : GenProcessManage) : list (Hash * Z) :=
  match t with
  | GInsert header =>
      if gm_curNumber pm <? Uint64 (Number header)
      then [(Types.Header_Hash header, Uint64 (Number header))] else []
  | _ => []
  end.

Inductive action :=
| AReceive (msg : gen_input)
| ATask (e : Env) (n : nat).

Definition NewBlockGenor : BlockGenor := mkGenor NewProcessManage [] [] [].

Definition gen_step (s : BlockGenor) (a : action) : BlockGenor :=
  match a with
  | AReceive msg =>
      mkGenor (bg_pm s) (bg_tasks s ++ handle msg) (bg_out s) (bg_received s ++ [msg])
  | ATask e n =>
      match bg_tasks s !! n with
      | None => s
      | Some t =>
          let '(pm, rest) := run_task e t (bg_pm s) in
          mkGenor pm (take n (bg_tasks s) ++ rest ++ drop (S n) (bg_tasks s))
            (bg_out s ++ fetches t (bg_pm s)) (bg_received s)
      end
  end.

Definition gen_run (s : BlockGenor) (acts : list action) : BlockGenor := foldl gen_step s acts.

(** ** The history of every process *)

(** The methods that a message may lead to. *)
Definition inputs_of (msg : gen_input) : list BlkGen.input :=
  match msg with
  | GRoleUpdated m => [BlkGen.InClose; BlkGen.InStart (ru_Role m)]
  | GLeaderChange m =>
      [BlkGen.InCurLeader (lcn_Leader m) (lcn_ConsensusTurn m); BlkGen.InNextLeader (lcn_NextLeader m);
       BlkGen.InNextLeader (lcn_Leader m); BlkGen.InCurLeader (lcn_NextLeader m) 0; BlkGen.InReInit;
       BlkGen.InReInitNextLeader]
  | GMinerResult r => [BlkGen.InMinerResult r]
  | GBroadcastMinerResult r => [BlkGen.InBroadcastResult r]
  | GConsensusBlock b => [BlkGen.InConsensusBlock b]
  | GBlockInsert h => [BlkGen.InInsert h]
  | GRecovery _ (Some h) from => [BlkGen.InRecovery h from]
  | GFullBlockReq req => [BlkGen.InFullBlockReq req]
  | GFullBlockRsp (Some h) txs => [BlkGen.InFullBlockRsp h txs]
  | _ => []
  end.

Definition derived (received : list gen_input) (i : BlkGen.input) : Prop :=
  exists msg, msg ∈ received /\ i ∈ inputs_of msg.

Definition task_ok (received : list gen_input) (t : gen_task) : Prop :=
  match t with
  | GSetNumber _ r => exists m, GRoleUpdated m ∈ received /\ ru_Role m = r
  | GStart r => derived received (BlkGen.InStart r)
  | GLeader m => GLeaderChange m ∈ received
  | GGet _ i => derived received i
  | GInsert h => GBlockInsert h ∈ received
  | GOn l next => Forall (fun x => derived received x.2) l /\
      forall num leader, next = Some (num, leader) -> derived received (BlkGen.InCurLeader leader 0)
  end.

Definition process_ok (received : list gen_input) (g : gen_process) : Prop :=
  gp_process g = prun (BlkGen.newProcess (BlkGen.number (gp_process g))) (gp_hist g) /\
  Forall (fun ei => derived received ei.2) (gp_hist g).

(** The process of a height in the map is one of that height. *)
Definition map_ok (pm : GenProcessManage) : Prop :=
  forall num id, gm_processMap pm !! num = Some id ->
    exists g, gm_processes pm !! id = Some g /\ BlkGen.number (gp_process g) = num.

Definition pm_ok (received : list gen_input) (pm : GenProcessManage) : Prop :=
  Forall (process_ok received) (gm_processes pm) /\ map_ok pm.

Lemma number_run num ins : BlkGen.number (prun (BlkGen.newProcess num) ins) = num.
Proof. apply BlkGen.gen_run_inv. Qed.

Lemma on_object_ok received e i g :
  process_ok received g -> derived received i ->
  process_ok received (on_object e i g) /\
  BlkGen.number (gp_process (on_object e i g)) = BlkGen.number (gp_process g).
Proof.
  intros [Hg Hh] Hi. set (num := BlkGen.number (gp_process g)) in *.
  assert (gp_process (on_object e i g) = prun (BlkGen.newProcess num) (gp_hist (on_object e i g))) as Hrun.
  { cbn [on_object gp_process gp_hist]. unfold BlkGen.run. rewrite foldl_app. cbn [foldl fst snd].
    by rewrite Hg at 1. }
  assert (BlkGen.number (gp_process (on_object e i g)) = num) as Hn by (by rewrite Hrun, number_run).
  split; [|done]. split; [by rewrite Hn|]. cbn [gp_hist on_object]. apply Forall_app. by split; [|repeat constructor].
Qed.

Lemma alter_ok received e i id ps :
  Forall (process_ok received) ps -> derived received i ->
  Forall (process_ok received) (alter (on_object e i) id ps) /\
  forall k g, ps !! k = Some g -> exists g', alter (on_object e i) id ps !! k = Some g' /\
    BlkGen.number (gp_process g') = BlkGen.number (gp_process g).
Proof.
  intros Hps Hi.
  assert (forall k g, ps !! k = Some g -> process_ok received (on_object e i g) /\
    BlkGen.number (gp_process (on_object e i g)) = BlkGen.number (gp_process g)) as Hobj.
  { intros k g Hk. apply on_object_ok; [|done]. by eapply Forall_lookup_1. }
  split.
  - apply Forall_lookup. intros k g'. destruct (decide (id = k)) as [->|Hne].
    + rewrite list_lookup_alter_eq. destruct (ps !! k) as [g|] eqn:Ek; [|done]. intros [= <-].
      by apply (Hobj k).
    + rewrite list_lookup_alter_ne by done. apply Forall_lookup_1. done.
  - intros k g Hk. destruct (decide (id = k)) as [->|Hne].
    + rewrite list_lookup_alter_eq, Hk. eexists. split; [done|]. by apply (Hobj k).
    + rewrite list_lookup_alter_ne by done. by eexists.
Qed.

Lemma gen_on_process_ok received e id i pm :
  pm_ok received pm -> derived received i -> pm_ok received (on_process e id i pm).
Proof.
  intros [Hps Hmap] Hi. destruct (alter_ok received e i id _ Hps Hi) as [Hps' Hk]. split; [done|].
  intros num id' Hid. destruct (Hmap num id' Hid) as (g & Hg & <-). destruct (Hk _ _ Hg) as (g' & Hg' & Hn).
  by exists g'.
Qed.

(** Closing and dropping the processes of past heights. *)
Lemma drop_ok received e l pm :
  pm_ok received pm -> derived received BlkGen.InClose ->
  pm_ok received (mkGenPM (gm_curNumber pm) (foldl (fun m kv => delete kv.1 m) (gm_processMap pm) l)
    (foldl (fun ps kv => alter (on_object e BlkGen.InClose) kv.2 ps) (gm_processes pm) l)).
Proof.
  revert pm. induction l as [|[k id] l IH]; intros pm Hpm Hclose; [by destruct pm|].
  apply (gen_on_process_ok received e id BlkGen.InClose) in Hpm; [|done].
  refine (IH (mkGenPM (gm_curNumber pm) (delete k (gm_processMap pm))
                (alter (on_object e BlkGen.InClose) id (gm_processes pm))) _ Hclose).
  destruct Hpm as [Hps Hmap]. split; [done|]. intros num id' Hid. apply Hmap. cbn in Hid.
  by apply lookup_delete_Some in Hid as [_ Hid].
Qed.

Lemma gen_getProcess_ok received num pm :
  pm_ok received pm -> pm_ok received (getProcess num pm).1.
Proof.
  intros [Hps Hmap]. unfold getProcess. destruct (gm_processMap pm !! num) as [id|] eqn:Eid; [done|].
  cbn [fst]. split; cbn.
  - apply Forall_app. split; [done|]. by repeat constructor.
  - intros n id Hid. cbn in *. destruct (decide (n = num)) as [->|Hne].
    + rewrite lookup_insert_eq in Hid. injection Hid as <-. eexists. split; [by apply list_lookup_middle|done].
    + rewrite lookup_insert_ne in Hid by done. destruct (Hmap n id Hid) as (g & Hg & Hn).
      exists g. split; [by apply lookup_app_l_Some|done].
Qed.

Lemma GetProcess_ok received num pm pm' id :
  pm_ok received pm -> GetProcess num pm = Some (pm', id) -> pm_ok received pm'.
Proof.
  intros Hpm. unfold GetProcess. case_match; [|done]. intros [= Hg].
  pose proof (gen_getProcess_ok received num pm Hpm) as Hok. by rewrite Hg in Hok.
Qed.

Lemma derived_mono received msg i : derived received i -> derived (received ++ [msg]) i.
Proof. intros (m & Hm & Hi). exists m. set_solver. Qed.

Lemma derived_in received msg i : msg ∈ received -> i ∈ inputs_of msg -> derived received i.
Proof. intros. by exists msg. Qed.

Lemma leader_methods_ok received m id pre :
  GLeaderChange m ∈ received -> task_ok received (leader_methods m id pre).
Proof.
  intros Hm. assert (forall i, i ∈ inputs_of (GLeaderChange m) -> derived received i) as Hd
    by (intros; by eapply derived_in). unfold leader_methods. cbn in Hd.
  destruct (lcn_ConsensusState m).
  - split; [destruct pre; repeat constructor; apply Hd; set_solver|].
    intros num leader [= <- <-]. apply Hd. set_solver.
  - split; [destruct pre; repeat constructor; apply Hd; set_solver|done].
Qed.

Lemma on_one_ok received id i : derived received i -> Forall (task_ok received) [GOn [(id, i)] None].
Proof. intros Hi. apply Forall_singleton. split; [by apply Forall_singleton|done]. Qed.

Lemma gen_run_task_ok received e t pm :
  pm_ok received pm -> task_ok received t ->
  pm_ok received (run_task e t pm).1 /\ Forall (task_ok received) (run_task e t pm).2.
Proof.
  intros Hpm Ht. destruct t as [num r|r|m|num i|h|l next]; cbn [run_task].
  - destruct Ht as (m & Hm & <-). cbn [fst snd]. split.
    + unfold SetCurNumber, fixProcessMap. do 2 (case_match; [done|]).
      apply (drop_ok received e _ (mkGenPM num (gm_processMap pm) (gm_processes pm))); [done|].
      by eapply derived_in; [eassumption|cbn; set_solver].
    + case_match; [|done]. apply Forall_singleton. by eapply derived_in; [eassumption|cbn; set_solver].
  - pose proof (gen_getProcess_ok received (gm_curNumber pm) pm Hpm) as Hg. unfold GetCurrentProcess.
    destruct (getProcess _ pm) as [pm' id]. split; [done|]. by apply on_one_ok.
  - case_match.
    + destruct (GetProcess 1 pm) as [[pm' id]|] eqn:Eg; [|done].
      split; [by eapply GetProcess_ok|]. apply Forall_singleton. by apply leader_methods_ok.
    + unfold GetProcessAndPreProcess. destruct (isLegalNumber _ pm); cbn [negb]; [|done].
      pose proof (gen_getProcess_ok received (lcn_Number m) pm Hpm) as Hg.
      destruct (getProcess (lcn_Number m) pm) as [pm1 id]. cbn in Hg.
      destruct (lcn_Number m =? 0); [split; [done|]; apply Forall_singleton; by apply leader_methods_ok|].
      pose proof (gen_getProcess_ok received (lcn_Number m - 1) pm1 Hg) as Hg'.
      destruct (getProcess (lcn_Number m - 1) pm1) as [pm2 pre].
      split; [done|]. apply Forall_singleton. by apply leader_methods_ok.
  - destruct (GetProcess num pm) as [[pm' id]|] eqn:Eg; [|done].
    split; [by eapply GetProcess_ok|]. by apply on_one_ok.
  - case_match; [done|]. split; [done|]. apply Forall_singleton. by eapply derived_in; [eassumption|cbn; set_solver].
  - destruct Ht as [Hl Hn]. destruct l as [|[id i] l].
    + destruct next as [[num leader]|]; [|done]. split; [done|]. apply Forall_singleton. by apply (Hn num).
    + apply Forall_cons in Hl as [Hi Hl]. split; [by apply gen_on_process_ok|]. by apply Forall_singleton.
Qed.

Definition genor_ok (s : BlockGenor) : Prop :=
  pm_ok (bg_received s) (bg_pm s) /\ Forall (task_ok (bg_received s)) (bg_tasks s).

Lemma handle_ok received msg : msg ∈ received -> Forall (task_ok received) (handle msg).
Proof.
  intros Hin. assert (forall i, i ∈ inputs_of msg -> derived received i) as Hd
    by (intros; by eapply derived_in).
  destruct msg as [m|m|r|r|b|h|full [h|] from|req|[h|] txs]; cbn; try case_match; repeat constructor;
    try (apply Hd; cbn; set_solver); try done. by exists m.
Qed.

Lemma task_ok_mono received msg t : task_ok received t -> task_ok (received ++ [msg]) t.
Proof.
  destruct t as [num r|r|m|num i|h|l next]; cbn.
  - intros (m & Hm & Hr). exists m. split; [apply elem_of_app; by left|done].
  - apply derived_mono.
  - intros Hm. apply elem_of_app. by left.
  - apply derived_mono.
  - intros Hh. apply elem_of_app. by left.
  - intros [Hl Hn]. split; [|intros; eapply derived_mono, Hn; done].
    eapply Forall_impl; [exact Hl|]. intros. by apply derived_mono.
Qed.

Lemma gen_run_ok acts : genor_ok (gen_run NewBlockGenor acts).
Proof.
  unfold gen_run. assert (genor_ok NewBlockGenor) as H0' by (split; [split|]; done). revert H0'.
  generalize NewBlockGenor. induction acts as [|a acts IH]; intros s Hs; [done|]. apply IH.
  destruct Hs as [Hpm Ht], a as [msg|e n]; cbn [gen_step].
  - split; cbn.
    + destruct Hpm as [Hps Hmap]. split; [|done]. eapply Forall_impl; [exact Hps|].
      intros g [Hg Hh]. split; [done|]. eapply Forall_impl; [exact Hh|]. intros. by apply derived_mono.
    + apply Forall_app. split; [|apply handle_ok; set_solver].
      eapply Forall_impl; [exact Ht|]. intros. by apply task_ok_mono.
  - destruct (bg_tasks s !! n) as [t|] eqn:En; [|done].
    destruct (gen_run_task_ok (bg_received s) e t (bg_pm s) Hpm) as [Hpm' Hrest];
      [by eapply Forall_lookup_1|].
    destruct (run_task e t (bg_pm s)) as [pm rest]. split; [done|]. cbn.
    rewrite !Forall_app. split_and!; [by apply Forall_take|done|by apply Forall_drop].
Qed.

(** C2: Whatever messages the service receives and however its handlers
    interleave, every block it writes to the chain is a header [h] with its
    transaction root computed from the transactions written with it.  At a height
    that is not a broadcast height the DPOS engine accepted [h] and the
    proof-of-work engine its seal, on its own or in a full header check.  At a
    broadcast height the same holds of [h], or the leader of the header it was
    executed from is a broadcast node whose signature, of either opinion, that
    header carries; the engines are not asked then.  Transactions, receipts and
    state are those verified for the signing hash of [h], and everything the
    process did came from messages the service received. *)
Theorem service_inserts_certified acts id g block txs rc st :
  let s := gen_run NewBlockGenor acts in
  let num := BlkGen.number (gp_process g) in
  gm_processes (bg_pm s) !! id = Some g ->
  Inserted block txs rc st ∈ BlkGen.p_out (gp_process g) ->
  exists h b,
    block = set_TxHash h (DeriveSha_txs txs) /\
    (Broadcast.IsBroadcastNumber num = false ->
     is_ok (VerifyBlock reader h) = true /\
     (BlkGen.VerifySeal manash hashimotoLight h = true \/
      exists e i, (e, i) ∈ gp_hist g /\ BlkGen.VerifyHeader config manash hashimotoLight fork_ok e h = true)) /\
    BlkGen.certified config manash hashimotoLight fork_ok reader BroadCastNodes num (gp_hist g) h /\
    BlkGen.payload_ok config DeriveSha_txs DeriveSha_receipts (gp_hist g)
      (Types.HashNoSignsAndNonce h) b /\
    txs = default [] (ok_Txs b) /\ rc = ok_Receipts b /\ st = ok_State b /\
    Forall (fun ei => derived (bg_received s) ei.2) (gp_hist g).
Proof.
  intros s num Hg Hin. destruct (gen_run_ok acts) as [[Hps _] _].
  destruct (Forall_lookup_1 _ _ _ _ Hps Hg) as [Hrun Hh].
  rewrite Hrun in Hin.
  destruct (BlkGen.inserted_certified _ _ _ _ _ _ _ _ _ _ _ _ _ _ _ _ _ Hin)
    as (h & b & Hb & Hc & Hpay & Heq).
  exists h, b. split_and!; try apply Heq; try done; [by rewrite Hb; destruct txs|]. intros Hnb.
  destruct Hc as [Hv Hs|e i Hv Hi Hs|e i h0 Hbn]; [by auto|by eauto 6|]. fold num in Hbn. congruence.
Qed.

End GenManager.

(** ** Witness: account 1 of three validators, height 21 *)

Section Witness.
#[local] Existing Instance BlkGen.toy.
#[local] Existing Instance BlkGen.machine.
#[local] Existing Instance BlkGen.engine3.
#[local] Existing Instance BlkGen.no_elections.
#[local] Existing Instance sorted_range.

(** A message, handled to the end. *)
Definition deliver (msg : gen_input) : list action := AReceive msg :: replicate 9 (ATask BlkGen.env3 0).

Definition scenario3 : list action :=
  deliver (GRoleUpdated (mkRoleUpdated RoleValidator 20 1%N 3%N)) ++
  deliver (GLeaderChange (mkLeaderChange true 3%N 1%N 21 0 0 0 100)) ++
  deliver (GConsensusBlock (mkLocalVerifyOK (Dpos.block3 21) BlkGen.hash3 (Some []) (Some [])
                              (Some (Accounts.mkAccounts ∅ (0%N, 0))))) ++
  deliver (GMinerResult (mkMiningRsp 7%N 21 BlkGen.hash3 (Difficulty (Dpos.block3 21)) 5%N 7%N
                           (MixDigest (Dpos.block3 21)) [256%N; 512%N; 768%N])).

Definition run3 : BlockGenor :=
  gen_run Work.config0 (fun txs => N.of_nat (length txs)) (fun r => N.of_nat (length r))
    (mkEthash false false 0) (fun _ _ => (MixDigest (Dpos.block3 21), 0)) (fun _ => true) Dpos.reader3
    (fun _ _ => None) [] 1%N (fun _ _ => None) NewBlockGenor scenario3.

Definition process3 : gen_process :=
  default (mkGenProcess (BlkGen.newProcess 0) []) (gm_processes (bg_pm run3) !! 0%nat).

Lemma service_inserts_certified_witness :
  exists h b, BlkGen.inserted3 = set_TxHash h (N.of_nat 0) /\
    (Broadcast.IsBroadcastNumber (BlkGen.number (gp_process process3)) = false ->
     is_ok (VerifyBlock Dpos.reader3 h) = true /\
     (BlkGen.VerifySeal (mkEthash false false 0) (fun _ _ => (MixDigest (Dpos.block3 21), 0)) h = true \/
      exists e i, (e, i) ∈ gp_hist process3 /\
        BlkGen.VerifyHeader Work.config0 (mkEthash false false 0) (fun _ _ => (MixDigest (Dpos.block3 21), 0))
          (fun _ => true) e h = true)) /\
    BlkGen.certified Work.config0 (mkEthash false false 0) (fun _ _ => (MixDigest (Dpos.block3 21), 0))
      (fun _ => true) Dpos.reader3 [] (BlkGen.number (gp_process process3)) (gp_hist process3) h /\
    BlkGen.payload_ok Work.config0 (fun txs => N.of_nat (length txs)) (fun r => N.of_nat (length r))
      (gp_hist process3) (Types.HashNoSignsAndNonce h) b /\
    [] = default [] (ok_Txs b) /\ Some [] = ok_Receipts b /\
    Some (Accounts.mkAccounts ∅ (0%N, 0)) = ok_State b /\
    Forall (fun ei => derived (bg_received run3) ei.2) (gp_hist process3).
Proof.
  refine (service_inserts_certified Work.config0 (fun txs => N.of_nat (length txs))
    (fun r => N.of_nat (length r)) (mkEthash false false 0) (fun _ _ => (MixDigest (Dpos.block3 21), 0))
    (fun _ => true) Dpos.reader3 (fun _ _ => None) [] 1%N (fun _ _ => None) scenario3 0%nat process3
    BlkGen.inserted3 [] (Some []) (Some (Accounts.mkAccounts ∅ (0%N, 0))) _ _).
  - vm_cast_no_check (eq_refl (Some process3)).
  - apply (list_elem_of_lookup_2 _ 2).
    vm_cast_no_check (eq_refl (Some (Inserted BlkGen.inserted3 [] (Some [])
                                       (Some (Accounts.mkAccounts ∅ (0%N, 0)))))).
Defined.

End Witness.
End GenManager.
