(* ===== verification/Election.v ===== *)
(** * Package [election]: the choice of the masters among the depositors

    Models election/election.go and the generator of
    election/ManElec100/mt19937 that it draws from: the weight of a depositor,
    the weighted sampling of the masters, the topping up of the lists, and the
    answers of [Listen] to the two kinds of request.  The answers go to the
    re-election service (Reelect.v). *)

From Corelib Require Import SpecFloat.
From S2P Require Import Prelude Float64 Common Types Topology.

(** [vm.DepositDetail].  A missing big integer is a nil pointer. *)
Record DepositDetail := mkDeposit {
  dd_Address : Address;
  dd_NodeID : N;               (* discover.NodeID, 64 bytes *)
  dd_Deposit : option Z;
  dd_WithdrawH : option Z;
  dd_OnlineTime : option Z
}.

Record Alternative := mkAlternative { alt_A : Address; alt_B : Address; alt_Position : Z }.

(** ** mt19937.go: the generator *)
Module Mt19937.

(** The words of [RandUniform]; its field [seed] is only written. *)
Abbreviation words := (list Z).

Definition _int32 (x : Z) : Z := Z.land 0xFFFFFFFF x.

Definition word (mt : words) (i : nat) : Z := mt !!! i.

Definition RandUniformInit (seed : Z) : words :=
  let step mt (i : nat) :=
    let p := word mt (i - 1) in
    <[i := _int32 (i64 (i64 (1812433253 * Z.lxor p (Z.shiftr p 30)) + Z.of_nat i))]> mt in
  foldl step (<[0%nat := seed]> (replicate 624 0)) (seq 1 623).

(** One round of the loop of [twist]. *)
Definition twist_word (mt : words) (i : nat) : words :=
  let y := _int32 (Z.land (word mt i) 0x80000000 + Z.land (word mt ((i + 1) mod 624)) 0x7fffffff) in
  let w := Z.lxor y (Z.shiftr (word mt ((i + 397) mod 624)) 1) in
  <[i := if Z.rem y 2 =? 0 then w else Z.lxor w 0x9908b0df]> mt.

Definition twist (mt : words) : words := foldl twist_word mt (seq 0 624).

Definition temper (y : Z) : Z :=
  let y := Z.lxor y (Z.shiftr y 11) in
  let y := Z.lxor y (Z.land (i64 (Z.shiftl y 7)) 2636928640) in
  let y := Z.lxor y (Z.land (i64 (Z.shiftl y 15)) 4022730752) in
  let y := Z.lxor y (Z.shiftr y 18) in
  _int32 y.

(** The number and the new words. *)
Definition extract_number (mt : words) : Z * words :=
  let mt := twist mt in (temper (word mt 0), mt).

(** [powerf]: one round per bit of [n], so [n] below 2^fuel needs fuel rounds. *)
Fixpoint powerf_loop (fuel : nat) (x : spec_float) (n : Z) (ans : spec_float) : spec_float :=
  match fuel with
  | O => ans
  | S fuel =>
      if n =? 0 then ans
      else powerf_loop fuel (Float64.mul x x) (Z.quot n 2)
             (if Z.rem n 2 =? 1 then Float64.mul ans x else ans)
  end.
Definition powerf (x : spec_float) (n : Z) : spec_float :=
  powerf_loop 64 x n (Float64.of_int 1).

Definition Uniform (low high : spec_float) (mt : words) : spec_float * words :=
  let pow := powerf (Float64.of_int 2) 32 in
  let '(r, mt) := extract_number mt in
  (Float64.mul (Float64.sub high low) (Float64.div (Float64.of_int r) pow), mt).

(** ** Machine words of the generator *)

Lemma int32_range x : in_u32 (_int32 x).
Proof.
  unfold _int32, in_u32. rewrite Z.land_comm. change 0xFFFFFFFF with (Z.ones 32).
  rewrite Z.land_ones by lia. apply Z.mod_pos_bound. lia.
Qed.

Lemma u32_land x : in_u32 x <-> Z.land x (Z.ones 32) = x.
Proof.
  rewrite Z.land_ones by lia. unfold in_u32. split; [apply Z.mod_small|].
  intros <-. by apply Z.mod_pos_bound.
Qed.

Lemma lxor_range x y : in_u32 x -> in_u32 y -> in_u32 (Z.lxor x y).
Proof.
  rewrite !u32_land. intros Hx Hy. apply Z.bits_inj'. intros k Hk.
  rewrite <- Hx at 2. rewrite <- Hy at 2. rewrite Z.land_spec, !Z.lxor_spec, !Z.land_spec.
  by destruct (Z.testbit x k), (Z.testbit y k), (Z.testbit (Z.ones 32) k).
Qed.

Lemma shiftr_range x k : 0 <= k -> in_u32 x -> in_u32 (Z.shiftr x k).
Proof.
  unfold in_u32. intros Hk Hx. rewrite Z.shiftr_div_pow2 by done.
  assert (0 < 2 ^ k) by (apply Z.pow_pos_nonneg; lia).
  split; [apply Z.div_pos; lia|]. apply Z.le_lt_trans with x; [|lia]. apply Z.div_le_upper_bound; nia.
Qed.

(** All words but those before [i] and at [i] itself are known to be in range
    before round [i] of [twist]; afterwards so is word [i]. *)
Definition words_ok (done : nat -> Prop) (mt : words) : Prop :=
  length mt = 624%nat /\ forall j, (j < 624)%nat -> done j -> in_u32 (word mt j).

Lemma word_insert mt i j x :
  (i < length mt)%nat -> word (<[i := x]> mt) j = if decide (i = j) then x else word mt j.
Proof.
  intros Hi. unfold word. case_decide; subst; [by rewrite list_lookup_total_insert_eq|].
  by rewrite list_lookup_total_insert_ne.
Qed.

Lemma twist_word_ok (D : nat -> Prop) mt i :
  (i < 624)%nat -> D ((i + 397) mod 624)%nat -> words_ok D mt ->
  words_ok (fun j => j = i \/ D j) (twist_word mt i).
Proof.
  intros Hi HD [Hlen Hw]. unfold twist_word. set (y := _int32 _). set (w := Z.lxor y _).
  assert (in_u32 w).
  { apply lxor_range; [apply int32_range|]. apply shiftr_range; [lia|]. apply Hw; [|done].
    apply Nat.mod_upper_bound. lia. }
  split; [by rewrite length_insert|]. intros j Hj Hd. rewrite word_insert by lia. case_decide as Hij.
  - case_match; [done|]. by apply lxor_range.
  - apply Hw; [done|]. destruct Hd as [->|?]; done.
Qed.

Lemma words_ok_weaken (D D' : nat -> Prop) mt :
  (forall j, (j < 624)%nat -> D' j -> D j) -> words_ok D mt -> words_ok D' mt.
Proof. intros HD [Hlen Hw]. split; [done|]. intros j Hj Hd. apply Hw; [done|]. by apply HD. Qed.

(** Only word 0 may be out of range before a twist: it is the seed at first. *)
Lemma twist_ok mt : words_ok (fun j => j <> 0%nat) mt -> words_ok (fun _ => True) (twist mt).
Proof.
  intros Hmt. unfold twist.
  assert (forall n, (n <= 624)%nat ->
    words_ok (fun j => j <> 0%nat \/ (0 < n)%nat) (foldl twist_word mt (seq 0 n))) as Hn.
  { induction n as [|n IH]; intros Hle.
    - eapply words_ok_weaken; [|exact Hmt]. cbn. lia.
    - rewrite seq_S, foldl_app. cbn [foldl].
      apply (words_ok_weaken (fun j => j = n \/ (j <> 0 \/ 0 < n))%nat).
      + intros j Hj _. destruct (decide (j = 0%nat)), (decide (n = 0%nat)); lia.
      + apply twist_word_ok; [lia| |apply IH; lia]. destruct (decide (n = 0%nat)) as [->|]; [by left; cbn|right; lia]. }
  eapply words_ok_weaken; [|apply (Hn 624%nat); lia]. cbn. lia.
Qed.

Lemma init_ok seed : words_ok (fun j => j <> 0%nat) (RandUniformInit seed).
Proof.
  unfold RandUniformInit. set (step := fun mt (i : nat) => _).
  assert (forall n, (n <= 623)%nat -> forall mt, words_ok (fun j => j <> 0%nat) mt ->
    words_ok (fun j => j <> 0%nat) (foldl step mt (seq 1 n))) as Hn.
  { induction n as [|n IH]; intros Hle mt Hmt; [done|]. rewrite seq_S, foldl_app. cbn [foldl].
    destruct (IH ltac:(lia) mt Hmt) as [Hlen Hw]. unfold step at 1.
    split; [by rewrite length_insert|]. intros j Hj Hd. rewrite word_insert by lia.
    case_decide; [apply int32_range|by apply Hw]. }
  apply Hn; [lia|]. split; [by rewrite length_insert, length_replicate|]. intros j Hj Hd.
  rewrite word_insert, decide_False by (done || rewrite length_replicate; lia).
  unfold word. by rewrite list_lookup_total_alt, lookup_replicate_2.
Qed.

Lemma extract_number_words mt : (extract_number mt).2 = twist mt.
Proof. unfold extract_number. by generalize (twist mt). Qed.

Lemma extract_number_range mt : in_u32 (extract_number mt).1.
Proof. unfold extract_number. generalize (twist mt). intros. apply int32_range. Qed.

(** The generator after [n] numbers. *)
Fixpoint after (n : nat) (mt : words) : words :=
  match n with O => mt | S n => (extract_number (after n mt)).2 end.

Lemma after_ok n mt :
  words_ok (fun j => j <> 0%nat) mt -> words_ok (fun j => j <> 0%nat \/ (0 < n)%nat) (after n mt).
Proof.
  intros Hmt. induction n as [|n IH]; cbn [after].
  - eapply words_ok_weaken; [|exact Hmt]. cbn. lia.
  - rewrite extract_number_words. eapply words_ok_weaken; [|apply twist_ok; eapply words_ok_weaken; [|exact IH]].
    + done.
    + by left.
Qed.

(** Every number drawn for an election is a 32-bit word, whatever the
    64-bit seed: the generator always has 624 words, and after the first draw
    each of them has 32 bits, although its first word is the seed itself. *)
Theorem numbers_are_words seed n :
  let mt := after n (RandUniformInit seed) in
  in_u32 (extract_number mt).1 /\
  length mt = 624%nat /\ (0 < n -> Forall in_u32 mt)%nat.
Proof.
  cbn zeta. split; [apply extract_number_range|].
  destruct (after_ok n _ (init_ok seed)) as [Hlen Hw]. split; [done|]. intros Hn.
  apply Forall_lookup. intros j x Hj. pose proof (lookup_lt_Some _ _ _ Hj).
  specialize (Hw j ltac:(lia) ltac:(lia)). unfold word in Hw. by rewrite list_lookup_total_alt, Hj in Hw.
Qed.

(** The round of the Mersenne Twister: the mixed word is shifted, where
    [twist] shifts the word 397 places on.  With this round the number for the
    standard seed is the published one. *)
Definition reference_word (mt : words) (i : nat) : words :=
  let y := Z.land (word mt i) 0x80000000 + Z.land (word mt ((i + 1) mod 624)) 0x7fffffff in
  let w := Z.lxor (word mt ((i + 397) mod 624)) (Z.shiftr y 1) in
  <[i := if Z.even y then w else Z.lxor w 0x9908b0df]> mt.

Lemma twist_shifts_other_word :
  temper (word (foldl reference_word (RandUniformInit 5489) (seq 0 624)) 0) = 3499211612 /\
  (extract_number (RandUniformInit 5489)).1 <> 3499211612.
Proof. split; by vm_compute. Qed.

End Mt19937.

(** ** election.go *)

Record Stf := mkStf { Str : N; Flot : spec_float }.
Record pnormalized := mkPn { pn_Value : spec_float; pn_Nodeid : N }.
Record Strallyint := mkStr { si_Value : Z; si_Nodeid : N }.

Record MasterMinerReElectionRsp := mkMinerRsp {
  mr_SeqNum : Z;
  mr_MasterMiner : list TopologyNodeInfo;
  mr_BackUpMiner : list TopologyNodeInfo
}.

Record MasterValidatorReElectionRsq := mkValidatorRsp {
  vr_SeqNum : Z;
  vr_MasterValidator : list TopologyNodeInfo;
  vr_BackUpValidator : list TopologyNodeInfo;
  vr_CandidateValidator : list TopologyNodeInfo
}.

Module Election.

Abbreviation F := Float64.of_int.

(** *** The weight of a depositor *)

Definition TPS_POWER (tps : Z) : spec_float :=
  if 16000 <=? tps then F 5
  else if 8000 <=? tps then F 4
  else if 4000 <=? tps then F 3
  else if 2000 <=? tps then F 2
  else if 1000 <=? tps then F 1
  else F 0.

Definition Last_Time (uptime : Z) : spec_float :=
  if uptime <=? 64 then Float64.of_const 1 4
  else if uptime <=? 128 then Float64.of_const 1 2
  else if uptime <=? 256 then F 1
  else if uptime <=? 512 then F 2
  else F 4.

Definition deposit_stake (stk : spec_float) : spec_float :=
  if Float64.leb (F 40000) stk then Float64.of_const 9 2
  else if Float64.leb (F 20000) stk then Float64.of_const 43 20
  else if Float64.leb (F 10000) stk then F 1
  else F 0.

(** [self.Last_Time() * (self.TPS_POWER()*self.Coef_tps +
    self.deposit_stake()*self.Coef_stk)] for the [Self] built from a deposit;
    the missing numbers were replaced before. *)
Definition value_of (item : DepositDetail) : spec_float :=
  let stk := F (Uint64 (default 0 (dd_Deposit item))) in
  let uptime := i64 (Uint64 (default 0 (dd_OnlineTime item))) in
  Float64.mul (Last_Time uptime)
    (Float64.add (Float64.mul (TPS_POWER 1000) (Float64.of_const 1 5))
                 (Float64.mul (deposit_stake stk) (Float64.of_const 1 4))).

Definition CalcAllValueFunction (nodelist : list DepositDetail) : list Stf :=
  map (fun item => mkStf (dd_NodeID item) (value_of item)) nodelist.

Definition Normalize (probVal : list Stf) : list pnormalized :=
  let total := foldl (fun total item => Float64.add total (Flot item)) (F 0) probVal in
  map (fun item => mkPn (Float64.div (Flot item) total) (Str item)) probVal.

(** *** Sampling *)

Fixpoint sample_loop (l : list pnormalized) (rand01 : spec_float) : option N :=
  match l with
  | [] => None
  | item :: l =>
      let rand01 := Float64.sub rand01 (pn_Value item) in
      if Float64.ltb rand01 (F 0) then Some (pn_Nodeid item) else sample_loop l rand01
  end.

(** The first node when the loop falls through; of an empty list the source
    panics. *)
Definition Sample1NodesInValNodes (l : list pnormalized) (rand01 : spec_float) : option N :=
  match sample_loop l rand01 with
  | Some node => Some node
  | None => pn_Nodeid <$> head l
  end.

(** The loop of both samplers: [n] rounds are left, and it stops early with
    [target] distinct nodes.  [None] is the panic of an empty list. *)
Fixpoint draw (l : list pnormalized) (target : Z) (n : nat) (mt : Mt19937.words)
    (dict : gmap N Z) : option (gmap N Z) :=
  match n with
  | O => Some dict
  | S n =>
      let '(r, mt) := Mt19937.Uniform (F 0) (F 1) mt in
      match Sample1NodesInValNodes l r with
      | None => None
      | Some node =>
          let dict :=
            match dict !! node with
            | Some v => <[node := v + 1]> dict
            | None => <[node := 1]> dict
            end in
          if Z.of_nat (size dict) =? target then Some dict else draw l target n mt dict
      end
  end.

Definition MaxSample : nat := 1000.

(** [sort] of [SampleMinerNodes]: both lists in the order of the candidates. *)
Definition votes_of (l : list Strallyint) : gmap N Z :=
  foldl (fun m item => <[si_Nodeid item := si_Value item]> m) ∅ l.

Definition sort_miners (l : list pnormalized) (pricipal bak : list Strallyint)
    : list Strallyint * list Strallyint :=
  let P := votes_of pricipal in
  let B := votes_of bak in
  (omap (fun item => v ← P !! pn_Nodeid item; Some (mkStr v (pn_Nodeid item))) l,
   omap (fun item =>
           match P !! pn_Nodeid item with
           | Some _ => None
           | None => v ← B !! pn_Nodeid item; Some (mkStr v (pn_Nodeid item))
           end) l).

Definition hundred (item : pnormalized) : Strallyint :=
  mkStr (Float64.trunc_int (Float64.mul (F 100) (pn_Value item))) (pn_Nodeid item).

Definition SampleMinerNodes (l : list pnormalized) (seed Ms : Z)
    : option (list Strallyint * list Strallyint) :=
  if Z.of_nat (length l) <=? Ms then Some (sort_miners l (map hundred l) [])
  else
    match draw l Ms MaxSample (Mt19937.RandUniformInit seed) ∅ with
    | None => None
    | Some dict =>
        let pricipal := omap (fun item => v ← dict !! pn_Nodeid item; Some (mkStr v (pn_Nodeid item))) l in
        let bak :=
          omap (fun item =>
                  match dict !! pn_Nodeid item with
                  | Some _ => None
                  | None => Some (mkStr (Float64.trunc_int (pn_Value item)) (pn_Nodeid item))
                  end) l in
        let lenPM := Z.of_nat (length pricipal) in
        if lenPM <? Ms then
          let k := Z.to_nat (Ms - lenPM) in
          Some (sort_miners l (pricipal ++ take k bak) (drop k bak))
        else Some (sort_miners l pricipal bak)
    end.

Definition CalcRemainingNodesVotes (l : list Strallyint) : list Strallyint :=
  map (fun item => mkStr 1 (si_Nodeid item)) l.

(** Masters, backups (none yet) and the remaining nodes. *)
Definition SampleMPlusPNodes (l : list pnormalized) (seed M J : Z)
    : option (list Strallyint * list Strallyint * list Strallyint) :=
  if Z.of_nat (length l) <=? M - J then Some (map hundred l, [], [])
  else
    match draw l (M - J) MaxSample (Mt19937.RandUniformInit seed) ∅ with
    | None => None
    | Some dict =>
        let entry item := mkStr (default 0 (dict !! pn_Nodeid item)) (pn_Nodeid item) in
        Some (map entry (filter (fun item => is_Some (dict !! pn_Nodeid item)) l), [],
              map entry (filter (fun item => ~ is_Some (dict !! pn_Nodeid item)) l))
    end.

(** [for len(dst) < n && len(src) > 0 { dst = append(dst, src[0]); src = src[1:] }] *)
Fixpoint top_up (n : Z) (dst src : list Strallyint) : list Strallyint * list Strallyint :=
  match src with
  | [] => (dst, [])
  | x :: src' => if Z.of_nat (length dst) <? n then top_up n (dst ++ [x]) src' else (dst, src)
  end.

Definition ValNodesSelected (probVal : list Stf) (seed M P J : Z)
    : option (list Strallyint * list Strallyint * list Strallyint) :=
  match SampleMPlusPNodes (Normalize probVal) seed M J with
  | None => None
  | Some (pricipal, bak, remaining) =>
      let remaining := CalcRemainingNodesVotes remaining in
      let '(pricipal, remaining) := top_up (M - J) pricipal remaining in
      let '(bak, remaining) := top_up P bak remaining in
      Some (pricipal, bak, remaining)
  end.

Definition MinerNodesSelected (probVal : list Stf) (seed Ms : Z)
    : option (list Strallyint * list Strallyint) :=
  match SampleMinerNodes (Normalize probVal) seed Ms with
  | None => None
  | Some (pricipal, bak) => Some (pricipal, CalcRemainingNodesVotes bak)
  end.

(** *** Foundation nodes *)

Definition updownlimit (a ratiouplimit ratiodnlimit : spec_float) : spec_float :=
  let a := if Float64.ltb a ratiodnlimit then ratiodnlimit else a in
  if Float64.ltb ratiouplimit a then ratiouplimit else a.

Definition CommbineFundNodesAndPricipal (J : Z) (probVal probFund : list Stf)
    (pricipal : list Strallyint) : list Strallyint :=
  if (J =? 0) || Nat.eqb (length probFund) 0 then pricipal
  else if Nat.eqb (length pricipal) 0 then
    map (fun item => mkStr (Float64.trunc_int (Float64.mul (pn_Value item) (F 100)))
                           (pn_Nodeid item)) (Normalize probFund)
  else
    let PricipalVoteSum := foldl (fun s item => i64 (s + si_Value item)) 0 pricipal in
    let probValMap := foldl (fun m item => <[Str item := Flot item]> m) (∅ : gmap N spec_float) probVal in
    let probPricipalSum :=
      foldl (fun s item => Float64.add s (default (F 0) (probValMap !! si_Nodeid item))) (F 0) pricipal in
    let probFundSum := foldl (fun s item => Float64.add s (Flot item)) (F 0) probFund in
    let ratio := updownlimit (Float64.div probFundSum probPricipalSum) (Float64.of_const 5 2) (F 4) in
    pricipal ++
    map (fun item =>
           mkStr (Float64.trunc_int
                    (Float64.mul (Float64.mul (Float64.div (Flot item) probFundSum) ratio)
                                 (F PricipalVoteSum)))
                 (Str item)) probFund.

(** *** The requests *)

(** The numbers [Listen] puts in place of nil pointers. *)
Definition fill (item : DepositDetail) : DepositDetail :=
  mkDeposit (dd_Address item) (dd_NodeID item)
    (Some (default 50000 (dd_Deposit item))) (Some (default 0 (dd_WithdrawH item)))
    (Some (default 300 (dd_OnlineTime item))).

(** [ElectMap]: the last deposit with a node id. *)
Definition elect_map (l : list DepositDetail) : gmap N DepositDetail :=
  foldl (fun m item => <[dd_NodeID item := item]> m) ∅ l.

Definition to_nodes (m : gmap N DepositDetail) (role : Z) (l : list Strallyint)
    : list TopologyNodeInfo :=
  imap (fun index item =>
          mkNode (from_option dd_Address 0%N (m !! si_Nodeid item)) (u16 (Z.of_nat index)) role
            (u16 (si_Value item)) 0) l.

(** The case of [Listen] for a miner request; [None] is a panic. *)
Definition ListenMiner (SeqNum RandSeed : Z) (MinerList : list DepositDetail)
    : option MasterMinerReElectionRsp :=
  let m := elect_map MinerList in
  let value := CalcAllValueFunction (map fill MinerList) in
  '(a, b) ← MinerNodesSelected value (i64 (Uint64 RandSeed)) 21;
  Some (mkMinerRsp SeqNum (to_nodes m RoleMiner a) (to_nodes m RoleMiner b)).

(** The case of [Listen] for a validator request.  The nil pointers of the
    foundation list are not replaced, so a deposit without numbers panics. *)
Definition no_nil (item : DepositDetail) : bool :=
  match dd_Deposit item, dd_OnlineTime item with Some _, Some _ => true | _, _ => false end.

Definition ListenValidator (SeqNum RandSeed : Z)
    (ValidatorList FoundationValidatoeList : list DepositDetail)
    : option MasterValidatorReElectionRsq :=
  let m := elect_map ValidatorList in
  let value := CalcAllValueFunction (map fill ValidatorList) in
  let seed := i64 (Uint64 RandSeed) in
  let rsp '(a, b, c) :=
    mkValidatorRsp SeqNum (to_nodes m RoleValidator a) (to_nodes m RoleValidator b)
      (to_nodes m RoleValidator c) in
  if Nat.eqb (length FoundationValidatoeList) 0 then rsp <$> ValNodesSelected value seed 11 5 0
  else if negb (forallb no_nil FoundationValidatoeList) then None
  else
    let J := Z.of_nat (length FoundationValidatoeList) in
    let valuefound := CalcAllValueFunction FoundationValidatoeList in
    '(a, b, c) ← ValNodesSelected value seed 11 5 J;
    Some (rsp (CommbineFundNodesAndPricipal J value valuefound a, b, c)).

(** *** Replacing nodes of the running topology *)

Definition account_map (l : list TopologyNodeInfo) : gmap Address TopologyNodeInfo :=
  foldl (fun m item => <[tn_Account item := item]> m) ∅ l.

Definition ToPoUpdate `{GoRange} (Q0 Q1 Q2 : list TopologyNodeInfo) (nettopo : TopologyGraph)
    (offline : list Address) : list Alternative :=
  let rest Q := foldl (fun m item => delete (tn_Account item) m) (account_map Q) (tg_NodeList nettopo) in
  let netmap := account_map (tg_NodeList nettopo) in
  let substitute := range_values (rest Q0) ++ range_values (rest Q1) ++ range_values (rest Q2) in
  zip_with (fun item sub => mkAlternative (tn_Account sub) item
                              (from_option tn_Position 0 (netmap !! item))) offline substitute.

Definition PrimarylistUpdate (Q0 Q1 Q2 : list TopologyNodeInfo) (online : TopologyNodeInfo) (flag : Z)
    : list TopologyNodeInfo * list TopologyNodeInfo * list TopologyNodeInfo :=
  (if flag =? 0 then online :: Q0 else Q0, if flag =? 1 then Q1 ++ [online] else Q1,
   if flag =? 2 then Q2 ++ [online] else Q2).

(** ** The lists *)

Abbreviation ids := (map pn_Nodeid).
Abbreviation sids := (map si_Nodeid).

Lemma top_up_spec n dst src :
  let k := Z.to_nat (n - Z.of_nat (length dst)) in
  top_up n dst src = (dst ++ take k src, drop k src).
Proof.
  cbn zeta. revert dst. induction src as [|x src IH]; intros dst; cbn [top_up].
  { by rewrite take_nil, drop_nil, app_nil_r. }
  case_match; bool_to_prop.
  - rewrite IH, length_app. cbn [length].
    replace (Z.to_nat (n - Z.of_nat (length dst)))
      with (S (Z.to_nat (n - Z.of_nat (length dst + 1)))) by lia.
    cbn [take drop]. by rewrite <- app_assoc.
  - by replace (Z.to_nat (n - Z.of_nat (length dst))) with 0%nat by lia; rewrite app_nil_r.
Qed.

Lemma sample_loop_in l r node : sample_loop l r = Some node -> node ∈ ids l.
Proof.
  revert r. induction l as [|x l IH]; intros r; cbn; [done|]. case_match.
  - intros ?. simplify_eq. by left.
  - intros ?%IH. by right.
Qed.

Lemma Sample1_in l r : l <> [] -> exists node, Sample1NodesInValNodes l r = Some node /\ node ∈ ids l.
Proof.
  intros Hl. unfold Sample1NodesInValNodes. destruct (sample_loop l r) as [node|] eqn:E.
  - exists node. split; [done|]. by eapply sample_loop_in.
  - destruct l as [|x l]; [done|]. exists (pn_Nodeid x). split; [done|]. by left.
Qed.

(** The draw ends with some of the candidates, no more of them than wanted. *)
Lemma draw_spec l target n mt dict :
  l <> [] -> dom dict ⊆ (list_to_set (ids l) : gset N) -> Z.of_nat (size dict) < target ->
  exists dict', draw l target n mt dict = Some dict' /\
    dom dict' ⊆ (list_to_set (ids l) : gset N) /\ Z.of_nat (size dict') <= target.
Proof.
  intros Hl. revert mt dict. induction n as [|n IH]; intros mt dict Hd Hs; cbn [draw].
  { exists dict. split_and!; [done|done|lia]. }
  destruct (Mt19937.Uniform _ _ mt) as [r mt'].
  destruct (Sample1_in l r Hl) as (node & -> & Hin). cbv zeta beta iota.
  match goal with |- context [size ?d] => set (dict1 := d) end.
  assert (exists v, dict1 = <[node := v]> dict) as (v & ->) by (subst dict1; case_match; eauto).
  assert (dom (<[node := v]> dict) ⊆ (list_to_set (ids l) : gset N)).
  { rewrite dom_insert. apply union_subseteq. split; [|done].
    apply singleton_subseteq_l, elem_of_list_to_set, Hin. }
  assert (size (<[node := v]> dict) <= S (size dict))%nat.
  { rewrite map_size_insert. case_match; unfold id; lia. }
  case_match; bool_to_prop.
  - eexists. split_and!; [done|done|lia].
  - apply IH; [done|lia].
Qed.

(** Distinct candidates: as many of them are in the dictionary as it has keys. *)
Lemma filter_dict_length (l : list pnormalized) (dict : gmap N Z) :
  NoDup (ids l) -> dom dict ⊆ (list_to_set (ids l) : gset N) ->
  length (filter (fun item => is_Some (dict !! pn_Nodeid item)) l) = size dict.
Proof.
  intros Hnd Hsub. rewrite <- size_dom.
  rewrite <- (length_map pn_Nodeid), <- (size_list_to_set (C := gset N)).
  - f_equal. apply set_eq. intros x. rewrite elem_of_list_to_set, elem_of_dom.
    rewrite (list_elem_of_fmap pn_Nodeid). split.
    + intros (y & -> & [Hy _]%list_elem_of_filter). exact Hy.
    + intros Hx. assert (x ∈ ids l) as Hin by (rewrite <- elem_of_dom in Hx; set_solver).
      apply list_elem_of_fmap in Hin as (y & -> & Hy). exists y. split; [done|].
      by apply list_elem_of_filter.
  - apply (sublist_NoDup _ (ids l)); [done|].
    apply (fmap_sublist pn_Nodeid), sublist_filter.
Qed.

Lemma sids_entry (f : pnormalized -> Z) l : sids (map (fun item => mkStr (f item) (pn_Nodeid item)) l) = ids l.
Proof. by rewrite map_map. Qed.

Lemma sids_remaining l : sids (CalcRemainingNodesVotes l) = sids l.
Proof. unfold CalcRemainingNodesVotes. by rewrite map_map. Qed.

Lemma ids_Normalize l : ids (Normalize l) = map Str l.
Proof. unfold Normalize. by rewrite map_map. Qed.

Lemma filter_split {A} (P : A -> Prop) `{!forall x, Decision (P x)} (l : list A) :
  filter P l ++ filter (fun x => ~ P x) l ≡ₚ l.
Proof.
  induction l as [|x l IH]; [done|]. rewrite !filter_cons.
  destruct (decide (P x)), (decide (~ P x)); try tauto; cbn [app].
  - by rewrite IH.
  - by rewrite <- Permutation_middle, IH.
Qed.

(** The validator lists: no candidate is lost or listed twice, the masters are
    as many as wanted or all there are, and so are the backups of the rest. *)
Lemma ValNodesSelected_spec probVal seed M P J :
  NoDup (map Str probVal) -> 0 < M - J -> 0 <= P ->
  exists a b c, ValNodesSelected probVal seed M P J = Some (a, b, c) /\
    sids a ++ sids b ++ sids c ≡ₚ map Str probVal /\
    Z.of_nat (length a) = Z.min (M - J) (Z.of_nat (length probVal)) /\
    Z.of_nat (length b) = Z.min P (Z.of_nat (length probVal) - Z.of_nat (length a)).
Proof.
  intros Hnd HM HP. unfold ValNodesSelected, SampleMPlusPNodes. rewrite <- ids_Normalize in *.
  assert (length (Normalize probVal) = length probVal) as Hlen by apply length_map.
  rewrite <- Hlen. set (l := Normalize probVal) in *.
  destruct (Z.leb_spec (Z.of_nat (length l)) (M - J)).
  - do 2 (cbv beta iota zeta; rewrite top_up_spec). cbn [CalcRemainingNodesVotes map]. rewrite !drop_nil, !take_nil, !app_nil_r.
    exists (map hundred l), [], []. split; [done|]. rewrite length_map.
    unfold hundred. rewrite sids_entry. cbn [map length]. rewrite app_nil_r. split_and!; [done|lia|lia].
  - destruct (draw_spec l (M - J) MaxSample (Mt19937.RandUniformInit seed) ∅) as (dict & -> & Hdom & Hsize);
      [by destruct l; cbn in *; [lia|]|by rewrite dom_empty_L|by rewrite map_size_empty|].
    do 2 (cbv beta iota zeta; rewrite top_up_spec). cbn [app length]. eexists _, _, _. split; [done|].
    pose proof (filter_dict_length l dict Hnd Hdom) as Hf.
    pose proof (filter_partition_length (fun item => is_Some (dict !! pn_Nodeid item)) l) as Hp.
    rewrite !length_app, !length_take, !length_drop. unfold CalcRemainingNodesVotes. rewrite !length_map.
    split; [|split; lia].
    rewrite map_app, <- !app_assoc, <- !map_app, !take_drop, map_map. cbn [si_Nodeid].
    rewrite map_app, !map_map. cbn [si_Nodeid]. rewrite <- map_app. by rewrite filter_split.
Qed.

Lemma votes_of_spec l id : is_Some (votes_of l !! id) <-> id ∈ sids l.
Proof.
  unfold votes_of. assert (forall m : gmap N Z,
    is_Some (foldl (fun m item => <[si_Nodeid item := si_Value item]> m) m l !! id)
    <-> is_Some (m !! id) \/ id ∈ sids l) as ->.
  { induction l as [|x l IH]; intros m; cbn [foldl map].
    - rewrite elem_of_nil. tauto.
    - rewrite IH, elem_of_cons, lookup_insert_is_Some. destruct (decide (si_Nodeid x = id)); naive_solver. }
  rewrite lookup_empty. split; [|by right]. by intros [[? ?]|?].
Qed.

Lemma sids_omap (P : N -> Prop) `{!forall x, Decision (P x)} (f : pnormalized -> option Strallyint) l :
  (forall item, si_Nodeid <$> f item = if decide (P (pn_Nodeid item)) then Some (pn_Nodeid item) else None) ->
  sids (omap f l) = filter P (ids l).
Proof.
  intros Hf. induction l as [|x l IH]; [done|].
  change (ids (x :: l)) with (pn_Nodeid x :: ids l). rewrite filter_cons, <- IH.
  specialize (Hf x).
  change (omap f (x :: l)) with (match f x with Some y => y :: omap f l | None => omap f l end).
  destruct (f x); cbn in Hf; case_decide; try done. cbn [map]. by injection Hf as ->.
Qed.

Lemma filter_ids_perm (P : N -> Prop) `{!forall x, Decision (P x)} (l k : list N) :
  NoDup l -> NoDup k -> k ⊆ l -> (forall id, id ∈ l -> P id <-> id ∈ k) -> filter P l ≡ₚ k.
Proof.
  intros Hl Hk Hsub Hp. apply NoDup_Permutation; [by apply NoDup_filter|done|].
  intros x. rewrite list_elem_of_filter. split.
  - intros [Hx Hin]. by apply Hp.
  - intros Hx. split; [apply Hp; [by apply Hsub|done]|by apply Hsub].
Qed.

(** Sorting keeps both lists, when they partition distinct candidates. *)
Lemma sort_miners_spec l p b :
  NoDup (ids l) -> sids p ++ sids b ≡ₚ ids l ->
  sids (sort_miners l p b).1 ≡ₚ sids p /\ sids (sort_miners l p b).2 ≡ₚ sids b.
Proof.
  intros Hnd Hp. rewrite <- Hp in Hnd. apply NoDup_app in Hnd as (Hnp & Hdis & Hnb).
  assert (NoDup (ids l)) by (rewrite <- Hp; by apply NoDup_app).
  unfold sort_miners. cbn [fst snd]. split.
  - rewrite (sids_omap (fun id => is_Some (votes_of p !! id))).
    + apply filter_ids_perm; [done|done| |intros id _; apply votes_of_spec].
      intros x Hx. rewrite <- Hp. apply elem_of_app. by left.
    + intros item. case_decide as Hi; [by destruct Hi as [v ->]|by apply eq_None_not_Some in Hi as ->].
  - rewrite (sids_omap (fun id => ~ is_Some (votes_of p !! id) /\ is_Some (votes_of b !! id))).
    + apply filter_ids_perm; [done|done| |].
      * intros x Hx. rewrite <- Hp. apply elem_of_app. by right.
      * intros id _. rewrite !votes_of_spec. split; [tauto|]. intros Hb. split; [|done].
        intros Hi. by apply (Hdis id).
    + intros item. destruct (votes_of p !! _) eqn:E1, (votes_of b !! _) eqn:E2; cbn;
        case_decide as Hi; try done; exfalso.
      * by destruct Hi as [[] _].
      * by destruct Hi as [[] _].
      * apply Hi. split; [by intros []|done].
      * by destruct Hi as [_ []].
Qed.

(** The sampled miners before sorting. *)
Lemma SampleMinerNodes_spec l seed Ms :
  NoDup (ids l) -> 0 < Ms ->
  exists a b, SampleMinerNodes l seed Ms = Some (sort_miners l a b) /\
    sids a ++ sids b ≡ₚ ids l /\ Z.of_nat (length a) = Z.min Ms (Z.of_nat (length l)).
Proof.
  intros Hnd HM. unfold SampleMinerNodes. destruct (Z.leb_spec (Z.of_nat (length l)) Ms).
  { exists (map hundred l), []. unfold hundred. rewrite sids_entry, app_nil_r, length_map.
    split_and!; [done|done|lia]. }
  destruct (draw_spec l Ms MaxSample (Mt19937.RandUniformInit seed) ∅) as (dict & -> & Hdom & Hsize);
    [by destruct l; cbn in *; [lia|]|by rewrite dom_empty_L|by rewrite map_size_empty|].
  cbn zeta. set (p := omap _ l). set (b := omap _ l).
  assert (sids p = filter (fun id => is_Some (dict !! id)) (ids l)) as Hp.
  { apply sids_omap. intros item. case_decide as Hi; [by destruct Hi as [v ->]|].
    by apply eq_None_not_Some in Hi as ->. }
  assert (sids b = filter (fun id => ~ is_Some (dict !! id)) (ids l)) as Hb.
  { apply sids_omap. intros item. destruct (dict !! _) eqn:E; case_decide as Hi; try done.
    by destruct Hi. }
  assert (length p = size dict) as Hl.
  { rewrite <- (length_map si_Nodeid), Hp, (filter_fmap _ pn_Nodeid l), length_fmap.
    by apply filter_dict_length. }
  assert (sids p ++ sids b ≡ₚ ids l) as Hpb by (rewrite Hp, Hb; apply filter_split).
  pose proof (Permutation_length Hpb) as Hn. rewrite length_app, !length_map in Hn.
  destruct (Z.ltb_spec (Z.of_nat (length p)) Ms); eexists _, _; (split; [done|]).
  - rewrite map_app, <- app_assoc, <- map_app, take_drop, length_app, length_take. split; [done|lia].
  - split; [done|lia].
Qed.

(** The miner lists, likewise. *)
Lemma MinerNodesSelected_spec probVal seed Ms :
  NoDup (map Str probVal) -> 0 < Ms ->
  exists a b, MinerNodesSelected probVal seed Ms = Some (a, b) /\
    sids a ++ sids b ≡ₚ map Str probVal /\
    Z.of_nat (length a) = Z.min Ms (Z.of_nat (length probVal)).
Proof.
  intros Hnd HM. rewrite <- ids_Normalize in *.
  destruct (SampleMinerNodes_spec (Normalize probVal) seed Ms Hnd HM) as (a & b & Hs & Hab & Ha).
  unfold MinerNodesSelected. rewrite Hs.
  destruct (sort_miners_spec _ a b Hnd Hab) as [H1 H2].
  destruct (sort_miners _ a b) as [a' b']. cbn [fst snd] in *.
  exists a', (CalcRemainingNodesVotes b'). rewrite sids_remaining, H1, H2.
  split_and!; [done|done|]. apply Permutation_length in H1. rewrite !length_map in H1.
  rewrite H1, Ha. unfold Normalize. by rewrite length_map.
Qed.

(** ** The answers *)

Abbreviation accounts := (map tn_Account).

Lemma elect_map_other l (m : gmap N DepositDetail) k :
  k ∉ map dd_NodeID l -> foldl (fun m item => <[dd_NodeID item := item]> m) m l !! k = m !! k.
Proof.
  revert m. induction l as [|x l IH]; intros m Hk; [done|]. cbn [map foldl] in *.
  apply not_elem_of_cons in Hk as [Hk Hl]. by rewrite IH, lookup_insert_ne by done.
Qed.

Lemma elect_map_lookup l item :
  NoDup (map dd_NodeID l) -> item ∈ l -> elect_map l !! dd_NodeID item = Some item.
Proof.
  unfold elect_map. generalize (∅ : gmap N DepositDetail).
  induction l as [|x l IH]; intros m Hnd Hin; [by apply elem_of_nil in Hin|].
  cbn [map foldl] in *. apply NoDup_cons in Hnd as [Hx Hnd].
  apply elem_of_cons in Hin as [->|Hin]; [|by apply IH].
  by rewrite elect_map_other, lookup_insert_eq.
Qed.

Lemma accounts_to_nodes m role l :
  accounts (to_nodes m role l) = map (fun id => from_option dd_Address 0%N (m !! id)) (sids l).
Proof.
  unfold to_nodes. rewrite (fmap_imap _ tn_Account), map_map. unfold compose. cbn.
  apply (imap_const (fun x => from_option dd_Address 0%N (m !! si_Nodeid x)) l).
Qed.

Lemma accounts_ids l :
  NoDup (map dd_NodeID l) ->
  map (fun id => from_option dd_Address 0%N (elect_map l !! id)) (map dd_NodeID l) = map dd_Address l.
Proof.
  intros Hnd. rewrite map_map. apply map_ext_in. intros item Hin.
  by rewrite elect_map_lookup by (done || by apply list_elem_of_In).
Qed.

(** The nodes of a list have the role, and positions counted from 0. *)
Definition placed (role : Z) (nodes : list TopologyNodeInfo) : Prop :=
  forall i n, nodes !! i = Some n -> tn_Type n = role /\ tn_Position n = u16 (Z.of_nat i).

Lemma to_nodes_placed m role l : placed role (to_nodes m role l).
Proof.
  intros i n. unfold to_nodes. rewrite list_lookup_imap.
  destruct (l !! i); [|done]. cbn. intros ?. by simplify_eq.
Qed.

Lemma length_to_nodes m role l : length (to_nodes m role l) = length l.
Proof. apply length_imap. Qed.

Lemma Str_values l : map Str (CalcAllValueFunction (map fill l)) = map dd_NodeID l.
Proof. unfold CalcAllValueFunction. by rewrite !map_map. Qed.

Lemma length_values l : length (CalcAllValueFunction (map fill l)) = length l.
Proof. unfold CalcAllValueFunction. by rewrite !length_map. Qed.

(** The two answers, in terms of the deposits. *)
Lemma ListenMiner_spec SeqNum seed l :
  NoDup (map dd_NodeID l) ->
  exists rsp, ListenMiner SeqNum seed l = Some rsp /\ mr_SeqNum rsp = SeqNum /\
    accounts (mr_MasterMiner rsp) ++ accounts (mr_BackUpMiner rsp) ≡ₚ map dd_Address l /\
    Z.of_nat (length (mr_MasterMiner rsp)) = Z.min 21 (Z.of_nat (length l)) /\
    placed RoleMiner (mr_MasterMiner rsp) /\ placed RoleMiner (mr_BackUpMiner rsp).
Proof.
  intros Hnd. unfold ListenMiner.
  destruct (MinerNodesSelected_spec (CalcAllValueFunction (map fill l)) (i64 (Uint64 seed)) 21)
    as (a & b & -> & Hab & Ha); [by rewrite Str_values|lia|].
  eexists. split; [done|]. cbn [mr_SeqNum mr_MasterMiner mr_BackUpMiner].
  rewrite !accounts_to_nodes, length_to_nodes, <- map_app, Hab, Str_values, accounts_ids by done.
  rewrite length_values in Ha. by split_and!; try apply to_nodes_placed.
Qed.

Lemma ListenValidator_spec SeqNum seed l :
  NoDup (map dd_NodeID l) ->
  exists rsp, ListenValidator SeqNum seed l [] = Some rsp /\ vr_SeqNum rsp = SeqNum /\
    accounts (vr_MasterValidator rsp) ++ accounts (vr_BackUpValidator rsp)
      ++ accounts (vr_CandidateValidator rsp) ≡ₚ map dd_Address l /\
    Z.of_nat (length (vr_MasterValidator rsp)) = Z.min 11 (Z.of_nat (length l)) /\
    Z.of_nat (length (vr_BackUpValidator rsp))
      = Z.min 5 (Z.of_nat (length l) - Z.of_nat (length (vr_MasterValidator rsp))) /\
    placed RoleValidator (vr_MasterValidator rsp) /\ placed RoleValidator (vr_BackUpValidator rsp).
Proof.
  intros Hnd. unfold ListenValidator. cbn [length Nat.eqb].
  destruct (ValNodesSelected_spec (CalcAllValueFunction (map fill l)) (i64 (Uint64 seed)) 11 5 0)
    as (a & b & c & -> & Habc & Ha & Hb); [by rewrite Str_values|lia|lia|].
  eexists. split; [done|]. cbn [vr_SeqNum vr_MasterValidator vr_BackUpValidator vr_CandidateValidator].
  rewrite !accounts_to_nodes, !length_to_nodes, <- (accounts_ids l), <- Str_values, <- Habc, !map_app by done.
  rewrite length_values in Ha, Hb. by split_and!; try apply to_nodes_placed.
Qed.

(** C32: An election always produces lists, and they are right: for depositors
    with distinct node ids, whatever the seed, every depositor is in exactly
    one list; there are 21 master miners, or all depositors when fewer, and
    the rest are backups; there are 11 master validators and then 5 backups,
    or as many as there are; and the masters and backups have the positions
    0, 1, ... of their list. *)
Theorem elections_partition_depositors SeqNum seed miners validators :
  NoDup (map dd_NodeID miners) -> NoDup (map dd_NodeID validators) ->
  exists m v, ListenMiner SeqNum seed miners = Some m /\
    ListenValidator SeqNum seed validators [] = Some v /\
    accounts (mr_MasterMiner m) ++ accounts (mr_BackUpMiner m) ≡ₚ map dd_Address miners /\
    accounts (vr_MasterValidator v) ++ accounts (vr_BackUpValidator v)
      ++ accounts (vr_CandidateValidator v) ≡ₚ map dd_Address validators /\
    Z.of_nat (length (mr_MasterMiner m)) = Z.min 21 (Z.of_nat (length miners)) /\
    Z.of_nat (length (vr_MasterValidator v)) = Z.min 11 (Z.of_nat (length validators)) /\
    Z.of_nat (length (vr_BackUpValidator v))
      = Z.min 5 (Z.of_nat (length validators) - Z.of_nat (length (vr_MasterValidator v))) /\
    placed RoleMiner (mr_MasterMiner m) /\ placed RoleMiner (mr_BackUpMiner m) /\
    placed RoleValidator (vr_MasterValidator v) /\ placed RoleValidator (vr_BackUpValidator v).
Proof.
  intros Hm Hv. destruct (ListenMiner_spec SeqNum seed miners Hm) as (m & ? & _ & ? & ? & ? & ?).
  destruct (ListenValidator_spec SeqNum seed validators Hv) as (v & ? & _ & ? & ? & ? & ? & ?).
  exists m, v. by split_and!.
Qed.

Definition deposit (k : N) : DepositDetail :=
  mkDeposit (100 + k) k (Some (10 ^ 23)) (Some 0) (Some (Z.of_N k * 60)).

(** Thirteen validators and two miners. *)
Lemma elections_partition_depositors_witness :
  exists m v,
    ListenMiner 52 7 (deposit <$> [1; 2]%N) = Some m /\
    ListenValidator 52 7 (deposit <$> [1; 2; 3; 4; 5; 6; 7; 8; 9; 10; 11; 12; 13]%N) [] = Some v /\
    length (mr_MasterMiner m) = 2%nat /\ length (vr_MasterValidator v) = 11%nat /\
    length (vr_BackUpValidator v) = 2%nat.
Proof.
  destruct (elections_partition_depositors 52 7 (deposit <$> [1; 2]%N)
              (deposit <$> [1; 2; 3; 4; 5; 6; 7; 8; 9; 10; 11; 12; 13]%N))
    as (m & v & Hm & Hv & _ & _ & Hlm & Hlv & Hlb & _).
  - apply (bool_decide_unpack _). by vm_compute.
  - apply (bool_decide_unpack _). by vm_compute.
  - exists m, v. split; [exact Hm|]. split; [exact Hv|]. clear Hm Hv.
    cbn [length fmap list_fmap] in *. lia.
Defined.

(** ** What the source does not mean to do *)

(** The stock of an elected validator can be 0: ten validators that have been
    online for long leave a newcomer with as large a deposit less than a
    hundredth of the weight. *)
Lemma newcomer_has_no_stock :
  let old k := mkDeposit (100 + k) k (Some (10 ^ 23)) (Some 0) (Some 600) in
  let new := mkDeposit 200%N 20 (Some (10 ^ 23)) (Some 0) (Some 60) in
  match ListenValidator 52 7 (new :: (old <$> [1; 2; 3; 4; 5; 6; 7; 8; 9; 10]%N)) [] with
  | Some v => (fun n => (tn_Account n, tn_Stock n)) <$> vr_MasterValidator v !! 0%nat = Some (200%N, 0)
  | None => False
  end.
Proof. by vm_compute. Qed.

(** The limits of the foundation's ratio are swapped: whatever is not above
    the lower limit 4.0 ends at the upper limit 2.5. *)
Lemma ratio_is_constant a :
  Float64.ltb a (F 4) = true -> updownlimit a (Float64.of_const 5 2) (F 4) = Float64.of_const 5 2.
Proof. intros Ha. unfold updownlimit. by rewrite Ha. Qed.

(** The stake is read from the low 64 bits of an amount in units of 10^-18,
    so that the limits 40000, 20000 and 10000 do not tell deposits apart: 10000
    coins weigh as much as 100000, and 625 * 2^64 units, over 11529 coins, as
    much as none. *)
Lemma stake_in_small_units :
  let stake d := deposit_stake (F (Uint64 d)) in
  stake (10000 * 10 ^ 18) = stake (100000 * 10 ^ 18) /\ stake (625 * 2 ^ 64) = stake 0.
Proof. split; by vm_compute. Qed.

End Election.
