(* ===== verification/Random.v ===== *)
(** * Package [random]: votes for randomness and election seeds

    Models random/electionseed.go and random/randomvote.go.  Before each
    broadcast height a validator publishes the public key of a new key pair
    and the private key of the pair before.  The seed of an election adds up
    the private keys published for one broadcast height that fit the public
    keys published for the broadcast height before, and the least hash of the
    last blocks.  The curve arithmetic of [compare] is a parameter. *)

From S2P Require Import Prelude Common Rlp Types Election.

Record RandomRequest := mkRandomRequest {
  MinHash : Z;
  PrivateMap : gmap Address (list Z);
  PublicMap : gmap Address (list Z)
}.

Inductive tx_type := Publickey | Privatekey.

(** [mc.BroadCastEvent] *)
Record BroadCastEvent := mkBroadCast { bc_Txtyps : tx_type; bc_Height : Z; bc_Data : list Z }.

Module Random.

(** [common.BytesToHash(b).Big()]: the value of the last 32 bytes. *)
Definition hash_value (b : list Z) : Z :=
  let b := drop (length b - 32) b in Rlp.read_be b (length b).

(** [common.BigToHash(x).Bytes()] of a non-negative integer. *)
Definition hash_bytes (x : Z) : list Z := Rlp.be_bytes 32 x.

Section Seed.
Context `{GoRange}.
(** [compare(private, public)]: the curve point of the private key is the
    public key. *)
Context (compare : list Z -> list Z -> bool).

Definition rangePrivate (privateMap publicMap : gmap Address (list Z)) : Z :=
  foldl (fun ans '(address, privateV) =>
           match publicMap !! address with
           | None => ans
           | Some publicV => if compare privateV publicV then ans + hash_value privateV else ans
           end) 0 (range privateMap).

Definition rangePublic (privateMap publicMap : gmap Address (list Z)) : Z :=
  foldl (fun ans '(address, publicV) =>
           match privateMap !! address with
           | None => ans
           | Some privateV => if compare privateV publicV then ans + hash_value privateV else ans
           end) 0 (range publicMap).

Definition compareMap (privateMap publicMap : gmap Address (list Z)) : Z :=
  if (size publicMap <? size privateMap)%nat then rangePrivate privateMap publicMap
  else rangePublic privateMap publicMap.

(** The seed that is published in answer to a request. *)
Definition randomSeedReqHandle (data : RandomRequest) : Z :=
  compareMap (PrivateMap data) (PublicMap data) + MinHash data.

(** *** What the seed is *)

(** The contribution of an account. *)
Definition share (private public : option (list Z)) : Z :=
  match private, public with
  | Some d, Some p => if compare d p then hash_value d else 0
  | _, _ => 0
  end.

Definition shares (privateMap publicMap : gmap Address (list Z)) : Z :=
  zsum ((fun a => share (privateMap !! a) (publicMap !! a))
          <$> elements (dom privateMap ∩ dom publicMap)).

Lemma foldl_sum {A} (f : A -> Z) (g : Z -> A -> Z) l acc :
  (forall acc x, g acc x = acc + f x) -> foldl g acc l = acc + zsum (map f l).
Proof.
  intros Hg. revert acc. induction l as [|x l IH]; intros acc; [cbn; lia|].
  cbn [foldl map]. rewrite IH, Hg. cbn. unfold zsum. lia.
Qed.

(** Accounts without a contribution do not matter. *)
Lemma zsum_subset (f : Address -> Z) (l k : list Address) :
  NoDup l -> NoDup k -> (forall a, a ∈ k -> a ∈ l) -> (forall a, a ∈ l -> a ∉ k -> f a = 0) ->
  zsum (map f l) = zsum (map f k).
Proof.
  intros Hl Hk Hsub Hz.
  assert (k ⊆+ l) as [r Hr]%submseteq_Permutation by (by apply NoDup_submseteq).
  rewrite Hr in Hl |- *. rewrite map_app, zsum_app. apply NoDup_app in Hl as (_ & Hdis & _).
  assert (zsum (map f r) = 0) as ->; [|lia].
  assert (Forall (fun a => f a = 0) r) as Hf.
  { apply Forall_forall. intros a Ha. apply Hz.
    - rewrite Hr. apply elem_of_app. by right.
    - intros Hk'. by apply (Hdis a). }
  clear -Hf. unfold zsum. induction Hf; cbn; lia.
Qed.

Lemma range_shares (m : gmap Address (list Z)) (f : Address * list Z -> Z) (g : Address -> Z) (s : gset Address) :
  (forall a v, m !! a = Some v -> f (a, v) = g a) -> s ⊆ dom m -> (forall a, a ∈ dom m -> a ∉ s -> g a = 0) ->
  zsum (map f (range m)) = zsum (g <$> elements s).
Proof.
  intros Hf Hs Hz. transitivity (zsum (map g (range m).*1)).
  - f_equal. change (map g ((range m).*1)) with (map g (map fst (range m))). rewrite map_map.
    apply map_ext_in. intros [a v] Hin. apply Hf. by apply range_elem_of, list_elem_of_In.
  - apply zsum_subset; [apply range_NoDup_fst|apply NoDup_elements| |].
    + intros a Ha%elem_of_elements%Hs%elem_of_dom. destruct Ha as [v Hv].
      apply list_elem_of_fmap. exists (a, v). split; [done|]. by apply range_elem_of.
    + intros a (p & -> & Hp)%list_elem_of_fmap Hn. destruct p as [a v]. apply range_elem_of in Hp.
      apply Hz; [by eapply elem_of_dom_2|]. by rewrite elem_of_elements in Hn.
Qed.

Lemma share_outside (private public : gmap Address (list Z)) a :
  a ∉ dom private ∩ dom public -> share (private !! a) (public !! a) = 0.
Proof.
  intros Ha. destruct (private !! a) eqn:E1, (public !! a) eqn:E2; try done.
  exfalso. apply Ha, elem_of_intersection. split; by eapply elem_of_dom_2.
Qed.

Lemma rangePrivate_shares private public : rangePrivate private public = shares private public.
Proof.
  unfold rangePrivate, shares.
  rewrite (foldl_sum (fun x => share (Some x.2) (public !! x.1))).
  - rewrite (range_shares _ _ (fun a => share (private !! a) (public !! a)) (dom private ∩ dom public));
      [lia| | |].
    + intros a v Hv. cbn [fst snd]. by rewrite Hv.
    + set_solver.
    + intros a _. apply share_outside.
  - intros acc [a d]. unfold share. cbn [fst snd]. destruct (public !! a) as [p|]; [|lia].
    destruct (compare d p); lia.
Qed.

Lemma rangePublic_shares private public : rangePublic private public = shares private public.
Proof.
  unfold rangePublic, shares.
  rewrite (foldl_sum (fun x => share (private !! x.1) (Some x.2))).
  - rewrite (range_shares _ _ (fun a => share (private !! a) (public !! a)) (dom private ∩ dom public));
      [lia| | |].
    + intros a v Hv. cbn [fst snd]. by rewrite Hv.
    + set_solver.
    + intros a _. apply share_outside.
  - intros acc [a p]. unfold share. cbn [fst snd]. destruct (private !! a) as [d|]; [|lia].
    destruct (compare d p); lia.
Qed.

Lemma compareMap_shares private public : compareMap private public = shares private public.
Proof. unfold compareMap. case_match; [apply rangePrivate_shares|apply rangePublic_shares]. Qed.

Lemma seed_shares data :
  randomSeedReqHandle data = shares (PrivateMap data) (PublicMap data) + MinHash data.
Proof. unfold randomSeedReqHandle. by rewrite compareMap_shares. Qed.

(** One account's contribution, apart from the others'. *)
Lemma shares_delete private public a :
  a ∈ dom private -> a ∈ dom public ->
  shares private public
  = share (private !! a) (public !! a) + shares (delete a private) (delete a public).
Proof.
  intros H1 H2. unfold shares. rewrite !dom_delete_L.
  replace (dom private ∩ dom public) with ({[a]} ∪ (dom private ∖ {[a]} ∩ (dom public ∖ {[a]})))
    by (apply set_eq; intros x; destruct (decide (x = a)); set_solver).
  rewrite elements_union_singleton by set_solver. cbn [fmap list_fmap]. unfold zsum at 1. cbn [foldr].
  f_equal. unfold zsum. f_equal. apply list_fmap_ext. intros i x Hx%list_elem_of_lookup_2.
  apply elem_of_elements in Hx. rewrite !lookup_delete_ne by set_solver. done.
Qed.

End Seed.

(** ** randomvote.go *)

Section Vote.
(** The depositors of a height and role (package [ca]), and the own address. *)
Context (GetElectedByHeightAndRole : Z -> Z -> option (list DepositDetail)) (self : Address).

Definition RandomVoteTime : Z := 5.

Definition needVote (height : Z) : bool :=
  match GetElectedByHeightAndRole (i64 height) RoleValidator with
  | None => false
  | Some ans => existsb (fun v => bool_decide (dd_Address v = self)) ans
  end.

(** [RandomVote]: the private key of the last vote. *)
Record RandomVote := mkRandomVote { privatekey : Z }.

Definition newRandomVote : RandomVote := mkRandomVote 0.

(** The reaction to a role update.  [key] is the result of [getkey]: a new
    private key with its compressed public key. *)
Definition RoleUpdateMsgHandle (height : Z) (key : option (Z * list Z)) (st : RandomVote)
    : RandomVote * list BroadCastEvent :=
  if negb (u64 (height + RandomVoteTime) mod Broadcast.broadcastInterval =? 0) then (st, [])
  else if negb (needVote height) then (st, [])
  else
    let privatekeySend := hash_bytes (privatekey st) in
    match key with
    | None => (st, [])
    | Some (privatekey, publickeySend) =>
        let h := i64 (u64 (height + RandomVoteTime)) in
        (mkRandomVote privatekey,
         [mkBroadCast Publickey h publickeySend; mkBroadCast Privatekey h privatekeySend])
    end.

(** A run over the role updates, with everything it publishes. *)
Fixpoint vote_run (inputs : list (Z * option (Z * list Z))) (st : RandomVote)
    : RandomVote * list BroadCastEvent :=
  match inputs with
  | [] => (st, [])
  | (height, key) :: inputs =>
      let '(st, out) := RoleUpdateMsgHandle height key st in
      let '(st, out') := vote_run inputs st in
      (st, out ++ out')
  end.

(** The update leads to a vote. *)
Definition votes (input : Z * option (Z * list Z)) : option (Z * Z * list Z) :=
  if (u64 (input.1 + RandomVoteTime) mod Broadcast.broadcastInterval =? 0) && needVote input.1
  then '(d, p) ← input.2; Some (i64 (u64 (input.1 + RandomVoteTime)), d, p) else None.

Lemma RoleUpdate_cases height key st :
  RoleUpdateMsgHandle height key st =
  match votes (height, key) with
  | None => (st, [])
  | Some (h, d, p) =>
      (mkRandomVote d, [mkBroadCast Publickey h p; mkBroadCast Privatekey h (hash_bytes (privatekey st))])
  end.
Proof.
  unfold RoleUpdateMsgHandle, votes. cbn [fst snd].
  destruct (_ =? 0); [|done]. destruct (needVote height); [|done]. by destruct key as [[d p]|].
Qed.

Lemma vote_run_app l k st :
  vote_run (l ++ k) st
  = ((vote_run k (vote_run l st).1).1, (vote_run l st).2 ++ (vote_run k (vote_run l st).1).2).
Proof.
  revert st. induction l as [|[h key] l IH]; intros st; cbn; [by destruct (vote_run k st)|].
  destruct (RoleUpdateMsgHandle h key st) as [st1 out1]. rewrite IH.
  destruct (vote_run l st1) as [st2 out2]. cbn. by rewrite app_assoc.
Qed.

Lemma vote_run_silent l st : Forall (fun i => votes i = None) l -> vote_run l st = (st, []).
Proof.
  revert st. induction 1 as [|[h key] l Hi Hl IH]; cbn; [done|]. by rewrite RoleUpdate_cases, Hi, IH.
Qed.

End Vote.

Lemma hash_value_bytes x : 0 <= x < 2 ^ 256 -> hash_value (hash_bytes x) = x.
Proof.
  intros Hx. unfold hash_value, hash_bytes. rewrite Rlp.be_bytes_length, Nat.sub_diag, drop_0.
  rewrite Rlp.be_bytes_length. rewrite <- (app_nil_r (Rlp.be_bytes 32 x)). by apply Rlp.read_be_bytes.
Qed.

Section CommitReveal.
Context `{GoRange} (compare : list Z -> list Z -> bool).
Context (GetElectedByHeightAndRole : Z -> Z -> option (list DepositDetail)) (self : Address).
Abbreviation votes := (votes GetElectedByHeightAndRole self).

(** A voter commits before it reveals.  Of two votes with no vote between
    them, the first publishes the public key of a new pair and the second the
    private key of the same pair; and a seed request that holds these two keys
    of the account gets a seed in which the private key counts, whatever the
    order in which the maps are walked. *)
Theorem revealed_key_counts pre i1 h1 d1 p1 mid i2 h2 d2 p2 post st data :
  votes i1 = Some (h1, d1, p1) -> Forall (fun i => votes i = None) mid -> votes i2 = Some (h2, d2, p2) ->
  0 <= d1 < 2 ^ 256 -> compare (hash_bytes d1) p1 = true ->
  PublicMap data !! self = Some p1 -> PrivateMap data !! self = Some (hash_bytes d1) ->
  mkBroadCast Publickey h1 p1
    ∈ (vote_run GetElectedByHeightAndRole self (pre ++ [i1] ++ mid ++ [i2] ++ post) st).2 /\
  mkBroadCast Privatekey h2 (hash_bytes d1)
    ∈ (vote_run GetElectedByHeightAndRole self (pre ++ [i1] ++ mid ++ [i2] ++ post) st).2 /\
  randomSeedReqHandle compare data
  = d1 + randomSeedReqHandle compare
           (mkRandomRequest (MinHash data) (delete self (PrivateMap data)) (delete self (PublicMap data))).
Proof.
  intros H1 Hmid H2 Hd Hc Hpub Hpriv. destruct i1 as [k1 key1], i2 as [k2 key2].
  rewrite !vote_run_app. cbn [fst snd vote_run]. rewrite RoleUpdate_cases, H1. cbn [fst snd vote_run].
  rewrite (vote_run_silent _ _ mid) by done. cbn [fst snd]. rewrite RoleUpdate_cases, H2.
  cbn [fst snd privatekey app]. rewrite !elem_of_app, !elem_of_cons.
  split_and!; [by auto|by auto 10|]. rewrite !seed_shares. cbn [MinHash PrivateMap PublicMap].
  rewrite (shares_delete _ _ _ self) by (by eapply elem_of_dom_2).
  rewrite Hpub, Hpriv. unfold share at 1. rewrite Hc, hash_value_bytes by done. lia.
Qed.

End CommitReveal.

(** Account 3 votes before heights 20 and 40, with an update at height 30
    between; the seed takes the key 77. *)
Lemma revealed_key_counts_witness :
  randomSeedReqHandle (H := sorted_range) (fun d p => bool_decide (d = hash_bytes 77) && bool_decide (p = [5]))
    (mkRandomRequest 1000 {[3%N := hash_bytes 77]} {[3%N := [5]]}) = 1077.
Proof.
  pose proof (revealed_key_counts (H := sorted_range)
    (fun d p => bool_decide (d = hash_bytes 77) && bool_decide (p = [5]))
    (fun _ _ => Some [mkDeposit 3%N 1 None None None]) 3%N
    [] (15, Some (77, [5])) 20 77 [5] [(30, Some (88, [6]))] (35, Some (99, [7])) 40 99 [7] []
    newRandomVote (mkRandomRequest 1000 {[3%N := hash_bytes 77]} {[3%N := [5]]})) as Hw.
  destruct Hw as (_ & _ & ->); [reflexivity|repeat constructor|reflexivity|lia|reflexivity..].
Defined.

End Random.
