(* ===== verification/Reelect.v ===== *)
(** * Package [reelection]: the data service of re-elections

    Models reelection/reelection.go, topGen.go, checkGen.go, cal.go and
    handlemsg.go.  Eight blocks before a re-election height the service of a
    validator asks the random service for a seed (Random.v) and the election
    service for the new masters (Election.v), and stores the answers in its
    database; what is missing is asked for again when it is needed.  The
    service tells the block producers and verifiers which election and which
    topology a header has to carry: it is the service behind the class
    [ReElection] of BlkVerify.v.  Answers of the other services travel over
    buffered channels, in which a late answer stays for the next request;
    questions and role updates are handled one at a time. *)

From Stdlib Require Strings.String.
From stdpp Require Import strings pretty.
From S2P Require Import Prelude Common Types Topology Rlp Election Random.

Record ElectMiner := mkElectMiner {
  em_MasterMiner : list TopologyNodeInfo;
  em_BackUpMiner : list TopologyNodeInfo
}.

Record ElectValidator := mkElectValidator {
  ev_MasterValidator : list TopologyNodeInfo;
  ev_BackUpValidator : list TopologyNodeInfo;
  ev_CandidateValidator : list TopologyNodeInfo
}.

Record ElectReturnInfo := mkElectReturn {
  MasterMiner : list TopologyNodeInfo;
  BackUpMiner : list TopologyNodeInfo;
  MasterValidator : list TopologyNodeInfo;
  BackUpValidator : list TopologyNodeInfo
}.

Definition no_miners : ElectMiner := mkElectMiner [] [].
Definition no_validators : ElectValidator := mkElectValidator [] [] [].

(** What the service reads of the chain: the hash of a block ([None] when the
    block is missing, where the source dereferences nil), the deposits of a
    height and role, and the keys published for a broadcast height. *)
Record Chain := mkChain {
  GetHashByNum : Z -> option Hash;
  GetAllElectedByHeight : Z -> Z -> option (list DepositDetail);
  getKeyTransInfo : Z -> tx_type -> gmap Address (list Z)
}.

Module Reelect.

Inductive error :=
| ErrDeposit | ErrSeed | ErrTimeout | ErrPut | ErrNotFound | ErrRole | ErrTopoType
| Panic.

(** Stored documents: the JSON objects of the two record types. *)
Inductive document := DMiner (d : ElectMiner) | DValidator (d : ElectValidator).

(** [json.Unmarshal] ignores fields that the target does not have. *)
Definition as_miner (d : document) : ElectMiner :=
  match d with DMiner d => d | DValidator _ => no_miners end.
Definition as_validator (d : document) : ElectValidator :=
  match d with DValidator d => d | DMiner _ => no_validators end.

(** Another service answers the requests in the order in which they were
    published.  [outstanding] are its answers that are not published yet,
    [channel] is the buffered Go channel on which this service receives them:
    what is in it stays there until somebody receives from it. *)
Record Mailbox (A : Type) := mkMailbox { outstanding : list A; channel : list A }.
Arguments mkMailbox {A}.
Arguments outstanding {A}.
Arguments channel {A}.

(** What the surroundings do in one interaction.  For a request: how many
    older answers are still not published when it is made (those published
    while nobody is subscribed are lost), how many answers are published while
    it waits, and whether the [select] takes an answer, if there is one, or the
    timeout.  For a write to the database: whether it succeeds. *)
Record Interaction := mkInteraction { o_late : nat; o_delivered : nat; o_ok : bool }.

Definition ask {A} (o : Interaction) (answer : A) (box : Mailbox A) : Mailbox A * option A :=
  let older := drop (length (outstanding box) - o_late o) (outstanding box) in
  let queue := older ++ [answer] in
  let ch := channel box ++ take (o_delivered o) queue in
  let rest := drop (o_delivered o) queue in
  match ch with
  | rsp :: ch' => if o_ok o then (mkMailbox rest ch', Some rsp) else (mkMailbox rest ch, None)
  | [] => (mkMailbox rest ch, None)
  end.

(** [interactions] counts the messages and database writes so far. *)
Record State := mkState {
  ldb : gmap string document;
  currentID : Z;
  interactions : nat;
  electionSeedCh : Mailbox Z;
  minerGenCh : Mailbox MasterMinerReElectionRsp;
  validatorGenCh : Mailbox MasterValidatorReElectionRsq
}.

Definition set_ldb db st :=
  mkState db (currentID st) (interactions st) (electionSeedCh st) (minerGenCh st) (validatorGenCh st).
Definition set_ID id st :=
  mkState (ldb st) id (interactions st) (electionSeedCh st) (minerGenCh st) (validatorGenCh st).
Definition interact st :=
  mkState (ldb st) (currentID st) (S (interactions st)) (electionSeedCh st) (minerGenCh st) (validatorGenCh st).
Definition set_seeds box st :=
  mkState (ldb st) (currentID st) (interactions st) box (minerGenCh st) (validatorGenCh st).
Definition set_miners box st :=
  mkState (ldb st) (currentID st) (interactions st) (electionSeedCh st) box (validatorGenCh st).
Definition set_validators box st :=
  mkState (ldb st) (currentID st) (interactions st) (electionSeedCh st) (minerGenCh st) box.

Definition MinerNetChangeUpTime : Z := 4.
Definition VerifyNetChangeUpTime : Z := 6.
Definition MinerTopologyGenerateUpTime : Z := 8.
Definition VerifyTopologyGenerateUpTime : Z := 8.

Definition MakeElectDBKey (height role : Z) : string :=
  if role =? RoleMiner then (pretty (i64 height) +:+ "---" +:+ "Miner---Elect")%string
  else if role =? RoleValidator then (pretty (i64 height) +:+ "---" +:+ "Validator---Elect")%string
  else ""%string.

Definition readElectData (aim height : Z) (st : State) : res error (ElectMiner * ElectValidator) :=
  if aim =? RoleMiner then
    match ldb st !! MakeElectDBKey height RoleMiner with
    | None => Err ErrNotFound
    | Some d => Ok (as_miner d, no_validators)
    end
  else if aim =? RoleValidator then
    match ldb st !! MakeElectDBKey height RoleValidator with
    | None => Err ErrNotFound
    | Some d => Ok (no_miners, as_validator d)
    end
  else Err ErrRole.

Section Service.
Context `{GoRange} (compare : list Z -> list Z -> bool) (chain : Chain).

(** What happens in the [n]-th interaction. *)
Context (external : nat -> Interaction).

Definition writeElectData (aim height : Z) (minerData : ElectMiner) (validatorData : ElectValidator)
    (st : State) : State * res error unit :=
  let put key d :=
    if o_ok (external (interactions st))
    then (interact (set_ldb (<[key := d]> (ldb st)) st), Ok tt)
    else (interact st, Err ErrPut) in
  if aim =? RoleMiner then put (MakeElectDBKey height RoleMiner) (DMiner minerData)
  else if aim =? RoleValidator then put (MakeElectDBKey height RoleValidator) (DValidator validatorData)
  else (st, Ok tt).

(** *** The seed (topGen.go) *)

(** The loop of [getMinHash]; it makes fewer rounds than the fuel. *)
Fixpoint min_loop (fuel : nat) (i stop : Z) (minhash : Hash) : option Hash :=
  match fuel with
  | O => Some minhash
  | S fuel =>
      if stop <? i then
        blockhash ← GetHashByNum chain i;
        min_loop fuel (u64 (i - 1)) stop (if (blockhash <? minhash)%N then blockhash else minhash)
      else Some minhash
  end.

Definition getMinHash (height : Z) : option Hash :=
  minhash ← GetHashByNum chain height;
  min_loop (Z.to_nat Broadcast.broadcastInterval) (u64 (height - 1))
    (u64 (height - Broadcast.broadcastInterval)) minhash.

Definition CalcbeforeSeedGen (height : Z) : option RandomRequest :=
  let height_1 := u64 (height / Broadcast.broadcastInterval * Broadcast.broadcastInterval) in
  let height_2 := u64 (height_1 - Broadcast.broadcastInterval) in
  minHash ← getMinHash height;
  Some (mkRandomRequest (Z.of_N minHash) (getKeyTransInfo chain height_1 Privatekey)
          (getKeyTransInfo chain height_2 Publickey)).

(** A seed of the random service, taken from the channel, or a timeout. *)
Definition GetSeed (height : Z) (st : State) : State * res error Z :=
  match CalcbeforeSeedGen height with
  | None => (st, Err Panic)
  | Some sendData =>
      let '(box, seed) := ask (external (interactions st)) (Random.randomSeedReqHandle compare sendData)
                            (electionSeedCh st) in
      (interact (set_seeds box st), match seed with Some seed => Ok seed | None => Err ErrSeed end)
  end.

(** *** The election of a height (topGen.go) *)

Definition ToGenMinerTop (height : Z) (st : State) : State * res error unit :=
  match GetAllElectedByHeight chain (i64 height) RoleMiner with
  | None => (st, Err ErrDeposit)
  | Some minerDeposit =>
      match GetSeed height st with
      | (st, Err e) => (st, Err e)
      | (st, Ok seed) =>
          match Election.ListenMiner height seed minerDeposit with
          | None => (st, Err Panic)
          | Some answer =>
              let '(box, rsp) := ask (external (interactions st)) answer (minerGenCh st) in
              let st := interact (set_miners box st) in
              match rsp with
              | Some TopRsp =>
                  writeElectData RoleMiner (u64 (height + MinerTopologyGenerateUpTime))
                    (mkElectMiner (mr_MasterMiner TopRsp) (mr_BackUpMiner TopRsp)) no_validators st
              | None => (st, Err ErrTimeout)
              end
          end
      end
  end.

Definition GetFound : list DepositDetail := [].

Definition ToGenValidatorTop (height : Z) (st : State) : State * res error unit :=
  match GetAllElectedByHeight chain (i64 height) RoleValidator with
  | None => (st, Err ErrDeposit)
  | Some validatoeDeposit =>
      match GetSeed height st with
      | (st, Err e) => (st, Err e)
      | (st, Ok seed) =>
          match Election.ListenValidator height seed validatoeDeposit GetFound with
          | None => (st, Err Panic)
          | Some answer =>
              let '(box, rsp) := ask (external (interactions st)) answer (validatorGenCh st) in
              let st := interact (set_validators box st) in
              match rsp with
              | Some TopRsp =>
                  writeElectData RoleValidator (u64 (height + VerifyTopologyGenerateUpTime)) no_miners
                    (mkElectValidator (vr_MasterValidator TopRsp) (vr_BackUpValidator TopRsp)
                       (vr_CandidateValidator TopRsp)) st
              | None => (st, Err ErrTimeout)
              end
          end
      end
  end.

(** *** Filling in what is missing (checkGen.go) *)

Definition boolTopStatus (height types : Z) (st : State) : bool := is_ok (readElectData types height st).

Definition checkTopGenStatus (height : Z) (st : State) : State * res error unit :=
  let next := Broadcast.GetNextReElectionNumber height in
  let check role up (gen : Z -> State -> State * res error unit) (k : State -> State * res error unit) st :=
    if boolTopStatus next role st then k st
    else if height =? 0 then (st, Ok tt)
    else match gen (u64 (next - up)) st with
         | (st, Err e) => (st, Err e)
         | (st, Ok _) => k st
         end in
  check RoleMiner MinerTopologyGenerateUpTime ToGenMinerTop
    (check RoleValidator VerifyTopologyGenerateUpTime ToGenValidatorTop (fun st => (st, Ok tt))) st.

(** An error of the check is logged; a panic is not. *)
Definition checked {A} (height : Z) (k : State -> State * res error A) (st : State) : State * res error A :=
  match checkTopGenStatus height st with
  | (st, Err Panic) => (st, Err Panic)
  | (st, _) => k st
  end.

(** *** The questions (reelection.go, cal.go) *)

Definition GetElection (height : Z) (st : State) : State * res error ElectReturnInfo :=
  let hm := u64 (height + MinerNetChangeUpTime) in
  let hv := u64 (height + VerifyNetChangeUpTime) in
  if Broadcast.IsReElectionNumber hm then
    checked hm (fun st =>
      (st, let? (ans, _) := readElectData RoleMiner hm st in
           Ok (mkElectReturn (em_MasterMiner ans) (em_BackUpMiner ans) [] []))) st
  else if Broadcast.IsReElectionNumber hv then
    checked hv (fun st =>
      (st, let? (_, ans) := readElectData RoleValidator hv st in
           Ok (mkElectReturn [] [] (ev_MasterValidator ans) (ev_BackUpValidator ans)))) st
  else (st, Ok (mkElectReturn [] [] [] [])).

Definition GetNetTopologyAll (height : Z) (st : State) : State * res error ElectReturnInfo :=
  let h := u64 (height + 1) in
  if Broadcast.IsReElectionNumber h then
    checked h (fun st =>
      match readElectData RoleMiner h st with
      | Err e => (st, Err e)
      | Ok (ans, _) =>
          checked h (fun st =>
            (st, let? (_, ans1) := readElectData RoleValidator h st in
                 Ok (mkElectReturn (em_MasterMiner ans) (em_BackUpMiner ans)
                       (ev_MasterValidator ans1) (ev_BackUpValidator ans1)))) st
      end) st
  else (st, Ok (mkElectReturn [] [] [] [])).

(** The source returns before it computes anything. *)
Definition GetTopoChange (height : Z) (offline : list Address) : list Alternative := [].

(** *** The timer (handlemsg.go) *)

Definition IsMinerTopGenTiming (height : Z) : bool :=
  height mod Broadcast.reelectionInterval =? Broadcast.reelectionInterval - MinerTopologyGenerateUpTime.

Definition IsValidatorTopGenTiming (height : Z) : bool :=
  height mod Broadcast.reelectionInterval =? Broadcast.reelectionInterval - VerifyTopologyGenerateUpTime.

(** The errors of both generations are logged, and a panic is not. *)
Definition HandleTopGen (height : Z) (st : State) : State * res error unit :=
  let '(st, r) := if IsMinerTopGenTiming height then ToGenMinerTop height st else (st, Ok tt) in
  match r with
  | Err Panic => (st, r)
  | _ => if IsValidatorTopGenTiming height then ToGenValidatorTop height st else (st, r)
  end.

Definition roleUpdateProcess (Role BlockNum : Z) (st : State) : State * res error unit :=
  let st := set_ID Role st in
  if negb (RoleValidator =? currentID st) then (st, Ok tt) else HandleTopGen BlockNum st.

End Service.

(** ** Headers (cal.go) *)

Definition checkInGraph (top : TopologyGraph) (pos : Z) : Address :=
  from_option tn_Account 0%N (List.find (fun v => tn_Position v =? pos) (tg_NodeList top)).

Definition checkInDiff (diff : NetTopology) (add : Address) : bool :=
  existsb (fun v => bool_decide (ntd_Account v = add)) (nt_Data diff).

Definition ParseTopNodeOffline (topologyChg : NetTopology) (prevTopology : TopologyGraph) : list Address :=
  if negb (nt_Type topologyChg =? NetTopoTypeChange) then []
  else
    omap (fun v =>
      if (ntd_Position v =? PosOffline) || (ntd_Position v =? PosOnline) then None
      else let account := checkInGraph prevTopology (ntd_Position v) in
           if checkInDiff topologyChg account then None else Some account) (nt_Data topologyChg).

Definition ParsePrimaryTopNodeState (topologyChg : NetTopology) : list Address * list Address :=
  if negb (nt_Type topologyChg =? NetTopoTypeChange) then ([], [])
  else
    let at_pos pos := map ntd_Account (List.filter (fun v => ntd_Position v =? pos) (nt_Data topologyChg)) in
    (at_pos PosOnline, at_pos PosOffline).

(** The order in which both transfers walk the four lists. *)
Definition by_role (info : ElectReturnInfo) : list (Z * list TopologyNodeInfo) :=
  [(ElectRoleValidator, MasterValidator info); (ElectRoleValidatorBackUp, BackUpValidator info);
   (ElectRoleMiner, MasterMiner info); (ElectRoleMinerBackUp, BackUpMiner info)].

Definition TransferToElectionStu (info : ElectReturnInfo) : list Elect :=
  concat (map (fun '(role, src) =>
    map (fun node => mkElect (tn_Account node) (tn_Stock node) role) src) (by_role info)).

Definition TransferToNetTopologyAllStu (info : ElectReturnInfo) : NetTopology :=
  mkNetTopology NetTopoTypeAll
    (concat (map (fun '(role, src) =>
       imap (fun i node => mkNetTopologyData (tn_Account node)
                             (GeneratePosition (u16 (Z.of_nat i)) role)) src) (by_role info))).

Definition TransferToNetTopologyChgStu (alterInfo : list Alternative)
    (onlinePrimaryNods offlinePrimaryNodes : list Address) : NetTopology :=
  mkNetTopology NetTopoTypeChange
    (map (fun alter => mkNetTopologyData (alt_A alter) (alt_Position alter)) alterInfo ++
     map (fun a => mkNetTopologyData a PosOnline) onlinePrimaryNods ++
     map (fun a => mkNetTopologyData a PosOffline) offlinePrimaryNodes).

Definition paraseNetTopology (topo : NetTopology) : res error ElectReturnInfo :=
  if negb (nt_Type topo =? NetTopoTypeAll) then Err ErrTopoType
  else
    let nodes :=
      map (fun data => mkNode (ntd_Account data) (ntd_Position data)
                         (GetRoleTypeFromPosition (ntd_Position data)) 0 0) (nt_Data topo) in
    let with_type t := List.filter (fun n => tn_Type n =? t) nodes in
    Ok (mkElectReturn (with_type RoleMiner) (with_type RoleBackupMiner)
          (with_type RoleValidator) (with_type RoleBackupValidator)).

(** ** Keys of the database *)

Section Keys.
Abbreviation chars := Stdlib.Strings.String.list_ascii_of_string.

Lemma chars_app s t :
  chars (s +:+ t) = chars s ++ chars t.
Proof. induction s as [|c s IH]; simpl; [done|]. f_equal. exact IH. Qed.

Lemma i64_inj x y : in_u64 x -> in_u64 y -> i64 x = i64 y -> x = y.
Proof.
  unfold in_u64, i64. intros Hx Hy E.
  assert ((x + 2 ^ 63) mod 2 ^ 64 = (y + 2 ^ 63) mod 2 ^ 64) as E' by lia.
  assert (forall z, 0 <= z < 2 ^ 64 ->
    (z + 2 ^ 63) mod 2 ^ 64 = if z <? 2 ^ 63 then z + 2 ^ 63 else z - 2 ^ 63) as Hz.
  { clear. intros z Hz. destruct (Z.ltb_spec z (2 ^ 63)); [apply Z.mod_small; lia|].
    rewrite <- (Z.mod_small (z - 2 ^ 63) (2 ^ 64)) by lia.
    rewrite <- (Z_mod_plus_full (z - 2 ^ 63) 1 (2 ^ 64)). f_equal. lia. }
  rewrite !Hz in E' by done. repeat case_match; bool_to_prop; lia.
Qed.

Lemma chars_inj s t : chars s = chars t -> s = t.
Proof.
  intros E. rewrite <- (Stdlib.Strings.String.string_of_list_ascii_of_string s), E.
  apply Stdlib.Strings.String.string_of_list_ascii_of_string.
Qed.

Lemma height_key_inj (a b : Z) (suffix : string) :
  (pretty a +:+ suffix)%string = (pretty b +:+ suffix)%string -> a = b.
Proof.
  intros E%(f_equal chars). rewrite !chars_app in E. by apply app_inv_tail, chars_inj, (inj pretty) in E.
Qed.

(** Different heights and roles have different keys. *)
Lemma MakeElectDBKey_inj h r h' r' :
  in_u64 h -> in_u64 h' -> r ∈ [RoleMiner; RoleValidator] -> r' ∈ [RoleMiner; RoleValidator] ->
  MakeElectDBKey h r = MakeElectDBKey h' r' -> h = h' /\ r = r'.
Proof.
  intros Hh Hh' Hr Hr' E.
  rewrite !elem_of_cons, elem_of_nil in Hr, Hr'. unfold MakeElectDBKey in E.
  destruct Hr as [->|[->|[]]], Hr' as [->|[->|[]]]; cbn [RoleMiner RoleValidator Z.eqb Pos.eqb] in E.
  - apply height_key_inj in E. split; [by apply i64_inj|done].
  - apply (f_equal (fun s => rev (chars s))) in E. by rewrite !chars_app, !rev_app_distr in E.
  - apply (f_equal (fun s => rev (chars s))) in E. by rewrite !chars_app, !rev_app_distr in E.
  - apply height_key_inj in E. split; [by apply i64_inj|done].
Qed.

End Keys.

(** ** What the database holds *)

Section Invariant.
Context `{GoRange} (compare : list Z -> list Z -> bool) (chain : Chain).

(** The elections of a height, as functions of the chain. *)
Definition seed_of (height : Z) : option Z :=
  Random.randomSeedReqHandle compare <$> CalcbeforeSeedGen chain height.

Definition miners_of (height : Z) : option ElectMiner :=
  deposits ← GetAllElectedByHeight chain (i64 height) RoleMiner;
  seed ← seed_of height;
  rsp ← Election.ListenMiner height seed deposits;
  Some (mkElectMiner (mr_MasterMiner rsp) (mr_BackUpMiner rsp)).

Definition validators_of (height : Z) : option ElectValidator :=
  deposits ← GetAllElectedByHeight chain (i64 height) RoleValidator;
  seed ← seed_of height;
  rsp ← Election.ListenValidator height seed deposits GetFound;
  Some (mkElectValidator (vr_MasterValidator rsp) (vr_BackUpValidator rsp) (vr_CandidateValidator rsp)).

(** Each document is the election of eight blocks before its height. *)
Definition db_ok (db : gmap string document) : Prop :=
  forall height, in_u64 height ->
    (forall d, db !! MakeElectDBKey height RoleMiner = Some d ->
       exists m, d = DMiner m /\ miners_of (u64 (height - 8)) = Some m) /\
    (forall d, db !! MakeElectDBKey height RoleValidator = Some d ->
       exists v, d = DValidator v /\ validators_of (u64 (height - 8)) = Some v).

Lemma u64_up_down h : in_u64 h -> u64 (u64 (h + 8) - 8) = h.
Proof.
  intros Hh. unfold u64. rewrite Zminus_mod_idemp_l. replace (h + 8 - 8) with h by lia. by apply Z.mod_small.
Qed.

Lemma u64_down_up h : in_u64 h -> u64 (u64 (h - 8) + 8) = h.
Proof.
  intros Hh. unfold u64. rewrite Zplus_mod_idemp_l. replace (h - 8 + 8) with h by lia. by apply Z.mod_small.
Qed.

Lemma insert_keeps (db : gmap string document) k x :
  (forall d, db !! k = Some d -> d = x) -> db ⊆ <[k := x]> db.
Proof.
  intros Hk. apply map_subseteq_spec. intros j d Hj. destruct (decide (k = j)) as [->|].
  - rewrite lookup_insert_eq. f_equal. symmetry. by apply Hk.
  - by rewrite lookup_insert_ne.
Qed.

(** Keys of the two roles, and of different heights, do not interfere. *)
Lemma db_ok_miner db h m :
  in_u64 h -> miners_of h = Some m -> db_ok db ->
  db_ok (<[MakeElectDBKey (u64 (h + 8)) RoleMiner := DMiner m]> db) /\
  db ⊆ <[MakeElectDBKey (u64 (h + 8)) RoleMiner := DMiner m]> db.
Proof.
  intros Hh Hm Hdb. split.
  2: { apply insert_keeps. intros d Hd. apply Hdb in Hd as (? & -> & Hd); [|auto with go].
       rewrite u64_up_down in Hd by done. congruence. }
  intros k Hk. split; intros d.
  - destruct (decide (MakeElectDBKey (u64 (h + 8)) RoleMiner = MakeElectDBKey k RoleMiner)) as [E|E].
    + apply MakeElectDBKey_inj in E as [<- _]; [|auto with go|done|by left|by left].
      rewrite lookup_insert_eq, u64_up_down by done. intros ?. simplify_eq. eauto.
    + rewrite lookup_insert_ne by done. by apply Hdb.
  - rewrite lookup_insert_ne; [by apply Hdb|].
    intros [_ E]%MakeElectDBKey_inj; [done|auto with go|done|by left|by right; left].
Qed.

Lemma db_ok_validator db h v :
  in_u64 h -> validators_of h = Some v -> db_ok db ->
  db_ok (<[MakeElectDBKey (u64 (h + 8)) RoleValidator := DValidator v]> db) /\
  db ⊆ <[MakeElectDBKey (u64 (h + 8)) RoleValidator := DValidator v]> db.
Proof.
  intros Hh Hm Hdb. split.
  2: { apply insert_keeps. intros d Hd. apply Hdb in Hd as (? & -> & Hd); [|auto with go].
       rewrite u64_up_down in Hd by done. congruence. }
  intros k Hk. split; intros d.
  - rewrite lookup_insert_ne; [by apply Hdb|].
    intros [_ E]%MakeElectDBKey_inj; [done|auto with go|done|by right; left|by left].
  - destruct (decide (MakeElectDBKey (u64 (h + 8)) RoleValidator = MakeElectDBKey k RoleValidator)) as [E|E].
    + apply MakeElectDBKey_inj in E as [<- _]; [|auto with go|done|by right; left|by right; left].
      rewrite lookup_insert_eq, u64_up_down by done. intros ?. simplify_eq. eauto.
    + rewrite lookup_insert_ne by done. by apply Hdb.
Qed.

(** An answer arrives while its request waits and is then taken, or it is lost:
    no answer is left for a later request. *)
Definition prompt (o : Interaction) : Prop := o_late o = 0%nat /\ (o_ok o = false -> o_delivered o = 0%nat).

Lemma ask_prompt {A} o (answer : A) box box' rsp :
  prompt o -> channel box = [] -> ask o answer box = (box', rsp) ->
  channel box' = [] /\ forall x, rsp = Some x -> x = answer.
Proof.
  intros [Hl Hd] Hc. unfold ask. rewrite Hl, Hc, Nat.sub_0_r, drop_all. cbn zeta.
  destruct (o_delivered o) as [|n] eqn:En; simpl.
  { intros ?. by simplify_eq. }
  destruct (o_ok o); [|by discriminate (Hd eq_refl)]. rewrite take_nil. intros ?. simplify_eq.
  split; [done|]. intros x ?. by simplify_eq.
Qed.

(** No answer waits in a channel, and the database is correct. *)
Definition quiet (st : State) : Prop :=
  channel (electionSeedCh st) = [] /\ channel (minerGenCh st) = [] /\ channel (validatorGenCh st) = [].
Definition sound (st : State) : Prop := db_ok (ldb st) /\ quiet st.

(** What an operation leaves: a correct database with nothing lost. *)
Definition kept (st st' : State) : Prop := sound st -> sound st' /\ ldb st ⊆ ldb st'.

Lemma kept_refl st st' : ldb st' = ldb st -> (quiet st -> quiet st') -> kept st st'.
Proof. intros E Hq [Hdb Hst]. unfold sound. rewrite E. by split; [split; [|apply Hq]|]. Qed.

Lemma kept_trans st1 st2 st3 : kept st1 st2 -> kept st2 st3 -> kept st1 st3.
Proof. intros H1 H2 Hdb. destruct (H1 Hdb) as [H3 ?], (H2 H3). split; [done|]. by etrans. Qed.

Context (external : nat -> Interaction) (Hprompt : forall n, prompt (external n)).
Abbreviation ToGenMinerTop := (ToGenMinerTop compare chain external).
Abbreviation ToGenValidatorTop := (ToGenValidatorTop compare chain external).

Lemma GetSeed_spec h st st' r :
  quiet st -> GetSeed compare chain external h st = (st', r) ->
  ldb st' = ldb st /\ quiet st' /\ (forall seed, r = Ok seed -> seed_of h = Some seed).
Proof.
  intros (Hq1 & Hq2 & Hq3). unfold GetSeed, seed_of.
  destruct (CalcbeforeSeedGen chain h) as [req|]; [|intros ?; by simplify_eq].
  destruct (ask _ _ _) as [box seed] eqn:E. apply ask_prompt in E as [Hb Hs]; [|done..].
  intros ?. simplify_eq. split_and!; [done|done|]. intros x Hx. destruct seed as [y|]; [|done].
  injection Hx as ->. by rewrite (Hs _ eq_refl).
Qed.

(** Both generations: nothing was lost, and after a success the database holds
    what the chain gives. *)
Lemma ToGenMinerTop_spec h st st' r :
  in_u64 h -> sound st -> ToGenMinerTop h st = (st', r) ->
  (sound st' /\ ldb st ⊆ ldb st') /\
  (r = Ok tt -> exists m, miners_of h = Some m /\
     ldb st' !! MakeElectDBKey (u64 (h + 8)) RoleMiner = Some (DMiner m)).
Proof.
  intros Hh [Hok Hq]. unfold ToGenMinerTop.
  destruct (GetAllElectedByHeight _ _ _) as [deposits|] eqn:Hd; [|intros ?; by simplify_eq].
  destruct (GetSeed compare chain external h st) as [st1 seed] eqn:Hs.
  apply GetSeed_spec in Hs as (Hdb & Hq1 & Hs); [|done]. unfold sound. rewrite <- Hdb in *.
  destruct seed as [seed|e]; [|intros ?; by simplify_eq].
  destruct (Election.ListenMiner h seed deposits) as [answer|] eqn:Hl; [|intros ?; by simplify_eq].
  destruct (ask _ _ _) as [box rsp] eqn:Ea. destruct Hq1 as (Hc1 & Hc2 & Hc3).
  apply ask_prompt in Ea as [Hb Ha]; [|done..].
  assert (quiet (set_miners box st1)) as Hq2 by done.
  destruct rsp as [rsp|]; [|intros ?; by simplify_eq]. rewrite (Ha _ eq_refl).
  assert (miners_of h = Some (mkElectMiner (mr_MasterMiner answer) (mr_BackUpMiner answer))) as Hm.
  { unfold miners_of. rewrite Hd. cbn. rewrite (Hs seed eq_refl). cbn. by rewrite Hl. }
  unfold writeElectData. cbn [Z.eqb RoleMiner Pos.eqb].
  destruct (o_ok _); intros ?; simplify_eq; [|done]. cbn [ldb interact set_ldb set_miners].
  destruct (db_ok_miner (ldb st1) h _ Hh Hm Hok). split; [done|]. intros _. rewrite lookup_insert_eq. eauto.
Qed.

Lemma ToGenValidatorTop_spec h st st' r :
  in_u64 h -> sound st -> ToGenValidatorTop h st = (st', r) ->
  (sound st' /\ ldb st ⊆ ldb st') /\
  (r = Ok tt -> exists v, validators_of h = Some v /\
     ldb st' !! MakeElectDBKey (u64 (h + 8)) RoleValidator = Some (DValidator v)).
Proof.
  intros Hh [Hok Hq]. unfold ToGenValidatorTop.
  destruct (GetAllElectedByHeight _ _ _) as [deposits|] eqn:Hd; [|intros ?; by simplify_eq].
  destruct (GetSeed compare chain external h st) as [st1 seed] eqn:Hs.
  apply GetSeed_spec in Hs as (Hdb & Hq1 & Hs); [|done]. unfold sound. rewrite <- Hdb in *.
  destruct seed as [seed|e]; [|intros ?; by simplify_eq].
  destruct (Election.ListenValidator h seed deposits GetFound) as [answer|] eqn:Hl; [|intros ?; by simplify_eq].
  destruct (ask _ _ _) as [box rsp] eqn:Ea. destruct Hq1 as (Hc1 & Hc2 & Hc3).
  apply ask_prompt in Ea as [Hb Ha]; [|done..].
  assert (quiet (set_validators box st1)) as Hq2 by done.
  destruct rsp as [rsp|]; [|intros ?; by simplify_eq]. rewrite (Ha _ eq_refl).
  assert (validators_of h = Some (mkElectValidator (vr_MasterValidator answer)
    (vr_BackUpValidator answer) (vr_CandidateValidator answer))) as Hm.
  { unfold validators_of. rewrite Hd. cbn [mbind option_bind]. rewrite (Hs seed eq_refl).
    cbn [mbind option_bind]. by rewrite Hl. }
  unfold writeElectData. cbn [Z.eqb RoleMiner RoleValidator Pos.eqb].
  destruct (o_ok _); intros ?; simplify_eq; [|done]. cbn [ldb interact set_ldb set_validators].
  destruct (db_ok_validator (ldb st1) h _ Hh Hm Hok). split; [done|]. intros _. rewrite lookup_insert_eq. eauto.
Qed.

Lemma ToGenMinerTop_kept h st : in_u64 h -> kept st (ToGenMinerTop h st).1.
Proof.
  intros Hh Hs. destruct (ToGenMinerTop h st) as [st' r] eqn:E. by apply ToGenMinerTop_spec in E as [? _].
Qed.

Lemma ToGenValidatorTop_kept h st : in_u64 h -> kept st (ToGenValidatorTop h st).1.
Proof.
  intros Hh Hs. destruct (ToGenValidatorTop h st) as [st' r] eqn:E.
  by apply ToGenValidatorTop_spec in E as [? _].
Qed.

Abbreviation checkTopGenStatus := (checkTopGenStatus compare chain external).
Abbreviation checked := (checked compare chain external).

Lemma next_range h : in_u64 h -> in_u64 (Broadcast.GetNextReElectionNumber h).
Proof. intros Hh. unfold Broadcast.GetNextReElectionNumber. case_match; [done|auto with go]. Qed.

Lemma next_self h :
  Broadcast.IsReElectionNumber h = true -> Broadcast.GetNextReElectionNumber h = h.
Proof. intros Hr. unfold Broadcast.GetNextReElectionNumber. by rewrite Hr. Qed.

Lemma checkTopGenStatus_kept h st st' r :
  checkTopGenStatus h st = (st', r) -> kept st st'.
Proof.
  unfold checkTopGenStatus. set (next := Broadcast.GetNextReElectionNumber h). cbn zeta.
  assert (forall st st' r,
    (if boolTopStatus next RoleValidator st then (st, Ok tt)
     else if h =? 0 then (st, Ok tt)
     else match ToGenValidatorTop (u64 (next - VerifyTopologyGenerateUpTime)) st with
          | (st, Err e) => (st, Err e) | (st, Ok _) => (st, Ok tt) end) = (st', r) ->
    kept st st') as Hv.
  { clear st st' r. intros st st' r. case_match; [intros ?; simplify_eq; by apply kept_refl|].
    case_match; [intros ?; simplify_eq; by apply kept_refl|].
    pose proof (ToGenValidatorTop_kept (u64 (next - VerifyTopologyGenerateUpTime)) st) as Hk.
    destruct (ToGenValidatorTop _ st) as [st1 r1].
    destruct r1; intros ?; simplify_eq; apply Hk; auto with go. }
  destruct (boolTopStatus next RoleMiner st); [apply Hv|].
  destruct (h =? 0); [intros ?; simplify_eq; by apply kept_refl|].
  pose proof (ToGenMinerTop_kept (u64 (next - MinerTopologyGenerateUpTime)) st ltac:(auto with go)) as Hk.
  destruct (ToGenMinerTop _ st) as [st1 r1].
  destruct r1; [|intros ?; by simplify_eq]. intros ?%Hv. by eapply kept_trans.
Qed.

(** A checked step ends in a panic or continues from a state that lost nothing. *)
Lemma checked_cases {A} h (k : State -> State * res error A) st st' r :
  checked h k st = (st', r) ->
  (kept st st' /\ r = Err Panic) \/ exists st1, kept st st1 /\ k st1 = (st', r).
Proof.
  unfold checked. destruct (checkTopGenStatus h st) as [st1 r1] eqn:E.
  apply checkTopGenStatus_kept in E. destruct r1 as [|[]]; intros Hr; try (right; by eauto).
  simplify_eq. by left.
Qed.

Lemma read_miner h st r :
  db_ok (ldb st) -> in_u64 h -> readElectData RoleMiner h st = Ok r -> miners_of (u64 (h - 8)) = Some r.1.
Proof.
  intros Hdb Hh. unfold readElectData. cbn [Z.eqb RoleMiner Pos.eqb].
  destruct (ldb st !! _) as [d|] eqn:E; [|done]. intros ?. simplify_eq. by apply Hdb in E as (m & -> & ?).
Qed.

Lemma read_validator h st r :
  db_ok (ldb st) -> in_u64 h -> readElectData RoleValidator h st = Ok r ->
  validators_of (u64 (h - 8)) = Some r.2.
Proof.
  intros Hdb Hh. unfold readElectData. cbn [Z.eqb RoleMiner RoleValidator Pos.eqb].
  destruct (ldb st !! _) as [d|] eqn:E; [|done]. intros ?. simplify_eq. by apply Hdb in E as (m & -> & ?).
Qed.

(** The right answers, as functions of the chain. *)
Definition election_of (height : Z) : option ElectReturnInfo :=
  let hm := u64 (height + 4) in
  let hv := u64 (height + 6) in
  if Broadcast.IsReElectionNumber hm then
    m ← miners_of (u64 (hm - 8)); Some (mkElectReturn (em_MasterMiner m) (em_BackUpMiner m) [] [])
  else if Broadcast.IsReElectionNumber hv then
    v ← validators_of (u64 (hv - 8)); Some (mkElectReturn [] [] (ev_MasterValidator v) (ev_BackUpValidator v))
  else Some (mkElectReturn [] [] [] []).

Definition topology_of (height : Z) : option ElectReturnInfo :=
  let h := u64 (height + 1) in
  if Broadcast.IsReElectionNumber h then
    m ← miners_of (u64 (h - 8));
    v ← validators_of (u64 (h - 8));
    Some (mkElectReturn (em_MasterMiner m) (em_BackUpMiner m) (ev_MasterValidator v) (ev_BackUpValidator v))
  else Some (mkElectReturn [] [] [] []).

Lemma GetElection_spec h st st' r :
  sound st -> GetElection compare chain external h st = (st', r) ->
  kept st st' /\ forall info, r = Ok info -> election_of h = Some info.
Proof.
  intros Hdb. unfold GetElection, election_of. cbn zeta. fold MinerNetChangeUpTime VerifyNetChangeUpTime.
  set (hm := u64 (h + MinerNetChangeUpTime)). set (hv := u64 (h + VerifyNetChangeUpTime)).
  destruct (Broadcast.IsReElectionNumber hm).
  { intros [[? ->]|(st1 & Hk & ?)]%checked_cases; [done|]. simplify_eq. split; [done|]. intros info.
    destruct (readElectData RoleMiner hm st') as [[m v]|] eqn:E; [|done]. intros ?. simplify_eq.
    apply read_miner in E; [|apply (Hk Hdb)|subst hm; auto with go]. by rewrite E. }
  destruct (Broadcast.IsReElectionNumber hv).
  { intros [[? ->]|(st1 & Hk & ?)]%checked_cases; [done|]. simplify_eq. split; [done|]. intros info.
    destruct (readElectData RoleValidator hv st') as [[m v]|] eqn:E; [|done]. intros ?. simplify_eq.
    apply read_validator in E; [|apply (Hk Hdb)|subst hv; auto with go]. by rewrite E. }
  intros ?. simplify_eq. split; [by apply kept_refl|]. intros info ?. by simplify_eq.
Qed.

Lemma GetNetTopologyAll_spec h st st' r :
  sound st -> GetNetTopologyAll compare chain external h st = (st', r) ->
  kept st st' /\ forall info, r = Ok info -> topology_of h = Some info.
Proof.
  intros Hdb. unfold GetNetTopologyAll, topology_of. cbn zeta. set (n := u64 (h + 1)).
  assert (in_u64 n) by (subst n; auto with go).
  destruct (Broadcast.IsReElectionNumber n).
  2: { intros ?. simplify_eq. split; [by apply kept_refl|]. intros info ?. by simplify_eq. }
  intros [[? ->]|(st1 & Hk & Hr)]%checked_cases; [done|].
  destruct (readElectData RoleMiner n st1) as [[m v]|] eqn:E; [|by simplify_eq].
  apply read_miner in E; [|apply (Hk Hdb)|done].
  apply checked_cases in Hr as [[? ->]|(st2 & Hk2 & ?)]; [split; [by eapply kept_trans|done]|].
  simplify_eq. assert (kept st st') as Hk' by (by eapply kept_trans). split; [done|]. intros info.
  destruct (readElectData RoleValidator n st') as [[m' v']|] eqn:E'; [|done]. intros ?. simplify_eq.
  apply read_validator in E'; [|apply (Hk' Hdb)|done]. rewrite E. cbn [mbind option_bind]. by rewrite E'.
Qed.

Lemma roleUpdateProcess_kept Role BlockNum st :
  in_u64 BlockNum -> kept st (roleUpdateProcess compare chain external Role BlockNum st).1.
Proof.
  intros Hh. unfold roleUpdateProcess. case_match; [by apply kept_refl|].
  eapply kept_trans; [apply (kept_refl st (set_ID Role st)); done|]. unfold HandleTopGen.
  assert (kept (set_ID Role st) (if IsMinerTopGenTiming BlockNum then ToGenMinerTop BlockNum (set_ID Role st)
    else (set_ID Role st, Ok tt)).1) as Hm.
  { case_match; [|by apply kept_refl]. by apply ToGenMinerTop_kept. }
  destruct (if IsMinerTopGenTiming BlockNum then _ else _) as [st1 r]. cbn [fst] in Hm.
  assert (kept st1 (if IsValidatorTopGenTiming BlockNum then ToGenValidatorTop BlockNum st1 else (st1, r)).1) as Hv.
  { case_match; [|by apply kept_refl]. by apply ToGenValidatorTop_kept. }
  destruct r as [|[]]; first [by eapply kept_trans|done].
Qed.


(** *** Runs of the service *)

Inductive input :=
| RoleUpdated (Role BlockNum : Z)
| AskElection (height : Z)
| AskTopology (height : Z).

Definition input_ok (i : input) : Prop :=
  match i with RoleUpdated _ n | AskElection n | AskTopology n => in_u64 n end.

Definition step (st : State) (i : input) : State :=
  match i with
  | RoleUpdated Role BlockNum => (roleUpdateProcess compare chain external Role BlockNum st).1
  | AskElection height => (GetElection compare chain external height st).1
  | AskTopology height => (GetNetTopologyAll compare chain external height st).1
  end.

Definition New : State :=
  mkState ∅ RoleDefault 0 (mkMailbox [] []) (mkMailbox [] []) (mkMailbox [] []).

Definition run (inputs : list input) : State := foldl step New inputs.

Lemma step_kept st i : input_ok i -> sound st -> sound (step st i).
Proof.
  intros Hi Hdb. destruct i as [r n|n|n]; cbn [step input_ok] in *.
  - by apply roleUpdateProcess_kept.
  - destruct (GetElection _ _ _ n st) as [st' r] eqn:E. apply GetElection_spec in E as [Hk _]; [|done]. apply (Hk Hdb).
  - destruct (GetNetTopologyAll _ _ _ n st) as [st' r] eqn:E.
    apply GetNetTopologyAll_spec in E as [Hk _]; [|done]. apply (Hk Hdb).
Qed.

Lemma run_ok inputs : Forall input_ok inputs -> sound (run inputs).
Proof.
  intros Hi. unfold run. assert (sound New) as Hn by (split; [intros h _; split; intros d; done|done]).
  revert Hn. generalize New. induction Hi as [|i l Hi Hl IH]; intros st Hst; cbn [foldl]; [done|].
  by apply IH, step_kept.
Qed.

End Invariant.

Section Agree.
Context `{GoRange} (compare : list Z -> list Z -> bool) (chain : Chain).

(** C15: Nodes agree on elections as long as no answer comes late.  Take two
    nodes with the same chain, whose services handle one question at a time.
    Each may have generated the lists at the timer or only when asked, in any
    order, with timeouts and failed writes at any point; but an answer of the
    random or the election service that misses its request is lost, and is not
    delivered to a later request.  When both nodes give an election for a
    height, it is the same; so is a topology; and both are the ones a fresh
    computation from the chain gives.  [late_answer_stored] shows what a late
    answer does. *)
Theorem nodes_agree_on_elections external1 external2 inputs1 inputs2 height st1' st2' e1 e2 t1 t2 :
  (forall n, prompt (external1 n)) -> (forall n, prompt (external2 n)) ->
  Forall input_ok inputs1 -> Forall input_ok inputs2 ->
  let st1 := run compare chain external1 inputs1 in
  let st2 := run compare chain external2 inputs2 in
  (GetElection compare chain external1 height st1 = (st1', Ok e1) ->
   GetElection compare chain external2 height st2 = (st2', Ok e2) ->
   e1 = e2 /\ election_of compare chain height = Some e1) /\
  (GetNetTopologyAll compare chain external1 height st1 = (st1', Ok t1) ->
   GetNetTopologyAll compare chain external2 height st2 = (st2', Ok t2) ->
   t1 = t2 /\ topology_of compare chain height = Some t1).
Proof.
  intros P1 P2 H1 H2 st1 st2. pose proof (run_ok compare chain external1 P1 _ H1) as Hd1.
  pose proof (run_ok compare chain external2 P2 _ H2) as Hd2. split.
  - intros [_ E1]%GetElection_spec [_ E2]%GetElection_spec; [|done..].
    specialize (E1 _ eq_refl). specialize (E2 _ eq_refl). split; congruence.
  - intros [_ E1]%GetNetTopologyAll_spec [_ E2]%GetNetTopologyAll_spec; [|done..].
    specialize (E1 _ eq_refl). specialize (E2 _ eq_refl). split; congruence.
Qed.

End Agree.

(** ** When the answers come *)

Section Answers.
Context `{GoRange} (compare : list Z -> list Z -> bool) (chain : Chain).

Section MinHash.
Context (hash : Z -> Hash) (height : Z).
Hypothesis Hheight : 20 <= height < 2 ^ 64.
Hypothesis Hblocks : forall i, height - 20 < i <= height -> GetHashByNum chain i = Some (hash i).

Lemma min_loop_least fuel i m :
  height - 20 <= i < height -> i - (height - 20) < Z.of_nat fuel ->
  (exists j, i < j <= height /\ m = hash j) -> (forall j, i < j <= height -> (m <= hash j)%N) ->
  exists m', min_loop chain fuel i (height - 20) m = Some m' /\
    (exists j, height - 20 < j <= height /\ m' = hash j) /\
    (forall j, height - 20 < j <= height -> (m' <= hash j)%N).
Proof.
  revert i m. induction fuel as [|fuel IH]; intros i m Hi Hf (j & Hj & ->) Hm; [lia|]. cbn [min_loop].
  destruct (Z.ltb_spec (height - 20) i) as [Hlt|Hge].
  - rewrite Hblocks by lia. cbn [mbind option_bind]. rewrite u64_small by (unfold in_u64; lia).
    apply IH; [lia|lia| |].
    + case_match; [by exists i; split; [lia|]|exists j; split; [lia|done]].
    + intros k Hk. destruct (N.ltb_spec (hash i) (hash j)) as [Hc|Hc].
      * destruct (decide (k = i)) as [->|]; [done|]. specialize (Hm k ltac:(lia)). lia.
      * destruct (decide (k = i)) as [->|]; [done|]. apply Hm. lia.
  - assert (i = height - 20) as -> by lia. exists (hash j). split; [done|]. eauto.
Qed.

(** [getMinHash] finds the least hash of the last twenty blocks. *)
Lemma getMinHash_least :
  exists m, getMinHash chain height = Some m /\
    (exists j, height - 20 < j <= height /\ m = hash j) /\
    (forall j, height - 20 < j <= height -> (m <= hash j)%N).
Proof.
  unfold getMinHash. rewrite Hblocks by lia. cbn [mbind option_bind].
  change Broadcast.broadcastInterval with 20. rewrite !u64_small by (unfold in_u64; lia).
  apply min_loop_least; [lia|lia| |].
  - exists height. split; [lia|done].
  - intros j Hj. by replace j with height by lia.
Qed.
End MinHash.

(** The chain has what an election at [height] needs. *)
Record election_ready (height : Z) (miners validators : list DepositDetail) : Prop := {
  er_blocks : forall i, height - 20 < i <= height -> is_Some (GetHashByNum chain i);
  er_miners : GetAllElectedByHeight chain height RoleMiner = Some miners;
  er_validators : GetAllElectedByHeight chain height RoleValidator = Some validators;
  er_distinct : NoDup (map dd_NodeID miners) /\ NoDup (map dd_NodeID validators)
}.

Lemma seed_ready height miners validators :
  20 <= height < 2 ^ 63 -> election_ready height miners validators ->
  exists seed, seed_of compare chain height = Some seed.
Proof.
  intros Hh [Hb _ _ _].
  destruct (getMinHash_least (fun i => default 0%N (GetHashByNum chain i)) height) as (m & Hm & _); [lia| |].
  - intros i Hi. by destruct (Hb i Hi) as [x ->].
  - unfold seed_of, CalcbeforeSeedGen. rewrite Hm. eauto.
Qed.

Lemma miners_ready height miners validators :
  20 <= height < 2 ^ 63 -> election_ready height miners validators ->
  exists m, miners_of compare chain height = Some m /\
    Z.of_nat (length (em_MasterMiner m)) = Z.min 21 (Z.of_nat (length miners)) /\
    (length (em_MasterMiner m) + length (em_BackUpMiner m) = length miners)%nat.
Proof.
  intros Hh Hr. destruct (seed_ready _ _ _ Hh Hr) as [seed Hs]. destruct Hr as [_ Hm _ [Hnd _]].
  destruct (Election.ListenMiner_spec height seed miners Hnd) as (rsp & Hl & _ & Hp & Hlen & _).
  unfold miners_of. rewrite i64_small, Hm, Hs by (unfold in_i64; lia). cbn [mbind option_bind]. rewrite Hl.
  eexists. split; [done|]. split; [done|]. apply Permutation_length in Hp.
  by rewrite length_app, !length_map in Hp.
Qed.

Lemma validators_ready height miners validators :
  20 <= height < 2 ^ 63 -> election_ready height miners validators ->
  exists v, validators_of compare chain height = Some v /\
    Z.of_nat (length (ev_MasterValidator v)) = Z.min 11 (Z.of_nat (length validators)) /\
    Z.of_nat (length (ev_BackUpValidator v))
      = Z.min 5 (Z.of_nat (length validators) - Z.of_nat (length (ev_MasterValidator v))).
Proof.
  intros Hh Hr. destruct (seed_ready _ _ _ Hh Hr) as [seed Hs]. destruct Hr as [_ _ Hv [_ Hnd]].
  destruct (Election.ListenValidator_spec height seed validators Hnd) as (rsp & Hl & _ & _ & Hlen & Hlen' & _).
  unfold validators_of. rewrite i64_small, Hv, Hs by (unfold in_i64; lia). cbn [mbind option_bind].
  unfold GetFound. rewrite Hl. eexists. done.
Qed.

(** The answer to a request comes while it waits; writes succeed. *)
Definition answered (o : Interaction) : Prop :=
  o_late o = 0%nat /\ (1 <= o_delivered o)%nat /\ o_ok o = true.

Lemma answered_prompt o : answered o -> prompt o.
Proof. intros (? & _ & Ho). split; [done|]. by rewrite Ho. Qed.

Lemma ask_answered {A} o (answer : A) box :
  answered o -> channel box = [] -> (ask o answer box).2 = Some answer.
Proof.
  intros (Hl & Hd & Ho) Hc. unfold ask. rewrite Hl, Hc, Nat.sub_0_r, drop_all, Ho.
  by destruct (o_delivered o); [lia|].
Qed.

Context (external : nat -> Interaction).
Hypothesis answers : forall n, answered (external n).

Lemma prompt_answers n : prompt (external n).
Proof. apply answered_prompt, answers. Qed.

Lemma GetSeed_answers h seed st :
  quiet st -> seed_of compare chain h = Some seed ->
  exists st', GetSeed compare chain external h st = (st', Ok seed) /\ quiet st'.
Proof.
  intros Hq. unfold seed_of, GetSeed. destruct (CalcbeforeSeedGen chain h) as [req|] eqn:Ec; [|done].
  cbn [fmap option_fmap option_map]. intros [= <-]. destruct (ask _ _ _) as [box r] eqn:Ea.
  pose proof (ask_answered (external (interactions st)) (Random.randomSeedReqHandle compare req)
    (electionSeedCh st) (answers _) (proj1 Hq)) as Hr. rewrite Ea in Hr. cbn in Hr. rewrite Hr.
  eexists. split; [done|]. apply ask_prompt in Ea as [Hb _]; [|apply prompt_answers|apply Hq].
  destruct Hq as (_ & ? & ?). by split_and!.
Qed.

Lemma ToGenMinerTop_answers h m st :
  quiet st -> miners_of compare chain h = Some m ->
  exists st', ToGenMinerTop compare chain external h st = (st', Ok tt).
Proof.
  intros Hq. unfold miners_of, ToGenMinerTop. destruct (GetAllElectedByHeight _ _ _); [|done].
  cbn [mbind option_bind]. destruct (seed_of compare chain h) as [seed|] eqn:Es; [|done].
  destruct (GetSeed_answers h seed st Hq Es) as (st1 & -> & _ & Hc & _). cbn [mbind option_bind].
  destruct (Election.ListenMiner _ _ _) as [rsp|]; [|done]. intros _.
  pose proof (ask_answered (external (interactions st1)) rsp (minerGenCh st1) (answers _) Hc) as Hr.
  destruct (ask _ _ _) as [box r]. cbn in Hr. rewrite Hr. unfold writeElectData.
  rewrite (proj2 (proj2 (answers _))). eexists. reflexivity.
Qed.

Lemma ToGenValidatorTop_answers h v st :
  quiet st -> validators_of compare chain h = Some v ->
  exists st', ToGenValidatorTop compare chain external h st = (st', Ok tt).
Proof.
  intros Hq. unfold validators_of, ToGenValidatorTop. destruct (GetAllElectedByHeight _ _ _); [|done].
  cbn [mbind option_bind]. destruct (seed_of compare chain h) as [seed|] eqn:Es; [|done].
  destruct (GetSeed_answers h seed st Hq Es) as (st1 & -> & _ & _ & Hc). cbn [mbind option_bind].
  destruct (Election.ListenValidator _ _ _ _) as [rsp|]; [|done]. intros _.
  pose proof (ask_answered (external (interactions st1)) rsp (validatorGenCh st1) (answers _) Hc) as Hr.
  destruct (ask _ _ _) as [box r]. cbn in Hr. rewrite Hr. unfold writeElectData.
  rewrite (proj2 (proj2 (answers _))). eexists. reflexivity.
Qed.

Abbreviation kept := (kept compare chain).
Abbreviation sound := (sound compare chain).

(** Each half of the check leaves its document in place. *)
Lemma miner_half h m st :
  sound st -> in_u64 h -> miners_of compare chain (u64 (h - 8)) = Some m ->
  exists st', (if boolTopStatus h RoleMiner st then (st, Ok tt)
               else ToGenMinerTop compare chain external (u64 (h - 8)) st) = (st', Ok tt) /\
    kept st st' /\ ldb st' !! MakeElectDBKey h RoleMiner = Some (DMiner m).
Proof.
  intros Hdb Hh Hm. destruct (boolTopStatus h RoleMiner st) eqn:Eb.
  - exists st. split_and!; [done|by apply kept_refl|]. unfold boolTopStatus, readElectData in Eb.
    cbn [Z.eqb RoleMiner Pos.eqb] in Eb. destruct (ldb st !! _) as [d|] eqn:Ed; [|done].
    apply (proj1 Hdb) in Ed as (m' & -> & Hm'); [|done]. congruence.
  - destruct (ToGenMinerTop_answers _ _ st (proj2 Hdb) Hm) as [st' E]. exists st'. split; [done|].
    apply (ToGenMinerTop_spec _ _ _ prompt_answers) in E as [Hk Hd]; [|auto with go|done]. split; [by intros _|].
    destruct (Hd eq_refl) as (m' & Hm' & Hl). rewrite u64_down_up in Hl by done. congruence.
Qed.

Lemma validator_half h v st :
  sound st -> in_u64 h -> validators_of compare chain (u64 (h - 8)) = Some v ->
  exists st', (if boolTopStatus h RoleValidator st then (st, Ok tt)
               else ToGenValidatorTop compare chain external (u64 (h - 8)) st) = (st', Ok tt) /\
    kept st st' /\ ldb st' !! MakeElectDBKey h RoleValidator = Some (DValidator v).
Proof.
  intros Hdb Hh Hv. destruct (boolTopStatus h RoleValidator st) eqn:Eb.
  - exists st. split_and!; [done|by apply kept_refl|]. unfold boolTopStatus, readElectData in Eb.
    cbn [Z.eqb RoleMiner RoleValidator Pos.eqb] in Eb. destruct (ldb st !! _) as [d|] eqn:Ed; [|done].
    apply (proj1 Hdb) in Ed as (v' & -> & Hv'); [|done]. congruence.
  - destruct (ToGenValidatorTop_answers _ _ st (proj2 Hdb) Hv) as [st' E]. exists st'. split; [done|].
    apply (ToGenValidatorTop_spec _ _ _ prompt_answers) in E as [Hk Hd]; [|auto with go|done]. split; [by intros _|].
    destruct (Hd eq_refl) as (v' & Hv' & Hl). rewrite u64_down_up in Hl by done. congruence.
Qed.

(** The check of a re-election height leaves both documents in place. *)
Lemma checkTopGenStatus_answers h m v st :
  sound st -> in_u64 h -> h <> 0 -> Broadcast.IsReElectionNumber h = true ->
  miners_of compare chain (u64 (h - 8)) = Some m -> validators_of compare chain (u64 (h - 8)) = Some v ->
  exists st', checkTopGenStatus compare chain external h st = (st', Ok tt) /\ kept st st' /\
    readElectData RoleMiner h st' = Ok (m, no_validators) /\
    readElectData RoleValidator h st' = Ok (no_miners, v).
Proof.
  intros Hdb Hh Hnz Hre Hm Hv. destruct (miner_half h m st Hdb Hh Hm) as (st1 & E1 & Hk1 & Hl1).
  destruct (validator_half h v st1 (proj1 (Hk1 Hdb)) Hh Hv) as (st2 & E2 & Hk2 & Hl2).
  exists st2. split_and!; [|by eapply kept_trans| |].
  - unfold checkTopGenStatus. cbn zeta. rewrite next_self by done. rewrite (proj2 (Z.eqb_neq h 0)) by done.
    change MinerTopologyGenerateUpTime with 8. change VerifyTopologyGenerateUpTime with 8.
    assert ((if boolTopStatus h RoleValidator st1 then (st1, Ok tt)
      else match ToGenValidatorTop compare chain external (u64 (h - 8)) st1 with
           | (st, Ok _) => (st, Ok tt) | (st, Err e) => (st, Err e) end) = (st2, Ok tt)) as E2'.
    { destruct (boolTopStatus h RoleValidator st1); [done|]. by rewrite E2. }
    destruct (boolTopStatus h RoleMiner st); [by simplify_eq|]. by rewrite E1.
  - unfold readElectData. cbn [Z.eqb RoleMiner Pos.eqb].
    by rewrite (lookup_weaken _ _ _ _ Hl1 (proj2 (Hk2 (proj1 (Hk1 Hdb))))).
  - unfold readElectData. cbn [Z.eqb RoleMiner RoleValidator Pos.eqb]. by rewrite Hl2.
Qed.

(** So the questions are answered, from any correct state. *)
Lemma checked_answers h m v st :
  sound st -> in_u64 h -> h <> 0 -> Broadcast.IsReElectionNumber h = true ->
  miners_of compare chain (u64 (h - 8)) = Some m -> validators_of compare chain (u64 (h - 8)) = Some v ->
  exists st', (forall A (k : State -> State * res error A), checked compare chain external h k st = k st') /\
    kept st st' /\ readElectData RoleMiner h st' = Ok (m, no_validators) /\
    readElectData RoleValidator h st' = Ok (no_miners, v).
Proof.
  intros Hdb Hh Hnz Hre Hm Hv.
  destruct (checkTopGenStatus_answers h m v st Hdb Hh Hnz Hre Hm Hv) as (st' & E & ?).
  exists st'. split; [|done]. intros A k. unfold checked. by rewrite E.
Qed.

Lemma GetElection_answers h m v st :
  sound st -> in_u64 h ->
  (forall n, n = u64 (h + 4) \/ n = u64 (h + 6) -> Broadcast.IsReElectionNumber n = true ->
     n <> 0 /\ miners_of compare chain (u64 (n - 8)) = Some m /\ validators_of compare chain (u64 (n - 8)) = Some v) ->
  exists st' info, GetElection compare chain external h st = (st', Ok info).
Proof.
  intros Hdb Hh Hn. unfold GetElection. cbn zeta.
  change MinerNetChangeUpTime with 4. change VerifyNetChangeUpTime with 6.
  destruct (Broadcast.IsReElectionNumber (u64 (h + 4))) eqn:E1.
  { destruct (Hn (u64 (h + 4))) as (? & ? & ?); [by left|done|].
    destruct (checked_answers (u64 (h + 4)) m v st) as (st' & -> & _ & Hm & _); [by eauto with go..|].
    rewrite Hm. eauto. }
  destruct (Broadcast.IsReElectionNumber (u64 (h + 6))) eqn:E2; [|by eauto].
  destruct (Hn (u64 (h + 6))) as (? & ? & ?); [by right|done|].
  destruct (checked_answers (u64 (h + 6)) m v st) as (st' & -> & _ & _ & Hv); [by eauto with go..|].
  rewrite Hv. eauto.
Qed.

Lemma GetNetTopologyAll_answers h m v st :
  sound st -> u64 (h + 1) <> 0 -> Broadcast.IsReElectionNumber (u64 (h + 1)) = true ->
  miners_of compare chain (u64 (u64 (h + 1) - 8)) = Some m ->
  validators_of compare chain (u64 (u64 (h + 1) - 8)) = Some v ->
  exists st', GetNetTopologyAll compare chain external h st
    = (st', Ok (mkElectReturn (em_MasterMiner m) (em_BackUpMiner m) (ev_MasterValidator v) (ev_BackUpValidator v))).
Proof.
  intros Hdb Hnz Hre Hm Hv. unfold GetNetTopologyAll. cbn zeta. rewrite Hre.
  destruct (checked_answers (u64 (h + 1)) m v st) as (st1 & -> & Hk1 & Hr1 & _); [by eauto with go..|].
  rewrite Hr1.
  destruct (checked_answers (u64 (h + 1)) m v st1) as (st2 & -> & _ & _ & Hr2);
    [apply Hk1, Hdb|by eauto with go..|]. rewrite Hr2. eauto.
Qed.

End Answers.

(** ** From the lists to a header and to the graph *)

(** A position has room for 4096 nodes of a role. *)
Definition fits (info : ElectReturnInfo) : Prop :=
  Forall (fun '(_, src) => Z.of_nat (length src) <= 4096) (by_role info).

Lemma role_of_position (i : nat) role :
  Z.of_nat i < 4096 -> 0 <= role < 4 ->
  GetRoleTypeFromPosition (GeneratePosition (u16 (Z.of_nat i)) role) = Transfer2CommonRole role.
Proof.
  intros Hi Hr. unfold GetRoleTypeFromPosition, GeneratePosition, u16, u8. rewrite Z.shiftl_mul_pow2 by lia.
  rewrite Z.shiftr_div_pow2 by lia. rewrite (Z.mod_small (Z.of_nat i)), (Z.mod_small role), (Z.mod_small (role * 2 ^ 12)) by lia.
  rewrite (Z.mod_small (role * 2 ^ 12 + Z.of_nat i)) by lia.
  rewrite Z.div_add_l, (Z.div_small (Z.of_nat i)), Z.add_0_r, Z.mod_small by lia. done.
Qed.

Definition data_of (role : Z) (src : list TopologyNodeInfo) : list NetTopologyData :=
  imap (fun i node => mkNetTopologyData (tn_Account node) (GeneratePosition (u16 (Z.of_nat i)) role)) src.

Lemma data_of_role role src :
  0 <= role < 4 -> Z.of_nat (length src) <= 4096 ->
  Forall (fun d => GetRoleTypeFromPosition (ntd_Position d) = Transfer2CommonRole role) (data_of role src).
Proof.
  intros Hr Hl. apply Forall_lookup. intros i d. unfold data_of. rewrite list_lookup_imap.
  destruct (src !! i) as [n|] eqn:E; [|done]. intros ?. simplify_eq/=.
  apply role_of_position; [|done]. apply lookup_lt_Some in E. lia.
Qed.

Lemma data_of_accounts role src : map ntd_Account (data_of role src) = map tn_Account src.
Proof.
  unfold data_of. rewrite (fmap_imap _ ntd_Account). apply (imap_const tn_Account src).
Qed.

(** The accounts of one type among the data of a full topology. *)
Definition typed (t : Z) (l : list NetTopologyData) : list NetTopologyData :=
  List.filter (fun d => GetRoleTypeFromPosition (ntd_Position d) =? t) l.

Lemma typed_all t l :
  Forall (fun d => GetRoleTypeFromPosition (ntd_Position d) = t) l -> typed t l = l.
Proof. unfold typed. induction 1 as [|d l Hd Hl IH]; cbn; [done|]. by rewrite Hd, Z.eqb_refl, IH. Qed.

Lemma typed_none t u l :
  t <> u -> Forall (fun d => GetRoleTypeFromPosition (ntd_Position d) = u) l -> typed t l = [].
Proof.
  intros Ht. unfold typed. induction 1 as [|d l Hd Hl IH]; cbn; [done|].
  by rewrite Hd, (proj2 (Z.eqb_neq u t)), IH by done.
Qed.

Lemma typed_app t l k : typed t (l ++ k) = typed t l ++ typed t k.
Proof. apply List.filter_app. Qed.

Lemma typed_topology info :
  fits info ->
  let data := nt_Data (TransferToNetTopologyAllStu info) in
  typed RoleValidator data = data_of ElectRoleValidator (MasterValidator info) /\
  typed RoleBackupValidator data = data_of ElectRoleValidatorBackUp (BackUpValidator info) /\
  typed RoleMiner data = data_of ElectRoleMiner (MasterMiner info) /\
  typed RoleBackupMiner data = data_of ElectRoleMinerBackUp (BackUpMiner info).
Proof.
  unfold fits, by_role. rewrite !Forall_cons. intros (H1 & H2 & H3 & H4 & _). cbn zeta.
  assert (nt_Data (TransferToNetTopologyAllStu info)
    = data_of ElectRoleValidator (MasterValidator info) ++ data_of ElectRoleValidatorBackUp (BackUpValidator info)
      ++ data_of ElectRoleMiner (MasterMiner info) ++ data_of ElectRoleMinerBackUp (BackUpMiner info)) as ->.
  { unfold TransferToNetTopologyAllStu, by_role. cbn [nt_Data map concat]. by rewrite app_nil_r. }
  pose proof (data_of_role ElectRoleValidator _ ltac:(unfold ElectRoleValidator; lia) H1) as E1.
  pose proof (data_of_role ElectRoleValidatorBackUp _ ltac:(unfold ElectRoleValidatorBackUp; lia) H2) as E2.
  pose proof (data_of_role ElectRoleMiner _ ltac:(unfold ElectRoleMiner; lia) H3) as E3.
  pose proof (data_of_role ElectRoleMinerBackUp _ ltac:(unfold ElectRoleMinerBackUp; lia) H4) as E4.
  change (Transfer2CommonRole _) with RoleValidator in E1.
  change (Transfer2CommonRole _) with RoleBackupValidator in E2.
  change (Transfer2CommonRole _) with RoleMiner in E3.
  change (Transfer2CommonRole _) with RoleBackupMiner in E4.
  rewrite !typed_app. split_and!;
    repeat match goal with
    | E : Forall _ ?l |- context [typed ?t ?l] =>
        first [rewrite (typed_all t l E) | rewrite (fun Ht => typed_none t _ l Ht E) by discriminate]
    end; rewrite ?app_nil_r; done.
Qed.

Lemma typed_nodes data t :
  List.filter (fun n => tn_Type n =? t)
    (map (fun d => mkNode (ntd_Account d) (ntd_Position d) (GetRoleTypeFromPosition (ntd_Position d)) 0 0) data)
  = map (fun d => mkNode (ntd_Account d) (ntd_Position d) t 0 0) (typed t data).
Proof.
  induction data as [|d data IH]; [done|]. cbn [map List.filter typed tn_Type].
  destruct (Z.eqb_spec (GetRoleTypeFromPosition (ntd_Position d)) t) as [->|]; [cbn [map]; f_equal|]; apply IH.
Qed.

(** A full topology keeps the four lists: reading it back gives the
    accounts of each list in order, with the role of the list and the positions
    made for it, when no list has more than 4096 nodes. *)
Theorem paraseNetTopology_roundtrip info :
  fits info ->
  let nodes role src :=
    map (fun d => mkNode (ntd_Account d) (ntd_Position d) (Transfer2CommonRole role) 0 0) (data_of role src) in
  paraseNetTopology (TransferToNetTopologyAllStu info)
  = Ok (mkElectReturn (nodes ElectRoleMiner (MasterMiner info)) (nodes ElectRoleMinerBackUp (BackUpMiner info))
          (nodes ElectRoleValidator (MasterValidator info))
          (nodes ElectRoleValidatorBackUp (BackUpValidator info))).
Proof.
  intros Hf nodes. unfold paraseNetTopology. change (nt_Type _) with NetTopoTypeAll. rewrite Z.eqb_refl.
  cbn [negb]. destruct (typed_topology info Hf) as (E1 & E2 & E3 & E4).
  pose proof (typed_nodes (nt_Data (TransferToNetTopologyAllStu info))) as Ht. cbv zeta.
  rewrite !Ht, E1, E2, E3, E4. done.
Qed.

(** The accounts of a type in a graph, in order. *)
Definition role_accounts (t : Z) (g : TopologyGraph) : list Address :=
  map tn_Account (List.filter (fun n => tn_Type n =? t) (tg_NodeList g)).

Lemma numbered_typed t el data cur :
  map tn_Account (List.filter (fun n => tn_Type n =? t) (Topology.numbered el data cur))
  = map ntd_Account (typed t data).
Proof.
  revert cur. induction data as [|d data IH]; intros cur; [done|].
  cbn [Topology.numbered typed List.filter map tn_Type].
  destruct (_ =? t); cbn [map tn_Account]; [f_equal|]; apply IH.
Qed.

(** The next graph after a full topology has the four lists. *)
Lemma full_topology_graph g number info el :
  u64 (tg_Number g + 1) = number -> fits info ->
  exists g', Topology.Transfer2NextGraph g number (TransferToNetTopologyAllStu info) el = Ok g' /\
    tg_Number g' = number /\
    role_accounts RoleValidator g' = map tn_Account (MasterValidator info) /\
    role_accounts RoleBackupValidator g' = map tn_Account (BackUpValidator info) /\
    role_accounts RoleMiner g' = map tn_Account (MasterMiner info) /\
    role_accounts RoleBackupMiner g' = map tn_Account (BackUpMiner info).
Proof.
  intros Hn Hf. unfold Topology.Transfer2NextGraph. rewrite Hn, Z.eqb_refl. cbn [negb].
  change (nt_Type (TransferToNetTopologyAllStu info) =? NetTopoTypeAll) with true. cbn iota.
  set (data := nt_Data (TransferToNetTopologyAllStu info)).
  pose proof (Topology.append_nodes_numbered el data [] (tg_CurNodeNumber g)) as Ha.
  destruct (Topology.append_nodes _ _ _ _) as [nodes cur]. cbn [fst app] in Ha.
  eexists. split; [done|]. unfold role_accounts. cbn [tg_Number tg_NodeList]. rewrite Ha, !numbered_typed.
  pose proof (typed_topology info Hf) as Ht. cbn zeta in Ht. fold data in Ht.
  destruct Ht as (-> & -> & -> & ->). rewrite !data_of_accounts. done.
Qed.

(** The number of backup miners is not bounded, and a position has room for
    4096 of a role: one more would take the position of the first validator. *)
Lemma position_overflow :
  GeneratePosition (u16 4096) ElectRoleMinerBackUp = GeneratePosition (u16 0) ElectRoleValidator.
Proof. done. Qed.

(** ** A re-election, from the deposits to the graph *)

Section Epoch.
Context `{GoRange} (compare : list Z -> list Z -> bool) (chain : Chain) (external : nat -> Interaction).

Lemma reelection_number_near R k :
  Broadcast.IsReElectionNumber R = true -> -60 < k < 60 -> k <> 0 -> Broadcast.IsReElectionNumber (R + k) = false.
Proof.
  rewrite Broadcast.IsReElectionNumber_true. unfold Broadcast.IsReElectionNumber, Broadcast.reelectionInterval.
  intros HR Hk Hnz. apply Z.eqb_neq. intros E. Z.div_mod_to_equations. lia.
Qed.

Lemma election_heights R :
  Broadcast.IsReElectionNumber R = true -> 60 <= R < 2 ^ 63 ->
  election_of compare chain (R - 6)
    = (v ← validators_of compare chain (R - 8);
       Some (mkElectReturn [] [] (ev_MasterValidator v) (ev_BackUpValidator v))) /\
  election_of compare chain (R - 4)
    = (m ← miners_of compare chain (R - 8);
       Some (mkElectReturn (em_MasterMiner m) (em_BackUpMiner m) [] [])).
Proof.
  intros HR Hb. unfold election_of. cbn zeta.
  replace (R - 6 + 4) with (R + -2) by lia. replace (R - 6 + 6) with R by lia. replace (R - 4 + 4) with R by lia.
  rewrite !(u64_small R), !(u64_small (R + -2)), !(u64_small (R - 8)) by (unfold in_u64; lia).
  rewrite (reelection_number_near R (-2)), HR by (done || lia). done.
Qed.

(** Around a re-election height the service answers what [election_of] says. *)
Lemma election_answered R h m v st :
  (forall n, answered (external n)) -> Broadcast.IsReElectionNumber R = true -> 60 <= R < 2 ^ 63 ->
  h = R - 6 \/ h = R - 4 -> sound compare chain st ->
  miners_of compare chain (R - 8) = Some m -> validators_of compare chain (R - 8) = Some v ->
  exists st' info, GetElection compare chain external h st = (st', Ok info) /\
    election_of compare chain h = Some info.
Proof.
  intros Hans HR Hb Hh Hdb Hm Hv.
  destruct (GetElection_answers compare chain external Hans h m v st Hdb) as (st' & info & E).
  - unfold in_u64. destruct Hh; lia.
  - intros n Hn Hre. assert (n = R) as ->.
    { destruct Hh as [->| ->], Hn as [->| ->]; rewrite u64_small in Hre |- * by (unfold in_u64; lia); try lia.
      - replace (R - 6 + 4) with (R + -2) in Hre by lia.
        by rewrite reelection_number_near in Hre by (done || lia).
      - replace (R - 4 + 6) with (R + 2) in Hre by lia.
        by rewrite reelection_number_near in Hre by (done || lia). }
    rewrite u64_small by (unfold in_u64; lia). split; [lia|done].
  - exists st', info. split; [done|]. apply GetElection_spec in E as [_ E]; [by apply E|intros n; apply answered_prompt, Hans|done].
Qed.

(** The elections of a height, by the answers of the two services. *)
Lemma elected_answers height miners validators m v :
  20 <= height < 2 ^ 63 -> election_ready chain height miners validators ->
  miners_of compare chain height = Some m -> validators_of compare chain height = Some v ->
  exists seed rm rv, seed_of compare chain height = Some seed /\
    Election.ListenMiner height seed miners = Some rm /\
    Election.ListenValidator height seed validators GetFound = Some rv /\
    m = mkElectMiner (mr_MasterMiner rm) (mr_BackUpMiner rm) /\
    v = mkElectValidator (vr_MasterValidator rv) (vr_BackUpValidator rv) (vr_CandidateValidator rv).
Proof.
  intros Hh [_ Em Ev _]. unfold miners_of, validators_of. rewrite i64_small, Em, Ev by (unfold in_i64; lia).
  cbn [mbind option_bind]. destruct (seed_of compare chain height) as [seed|]; [|done]. cbn [mbind option_bind].
  destruct (Election.ListenMiner _ _ _) as [rm|] eqn:Erm; [|done]. intros [= <-].
  destruct (Election.ListenValidator _ _ _ _) as [rv|] eqn:Erv; [|done]. intros [= <-].
  by exists seed, rm, rv.
Qed.

(** C14: A re-election puts the elected nodes in charge.  Let R be a
    re-election height, the chain have the blocks and the deposits of height
    R-8, with distinct node ids and at most 4096 miners, and let the services
    answer every request in time.  From any state a run can reach, the service
    announces for block R-6 the master and backup validators and for block R-4
    the master and backup miners that the election service draws from those
    deposits with the seed of height R-8, and its full topology for block R-1
    turns any graph of the block before into one whose validators, backup
    validators, miners and backup miners are exactly those, in order.  There are
    up to 11 master and 5 backup validators and up to 21 master miners, and every
    other miner is a backup. *)
Theorem reelection_installs_elected inputs R miners validators g el :
  Forall input_ok inputs -> (forall n, answered (external n)) ->
  Broadcast.IsReElectionNumber R = true -> 60 <= R < 2 ^ 63 ->
  election_ready chain (R - 8) miners validators -> Z.of_nat (length miners) <= 4096 ->
  tg_Number g = R - 2 ->
  let st := run compare chain external inputs in
  exists seed rm rv st1 st2 st3 info g',
    seed_of compare chain (R - 8) = Some seed /\
    Election.ListenMiner (R - 8) seed miners = Some rm /\
    Election.ListenValidator (R - 8) seed validators GetFound = Some rv /\
    GetElection compare chain external (R - 6) st
      = (st1, Ok (mkElectReturn [] [] (vr_MasterValidator rv) (vr_BackUpValidator rv))) /\
    GetElection compare chain external (R - 4) st
      = (st2, Ok (mkElectReturn (mr_MasterMiner rm) (mr_BackUpMiner rm) [] [])) /\
    GetNetTopologyAll compare chain external (R - 1) st = (st3, Ok info) /\
    Topology.Transfer2NextGraph g (R - 1) (TransferToNetTopologyAllStu info) el = Ok g' /\
    role_accounts RoleValidator g' = map tn_Account (vr_MasterValidator rv) /\
    role_accounts RoleBackupValidator g' = map tn_Account (vr_BackUpValidator rv) /\
    role_accounts RoleMiner g' = map tn_Account (mr_MasterMiner rm) /\
    role_accounts RoleBackupMiner g' = map tn_Account (mr_BackUpMiner rm) /\
    let count r := Z.of_nat (length (role_accounts r g')) in
    count RoleValidator = Z.min 11 (Z.of_nat (length validators)) /\
    count RoleBackupValidator = Z.min 5 (Z.of_nat (length validators) - count RoleValidator) /\
    count RoleMiner = Z.min 21 (Z.of_nat (length miners)) /\
    count RoleBackupMiner = Z.of_nat (length miners) - count RoleMiner.
Proof.
  intros Hi Hans HR Hb Hready Hmax Hg st.
  assert (forall n, prompt (external n)) as Hpr by (intros n; apply answered_prompt, Hans).
  pose proof (run_ok compare chain external Hpr _ Hi : sound compare chain st) as Hdb.
  destruct (miners_ready compare chain (R - 8) miners validators ltac:(lia) Hready) as (m & Hm & Hml & Hmt).
  destruct (validators_ready compare chain (R - 8) miners validators ltac:(lia) Hready) as (v & Hv & Hvl & Hbl).
  destruct (elected_answers (R - 8) miners validators m v ltac:(lia) Hready Hm Hv)
    as (seed & rm & rv & Hseed & Hrm & Hrv & -> & ->).
  cbn [em_MasterMiner em_BackUpMiner ev_MasterValidator ev_BackUpValidator] in Hml, Hmt, Hvl, Hbl.
  destruct (election_heights R HR Hb) as [He6 He4]. rewrite Hv in He6. rewrite Hm in He4.
  destruct (election_answered R (R - 6) _ _ st Hans HR Hb (or_introl eq_refl) Hdb Hm Hv)
    as (st1 & ev & E1 & Hev).
  destruct (election_answered R (R - 4) _ _ st Hans HR Hb (or_intror eq_refl) Hdb Hm Hv)
    as (st2 & em & E2 & Hem).
  rewrite He6 in Hev. rewrite He4 in Hem. injection Hev as <-. injection Hem as <-.
  assert (u64 (R - 1 + 1) = R) as HR1 by (replace (R - 1 + 1) with R by lia; apply u64_small; unfold in_u64; lia).
  destruct (GetNetTopologyAll_answers compare chain external Hans (R - 1)
    (mkElectMiner (mr_MasterMiner rm) (mr_BackUpMiner rm))
    (mkElectValidator (vr_MasterValidator rv) (vr_BackUpValidator rv) (vr_CandidateValidator rv)) st) as [st3 E3];
    [done|rewrite HR1; lia|by rewrite HR1|rewrite HR1, u64_small by (unfold in_u64; lia); done..|].
  set (info := mkElectReturn _ _ _ _) in E3.
  assert (fits info) as Hfits by (unfold fits, by_role, info; cbn; repeat constructor; lia).
  destruct (full_topology_graph g (R - 1) info el) as (g' & Hg' & _ & A1 & A2 & A3 & A4);
    [rewrite Hg, u64_small by (unfold in_u64; lia); lia|done|].
  exists seed, rm, rv, st1, st2, st3, info, g'. cbn zeta. rewrite A1, A2, A3, A4, !length_map.
  cbn [MasterMiner BackUpMiner MasterValidator BackUpValidator info
       em_MasterMiner em_BackUpMiner ev_MasterValidator ev_BackUpValidator]. split_and!; try done; try lia.
  all: rewrite A1, length_map; simpl; lia.
Qed.

End Epoch.

(** ** Witnesses: a chain with one miner and two validators *)

Section Witnesses.
#[local] Existing Instance sorted_range.

Definition no_keys (d p : list Z) : bool := false.

Definition chain0 : Chain :=
  mkChain (fun i => Some (Z.to_N i))
    (fun _ role => Some (if role =? RoleMiner then [Election.deposit 1] else Election.deposit <$> [2; 3]%N))
    (fun _ _ => ∅).

Lemma ready0 : election_ready chain0 52 [Election.deposit 1] (Election.deposit <$> [2; 3]%N).
Proof.
  constructor; [by eauto|done|done|]. split; apply (bool_decide_unpack _); by vm_compute.
Qed.

(** Every answer in time; or the second request times out and its answer is lost. *)
Definition in_time (_ : nat) : Interaction := mkInteraction 0 1 true.
Definition once_lost (n : nat) : Interaction :=
  if Nat.eqb n 1 then mkInteraction 0 0 false else mkInteraction 0 1 true.

Lemma in_time_answered n : answered (in_time n).
Proof. by repeat split. Qed.

Lemma once_lost_prompt n : prompt (once_lost n).
Proof. unfold prompt, once_lost. by destruct (Nat.eqb n 1). Qed.

(** One node generates at the timer, the other when asked, after a timeout. *)
Lemma nodes_agree_on_elections_witness :
  let one := run no_keys chain0 in_time [RoleUpdated RoleValidator 52] in
  let two := run no_keys chain0 once_lost [AskElection 54] in
  match GetElection no_keys chain0 in_time 54 one, GetElection no_keys chain0 once_lost 54 two with
  | (_, Ok e1), (_, Ok e2) => e1 = e2
  | _, _ => False
  end.
Proof.
  intros one two.
  destruct (GetElection no_keys chain0 in_time 54 one) as [st1 [e1|]] eqn:E1; [|by vm_compute in E1].
  destruct (GetElection no_keys chain0 once_lost 54 two) as [st2 [e2|]] eqn:E2; [|by vm_compute in E2].
  refine (proj1 (proj1 (nodes_agree_on_elections no_keys chain0 _ _ [RoleUpdated RoleValidator 52]
    [AskElection 54] 54 st1 st2 e1 e2 (mkElectReturn [] [] [] []) (mkElectReturn [] [] [] []) _ _ _ _) E1 E2)).
  - intros n. apply answered_prompt, in_time_answered.
  - apply once_lost_prompt.
  - repeat constructor; done.
  - repeat constructor; done.
Defined.

(** The miners of height 112 differ from those of height 52, whose answer is
    published only after the timeout.  The next request takes it for its own:
    the database holds the miners of the old height. *)
Definition chain1 : Chain :=
  mkChain (fun i => Some (Z.to_N i))
    (fun h role => Some (if role =? RoleMiner then [Election.deposit (if h =? 52 then 1 else 4)]
                         else Election.deposit <$> [2; 3]%N))
    (fun _ _ => ∅).
Definition once_late (n : nat) : Interaction :=
  if Nat.eqb n 1 then mkInteraction 0 0 false
  else if Nat.eqb n 6 then mkInteraction 1 1 true else mkInteraction 0 1 true.

Lemma late_answer_stored :
  let st := run no_keys chain1 once_late [RoleUpdated RoleValidator 52; RoleUpdated RoleValidator 112] in
  map tn_Account ∘ em_MasterMiner <$> miners_of no_keys chain1 112 = Some [104%N] /\
  (let? (ans, _) := readElectData RoleMiner 120 st in Ok (map tn_Account (em_MasterMiner ans))) = Ok [101%N].
Proof. vm_compute. split; reflexivity. Qed.

Lemma paraseNetTopology_roundtrip_witness :
  let n a := mkNode a 0 RoleMiner 1 0 in
  is_ok (paraseNetTopology (TransferToNetTopologyAllStu (mkElectReturn [n 1; n 2] [n 3] [n 4] [])%N)) = true.
Proof.
  intros n. rewrite (paraseNetTopology_roundtrip (mkElectReturn [n 1; n 2] [n 3] [n 4] [])%N); [done|].
  unfold fits, by_role. by repeat (apply Forall_cons; split; [cbn; lia|]).
Defined.

Lemma reelection_installs_elected_witness :
  exists st info g', GetNetTopologyAll no_keys chain0 in_time 59
      (run no_keys chain0 in_time [RoleUpdated RoleValidator 52]) = (st, Ok info) /\
    Topology.Transfer2NextGraph (mkGraph 58 [] 99) 59 (TransferToNetTopologyAllStu info) [] = Ok g' /\
    length (role_accounts RoleValidator g') = 2%nat.
Proof.
  destruct (reelection_installs_elected no_keys chain0 in_time [RoleUpdated RoleValidator 52] 60
    [Election.deposit 1] (Election.deposit <$> [2; 3]%N) (mkGraph 58 [] 99) [])
    as (_ & _ & _ & _ & _ & st & info & g' & _ & _ & _ & _ & _ & Ht & Hg & _ & _ & _ & _ & Hl & _);
    [repeat constructor; done|apply in_time_answered|done|lia|apply ready0|cbn; lia|done|].
  exists st, info, g'. split; [exact Ht|]. split; [exact Hg|]. cbn in Hl. lia.
Defined.

End Witnesses.

End Reelect.
