(* ===== verification/Epoch.v ===== *)
(** * The re-election service behind block production and verification

    BlkVerify.v and BlkGen.v use the re-election service through the class
    [ReElection].  Here the service of Reelect.v implements the class, and
    what follows for headers is proved: which topologies a verifier accepts,
    and that a verifier accepts the elections and topologies that a leader
    with another service puts in its header. *)

From S2P Require Import Prelude Common Rlp Crypto Types Topology Election Random Reelect.
From S2P Require Import BlkVerify BlkGen.

Module Epoch.

Definition ok_of {E A} (r : res E A) : option A := match r with Ok a => Some a | Err _ => None end.

Section Service.
Context `{GoRange} `{Crypto} (compare : list Z -> list Z -> bool) (chain : Chain).

(** The service in a given state. *)
Definition provider (external : nat -> Reelect.Interaction) (st : Reelect.State) : ReElection :=
  {| ElectInfo := ElectReturnInfo; TopoInfo := ElectReturnInfo; AlterInfo := list Alternative;
     BlkVerify.GetElection height := ok_of (Reelect.GetElection compare chain external height st).2;
     BlkVerify.TransferToElectionStu := Reelect.TransferToElectionStu;
     BlkVerify.GetNetTopologyAll height := ok_of (Reelect.GetNetTopologyAll compare chain external height st).2;
     BlkVerify.TransferToNetTopologyAllStu := Reelect.TransferToNetTopologyAllStu;
     BlkVerify.ParseTopNodeOffline := Reelect.ParseTopNodeOffline;
     BlkVerify.ParsePrimaryTopNodeState := Reelect.ParsePrimaryTopNodeState;
     BlkVerify.GetTopoChange height offline := Some (Reelect.GetTopoChange height offline);
     BlkVerify.TransferToNetTopologyChgStu := Reelect.TransferToNetTopologyChgStu |}.

(** ** Changes of the topology *)

Lemma accepted_change_empty external st GetTopologyByNumber number header :
  BlkVerify.verifyNetTopology (H := provider external st) GetTopologyByNumber number header = Ok tt ->
  nt_Type (hNetTopology header) <> NetTopoTypeAll -> nt_Data (hNetTopology header) = [].
Proof.
  unfold BlkVerify.verifyNetTopology. intros E Ht. rewrite (proj2 (Z.eqb_neq _ _) Ht) in E.
  unfold BlkVerify.verifyChgNetTopology, BlkVerify.same_topology, BlkVerify.checkStateByConsensus in E.
  destruct (nt_Data (hNetTopology header)) as [|d l] eqn:Ed; [done|]. exfalso.
  destruct (GetTopologyByNumber _ _) as [prev|]; [|done].
  destruct (BlkVerify.parseOnlineState header prev) as [[off on'] offp]. cbn in E.
  destruct off; [|done]. destruct offp; [|done]. by destruct on'.
Qed.

(** Between re-elections the topology does not change.  A verifier with
    this service accepts a header only when its topology is a full one or
    empty: the service computes no replacements.  An accepted header that does
    not carry a full topology therefore leaves the nodes of the graph as they
    were. *)
Theorem accepted_topology_keeps_graph external st GetTopologyByNumber number header g el g' :
  BlkVerify.verifyNetTopology (H := provider external st) GetTopologyByNumber number header = Ok tt ->
  nt_Type (hNetTopology header) <> NetTopoTypeAll ->
  Topology.Transfer2NextGraph g (Uint64 (Number header)) (hNetTopology header) el = Ok g' ->
  nt_Data (hNetTopology header) = [] /\ tg_NodeList g' = tg_NodeList g.
Proof.
  intros E Ht Hg. pose proof (accepted_change_empty _ _ _ _ _ E Ht) as Hd. split; [done|].
  unfold Topology.Transfer2NextGraph in Hg. rewrite (proj2 (Z.eqb_neq _ _) Ht), Hd in Hg. by cases.
Qed.

(** ** A leader's header before another verifier *)

(** The chain has what the elections around [num] need. *)
Definition ready_near (num : Z) : Prop :=
  forall R, Broadcast.IsReElectionNumber R = true -> num < R <= num + 6 ->
    exists miners validators, Reelect.election_ready chain (R - 8) miners validators.

Section Answer.
Context (external : nat -> Reelect.Interaction) (inputs : list Reelect.input) (num : Z).
Hypothesis answers : forall n, Reelect.answered (external n).
Hypothesis Hinputs : Forall Reelect.input_ok inputs.
Hypothesis Hnum : 0 < num < 2 ^ 62.
Hypothesis Hready : ready_near num.

Let st := Reelect.run compare chain external inputs.
Let prompt n : Reelect.prompt (external n) := Reelect.answered_prompt _ (answers n).

Lemma first_reelection R : Broadcast.IsReElectionNumber R = true -> 0 < R -> 60 <= R.
Proof.
  rewrite Broadcast.IsReElectionNumber_true. intros HR Hp. Z.div_mod_to_equations. lia.
Qed.

Lemma lists_near R :
  Broadcast.IsReElectionNumber R = true -> num < R <= num + 6 ->
  exists m v, Reelect.miners_of compare chain (u64 (R - 8)) = Some m /\
    Reelect.validators_of compare chain (u64 (R - 8)) = Some v.
Proof.
  intros HR Hb. destruct (Hready R HR Hb) as (miners & validators & Hr).
  pose proof (first_reelection R HR ltac:(lia)). rewrite u64_small by (unfold in_u64; lia).
  destruct (Reelect.miners_ready compare chain (R - 8) miners validators ltac:(lia) Hr) as (m & Hm & _).
  destruct (Reelect.validators_ready compare chain (R - 8) miners validators ltac:(lia) Hr) as (v & Hv & _).
  eauto.
Qed.

(** At most one of the two heights that [GetElection] looks at is one of a
    re-election. *)
Lemma lists_for_election :
  exists m v, forall n, n = u64 (num + 4) \/ n = u64 (num + 6) -> Broadcast.IsReElectionNumber n = true ->
    n <> 0 /\ Reelect.miners_of compare chain (u64 (n - 8)) = Some m /\
    Reelect.validators_of compare chain (u64 (n - 8)) = Some v.
Proof.
  rewrite !u64_small by (unfold in_u64; lia).
  destruct (Broadcast.IsReElectionNumber (num + 4)) eqn:E4.
  { destruct (lists_near (num + 4) E4 ltac:(lia)) as (m & v & ? & ?). exists m, v.
    intros n [->| ->] Hre; [split; [lia|done]|]. replace (num + 6) with (num + 4 + 2) in Hre by lia.
    by rewrite Reelect.reelection_number_near in Hre by (done || lia). }
  destruct (Broadcast.IsReElectionNumber (num + 6)) eqn:E6.
  { destruct (lists_near (num + 6) E6 ltac:(lia)) as (m & v & ? & ?). exists m, v.
    intros n [->| ->] Hre; [congruence|]. split; [lia|done]. }
  exists no_miners, no_validators. intros n [->| ->]; congruence.
Qed.

(** The answers are the ones the chain determines. *)
Lemma election_known :
  exists info, ok_of (Reelect.GetElection compare chain external num st).2 = Some info /\
    Reelect.election_of compare chain num = Some info.
Proof.
  pose proof (Reelect.run_ok compare chain external prompt inputs Hinputs : Reelect.sound compare chain st) as Hdb.
  destruct lists_for_election as (m & v & Hn).
  destruct (Reelect.GetElection_answers compare chain external answers num m v st Hdb) as (st' & info & E);
    [unfold in_u64; lia|done|].
  rewrite E. exists info. split; [done|]. apply (Reelect.GetElection_spec _ _ _ prompt) in E as [_ E]; [|done]. by apply E.
Qed.

Lemma topology_known :
  exists info, ok_of (Reelect.GetNetTopologyAll compare chain external num st).2 = Some info /\
    Reelect.topology_of compare chain num = Some info.
Proof.
  pose proof (Reelect.run_ok compare chain external prompt inputs Hinputs : Reelect.sound compare chain st) as Hdb.
  assert (exists st' info, Reelect.GetNetTopologyAll compare chain external num st = (st', Ok info)) as (st' & info & E).
  { destruct (Broadcast.IsReElectionNumber (u64 (num + 1))) eqn:E1.
    - rewrite u64_small in E1 by (unfold in_u64; lia).
      destruct (lists_near (num + 1) E1 ltac:(lia)) as (m & v & ? & ?).
      edestruct (Reelect.GetNetTopologyAll_answers compare chain external answers num m v st) as [st' E];
        [done|rewrite (u64_small (num + 1)) by (unfold in_u64; lia); first [done|lia]..|]. eauto.
    - unfold Reelect.GetNetTopologyAll. cbn zeta. rewrite E1. eauto. }
  rewrite E. exists info. split; [done|]. apply (Reelect.GetNetTopologyAll_spec _ _ _ prompt) in E as [_ E]; [|done]. by apply E.
Qed.

End Answer.
(** A header with the election and the topology that a leader's service gives. *)
Definition carries (I : ReElection) (GetTopologyByNumber : Z -> Z -> option TopologyGraph) (num : Z)
    (parent header : Header) : Prop :=
  Uint64 (Number header) = num /\
  hElect header = @BlkGen.genElection I num /\
  hNetTopology header
  = default (mkNetTopology NetTopoTypeChange [])
      (@BlkGen.getNetTopology I GetTopologyByNumber (hNetTopology parent) num).

Lemma empty_change external st GetTopologyByNumber num parent :
  nt_Type (hNetTopology parent) = NetTopoTypeAll \/ nt_Data (hNetTopology parent) = [] ->
  Broadcast.IsReElectionNumber (u64 (num + 1)) = false ->
  default (mkNetTopology NetTopoTypeChange [])
    (@BlkGen.getNetTopology (provider external st) GetTopologyByNumber (hNetTopology parent) num)
  = mkNetTopology NetTopoTypeChange [].
Proof.
  intros Hp Hre. unfold BlkGen.getNetTopology, BlkGen.genChgNetTopology. rewrite Hre.
  destruct (BlkGen.getPrevTopology GetTopologyByNumber num) as [prev|]; [|done].
  cbn [BlkVerify.ParseTopNodeOffline BlkVerify.ParsePrimaryTopNodeState BlkVerify.GetTopoChange provider
       BlkVerify.TransferToNetTopologyChgStu].
  assert (Reelect.ParsePrimaryTopNodeState (hNetTopology parent) = ([], [])) as ->; [|done].
  unfold Reelect.ParsePrimaryTopNodeState. destruct Hp as [->| ->]; [done|]. by case_match.
Qed.

(** C40: a header's election and topology are accepted elsewhere.  Let a leader
    and a verifier have the same chain, services in any state they can reach
    that answer, and what the elections near the height need; and let the
    parent's topology be full or empty, as in every accepted block.  Then the
    election and the topology that the leader puts in its header pass the
    verifier's checks, at every height. *)
Theorem leader_elections_verify extL extV inL inV GetTopL GetTopV num parent header :
  (forall n, Reelect.answered (extL n)) -> (forall n, Reelect.answered (extV n)) ->
  Forall Reelect.input_ok inL -> Forall Reelect.input_ok inV -> 0 < num < 2 ^ 62 -> ready_near num ->
  nt_Type (hNetTopology parent) = NetTopoTypeAll \/ nt_Data (hNetTopology parent) = [] ->
  carries (provider extL (Reelect.run compare chain extL inL)) GetTopL num parent header ->
  let verifier := provider extV (Reelect.run compare chain extV inV) in
  @BlkVerify.verifyElection verifier _ num header = Ok tt /\
  @BlkVerify.verifyNetTopology verifier _ GetTopV num header = Ok tt.
Proof.
  intros HL HV HiL HiV Hnum Hready Hp (Hn & Hel & Htop) verifier.
  destruct (election_known extL inL num HL HiL Hnum Hready) as (i1 & E1 & F1).
  destruct (election_known extV inV num HV HiV Hnum Hready) as (i2 & E2 & F2).
  destruct (topology_known extL inL num HL HiL Hnum Hready) as (t1 & T1 & U1).
  destruct (topology_known extV inV num HV HiV Hnum Hready) as (t2 & T2 & U2).
  assert (i2 = i1) as -> by congruence. assert (t2 = t1) as -> by congruence. split.
  - unfold BlkVerify.verifyElection, verifier. cbn [BlkVerify.GetElection provider]. rewrite E2, Hel.
    unfold BlkGen.genElection. cbn [BlkVerify.GetElection provider]. rewrite E1.
    cbn [BlkVerify.TransferToElectionStu provider]. rewrite Nat.eqb_refl. cbn [negb]. case_match; [done|].
    by rewrite bool_decide_true.
  - unfold BlkVerify.verifyNetTopology. destruct (Broadcast.IsReElectionNumber (u64 (num + 1))) eqn:Hre.
    + unfold BlkGen.getNetTopology, BlkGen.genAllNetTopology in Htop. rewrite Hre in Htop.
      cbn [BlkVerify.GetNetTopologyAll provider] in Htop. rewrite T1 in Htop.
      cbn [BlkVerify.TransferToNetTopologyAllStu provider from_option default] in Htop. rewrite Htop.
      change (nt_Type _ =? NetTopoTypeAll) with true. cbn iota. unfold BlkVerify.verifyAllNetTopology, verifier.
      cbn [BlkVerify.GetNetTopologyAll BlkVerify.TransferToNetTopologyAllStu provider]. rewrite Hn, T2.
      unfold BlkVerify.same_topology. rewrite Htop, Nat.eqb_refl. cbn [negb]. by rewrite bool_decide_true.
    + rewrite empty_change in Htop by done. rewrite Htop. unfold BlkVerify.verifyChgNetTopology. by rewrite Htop.
Qed.

End Service.

(** ** Witnesses *)

Section Witnesses.
#[local] Existing Instance sorted_range.
#[local] Instance toy : Crypto := Signature.toy_crypto.

(** A header of height [num] after an empty change. *)
Definition plain (num : Z) (el : list Elect) (topo : NetTopology) : Header :=
  mkHeader 1 2 3 4 5 6 7 8 9 num 11 12 13 el topo [] [1; 2] 0 0 [3].

Abbreviation leader := (provider Reelect.no_keys Reelect.chain0 Reelect.in_time
  (Reelect.run Reelect.no_keys Reelect.chain0 Reelect.in_time [Reelect.RoleUpdated RoleValidator 52])).
Abbreviation verifier := (provider Reelect.no_keys Reelect.chain0 Reelect.in_time
  (Reelect.run Reelect.no_keys Reelect.chain0 Reelect.in_time [])).

Lemma accepted_topology_keeps_graph_witness :
  exists g', Topology.Transfer2NextGraph (mkGraph 53 [mkNode 7 1 RoleMiner 1 1] 1) 54
      (mkNetTopology NetTopoTypeChange []) [] = Ok g' /\ tg_NodeList g' = [mkNode 7 1 RoleMiner 1 1].
Proof.
  eexists. split; [reflexivity|].
  refine (proj2 (accepted_topology_keeps_graph Reelect.no_keys Reelect.chain0 Reelect.in_time
    (Reelect.run Reelect.no_keys Reelect.chain0 Reelect.in_time []) (fun _ _ => None) 54
    (plain 54 [] (mkNetTopology NetTopoTypeChange [])) (mkGraph 53 [mkNode 7 1 RoleMiner 1 1] 1) [] _ _ _ _));
    [reflexivity|done|reflexivity].
Defined.

Lemma leader_elections_verify_witness :
  @BlkVerify.verifyElection verifier _ 54
    (plain 54 (@BlkGen.genElection leader 54) (mkNetTopology NetTopoTypeChange [])) = Ok tt.
Proof.
  refine (proj1 (leader_elections_verify Reelect.no_keys Reelect.chain0 Reelect.in_time Reelect.in_time
    [Reelect.RoleUpdated RoleValidator 52] [] (fun _ _ => None) (fun _ _ => None) 54
    (plain 53 [] (mkNetTopology NetTopoTypeChange []))
    (plain 54 (@BlkGen.genElection leader 54) (mkNetTopology NetTopoTypeChange [])) _ _ _ _ _ _ _ _)).
  - done.
  - done.
  - repeat constructor; done.
  - constructor.
  - lia.
  - intros R HR HB. assert (R = 60) as ->.
    { apply Broadcast.IsReElectionNumber_true in HR. Z.div_mod_to_equations. lia. }
    eexists _, _. apply Reelect.ready0.
  - by right.
  - done.
Defined.

End Witnesses.
End Epoch.
