(* ===== verification/Abi.v ===== *)
(** * Package [accounts/abi]: packing and unpacking of contract arguments

    Models accounts/abi/type.go ([pack]), pack.go, numbers.go, unpack.go, the
    type checks of error.go and [Pack] and [UnpackValues] of argument.go.  The
    deposit contract (Deposit.v) reads its input and writes its output with it.

    A value is what reflection sees of it: its kind and its content.  A byte
    slice is a slice of elements of kind uint8, an address an array of twenty of
    them.  Pointers other than [*big.Int], which [indirect] removes, are left
    out, and so is that packing overwrites a big integer by its residue.  The
    types are those that [NewType] builds, with fixed byte arrays of at most 32
    bytes. *)

From S2P Require Import Prelude Rlp.
Set Warnings "-register-all".

Module Abi.
Import Rlp.

Inductive error :=
| ErrType          (* abi: cannot use %v as type %v as argument *)
| ErrArgCount      (* argument count mismatch *)
| ErrInsufficient  (* length insufficient *)
| ErrOffset        (* offset would go over slice boundary *)
| ErrTooLarge      (* larger than int64 *)
| ErrBadBool
| ErrBadFunction
| ErrSize          (* cannot marshal input to array, size is negative *)
| ErrPanic.

(** ** Types and values *)

(** [reflect.Kind]: integers of 8, 16, 32 or 64 bits, and [*big.Int] ([KPtr]). *)
Inductive Kind := KInt (signed : bool) (bits : Z) | KPtr | KBool | KString | KSlice | KArray.

#[export] Instance Kind_eq_dec : EqDecision Kind.
Proof. solve_decision. Defined.

Inductive ty :=
| IntTy (size : Z) | UintTy (size : Z)
| BoolTy | StringTy | BytesTy
| SliceTy (elem : ty) | ArrayTy (elem : ty) (size : Z)
| AddressTy | FixedBytesTy (size : Z) | FunctionTy.

Inductive value :=
| Num (signed : bool) (bits n : Z)
| Big (n : Z)
| Bool (b : bool)
| Str (s : list Z)
| Slice (ek : Kind) (vs : list value)    (* with the kind of the elements *)
| Array (ek : Kind) (vs : list value).

Definition KByte : Kind := KInt false 8.
Definition byte_slice (bs : list Z) : value := Slice KByte (Num false 8 <$> bs).
Definition byte_array (bs : list Z) : value := Array KByte (Num false 8 <$> bs).

(** [reflectIntKindAndType]. *)
Definition reflectIntKind (unsigned : bool) (size : Z) : Kind :=
  if (size =? 8) || (size =? 16) || (size =? 32) || (size =? 64)
  then KInt (negb unsigned) size else KPtr.

(** The field [Kind] that [NewType] sets. *)
Definition Type_Kind (t : ty) : Kind :=
  match t with
  | IntTy s => reflectIntKind false s
  | UintTy s => reflectIntKind true s
  | BoolTy => KBool
  | StringTy => KString
  | BytesTy | SliceTy _ => KSlice
  | ArrayTy _ _ | AddressTy | FixedBytesTy _ | FunctionTy => KArray
  end.

Definition value_Kind (v : value) : Kind :=
  match v with
  | Num s b _ => KInt s b
  | Big _ => KPtr
  | Bool _ => KBool
  | Str _ => KString
  | Slice _ _ => KSlice
  | Array _ _ => KArray
  end.

Definition requiresLengthPrefix (t : ty) : bool :=
  match t with StringTy | BytesTy | SliceTy _ => true | _ => false end.

Definition zlength {A} (l : list A) : Z := Z.of_nat (length l).

(** ** Packing *)

(** [sliceTypeCheck]; the first element of an empty slice of arrays is out of
    range. *)
Fixpoint sliceTypeCheck (t : ty) (v : value) : res error unit :=
  match t, v with
  | SliceTy e, (Slice ek vs | Array ek vs) | ArrayTy e _, (Slice ek vs | Array ek vs) =>
      if (match t with ArrayTy _ n => negb (zlength vs =? n) | _ => false end) then Err ErrType
      else
        let check_kind := if bool_decide (ek = Type_Kind e) then Ok tt else Err ErrType in
        match e with
        | SliceTy _ => match vs with v0 :: _ => sliceTypeCheck e v0 | [] => check_kind end
        | ArrayTy _ _ => match vs with v0 :: _ => sliceTypeCheck e v0 | [] => Err ErrPanic end
        | _ => check_kind
        end
  | _, _ => Err ErrType
  end.

Definition typeCheck (t : ty) (v : value) : res error unit :=
  match t with
  | SliceTy _ | ArrayTy _ _ => sliceTypeCheck t v
  | _ =>
      if negb (bool_decide (Type_Kind t = value_Kind v)) then Err ErrType
      else match t, v with
           | FixedBytesTy n, Array _ vs => if n =? zlength vs then Ok tt else Err ErrType
           | _, _ => Ok tt
           end
  end.

(** [U256] of numbers.go and of common/math: two's complement in 32 bytes. *)
Definition PaddedBigBytes (x : Z) (n : nat) : list Z :=
  if Z.of_nat n <=? (if x =? 0 then 0 else Z.log2 x + 1) / 8 then big_Bytes x else be_bytes n x.
Definition U256 (n : Z) : list Z := PaddedBigBytes (Z.land n (2 ^ 256 - 1)) 32.

Definition packNum (v : value) : res error (list Z) :=
  match v with
  | Num _ _ n | Big n => Ok (U256 n)
  | _ => Err ErrPanic
  end.

Definition RightPadBytes (b : list Z) (l : Z) : list Z := b ++ replicate (Z.to_nat (l - zlength b)) 0.
Definition LeftPadBytes (b : list Z) (l : Z) : list Z := replicate (Z.to_nat (l - zlength b)) 0 ++ b.

Definition packBytesSlice (bytes : list Z) (l : Z) : list Z :=
  U256 l ++ RightPadBytes bytes ((l + 31) / 32 * 32).

(** [reflect.Value.Bytes], after [mustArrayToByteSlice] for an array. *)
Definition Bytes (v : value) : res error (list Z) :=
  match v with
  | Slice ek vs | Array ek vs =>
      if bool_decide (ek = KByte)
      then mapM (fun x => match x with Num _ _ n => Ok n | _ => Err ErrPanic end) vs
      else Err ErrPanic
  | _ => Err ErrPanic
  end.

Definition packElement (t : ty) (v : value) : res error (list Z) :=
  match t with
  | IntTy _ | UintTy _ => packNum v
  | StringTy => match v with Str s => Ok (packBytesSlice s (zlength s)) | _ => Err ErrPanic end
  | AddressTy => let? b := Bytes v in Ok (LeftPadBytes b 32)
  | BoolTy =>
      match v with
      | Bool b => Ok (PaddedBigBytes (if b then 1 else 0) 32)
      | _ => Err ErrPanic
      end
  | BytesTy => let? b := Bytes v in Ok (packBytesSlice b (zlength b))
  | FixedBytesTy _ | FunctionTy => let? b := Bytes v in Ok (RightPadBytes b 32)
  | SliceTy _ | ArrayTy _ _ => Err ErrPanic
  end.

Fixpoint pack (t : ty) (v : value) : res error (list Z) :=
  let? _ := typeCheck t v in
  match t, v with
  | SliceTy e, (Slice _ vs | Array _ vs) =>
      let? ps := mapM (pack e) vs in Ok (packBytesSlice (concat ps) (zlength vs))
  | ArrayTy e _, (Slice _ vs | Array _ vs) =>
      let? ps := mapM (pack e) vs in Ok (concat ps)
  | _, _ => packElement t v
  end.

(** The loop of [Arguments.Pack]: [ret] and [variableInput]. *)
Fixpoint Pack_loop (inputOffset : Z) (args : list (ty * value)) (ret variableInput : list Z)
    : res error (list Z) :=
  match args with
  | [] => Ok (ret ++ variableInput)
  | (t, a) :: args =>
      let? packed := pack t a in
      if requiresLengthPrefix t
      then Pack_loop inputOffset args (ret ++ U256 (inputOffset + zlength variableInput))
             (variableInput ++ packed)
      else Pack_loop inputOffset args (ret ++ packed) variableInput
  end.

Definition Pack (ts : list ty) (args : list value) : res error (list Z) :=
  if negb (length args =? length ts)%nat then Err ErrArgCount
  else
    let inputOffset := zsum ((fun t => match t with ArrayTy _ n => 32 * n | _ => 32 end) <$> ts) in
    Pack_loop inputOffset (zip ts args) [] [].

(** ** Unpacking *)

(** [output[from:to]] for bounds within the slice. *)
Definition slice (output : list Z) (from to : Z) : list Z :=
  take (Z.to_nat (to - from)) (drop (Z.to_nat from) output).

Definition be (b : list Z) : Z := read_be b (length b).

(** [int8(x)] and so on. *)
Definition signed_of (bits x : Z) : Z :=
  if x mod 2 ^ bits <? 2 ^ (bits - 1) then x mod 2 ^ bits else x mod 2 ^ bits - 2 ^ bits.

(** [readInteger]: the last bytes of the word, or all of it. *)
Definition readInteger (k : Kind) (b : list Z) : value :=
  match k with
  | KInt false bits => Num false bits (be b mod 2 ^ bits)
  | KInt true bits => Num true bits (signed_of bits (be b))
  | _ => Big (be b)
  end.

Definition readBool (word : list Z) : res error value :=
  if forallb (Z.eqb 0) (take 31 word)
  then match word !! 31%nat with
       | Some 0 => Ok (Bool false)
       | Some 1 => Ok (Bool true)
       | _ => Err ErrBadBool
       end
  else Err ErrBadBool.

Definition readFunctionType (word : list Z) : res error value :=
  if be (slice word 24 32) =? 0 then Ok (byte_array (slice word 0 24)) else Err ErrBadFunction.

Definition readFixedBytes (size : Z) (word : list Z) : value := byte_array (slice word 0 size).

(** [common.BytesToAddress] of a word, as an array. *)
Definition BytesToAddress (word : list Z) : value := byte_array (drop (length word - 20) word).

Definition lengthPrefixPointsTo (index : Z) (output : list Z) : res error (Z * Z) :=
  let bigOffsetEnd := be (slice output index (index + 32)) + 32 in
  if zlength output <? bigOffsetEnd then Err ErrOffset
  else if 2 ^ 63 <=? bigOffsetEnd then Err ErrTooLarge
  else
    let lengthBig := be (slice output (bigOffsetEnd - 32) bigOffsetEnd) in
    let totalSize := bigOffsetEnd + lengthBig in
    if 2 ^ 63 <=? totalSize then Err ErrTooLarge
    else if zlength output <? totalSize then Err ErrInsufficient
    else Ok (bigOffsetEnd, lengthBig).

Fixpoint getFullElemSize (elem : ty) : Z :=
  match elem with ArrayTy e n => n * getFullElemSize e | _ => 32 end.

(** The loop of [forEachUnpack] over [size] elements that are [elemSize] apart. *)
Fixpoint forEachUnpack_loop (toGo : Z -> res error value) (i elemSize : Z) (size : nat)
    : res error (list value) :=
  match size with
  | O => Ok []
  | S n => let? v := toGo i in
           let? vs := forEachUnpack_loop toGo (i + elemSize) elemSize n in Ok (v :: vs)
  end.

Definition forEachUnpack (toGo : Z -> res error value) (elemSize : Z) (output : list Z) (start size : Z)
    : res error (list value) :=
  if size <? 0 then Err ErrSize
  else if zlength output <? start + 32 * size then Err ErrInsufficient
  else forEachUnpack_loop toGo start elemSize (Z.to_nat size).

Fixpoint toGoType (index : Z) (t : ty) (output : list Z) : res error value :=
  if zlength output <? index + 32 then Err ErrInsufficient
  else
    let? (begin, end_) := (if requiresLengthPrefix t then lengthPrefixPointsTo index output
                           else Ok (0, 0)) in
    let returnOutput := slice output index (index + 32) in
    match t with
    | SliceTy e =>
        let? vs := forEachUnpack (fun i => toGoType i e output) 32 output begin end_ in
        Ok (Slice (Type_Kind e) vs)
    | ArrayTy e n =>
        let? vs := forEachUnpack (fun i => toGoType i e output) (getFullElemSize e) output index n in
        Ok (Array (Type_Kind e) vs)
    | StringTy => Ok (Str (slice output begin (begin + end_)))
    | IntTy _ | UintTy _ => Ok (readInteger (Type_Kind t) returnOutput)
    | BoolTy => readBool returnOutput
    | AddressTy => Ok (BytesToAddress returnOutput)
    | BytesTy => Ok (byte_slice (slice output begin (begin + end_)))
    | FixedBytesTy n => Ok (readFixedBytes n returnOutput)
    | FunctionTy => readFunctionType returnOutput
    end.

(** [getArraySize] of an array of [size] elements of type [elem]. *)
Fixpoint getArraySize (elem : ty) (size : Z) : Z :=
  match elem with ArrayTy e n => getArraySize e (size * n) | _ => size end.

Fixpoint UnpackValues_loop (index virtualArgs : Z) (ts : list ty) (data : list Z)
    : res error (list value) :=
  match ts with
  | [] => Ok []
  | t :: ts =>
      let? v := toGoType ((index + virtualArgs) * 32) t data in
      let virtualArgs := match t with
                         | ArrayTy e n => virtualArgs + (getArraySize e n - 1)
                         | _ => virtualArgs
                         end in
      let? vs := UnpackValues_loop (index + 1) virtualArgs ts data in Ok (v :: vs)
  end.
Definition UnpackValues (ts : list ty) (data : list Z) : res error (list value) :=
  UnpackValues_loop 0 0 ts data.

(** [Unpack] into a variable of the Go type of the only argument. *)
Definition UnpackAtomic (t : ty) (data : list Z) : res error value :=
  let? vs := UnpackValues [t] data in
  match vs with [v] => Ok v | _ => Err ErrPanic end.

(** ** Bytes in a buffer *)

Definition bytes_ok (bs : list Z) : Prop := Forall (fun b => 0 <= b < 256) bs.

(** [w] is in [out] at [index]. *)
Definition at_ (out : list Z) (index : Z) (w : list Z) : Prop :=
  exists pre post, out = pre ++ w ++ post /\ zlength pre = index.

Lemma zlength_app {A} (l k : list A) : zlength (l ++ k) = zlength l + zlength k.
Proof. unfold zlength. rewrite length_app. lia. Qed.

Lemma zlength_nonneg {A} (l : list A) : 0 <= zlength l.
Proof. unfold zlength. lia. Qed.

Lemma at_bounds out i w : at_ out i w -> 0 <= i /\ i + zlength w <= zlength out.
Proof.
  intros (pre & post & -> & <-). rewrite !zlength_app.
  pose proof (zlength_nonneg pre). pose proof (zlength_nonneg post). lia.
Qed.

Lemma at_app out i w1 w2 : at_ out i (w1 ++ w2) -> at_ out i w1 /\ at_ out (i + zlength w1) w2.
Proof.
  intros (pre & post & -> & <-). split.
  - exists pre, (w2 ++ post). by rewrite <- app_assoc.
  - exists (pre ++ w1), post. rewrite zlength_app. by rewrite <- !app_assoc.
Qed.

Lemma slice_at out i j w : at_ out i w -> j = i + zlength w -> slice out i j = w.
Proof.
  intros (pre & post & -> & <-) ->. unfold slice.
  replace (Z.to_nat (zlength pre)) with (length pre) by (unfold zlength; lia).
  rewrite drop_app_length. replace (Z.to_nat _) with (length w) by (unfold zlength; lia).
  apply take_app_length.
Qed.

Lemma slice_prefix w post n : n = zlength w -> slice (w ++ post) 0 n = w.
Proof. intros ->. apply slice_at; [|lia]. by exists [], post. Qed.

Lemma U256_eq n : U256 n = be_bytes 32 (n mod 2 ^ 256).
Proof.
  unfold U256, PaddedBigBytes. change (2 ^ 256 - 1) with (Z.ones 256).
  rewrite Z.land_ones by lia. set (x := n mod 2 ^ 256).
  assert (0 <= x < 2 ^ 256) as Hx by (apply Z.mod_pos_bound; lia). clearbody x.
  destruct (Z.leb_spec (Z.of_nat 32) ((if x =? 0 then 0 else Z.log2 x + 1) / 8)) as [H|H]; [|done].
  unfold big_Bytes. destruct (Z.eqb_spec x 0) as [->|Hn]; [done|].
  assert (Z.log2 x < 256) by (apply Z.log2_lt_pow2; lia).
  assert (Z.log2 x = 255) as ->; [|done].
  pose proof (Z.div_mod (Z.log2 x + 1) 8 ltac:(lia)).
  pose proof (Z.mod_pos_bound (Z.log2 x + 1) 8 ltac:(lia)). lia.
Qed.

Lemma U256_length n : zlength (U256 n) = 32.
Proof. rewrite U256_eq. unfold zlength. by rewrite be_bytes_length. Qed.

Lemma be_U256 n : be (U256 n) = n mod 2 ^ 256.
Proof.
  rewrite U256_eq. unfold be. rewrite be_bytes_length.
  rewrite <- (app_nil_r (be_bytes _ _)). apply read_be_bytes. by apply Z.mod_pos_bound.
Qed.

Lemma be_zeros n : be (replicate n 0) = 0.
Proof.
  unfold be, read_be. rewrite take_ge by done.
  induction n as [|n IH]; [done|]. cbn. exact IH.
Qed.

Lemma mapM_fmap {E A B} (f : A -> res E B) (g : B -> A) l :
  (forall x, f (g x) = Ok x) -> mapM f (g <$> l) = Ok l.
Proof. intros Hf. induction l as [|x l IH]; [done|]. cbn in *. by rewrite Hf, IH. Qed.

Lemma Bytes_byte_array bs : Bytes (byte_array bs) = Ok bs.
Proof. unfold byte_array, Bytes. rewrite bool_decide_true by done. by apply mapM_fmap. Qed.

Lemma Bytes_byte_slice bs : Bytes (byte_slice bs) = Ok bs.
Proof. apply Bytes_byte_array. Qed.

Lemma zlength_byte_array bs : zlength (Num false 8 <$> bs) = zlength bs.
Proof. unfold zlength. by rewrite length_fmap. Qed.

(** ** Values that fit their type

    Integers are in the range of their type, at most 256 bits wide.  Negative
    numbers of signed types that are not 8, 16, 32 or 64 bits wide and empty
    arrays are excluded, and slices and arrays have elements of one word: see
    the remarks at the end. *)

Definition is_word (t : ty) : bool :=
  match t with
  | IntTy _ | UintTy _ | BoolTy | AddressTy | FixedBytesTy _ | FunctionTy => true
  | _ => false
  end.

Definition word_fits (t : ty) (v : value) : Prop :=
  match t, v with
  | IntTy s, Num sg b n => sg = true /\ b = s /\ Type_Kind t = KInt true s /\ - 2 ^ (s - 1) <= n < 2 ^ (s - 1)
  | UintTy s, Num sg b n => sg = false /\ b = s /\ Type_Kind t = KInt false s /\ 0 <= n < 2 ^ s
  | IntTy s, Big n => Type_Kind t = KPtr /\ 1 <= s <= 256 /\ 0 <= n < 2 ^ (s - 1)
  | UintTy s, Big n => Type_Kind t = KPtr /\ 1 <= s <= 256 /\ 0 <= n < 2 ^ s
  | BoolTy, Bool _ => True
  | AddressTy, _ => exists bs, v = byte_array bs /\ zlength bs = 20
  | FixedBytesTy n, _ => exists bs, v = byte_array bs /\ zlength bs = n /\ n <= 32
  | FunctionTy, _ => exists bs, v = byte_array bs /\ zlength bs = 24
  | _, _ => False
  end.

Definition fits (t : ty) (v : value) : Prop :=
  match t with
  | SliceTy e =>
      exists vs, v = Slice (Type_Kind e) vs /\ is_word e = true /\ Forall (word_fits e) vs
  | ArrayTy e n =>
      exists vs, v = Array (Type_Kind e) vs /\ is_word e = true /\ Forall (word_fits e) vs /\
        zlength vs = n /\ 0 < n
  | StringTy => exists s, v = Str s
  | BytesTy => exists bs, v = byte_slice bs
  | _ => word_fits t v
  end.

Lemma int_kind s u : reflectIntKind u s <> KPtr -> s = 8 \/ s = 16 \/ s = 32 \/ s = 64.
Proof.
  unfold reflectIntKind. destruct (_ || _) eqn:E; [|done]. intros _.
  repeat (apply orb_prop in E as [E|E]); lia.
Qed.

(** A narrow integer is the low bits of its 256-bit complement. *)
Lemma low_bits n bits : 0 <= bits <= 256 -> (n mod 2 ^ 256) mod 2 ^ bits = n mod 2 ^ bits.
Proof.
  intros Hb. replace (2 ^ 256) with (2 ^ (256 - bits) * 2 ^ bits)
    by (rewrite <- Z.pow_add_r by lia; f_equal; lia).
  assert (0 < 2 ^ bits) by (apply Z.pow_pos_nonneg; lia).
  assert (0 < 2 ^ (256 - bits)) by (apply Z.pow_pos_nonneg; lia).
  by rewrite Z.mod_mod_divide by (by exists (2 ^ (256 - bits))).
Qed.

Lemma signed_of_range bits n :
  0 < bits -> - 2 ^ (bits - 1) <= n < 2 ^ (bits - 1) -> signed_of bits (n mod 2 ^ bits) = n.
Proof.
  intros Hb Hn. unfold signed_of.
  assert (2 ^ bits = 2 * 2 ^ (bits - 1)) as E
    by (rewrite <- Z.pow_succ_r by lia; f_equal; lia).
  assert (0 < 2 ^ (bits - 1)) by (apply Z.pow_pos_nonneg; lia).
  rewrite Z.mod_mod by lia. destruct (Z.ltb_spec n 0).
  - replace (n mod 2 ^ bits) with (n + 2 ^ bits); [decide_cmp; lia|].
    apply Z.mod_unique with (q := -1); lia.
  - rewrite (Z.mod_small n) by lia. decide_cmp. done.
Qed.

Lemma readInteger_U256 t v :
  word_fits t v -> match t with IntTy _ | UintTy _ => True | _ => False end ->
  exists n, packElement t v = Ok (U256 n) /\ Type_Kind t = value_Kind v /\
    readInteger (Type_Kind t) (U256 n) = v.
Proof.
  intros Hf Ht. destruct t as [s|s| | | | | | | | ], v as [sg b n|n| | | | ]; try done; cbn in Hf.
  - destruct Hf as (-> & -> & Hk & Hn). exists n. cbn [Type_Kind]. rewrite Hk. split; [done|].
    split; [done|]. cbn. rewrite be_U256.
    assert (s = 8 \/ s = 16 \/ s = 32 \/ s = 64) as Hs by (apply (int_kind s false); by rewrite Hk).
    f_equal. rewrite <- (signed_of_range s n) at 2 by lia.
    unfold signed_of. rewrite low_bits by lia. rewrite Z.mod_mod; [done|].
    apply Z.pow_nonzero; lia.
  - destruct Hf as (Hk & Hs & Hn). exists n. cbn [Type_Kind]. rewrite Hk. cbn. split; [done|].
    split; [done|]. pose proof (Z.pow_le_mono_r 2 (s - 1) 256). rewrite be_U256, Z.mod_small; [done|lia].
  - destruct Hf as (-> & -> & Hk & Hn). exists n. cbn [Type_Kind]. rewrite Hk. split; [done|].
    split; [done|]. cbn. rewrite be_U256.
    assert (s = 8 \/ s = 16 \/ s = 32 \/ s = 64) as Hs by (apply (int_kind s true); by rewrite Hk).
    rewrite low_bits, Z.mod_small by lia. done.
  - destruct Hf as (Hk & Hs & Hn). exists n. cbn [Type_Kind]. rewrite Hk. cbn. split; [done|].
    split; [done|]. pose proof (Z.pow_le_mono_r 2 s 256). rewrite be_U256, Z.mod_small; [done|lia].
Qed.

(** ** One word *)

Lemma pack_word t v : is_word t = true -> pack t v = (let? _ := typeCheck t v in packElement t v).
Proof. by destruct t. Qed.

Lemma typeCheck_word t v :
  is_word t = true -> Type_Kind t = value_Kind v ->
  (forall n ek vs, t = FixedBytesTy n -> v = Array ek vs -> n = zlength vs) -> typeCheck t v = Ok tt.
Proof.
  intros Ht Hk Hn. unfold typeCheck. rewrite bool_decide_true by done. cbn [negb].
  destruct t; try done. destruct v; try done. by rewrite (Hn _ _ _ eq_refl eq_refl), Z.eqb_refl.
Qed.

(** What [toGoType] does with the 32 bytes of a word. *)
Definition read_word (t : ty) (w : list Z) : res error value :=
  match t with
  | IntTy _ | UintTy _ => Ok (readInteger (Type_Kind t) w)
  | BoolTy => readBool w
  | AddressTy => Ok (BytesToAddress w)
  | FixedBytesTy n => Ok (readFixedBytes n w)
  | FunctionTy => readFunctionType w
  | _ => Err ErrPanic
  end.

Lemma toGoType_word t out i w :
  is_word t = true -> at_ out i w -> zlength w = 32 -> toGoType i t out = read_word t w.
Proof.
  intros Ht Hat Hw. pose proof (at_bounds _ _ _ Hat).
  destruct t; try done; cbn [toGoType requiresLengthPrefix read_word];
    decide_cmp; rewrite (slice_at _ _ _ _ Hat) by lia; done.
Qed.

Lemma RightPad_length b l : zlength b <= l -> zlength (RightPadBytes b l) = l.
Proof. intros. unfold RightPadBytes. rewrite zlength_app. unfold zlength in *. rewrite length_replicate. lia. Qed.

Lemma read_fixed bs n : zlength bs = n -> n <= 32 ->
  readFixedBytes n (RightPadBytes bs 32) = byte_array bs.
Proof. intros <- Hn. unfold readFixedBytes, RightPadBytes. by rewrite slice_prefix. Qed.

Lemma pack_word_read t v :
  word_fits t v -> is_word t = true ->
  exists w, pack t v = Ok w /\ zlength w = 32 /\ read_word t w = Ok v.
Proof.
  intros Hf Ht. rewrite pack_word by done.
  destruct t as [s|s| | | | | | |k| ]; try done.
  - destruct (readInteger_U256 _ _ Hf I) as (n & Hp & Hk & Hr). rewrite typeCheck_word by done.
    exists (U256 n). rewrite Hp, U256_length. cbn [read_word]. by rewrite Hr.
  - destruct (readInteger_U256 _ _ Hf I) as (n & Hp & Hk & Hr). rewrite typeCheck_word by done.
    exists (U256 n). rewrite Hp, U256_length. cbn [read_word]. by rewrite Hr.
  - destruct v as [ | |b| | | ]; try done. rewrite typeCheck_word by done.
    eexists. split; [done|]. by destruct b.
  - destruct Hf as (bs & -> & Hl). rewrite typeCheck_word by done. cbn [packElement].
    rewrite Bytes_byte_array. eexists. split; [done|].
    unfold LeftPadBytes. rewrite Hl. split; [by rewrite zlength_app, Hl|]. cbn [read_word].
    unfold BytesToAddress. rewrite length_app. unfold zlength in Hl.
    change (length (replicate (Z.to_nat (32 - 20)) 0)) with 12%nat.
    replace (12 + length bs - 20)%nat with 12%nat by lia. by rewrite drop_app_length'.
  - destruct Hf as (bs & -> & Hl & Hk).
    rewrite typeCheck_word; [|done|done|by intros ??? [= <-] [= _ <-]; rewrite zlength_byte_array].
    cbn [packElement]. rewrite Bytes_byte_array. eexists. split; [done|].
    rewrite RightPad_length by lia. cbn [read_word]. by rewrite read_fixed.
  - destruct Hf as (bs & -> & Hl). rewrite typeCheck_word by done. cbn [packElement].
    rewrite Bytes_byte_array. eexists. split; [done|]. rewrite RightPad_length by lia.
    cbn [read_word]. unfold readFunctionType, RightPadBytes. rewrite Hl.
    rewrite (slice_at _ 24 32 (replicate 8 0)); [|by exists bs, []|done].
    rewrite be_zeros. cbn [Z.eqb]. by rewrite slice_prefix by lia.
Qed.

(** ** Sequences of words *)

Lemma pack_words e vs :
  is_word e = true -> Forall (word_fits e) vs ->
  exists ws, mapM (pack e) vs = Ok ws /\ zlength (concat ws) = 32 * zlength vs /\
    forall out i, at_ out i (concat ws) ->
      forEachUnpack_loop (fun j => toGoType j e out) i 32 (length vs) = Ok vs.
Proof.
  intros He. induction 1 as [|v vs Hv Hvs IH].
  { exists []. by repeat split. }
  destruct IH as (ws & Em & Hl & Hr), (pack_word_read e v Hv He) as (w & Ew & Hw & Hrw).
  exists (w :: ws). cbn in Em |- *. rewrite Ew, Em. split; [done|]. split.
  { rewrite zlength_app, Hw, Hl. unfold zlength. cbn [length]. lia. }
  intros out i Hat. apply at_app in Hat as [H1 H2]. rewrite Hw in H2.
  rewrite (toGoType_word e out i w He H1 Hw), Hrw, Hr by done. done.
Qed.

Lemma sliceTypeCheck_word e n ek vs :
  is_word e = true -> ek = Type_Kind e ->
  sliceTypeCheck (SliceTy e) (Slice ek vs) = Ok tt /\
  (zlength vs = n -> sliceTypeCheck (ArrayTy e n) (Array ek vs) = Ok tt).
Proof.
  intros He ->. split; [|intros <-].
  - cbn. rewrite bool_decide_true by done. by destruct e.
  - cbn. rewrite Z.eqb_refl, bool_decide_true by done. by destruct e.
Qed.

(** ** Values behind an offset *)

Lemma prefix_points_to out i off l body :
  at_ out i (U256 off) -> at_ out off (U256 l ++ body) -> 0 <= l <= zlength body ->
  zlength out < 2 ^ 63 -> lengthPrefixPointsTo i out = Ok (off + 32, l).
Proof.
  intros H1 H2 Hl Hout. pose proof (at_bounds _ _ _ H2) as Hb. rewrite zlength_app, U256_length in Hb.
  apply at_app in H2 as [H2 _]. unfold lengthPrefixPointsTo.
  rewrite (slice_at _ _ _ _ H1) by (rewrite U256_length; lia).
  rewrite be_U256, Z.mod_small by lia. decide_cmp.
  replace (off + 32 - 32) with off by lia. rewrite (slice_at _ _ _ _ H2) by (rewrite U256_length; lia).
  rewrite be_U256, Z.mod_small by lia. by decide_cmp.
Qed.

Lemma pad_length l : 0 <= l -> l <= (l + 31) / 32 * 32.
Proof.
  intros. pose proof (Z.div_mod (l + 31) 32 ltac:(lia)).
  pose proof (Z.mod_pos_bound (l + 31) 32 ltac:(lia)). lia.
Qed.

Lemma slice_bytes out off bs :
  at_ out off (packBytesSlice bs (zlength bs)) -> slice out (off + 32) (off + 32 + zlength bs) = bs.
Proof.
  intros Hat. apply at_app in Hat as [_ H]. rewrite U256_length in H.
  apply at_app in H as [H _]. by apply slice_at.
Qed.

Lemma packBytesSlice_body bs l :
  packBytesSlice bs l = U256 l ++ RightPadBytes bs ((l + 31) / 32 * 32).
Proof. done. Qed.

Lemma RightPad_ge bs l : l <= zlength (RightPadBytes bs l) /\ zlength bs <= zlength (RightPadBytes bs l).
Proof. unfold RightPadBytes. rewrite zlength_app. unfold zlength. rewrite length_replicate. lia. Qed.

Lemma pack_dynamic_read t v :
  fits t v -> requiresLengthPrefix t = true ->
  exists w, pack t v = Ok w /\
    forall out i off, at_ out i (U256 off) -> at_ out off w -> zlength out < 2 ^ 63 ->
      toGoType i t out = Ok v.
Proof.
  intros Hf Ht. destruct t as [ | | | | |e| | | | ]; try done; cbn [fits] in Hf.
  - destruct Hf as (bs & ->). eexists. split; [done|]. intros out i off H1 H2 Hout.
    pose proof (at_bounds _ _ _ H1) as Hb. rewrite U256_length in Hb. pose proof (zlength_nonneg bs).
    cbn [toGoType requiresLengthPrefix]. decide_cmp.
    rewrite (prefix_points_to _ _ _ _ _ H1 H2) by (pose proof (pad_length (zlength bs)); pose proof (RightPad_ge bs ((zlength bs + 31) / 32 * 32)); lia).
    by rewrite slice_bytes.
  - destruct Hf as (bs & ->). eexists. split.
    { cbn [pack typeCheck Type_Kind value_Kind byte_slice packElement]. rewrite bool_decide_true by done.
      cbn [negb]. by rewrite Bytes_byte_slice. }
    intros out i off H1 H2 Hout.
    pose proof (at_bounds _ _ _ H1) as Hb. rewrite U256_length in Hb. pose proof (zlength_nonneg bs).
    cbn [toGoType requiresLengthPrefix]. decide_cmp.
    rewrite (prefix_points_to _ _ _ _ _ H1 H2) by (pose proof (pad_length (zlength bs)); pose proof (RightPad_ge bs ((zlength bs + 31) / 32 * 32)); lia).
    by rewrite slice_bytes.
  - destruct Hf as (vs & -> & He & Hvs). destruct (pack_words e vs He Hvs) as (ws & Em & Hl & Hr).
    eexists. split.
    { cbn [pack typeCheck]. rewrite (proj1 (sliceTypeCheck_word e 0 _ vs He eq_refl)), Em. done. }
    intros out i off H1 H2 Hout.
    pose proof (at_bounds _ _ _ H1) as Hb. rewrite U256_length in Hb. pose proof (zlength_nonneg vs).
    pose proof (RightPad_ge (concat ws) ((zlength vs + 31) / 32 * 32)).
    cbn [toGoType requiresLengthPrefix]. decide_cmp.
    rewrite (prefix_points_to _ _ _ _ _ H1 H2) by lia.
    rewrite packBytesSlice_body in H2. apply at_app in H2 as [_ H2]. rewrite U256_length in H2.
    apply at_app in H2 as [H2 _]. pose proof (at_bounds _ _ _ H2). unfold forEachUnpack. decide_cmp.
    replace (Z.to_nat (zlength vs)) with (length vs) by (unfold zlength; lia). by rewrite Hr.
Qed.

(** ** Arguments *)

(** Bytes of an argument in the head of the packed data. *)
Definition head_size (t : ty) : Z := match t with ArrayTy _ n => 32 * n | _ => 32 end.

Lemma pack_static_read t v :
  fits t v -> requiresLengthPrefix t = false ->
  exists w, pack t v = Ok w /\ zlength w = head_size t /\
    forall out i, at_ out i w -> toGoType i t out = Ok v.
Proof.
  intros Hf Ht.
  assert (is_word t = true \/ exists e n, t = ArrayTy e n) as [Hw|(e & n & ->)]
    by (destruct t; eauto; by left).
  - assert (word_fits t v) as Hv by by destruct t.
    destruct (pack_word_read t v Hv Hw) as (w & Ep & Hl & Hr). exists w. split; [done|].
    split; [by destruct t|]. intros out i Hat. by rewrite (toGoType_word t out i w).
  - destruct Hf as (vs & -> & He & Hvs & Hn & Hpos).
    destruct (pack_words e vs He Hvs) as (ws & Em & Hl & Hr).
    exists (concat ws). split.
    { cbn [pack typeCheck]. by rewrite (proj2 (sliceTypeCheck_word e n _ vs He eq_refl)), Em by done. }
    split; [cbn; lia|]. intros out i Hat. pose proof (at_bounds _ _ _ Hat).
    cbn [toGoType requiresLengthPrefix]. decide_cmp. unfold forEachUnpack. decide_cmp.
    replace (getFullElemSize e) with 32 by by destruct e.
    replace (Z.to_nat n) with (length vs) by (unfold zlength in Hn; lia). by rewrite Hr.
Qed.

Lemma next_index t v index virt :
  fits t v ->
  (index + virt) * 32 + head_size t =
  (index + 1 + match t with ArrayTy e n => virt + (getArraySize e n - 1) | _ => virt end) * 32.
Proof.
  intros Hf. destruct t as [ | | | | | |e n| | | ]; cbn [head_size]; try lia.
  destruct Hf as (vs & -> & He & _). replace (getArraySize e n) with n by by destruct e. lia.
Qed.

Lemma Pack_loop_spec io args ret var :
  Forall (fun '(t, v) => fits t v) args ->
  exists heads tails,
    Pack_loop io args ret var = Ok ((ret ++ heads) ++ var ++ tails) /\
    zlength heads = zsum (head_size <$> args.*1) /\
    forall out index virt,
      at_ out ((index + virt) * 32) heads -> at_ out (io + zlength var) tails -> zlength out < 2 ^ 63 ->
      UnpackValues_loop index virt args.*1 out = Ok args.*2.
Proof.
  intros Hargs. revert ret var. induction Hargs as [|[t v] args Hf Hargs IH]; intros ret var.
  { exists [], []. cbn. by rewrite !app_nil_r. }
  rewrite !fmap_cons. cbn [Pack_loop fst snd UnpackValues_loop]. destruct (requiresLengthPrefix t) eqn:Ht.
  - destruct (pack_dynamic_read t v Hf Ht) as (w & -> & Hr).
    destruct (IH (ret ++ U256 (io + zlength var)) (var ++ w)) as (hs & ts & -> & Hl & Hu).
    exists (U256 (io + zlength var) ++ hs), (w ++ ts). split; [by rewrite !app_assoc|].
    split; [rewrite zlength_app, U256_length, Hl; by destruct t|].
    intros out index virt H1 H2 Hout. apply at_app in H1 as [H1 H1'], H2 as [H2 H2'].
    rewrite (Hr _ _ _ H1 H2 Hout). rewrite U256_length in H1'.
    replace 32 with (head_size t) in H1' at 2 by by destruct t.
    rewrite (next_index t v) in H1' by done. rewrite <- Z.add_assoc, <- zlength_app in H2'.
    by rewrite (Hu _ _ _ H1' H2' Hout).
  - destruct (pack_static_read t v Hf Ht) as (w & -> & Hw & Hr).
    destruct (IH (ret ++ w) var) as (hs & ts & -> & Hl & Hu).
    exists (w ++ hs), ts. split; [by rewrite !app_assoc|].
    split; [rewrite zlength_app, Hw, Hl; done|].
    intros out index virt H1 H2 Hout. apply at_app in H1 as [H1 H1'].
    rewrite (Hr _ _ H1). rewrite Hw, (next_index t v) in H1' by done.
    by rewrite (Hu _ _ _ H1' H2 Hout).
Qed.

(** Arguments that fit their types can be packed, and unpacking gives them
    back. *)
Lemma UnpackValues_Pack_fits ts vs :
  Forall2 fits ts vs ->
  exists data, Pack ts vs = Ok data /\ (zlength data < 2 ^ 63 -> UnpackValues ts data = Ok vs).
Proof.
  intros Hf. assert (length ts = length vs) as Hlen by by eapply Forall2_length.
  assert (Forall (fun '(t, v) => fits t v) (zip ts vs)) as Hz.
  { clear Hlen. induction Hf; by constructor. }
  unfold Pack. rewrite Hlen, Nat.eqb_refl. cbn [negb].
  destruct (Pack_loop_spec (zsum (head_size <$> ts)) (zip ts vs) [] [] Hz) as (hs & tl & Ep & Hl & Hu).
  rewrite fst_zip, snd_zip in * by lia. exists (hs ++ tl). split; [exact Ep|].
  intros Hout. apply (Hu _ 0 0); [by exists [], tl| |done].
  exists hs, []. rewrite app_nil_r. split; [done|].
  rewrite Hl. symmetry. apply Z.add_0_r.
Qed.

(** C34: Contract arguments survive the codec.  Let every value fit its type: a
    word (an integer in the range of its type, but not a negative one of a type
    that Go keeps as a big integer; a boolean, an address, fixed bytes, a
    function), a byte string, or a slice or non-empty array of words.  Then packing succeeds, with words
    and arrays in place and the rest behind offsets, and unpacking the result
    gives back exactly the values, whatever their number, order and lengths, up
    to 2^63 bytes. *)
Theorem UnpackValues_Pack ts vs :
  Forall2 fits ts vs ->
  exists data, Pack ts vs = Ok data /\ (zlength data < 2 ^ 63 -> UnpackValues ts data = Ok vs).
Proof. apply UnpackValues_Pack_fits. Qed.

(** ** Where the code does not give values back *)

(** A negative integer of more than 64 bits comes back as its complement. *)
Lemma negative_big_lost :
  (let? data := Pack [IntTy 256] [Big (-1)] in UnpackValues [IntTy 256] data)
  = Ok [Big (2 ^ 256 - 1)].
Proof. by vm_compute. Qed.

Definition nums (l : list Z) : list value := Num false 64 <$> l.

(** [Pack] counts only the outer size of an array of arrays, so the offset of
    the bytes behind it points into the array. *)
Lemma nested_array_offset :
  let ts := [ArrayTy (ArrayTy (UintTy 64) 2) 2; BytesTy] in
  let arr := Array KArray [Array (KInt false 64) (nums [7; 8]); Array (KInt false 64) (nums [9; 1])] in
  (let? data := Pack ts [arr; byte_slice [5]] in UnpackValues ts data) = Ok [arr; byte_slice [0]].
Proof. by vm_compute. Qed.

(** Elements of a slice are read 32 bytes apart, also when they are arrays. *)
Lemma slice_of_arrays_overlaps :
  let ts := [SliceTy (ArrayTy (UintTy 64) 2)] in
  let sl l := Slice KArray ((fun p : Z * Z => Array (KInt false 64) (nums [p.1; p.2])) <$> l) in
  (let? data := Pack ts [sl [(7, 8); (9, 10)]] in UnpackValues ts data) = Ok [sl [(7, 8); (8, 9)]].
Proof. by vm_compute. Qed.

(** Elements of a slice of byte strings are written in place but read behind
    offsets: the length of the first is taken for its offset. *)
Lemma slice_of_strings_fails :
  let ts := [SliceTy StringTy] in
  (let? data := Pack ts [Slice KString [Str [65]; Str [66]]] in UnpackValues ts data)
  <> Ok [Slice KString [Str [65]; Str [66]]].
Proof. by vm_compute. Qed.

Lemma UnpackValues_Pack_witness :
  exists data,
    Pack [BytesTy; IntTy 8; SliceTy BoolTy; ArrayTy AddressTy 1]
      [byte_slice [1; 2; 3]; Num true 8 (-5); Slice KBool [Bool true; Bool false];
       Array KArray [byte_array (replicate 20 7)]] = Ok data /\
    (zlength data < 2 ^ 63 ->
     UnpackValues [BytesTy; IntTy 8; SliceTy BoolTy; ArrayTy AddressTy 1] data =
     Ok [byte_slice [1; 2; 3]; Num true 8 (-5); Slice KBool [Bool true; Bool false];
         Array KArray [byte_array (replicate 20 7)]]).
Proof.
  apply UnpackValues_Pack.
  constructor; [|constructor; [|constructor; [|constructor; [|constructor]]]]; cbn [fits].
  - by exists [1; 2; 3].
  - done.
  - exists [Bool true; Bool false]. by repeat constructor.
  - exists [byte_array (replicate 20 7)]. split_and!; try done. constructor; [|done].
    by exists (replicate 20 7).
Defined.

End Abi.
