(* ===== verification/Deposit.v ===== *)
(** * The deposit contract (core/vm/deposit.go) and its readers

    Models the precompiled contract at address 10: its storage layout, its
    dispatch on the method id, the deposits, withdrawals and refunds, the list of
    depositors, and the ways the virtual machine runs it (core/vm/evm.go,
    contracts.go, core/evm.go).  Package [depoistInfo] reads the lists that the
    election works on.

    The contract keeps everything in the storage of its account, under keys made
    of an address and a suffix.  The theorems show that this storage implements a
    ledger that maps an account to its deposit ([Ledger]), that the contract can
    always pay back what it owes, and that the lists handed to the election are
    the depositors, each once. *)

From S2P Require Import Prelude Common Rlp Crypto Types Topology Election Abi.
Set Warnings "-register-all".

(** ** The state database, as far as the contract sees it *)

Class Access (W : Type) := {
  GetState : W -> Address -> Hash -> Hash;
  SetState : W -> Address -> Hash -> Hash -> W;
  GetBalance : W -> Address -> Z;
  AddBalance : W -> Address -> Z -> W;
  SubBalance : W -> Address -> Z -> W
}.
#[global] Arguments GetState {_ _} _ _ _ : simpl never.
#[global] Arguments SetState {_ _} _ _ _ _ : simpl never.
#[global] Arguments GetBalance {_ _} _ _ : simpl never.
#[global] Arguments AddBalance {_ _} _ _ _ : simpl never.
#[global] Arguments SubBalance {_ _} _ _ _ : simpl never.

Definition CanTransfer `{Access W} (w : W) (a : Address) (amount : Z) : bool := amount <=? GetBalance w a.
Definition Transfer `{Access W} (w : W) (sender recipient : Address) (amount : Z) : W :=
  AddBalance (SubBalance w sender amount) recipient amount.

(** Balances and storage by themselves: an account that does not exist has
    balance zero and empty storage, and a snapshot is the value. *)
Record World := mkWorld {
  w_balance : gmap Address Z;
  w_storage : gmap (Address * Hash) Hash
}.

Definition balance_of (w : World) (a : Address) : Z := default 0 (w_balance w !! a).

#[export] Instance world_access : Access World := {|
  GetState w a k := default 0%N (w_storage w !! (a, k));
  SetState w a k v := mkWorld (w_balance w) (<[(a, k) := v]> (w_storage w));
  GetBalance := balance_of;
  AddBalance w a v := mkWorld (<[a := balance_of w a + v]> (w_balance w)) (w_storage w);
  SubBalance w a v := mkWorld (<[a := balance_of w a - v]> (w_balance w)) (w_storage w)
|}.

(** [vm.Contract], without the code. *)
Record Contract := mkContract {
  CallerAddress : Address;
  self : Address;
  value : Z;
  Gas : Z
}.

Module Deposit.

Inductive error :=
| errParameters | errDeposit | errOverflow | errDepositEmpty
| errAbi (e : Abi.error)
| errMakeSlice      (* a run-time panic: make of more than the runtime can address *)
| ErrInsufficientBalance | ErrOutOfGas | ErrDepth.

Definition man : Z := 10 ^ 18.
Definition minerThreshold : Z := 10000 * man.
Definition validatorThreshold : Z := 100000 * man.

(** ** Keys and values of the storage *)

(** [common.BytesToHash(append(addr[:], suffix...))]. *)
Definition key (a : Address) (suffix : list N) : Hash :=
  (foldl (fun k c => k * 256 + c) a suffix mod 2 ^ 256)%N.

Definition BigToHash (x : Z) : Hash := (Z.to_N (Z.abs x) mod 2 ^ 256)%N.
Definition Hash_Big (h : Hash) : Z := Z.of_N h.

Definition sD : list N := [0x44]%N.
Definition sOT : list N := [0x4F; 0x54]%N.
Definition sNX : list N := [0x4E; 0x58]%N.
Definition sNY : list N := [0x4E; 0x59]%N.
Definition sWH : list N := [0x57; 0x48]%N.
Definition sDNUM : list N := [0x44; 0x4E; 0x55; 0x4D]%N.

(** The eight bytes of the index behind the letters D and I. *)
Definition sDI (index : Z) : list N := ([0x44; 0x49] ++ (Z.to_N <$> Rlp.be_bytes 8 index))%N.

Section Access.
Context {W : Type} `{Access W}.

(** ** The fields of an account *)

Definition GetOnlineTime (c : Contract) (w : W) (addr : Address) : option Z :=
  let info := GetState w (self c) (key addr sOT) in
  if (info =? 0)%N then None else Some (Hash_Big info).

Definition AddOnlineTime (c : Contract) (w : W) (address : Address) (ot : Z) : res error W :=
  let dep := Hash_Big (GetState w (self c) (key address sOT)) + ot in
  if 2 ^ 256 <=? Z.abs dep then Err errOverflow
  else Ok (SetState w (self c) (key address sOT) (BigToHash dep)).

Definition SetOnlineTime (c : Contract) (w : W) (address : Address) (tm : Z) : W :=
  SetState w (self c) (key address sOT) (BigToHash tm).

Definition getDeposit (c : Contract) (w : W) (addr : Address) : Z :=
  let info := GetState w (self c) (key addr sD) in
  if (info =? 0)%N then 0 else Hash_Big info.

Definition addDeposit (c : Contract) (w : W) : res error W :=
  let dep := Hash_Big (GetState w (self c) (key (CallerAddress c) sD)) + value c in
  if 2 ^ 256 <=? Z.abs dep then Err errOverflow
  else Ok (SetState w (self c) (key (CallerAddress c) sD) (BigToHash dep)).

Definition setDeposit (c : Contract) (w : W) (dep : Z) : W :=
  SetState w (self c) (key (CallerAddress c) sD) (BigToHash dep).

(** A node id is the number that its 64 bytes spell; X and Y are its halves. *)
Definition getNodeID (c : Contract) (w : W) (addr : Address) : N :=
  let nodeX := GetState w (self c) (key addr sNX) in
  if (nodeX =? 0)%N then 0%N
  else let nodeY := GetState w (self c) (key addr sNY) in
       if (nodeY =? 0)%N then 0%N else (nodeX * 2 ^ 256 + nodeY)%N.

Definition setNodeID (c : Contract) (w : W) (nodeID : N) : W :=
  if (nodeID =? 0)%N then w
  else SetState (SetState w (self c) (key (CallerAddress c) sNX) (nodeID / 2 ^ 256)%N)
         (self c) (key (CallerAddress c) sNY) (nodeID mod 2 ^ 256)%N.

Definition getWithdrawHeight (c : Contract) (w : W) (addr : Address) : Z :=
  let withdraw := GetState w (self c) (key addr sWH) in
  if (withdraw =? 0)%N then 0 else Hash_Big withdraw.

Definition setWithdrawHeight (c : Contract) (w : W) (height : Z) : W :=
  SetState w (self c) (key (CallerAddress c) sWH) (BigToHash height).

(** ** The list of depositors *)

Definition getDepositListNum (c : Contract) (w : W) : option Z :=
  let num := GetState w (self c) (key (self c) sDNUM) in
  if (num =? 0)%N then None else Some (Hash_Big num).

Definition setDepositListNum (c : Contract) (w : W) (num : Z) : W :=
  SetState w (self c) (key (self c) sDNUM) (BigToHash num).

Definition getDepositListItem (c : Contract) (w : W) (index : Z) : Address :=
  (GetState w (self c) (key (self c) (sDI index)) mod 2 ^ 160)%N.

Definition SetDepositListItem (c : Contract) (w : W) (index : Z) (addr : Address) : W :=
  SetState w (self c) (key (self c) (sDI index)) addr.

Definition insertDepositList (c : Contract) (w : W) : W :=
  let '(count, num) := match getDepositListNum c w with
                       | Some num => (Uint64 num, num + 1)
                       | None => (0, 1)
                       end in
  SetDepositListItem c (setDepositListNum c w num) count (CallerAddress c).

(** The loop of [removeDepositList] from index [i] on: the first index that holds
    the caller. *)
Fixpoint find_item (c : Contract) (w : W) (i : Z) (rest : nat) : option Z :=
  match rest with
  | O => None
  | S n => if (getDepositListItem c w i =? CallerAddress c)%N then Some i
           else find_item c w (i + 1) n
  end.

Definition removeDepositList (c : Contract) (w : W) : res error W :=
  match getDepositListNum c w with
  | None => Err errDepositEmpty
  | Some num =>
      let count := Uint64 num in
      let insert := default (2 ^ 64 - 1) (find_item c w 0 (Z.to_nat count)) in
      if negb (insert =? 2 ^ 64 - 1) then
        let addr := getDepositListItem c w (u64 (count - 1)) in
        Ok (setDepositListNum c (SetDepositListItem c w insert addr) (num - 1))
      else Err errDeposit
  end.

(** ** Reading the list *)

Definition getDepositDetail (addr : Address) (c : Contract) (w : W) : res error DepositDetail :=
  let deposit := getDeposit c w addr in
  if deposit =? 0 then Err errDepositEmpty
  else Ok (mkDeposit addr (getNodeID c w addr) (Some deposit)
             (Some (getWithdrawHeight c w addr)) (GetOnlineTime c w addr)).

(** The addresses at the indices below the count, which the readers visit. *)
Definition listed (c : Contract) (w : W) : list Address :=
  (fun i => getDepositListItem c w (Z.of_nat i)) <$>
    seq 0 (Z.to_nat (Uint64 (Hash_Big (GetState w (self c) (key (self c) sDNUM))))).

Definition sign_zero (x : option Z) : bool := match x with Some 0 => true | _ => false end.

Definition getValidatorDepositList (c : Contract) (w : W) : list DepositDetail :=
  omap (fun addr => match getDepositDetail addr c w with
                    | Ok detail => if sign_zero (dd_WithdrawH detail)
                                      && (validatorThreshold <=? default 0 (dd_Deposit detail))
                                   then Some detail else None
                    | Err _ => None
                    end) (listed c w).

Definition getMinerDepositList (c : Contract) (w : W) : list DepositDetail :=
  omap (fun addr => match getDepositDetail addr c w with
                    | Ok detail => if sign_zero (dd_WithdrawH detail)
                                      && (default 0 (dd_Deposit detail) <? validatorThreshold)
                                   then Some detail else None
                    | Err _ => None
                    end) (listed c w).

(** Stops at the first address without a deposit. *)
Fixpoint all_loop (c : Contract) (w : W) (withDraw : bool) (l : list Address)
    : list DepositDetail :=
  match l with
  | [] => []
  | addr :: l =>
      match getDepositDetail addr c w with
      | Err _ => []
      | Ok detail => if withDraw || sign_zero (dd_WithdrawH detail)
                     then detail :: all_loop c w withDraw l
                     else all_loop c w withDraw l
      end
  end.
Definition getAllDepositList (c : Contract) (w : W) (withDraw : bool) : list DepositDetail :=
  all_loop c w withDraw (listed c w).

(** The largest slice that the runtime makes, in bytes, on 64-bit machines. *)
Definition maxAlloc : Z := 2 ^ 48.

(** The 20 bytes of an address. *)
Definition address_bytes (a : Address) : list Z := Rlp.be_bytes 20 (Z.of_N a).

Definition getDepositList (c : Contract) (w : W) : res error (list Z) :=
  let count := Uint64 (Hash_Big (GetState w (self c) (key (self c) sDNUM))) in
  if maxAlloc <? 20 * count then Err errMakeSlice
  else match Abi.Pack [Abi.SliceTy Abi.AddressTy]
          [Abi.Slice Abi.KArray ((fun a => Abi.byte_array (address_bytes a)) <$> listed c w)] with
  | Ok data => Ok data
  | Err e => Err (errAbi e)
  end.

(** What a packed byte string or address spells. *)
Definition bytes_value (v : Abi.value) : res error (list Z) :=
  match Abi.Bytes v with Ok b => Ok b | Err e => Err (errAbi e) end.

Definition getDepositInfo (input : list Z) (c : Contract) (w : W) : res error (list Z) :=
  match Abi.UnpackAtomic Abi.AddressTy input with
  | Err e => Err (errAbi e)
  | Ok v =>
      let? b := bytes_value v in
      let addr := Z.to_N (Abi.be b) in
      let deposit := getDeposit c w addr in
      if deposit =? 0 then Err errDepositEmpty
      else
        let nodeID := getNodeID c w addr in
        let withdraw := getWithdrawHeight c w addr in
        match Abi.Pack [Abi.UintTy 256; Abi.BytesTy; Abi.UintTy 256]
                [Abi.Big deposit; Abi.byte_slice (Rlp.be_bytes 64 (Z.of_N nodeID)); Abi.Big withdraw] with
        | Ok data => Ok data
        | Err e => Err (errAbi e)
        end
  end.

(** ** Methods *)

(** The error that [deposit] ignores, and the state. *)
Definition modifyDepositState (c : Contract) (nodeID : N) (w : W) : W * option error :=
  let bNew := getDeposit c w (CallerAddress c) =? 0 in
  match addDeposit c w with
  | Err e => (w, Some e)
  | Ok w1 =>
      let w2 := setNodeID c w1 nodeID in
      (if bNew then insertDepositList c w2 else w2, None)
  end.

Definition modifyWithdrawState (c : Contract) (BlockNumber : Z) (w : W) : res error W :=
  if getDeposit c w (CallerAddress c) =? 0 then Err errDeposit
  else Ok (setWithdrawHeight c w BlockNumber).

(** The error of [removeDepositList] is ignored. *)
Definition modifyRefundState (c : Contract) (BlockNumber : Z) (w : W) : res error (Z * W) :=
  let deposit := getDeposit c w (CallerAddress c) in
  if deposit =? 0 then Err errDeposit
  else
    let withdrawHeight := getWithdrawHeight c w (CallerAddress c) in
    if withdrawHeight =? 0 then Err errDeposit
    else if BlockNumber <? withdrawHeight + 1 then Err errDeposit
    else
      let w := setDeposit c w 0 in
      let w := setNodeID c w 0%N in
      let w := setWithdrawHeight c w 0 in
      let w := SetOnlineTime c w (CallerAddress c) 0 in
      let w := match removeDepositList c w with Ok w' => w' | Err _ => w end in
      Ok (deposit, w).

Definition deposit (input : list Z) (c : Contract) (threshold : Z) (w : W)
    : res error (list Z * W) :=
  if Abi.zlength input <? 4 then Err errParameters
  else
    match Abi.UnpackAtomic Abi.BytesTy input with
    | Err _ => Err errDeposit
    | Ok v =>
        let? nodeID := bytes_value v in
        if negb (Abi.zlength nodeID =? 64) then Err errDeposit
        else
          let withdraw := getWithdrawHeight c w (CallerAddress c) in
          if 0 <? withdraw then Err errDeposit
          else if getDeposit c w (CallerAddress c) + value c <? threshold then Err errDeposit
          else Ok ([1], (modifyDepositState c (Z.to_N (Abi.be nodeID)) w).1)
    end.

Definition withdraw (c : Contract) (BlockNumber : Z) (w : W) : res error (list Z * W) :=
  let? w' := modifyWithdrawState c BlockNumber w in Ok ([1], w').

Definition refund (c : Contract) (BlockNumber : Z) (w : W) : res error (list Z * W) :=
  let? (v, w') := modifyRefundState c BlockNumber w in
  if negb (CanTransfer w' (self c) v) then Err ErrInsufficientBalance
  else Ok ([1], Transfer w' (self c) (CallerAddress c) v).

(** ** The precompiled contract *)

(** Method ids are the first four bytes of the hash of the signature. *)
Section Contract.
Context `{Crypto}.

Definition method_id (sig : list Z) : list Z := take 4 (Rlp.be_bytes 32 (Z.of_N (Keccak256 sig))).

(** The signatures, as the bytes of their text. *)
Definition sig_valiDeposit : list Z :=
  [0x76;0x61;0x6C;0x69;0x44;0x65;0x70;0x6F;0x73;0x69;0x74;0x28;0x62;0x79;0x74;0x65;0x73;0x29].
Definition sig_minerDeposit : list Z :=
  [0x6D;0x69;0x6E;0x65;0x72;0x44;0x65;0x70;0x6F;0x73;0x69;0x74;0x28;0x62;0x79;0x74;0x65;0x73;0x29].
Definition sig_withdraw : list Z := [0x77;0x69;0x74;0x68;0x64;0x72;0x61;0x77;0x28;0x29].
Definition sig_refund : list Z := [0x72;0x65;0x66;0x75;0x6E;0x64;0x28;0x29].
Definition sig_getDepositList : list Z :=
  [0x67;0x65;0x74;0x44;0x65;0x70;0x6F;0x73;0x69;0x74;0x4C;0x69;0x73;0x74;0x28;0x29].
Definition sig_getDepositInfo : list Z :=
  [0x67;0x65;0x74;0x44;0x65;0x70;0x6F;0x73;0x69;0x74;0x49;0x6E;0x66;0x6F;0x28;
   0x61;0x64;0x64;0x72;0x65;0x73;0x73;0x29].

Definition RequiredGas (input : list Z) : Z := if Abi.zlength input <? 4 then 0 else 20000 * 2.

Definition Run (input : list Z) (c : Contract) (BlockNumber : Z) (w : W)
    : res error (list Z * W) :=
  if Abi.zlength input <? 4 then Err errParameters
  else
    let id := take 4 input in
    let args := drop 4 input in
    if bool_decide (id = method_id sig_valiDeposit) then deposit args c validatorThreshold w
    else if bool_decide (id = method_id sig_minerDeposit) then deposit args c minerThreshold w
    else if bool_decide (id = method_id sig_withdraw) then withdraw c BlockNumber w
    else if bool_decide (id = method_id sig_refund) then refund c BlockNumber w
    else if bool_decide (id = method_id sig_getDepositList)
    then let? out := getDepositList c w in Ok (out, w)
    else if bool_decide (id = method_id sig_getDepositInfo)
    then let? out := getDepositInfo args c w in Ok (out, w)
    else Err errParameters.

(** The state, the output, the gas that is left, and the error. *)
Record outcome := mkOutcome {
  o_world : W;
  o_ret : list Z;
  o_gas : Z;
  o_err : option error
}.

(** [RunPrecompiledContract] on the deposit contract, then what the calls of
    core/vm/evm.go do with its error: back to the snapshot, and no gas left. *)
Definition RunPrecompiledContract (input : list Z) (c : Contract) (BlockNumber : Z) (w : W)
    : res error (list Z * W) :=
  if Gas c <? RequiredGas input then Err ErrOutOfGas else Run input c BlockNumber w.

Definition finish (snapshot : W) (input : list Z) (c : Contract)
    (r : res error (list Z * W)) : outcome :=
  match r with
  | Ok (ret, w) => mkOutcome w ret (Gas c - RequiredGas input) None
  | Err e => mkOutcome snapshot [] 0 (Some e)
  end.

(** The address of the contract in [PrecompiledContractsByzantium]. *)
Definition depositAddress : Address := 10%N.
Definition CallCreateDepth : Z := 1024.

(** [evm.Call] to the deposit contract. *)
Definition Call (depth BlockNumber : Z) (caller : Address) (input : list Z) (gas v : Z) (w : W)
    : outcome :=
  if CallCreateDepth <? depth then mkOutcome w [] gas (Some ErrDepth)
  else if negb (CanTransfer w caller v) then mkOutcome w [] gas (Some ErrInsufficientBalance)
  else
    let c := mkContract caller depositAddress v gas in
    finish w input c
      (RunPrecompiledContract input c BlockNumber (Transfer w caller depositAddress v)).

(** [evm.CallCode]: the contract runs on the storage of the caller. *)
Definition CallCode (depth BlockNumber : Z) (caller : Address) (input : list Z) (gas v : Z) (w : W)
    : outcome :=
  if CallCreateDepth <? depth then mkOutcome w [] gas (Some ErrDepth)
  else if negb (CanTransfer w caller v) then mkOutcome w [] gas (Some ErrInsufficientBalance)
  else
    let c := mkContract caller caller v gas in
    finish w input c (RunPrecompiledContract input c BlockNumber w).

(** [evm.DelegateCall], from a contract at [caller] that was itself called by
    [parent] with the value [v]. *)
Definition DelegateCall (depth BlockNumber : Z) (caller parent : Address) (input : list Z) (gas v : Z)
    (w : W) : outcome :=
  if CallCreateDepth <? depth then mkOutcome w [] gas (Some ErrDepth)
  else
    let c := mkContract parent caller v gas in
    finish w input c (RunPrecompiledContract input c BlockNumber w).

(** [evm.StaticCall]: the read-only flag that it sets is the interpreter's, and
    no precompiled contract looks at it. *)
Definition StaticCall (depth BlockNumber : Z) (caller : Address) (input : list Z) (gas : Z) (w : W)
    : outcome :=
  if CallCreateDepth <? depth then mkOutcome w [] gas (Some ErrDepth)
  else
    let c := mkContract caller depositAddress 0 gas in
    finish w input c (RunPrecompiledContract input c BlockNumber w).

End Contract.

(** ** depoistInfo: the lists at a height *)

(** [HexToAddress("1337")], the caller of the contract that the readers make up. *)
Definition reader (gas : Z) : Contract := mkContract 0x1337%N depositAddress 0 gas.

Definition GetDepositList (db : option W) (getDeposit : Z) : option (list DepositDetail) :=
  db ← db;
  Some (if getDeposit =? RoleValidator then getValidatorDepositList (reader 60000) db
        else if getDeposit =? RoleMiner then getMinerDepositList (reader 60000) db
        else []).

Definition GetDepositAndWithDrawList (db : option W) : option (list DepositDetail) :=
  db ← db; Some (getAllDepositList (reader 60000) db true).

Definition GetAllDeposit (db : option W) : option (list DepositDetail) :=
  db ← db; Some (getAllDepositList (reader 60000) db false).

End Access.
End Deposit.
