(* ===== verification/Ledger.v ===== *)
(** * The deposit contract implements a ledger

    The storage of the contract (Deposit.v) is a flat map from 32-byte keys to
    32-byte values.  This file states what it stands for, a ledger of deposits
    with the money held for them, and proves that every way to reach the contract
    keeps the two in step. *)

From S2P Require Import Prelude Common Rlp Crypto Types Topology Election Abi Deposit.
Set Warnings "-register-all".

Module Ledger.
Import Deposit.

(** ** The ledger *)

Record Account := mkAccount { a_deposit : Z; a_withdraw : Z }.

Record Ledger := mkLedger {
  accounts : gmap Address Account;     (* the depositors *)
  nodes : gmap Address N;              (* the node id an account named last *)
  online : gmap Address Z;
  held : Z                             (* the balance of the contract *)
}.

Definition deposit_of (L : Ledger) (a : Address) : Z := from_option a_deposit 0 (accounts L !! a).
Definition withdraw_of (L : Ledger) (a : Address) : Z := from_option a_withdraw 0 (accounts L !! a).
Definition node_of (L : Ledger) (a : Address) : N := default 0%N (nodes L !! a).
Definition online_of (L : Ledger) (a : Address) : Z := default 0 (online L !! a).
Definition total (m : gmap Address Account) : Z := zsum (a_deposit <$> (map_to_list m).*2).
Definition owed (L : Ledger) : Z := total (accounts L).

(** What a method of the contract asks for. *)
Inductive request := RDeposit (threshold : Z) (id : N) | RWithdraw | RRefund.

(** An id with a zero half reads as no id. *)
Definition usable (id : N) : N :=
  if (id / 2 ^ 256 =? 0)%N || (id mod 2 ^ 256 =? 0)%N then 0%N else id.

Definition apply (L : Ledger) (block : Z) (a : Address) (v : Z) (r : request) : option Ledger :=
  match r with
  | RDeposit threshold id =>
      let d := deposit_of L a + v in
      if 0 <? withdraw_of L a then None
      else if d <? threshold then None
      else if 2 ^ 256 <=? d then Some (mkLedger (accounts L) (nodes L) (online L) (held L + v))
      else Some (mkLedger (<[a := mkAccount d 0]> (accounts L))
                   (if (id =? 0)%N then nodes L else <[a := usable id]> (nodes L))
                   (online L) (held L + v))
  | RWithdraw =>
      x ← accounts L !! a;
      Some (mkLedger (<[a := mkAccount (a_deposit x) block]> (accounts L)) (nodes L) (online L)
              (held L + v))
  | RRefund =>
      x ← accounts L !! a;
      if (a_withdraw x =? 0) || (block <=? a_withdraw x) then None
      else Some (mkLedger (delete a (accounts L)) (nodes L) (delete a (online L))
                   (held L + v - a_deposit x))
  end.

(** An account that cannot be mistaken for a key of the list: one of its first
    ten bytes is not zero. *)
Definition plain (a : Address) : Prop := (2 ^ 80 <= a < 2 ^ 160)%N.

Definition ledger_ok (L : Ledger) : Prop :=
  (forall a x, accounts L !! a = Some x ->
     plain a /\ minerThreshold <= a_deposit x < 2 ^ 256 /\ 0 <= a_withdraw x < 2 ^ 256) /\
  (forall a o, online L !! a = Some o -> 0 <= o) /\
  owed L <= held L.

(** ** Keys do not collide *)

Inductive slot := FD | FOT | FNX | FNY | FWH.
#[export] Instance slot_eq_dec : EqDecision slot.
Proof. solve_decision. Defined.

Definition suffix (f : slot) : list N :=
  match f with FD => sD | FOT => sOT | FNX => sNX | FNY => sNY | FWH => sWH end.

Lemma key_slot a f :
  plain a ->
  key a (suffix f) = match f with
                     | FD => a * 256 + 0x44 | FOT => a * 65536 + 0x4F54 | FNX => a * 65536 + 0x4E58
                     | FNY => a * 65536 + 0x4E59 | FWH => a * 65536 + 0x5748
                     end%N.
Proof.
  unfold plain, key. intros Ha.
  destruct f; cbn [foldl suffix sD sOT sNX sNY sWH]; rewrite N.mod_small; lia.
Qed.

Lemma key_slot_inj a b f g :
  plain a -> plain b -> key a (suffix f) = key b (suffix g) -> a = b /\ f = g.
Proof.
  intros Ha Hb. rewrite !key_slot by done.
  destruct f, g; intros E; (split; [lia|done]) || (exfalso; lia).
Qed.

Lemma foldl_bytes l k :
  Forall (fun b => 0 <= b < 256) l ->
  Z.of_N (foldl (fun k c => k * 256 + c)%N k (Z.to_N <$> l)) =
  foldl (fun acc b => Z.lor (Z.shiftl acc 8) b) (Z.of_N k) l.
Proof.
  intros Hl. revert k. induction Hl as [|b l Hb Hl IH]; intros k; [done|]. cbn.
  rewrite Rlp.lor_shift8 by done. unfold fmap in IH. rewrite IH. f_equal. lia.
Qed.

Lemma key_item i : in_u64 i -> key depositAddress (sDI i) = Z.to_N (0xA4449 * 2 ^ 64 + i).
Proof.
  intros Hi. unfold in_u64 in Hi. unfold key, sDI. rewrite foldl_app. cbn [foldl].
  assert (Z.of_N (foldl (fun k c => k * 256 + c)%N 0xA4449%N (Z.to_N <$> Rlp.be_bytes 8 i))
          = 0xA4449 * 2 ^ 64 + i) as E.
  { rewrite foldl_bytes by apply Rlp.be_bytes_wf. rewrite Rlp.foldl_be_bytes by lia.
    by rewrite Z.mod_small. }
  change (((depositAddress * 256 + 68) * 256 + 73)%N) with 0xA4449%N.
  rewrite N.mod_small by lia. lia.
Qed.

Lemma key_item_inj i j :
  in_u64 i -> in_u64 j -> key depositAddress (sDI i) = key depositAddress (sDI j) -> i = j.
Proof. intros Hi Hj. rewrite !key_item by done. unfold in_u64 in *. lia. Qed.

Lemma key_num : key depositAddress sDNUM = 0xA444E554D%N.
Proof. done. Qed.

Lemma key_num_item i : in_u64 i -> key depositAddress sDNUM <> key depositAddress (sDI i).
Proof. intros Hi. rewrite key_num, key_item by done. unfold in_u64 in Hi. lia. Qed.

Lemma key_slot_item a f i : plain a -> in_u64 i -> key a (suffix f) <> key depositAddress (sDI i).
Proof.
  intros Ha Hi. rewrite key_slot, key_item by done. unfold plain, in_u64 in *. destruct f; lia.
Qed.

Lemma key_slot_num a f : plain a -> key a (suffix f) <> key depositAddress sDNUM.
Proof. intros Ha. rewrite key_slot, key_num by done. unfold plain in *. destruct f; lia. Qed.

(** ** Cells: the storage seen through its keys *)

Inductive cell := CSlot (a : Address) (f : slot) | CNum | CItem (i : Z).
#[export] Instance cell_eq_dec : EqDecision cell.
Proof. solve_decision. Defined.

Definition cell_key (x : cell) : Hash :=
  match x with
  | CSlot a f => key a (suffix f)
  | CNum => key depositAddress sDNUM
  | CItem i => key depositAddress (sDI i)
  end.

Definition valid (x : cell) : Prop :=
  match x with CSlot a _ => plain a | CNum => True | CItem i => in_u64 i end.

Lemma cell_key_inj x y : valid x -> valid y -> cell_key x = cell_key y -> x = y.
Proof.
  destruct x, y; cbn; intros Hx Hy E.
  - by destruct (key_slot_inj _ _ _ _ Hx Hy E) as [-> ->].
  - by apply key_slot_num in E.
  - by apply key_slot_item in E.
  - by symmetry in E; apply key_slot_num in E.
  - done.
  - by apply key_num_item in E.
  - by symmetry in E; apply key_slot_item in E.
  - by symmetry in E; apply key_num_item in E.
  - f_equal. by apply key_item_inj.
Qed.

(** Reading and writing a cell of the deposit contract. *)
Definition rd (w : World) (x : cell) : Hash := GetState w depositAddress (cell_key x).
Definition wr (w : World) (x : cell) (v : Hash) : World := SetState w depositAddress (cell_key x) v.

Lemma rd_wr w x y v :
  valid x -> valid y -> rd (wr w x v) y = if decide (x = y) then v else rd w y.
Proof.
  intros Hx Hy. unfold rd, wr. cbv [GetState SetState world_access]. cbn [w_storage]. case_decide as E.
  - subst. by rewrite lookup_insert_eq.
  - rewrite lookup_insert_ne; [done|]. intros [= Hk]. by apply E, cell_key_inj.
Qed.

(** The operations of the contract at its address, in terms of cells. *)
Section cells.
Context (c : Contract) (Hself : self c = depositAddress).

Lemma getDeposit_rd w a : getDeposit c w a = Z.of_N (rd w (CSlot a FD)).
Proof. unfold getDeposit. rewrite Hself. cbv zeta. case_match eqn:E; [|done]. apply N.eqb_eq in E. by rewrite <- (N2Z.inj_iff _ 0) in E. Qed.

Lemma getWithdrawHeight_rd w a : getWithdrawHeight c w a = Z.of_N (rd w (CSlot a FWH)).
Proof. unfold getWithdrawHeight. rewrite Hself. cbv zeta. case_match eqn:E; [|done]. apply N.eqb_eq in E. by rewrite <- (N2Z.inj_iff _ 0) in E. Qed.

Lemma getDepositListNum_rd w :
  getDepositListNum c w = (if (rd w CNum =? 0)%N then None else Some (Z.of_N (rd w CNum))).
Proof. unfold getDepositListNum. by rewrite Hself. Qed.

Lemma getDepositListItem_rd w i : getDepositListItem c w i = (rd w (CItem i) mod 2 ^ 160)%N.
Proof. unfold getDepositListItem. by rewrite Hself. Qed.

Lemma SetDepositListItem_wr w i a : SetDepositListItem c w i a = wr w (CItem i) a.
Proof. unfold SetDepositListItem. by rewrite Hself. Qed.

Lemma setDepositListNum_wr w n : setDepositListNum c w n = wr w CNum (BigToHash n).
Proof. unfold setDepositListNum. by rewrite Hself. Qed.
End cells.

Lemma BigToHash_small x : 0 <= x < 2 ^ 256 -> BigToHash x = Z.to_N x.
Proof. intros Hx. unfold BigToHash. rewrite Z.abs_eq by lia. apply N.mod_small. lia. Qed.

(** ** The storage that represents a ledger *)

Definition join (x y : N) : N := if (x =? 0)%N || (y =? 0)%N then 0%N else (x * 2 ^ 256 + y)%N.

Lemma join_halves id : join (id / 2 ^ 256) (id mod 2 ^ 256) = usable id.
Proof.
  unfold join, usable. case_match; [done|]. pose proof (N.div_mod id (2 ^ 256) ltac:(done)). lia.
Qed.

(** What the cells of an account hold. *)
Record fields (w : World) (L : Ledger) : Prop := {
  rep_dep a : plain a -> Z.of_N (rd w (CSlot a FD)) = deposit_of L a;
  rep_wh a : plain a -> Z.of_N (rd w (CSlot a FWH)) = withdraw_of L a;
  rep_node a : plain a -> join (rd w (CSlot a FNX)) (rd w (CSlot a FNY)) = node_of L a;
  rep_ot a : plain a -> Z.of_N (rd w (CSlot a FOT)) = online_of L a
}.

(** The depositors are listed in [l], in some order and each once. *)
Record listing (w : World) (L : Ledger) (l : list Address) : Prop := {
  rep_num : Z.of_N (rd w CNum) = Z.of_nat (length l);
  rep_item i a : l !! i = Some a -> rd w (CItem (Z.of_nat i)) = a;
  rep_nodup : NoDup l;
  rep_dom a : a ∈ l <-> is_Some (accounts L !! a);
  rep_len : Z.of_nat (length l) < 2 ^ 64
}.

(** [w] is a state of the contract in which [L] is recorded. *)
Definition R (w : World) (L : Ledger) : Prop :=
  ledger_ok L /\ GetBalance w depositAddress = held L /\ fields w L /\ exists l, listing w L l.

Lemma rd_storage w w' x : w_storage w' = w_storage w -> rd w' x = rd w x.
Proof. intros E. unfold rd. cbv [GetState world_access]. by rewrite E. Qed.

Lemma fields_storage w w' L L' :
  w_storage w' = w_storage w -> accounts L' = accounts L -> nodes L' = nodes L ->
  online L' = online L -> fields w L -> fields w' L'.
Proof.
  intros E E1 E2 E3 []. split; intros a Ha; rewrite !(rd_storage w w') by done;
    unfold deposit_of, withdraw_of, node_of, online_of in *; rewrite ?E1, ?E2, ?E3; eauto.
Qed.

Lemma fields_frame w w' L :
  (forall a f, plain a -> rd w' (CSlot a f) = rd w (CSlot a f)) -> fields w L -> fields w' L.
Proof. intros E []. split; intros a Ha; rewrite !E by done; eauto. Qed.

Lemma listing_storage w w' L L' l :
  w_storage w' = w_storage w -> accounts L' = accounts L -> listing w L l -> listing w' L' l.
Proof.
  intros E E1 []. split; try done; [by rewrite (rd_storage w w')| |by rewrite E1].
  intros i a Hi. rewrite (rd_storage w w') by done. by apply rep_item0.
Qed.

(** Read the cells of the goal through the writes below them. *)
Ltac cells_step :=
  match goal with
  | |- context [rd (wr ?w ?x ?v) ?y] =>
      rewrite (rd_wr w x y v) by (cbn; unfold in_u64; (done || lia));
      first [ rewrite (decide_False (P := x = y)) by (done || congruence)
            | rewrite (decide_True (P := x = y)) by done
            | destruct (decide (x = y)); simplify_eq ]
  end.
Ltac cells := repeat cells_step.

(** *** The list of depositors *)

Lemma insert_rep c w L l :
  self c = depositAddress -> listing w L l -> Z.of_nat (length l) + 1 < 2 ^ 64 ->
  insertDepositList c w =
    wr (wr w CNum (Z.to_N (Z.of_nat (length l) + 1))) (CItem (Z.of_nat (length l))) (CallerAddress c).
Proof.
  intros Hc Hr Hlen. unfold insertDepositList. rewrite getDepositListNum_rd by done.
  pose proof (rep_num _ _ _ Hr) as Hn. destruct (N.eqb_spec (rd w CNum) 0) as [E|E].
  - rewrite E in Hn. rewrite SetDepositListItem_wr, setDepositListNum_wr by done.
    by replace (length l) with 0%nat by lia.
  - rewrite SetDepositListItem_wr, setDepositListNum_wr by done.
    rewrite Hn, BigToHash_small by lia. unfold Uint64.
    rewrite Z.abs_eq, u64_small by (unfold in_u64; lia). done.
Qed.

Lemma find_item_rep c w l :
  self c = depositAddress -> Forall plain l -> NoDup l ->
  (forall i a, l !! i = Some a -> rd w (CItem (Z.of_nat i)) = a) ->
  forall k n, (n + k = length l)%nat ->
  find_item c w (Z.of_nat n) k =
    match list_find (.= CallerAddress c) (drop n l) with
    | Some (i, _) => Some (Z.of_nat (n + i))
    | None => None
    end.
Proof.
  intros Hc Hpl Hnd Hit. induction k as [|k IH]; intros n Hn; cbn [find_item].
  { rewrite drop_ge by lia. done. }
  destruct (lookup_lt_is_Some_2 l n ltac:(lia)) as [a Ha].
  rewrite (drop_S _ a) by done. cbn [list_find].
  assert (plain a) as Hp by by eapply Forall_lookup_1.
  rewrite getDepositListItem_rd, (Hit _ _ Ha), N.mod_small by (done || apply Hp).
  destruct (N.eqb_spec a (CallerAddress c)).
  - rewrite decide_True by done. by rewrite Nat.add_0_r.
  - rewrite decide_False by done. replace (Z.of_nat n + 1) with (Z.of_nat (S n)) by lia.
    rewrite IH by lia. destruct (list_find _ _) as [[i b]|]; cbn; [|done]. do 2 f_equal. lia.
Qed.

(** Removal moves the last depositor into the gap. *)
Lemma remove_rep c w L l i b :
  self c = depositAddress -> listing w L l -> Forall plain l ->
  l !! i = Some (CallerAddress c) -> last l = Some b ->
  removeDepositList c w =
    Ok (wr (wr w (CItem (Z.of_nat i)) b) CNum (Z.to_N (Z.of_nat (length l) - 1))).
Proof.
  intros Hc Hr Hpl Hi Hb. unfold removeDepositList. rewrite getDepositListNum_rd by done.
  pose proof (rep_num _ _ _ Hr) as Hn. pose proof (rep_len _ _ _ Hr) as Hlen.
  pose proof (lookup_lt_Some _ _ _ Hi) as Hlt.
  destruct (N.eqb_spec (rd w CNum) 0) as [E|E]; [rewrite E in Hn; lia|].
  rewrite Hn. unfold Uint64. rewrite Z.abs_eq, u64_small by (unfold in_u64; lia).
  rewrite Nat2Z.id. change (find_item c w 0) with (find_item c w (Z.of_nat 0)).
  rewrite (find_item_rep c w l Hc Hpl (rep_nodup _ _ _ Hr) (rep_item _ _ _ Hr) (length l) 0) by lia.
  rewrite drop_0.
  assert (list_find (.= CallerAddress c) l = Some (i, CallerAddress c)) as ->.
  { apply list_find_Some. split_and!; [done|done|]. intros j y Hj Hji ->.
    pose proof (NoDup_lookup _ _ _ _ (rep_nodup _ _ _ Hr) Hj Hi). lia. }
  cbn [default]. rewrite Nat.add_0_l. unfold id.
  destruct (Z.eqb_spec (Z.of_nat i) (2 ^ 64 - 1)); [lia|]. cbn [negb]. rewrite (u64_small (_ - 1)) by (unfold in_u64; lia).
  rewrite getDepositListItem_rd by done. rewrite last_lookup in Hb.
  replace (Z.of_nat (length l) - 1) with (Z.of_nat (Init.Nat.pred (length l))) by lia.
  rewrite (rep_item _ _ _ Hr _ _ Hb).
  assert (plain b) as Hpb by by eapply Forall_lookup_1.
  rewrite N.mod_small by apply Hpb.
  rewrite SetDepositListItem_wr, setDepositListNum_wr, BigToHash_small by (done || lia). done.
Qed.

(** *** The three requests on the storage *)

Lemma deposit_of_pos L a :
  ledger_ok L -> deposit_of L a = 0 <-> accounts L !! a = None.
Proof.
  intros [Hok _]. unfold deposit_of. destruct (accounts L !! a) as [x|] eqn:E; cbn; [|done].
  destruct (Hok _ _ E) as (_ & Hd & _). unfold minerThreshold, man in Hd. split; [lia|done].
Qed.

Lemma rep_plain w L l : ledger_ok L -> listing w L l -> Forall plain l.
Proof.
  intros [Hok _] Hr. apply Forall_forall. intros a [x Ha]%(rep_dom _ _ _ Hr).
  by destruct (Hok _ _ Ha).
Qed.

Lemma setNodeID_wr c w id :
  self c = depositAddress ->
  setNodeID c w id =
    if (id =? 0)%N then w
    else wr (wr w (CSlot (CallerAddress c) FNX) (id / 2 ^ 256)%N)
           (CSlot (CallerAddress c) FNY) (id mod 2 ^ 256)%N.
Proof. intros Hc. unfold setNodeID. by rewrite Hc. Qed.

Lemma addDeposit_wr c w L :
  self c = depositAddress -> plain (CallerAddress c) -> fields w L -> 0 <= value c ->
  0 <= deposit_of L (CallerAddress c) ->
  addDeposit c w =
    let d := deposit_of L (CallerAddress c) + value c in
    if 2 ^ 256 <=? d then Err errOverflow
    else Ok (wr w (CSlot (CallerAddress c) FD) (Z.to_N d)).
Proof.
  intros Hc Hp Hr Hv Hd. unfold addDeposit. rewrite Hc.
  change (GetState w depositAddress (key (CallerAddress c) sD)) with (rd w (CSlot (CallerAddress c) FD)).
  unfold Hash_Big. rewrite (rep_dep _ _ Hr) by done. cbv zeta. rewrite Z.abs_eq by lia.
  destruct (Z.leb_spec (2 ^ 256) (deposit_of L (CallerAddress c) + value c)); [done|].
  by rewrite BigToHash_small by lia.
Qed.

(** Only the cells of one account change. *)
Lemma fields_update w w' L L' a :
  fields w L -> plain a ->
  (forall b f, plain b -> b <> a -> rd w' (CSlot b f) = rd w (CSlot b f)) ->
  (forall b, b <> a -> accounts L' !! b = accounts L !! b /\ nodes L' !! b = nodes L !! b /\
     online L' !! b = online L !! b) ->
  Z.of_N (rd w' (CSlot a FD)) = deposit_of L' a ->
  Z.of_N (rd w' (CSlot a FWH)) = withdraw_of L' a ->
  join (rd w' (CSlot a FNX)) (rd w' (CSlot a FNY)) = node_of L' a ->
  Z.of_N (rd w' (CSlot a FOT)) = online_of L' a ->
  fields w' L'.
Proof.
  intros [] Hp Hs Ho Hd Hw Hnd Hot.
  split; intros b Hb; (destruct (decide (b = a)) as [->|Hba]; [done|]);
    destruct (Ho b Hba) as (E1 & E2 & E3);
    unfold deposit_of, withdraw_of, node_of, online_of in *;
    rewrite ?E1, ?E2, ?E3, ?Hs by done; eauto.
Qed.

(** No cell of the list changes. *)
Lemma listing_frame w w' L L' l :
  listing w L l -> rd w' CNum = rd w CNum -> (forall i, in_u64 i -> rd w' (CItem i) = rd w (CItem i)) ->
  (forall b, is_Some (accounts L' !! b) <-> is_Some (accounts L !! b)) -> listing w' L' l.
Proof.
  intros [] Hn Hi Hd. split; try done.
  - by rewrite Hn.
  - intros i b Hib. rewrite Hi; [by apply rep_item0|].
    pose proof (lookup_lt_Some _ _ _ Hib). unfold in_u64. lia.
  - intros b. by rewrite Hd.
Qed.

Lemma listing_insert w L L' l a :
  listing w L l -> a ∉ l -> Z.of_nat (length l) + 1 < 2 ^ 64 ->
  (forall b, is_Some (accounts L' !! b) <-> b = a \/ is_Some (accounts L !! b)) ->
  listing (wr (wr w CNum (Z.to_N (Z.of_nat (length l) + 1))) (CItem (Z.of_nat (length l))) a)
    L' (l ++ [a]).
Proof.
  intros [] Ha Hl Hd. split.
  - cells. rewrite length_app. cbn. lia.
  - intros i b Hib. pose proof (lookup_lt_Some _ _ _ Hib) as Hlt. rewrite length_app in Hlt. cbn in Hlt.
    destruct (decide (i = length l)) as [->|Hne].
    + rewrite lookup_app_r, Nat.sub_diag in Hib by lia. simplify_eq/=. by cells.
    + rewrite lookup_app_l in Hib by lia. cells. by apply rep_item0.
  - apply NoDup_app. split; [done|]. split; [|apply NoDup_singleton]. set_solver.
  - intros b. rewrite Hd, elem_of_app, list_elem_of_singleton, rep_dom0. tauto.
  - rewrite length_app. cbn. lia.
Qed.

(** The list without the entry at [i], whose place the last entry takes. *)
Definition swap_remove (i : nat) (l : list Address) : list Address :=
  match last l with
  | Some b => take (length l - 1) (<[i := b]> l)
  | None => l
  end.

Lemma swap_remove_perm i l a : l !! i = Some a -> l ≡ₚ a :: swap_remove i l.
Proof.
  intros Hi. unfold swap_remove. destruct l as [|b l _] using rev_ind; [done|].
  rewrite last_snoc, length_app. cbn [length]. rewrite Nat.add_sub.
  destruct (decide (i = length l)) as [->|Hne].
  - rewrite lookup_app_r, Nat.sub_diag in Hi by lia. simplify_eq/=.
    rewrite insert_app_r_alt, Nat.sub_diag by lia. cbn. rewrite take_app_length. by rewrite Permutation_app_comm.
  - pose proof (lookup_lt_Some _ _ _ Hi) as Hlt. rewrite length_app in Hlt. cbn in Hlt.
    rewrite lookup_app_l in Hi by lia. rewrite insert_app_l by lia.
    rewrite take_app_length' by (by rewrite length_insert).
    rewrite <- (take_drop_middle l i a Hi) at 1. rewrite insert_take_drop by lia.
    rewrite <- app_assoc. cbn. rewrite <- Permutation_middle. f_equiv.
    rewrite app_assoc. rewrite (Permutation_app_comm _ [b]). cbn. by rewrite Permutation_middle.
Qed.

Lemma listing_remove w L L' l i a b :
  listing w L l -> l !! i = Some a -> last l = Some b ->
  (forall x, is_Some (accounts L' !! x) <-> x <> a /\ is_Some (accounts L !! x)) ->
  listing (wr (wr w (CItem (Z.of_nat i)) b) CNum (Z.to_N (Z.of_nat (length l) - 1))) L' (swap_remove i l).
Proof.
  intros [] Hi Hb Hd. pose proof (swap_remove_perm i l a Hi) as Hperm.
  pose proof (Permutation_length Hperm) as Hlen. cbn in Hlen.
  pose proof (lookup_lt_Some _ _ _ Hi) as Hlt.
  assert (NoDup (a :: swap_remove i l)) as Hnd by by rewrite <- Hperm.
  apply NoDup_cons in Hnd as [Hna Hnd]. split.
  - cells. lia.
  - intros j x Hj. pose proof (lookup_lt_Some _ _ _ Hj) as Hjl. cells.
    + unfold swap_remove in Hj. rewrite Hb in Hj.
      rewrite lookup_take_lt, list_lookup_insert_eq in Hj by lia. by simplify_eq.
    + assert (i <> j) by congruence. unfold swap_remove in Hj. rewrite Hb in Hj.
      rewrite lookup_take_lt, list_lookup_insert_ne in Hj by (done || lia). by apply rep_item0.
  - done.
  - intros x. rewrite Hd, <- rep_dom0.
    assert (x ∈ l <-> x = a \/ x ∈ swap_remove i l) as ->
      by (rewrite <- elem_of_cons; by rewrite <- Hperm).
    split; [|tauto]. intros Hx. split; [|by right]. by intros ->.
  - lia.
Qed.

(** *** Money *)

Lemma total_delete m a x : m !! a = Some x -> total m = a_deposit x + total (delete a m).
Proof. intros Ha. unfold total. by rewrite <- (map_to_list_delete m a x Ha). Qed.

Lemma held_insert m a x : total (<[a := x]> m) = a_deposit x + total (delete a m).
Proof. rewrite (total_delete _ a x) by apply lookup_insert_eq. by rewrite delete_insert_eq. Qed.

Lemma total_change m a x : total (<[a := x]> m) = total m - from_option a_deposit 0 (m !! a) + a_deposit x.
Proof.
  rewrite held_insert. destruct (m !! a) as [y|] eqn:E; cbn.
  - rewrite (total_delete m a y E). lia.
  - rewrite delete_id by done. lia.
Qed.

Lemma deposit_of_nonneg L a : ledger_ok L -> 0 <= deposit_of L a.
Proof.
  intros [Hok _]. unfold deposit_of. destruct (accounts L !! a) as [x|] eqn:E; cbn; [|done].
  destruct (Hok _ _ E) as (_ & Hd & _). unfold minerThreshold, man in Hd. lia.
Qed.

(** Requests ask for at least the deposit of a miner. *)
Definition request_ok (r : request) : Prop :=
  match r with RDeposit threshold _ => minerThreshold <= threshold | _ => True end.

Lemma apply_ok L block a v r L' :
  ledger_ok L -> plain a -> 0 <= v -> 0 <= block < 2 ^ 256 -> request_ok r ->
  apply L block a v r = Some L' -> ledger_ok L'.
Proof.
  intros (Hok & Hon & Hs) Ha Hv Hb Hr. unfold owed in Hs. destruct r as [thr id| | ]; cbn [apply].
  - destruct (_ <? _); [done|]. destruct (Z.ltb_spec (deposit_of L a + v) thr); [done|].
    destruct (Z.leb_spec (2 ^ 256) (deposit_of L a + v)); intros [= <-].
    + split_and!; [done|done|]. unfold owed. cbn. lia.
    + split_and!; cbn; [|done|].
      * intros b x. destruct (decide (a = b)) as [->|].
        -- rewrite lookup_insert_eq. intros [= <-]. cbn in *. split; [done|lia].
        -- rewrite lookup_insert_ne by done. apply Hok.
      * unfold owed. cbn. rewrite total_change. unfold deposit_of. cbn [a_deposit]. lia.
  - destruct (accounts L !! a) as [x|] eqn:E; [|done]. intros [= <-]. destruct (Hok _ _ E) as (_ & Hd & _).
    split_and!; cbn; [|done|].
    + intros b y. destruct (decide (a = b)) as [->|].
      * rewrite lookup_insert_eq. intros [= <-]. cbn. split; [done|lia].
      * rewrite lookup_insert_ne by done. apply Hok.
    + unfold owed. cbn. rewrite total_change, E. cbn. lia.
  - destruct (accounts L !! a) as [x|] eqn:E; [|done]. cbn. case_match; [done|]. intros [= <-].
    split_and!; cbn.
    + intros b y [_ Hy]%lookup_delete_Some. by eapply Hok.
    + intros b y [_ Hy]%lookup_delete_Some. by eapply Hon.
    + unfold owed. cbn. rewrite (total_delete _ _ _ E) in Hs. lia.
Qed.

(** *** The contract on a request *)

Definition exec (r : request) (c : Contract) (block : Z) (w : World) : res error (list Z * World) :=
  match r with
  | RDeposit threshold id =>
      if 0 <? getWithdrawHeight c w (CallerAddress c) then Err errDeposit
      else if getDeposit c w (CallerAddress c) + value c <? threshold then Err errDeposit
      else Ok ([1], (modifyDepositState c id w).1)
  | RWithdraw => withdraw c block w
  | RRefund => refund c block w
  end.

Lemma bal_wr w x v a : GetBalance (wr w x v) a = GetBalance w a.
Proof. done. Qed.

Lemma bal_Transfer w a b v x :
  a <> b ->
  GetBalance (Transfer w a b v) x =
    GetBalance w x + (if decide (x = b) then v else 0) - (if decide (x = a) then v else 0).
Proof.
  intros Hab. unfold Transfer. cbv [AddBalance SubBalance GetBalance world_access balance_of]. cbn [w_balance].
  repeat case_decide; subst; try done;
    repeat first [rewrite lookup_insert_eq | rewrite lookup_insert_ne by done]; cbn; lia.
Qed.

Section exec.
Context (c : Contract) (block : Z) (w : World) (L : Ledger) (l : list Address).
Context (Hself : self c = depositAddress) (Hp : plain (CallerAddress c)) (Hv : 0 <= value c).
Context (Hb : 0 <= block < 2 ^ 256).
Context (HL : ledger_ok L) (Hf : fields w L) (Hl : listing w L l).

Local Abbreviation a := (CallerAddress c).

Lemma caller_dep : getDeposit c w a = deposit_of L a.
Proof. rewrite getDeposit_rd by done. by apply Hf. Qed.

Lemma caller_wh : getWithdrawHeight c w a = withdraw_of L a.
Proof. rewrite getWithdrawHeight_rd by done. by apply Hf. Qed.

(** The cells after a deposit, before the list is extended. *)
Lemma credit_fields id d n :
  0 <= d -> withdraw_of L a = 0 -> n = (if (id =? 0)%N then nodes L else <[a := usable id]> (nodes L)) ->
  fields (setNodeID c (wr w (CSlot a FD) (Z.to_N d)) id)
    (mkLedger (<[a := mkAccount d 0]> (accounts L)) n (online L) (held L + value c)).
Proof.
  intros Hd Hw ->. rewrite setNodeID_wr by done. pose proof Hf as [].
  apply (fields_update w _ L _ a); [done|done| | | | | | ].
  - intros b f Hbp Hne. destruct (id =? 0)%N; cells; done.
  - intros b Hne. cbn. rewrite lookup_insert_ne by done. split; [done|]. split; [|done].
    destruct (id =? 0)%N; [done|]. by rewrite lookup_insert_ne.
  - unfold deposit_of. cbn. rewrite lookup_insert_eq. destruct (id =? 0)%N; cells; cbn; lia.
  - unfold withdraw_of. cbn. rewrite lookup_insert_eq. destruct (id =? 0)%N; cells; cbn; by rewrite rep_wh0.
  - unfold node_of. cbn. destruct (id =? 0)%N; cells; [by apply rep_node0|].
    rewrite lookup_insert_eq. apply join_halves.
  - unfold online_of. cbn. destruct (id =? 0)%N; cells; by apply rep_ot0.
Qed.

Lemma credit_listing_frame id d : listing (setNodeID c (wr w (CSlot a FD) d) id) L l.
Proof.
  rewrite setNodeID_wr by done. apply (listing_frame w _ L); [done| | |done].
  - destruct (id =? 0)%N; cells; done.
  - intros i Hi. destruct (id =? 0)%N; cells; done.
Qed.

Lemma exec_deposit thr id :
  0 < thr -> Z.of_nat (length l) + 1 < 2 ^ 64 -> GetBalance w depositAddress = held L + value c ->
  match apply L block a (value c) (RDeposit thr id) with
  | Some L' => exists w', exec (RDeposit thr id) c block w = Ok ([1], w') /\
      w_balance w' = w_balance w /\ fields w' L' /\ held L' = held L + value c /\
      exists l', listing w' L' l'
  | None => exec (RDeposit thr id) c block w = Err errDeposit
  end.
Proof.
  intros Ht Hlen Hbal. cbn [apply exec]. rewrite caller_dep, caller_wh.
  destruct (Z.ltb_spec 0 (withdraw_of L a)) as [|Hw]; [done|].
  assert (withdraw_of L a = 0) as Hw0 by (rewrite <- caller_wh, getWithdrawHeight_rd in * by done; lia).
  destruct (Z.ltb_spec (deposit_of L a + value c) thr); [done|].
  unfold modifyDepositState. rewrite caller_dep.
  pose proof (deposit_of_nonneg L a HL). rewrite (addDeposit_wr c w L) by done. cbv zeta.
  destruct (Z.leb_spec (2 ^ 256) (deposit_of L a + value c)).
  { eexists. split; [done|]. cbn. split; [done|]. destruct Hf, Hl. split; [done|]. eauto 10 using Build_listing. }
  eexists. split; [done|]. cbn [fst]. pose proof (credit_listing_frame id (Z.to_N (deposit_of L a + value c))) as Hl2.
  destruct (Z.eqb_spec (deposit_of L a) 0) as [E|E].
  - apply deposit_of_pos in E as Hnone; [|done].
    assert (a ∉ l) as Hna by (rewrite (rep_dom _ _ _ Hl), Hnone; by intros [? ?]).
    rewrite (insert_rep c _ L l) by done. split; [by rewrite setNodeID_wr by done; destruct (id =? 0)%N|].
    split; [|split; [done|]].
    + eapply fields_frame; [|apply credit_fields; [lia|done|done]]. intros b f Hbp. by cells.
    + exists (l ++ [a]). eapply listing_insert; [done|done|done|]. intros b. cbn.
      destruct (decide (b = a)) as [->|]; [rewrite lookup_insert_eq; naive_solver|].
      rewrite lookup_insert_ne by done. naive_solver.
  - assert (is_Some (accounts L !! a)) as Hsome.
    { rewrite deposit_of_pos in E by done. by destruct (accounts L !! a). }
    split; [by rewrite setNodeID_wr by done; destruct (id =? 0)%N|].
    split; [apply credit_fields; [lia|done|done]|]. split; [done|]. exists l.
    apply (listing_frame _ _ L _ _ Hl2); [done|done|]. intros b. cbn.
    destruct (decide (b = a)) as [->|]; [by rewrite lookup_insert_eq|by rewrite lookup_insert_ne].
Qed.

Lemma exec_withdraw :
  match apply L block a (value c) RWithdraw with
  | Some L' => exists w', exec RWithdraw c block w = Ok ([1], w') /\
      w_balance w' = w_balance w /\ fields w' L' /\ held L' = held L + value c /\ listing w' L' l
  | None => exec RWithdraw c block w = Err errDeposit
  end.
Proof.
  cbn [apply exec]. unfold withdraw, modifyWithdrawState. rewrite caller_dep.
  destruct (accounts L !! a) as [x|] eqn:E; cbn [mbind option_bind].
  2: by rewrite (proj2 (deposit_of_pos L a HL) E).
  destruct (Z.eqb_spec (deposit_of L a) 0) as [E0|_]; [apply deposit_of_pos in E0; [congruence|done]|].
  eexists. split; [done|]. unfold setWithdrawHeight. rewrite Hself, BigToHash_small by done.
  change (SetState w depositAddress (key a sWH) (Z.to_N block)) with (wr w (CSlot a FWH) (Z.to_N block)).
  split; [done|]. pose proof Hf as []. split; [|split; [done|]].
  - apply (fields_update w _ L _ a); [done|done| | | | | | ].
    + intros b f Hbp Hne. cells; done.
    + intros b Hne. cbn. by rewrite lookup_insert_ne.
    + unfold deposit_of. cbn. rewrite lookup_insert_eq. cells. rewrite rep_dep0 by done.
      unfold deposit_of. by rewrite E.
    + unfold withdraw_of. cbn. rewrite lookup_insert_eq. cells. cbn. lia.
    + cells. by apply rep_node0.
    + cells. by apply rep_ot0.
  - apply (listing_frame w _ L); [done|by cells|intros; by cells|]. intros b. cbn.
    destruct (decide (b = a)) as [->|]; [by rewrite lookup_insert_eq, E|by rewrite lookup_insert_ne].
Qed.

(** What [modifyRefundState] writes before it takes the account off the list. *)
Definition cleared : World :=
  wr (wr (wr w (CSlot a FD) 0%N) (CSlot a FWH) 0%N) (CSlot a FOT) 0%N.

Lemma cleared_eq :
  SetOnlineTime c (setWithdrawHeight c (setNodeID c (setDeposit c w 0) 0%N) 0) a 0 = cleared.
Proof. unfold SetOnlineTime, setWithdrawHeight, setNodeID, setDeposit. cbn [N.eqb]. by rewrite Hself. Qed.

Lemma cleared_fields h :
  fields cleared (mkLedger (delete a (accounts L)) (nodes L) (delete a (online L)) h).
Proof.
  pose proof Hf as []. unfold cleared. apply (fields_update w _ L _ a); [done|done| | | | | | ].
  - intros b f Hbp Hne. cells; done.
  - intros b Hne. cbn. by rewrite !lookup_delete_ne.
  - unfold deposit_of. cbn. rewrite lookup_delete_eq. by cells.
  - unfold withdraw_of. cbn. rewrite lookup_delete_eq. by cells.
  - cells. by apply rep_node0.
  - unfold online_of. cbn. rewrite lookup_delete_eq. by cells.
Qed.

Lemma exec_refund :
  GetBalance w depositAddress = held L + value c ->
  match apply L block a (value c) RRefund with
  | Some L' => exists w1 w', exec RRefund c block w = Ok ([1], w') /\
      w' = Transfer w1 depositAddress a (deposit_of L a) /\ w_balance w1 = w_balance w /\
      fields w' L' /\ held L' = held L + value c - deposit_of L a /\ exists l', listing w' L' l'
  | None => exec RRefund c block w = Err errDeposit
  end.
Proof.
  intros Hbal. cbn [apply exec]. unfold refund, modifyRefundState. rewrite caller_dep, caller_wh.
  destruct (accounts L !! a) as [x|] eqn:E; cbn [mbind option_bind].
  2: by rewrite (proj2 (deposit_of_pos L a HL) E).
  assert (deposit_of L a = a_deposit x /\ withdraw_of L a = a_withdraw x) as [Ed Ew]
    by (unfold deposit_of, withdraw_of; by rewrite E).
  destruct (Z.eqb_spec (deposit_of L a) 0) as [E0|_]; [apply deposit_of_pos in E0; [congruence|done]|].
  rewrite Ew. destruct (Z.eqb_spec (a_withdraw x) 0); [done|]. cbn [orb].
  destruct (Z.leb_spec block (a_withdraw x)), (Z.ltb_spec block (a_withdraw x + 1)); try lia; [done|].
  rewrite cleared_eq.
  assert (a ∈ l) as Hin by (by apply (rep_dom _ _ _ Hl); rewrite E).
  apply list_elem_of_lookup in Hin as [i Hi].
  destruct (last l) as [b|] eqn:Hlast; [|by apply last_None in Hlast; subst].
  assert (listing cleared L l) as Hcl.
  { apply (listing_frame w _ L); [done| | |done]; unfold cleared; [by cells|intros; by cells]. }
  rewrite (remove_rep c _ L l i b) by (try done; by eapply rep_plain).
  set (w1 := wr _ CNum _). pose proof (rep_len _ _ _ Hl). pose proof (lookup_lt_Some _ _ _ Hi).
  destruct HL as (_ & _ & Hs). unfold owed in Hs. rewrite (total_delete _ _ _ E) in Hs.
  assert (0 <= total (delete a (accounts L))) as Ht.
  { apply zsum_nonneg, Forall_fmap, Forall_fmap, Forall_forall. intros [b' y] Hy. cbn.
    apply elem_of_map_to_list, lookup_delete_Some in Hy as [_ Hy].
    pose proof (deposit_of_nonneg L b' HL) as Hd. unfold deposit_of in Hd. by rewrite Hy in Hd. }
  unfold CanTransfer. change (GetBalance w1 (self c)) with (GetBalance w (self c)).
  rewrite Hself, Hbal, Ed. rewrite (proj2 (Z.leb_le _ _)) by lia. cbn [negb].
  exists w1. eexists. split; [done|]. split; [done|]. split; [done|]. split; [|split; [done|]].
  - apply (fields_storage w1 _ (mkLedger (delete a (accounts L)) (nodes L) (delete a (online L)) 0)); try done.
    apply (fields_frame cleared); [|apply cleared_fields]. intros y f Hy. subst w1. by cells.
  - exists (swap_remove i l). apply (listing_storage w1 _ (mkLedger (delete a (accounts L)) ∅ ∅ 0)); [done|done|].
    eapply listing_remove; [exact Hcl|done|done|].
    intros y. cbn. destruct (decide (y = a)) as [->|]; [rewrite lookup_delete_eq|rewrite lookup_delete_ne by done]; naive_solver.
Qed.

Lemma plain_not_contract : a <> depositAddress.
Proof. intros E. destruct Hp as [H1 _]. rewrite E in H1. by apply N.leb_le in H1. Qed.

Lemma bal_storage w' x : w_balance w' = w_balance w -> GetBalance w' x = GetBalance w x.
Proof. intros E. cbv [GetBalance world_access balance_of]. by rewrite E. Qed.

(** The contract does what the ledger says, and moves the money. *)
Lemma exec_R r :
  request_ok r -> Z.of_nat (length l) + 1 < 2 ^ 64 -> GetBalance w depositAddress = held L + value c ->
  match apply L block a (value c) r with
  | Some L' => exists w', exec r c block w = Ok ([1], w') /\ R w' L' /\
      GetBalance w' a = GetBalance w a + (held L + value c - held L') /\
      forall x, x <> a -> x <> depositAddress -> GetBalance w' x = GetBalance w x
  | None => exec r c block w = Err errDeposit
  end.
Proof.
  intros Hr Hlen Hbal. pose proof plain_not_contract as Hne.
  destruct (apply L block a (value c) r) as [L'|] eqn:E.
  - assert (ledger_ok L') as HL' by by eapply apply_ok.
    destruct r as [thr id| | ].
    + pose proof (exec_deposit thr id ltac:(unfold request_ok, minerThreshold, man in Hr; lia) Hlen Hbal) as Hx.
      rewrite E in Hx. destruct Hx as (w' & -> & Hw & Hf' & Hh & l' & Hl'). exists w'.
      split; [done|]. rewrite !bal_storage, Hh by done. unfold R. rewrite bal_storage by done.
      split; [eauto with congruence|]. split; [lia|]. intros. by rewrite bal_storage.
    + pose proof exec_withdraw as Hx. rewrite E in Hx. destruct Hx as (w' & -> & Hw & Hf' & Hh & Hl').
      exists w'. split; [done|]. rewrite !bal_storage, Hh by done. unfold R. rewrite bal_storage by done.
      split; [eauto with congruence|]. split; [lia|]. intros. by rewrite bal_storage.
    + pose proof (exec_refund Hbal) as Hx. rewrite E in Hx.
      destruct Hx as (w1 & w' & -> & Hw' & Hw & Hf' & Hh & l' & Hl'). exists w'. split; [done|].
      assert (forall x, GetBalance w' x = GetBalance w x + (if decide (x = a) then deposit_of L a else 0)
                - (if decide (x = depositAddress) then deposit_of L a else 0)) as Hb'.
      { intros x. rewrite Hw', bal_Transfer by done. by rewrite bal_storage. }
      split; [|split].
      * split; [done|]. rewrite Hb', decide_False, decide_True by done. split; [lia|eauto].
      * rewrite Hb', decide_True, decide_False by done. lia.
      * intros x H1 H2. rewrite Hb', !decide_False by done. lia.
  - destruct r as [thr id| | ].
    + pose proof (exec_deposit thr id ltac:(unfold request_ok, minerThreshold, man in Hr; lia) Hlen Hbal) as Hx.
      by rewrite E in Hx.
    + pose proof exec_withdraw as Hx. by rewrite E in Hx.
    + pose proof (exec_refund Hbal) as Hx. by rewrite E in Hx.
Qed.

End exec.

(** ** Calls *)

Section calls.
Context `{Crypto}.

(** The request an input stands for; other inputs read or are refused. *)
Definition node_arg (args : list Z) : option N :=
  if Abi.zlength args <? 4 then None
  else match Abi.UnpackAtomic Abi.BytesTy args with
       | Ok v => match Abi.Bytes v with
                 | Ok b => if Abi.zlength b =? 64 then Some (Z.to_N (Abi.be b)) else None
                 | Err _ => None
                 end
       | Err _ => None
       end.

Definition parse (input : list Z) : option request :=
  if Abi.zlength input <? 4 then None
  else
    let id := take 4 input in
    let args := drop 4 input in
    if bool_decide (id = method_id sig_valiDeposit) then RDeposit validatorThreshold <$> node_arg args
    else if bool_decide (id = method_id sig_minerDeposit) then RDeposit minerThreshold <$> node_arg args
    else if bool_decide (id = method_id sig_withdraw) then Some RWithdraw
    else if bool_decide (id = method_id sig_refund) then Some RRefund
    else None.

Lemma deposit_parse args c thr block w :
  match RDeposit thr <$> node_arg args with
  | Some r => deposit args c thr w = exec r c block w
  | None => exists e, deposit args c thr w = Err e
  end.
Proof.
  unfold deposit, node_arg, bytes_value. destruct (_ <? 4); [by eexists|].
  destruct (Abi.UnpackAtomic _ _) as [v|]; [|by eexists].
  destruct (Abi.Bytes v) as [b|]; [|by eexists]. destruct (_ =? 64); [done|by eexists].
Qed.

Lemma Run_parse input c block w :
  match parse input with
  | Some r => Run input c block w = exec r c block w
  | None => forall ret w', Run input c block w = Ok (ret, w') -> w' = w
  end.
Proof.
  unfold Run, parse. destruct (_ <? 4); [done|]. cbv zeta.
  set (id := take 4 input). set (args := drop 4 input). case_bool_decide.
  { pose proof (deposit_parse args c validatorThreshold block w) as Hd.
    destruct (RDeposit _ <$> _); [done|]. destruct Hd as [e ->]. done. }
  case_bool_decide.
  { pose proof (deposit_parse args c minerThreshold block w) as Hd.
    destruct (RDeposit _ <$> _); [done|]. destruct Hd as [e ->]. done. }
  case_bool_decide; [done|]. case_bool_decide; [done|].
  case_bool_decide; [by destruct (getDepositList c w); intros ?? [= _ <-]|].
  case_bool_decide; [by destruct (getDepositInfo _ c w); intros ?? [= _ <-]|]. done.
Qed.

Lemma parse_ok input r : parse input = Some r -> request_ok r.
Proof.
  unfold parse. intros Hp. assert (minerThreshold <= validatorThreshold) by by vm_compute.
  repeat case_match; simplify_eq; try done; by destruct (node_arg _); simplify_eq/=.
Qed.

Lemma parse_long input r : parse input = Some r -> RequiredGas input = 40000.
Proof. unfold parse, RequiredGas. by destruct (_ <? 4). Qed.

Lemma listing_perm w L l : listing w L l -> l ≡ₚ (map_to_list (accounts L)).*1.
Proof.
  intros []. apply NoDup_Permutation; [done|apply NoDup_fst_map_to_list|]. intros a.
  rewrite rep_dom0, list_elem_of_fmap. split.
  - intros [x Hx]. exists (a, x). split; [done|]. by apply elem_of_map_to_list.
  - intros ([b x] & -> & Hx). apply elem_of_map_to_list in Hx. by exists x.
Qed.

Lemma listing_size w L l : listing w L l -> length l = size (accounts L).
Proof. intros Hl. rewrite (listing_perm _ _ _ Hl), length_fmap. apply length_map_to_list. Qed.

(** The money that comes with a call. *)
Lemma Transfer_in w L caller v :
  R w L -> plain caller -> 0 <= v ->
  let w' := Transfer w caller depositAddress v in
  GetBalance w' depositAddress = held L + v /\ GetBalance w' caller = GetBalance w caller - v /\
  (forall x, x <> caller -> x <> depositAddress -> GetBalance w' x = GetBalance w x) /\
  fields w' L /\ exists l, listing w' L l.
Proof.
  intros (HL & Hh & Hf & l & Hl) Hp Hv. cbv zeta.
  assert (caller <> depositAddress) as Hne.
  { intros ->. destruct Hp as [Hp _]. by apply N.leb_le in Hp. }
  split_and!.
  - rewrite bal_Transfer, decide_True, decide_False by done. lia.
  - rewrite bal_Transfer, decide_False, decide_True by done. lia.
  - intros. rewrite bal_Transfer, !decide_False by done. lia.
  - by apply (fields_storage w _ L).
  - exists l. by apply (listing_storage w _ L).
Qed.

(** Room for one more depositor. *)
Definition room (L : Ledger) : Prop := Z.of_nat (size (accounts L)) + 1 < 2 ^ 64.

Definition height_ok (block : Z) : Prop := 0 <= block < 2 ^ 256.

Lemma Call_apply depth block caller input gas v w L r :
  R w L -> room L -> plain caller -> 0 <= v <= GetBalance w caller -> height_ok block ->
  depth <= CallCreateDepth -> 40000 <= gas -> parse input = Some r ->
  let o := Call depth block caller input gas v w in
  match apply L block caller v r with
  | Some L' =>
      o_err o = None /\ o_ret o = [1] /\ o_gas o = gas - 40000 /\ R (o_world o) L' /\
      GetBalance (o_world o) caller = GetBalance w caller + held L - held L' /\
      (forall x, x <> caller -> x <> depositAddress -> GetBalance (o_world o) x = GetBalance w x)
  | None => o_err o = Some errDeposit /\ o_world o = w
  end.
Proof.
  intros HR Hroom Hp Hv Hb Hd Hg Hr. cbv zeta. unfold Call.
  rewrite (proj2 (Z.ltb_ge _ _)) by done. unfold CanTransfer. rewrite (proj2 (Z.leb_le _ _)) by lia.
  cbn [negb]. set (c := mkContract caller depositAddress v gas). unfold RunPrecompiledContract.
  rewrite (parse_long input r Hr). change (Gas c) with gas. rewrite (proj2 (Z.ltb_ge _ _)) by lia.
  pose proof (Run_parse input c block (Transfer w caller depositAddress v)) as Hrun. rewrite Hr in Hrun.
  rewrite Hrun. destruct (Transfer_in w L caller v HR Hp ltac:(lia)) as (Hbal & Hc & Hx & Hf & l & Hl).
  assert (Z.of_nat (length l) + 1 < 2 ^ 64) as Hlen by (rewrite (listing_size _ _ _ Hl); exact Hroom).
  pose proof (exec_R c block _ L l eq_refl Hp (proj1 Hv) Hb (proj1 HR) Hf Hl r
                (parse_ok _ _ Hr) Hlen Hbal) as He.
  cbn [CallerAddress value c] in He. destruct (apply L block caller v r) as [L'|].
  - destruct He as (w' & -> & HR' & Hbc & Hbx). cbn. rewrite (parse_long input r Hr).
    split_and!; try done; [lia|]. intros x H1 H2. rewrite Hbx by done. by apply Hx.
  - by rewrite He.
Qed.

(** C5: The storage of the deposit contract implements the ledger.  A call with
    enough gas and money, by an account that has one of its first ten bytes set,
    succeeds exactly when the ledger allows the request (a first deposit or an
    addition that reaches the threshold and no pending withdrawal; an announced
    withdrawal; a refund after the announced height).  It then leaves the storage
    of the new ledger, moves exactly the difference of the money held to or from
    the caller, and touches no other balance.  A refused call changes nothing. *)
Theorem Call_refines_ledger depth block caller input gas v w L r :
  R w L -> room L -> plain caller -> 0 <= v <= GetBalance w caller -> height_ok block ->
  depth <= CallCreateDepth -> 40000 <= gas -> parse input = Some r ->
  let o := Call depth block caller input gas v w in
  match apply L block caller v r with
  | Some L' =>
      o_err o = None /\ o_ret o = [1] /\ o_gas o = gas - 40000 /\ R (o_world o) L' /\
      GetBalance (o_world o) caller = GetBalance w caller + held L - held L' /\
      (forall x, x <> caller -> x <> depositAddress -> GetBalance (o_world o) x = GetBalance w x)
  | None => o_err o = Some errDeposit /\ o_world o = w
  end.
Proof. apply Call_apply. Qed.

(** ** Everything that can happen to the contract's account *)

(** Code that runs elsewhere does not write the contract's storage and does not
    take its money: nobody has a key of address 10. *)
Definition foreign (w w' : World) : Prop :=
  (forall k, GetState w' depositAddress k = GetState w depositAddress k) /\
  GetBalance w depositAddress <= GetBalance w' depositAddress.

(** Only the storage of [s] changes. *)
Definition only (s : Address) (w w' : World) : Prop :=
  w_balance w' = w_balance w /\ forall a k, a <> s -> GetState w' a k = GetState w a k.

#[local] Instance only_preorder s : PreOrder (only s).
Proof.
  split; [done|]. intros w1 w2 w3 [E1 H1] [E2 H2]. split; [congruence|].
  intros a k Ha. by rewrite H2, H1.
Qed.

Lemma only_SetState s w k v : only s w (SetState w s k v).
Proof.
  split; [done|]. intros a k' Ha. cbv [GetState SetState world_access]. cbn [w_storage].
  by rewrite lookup_insert_ne by congruence.
Qed.

Lemma only_modifyDepositState c id w : only (self c) w (modifyDepositState c id w).1.
Proof.
  unfold modifyDepositState, addDeposit. case_match eqn:E; [|done]. case_match; simplify_eq. cbn [fst].
  assert (forall w, only (self c) w (setNodeID c w id)) as Hn.
  { intros u. unfold setNodeID. case_match; [done|]. etrans; apply only_SetState. }
  etrans; [apply only_SetState|]. etrans; [apply Hn|]. case_match; [|done].
  unfold insertDepositList. destruct (getDepositListNum _ _); etrans; apply only_SetState.
Qed.

Lemma only_modifyRefundState c block w v w' :
  modifyRefundState c block w = Ok (v, w') -> only (self c) w w' /\ 0 <= v.
Proof.
  unfold modifyRefundState. case_match; [done|]. case_match; [done|]. case_match; [done|].
  assert (forall u, only (self c) u match removeDepositList c u with Ok w' => w' | Err _ => u end) as Hr.
  { intros u. unfold removeDepositList. repeat case_match; simplify_eq; try done. etrans; apply only_SetState. }
  cbv zeta. set (u := SetOnlineTime c _ _ 0).
  assert (only (self c) w u) as Hu.
  { etrans; [|apply only_SetState]. etrans; [|apply only_SetState]. apply only_SetState. }
  clearbody u. intros [= <- <-]. split; [by etrans; [apply Hu|apply Hr]|].
  unfold getDeposit, Hash_Big. cbv zeta. case_match; lia.
Qed.

Lemma Run_foreign input c block w ret w' :
  self c <> depositAddress -> Run input c block w = Ok (ret, w') -> foreign w w'.
Proof.
  intros Hs. pose proof (Run_parse input c block w) as Hp.
  assert (forall u, only (self c) w u -> foreign w u) as Ho.
  { intros u [Hb Hk]. split; [intros; by rewrite Hk|]. cbv [GetBalance world_access balance_of]. by rewrite Hb. }
  destruct (parse input) as [r|]; [|by intros ->%Hp]. rewrite Hp. destruct r as [thr id| | ]; cbn [exec].
  - case_match; [done|]. case_match; [done|]. intros [= _ <-]. apply Ho, only_modifyDepositState.
  - unfold withdraw, modifyWithdrawState. repeat case_match; intros; simplify_eq. apply Ho, only_SetState.
  - unfold refund. destruct (modifyRefundState c block w) as [[v u]|] eqn:E; [|done].
    apply only_modifyRefundState in E as [Hu Hv]. case_match; [done|]. intros [= _ <-].
    destruct (Ho u Hu) as [Hk Hb]. split; [done|].
    unfold Transfer in *. cbv [AddBalance SubBalance GetBalance world_access balance_of] in *. cbn [w_balance].
    destruct (decide (CallerAddress c = depositAddress)) as [->|];
      repeat first [rewrite lookup_insert_eq | rewrite lookup_insert_ne by congruence]; cbn; lia.
Qed.

(** Before the first call: no storage, and no debt. *)
Definition fresh (w : World) : Prop :=
  (forall k, GetState w depositAddress k = 0%N) /\ 0 <= GetBalance w depositAddress.

(** The account has no code and no nonce, so without money it is removed with
    its storage when a transaction ends ([SClear]). *)
Inductive step (w : World) : World -> Prop :=
| SCall depth block caller input gas v :
    plain caller -> 0 <= v -> height_ok block -> step w (o_world (Call depth block caller input gas v w))
| SStaticCall depth block caller input gas :
    plain caller -> height_ok block -> step w (o_world (StaticCall depth block caller input gas w))
| SCallCode depth block caller input gas v :
    plain caller -> step w (o_world (CallCode depth block caller input gas v w))
| SDelegateCall depth block caller parent input gas v :
    plain caller -> step w (o_world (DelegateCall depth block caller parent input gas v w))
| SOnlineTime a ot w' :
    plain a -> 0 <= ot -> AddOnlineTime (reader 0) w a ot = Ok w' -> step w w'
| SOther w' : foreign w w' -> step w w'
| SClear w' : GetBalance w depositAddress = 0 -> fresh w' -> step w w'.

Inductive run : nat -> World -> World -> Prop :=
| run_nil w : run 0 w w
| run_snoc n w1 w2 w3 : run n w1 w2 -> step w2 w3 -> run (S n) w1 w3.

Lemma apply_size L block a v r L' :
  apply L block a v r = Some L' -> (size (accounts L') <= size (accounts L) + 1)%nat.
Proof.
  assert (forall x, size (<[a := x]> (accounts L)) <= size (accounts L) + 1)%nat as Hi.
  { intros x. rewrite map_size_insert. case_match; unfold id; lia. }
  destruct r as [thr id| | ]; cbn [apply].
  - repeat case_match; intros; simplify_eq/=; (lia || apply Hi).
  - destruct (accounts L !! a); [|done]. intros [= <-]. apply Hi.
  - destruct (accounts L !! a); [|done]. cbn. case_match; [done|]. intros [= <-]. cbn.
    rewrite map_size_delete. case_match; unfold id; lia.
Qed.

Lemma R_held w w' L v :
  R w L -> 0 <= v -> GetBalance w' depositAddress = held L + v ->
  (exists l, listing w' L l) -> fields w' L -> R w' (mkLedger (accounts L) (nodes L) (online L) (held L + v)).
Proof.
  intros ((H1 & H2 & H3) & _) Hv Hb [l Hl] Hf. split; [|split; [done|split]].
  - split; [done|]. split; [done|]. unfold owed in *. cbn. lia.
  - by apply (fields_storage w' _ L).
  - exists l. by apply (listing_storage w' _ L).
Qed.

Lemma finish_R c block input snapshot w L :
  R snapshot L -> room L -> self c = depositAddress -> plain (CallerAddress c) -> 0 <= value c ->
  height_ok block -> GetBalance w depositAddress = held L + value c -> fields w L ->
  (exists l, listing w L l) ->
  exists L', R (o_world (finish snapshot input c (RunPrecompiledContract input c block w))) L' /\
    (size (accounts L') <= size (accounts L) + 1)%nat.
Proof.
  intros HR Hroom Hs Hp Hv Hb Hbal Hf [l Hl]. unfold RunPrecompiledContract.
  assert (exists L', R snapshot L' /\ (size (accounts L') <= size (accounts L) + 1)%nat) as Hsame
    by (exists L; split; [done|lia]).
  case_match; [done|]. pose proof (Run_parse input c block w) as Hrun.
  destruct (parse input) as [r|] eqn:Er.
  - rewrite Hrun.
    assert (Z.of_nat (length l) + 1 < 2 ^ 64) as Hlen by (rewrite (listing_size _ _ _ Hl); exact Hroom).
    pose proof (exec_R c block w L l Hs Hp Hv Hb (proj1 HR) Hf Hl r (parse_ok _ _ Er) Hlen Hbal) as He.
    destruct (apply L block (CallerAddress c) (value c) r) as [L'|] eqn:Ea.
    + destruct He as (w' & -> & HR' & _). exists L'. split; [done|]. by eapply apply_size.
    + by rewrite He.
  - destruct (Run input c block w) as [[ret w']|] eqn:E; [|done].
    rewrite (Hrun _ _ eq_refl). cbn [finish o_world].
    exists (mkLedger (accounts L) (nodes L) (online L) (held L + value c)). split; [|cbn; lia].
    eapply R_held; eauto.
Qed.

Lemma foreign_R w w' L : R w L -> foreign w w' -> exists L', R w' L' /\ accounts L' = accounts L.
Proof.
  intros HR [Hk Hb]. pose proof HR as (_ & Hh & Hf & l & Hl).
  exists (mkLedger (accounts L) (nodes L) (online L) (held L + (GetBalance w' depositAddress - held L))).
  split; [|done]. assert (forall x, rd w' x = rd w x) as Hrd by (intros; apply Hk).
  eapply R_held; [done|lia|lia| |].
  - exists l. apply (listing_frame w _ L); auto.
  - apply (fields_frame w); auto.
Qed.

Lemma online_R w a ot w' L :
  R w L -> plain a -> 0 <= ot -> AddOnlineTime (reader 0) w a ot = Ok w' ->
  R w' (mkLedger (accounts L) (nodes L) (<[a := online_of L a + ot]> (online L)) (held L)).
Proof.
  intros (HL & Hh & Hf & l & Hl) Hp Hot. unfold AddOnlineTime.
  change (GetState w (self (reader 0)) (key a sOT)) with (rd w (CSlot a FOT)).
  unfold Hash_Big. rewrite (rep_ot _ _ Hf) by done. cbv zeta.
  assert (0 <= online_of L a) as Ho by (rewrite <- (rep_ot _ _ Hf) by done; lia).
  rewrite Z.abs_eq by lia. destruct (Z.leb_spec (2 ^ 256) (online_of L a + ot)); [done|].
  rewrite BigToHash_small by lia. intros E.
  assert (w' = wr w (CSlot a FOT) (Z.to_N (online_of L a + ot))) as ->
    by (change (Ok (E := error) (wr w (CSlot a FOT) (Z.to_N (online_of L a + ot))) = Ok w') in E; congruence).
  clear E.
  split; [|split; [done|split]].
  - destruct HL as (H1 & H2 & H3). split; [done|]. split; [|done]. cbn. intros b o.
    destruct (decide (a = b)) as [->|]; [rewrite lookup_insert_eq; intros [= <-]; lia|].
    rewrite lookup_insert_ne by done. apply H2.
  - pose proof Hf as []. apply (fields_update w _ L _ a); [done|done| | | | | | ].
    + intros b f Hb Hne. by cells.
    + intros b Hne. cbn. by rewrite lookup_insert_ne.
    + cells. by apply rep_dep0.
    + cells. by apply rep_wh0.
    + cells. by apply rep_node0.
    + cells. unfold online_of in *. cbn. rewrite lookup_insert_eq. cbn. lia.
  - exists l. apply (listing_frame w _ L); [done|by cells|intros; by cells|done].
Qed.

Lemma fresh_R w : fresh w -> R w (mkLedger ∅ ∅ ∅ (GetBalance w depositAddress)).
Proof.
  intros [Hk Hb]. assert (forall x, rd w x = 0%N) as Hrd by (intros; apply Hk).
  split; [|split; [done|split]].
  - split; [|split]; [done|done|]. unfold owed, total. cbn. by rewrite map_to_list_empty.
  - split; intros a Ha; rewrite ?Hrd; done.
  - exists []. split; rewrite ?Hrd; try done; [constructor|]. intros a. cbn. rewrite lookup_empty.
    split; [by intros ?%elem_of_nil|by intros []].
Qed.

Lemma step_R w w' L :
  R w L -> room L -> step w w' ->
  exists L', R w' L' /\ (size (accounts L') <= size (accounts L) + 1)%nat.
Proof.
  intros HR Hroom Hstep.
  assert (exists L', R w L' /\ (size (accounts L') <= size (accounts L) + 1)%nat) as Hsame
    by (exists L; split; [done|lia]).
  assert (forall u, foreign w u -> exists L', R u L' /\ (size (accounts L') <= size (accounts L) + 1)%nat) as Hfor.
  { intros u Hu. destruct (foreign_R w u L HR Hu) as (L' & HL' & E). exists L'. rewrite E. split; [done|lia]. }
  assert (forall c block input, self c <> depositAddress ->
    exists L', R (o_world (finish w input c (RunPrecompiledContract input c block w))) L' /\
      (size (accounts L') <= size (accounts L) + 1)%nat) as Helse.
  { intros c block input Hs. unfold RunPrecompiledContract. case_match; [done|].
    destruct (Run input c block w) as [[ret u]|] eqn:E; [|done]. apply Hfor. by eapply Run_foreign. }
  assert (forall a, plain a -> a <> depositAddress) as Hne.
  { intros a [Ha _] ->. by apply N.leb_le in Ha. }
  destruct Hstep as [depth block caller input gas v Hp Hv Hb|depth block caller input gas Hp Hb
                    |depth block caller input gas v Hp|depth block caller parent input gas v Hp
                    |a ot w' Hp Hot E|w' Hf|w' _ Hf].
  - unfold Call. case_match; [done|]. case_match; [done|].
    destruct (Transfer_in w L caller v HR Hp Hv) as (Hbal & _ & _ & Hf & Hl). by apply finish_R.
  - unfold StaticCall. case_match; [done|]. destruct HR as (? & Hh & Hf & Hl).
    apply finish_R; try done. cbn. lia.
  - unfold CallCode. case_match; [done|]. case_match; [done|]. apply Helse. by apply Hne.
  - unfold DelegateCall. case_match; [done|]. apply Helse. by apply Hne.
  - eexists. split; [by eapply online_R|]. cbn. lia.
  - by apply Hfor.
  - eexists. split; [by apply fresh_R|]. cbn. rewrite map_size_empty. lia.
Qed.

Lemma run_R n w0 w :
  fresh w0 -> run n w0 w -> Z.of_nat n + 1 < 2 ^ 64 ->
  exists L, R w L /\ (size (accounts L) <= n)%nat.
Proof.
  intros [Hk Hb] Hrun. induction Hrun as [w|n w1 w2 w3 Hrun IH Hstep]; intros Hn.
  - eexists. split; [by apply fresh_R|done].
  - destruct (IH Hk Hb ltac:(lia)) as (L & HL & Hs).
    destruct (step_R w2 w3 L HL) as (L' & HL' & Hs'); [unfold room; lia|done|]. exists L'. split; [done|lia].
Qed.

(** ** What the readers see *)

Section readers.
Context (c : Contract) (Hself : self c = depositAddress) (w : World) (L : Ledger) (HR : R w L).

Lemma reader_dep a : plain a -> getDeposit c w a = deposit_of L a.
Proof. intros Hp. rewrite getDeposit_rd by done. by apply HR. Qed.

Lemma reader_wh a : plain a -> getWithdrawHeight c w a = withdraw_of L a.
Proof. intros Hp. rewrite getWithdrawHeight_rd by done. by apply HR. Qed.

Lemma listed_rep l : listing w L l -> listed c w = l.
Proof.
  intros Hl. pose proof (rep_plain w L l (proj1 HR) Hl) as Hpl. destruct Hl.
  unfold listed. rewrite Hself. change (GetState w depositAddress _) with (rd w CNum).
  unfold Hash_Big, Uint64. rewrite rep_num0, Z.abs_eq, u64_small, Nat2Z.id by (unfold in_u64; lia).
  apply list_eq. intros i. rewrite list_lookup_fmap. destruct (decide (i < length l)%nat) as [Hi|Hi].
  - destruct (lookup_lt_is_Some_2 l i Hi) as [a Ha]. rewrite lookup_seq_lt by done. cbn.
    rewrite getDepositListItem_rd, (rep_item0 _ _ Ha), Ha by done. f_equal. apply N.mod_small.
    by apply (Forall_lookup_1 _ _ _ _ Hpl Ha).
  - rewrite lookup_seq_ge, lookup_ge_None_2 by lia. done.
Qed.

(** Which depositors a list is about. *)
Definition active (P : Z -> Prop) (a : Address) : Prop :=
  getWithdrawHeight c w a = 0 /\ P (getDeposit c w a).

Lemma listed_facts :
  NoDup (listed c w) /\ Forall plain (listed c w) /\
  (forall a, plain a -> a ∈ listed c w <-> getDeposit c w a <> 0) /\
  (forall a, a ∈ listed c w -> minerThreshold <= getDeposit c w a).
Proof.
  pose proof HR as (HL & _ & _ & l & Hl). rewrite (listed_rep l Hl).
  pose proof (rep_plain w L l HL Hl) as Hpl. split; [by apply Hl|]. split; [done|]. split.
  - intros a Ha. rewrite reader_dep, (rep_dom _ _ _ Hl), deposit_of_pos by done.
    by destruct (accounts L !! a); split; try done; intros [].
  - intros a Ha. rewrite reader_dep by exact (proj1 (Forall_forall _ _) Hpl _ Ha).
    apply (rep_dom _ _ _ Hl) in Ha as [x Hx]. unfold deposit_of. rewrite Hx. cbn.
    destruct HL as [HL _]. destruct (HL _ _ Hx) as (_ & ? & _). lia.
Qed.

Lemma owed_listed : zsum (getDeposit c w <$> listed c w) = owed L.
Proof.
  pose proof HR as (HL & _ & _ & l & Hl). rewrite (listed_rep l Hl).
  assert (getDeposit c w <$> l = deposit_of L <$> l) as ->.
  { apply list_fmap_ext. intros i a Ha. apply reader_dep. eapply Forall_lookup_1; [|done]. by eapply rep_plain. }
  unfold owed, total. rewrite (listing_perm w L l Hl), <- !list_fmap_compose. f_equal.
  apply list_fmap_ext. intros i [a x] Ha%list_elem_of_lookup_2. cbn.
  apply elem_of_map_to_list in Ha. unfold deposit_of. by rewrite Ha.
Qed.

(** A reader that keeps the details of the active depositors lists exactly them. *)
Lemma omap_details (P : Z -> Prop) `{!forall x, Decision (P x)} f l :
  Forall (fun a => getDeposit c w a <> 0 /\
    f a = match getDepositDetail a c w with
          | Ok detail => if sign_zero (dd_WithdrawH detail) && bool_decide (P (default 0 (dd_Deposit detail)))
                         then Some detail else None
          | Err _ => None
          end) l ->
  map dd_Address (omap f l) = filter (active P) l.
Proof.
  induction 1 as [|a l [Hd Hf] Hl IH]; [done|]. cbn [omap list_omap]. rewrite Hf.
  unfold getDepositDetail. rewrite (proj2 (Z.eqb_neq _ _)) by done. cbn [dd_WithdrawH dd_Deposit sign_zero default].
  assert (match getWithdrawHeight c w a with 0 => true | _ => false end = (getWithdrawHeight c w a =? 0)) as ->
    by by destruct (getWithdrawHeight c w a).
  rewrite filter_cons. unfold id. case_decide as Ha.
  - destruct Ha as [-> HP]. rewrite bool_decide_true by done. cbn. f_equal. exact IH.
  - destruct (Z.eqb_spec (getWithdrawHeight c w a) 0); [|exact IH].
    rewrite bool_decide_false by (intros ?; by apply Ha). exact IH.
Qed.

Lemma validator_accounts :
  map dd_Address (getValidatorDepositList c w) = filter (active (fun d => validatorThreshold <= d)) (listed c w).
Proof.
  apply (omap_details (fun d => validatorThreshold <= d)). apply Forall_forall. intros a Ha.
  destruct listed_facts as (_ & Hp & Hin & _). split; [apply Hin; [exact (proj1 (Forall_forall _ _) Hp _ Ha)|done]|].
  destruct (getDepositDetail a c w); [|done]. case_bool_decide; decide_cmp; done.
Qed.

Lemma miner_accounts :
  map dd_Address (getMinerDepositList c w) = filter (active (fun d => d < validatorThreshold)) (listed c w).
Proof.
  etrans; [eapply (omap_details (fun d => d < validatorThreshold))|by apply list_filter_iff].
  apply Forall_forall. intros a Ha.
  destruct listed_facts as (_ & Hp & Hin & _). split; [apply Hin; [exact (proj1 (Forall_forall _ _) Hp _ Ha)|done]|].
  destruct (getDepositDetail a c w); [|done]. case_bool_decide; decide_cmp; done.
Qed.

(** The answers of the contract to its two queries, as a client decodes them. *)
Lemma getDepositList_decodes :
  20 * Z.of_nat (length (listed c w)) <= maxAlloc ->
  exists out, getDepositList c w = Ok out /\
    (Abi.zlength out < 2 ^ 63 ->
     Abi.UnpackValues [Abi.SliceTy Abi.AddressTy] out =
     Ok [Abi.Slice Abi.KArray ((fun a => Abi.byte_array (address_bytes a)) <$> listed c w)]).
Proof.
  intros Hfit. destruct (Abi.UnpackValues_Pack_fits [Abi.SliceTy Abi.AddressTy]
    [Abi.Slice Abi.KArray ((fun a => Abi.byte_array (address_bytes a)) <$> listed c w)]) as (out & E & Hu).
  - constructor; [|constructor]. cbn [Abi.fits]. eexists. split; [done|]. split; [done|].
    apply Forall_fmap, Forall_true. intros a. exists (address_bytes a). split; [done|].
    unfold Abi.zlength, address_bytes. by rewrite Rlp.be_bytes_length.
  - exists out. split; [|done]. unfold getDepositList. rewrite (proj2 (Z.ltb_ge _ _)); [by rewrite E|].
    unfold listed in Hfit. rewrite length_fmap, length_seq, Z2Nat.id in Hfit; [done|apply u64_range].
Qed.

Lemma getDepositInfo_decodes a :
  plain a -> getDeposit c w a <> 0 ->
  exists arg out, Abi.Pack [Abi.AddressTy] [Abi.byte_array (address_bytes a)] = Ok arg /\
    getDepositInfo arg c w = Ok out /\
    (Abi.zlength out < 2 ^ 63 ->
     Abi.UnpackValues [Abi.UintTy 256; Abi.BytesTy; Abi.UintTy 256] out =
     Ok [Abi.Big (getDeposit c w a);
         Abi.byte_slice (Rlp.be_bytes 64 (Z.of_N (getNodeID c w a)));
         Abi.Big (getWithdrawHeight c w a)]).
Proof.
  intros Hp Hd. assert (Abi.zlength (address_bytes a) = 20) as Hl
    by (unfold Abi.zlength, address_bytes; by rewrite Rlp.be_bytes_length).
  destruct (Abi.UnpackValues_Pack_fits [Abi.AddressTy] [Abi.byte_array (address_bytes a)]) as (arg & Ea & Hua).
  { constructor; [|constructor]. by exists (address_bytes a). }
  destruct (Abi.UnpackValues_Pack_fits [Abi.UintTy 256; Abi.BytesTy; Abi.UintTy 256]
    [Abi.Big (getDeposit c w a); Abi.byte_slice (Rlp.be_bytes 64 (Z.of_N (getNodeID c w a)));
     Abi.Big (getWithdrawHeight c w a)]) as (out & Eo & Huo).
  { rewrite reader_dep, reader_wh by done. destruct HR as ((Hok & _) & _). unfold deposit_of, withdraw_of.
    constructor; [|constructor; [by eexists|constructor; [|constructor]]]; (split; [done|]);
      (destruct (accounts L !! a) as [x|] eqn:E; cbn; [destruct (Hok _ _ E) as (_ & Hx & Hy);
        unfold minerThreshold, man in Hx; lia|done]). }
  exists arg, out. split; [done|].
  assert (Abi.zlength arg = 32) as Harg.
  { destruct (Abi.pack_word_read Abi.AddressTy (Abi.byte_array (address_bytes a))) as (wd & Ew & Hw & _);
      [by exists (address_bytes a)|done|].
    unfold Abi.Pack in Ea. cbn [length Nat.eqb negb zip zip_with Abi.Pack_loop] in Ea. rewrite Ew in Ea.
    cbn [Abi.requiresLengthPrefix Abi.Pack_loop app] in Ea. rewrite app_nil_r in Ea. congruence. }
  split; [|done]. unfold getDepositInfo, Abi.UnpackAtomic. rewrite Hua by lia.
  unfold bytes_value. rewrite Abi.Bytes_byte_array.
  assert (Z.to_N (Abi.be (address_bytes a)) = a) as ->.
  { unfold Abi.be, address_bytes. rewrite Rlp.be_bytes_length, <- (app_nil_r (Rlp.be_bytes _ _)).
    rewrite Rlp.read_be_bytes by (destruct Hp; lia). lia. }
  rewrite (proj2 (Z.eqb_neq _ _)) by done. by rewrite Eo.
Qed.

End readers.

(** C22: Every depositor is on the list exactly once.  In every state that calls
    of any kind, additions of online time and the rest of the chain can lead to
    (fewer than 2^64 - 1 of them), the list of the contract has no duplicates, an
    account is on it exactly if its deposit is not zero, every deposit on it is at
    least that of a miner, and the contract holds at least the sum of all
    deposits, so its account is never removed as empty while there are any. *)
Theorem depositors_listed_once n w0 w :
  fresh w0 -> run n w0 w -> Z.of_nat n + 1 < 2 ^ 64 ->
  let c := reader 0 in
  NoDup (listed c w) /\ Forall plain (listed c w) /\
  (forall a, plain a -> a ∈ listed c w <-> getDeposit c w a <> 0) /\
  (forall a, a ∈ listed c w -> minerThreshold <= getDeposit c w a) /\
  zsum (getDeposit c w <$> listed c w) <= GetBalance w depositAddress.
Proof.
  intros H0 Hrun Hn. destruct (run_R n w0 w H0 Hrun Hn) as (L & HR & _). cbv zeta.
  destruct (listed_facts (reader 0) eq_refl w L HR) as (? & ? & ? & ?). split_and!; try done.
  rewrite (owed_listed (reader 0) eq_refl w L HR). destruct HR as ((_ & _ & Hs) & -> & _). done.
Qed.

(** C21: A deposit can always be taken back.  In every reachable state, a
    depositor that has announced its withdrawal gets exactly its deposit with one
    call at any later height, whatever else happened to the contract: the
    transfer never lacks the money.  Afterwards it has no deposit and is not on
    the list. *)
Theorem withdrawn_deposit_refundable n w0 w depth block a input gas :
  fresh w0 -> run n w0 w -> Z.of_nat n + 1 < 2 ^ 64 -> plain a ->
  let c := reader 0 in
  getDeposit c w a <> 0 -> 0 < getWithdrawHeight c w a < block -> height_ok block ->
  depth <= CallCreateDepth -> 40000 <= gas -> parse input = Some RRefund -> 0 <= GetBalance w a ->
  let o := Call depth block a input gas 0 w in
  o_err o = None /\ GetBalance (o_world o) a = GetBalance w a + getDeposit c w a /\
  getDeposit c (o_world o) a = 0 /\ a ∉ listed c (o_world o).
Proof.
  intros H0 Hrun Hn Hp c Hd Hw Hb Hdp Hg Hin Hbal.
  destruct (run_R n w0 w H0 Hrun Hn) as (L & HR & Hs).
  rewrite (reader_dep c eq_refl w L HR), (reader_wh c eq_refl w L HR) in * by done.
  rewrite deposit_of_pos in Hd by apply HR. destruct (accounts L !! a) as [x|] eqn:E; [|done].
  assert (withdraw_of L a = a_withdraw x /\ deposit_of L a = a_deposit x) as [Ew Ed]
    by (unfold withdraw_of, deposit_of; by rewrite E).
  pose proof (Call_apply depth block a input gas 0 w L RRefund HR ltac:(unfold room; lia) Hp
                ltac:(lia) Hb Hdp Hg Hin) as Hc. cbn [apply] in Hc. rewrite E in Hc. cbn [mbind option_bind] in Hc.
  rewrite (proj2 (Z.eqb_neq _ _)), (proj2 (Z.leb_gt _ _)) in Hc by lia. cbn [orb held] in Hc.
  destruct Hc as (He & _ & _ & HR' & Hb' & _). cbv zeta. split; [done|]. split; [lia|].
  assert (getDeposit c (o_world (Call depth block a input gas 0 w)) a = 0) as Hz.
  { rewrite (reader_dep c eq_refl _ _ HR') by done. unfold deposit_of. cbn. by rewrite lookup_delete_eq. }
  split; [done|]. destruct (listed_facts c eq_refl _ _ HR') as (_ & _ & Hl & _). by intros Ha%Hl.
Qed.

Lemma elem_of_active c w P `{!forall x, Decision (active c w P x)} a :
  a ∈ filter (active c w P) (listed c w) <-> active c w P a /\ a ∈ listed c w.
Proof. apply list_elem_of_filter. Qed.

(** C33: The election gets every active depositor once.  From the state of a
    block that the chain can reach, the readers hand the election one list of
    validators and one of miners.  If the node ids in each are distinct, the
    election succeeds for every seed, and its lists together have each account at
    most once: the miners are exactly the depositors below the threshold of a
    validator that have not announced a withdrawal, the validators those at or
    above it. *)
Theorem active_depositors_elected n w0 w SeqNum seed miners validators :
  fresh w0 -> run n w0 w -> Z.of_nat n + 1 < 2 ^ 64 ->
  GetDepositList (Some w) RoleMiner = Some miners ->
  GetDepositList (Some w) RoleValidator = Some validators ->
  NoDup (map dd_NodeID miners) -> NoDup (map dd_NodeID validators) ->
  exists m v, Election.ListenMiner SeqNum seed miners = Some m /\
    Election.ListenValidator SeqNum seed validators [] = Some v /\
    let ms := Election.accounts (mr_MasterMiner m ++ mr_BackUpMiner m) in
    let vs := Election.accounts (vr_MasterValidator v ++ vr_BackUpValidator v ++ vr_CandidateValidator v) in
    let c := reader 0 in
    NoDup (ms ++ vs) /\
    (forall a, plain a -> a ∈ ms <-> getWithdrawHeight c w a = 0 /\ 0 < getDeposit c w a < validatorThreshold) /\
    (forall a, plain a -> a ∈ vs <-> getWithdrawHeight c w a = 0 /\ validatorThreshold <= getDeposit c w a).
Proof.
  intros H0 Hrun Hn [= <-] [= <-] Hm Hv.
  destruct (run_R n w0 w H0 Hrun Hn) as (L & HR & _).
  destruct (Election.ListenMiner_spec SeqNum seed _ Hm) as (m & Em & _ & Pm & _).
  destruct (Election.ListenValidator_spec SeqNum seed _ Hv) as (v & Ev & _ & Pv & _).
  exists m, v. split; [exact Em|]. split; [exact Ev|]. cbv zeta. clear Em Ev.
  destruct (listed_facts (reader 60000) eq_refl w L HR) as (Hnd & Hpl & Hin & Hmin).
  rewrite (miner_accounts (reader 60000) eq_refl w L HR) in Pm.
  rewrite (validator_accounts (reader 60000) eq_refl w L HR) in Pv.
  rewrite !map_app, Pm, Pv. split_and!.
  - apply NoDup_app. split; [by apply NoDup_filter|]. split; [|by apply NoDup_filter].
    intros a [[_ Ha] _]%elem_of_active [[_ Hb] _]%elem_of_active. cbn in Ha, Hb. lia.
  - intros a Ha. rewrite Pm, elem_of_active, Hin by done. unfold active.
    change (getDeposit (reader 60000)) with (getDeposit (reader 0)).
    change (getWithdrawHeight (reader 60000)) with (getWithdrawHeight (reader 0)).
    pose proof (deposit_of_nonneg L a (proj1 HR)). rewrite !(reader_dep (reader 0) eq_refl w L HR) by done.
    split; [intros [[? ?] ?]|intros [? ?]]; split_and!; try done; lia.
  - intros a Ha. rewrite Pv, elem_of_active, Hin by done. unfold active.
    change (getDeposit (reader 60000)) with (getDeposit (reader 0)).
    change (getWithdrawHeight (reader 60000)) with (getWithdrawHeight (reader 0)).
    split; [tauto|]. intros [? Hd]. split; [done|]. unfold validatorThreshold, man in Hd. lia.
Qed.

(** [StaticCall] "disallows any modifications to the state during the
    call", but not those of the deposit contract: a depositor that is called
    statically with the input of [withdraw] has its withdrawal announced, which
    takes it off the lists of the election. *)
Theorem StaticCall_announces_withdrawal depth block a input gas w L :
  R w L -> room L -> plain a -> accounts L !! a <> None -> height_ok block -> 0 < block ->
  depth <= CallCreateDepth -> 40000 <= gas -> parse input = Some RWithdraw ->
  let o := StaticCall depth block a input gas w in
  o_err o = None /\ getWithdrawHeight (reader 0) (o_world o) a = block /\
  a ∉ map dd_Address (getValidatorDepositList (reader 0) (o_world o)) /\
  a ∉ map dd_Address (getMinerDepositList (reader 0) (o_world o)).
Proof.
  intros HR Hroom Hp Ha Hb Hb0 Hd Hg Hr. cbv zeta. unfold StaticCall.
  rewrite (proj2 (Z.ltb_ge _ _)) by done. set (c := mkContract a depositAddress 0 gas).
  unfold RunPrecompiledContract. rewrite (parse_long input _ Hr).
  change (Gas c) with gas. rewrite (proj2 (Z.ltb_ge _ _)) by lia.
  pose proof (Run_parse input c block w) as Hrun. rewrite Hr in Hrun. rewrite Hrun.
  pose proof HR as (HL & Hh & Hf & l & Hl).
  assert (Z.of_nat (length l) + 1 < 2 ^ 64) as Hlen by (rewrite (listing_size _ _ _ Hl); exact Hroom).
  pose proof (exec_R c block w L l eq_refl Hp ltac:(done) Hb HL Hf Hl RWithdraw I Hlen
                ltac:(cbn; lia)) as He.
  cbn [CallerAddress value c apply] in He. destruct (accounts L !! a) as [x|] eqn:E; [|done].
  cbn [mbind option_bind] in He. destruct He as (w' & -> & HR' & _). cbn [finish o_err o_world].
  assert (getWithdrawHeight (reader 0) w' a = block) as Hw.
  { rewrite (reader_wh (reader 0) eq_refl w' _ HR') by done. unfold withdraw_of. cbn.
    by rewrite lookup_insert_eq. }
  split; [done|]. split; [done|].
  rewrite (validator_accounts (reader 0) eq_refl _ _ HR'), (miner_accounts (reader 0) eq_refl _ _ HR').
  split; intros [[H0 _] _]%list_elem_of_filter; lia.
Qed.

End calls.

(** ** A scenario *)

(** A hash that tells the six signatures apart by their length. *)
#[local] Instance length_crypto : Crypto :=
  {| seckey := unit;
     Keccak256 bs := (N.of_nat (length bs) * 2 ^ 240)%N;
     Ecrecover _ _ := None;
     secp256k1_Sign _ _ := None |}.

Definition input (sig : list Z) (id : Z) : list Z :=
  method_id sig ++ match Abi.Pack [Abi.BytesTy] [Abi.byte_slice (Rlp.be_bytes 64 id)] with
                   | Ok data => data
                   | Err _ => []
                   end.

Definition alice : Address := (2 ^ 100)%N.
Definition bob : Address := (2 ^ 100 + 1)%N.
Definition node (k : Z) : Z := k * 2 ^ 256 + k.

Definition w_start : World := mkWorld {[alice := 10 ^ 24; bob := 10 ^ 24]} ∅.
Definition call (block : Z) (a : Address) (sig : list Z) (id v : Z) (w : World) : World :=
  o_world (Call 0 block a (input sig id) 50000 v w).
Definition w_alice : World := call 5 alice sig_valiDeposit (node 7) (10 ^ 23) w_start.
Definition w_both : World := call 5 bob sig_minerDeposit (node 8) (10 ^ 22) w_alice.
Definition w_leaving : World := call 6 alice sig_withdraw 0 0 w_both.

Lemma w_start_fresh : fresh w_start.
Proof. split; [done|]. by vm_compute. Qed.

Lemma plain_alice : plain alice.
Proof. split; by vm_compute. Qed.
Lemma plain_bob : plain bob.
Proof. split; by vm_compute. Qed.

Lemma run_both : run 2 w_start w_both.
Proof.
  apply (run_snoc 1 _ w_alice); [apply (run_snoc 0 _ w_start); [constructor|]|].
  - apply SCall; [apply plain_alice|lia|by unfold height_ok].
  - apply SCall; [apply plain_bob|lia|by unfold height_ok].
Qed.

Lemma run_leaving : run 3 w_start w_leaving.
Proof. apply (run_snoc 2 _ w_both); [apply run_both|]. apply SCall; [apply plain_alice|lia|by unfold height_ok]. Qed.

Lemma depositors_listed_once_witness :
  NoDup (listed (reader 0) w_both) /\ listed (reader 0) w_both = [alice; bob] /\
  GetBalance w_both depositAddress = 11 * 10 ^ 22.
Proof.
  split; [|split; by vm_compute].
  by apply (depositors_listed_once 2 w_start w_both w_start_fresh run_both ltac:(lia)).
Defined.

Lemma leaving_deposit : getDeposit (reader 0) w_leaving alice <> 0.
Proof. by vm_compute. Qed.
Lemma leaving_height : 0 < getWithdrawHeight (reader 0) w_leaving alice < 8.
Proof. split; by vm_compute. Qed.
Lemma leaving_balance : 0 <= GetBalance w_leaving alice.
Proof. by vm_compute. Qed.
Lemma height_8 : height_ok 8.
Proof. done. Qed.

Lemma withdrawn_deposit_refundable_witness :
  let o := Call 0 8 alice (input sig_refund 0) 50000 0 w_leaving in
  o_err o = None /\ GetBalance (o_world o) alice = 10 ^ 24.
Proof.
  destruct (withdrawn_deposit_refundable 3 w_start w_leaving 0 8 alice (input sig_refund 0) 50000
              w_start_fresh run_leaving ltac:(lia) plain_alice leaving_deposit leaving_height height_8
              ltac:(by vm_compute) ltac:(lia) ltac:(by vm_compute) leaving_balance) as (He & Hb & _).
  split; [exact He|]. etrans; [exact Hb|]. vm_cast_no_check (eq_refl (10 ^ 24)).
Defined.

Lemma start_R : R w_start (mkLedger ∅ ∅ ∅ 0).
Proof. exact (fresh_R w_start w_start_fresh). Qed.

Lemma Call_refines_ledger_witness :
  let o := Call 0 5 alice (input sig_valiDeposit (node 7)) 50000 (10 ^ 23) w_start in
  o_err o = None /\ GetBalance (o_world o) alice = 9 * 10 ^ 23.
Proof.
  pose proof (Call_refines_ledger 0 5 alice (input sig_valiDeposit (node 7)) 50000 (10 ^ 23) w_start
                (mkLedger ∅ ∅ ∅ 0) (RDeposit validatorThreshold (Z.to_N (node 7)))
                start_R ltac:(by vm_compute) plain_alice ltac:(by vm_compute) ltac:(by unfold height_ok)
                ltac:(by vm_compute) ltac:(lia) ltac:(by vm_compute)) as Hc.
  cbv zeta in Hc. destruct (apply _ _ _ _ _) as [L'|] eqn:E; [|by vm_compute in E].
  destruct Hc as (He & _ & _ & _ & Hb & _). split; [exact He|].
  assert (held L' = 10 ^ 23) as Hh by (vm_compute in E; by injection E as <-).
  rewrite Hh in Hb. etrans; [exact Hb|]. by vm_compute.
Defined.

Lemma active_depositors_elected_witness :
  exists m v, Election.ListenMiner 52 7 (getMinerDepositList (reader 60000) w_both) = Some m /\
    Election.ListenValidator 52 7 (getValidatorDepositList (reader 60000) w_both) [] = Some v /\
    alice ∈ Election.accounts (vr_MasterValidator v ++ vr_BackUpValidator v ++ vr_CandidateValidator v) /\
    bob ∈ Election.accounts (mr_MasterMiner m ++ mr_BackUpMiner m).
Proof.
  destruct (active_depositors_elected 2 w_start w_both 52 7 _ _ w_start_fresh run_both ltac:(lia)
              eq_refl eq_refl) as (m & v & Hm & Hv & _ & Hms & Hvs).
  - apply (bool_decide_unpack _). by vm_compute.
  - apply (bool_decide_unpack _). by vm_compute.
  - exists m, v. split; [exact Hm|]. split; [exact Hv|]. clear Hm Hv. split.
    + apply Hvs; [apply plain_alice|]. by vm_compute.
    + apply Hms; [apply plain_bob|]. by vm_compute.
Defined.

Lemma both_R : exists L, R w_both L /\ (size (accounts L) <= 2)%nat.
Proof. exact (run_R 2 w_start w_both w_start_fresh run_both ltac:(lia)). Qed.

Lemma StaticCall_announces_withdrawal_witness :
  getWithdrawHeight (reader 0) w_both bob = 0 /\
  getWithdrawHeight (reader 0) (o_world (StaticCall 0 8 bob (input sig_withdraw 0) 50000 w_both)) bob = 8.
Proof.
  split; [by vm_compute|]. destruct both_R as (L & HR & Hs).
  assert (getDeposit (reader 0) w_both bob <> 0) as Hd by by vm_compute.
  rewrite (reader_dep (reader 0) eq_refl w_both L HR bob plain_bob), deposit_of_pos in Hd by apply HR.
  exact (proj1 (proj2 (StaticCall_announces_withdrawal 0 8 bob (input sig_withdraw 0) 50000 w_both L HR
    ltac:(unfold room; lia) plain_bob Hd height_8 ltac:(lia) ltac:(by vm_compute) ltac:(lia)
    ltac:(by vm_compute)))).
Defined.

(** ** What the source does not mean to do *)

(** The refund means to clear the node id, but [setNodeID] ignores the zero id:
    the old one stays, and a later deposit that names no node takes it over. *)
Lemma refund_keeps_node :
  let w := call 8 alice sig_refund 0 0 w_leaving in
  getDeposit (reader 0) w alice = 0 /\ getNodeID (reader 0) w alice = Z.to_N (node 7) /\
  getNodeID (reader 0) (call 9 alice sig_minerDeposit 0 (10 ^ 22) w) alice = Z.to_N (node 7).
Proof. split_and!; by vm_compute. Qed.

(** Node ids are not checked to be unique.  The election goes by node id, so an
    account that names the node of another takes its place: both entries of the
    elected list are the account that deposited last. *)
Lemma shared_node_hides_depositor :
  let w := call 5 bob sig_minerDeposit (node 7) (10 ^ 22)
             (call 5 alice sig_minerDeposit (node 7) (10 ^ 22) w_start) in
  listed (reader 0) w = [alice; bob] /\
  (fun m => Election.accounts (mr_MasterMiner m ++ mr_BackUpMiner m)) <$>
    Election.ListenMiner 52 7 (getMinerDepositList (reader 0) w) = Some [bob; bob].
Proof. split; by vm_compute. Qed.

(** A node id with a zero half is accepted and then read as none. *)
Lemma half_zero_id_lost :
  getNodeID (reader 0) (call 5 alice sig_minerDeposit (7 * 2 ^ 256) (10 ^ 22) w_start) alice = 0%N.
Proof. by vm_compute. Qed.

(** Keys are not prefix-free: the deposit of an address that starts with ten
    zero bytes and goes on like a list key is kept in the place of an entry. *)
Lemma keys_collide : key (0xA4449 * 2 ^ 56)%N sD = key depositAddress (sDI 68).
Proof. by vm_compute. Qed.

End Ledger.
