(* ===== verification/Miner.v ===== *)
(** * Package [miner]: requests, work for the agents, and results

    Models miner/mineReqCtrl.go (the control of mining requests), the handlers of
    miner/worker.go, [CpuAgent.mine] of agent.go, and the search of
    consensus/manash/sealer.go.  The block verification service releases headers
    to the miners (BlkVerify.v); a result goes back to the block generation
    service (BlkGen.v), which checks it with [verifyOneResult].

    Requests are shared by pointer between the caches, the current request and
    the sender; they live in a store and are referred to by index.  The handlers
    run one at a time: in the code [update] and [wait] are two goroutines that
    share the control without a lock.  [atWork] is only counted and left out. *)

From S2P Require Import Prelude Common Rlp Crypto Types Topology Dpos Engine Controller.
From S2P Require Import TxHeap StateTransition Manash PowPool BlkGen.
Set Warnings "-register-all".

Record mineReqData := mkReq {
  rq_mined : bool;
  rq_headerHash : Hash;
  rq_header : Header;
  rq_isBroadcastReq : bool;
  rq_txs : list Transaction;
  rq_mineDiff : option Z;
  rq_mineResultSendTime : Z
}.

Record mineReqCtrl := mkCtrl {
  curNumber : Z;
  currentMineReq : option nat;
  role : Z;
  reqs : list mineReqData;           (* every request made so far *)
  reqCache : gmap Hash nat;
  futureReq : gmap Z (list nat)
}.

(** What the worker hands to the agents and sends. *)
Inductive output :=
| Work (header : Header) (difficultyList : list Z) (isBroadcastNode : bool) (role : Z)
| MiningRsp (r : HD_MiningRspMsg)
| BroadcastMiningRsp (data : BlockData).

Record worker := mkWorker {
  ctrl : mineReqCtrl;
  mining : bool;
  mineResultSender : option nat;
  out : list output                  (* latest first *)
}.

Module Miner.

Inductive error := ErrNumberTooLow | difficultyIsZero | ErrPos | ErrNotFound | ErrMined | ErrInterval.

Definition MinerResultSendInterval : Z := 3.
Definition DifficultList : list Z := [1].

Section Miner.
Context `{Crypto} `{GoRange} `{E : DPOSEngine}.
Context (reader : ValidatorReader) (self : Address).

(** ** mineReqCtrl.go *)

Definition newMineReqData (headerHash : Hash) (header : Header) (txs : list Transaction)
    (isBroadcastReq : bool) : mineReqData :=
  mkReq false headerHash header isBroadcastReq txs None 0.

Definition ResendMineResult (curTime : Z) (d : mineReqData) : res error mineReqData :=
  if negb (rq_mined d) then Err ErrMined
  else if i64 (curTime - rq_mineResultSendTime d) <? MinerResultSendInterval then Err ErrInterval
  else Ok (mkReq (rq_mined d) (rq_headerHash d) (rq_header d) (rq_isBroadcastReq d) (rq_txs d)
             (rq_mineDiff d) curTime).

Definition newMinReqCtrl : mineReqCtrl := mkCtrl 0 None RoleNil [] ∅ ∅.

Definition checkMineReq (header : Header) : res error unit :=
  if Uint64 (Difficulty header) =? 0 then Err difficultyIsZero
  else match VerifyBlock reader header with Ok _ => Ok tt | Err _ => Err ErrPos end.

(** The loop of [fixMap] over the requests of the new height. *)
Definition fix_one (store : list mineReqData) (cache : gmap Hash nat) (p : nat) : gmap Hash nat :=
  match store !! p with
  | None => cache
  | Some d =>
      match cache !! rq_headerHash d with
      | Some _ => cache
      | None => if is_ok (checkMineReq (rq_header d)) then <[rq_headerHash d := p]> cache else cache
      end
  end.

Definition fixMap (c : mineReqCtrl) : mineReqCtrl :=
  match futureReq c !! curNumber c with
  | None => mkCtrl (curNumber c) (currentMineReq c) (role c) (reqs c) ∅ (futureReq c)
  | Some reqList =>
      mkCtrl (curNumber c) (currentMineReq c) (role c) (reqs c)
        (foldl (fix_one (reqs c)) ∅ reqList) (delete (curNumber c) (futureReq c))
  end.

Definition SetNewNumber (number r : Z) (c : mineReqCtrl) : mineReqCtrl :=
  if number <? curNumber c then c
  else if curNumber c =? number
  then mkCtrl (curNumber c) (currentMineReq c) r (reqs c) (reqCache c) (futureReq c)
  else fixMap (mkCtrl number (currentMineReq c) r (reqs c) (reqCache c) (futureReq c)).

(** The control, and the request unless it is kept for later. *)
Definition AddMineReq (header : Header) (txs : list Transaction) (isBroadcastReq : bool)
    (c : mineReqCtrl) : mineReqCtrl * res error (option nat) :=
  let reqNumber := Uint64 (Number header) in
  let headerHash := Types.HashNoSignsAndNonce header in
  let reqData := newMineReqData headerHash header txs isBroadcastReq in
  let p := length (reqs c) in
  if curNumber c <? reqNumber then
    (mkCtrl (curNumber c) (currentMineReq c) (role c) (reqs c ++ [reqData]) (reqCache c)
       (<[reqNumber := default [] (futureReq c !! reqNumber) ++ [p]]> (futureReq c)), Ok None)
  else if reqNumber <? curNumber c then (c, Err ErrNumberTooLow)
  else
    match reqCache c !! headerHash with
    | Some data => (c, Ok (Some data))
    | None =>
        match checkMineReq header with
        | Err e => (c, Err e)
        | Ok _ => (mkCtrl (curNumber c) (currentMineReq c) (role c) (reqs c ++ [reqData])
                     (<[headerHash := p]> (reqCache c)) (futureReq c), Ok (Some p))
        end
    end.

Definition roleCanMine (r number : Z) : bool :=
  if Broadcast.IsBroadcastNumber number then r =? RoleBroadcast
  else (r =? RoleMiner) || (r =? RoleInnerMiner).

Definition CanMining (c : mineReqCtrl) : bool := roleCanMine (role c) (curNumber c).

Definition GetMineReqData (headerHash : Hash) (c : mineReqCtrl) : res error (nat * mineReqData) :=
  match reqCache c !! headerHash with
  | None => Err ErrNotFound
  | Some p => match reqs c !! p with Some d => Ok (p, d) | None => Err ErrNotFound end
  end.

(** The first request of the map that is not mined. *)
Definition GetUnMinedReq (c : mineReqCtrl) : option nat :=
  snd <$> list_find (fun p => rq_mined <$> reqs c !! p = Some false) (range_values (reqCache c)).

Definition set_current (p : option nat) (c : mineReqCtrl) : mineReqCtrl :=
  mkCtrl (curNumber c) p (role c) (reqs c) (reqCache c) (futureReq c).

Definition current_hash (c : mineReqCtrl) : option Hash :=
  p ← currentMineReq c; rq_headerHash <$> reqs c !! p.

Definition SetCurrentMineReq (headerHash : Hash) (c : mineReqCtrl) : res error mineReqCtrl :=
  if bool_decide (current_hash c = Some headerHash) then Ok c
  else
    let? (p, d) := GetMineReqData headerHash c in
    if rq_mined d then Err ErrMined else Ok (set_current (Some p) c).

(** [header] with the coinbase, and for an ordinary request with the nonce, the
    digest and the signatures of the result. *)
Definition set_Coinbase (a : Address) (h : Header) : Header :=
  mkHeader (ParentHash h) (UncleHash h) (Leader h) a (Root h) (TxHash h) (ReceiptHash h) (Bloom h)
    (Difficulty h) (Number h) (GasLimit h) (GasUsed h) (Time h) (hElect h) (hNetTopology h)
    (Signatures h) (Extra h) (MixDigest h) (Nonce h) (Version h).
Definition set_result (h result : Header) : Header :=
  mkHeader (ParentHash h) (UncleHash h) (Leader h) (Coinbase result) (Root h) (TxHash h)
    (ReceiptHash h) (Bloom h) (Difficulty h) (Number h) (GasLimit h) (GasUsed h) (Time h) (hElect h)
    (hNetTopology h) (Signatures result) (Extra h) (MixDigest result) (Nonce result) (Version h).

Definition SetMiningResult (result : Header) (c : mineReqCtrl) : res error (mineReqCtrl * nat) :=
  let headerHash := Types.HashNoSignsAndNonce result in
  let? (p, req) := GetMineReqData headerHash c in
  if rq_mined req then Err ErrMined
  else
    let header := if rq_isBroadcastReq req then set_Coinbase self (rq_header req)
                  else set_result (rq_header req) result in
    let req := mkReq true (rq_headerHash req) header (rq_isBroadcastReq req) (rq_txs req)
                 (Some (Difficulty result)) (rq_mineResultSendTime req) in
    let current := if bool_decide (current_hash c = Some headerHash) then None else currentMineReq c in
    Ok (mkCtrl (curNumber c) current (role c) (<[p := req]> (reqs c)) (reqCache c) (futureReq c), p).

(** ** worker.go *)

Definition set_ctrl (c : mineReqCtrl) (w : worker) : worker :=
  mkWorker c (mining w) (mineResultSender w) (out w).
Definition emit (o : output) (w : worker) : worker :=
  mkWorker (ctrl w) (mining w) (mineResultSender w) (o :: out w).

Definition newWorker : worker := mkWorker newMinReqCtrl false None [].

Definition stopMineResultSender (w : worker) : worker := mkWorker (ctrl w) (mining w) None (out w).

(** [common.NewResendMsgCtrl] succeeds if [ok]; it repeats [sendMineResultFunc]. *)
Definition startMineResultSender (ok : bool) (p : nat) (w : worker) : worker :=
  let w := stopMineResultSender w in
  if ok then mkWorker (ctrl w) (mining w) (Some p) (out w) else w.

(** The message carries no sender; the receiver fills it in. *)
Definition sendMineResultFunc (now : Z) (p : nat) (w : worker) : worker :=
  match reqs (ctrl w) !! p with
  | None => w
  | Some d =>
      if negb (rq_mined d) then w
      else
        match ResendMineResult now d with
        | Err _ => w
        | Ok d =>
            let c := ctrl w in
            let w := set_ctrl (mkCtrl (curNumber c) (currentMineReq c) (role c) (<[p := d]> (reqs c))
                                 (reqCache c) (futureReq c)) w in
            if rq_isBroadcastReq d
            then emit (BroadcastMiningRsp (mkData (rq_header d) (rq_txs d))) w
            else emit (MiningRsp (mkMiningRsp 0%N (Uint64 (Number (rq_header d))) (rq_headerHash d)
                         (default 0 (rq_mineDiff d)) (Nonce (rq_header d)) (Coinbase (rq_header d))
                         (MixDigest (rq_header d)) (Signatures (rq_header d)))) w
        end
  end.

(** [CalDiffList]: up to the first quotient that is at most 1. *)
Fixpoint cal_diffs (difficulty : Z) (l : list Z) : list Z :=
  match l with
  | [] => []
  | x :: l =>
      let temp := difficulty / x in
      if temp <=? 1 then [1] else i64 temp :: cal_diffs difficulty l
  end.
Definition CalDiffList (difficulty : Z) : list Z := cal_diffs difficulty DifficultList.

(** [makeCurrent] and [push]. *)
Definition CommitNewWork (header : Header) (difficultyList : list Z) (isBroadcastNode : bool)
    (w : worker) : worker :=
  if mining w
  then emit (Work (set_Coinbase self header) difficultyList isBroadcastNode (role (ctrl w))) w
  else w.

Definition beginMine (p : nat) (w : worker) : worker :=
  match reqs (ctrl w) !! p with
  | None => w
  | Some reqData =>
      if negb (mining w) then w
      else
        let busy := match currentMineReq (ctrl w) ≫= fun q => reqs (ctrl w) !! q with
                    | Some cur => negb (rq_mined cur) && (Time (rq_header reqData) <=? Time (rq_header cur))
                    | None => false
                    end in
        if busy then w
        else
          let difficultyList := if rq_isBroadcastReq reqData then [1]
                                else CalDiffList (Uint64 (Difficulty (rq_header reqData))) in
          match SetCurrentMineReq (rq_headerHash reqData) (ctrl w) with
          | Err _ => w
          | Ok c => CommitNewWork (rq_header reqData) difficultyList (rq_isBroadcastReq reqData)
                      (set_ctrl c w)
          end
  end.

Definition processAppointedMineReq (now : Z) (p : nat) (w : worker) : worker :=
  if negb (CanMining (ctrl w)) then w
  else match reqs (ctrl w) !! p with
       | None => w
       | Some d => if rq_mined d then sendMineResultFunc now p w else beginMine p w
       end.

Definition processMineReq (w : worker) : worker :=
  match GetUnMinedReq (ctrl w) with None => w | Some p => beginMine p w end.

Definition set_mining (b : bool) (w : worker) : worker :=
  mkWorker (ctrl w) b (mineResultSender w) (out w).

Definition RoleUpdatedMsgHandler (BlockNum r : Z) (w : worker) : worker :=
  let number := u64 (BlockNum + 1) in
  let w := if curNumber (ctrl w) <? number then stopMineResultSender w else w in
  let w := set_ctrl (SetNewNumber number r (ctrl w)) w in
  if CanMining (ctrl w) then processMineReq (set_mining true w) else set_mining false w.

(** [MiningRequestHandle], and with transactions
    [BroadcastHashLocalMiningReqMsgHandle]. *)
Definition MiningRequestHandle (now : Z) (header : Header) (txs : list Transaction) (bc : bool)
    (w : worker) : worker :=
  match AddMineReq header txs bc (ctrl w) with
  | (c, Ok (Some p)) => processAppointedMineReq now p (set_ctrl c w)
  | (c, _) => set_ctrl c w
  end.

Definition foundHandle (ok : bool) (header : Header) (w : worker) : worker :=
  match SetMiningResult header (ctrl w) with
  | Err _ => w
  | Ok (c, p) => startMineResultSender ok p (set_ctrl c w)
  end.

(** ** sealer.go *)

Context (hashimotoFull : Hash -> N -> Hash * Z).

Definition maxUint256 : Z := 2 ^ 256.

(** One round of [mine]: the header to report, if the nonce is good. *)
Definition mine_nonce (header : Header) (isBroadcastNode : bool) (nonce : N) : option Header :=
  let target := if isBroadcastNode then maxUint256 else maxUint256 / Difficulty header in
  let '(digest, result) := hashimotoFull (Types.HashNoNonce header) nonce in
  if result <=? target then
    Some (mkHeader (ParentHash header) (UncleHash header) (Leader header) (Coinbase header)
            (Root header) (TxHash header) (ReceiptHash header) (Bloom header) (Difficulty header)
            (Number header) (GasLimit header) (GasUsed header) (Time header) (hElect header)
            (hNetTopology header) (Signatures header) (Extra header) digest nonce (Version header))
  else None.

(** The search, until [attempts] nonces are tried or it is aborted. *)
Fixpoint mine (attempts : nat) (header : Header) (isBroadcastNode : bool) (nonce : N) : option Header :=
  match attempts with
  | O => None
  | S n => match mine_nonce header isBroadcastNode nonce with
           | Some h => Some h
           | None => mine n header isBroadcastNode ((nonce + 1) mod 2 ^ 64)%N
           end
  end.

(** ** The handlers together *)

Inductive event :=
| RoleUpdated (BlockNum r : Z)
| MiningReq (now : Z) (header : Header)
| LocalMiningReq (now : Z) (header : Header) (txs : list Transaction)
| Found (sender_ok : bool) (header : Header)        (* an agent returns a header *)
| Resend (now : Z).                                  (* the sender fires *)

Definition handle (e : event) (w : worker) : worker :=
  match e with
  | RoleUpdated n r => RoleUpdatedMsgHandler n r w
  | MiningReq now h => MiningRequestHandle now h [] false w
  | LocalMiningReq now h txs => MiningRequestHandle now h txs true w
  | Found ok h => foundHandle ok h w
  | Resend now => match mineResultSender w with Some p => sendMineResultFunc now p w | None => w end
  end.

(** An agent returns what its search found for a work it was given. *)
Definition from_work (w : worker) (e : event) : Prop :=
  match e with
  | Found _ h => exists header diffs bc r seed attempts,
      Work header diffs bc r ∈ out w /\ mine attempts header bc seed = Some h
  | _ => True
  end.

Inductive run : list event -> worker -> Prop :=
| run_nil : run [] newWorker
| run_cons e es w : run es w -> from_work w e -> run (e :: es) (handle e w).

(** The headers of the requests. *)
Definition requested (es : list event) : list Header :=
  omap (fun e => match e with MiningReq _ h | LocalMiningReq _ h _ => Some h | _ => None end) es.

(** ** Headers that differ in the fields a miner fills in *)

Lemma strip_hash h1 h2 :
  HashBinding.strip h1 = HashBinding.strip h2 ->
  Types.HashNoSignsAndNonce h1 = Types.HashNoSignsAndNonce h2.
Proof.
  intros E'. unfold Types.HashNoSignsAndNonce.
  change (Types.sign_content h1) with (Types.sign_content (HashBinding.strip h1)).
  change (Types.sign_content h2) with (Types.sign_content (HashBinding.strip h2)). by rewrite E'.
Qed.

Lemma strip_fields h1 h2 :
  HashBinding.strip h1 = HashBinding.strip h2 ->
  Number h1 = Number h2 /\ Difficulty h1 = Difficulty h2.
Proof. destruct h1, h2. unfold HashBinding.strip. cbn. intros [=]. by subst. Qed.

Lemma mine_mine_nonce attempts h bc seed h' :
  mine attempts h bc seed = Some h' -> exists nonce, mine_nonce h bc nonce = Some h'.
Proof.
  revert seed. induction attempts as [|n IH]; intros seed; [done|]. cbn [mine].
  destruct (mine_nonce h bc seed) eqn:En; [intros [= <-]; eauto|]. apply IH.
Qed.

Lemma mine_nonce_spec h bc nonce h' :
  mine_nonce h bc nonce = Some h' ->
  HashBinding.strip h' = HashBinding.strip h /\ Signatures h' = Signatures h /\
  Coinbase h' = Coinbase h /\ Types.HashNoNonce h' = Types.HashNoNonce h.
Proof.
  unfold mine_nonce. destruct (hashimotoFull _ _). case_match; [|done]. by intros [= <-].
Qed.

Lemma set_result_eq d hw h' :
  HashBinding.strip d = HashBinding.strip hw -> HashBinding.strip h' = HashBinding.strip hw ->
  set_result d h' = h'.
Proof. destruct d, hw, h'. unfold HashBinding.strip, set_result. cbn. intros [=] [=]. by subst. Qed.

(** [VerifyBlock] looks at the signing hash, the signatures and the number. *)
Definition reads_signed_part : Prop :=
  forall h1 h2, Types.HashNoSignsAndNonce h1 = Types.HashNoSignsAndNonce h2 ->
    Signatures h1 = Signatures h2 -> Number h1 = Number h2 ->
    VerifyBlock reader h1 = VerifyBlock reader h2.

Definition checked (h : Header) : Prop := Uint64 (Difficulty h) <> 0 /\ VerifyBlock reader h = Ok tt.

Lemma checkMineReq_checked h : checkMineReq h = Ok tt <-> checked h.
Proof.
  unfold checkMineReq, checked. destruct (Z.eqb_spec (Uint64 (Difficulty h)) 0); [naive_solver|].
  destruct (VerifyBlock reader h) as [[]|]; naive_solver.
Qed.

(** ** The invariant *)

(** The message for a header that was mined. *)
Definition rsp_of (h : Header) : HD_MiningRspMsg :=
  mkMiningRsp 0%N (Uint64 (Number h)) (Types.HashNoSignsAndNonce h) (Difficulty h) (Nonce h)
    (Coinbase h) (MixDigest h) (Signatures h).

(** [h] is what the search found for a work in [outs]. *)
Definition sealed (outs : list output) (h : Header) : Prop :=
  exists hw diffs r nonce, Work hw diffs false r ∈ outs /\ mine_nonce hw false nonce = Some h.

Record inv (rs : list Header) (c : mineReqCtrl) (outs : list output) : Prop := {
  i_req p d : reqs c !! p = Some d ->
    rq_headerHash d = Types.HashNoSignsAndNonce (rq_header d) /\
    (rq_mined d = false -> rq_header d ∈ rs) /\
    exists h0, h0 ∈ rs /\ HashBinding.strip (rq_header d) = HashBinding.strip h0;
  i_cache h p : reqCache c !! h = Some p ->
    exists d, reqs c !! p = Some d /\ rq_headerHash d = h /\
      Uint64 (Number (rq_header d)) = curNumber c /\ checked (rq_header d);
  i_future n l p : futureReq c !! n = Some l -> p ∈ l ->
    n <> curNumber c /\ exists d, reqs c !! p = Some d /\ Uint64 (Number (rq_header d)) = n;
  i_mined p d : reqs c !! p = Some d -> rq_mined d = true -> rq_isBroadcastReq d = false ->
    sealed outs (rq_header d) /\ rq_mineDiff d = Some (Difficulty (rq_header d));
  i_work h diffs bc r : Work h diffs bc r ∈ outs ->
    checked h /\ Coinbase h = self /\ roleCanMine r (Uint64 (Number h)) = true /\
    (exists h0, h0 ∈ rs /\ h = set_Coinbase self h0) /\
    Uint64 (Number h) <= curNumber c /\
    (Uint64 (Number h) = curNumber c ->
     exists p d, reqCache c !! Types.HashNoSignsAndNonce h = Some p /\ reqs c !! p = Some d /\
       rq_isBroadcastReq d = bc /\ HashBinding.strip (rq_header d) = HashBinding.strip h);
  i_rsp r : MiningRsp r ∈ outs -> exists h, sealed outs h /\ r = rsp_of h
}.

Lemma sealed_mono outs o h : sealed outs h -> sealed (o :: outs) h.
Proof. intros (hw & ds & r & n & Hin & Hm). exists hw, ds, r, n. split; [by right|done]. Qed.

Lemma inv_rs rs rs' c outs : (forall h, h ∈ rs -> h ∈ rs') -> inv rs c outs -> inv rs' c outs.
Proof.
  intros Hs []. split; try done.
  - intros p d Hd. destruct (i_req0 p d Hd) as (? & ? & h0 & ? & ?). eauto 10.
  - intros h ds bc r Hin. destruct (i_work0 h ds bc r Hin) as (? & ? & ? & (h0 & ? & ?) & ?). eauto 10.
Qed.

(** The current request, the role and the sender do not matter. *)
Lemma inv_set_current rs p r c outs :
  inv rs c outs -> inv rs (mkCtrl (curNumber c) p r (reqs c) (reqCache c) (futureReq c)) outs.
Proof. by intros []. Qed.

Lemma inv_new rs : inv rs newMinReqCtrl [].
Proof. split; cbn; intros *; rewrite ?lookup_nil, ?lookup_empty; try done; by intros ?%elem_of_nil. Qed.

(** *** Requests *)

Lemma lookup_snoc_ok {A} (l : list A) x p d : (l ++ [x]) !! p = Some d -> l !! p = Some d \/ p = length l /\ d = x.
Proof.
  intros Hp. destruct (decide (p < length l)%nat).
  - left. by rewrite lookup_app_l in Hp.
  - right. rewrite lookup_app_r in Hp by lia. apply list_lookup_singleton_Some in Hp as [? ->]. split; [lia|done].
Qed.

(** A new request in the store; what the caches say about it is up to the caller. *)
Lemma inv_store rs c outs h txs bc cache future :
  let d0 := newMineReqData (Types.HashNoSignsAndNonce h) h txs bc in
  inv rs c outs -> h ∈ rs ->
  (forall k p, cache !! k = Some p -> reqCache c !! k = Some p \/
     p = length (reqs c) /\ k = Types.HashNoSignsAndNonce h /\ Uint64 (Number h) = curNumber c /\ checked h) ->
  (forall k p, reqCache c !! k = Some p -> cache !! k = Some p) ->
  (forall n l p, future !! n = Some l -> p ∈ l -> (exists l', futureReq c !! n = Some l' /\ p ∈ l') \/
     p = length (reqs c) /\ n = Uint64 (Number h) /\ n <> curNumber c) ->
  inv rs (mkCtrl (curNumber c) (currentMineReq c) (role c) (reqs c ++ [d0]) cache future) outs.
Proof.
  intros d0 [] Hh Hc1 Hc2 Hf. split; cbn [curNumber reqs reqCache futureReq]; try done.
  - intros p d [Hp|[-> ->]]%lookup_snoc_ok; [by apply (i_req0 p)|]. split_and!; [done|done|]. by exists h.
  - intros k p [Hk|(-> & -> & Hn & Hck)]%Hc1.
    + destruct (i_cache0 k p Hk) as (d & Hd & ?). exists d. split; [by apply lookup_app_l_Some|done].
    + exists d0. split; [by rewrite lookup_app_r, Nat.sub_diag|]. done.
  - intros n l p Hl Hp. destruct (Hf n l p Hl Hp) as [(l' & Hl' & Hp')|(-> & -> & Hn)].
    + destruct (i_future0 n l' p Hl' Hp') as (? & d & Hd & ?). split; [done|]. exists d.
      split; [by apply lookup_app_l_Some|done].
    + split; [done|]. exists d0. split; [by rewrite lookup_app_r, Nat.sub_diag|done].
  - intros p d [Hp|[-> ->]]%lookup_snoc_ok; [by apply (i_mined0 p)|done].
  - intros hw ds b r Hin. destruct (i_work0 hw ds b r Hin) as (? & ? & ? & ? & ? & Hcur).
    split_and!; try done. intros Hn. destruct (Hcur Hn) as (p & d & Hk & Hd & ?). exists p, d.
    split; [by apply Hc2|]. split; [by apply lookup_app_l_Some|done].
Qed.

Lemma inv_AddMineReq rs c outs h txs bc c' r :
  inv rs c outs -> h ∈ rs -> AddMineReq h txs bc c = (c', r) ->
  inv rs c' outs /\ role c' = role c /\ curNumber c' = curNumber c /\
  forall p, r = Ok (Some p) -> exists k, reqCache c' !! k = Some p.
Proof.
  intros Hinv Hh. unfold AddMineReq. cbv zeta.
  destruct (Z.ltb_spec (curNumber c) (Uint64 (Number h))) as [Hlt|Hge].
  { intros [= <- <-]. split; [|done]. apply inv_store; [done|done|by left|done|].
    intros n l p. destruct (decide (Uint64 (Number h) = n)) as [<-|].
    - rewrite lookup_insert_eq. intros [= <-]. rewrite elem_of_app, list_elem_of_singleton.
      intros [Hp|Hp]; [|right; split_and!; [done|done|lia]]. left.
      destruct (futureReq c !! _) as [l'|]; [by exists l'|]. by apply elem_of_nil in Hp.
    - rewrite lookup_insert_ne by done. intros. left. eauto. }
  destruct (Z.ltb_spec (Uint64 (Number h)) (curNumber c)) as [|Hn]; [by intros [= <- <-]|].
  destruct (reqCache c !! Types.HashNoSignsAndNonce h) as [p|] eqn:Ep.
  { intros [= <- <-]. split_and!; try done. intros q [= <-]. eauto. }
  destruct (checkMineReq h) as [[]|] eqn:Ec; [|by intros [= <- <-]]. apply checkMineReq_checked in Ec.
  intros [= <- <-]. split; [|split_and!; [done|done|]].
  - apply inv_store; [done|done| | |left; eauto].
    + intros k p. destruct (decide (Types.HashNoSignsAndNonce h = k)) as [<-|].
      * rewrite lookup_insert_eq. intros [= <-]. right. split_and!; try done. lia.
      * rewrite lookup_insert_ne by done. by left.
    + intros k p Hk. rewrite lookup_insert_ne; [done|congruence].
  - intros p [= <-]. exists (Types.HashNoSignsAndNonce h). cbn [reqCache]. by rewrite lookup_insert_eq.
Qed.

(** *** A new height *)

Lemma fix_one_ok (P : Hash -> nat -> Prop) store l cache :
  (forall k p, cache !! k = Some p -> P k p) ->
  (forall p d, p ∈ l -> store !! p = Some d -> checked (rq_header d) -> P (rq_headerHash d) p) ->
  forall k p, foldl (fix_one store) cache l !! k = Some p -> P k p.
Proof.
  revert cache. induction l as [|q l IH]; intros cache Hc Hl; [done|]. cbn [foldl].
  apply IH; [|intros p d Hp; apply Hl; by right]. intros k p. unfold fix_one.
  destruct (store !! q) as [d|] eqn:Ed; [|apply Hc].
  destruct (cache !! rq_headerHash d); [apply Hc|].
  destruct (checkMineReq (rq_header d)) as [[]|] eqn:Ec; [|apply Hc]. apply checkMineReq_checked in Ec. cbn.
  destruct (decide (rq_headerHash d = k)) as [<-|].
  - rewrite lookup_insert_eq. intros [= <-]. apply Hl; [by left|done|done].
  - rewrite lookup_insert_ne by done. apply Hc.
Qed.

Lemma inv_SetNewNumber rs n r c outs : inv rs c outs -> inv rs (SetNewNumber n r c) outs.
Proof.
  intros Hinv. unfold SetNewNumber. destruct (Z.ltb_spec n (curNumber c)); [done|].
  destruct (Z.eqb_spec (curNumber c) n); [by apply inv_set_current|].
  assert (curNumber c < n) as Hlt by lia. pose proof Hinv as [].
  assert (forall hw ds b rl, Work hw ds b rl ∈ outs -> Uint64 (Number hw) <= curNumber c) as Hold.
  { intros hw ds b rl Hin. by destruct (i_work0 hw ds b rl Hin) as (_ & _ & _ & _ & ? & _). }
  unfold fixMap. cbn [futureReq curNumber]. destruct (futureReq c !! n) as [l|] eqn:El.
  - split; cbn [curNumber reqs reqCache futureReq]; try done.
    + apply fix_one_ok; [intros ??; by rewrite lookup_empty|]. intros p d Hp Hd Hck.
      destruct (i_future0 n l p El Hp) as (_ & d' & Hd' & Hn). simplify_eq. exists d. eauto.
    + intros m l' p [Hne Hl']%lookup_delete_Some Hp. destruct (i_future0 m l' p Hl' Hp) as (_ & d & ?).
      split; [congruence|eauto].
    + intros hw ds b rl Hin. specialize (Hold _ _ _ _ Hin).
      destruct (i_work0 hw ds b rl Hin) as (? & ? & ? & ? & ? & _). split_and!; try done; lia.
  - split; cbn [curNumber reqs reqCache futureReq]; try done.
    + intros m l' p Hl' Hp. destruct (i_future0 m l' p Hl' Hp) as (_ & d & ?). split; [congruence|eauto].
    + intros hw ds b rl Hin. specialize (Hold _ _ _ _ Hin).
      destruct (i_work0 hw ds b rl Hin) as (? & ? & ? & ? & ? & _). split_and!; try done; lia.
Qed.

(** *** Sending *)

(** One request changes, but not in what the caches say about it. *)
Lemma inv_update rs c cur r outs q d d' :
  inv rs c outs -> reqs c !! q = Some d ->
  rq_headerHash d' = rq_headerHash d -> rq_isBroadcastReq d' = rq_isBroadcastReq d ->
  HashBinding.strip (rq_header d') = HashBinding.strip (rq_header d) ->
  (checked (rq_header d) -> checked (rq_header d')) -> rq_mined d' = true ->
  (rq_mined d' = true -> rq_isBroadcastReq d' = false ->
   sealed outs (rq_header d') /\ rq_mineDiff d' = Some (Difficulty (rq_header d'))) ->
  inv rs (mkCtrl (curNumber c) cur r (<[q := d']> (reqs c)) (reqCache c) (futureReq c)) outs.
Proof.
  intros [] Hq Hh Hbc Hs Hck Hmd Hm. pose proof (strip_hash _ _ Hs) as Hsh.
  destruct (strip_fields _ _ Hs) as [Hn _].
  assert (forall p x, <[q := d']> (reqs c) !! p = Some x -> reqs c !! p = Some x \/ p = q /\ x = d') as Hlk.
  { intros p x. destruct (decide (p = q)) as [->|]; [|rewrite list_lookup_insert_ne by done; by left].
    rewrite list_lookup_insert_eq by by eapply lookup_lt_Some. intros [= <-]. by right. }
  assert (<[q := d']> (reqs c) !! q = Some d') as Hq' by (apply list_lookup_insert_eq; by eapply lookup_lt_Some).
  split; cbn [curNumber reqs reqCache futureReq]; try done.
  - intros p x [Hp|[-> ->]]%Hlk; [by apply (i_req0 p)|]. destruct (i_req0 q d Hq) as (E1 & _ & h0 & ? & E2).
    split_and!; [congruence|congruence|]. exists h0. split; [done|congruence].
  - intros k p Hk. destruct (i_cache0 k p Hk) as (x & Hx & E1 & E2 & E3).
    destruct (decide (p = q)) as [->|]; [|exists x; by rewrite list_lookup_insert_ne].
    assert (x = d) as -> by congruence. exists d'. rewrite Hh, Hn. split_and!; auto.
  - intros n l p Hl Hp. destruct (i_future0 n l p Hl Hp) as (? & x & Hx & E1). split; [done|].
    destruct (decide (p = q)) as [->|]; [|exists x; by rewrite list_lookup_insert_ne].
    assert (x = d) as -> by congruence. exists d'. by rewrite Hn.
  - intros p x [Hp|[-> ->]]%Hlk; [by apply (i_mined0 p)|done].
  - intros hw ds b rl Hin. destruct (i_work0 hw ds b rl Hin) as (? & ? & ? & ? & ? & Hcur).
    split_and!; try done. intros E0. destruct (Hcur E0) as (p & x & Hk & Hx & E1 & E2).
    destruct (decide (p = q)) as [->|]; [|exists p, x; by rewrite list_lookup_insert_ne].
    assert (x = d) as -> by congruence. exists q, d'. rewrite Hbc, Hs. done.
Qed.

Lemma inv_rsp rs c outs r :
  inv rs c outs -> (exists h, sealed outs h /\ r = rsp_of h) -> inv rs c (MiningRsp r :: outs).
Proof.
  intros [] (h & Hs & ->). split; try done.
  - intros p d Hp Hm Hb. destruct (i_mined0 p d Hp Hm Hb) as [? ?]. split; [by apply sealed_mono|done].
  - intros hw ds b rl [?|Hin]%elem_of_cons; [done|]. by apply (i_work0 hw ds).
  - intros r' [[= ->]|Hin]%elem_of_cons.
    + exists h. split; [by apply sealed_mono|done].
    + destruct (i_rsp0 r' Hin) as (h' & Hs' & ?). exists h'. split; [by apply sealed_mono|done].
Qed.

Lemma inv_broadcast rs c outs data : inv rs c outs -> inv rs c (BroadcastMiningRsp data :: outs).
Proof.
  intros []. split; try done.
  - intros p d Hp Hm Hb. destruct (i_mined0 p d Hp Hm Hb) as [? ?]. split; [by apply sealed_mono|done].
  - intros hw ds b rl [?|Hin]%elem_of_cons; [done|]. by apply (i_work0 hw ds).
  - intros r' [?|Hin]%elem_of_cons; [done|]. destruct (i_rsp0 r' Hin) as (h' & Hs' & ?). exists h'.
    split; [by apply sealed_mono|done].
Qed.

Definition winv (rs : list Header) (w : worker) : Prop := inv rs (ctrl w) (out w).

Lemma winv_send rs now p w : winv rs w -> winv rs (sendMineResultFunc now p w).
Proof.
  intros Hinv. unfold sendMineResultFunc. destruct (reqs (ctrl w) !! p) as [d|] eqn:Ed; [|done].
  destruct (rq_mined d) eqn:Em; [|done]. cbn [negb]. unfold ResendMineResult. rewrite Em. cbn [negb].
  destruct (_ <? _); [done|].
  assert (inv rs (mkCtrl (curNumber (ctrl w)) (currentMineReq (ctrl w)) (role (ctrl w))
    (<[p := mkReq (rq_mined d) (rq_headerHash d) (rq_header d) (rq_isBroadcastReq d) (rq_txs d)
              (rq_mineDiff d) now]> (reqs (ctrl w))) (reqCache (ctrl w)) (futureReq (ctrl w))) (out w)) as Hu.
  { eapply inv_update; try done; cbn. intros _. by eapply i_mined. }
  rewrite Em in Hu. destruct (rq_isBroadcastReq d) eqn:Eb; [by apply inv_broadcast|].
  apply inv_rsp; [done|]. destruct (i_mined _ _ _ Hinv p d Ed Em Eb) as [Hs ->].
  destruct (i_req _ _ _ Hinv p d Ed) as [-> _]. by exists (rq_header d).
Qed.

(** *** Work *)

Lemma inv_work rs c outs h diffs r p d :
  reads_signed_part -> inv rs c outs -> reqs c !! p = Some d -> reqCache c !! rq_headerHash d = Some p ->
  roleCanMine r (curNumber c) = true -> rq_mined d = false -> h = set_Coinbase self (rq_header d) ->
  inv rs c (Work h diffs (rq_isBroadcastReq d) r :: outs).
Proof.
  intros Hext Hinv Hd Hc Hr Hmd ->. pose proof Hinv as [].
  destruct (i_cache0 _ _ Hc) as (d' & Hd' & _ & Hn & Hck).
  assert (d' = d) as -> by congruence. clear Hd'. destruct (i_req0 p d Hd) as (Hh & Hin0 & _). split; try done.
  - intros q x Hq Hm Hb. destruct (i_mined0 q x Hq Hm Hb) as [? ?]. split; [by apply sealed_mono|done].
  - intros hw ds b rl [[= -> -> -> ->]|Hin]%elem_of_cons; [|by apply (i_work0 hw ds)].
    split_and!; try done.
    + destruct Hck as [? Hv]. split; [done|]. by rewrite <- Hv; apply Hext.
    + change (Number (set_Coinbase self (rq_header d))) with (Number (rq_header d)). by rewrite Hn.
    + exists (rq_header d). by split; [apply Hin0|].
    + cbn. lia.
    + intros _. exists p, d. split; [by rewrite <- Hc, Hh|done].
  - intros r' [?|Hin]%elem_of_cons; [done|]. destruct (i_rsp0 r' Hin) as (h' & Hs' & ?). exists h'.
    split; [by apply sealed_mono|done].
Qed.

Lemma SetCurrentMineReq_ok k c c' :
  SetCurrentMineReq k c = Ok c' ->
  exists p, c' = mkCtrl (curNumber c) p (role c) (reqs c) (reqCache c) (futureReq c).
Proof.
  unfold SetCurrentMineReq, GetMineReqData. repeat case_match; intros; simplify_eq; eauto.
  exists (currentMineReq c'). by destruct c'.
Qed.

Lemma winv_beginMine rs p w :
  reads_signed_part -> winv rs w -> CanMining (ctrl w) = true ->
  (exists k, reqCache (ctrl w) !! k = Some p) ->
  rq_mined <$> reqs (ctrl w) !! p = Some false -> winv rs (beginMine p w).
Proof.
  intros Hext Hinv Hcan [k Hk] Hmd. unfold beginMine. destruct (reqs (ctrl w) !! p) as [d|] eqn:Ed; [|done].
  destruct (mining w) eqn:Hmi; [|done]. cbn [negb]. set (busy := match _ with Some _ => _ | None => _ end).
  destruct busy; [done|].
  destruct (SetCurrentMineReq (rq_headerHash d) (ctrl w)) as [c'|] eqn:Ec; [|done].
  destruct (SetCurrentMineReq_ok _ _ _ Ec) as (q & ->). unfold CommitNewWork. cbn [mining set_ctrl]. rewrite Hmi.
  destruct (i_cache _ _ _ Hinv k p Hk) as (d' & Hd' & <- & Hn & _).
  assert (d' = d) as -> by congruence. unfold winv. cbn [ctrl out emit].
  injection Hmd as Hmd.
  eapply inv_work; [done|by apply inv_set_current|done|done|exact Hcan|done|done].
Qed.

Lemma winv_processMineReq rs w :
  reads_signed_part -> winv rs w -> CanMining (ctrl w) = true -> winv rs (processMineReq w).
Proof.
  intros Hext Hinv Hcan. unfold processMineReq, GetUnMinedReq.
  destruct (list_find _ _) as [[i p]|] eqn:El; [|done]. cbn.
  apply list_find_Some in El as (Hp & Hmd & _).
  apply winv_beginMine; [done|done|done| |done].
  apply list_elem_of_lookup_2, range_values_elem_of in Hp. done.
Qed.

(** *** Results *)

(** No two requests of different heights have the same hash. *)
Definition collision_free (rs : list Header) : Prop :=
  forall h1 h2, h1 ∈ rs -> h2 ∈ rs -> Types.HashNoSignsAndNonce h1 = Types.HashNoSignsAndNonce h2 ->
    Uint64 (Number h1) = Uint64 (Number h2).

Lemma winv_found rs ok h w :
  reads_signed_part -> collision_free rs -> winv rs w -> from_work w (Found ok h) ->
  winv rs (foundHandle ok h w).
Proof.
  intros Hext Hcf Hinv (hw & ds & bc & r & seed & n & Hin & Hm). cbn in Hinv.
  destruct (mine_mine_nonce _ _ _ _ _ Hm) as [nonce Hn]. clear Hm.
  destruct (mine_nonce_spec _ _ _ _ Hn) as (Hs & Hsig & Hcb & _).
  unfold foundHandle, SetMiningResult, GetMineReqData. cbv zeta.
  destruct (reqCache (ctrl w) !! Types.HashNoSignsAndNonce h) as [p|] eqn:Ep; [|done].
  destruct (reqs (ctrl w) !! p) as [d|] eqn:Ed; [|done]. destruct (rq_mined d) eqn:Emd; [done|].
  destruct (i_cache _ _ _ Hinv _ _ Ep) as (d' & Hd' & Eh & En & Hck).
  assert (d' = d) as -> by congruence. clear Hd'.
  destruct (i_work _ _ _ Hinv _ _ _ _ Hin) as ([Hdf Hvb] & _ & _ & (h1 & Hh1 & Hw1) & _ & Hcur).
  assert (HashBinding.strip hw = HashBinding.strip h1) as Hs1 by (by rewrite Hw1).
  destruct (i_req _ _ _ Hinv p d Ed) as (Ehd & _ & h0 & Hh0 & Hs0).
  assert (Uint64 (Number hw) = curNumber (ctrl w)) as Hnum.
  { rewrite <- En, (proj1 (strip_fields _ _ Hs0)), (proj1 (strip_fields _ _ Hs1)).
    apply Hcf; [done|done|]. rewrite <- (strip_hash _ _ Hs0), <- (strip_hash _ _ Hs1), <- (strip_hash _ _ Hs).
    congruence. }
  destruct (Hcur Hnum) as (p' & d' & Hp' & Hd & Ebc & Hsd). rewrite <- (strip_hash _ _ Hs), Ep in Hp'.
  assert (p' = p) as -> by congruence. assert (d' = d) as -> by congruence. clear Hp' Hd.
  assert (winv rs (set_ctrl (mkCtrl (curNumber (ctrl w))
    (if bool_decide (current_hash (ctrl w) = Some (Types.HashNoSignsAndNonce h)) then None else currentMineReq (ctrl w))
    (role (ctrl w))
    (<[p := mkReq true (rq_headerHash d)
       (if rq_isBroadcastReq d then set_Coinbase self (rq_header d) else set_result (rq_header d) h)
       (rq_isBroadcastReq d) (rq_txs d) (Some (Difficulty h)) (rq_mineResultSendTime d)]> (reqs (ctrl w)))
    (reqCache (ctrl w)) (futureReq (ctrl w))) w)) as Hw; [|by destruct ok].
  eapply inv_update; [done|done|done|done| | |done|]; cbn [rq_header rq_mined rq_isBroadcastReq rq_mineDiff].
  - by destruct (rq_isBroadcastReq d).
  - intros [Hx Hv]. destruct (rq_isBroadcastReq d).
    + split; [done|]. by rewrite <- Hv; apply Hext.
    + rewrite (set_result_eq _ hw) by done. destruct (strip_fields _ _ Hs) as [HN HD].
      split; [by rewrite HD|]. rewrite <- Hvb. apply Hext; [by apply strip_hash|done|done].
  - intros _ Hb. rewrite Hb. rewrite (set_result_eq _ hw) by done. split; [|done].
    assert (bc = false) as -> by congruence. by exists hw, ds, r, nonce.
Qed.

Lemma run_winv es w :
  reads_signed_part -> run es w -> collision_free (requested es) -> winv (requested es) w.
Proof.
  intros Hext. induction 1 as [|e es w Hrun IH Hfw]; intros Hcf; [apply inv_new|].
  assert (forall h, h ∈ requested es -> h ∈ requested (e :: es)) as Hsub.
  { intros h Hh. unfold requested. cbn. case_match; [by right|done]. }
  assert (winv (requested (e :: es)) w) as Hinv.
  { eapply inv_rs; [done|]. apply IH. intros h1 h2 H1 H2. apply Hcf; by apply Hsub. }
  assert (forall now h txs bc, h ∈ requested (e :: es) ->
            winv (requested (e :: es)) (MiningRequestHandle now h txs bc w)) as Hreq.
  { intros now h txs bc Hh. unfold MiningRequestHandle. destruct (AddMineReq h txs bc (ctrl w)) as [c r] eqn:Ea.
    destruct (inv_AddMineReq _ _ _ _ _ _ _ _ Hinv Hh Ea) as (Hi & _ & _ & Hp).
    destruct r as [[p|]|]; [|done|done]. unfold processAppointedMineReq. case_match eqn:Hcan; [done|].
    apply negb_false_iff in Hcan. case_match eqn:Hd; [|done]. case_match eqn:Hmd; [by apply winv_send|].
    apply winv_beginMine; [done|exact Hi|done|by apply Hp|]. by rewrite Hd, <- Hmd. }
  destruct e as [n r|now h|now h txs|ok h|now]; cbn [handle].
  - unfold RoleUpdatedMsgHandler. cbv zeta.
    set (w1 := if curNumber (ctrl w) <? u64 (n + 1) then stopMineResultSender w else w).
    assert (winv (requested (RoleUpdated n r :: es)) (set_ctrl (SetNewNumber (u64 (n + 1)) r (ctrl w1)) w1)) as Hi.
    { assert (ctrl w1 = ctrl w /\ out w1 = out w) as [E1 E2] by (unfold w1; by case_match).
      unfold winv. cbn [ctrl out set_ctrl]. rewrite E1, E2. by apply inv_SetNewNumber. }
    case_match; [|done]. by apply winv_processMineReq.
  - apply Hreq. by left.
  - apply Hreq. by left.
  - by apply winv_found.
  - case_match; [by apply winv_send|done].
Qed.

(** C23: Miners work only on what the validators agreed on.  Whatever requests,
    changes of height and role, results and timers reach a worker, in any order,
    every work it gives to its agents is a header that was requested, signatures
    included, with its coinbase replaced by the node's own and no other
    difference; the header passes the engine's verification and
    its difficulty is not zero, and the node's role lets it mine at that height. *)
Theorem works_are_certified es w h diffs bc r :
  reads_signed_part -> run es w -> collision_free (requested es) -> Work h diffs bc r ∈ out w ->
  VerifyBlock reader h = Ok tt /\ Uint64 (Difficulty h) <> 0 /\
  roleCanMine r (Uint64 (Number h)) = true /\
  exists h0, h0 ∈ requested es /\ h = set_Coinbase self h0.
Proof.
  intros Hext Hrun Hcf Hin. destruct (i_work _ _ _ (run_winv es w Hext Hrun Hcf) _ _ _ _ Hin)
    as ([? ?] & _ & ? & ? & _). done.
Qed.

(** *** The result at the block generation service *)

Section Verify.
Context (light : Hash -> N -> Hash * Z) (Hlight : forall h n, hashimotoFull h n = light h n).

Lemma sealed_seal_ok h hw nonce :
  0 < Difficulty hw -> mine_nonce hw false nonce = Some h -> Manash.seal_ok light h = Ok tt.
Proof.
  intros Hd Hm. destruct (mine_nonce_spec _ _ _ _ Hm) as (_ & _ & _ & Hh). unfold Manash.seal_ok. rewrite Hh.
  unfold mine_nonce, maxUint256 in Hm. rewrite Hlight in Hm.
  destruct (light (Types.HashNoNonce hw) nonce) as [digest result] eqn:El.
  destruct (Z.leb_spec result (2 ^ 256 / Difficulty hw)); [|done]. injection Hm as <-. cbn.
  rewrite (proj2 (Z.leb_gt _ _)), El by done. rewrite bool_decide_true by done. cbn [negb].
  by rewrite (proj2 (Z.ltb_ge _ _)).
Qed.

Definition set_From (a : Address) (r : HD_MiningRspMsg) : HD_MiningRspMsg :=
  mkMiningRsp a (mr_Number r) (mr_BlockHash r) (mr_Difficulty r) (mr_Nonce r) (mr_Coinbase r)
    (mr_MixDigest r) (mr_Signatures r).

Lemma copyHeader_sealed raw h a :
  HashBinding.strip raw = HashBinding.strip h -> BlkGen.copyHeader raw (set_From a (rsp_of h)) = h.
Proof. destruct raw, h. unfold HashBinding.strip, BlkGen.copyHeader. cbn. intros [=]. by subst. Qed.

(** An honest miner's result is accepted.  Let the worker's search use the
    same proof of work as the check.  Then every result that a worker sends, with
    any sender filled in, passes the check of a block generation service whose
    header has the hash of the result: the fields of the result make that header
    the one that was mined, with the signatures that were verified when the
    request came in. *)
Theorem miner_result_accepted es w r raw from :
  reads_signed_part -> run es w -> collision_free (requested es) ->
  Forall (fun h => 0 <= Difficulty h) (requested es) ->
  MiningRsp r ∈ out w -> Types.HashNoSignsAndNonce raw = mr_BlockHash r ->
  (forall h0, h0 ∈ requested es -> Types.HashNoSignsAndNonce raw = Types.HashNoSignsAndNonce h0 ->
     HashBinding.strip raw = HashBinding.strip h0) ->
  BlkGen.verifyOneResult (mkEthash false false 0) light reader raw (set_From from r) = Ok tt.
Proof.
  intros Hext Hrun Hcf Hd Hin Hraw Hcol. pose proof (run_winv es w Hext Hrun Hcf) as Hinv.
  destruct (i_rsp _ _ _ Hinv r Hin) as (h & (hw & ds & rl & nonce & Hw & Hm) & ->).
  destruct (i_work _ _ _ Hinv _ _ _ _ Hw) as ([Hdiff Hvb] & _ & _ & (h0 & Hh0 & Hw0) & _).
  assert (HashBinding.strip hw = HashBinding.strip h0) as Hs0 by (by rewrite Hw0).
  destruct (mine_nonce_spec _ _ _ _ Hm) as (Hs & Hsig & _ & _).
  assert (HashBinding.strip raw = HashBinding.strip h) as Hsr.
  { etrans; [apply (Hcol h0 Hh0)|congruence]. rewrite Hraw. cbn. by apply strip_hash; congruence. }
  destruct (strip_fields _ _ Hs) as [HN HD]. destruct (strip_fields _ _ Hs0) as [_ HD0].
  unfold BlkGen.verifyOneResult. rewrite copyHeader_sealed by done. cbn [mr_BlockHash set_From rsp_of].
  rewrite bool_decide_true by done. cbn [negb].
  rewrite (Hext h hw (strip_hash _ _ Hs) Hsig HN), Hvb. cbn [negb is_ok].
  unfold BlkGen.VerifySeal. cbn [Manash.VerifySeal orb]. rewrite (sealed_seal_ok h hw nonce); [done| |done].
  rewrite Forall_forall in Hd. specialize (Hd h0 Hh0). rewrite HD0 in *. unfold Uint64 in Hdiff.
  destruct (decide (Difficulty h0 = 0)) as [E0|]; [by rewrite E0 in Hdiff|lia].
Qed.

End Verify.

End Miner.

(** ** The engine of the node *)

Lemma MtxDPOS_reads_signed_part `{Crypto} `{GoRange} BroadCastNodes reader :
  @reads_signed_part _ (MtxDPOS BroadCastNodes) reader.
Proof.
  intros h1 h2 Hh Hs Hn. cbn. unfold Dpos.VerifyBlock, Dpos.verifyBroadcastBlock. by rewrite Hh, Hs, Hn.
Qed.

(** ** What the source does not mean to do *)

Section Flaws.
Context `{Crypto} `{GoRange} `{E : DPOSEngine} (reader : ValidatorReader) (self : Address).

(** The same result in the name of another account. *)
Definition claim_by (a : Address) (r : HD_MiningRspMsg) : HD_MiningRspMsg :=
  mkMiningRsp a (mr_Number r) (mr_BlockHash r) (mr_Difficulty r) (mr_Nonce r) a
    (mr_MixDigest r) (mr_Signatures r).

Lemma VerifySeal_coinbase light manash h a :
  Manash.VerifySeal light manash (set_Coinbase a h) = Manash.VerifySeal light manash h.
Proof. by induction manash as [| ???? IH]; cbn; rewrite ?IH. Qed.

(** The proof of work is not bound to the miner.  Neither the hash that is
    searched for a nonce nor the one that validators sign covers the coinbase, so
    whoever sees a result that passes the check of the block generation service
    can send it again with any account as sender and coinbase, and it passes. *)
Theorem result_coinbase_free manash light raw r a :
  reads_signed_part reader ->
  BlkGen.verifyOneResult manash light reader raw r = Ok tt ->
  BlkGen.verifyOneResult manash light reader raw (claim_by a r) = Ok tt.
Proof.
  intros Hext. unfold BlkGen.verifyOneResult, BlkGen.VerifySeal.
  change (BlkGen.copyHeader raw (claim_by a r)) with (set_Coinbase a (BlkGen.copyHeader raw r)).
  set (h := BlkGen.copyHeader raw r). cbn [mr_BlockHash claim_by]. rewrite VerifySeal_coinbase.
  change (Types.HashNoSignsAndNonce (set_Coinbase a h)) with (Types.HashNoSignsAndNonce h).
  by rewrite (Hext (set_Coinbase a h) h).
Qed.

(** The request that is being mined is not forgotten when the height changes, *)
Lemma SetNewNumber_keeps_current n r c : currentMineReq (SetNewNumber reader n r c) = currentMineReq c.
Proof. unfold SetNewNumber, fixMap. by repeat case_match. Qed.

(** and as long as it is there unmined, no request with an earlier time is
    worked on, also one of the next height. *)
Lemma stale_request_blocks p d w q cur :
  currentMineReq (ctrl w) = Some q -> reqs (ctrl w) !! q = Some cur -> rq_mined cur = false ->
  reqs (ctrl w) !! p = Some d -> Time (rq_header d) <= Time (rq_header cur) ->
  beginMine self p w = w.
Proof.
  intros Hq Hcur Hm Hd Ht. unfold beginMine. rewrite Hd, Hq. cbn [mbind option_bind]. rewrite Hcur, Hm.
  rewrite (proj2 (Z.leb_le _ _)) by done. by destruct (mining w).
Qed.

(** [Lock] of a mutex that is [held]; no way on is [None]. *)
Definition lock (held : bool) : option bool := if held then None else Some true.

(** [pendingBlock] locks the mutex a second time when the node is mining. *)
Definition pendingBlock {A} (new current : A) (mining : bool) (currentMu : bool) : option A :=
  held ← lock currentMu;
  if negb mining then Some new
  else (_ ← lock held; Some current).

Lemma pendingBlock_deadlocks {A} (new current : A) : pendingBlock new current true false = None.
Proof. done. Qed.

End Flaws.

(** ** A worker at height 21 *)

#[local] Instance accept_all : DPOSEngine :=
  {| engine_error := unit;
     VerifyBlock _ _ := Ok tt;
     VerifyHashWithNumber _ _ signs _ := Ok signs;
     VerifyHashWithVerifiedSignsAndNumber _ votes _ := Ok (map vs_Sign votes) |}.
#[local] Existing Instance Signature.toy_crypto.
#[local] Existing Instance sorted_range.

Definition no_reader : ValidatorReader := {| GetCurrentNumber := 0; GetValidatorByNumber _ := None |}.
Definition miner_address : Address := 77%N.

(** Of the nonces, those divisible by 4 are good. *)
Definition toy_hashimoto (h : Hash) (nonce : N) : Hash * Z :=
  (nonce, if (nonce mod 4 =? 0)%N then 0 else 2 ^ 256).

Definition toy_work : Header := set_Coinbase miner_address HashBinding.sample_header.
Definition toy_found : Header :=
  default toy_work (mine toy_hashimoto 5 toy_work false 6%N).

Definition toy_events : list event :=
  [Resend 1000; Found true toy_found; MiningReq 0 HashBinding.sample_header; RoleUpdated 20 RoleMiner].
Definition toy_worker : worker :=
  foldr (handle no_reader miner_address) newWorker toy_events.

Lemma toy_run : run no_reader miner_address toy_hashimoto toy_events toy_worker.
Proof.
  apply run_cons; [|done]. apply run_cons.
  - apply run_cons; [|done]. apply run_cons; [apply run_nil|done].
  - exists toy_work, [9], false, RoleMiner, 6%N, 5%nat. split; [|done]. vm_compute. by left.
Qed.

Lemma toy_collision_free : collision_free (requested toy_events).
Proof.
  intros h1 h2. change (requested toy_events) with [HashBinding.sample_header].
  rewrite !list_elem_of_singleton. by intros -> ->.
Qed.

Lemma toy_reads : reads_signed_part no_reader.
Proof. done. Qed.

Lemma works_are_certified_witness :
  Work toy_work [9] false RoleMiner ∈ out toy_worker /\
  roleCanMine RoleMiner (Uint64 (Number toy_work)) = true /\
  exists h0, h0 ∈ requested toy_events /\ toy_work = set_Coinbase miner_address h0.
Proof.
  assert (Work toy_work [9] false RoleMiner ∈ out toy_worker) as Hin by (vm_compute; right; by left).
  destruct (works_are_certified no_reader miner_address toy_hashimoto toy_events toy_worker _ _ _ _
              toy_reads toy_run toy_collision_free Hin) as (_ & _ & Hr & Hc). done.
Defined.

Lemma miner_result_accepted_witness :
  BlkGen.verifyOneResult (mkEthash false false 0) toy_hashimoto no_reader HashBinding.sample_header
    (set_From 5%N (rsp_of toy_found)) = Ok tt.
Proof.
  apply (miner_result_accepted no_reader miner_address toy_hashimoto toy_hashimoto ltac:(done) toy_events
           toy_worker (rsp_of toy_found) HashBinding.sample_header 5%N toy_reads toy_run toy_collision_free).
  - by repeat constructor.
  - vm_compute. by left.
  - by vm_compute.
  - intros h0. change (requested toy_events) with [HashBinding.sample_header].
    rewrite list_elem_of_singleton. intros -> _. reflexivity.
Defined.

Lemma result_coinbase_free_witness :
  BlkGen.verifyOneResult (mkEthash false false 0) toy_hashimoto no_reader HashBinding.sample_header
    (claim_by 666%N (rsp_of toy_found)) = Ok tt.
Proof. apply (result_coinbase_free no_reader); [apply toy_reads|]. by vm_compute. Defined.

End Miner.
