(* ===== verification/RlpDecode.v ===== *)
(** * Package [rlp]: the streaming decoder

    Models rlp/decode.go: the [Stream] with its limits on the input and on every
    enclosing list, the canonicity checks, and the decoders that [makeDecoder]
    picks for a type.  Types with a [DecodeRLP] method of their own, [RawValue]
    and fields tagged "tail" are outside the modelled types, as in Rlp.v.

    The theorems relate it to the encoder of Rlp.v: the decoder gives encoded
    values back, and what it accepts is the encoding of its result. *)

From S2P Require Import Prelude Rlp.
Set Warnings "-register-all".

Module RlpDecode.
Import Rlp.

#[export] Instance rlp_Kind_eq_dec : EqDecision Kind.
Proof. solve_decision. Defined.

Inductive derror :=
| EOL | ErrEOF | ErrUnexpectedEOF'
| ErrExpectedString' | ErrExpectedList' | ErrCanonInt | ErrCanonSize'
| ErrElemTooLarge | ErrValueTooLarge' | ErrMoreThanOneValue
| errNotInList | errNotAtEOL | errUintOverflow
| ErrTooFew | ErrTooLong | ErrTooShort | ErrBool
| decodeError (e : derror)
| OutOfFuel.

#[export] Instance derror_eq_dec : EqDecision derror.
Proof. solve_decision. Defined.

(** ** The stream *)

(** [kind] is [None] for -1; the innermost list is first on the stack. *)
Record Stream := mkStream {
  s_in : list Z;                       (* what is left in the reader *)
  s_remaining : Z;
  s_limited : bool;
  s_kind : option Kind;
  s_size : Z;
  s_byteval : Z;
  s_kinderr : option derror;
  s_stack : list (Z * Z)               (* pos, size *)
}.

(** A step returns the stream it leaves and a value or an error. *)
Abbreviation read A := (Stream -> Stream * res derror A).

Definition bind {A B} (m : read A) (k : A -> read B) : read B :=
  fun s => match m s with (s, Ok a) => k a s | (s, Err e) => (s, Err e) end.
Definition ret {A} (a : A) : read A := fun s => (s, Ok a).
Definition fail {A} (e : derror) : read A := fun s => (s, Err e).
Definition map_err {A} (f : derror -> derror) (m : read A) : read A :=
  fun s => match m s with (s, Ok a) => (s, Ok a) | (s, Err e) => (s, Err (f e)) end.

Declare Scope read_scope.
Delimit Scope read_scope with read.
Notation "'let*' x := m 'in' k" := (bind m (fun x => k))
  (at level 10, x pattern, m at level 200, k at level 200) : read_scope.
Open Scope read_scope.

Definition set_kind (k : option Kind) (s : Stream) : Stream :=
  mkStream (s_in s) (s_remaining s) (s_limited s) k (s_size s) (s_byteval s) (s_kinderr s) (s_stack s).
Definition set_in (i : list Z) (s : Stream) : Stream :=
  mkStream i (s_remaining s) (s_limited s) (s_kind s) (s_size s) (s_byteval s) (s_kinderr s) (s_stack s).
Definition set_byteval (b : Z) (s : Stream) : Stream :=
  mkStream (s_in s) (s_remaining s) (s_limited s) (s_kind s) (s_size s) b (s_kinderr s) (s_stack s).
Definition set_stack (st : list (Z * Z)) (s : Stream) : Stream :=
  mkStream (s_in s) (s_remaining s) (s_limited s) (s_kind s) (s_size s) (s_byteval s) (s_kinderr s) st.

(** [rearm]: [s.kind = -1]. *)
Definition rearm : read unit := fun s => (set_kind None s, Ok tt).

(** The position is advanced before the limit on the input is checked. *)
Definition willRead (n : Z) : read unit := fun s =>
  let s := set_kind None s in
  let check_input s :=
    if s_limited s then
      if s_remaining s <? n then (s, Err ErrValueTooLarge')
      else (mkStream (s_in s) (u64 (s_remaining s - n)) (s_limited s) (s_kind s) (s_size s)
              (s_byteval s) (s_kinderr s) (s_stack s), Ok tt)
    else (s, Ok tt) in
  match s_stack s with
  | [] => check_input s
  | (pos, size) :: st =>
      if u64 (size - pos) <? n then (s, Err ErrElemTooLarge)
      else check_input (set_stack ((u64 (pos + n), size) :: st) s)
  end.

Definition readByte : read Z :=
  let* _ := willRead 1 in
  fun s => match s_in s with
           | [] => (s, Err ErrUnexpectedEOF')
           | b :: i => (set_in i s, Ok b)
           end.

Definition readFull (n : Z) : read (list Z) :=
  let* _ := willRead n in
  fun s =>
    let k := Z.to_nat n in
    if (length (s_in s) <? k)%nat then (set_in [] s, Err ErrUnexpectedEOF')
    else (set_in (drop k (s_in s)) s, Ok (take k (s_in s))).

Definition readUint (size : Z) : read Z :=
  if size =? 0 then let* _ := rearm in ret 0
  else if size =? 1 then readByte
  else
    let* b := readFull size in
    if default 0 (b !! 0%nat) =? 0 then fail ErrCanonSize'
    else ret (read_be b (length b)).

(** At top level the end of the input is [io.EOF].  An error comes with the kind
    and size read so far. *)
Definition readKind : Stream -> Stream * (Kind * Z * option derror) := fun s =>
  let eof e := match s_stack s, e with
               | [], ErrUnexpectedEOF' | [], ErrValueTooLarge' => ErrEOF
               | _, _ => e
               end in
  let sized k n s :=
    match readUint n s with
    | (s, Ok size) => (s, (k, size, if size <? 56 then Some ErrCanonSize' else None))
    | (s, Err e) => (s, (k, 0, Some e))
    end in
  match readByte s with
  | (s, Err e) => (s, (Byte, 0, Some (eof e)))
  | (s, Ok b) =>
      let s := set_byteval 0 s in
      if b <? 0x80 then (set_byteval b s, (Byte, 0, None))
      else if b <? 0xB8 then (s, (String, b - 0x80, None))
      else if b <? 0xC0 then sized String (b - 0xB7) s
      else if b <? 0xF8 then (s, (List, b - 0xC0, None))
      else sized List (b - 0xF7) s
  end.

Definition set_ahead (k : Kind) (size : Z) (e : option derror) (s : Stream) : Stream :=
  mkStream (s_in s) (s_remaining s) (s_limited s) (Some k) size (s_byteval s) e (s_stack s).

Definition clear_kinderr (s : Stream) : Stream :=
  mkStream (s_in s) (s_remaining s) (s_limited s) (s_kind s) (s_size s) (s_byteval s) None (s_stack s).

(** The kind and size of the value ahead, read once and kept with the error of
    reading them until the value is read. *)
Definition Stream_Kind : read (Kind * Z) := fun s =>
  match s_kind s with
  | Some k => (s, match s_kinderr s with None => Ok (k, s_size s) | Some e => Err e end)
  | None =>
      let s := clear_kinderr s in
      if match s_stack s with (pos, size) :: _ => pos =? size | [] => false end
      then (s, Err EOL)
      else
        let '(s, (k, size, err)) := readKind s in
        let err :=
          match err, s_stack s with
          | Some e, _ => Some e
          | None, [] => if s_limited s && (s_remaining s <? size)
                        then Some ErrValueTooLarge' else None
          | None, (pos, sz) :: _ => if u64 (sz - pos) <? size
                                    then Some ErrElemTooLarge else None
          end in
        (set_ahead k size err s, match err with None => Ok (k, size) | Some e => Err e end)
  end.

(** ** Reading values *)

Definition Stream_Bytes : read (list Z) :=
  let* (kind, size) := Stream_Kind in
  match kind with
  | Byte => fun s => (set_kind None s, Ok [s_byteval s])
  | String =>
      let* b := readFull size in
      if (size =? 1) && (default 0 (b !! 0%nat) <? 128) then fail ErrCanonSize' else ret b
  | List => fail ErrExpectedString'
  end.

(** A zero byte is refused without being consumed. *)
Definition Stream_uint (maxbits : Z) : read Z :=
  let* (kind, size) := Stream_Kind in
  match kind with
  | Byte => fun s => if s_byteval s =? 0 then (s, Err ErrCanonInt)
                     else (set_kind None s, Ok (s_byteval s))
  | String =>
      if Z.quot maxbits 8 <? size then fail errUintOverflow
      else
        let* v := map_err (fun e => if decide (e = ErrCanonSize') then ErrCanonInt else e)
                    (readUint size) in
        if (0 <? size) && (v <? 128) then fail ErrCanonSize' else ret v
  | List => fail ErrExpectedString'
  end.

Definition Stream_Bool : read bool :=
  let* num := Stream_uint 8 in
  if num =? 0 then ret false else if num =? 1 then ret true else fail ErrBool.

Definition Stream_List : read Z :=
  let* (kind, size) := Stream_Kind in
  match kind with
  | List => fun s =>
      (mkStream (s_in s) (s_remaining s) (s_limited s) None 0 (s_byteval s) (s_kinderr s)
         ((0, size) :: s_stack s), Ok size)
  | _ => fail ErrExpectedList'
  end.

Definition bump (n : Z) (st : list (Z * Z)) : list (Z * Z) :=
  match st with [] => [] | (pos, size) :: st => (u64 (pos + n), size) :: st end.

Definition Stream_ListEnd : read unit := fun s =>
  match s_stack s with
  | [] => (s, Err errNotInList)
  | (pos, size) :: st =>
      if negb (pos =? size) then (s, Err errNotAtEOL)
      else (mkStream (s_in s) (s_remaining s) (s_limited s) None 0 (s_byteval s) (s_kinderr s)
              (bump size st), Ok tt)
  end.

(** ** Decoders by type *)

(** The types of Rlp.v with the widths and lengths that decoding needs;
    [DOptPtr] is a pointer field tagged "nil". *)
Inductive dtype :=
| DUint (bits : Z) | DBool | DString | DBytes | DByteArray (n : nat) | DBigInt
| DSlice (t : dtype) | DArray (n : nat) (t : dtype) | DStruct (fields : list dtype)
| DPtr (t : dtype) | DOptPtr (t : dtype) | DIface.

Definition wrapStreamError (e : derror) : derror :=
  match e with
  | ErrCanonInt | ErrCanonSize' | ErrExpectedList' | ErrExpectedString'
  | errUintOverflow | errNotAtEOL => decodeError e
  | _ => e
  end.

Section elements.
Context (elemdec : read goval).

(** Elements up to the end of the list. *)
Fixpoint decodeSliceElems (fuel : nat) : read (list goval) :=
  match fuel with
  | O => fail OutOfFuel
  | S fuel => fun s =>
      match elemdec s with
      | (s, Err EOL) => (s, Ok [])
      | (s, Err e) => (s, Err e)
      | (s, Ok v) => (let* vs := decodeSliceElems fuel in ret (v :: vs)) s
      end
  end.

Definition decodeListSlice (fuel : nat) : read (list goval) :=
  let* size := map_err wrapStreamError Stream_List in
  if size =? 0 then let* _ := Stream_ListEnd in ret []
  else
    let* vs := decodeSliceElems fuel in
    let* _ := Stream_ListEnd in ret vs.

Fixpoint decodeArrayElems (n : nat) : read (list goval) :=
  match n with
  | O => ret []
  | S n => fun s =>
      match elemdec s with
      | (s, Err EOL) => (s, Err (decodeError ErrTooFew))
      | (s, Err e) => (s, Err e)
      | (s, Ok v) => (let* vs := decodeArrayElems n in ret (v :: vs)) s
      end
  end.

Definition decodeListArray (n : nat) : read (list goval) :=
  let* _ := map_err wrapStreamError Stream_List in
  let* vs := decodeArrayElems n in
  let* _ := map_err wrapStreamError Stream_ListEnd in
  ret vs.
End elements.

(** The fields of a struct, in order. *)
Fixpoint decodeFields (decs : list (read goval)) : read (list goval) :=
  match decs with
  | [] => ret []
  | dec :: decs => fun s =>
      match dec s with
      | (s, Err EOL) => (s, Err (decodeError ErrTooFew))
      | (s, Err e) => (s, Err e)
      | (s, Ok v) => (let* vs := decodeFields decs in ret (v :: vs)) s
      end
  end.

(** The decoder [makeStructDecoder] returns. *)
Definition decodeStruct (decs : list (read goval)) : read (list goval) :=
  let* _ := map_err wrapStreamError Stream_List in
  let* vs := decodeFields decs in
  let* _ := map_err wrapStreamError Stream_ListEnd in
  ret vs.

Definition decodeBigInt : read goval :=
  let* b := map_err wrapStreamError Stream_Bytes in
  match b with
  | 0 :: _ => fail (wrapStreamError ErrCanonInt)
  | _ => ret (VBigInt (Some (read_be b (length b))))
  end.

(** The error of [Uint] is dropped. *)
Definition decodeByteArray (vlen : nat) : read goval :=
  let n := Z.of_nat vlen in
  let* (kind, size) := Stream_Kind in
  match kind with
  | Byte =>
      if n =? 0 then fail (decodeError ErrTooLong)
      else if 1 <? n then fail (decodeError ErrTooShort)
      else fun s => match Stream_uint 64 s with
                    | (s, Ok bv) => (s, Ok (VBytes [bv]))
                    | (s, Err _) => (s, Ok (VBytes [0]))
                    end
  | String =>
      if n <? size then fail (decodeError ErrTooLong)
      else if size <? n then fail (decodeError ErrTooShort)
      else
        let* slice := readFull n in
        if (size =? 1) && (default 0 (slice !! 0%nat) <? 128)
        then fail (wrapStreamError ErrCanonSize') else ret (VBytes slice)
  | List => fail (wrapStreamError ErrExpectedString')
  end.

(** A list becomes a []interface{}, a string a []byte. *)
Fixpoint decodeInterface (fuel : nat) : read goval :=
  match fuel with
  | O => fail OutOfFuel
  | S fuel =>
      let* (kind, _) := Stream_Kind in
      match kind with
      | List => let* vs := decodeListSlice (decodeInterface fuel) fuel in
                ret (VIface (Some (TSlice TIface, VSlice vs)))
      | _ => let* b := Stream_Bytes in ret (VIface (Some (TBytes, VBytes b)))
      end
  end.

Fixpoint erase (t : dtype) : gotype :=
  match t with
  | DUint _ => TUint | DBool => TBool | DString => TString | DBytes => TBytes
  | DByteArray _ => TByteArray | DBigInt => TBigInt
  | DSlice t => TSlice (erase t) | DArray _ t => TArray (erase t)
  | DStruct ts => TStruct (map erase ts)
  | DPtr t | DOptPtr t => TPtr (erase t)
  | DIface => TIface
  end.

Definition decodeUint (bits : Z) : read goval :=
  let* n := map_err wrapStreamError (Stream_uint bits) in ret (VUint n).

Definition decodeBool : read goval :=
  let* b := map_err wrapStreamError Stream_Bool in ret (VBool b).

Definition decodeString : read goval :=
  let* b := map_err wrapStreamError Stream_Bytes in ret (VString b).

Definition decodeByteSlice : read goval :=
  let* b := map_err wrapStreamError Stream_Bytes in ret (VBytes b).

(** The decoders [makePtrDecoder] and [makeOptionalPtrDecoder] return for an
    element type [t] with decoder [dec]; the pointer is nil before. *)
Definition decodePtr (t : gotype) (dec : read goval) : read goval :=
  let* v := dec in ret (VPtr t (Some v)).

Definition decodeOptionalPtr (t : gotype) (dec : read goval) : read goval := fun s =>
  match Stream_Kind s with
  | (s, Err e) => (set_kind None s, Err e)
  | (s, Ok (kind, size)) =>
      if (size =? 0) && bool_decide (kind <> Byte)
      then (set_kind None s, Ok (VPtr t None))
      else decodePtr t dec s
  end.

(** [makeDecoder]: the decoder of a type, for a variable that holds the zero value
    of the type. *)
Fixpoint decoder (t : dtype) (fuel : nat) : read goval :=
  match t with
  | DUint bits => decodeUint bits
  | DBool => decodeBool
  | DString => decodeString
  | DBytes => decodeByteSlice
  | DByteArray n => decodeByteArray n
  | DBigInt => decodeBigInt
  | DSlice t => let* vs := decodeListSlice (decoder t fuel) fuel in ret (VSlice vs)
  | DArray n t => let* vs := decodeListArray (decoder t fuel) n in ret (VSlice vs)
  | DStruct ts =>
      let* vs := decodeStruct (map (fun t => decoder t fuel) ts) in ret (VStruct vs)
  | DPtr t => decodePtr (erase t) (decoder t fuel)
  | DOptPtr t => decodeOptionalPtr (erase t) (decoder t fuel)
  | DIface => decodeInterface fuel
  end.

(** [NewStream] on a byte slice: a limit of 0 is replaced by the length. *)
Definition NewStream (r : list Z) (inputLimit : Z) : Stream :=
  mkStream r (if 0 <? inputLimit then inputLimit else Z.of_nat (length r)) true None 0 0 None [].

Definition DecodeBytes (t : dtype) (b : list Z) : res derror goval :=
  match decoder t (S (length b)) (NewStream b (Z.of_nat (length b))) with
  | (_, Err e) => Err e
  | (s, Ok v) => if (0 <? length (s_in s))%nat then Err ErrMoreThanOneValue else Ok v
  end.

(** ** Reference semantics: the value of a type that an item denotes *)

(** No leading zero byte. *)
Definition canonical (b : list Z) : bool := match b with 0 :: _ => false | _ => true end.

Fixpoint iface_of (it : item) : goval :=
  match it with
  | Str b => VIface (Some (TBytes, VBytes b))
  | Lst l => VIface (Some (TSlice TIface, VSlice (map iface_of l)))
  end.

Definition empty_item (it : item) : bool :=
  match it with Str [] | Lst [] => true | _ => false end.

Fixpoint of_items (fs : list (item -> option goval)) (l : list item) : option (list goval) :=
  match fs, l with
  | [], [] => Some []
  | f :: fs, it :: l => v ← f it; vs ← of_items fs l; Some (v :: vs)
  | _, _ => None
  end.

Fixpoint of_item (t : dtype) (it : item) : option goval :=
  match t, it with
  | DUint bits, Str b =>
      if canonical b && (zlen b <=? Z.quot bits 8) then Some (VUint (read_be b (length b))) else None
  | DBool, Str [] => Some (VBool false)
  | DBool, Str [b] => if b =? 1 then Some (VBool true) else None
  | DString, Str b => Some (VString b)
  | DBytes, Str b => Some (VBytes b)
  | DByteArray n, Str b => if (length b =? n)%nat then Some (VBytes b) else None
  | DBigInt, Str b => if canonical b then Some (VBigInt (Some (read_be b (length b)))) else None
  | DSlice t, Lst l => VSlice <$> list.mapM (of_item t) l
  | DArray n t, Lst l => VSlice <$> of_items (replicate n (of_item t)) l
  | DStruct ts, Lst l => VStruct <$> of_items (map of_item ts) l
  | DPtr t, it => (fun v => VPtr (erase t) (Some v)) <$> of_item t it
  | DOptPtr t, it =>
      if empty_item it then Some (VPtr (erase t) None)
      else (fun v => VPtr (erase t) (Some v)) <$> of_item t it
  | DIface, it => Some (iface_of it)
  | _, _ => None
  end.

(** ** The limits *)

(** What may still be read: the rest of the input and of the innermost list. *)
Definition room (s : Stream) : Z :=
  match s_stack s with
  | [] => s_remaining s
  | (pos, size) :: _ => Z.min (size - pos) (s_remaining s)
  end.

Definition ready (s : Stream) : Prop :=
  s_limited s = true /\ in_u64 (s_remaining s) /\
  match s_stack s with [] => True | (pos, size) :: _ => 0 <= pos <= size /\ size < 2 ^ 64 end.

(** The stream after [n] bytes were counted, and after [bs] was read. *)
Definition took (n : Z) (s : Stream) : Stream :=
  mkStream (s_in s) (s_remaining s - n) (s_limited s) None (s_size s) (s_byteval s) (s_kinderr s)
    (bump n (s_stack s)).

(** [s'] is [s] after the bytes [bs]. *)
Record reads (bs : list Z) (s s' : Stream) : Prop := {
  reads_in : s_in s = bs ++ s_in s';
  reads_remaining : s_remaining s' = s_remaining s - zlen bs;
  reads_limited : s_limited s' = s_limited s;
  reads_stack : s_stack s' = bump (zlen bs) (s_stack s)
}.

Lemma bump_bump n m st : bump n (bump m st) = bump (m + n) st.
Proof.
  destruct st as [|[p z] st]; [done|]. simpl. unfold u64. rewrite Zplus_mod_idemp_l.
  do 3 f_equal. lia.
Qed.

Lemma reads_app a b s1 s2 s3 : reads a s1 s2 -> reads b s2 s3 -> reads (a ++ b) s1 s3.
Proof.
  intros [I1 R1 L1 K1] [I2 R2 L2 K2]. split.
  - by rewrite I1, I2, <- app_assoc.
  - rewrite R2, R1, zlen_app. lia.
  - by rewrite L2.
  - by rewrite K2, K1, bump_bump, zlen_app.
Qed.

Lemma reads_ready bs s s' :
  ready s -> reads bs s s' -> zlen bs <= room s -> ready s' /\ room s' = room s - zlen bs.
Proof.
  intros (Hl & [Hr1 Hr2] & Hst) [_ R L K] Hroom. pose proof (zlen_nonneg bs).
  unfold ready, room in *. rewrite L, R, K, Hl.
  destruct (s_stack s) as [|[p z] st]; simpl; [repeat split; lia|].
  rewrite u64_small by (split; lia). repeat split; lia.
Qed.

Lemma willRead_ok n s :
  ready s -> 0 <= n <= room s -> willRead n s = (took n s, Ok tt).
Proof.
  intros (Hl & [Hr1 Hr2] & Hst) Hroom. unfold willRead, room, took, bump in *.
  simpl. rewrite Hl. destruct (s_stack s) as [|[p z] st]; simpl.
  - by rewrite (proj2 (Z.ltb_ge _ _)), u64_small by (try split; lia).
  - rewrite (u64_small (z - p)), (proj2 (Z.ltb_ge (z - p) n)) by (try split; lia). simpl.
    by rewrite (proj2 (Z.ltb_ge _ _)), (u64_small (_ - n)) by (try split; lia).
Qed.

Lemma willRead_inv n s s' :
  ready s -> 0 <= n -> willRead n s = (s', Ok tt) -> n <= room s /\ s' = took n s.
Proof.
  intros Hs Hn E. assert (n <= room s) as Hroom.
  { destruct Hs as (Hl & [Hr1 Hr2] & Hst). unfold willRead, room in *. simpl in E.
    destruct (s_stack s) as [|[p z] st]; simpl in E; rewrite ?Hl in E.
    - destruct (Z.ltb_spec (s_remaining s) n); [done|lia].
    - rewrite (u64_small (z - p)) in E by (split; lia).
      destruct (Z.ltb_spec (z - p) n); [done|]. simpl in E. rewrite ?Hl in E.
      destruct (Z.ltb_spec (s_remaining s) n); [done|lia]. }
  split; [done|]. rewrite willRead_ok in E by (done || lia). congruence.
Qed.

Lemma took_reads bs s rest : s_in s = bs ++ rest -> reads bs s (set_in rest (took (zlen bs) s)).
Proof. by split. Qed.

Lemma readFull_ok bs rest s :
  ready s -> s_in s = bs ++ rest -> zlen bs <= room s ->
  readFull (zlen bs) s = (set_in rest (took (zlen bs) s), Ok bs).
Proof.
  intros Hs Hi Hroom. pose proof (zlen_nonneg bs). unfold readFull, bind.
  rewrite willRead_ok by (done || lia). simpl. rewrite Hi. unfold zlen. rewrite Nat2Z.id.
  rewrite (proj2 (Nat.ltb_ge _ _)) by (rewrite length_app; lia).
  by rewrite take_app_length, drop_app_length.
Qed.

Lemma readFull_inv n s s' bs :
  ready s -> 0 <= n -> readFull n s = (s', Ok bs) ->
  zlen bs = n /\ n <= room s /\ s' = set_in (s_in s') (took n s) /\ s_in s = bs ++ s_in s'.
Proof.
  intros Hs Hn E. unfold readFull, bind in E.
  destruct (willRead n s) as [s1 [[]|e]] eqn:Ew; [|done].
  apply willRead_inv in Ew as [Hroom ->]; [|done..]. simpl in E.
  destruct (Nat.ltb_spec (length (s_in s)) (Z.to_nat n)); [done|]. injection E as <- <-.
  simpl. rewrite take_drop. repeat split; [|done].
  unfold zlen. rewrite length_take. lia.
Qed.

Lemma readByte_ok b rest s :
  ready s -> s_in s = b :: rest -> 1 <= room s ->
  readByte s = (set_in rest (took 1 s), Ok b).
Proof.
  intros Hs Hi Hroom. unfold readByte, bind. rewrite willRead_ok by (done || lia).
  simpl. by rewrite Hi.
Qed.

Lemma readByte_inv s s' b :
  ready s -> readByte s = (s', Ok b) ->
  1 <= room s /\ s' = set_in (s_in s') (took 1 s) /\ s_in s = b :: s_in s'.
Proof.
  intros Hs E. unfold readByte, bind in E.
  destruct (willRead 1 s) as [s1 [[]|e]] eqn:Ew; [|done].
  apply willRead_inv in Ew as [Hroom ->]; [|done..]. simpl in E.
  destruct (s_in s) as [|b' i] eqn:Ei; [done|]. by injection E as <- <-.
Qed.

(** ** Big-endian numbers *)

Definition bytes_ok (bs : list Z) : Prop := Forall (fun b => 0 <= b < 256) bs.
Abbreviation be bs := (read_be bs (length bs)).

Lemma be_foldl bs acc :
  bytes_ok bs ->
  foldl (fun acc x => Z.lor (Z.shiftl acc 8) x) acc bs
  = acc * 2 ^ (8 * zlen bs) + foldl (fun acc x => Z.lor (Z.shiftl acc 8) x) 0 bs.
Proof.
  intros H. revert acc. induction H as [|b bs Hb _ IH]; intros acc; [unfold zlen; simpl; lia|].
  cbn [foldl]. rewrite IH, (IH (Z.lor _ _)), !lor_shift8 by done.
  replace (8 * zlen (b :: bs)) with (8 + 8 * zlen bs) by (unfold zlen; simpl; lia).
  rewrite Z.pow_add_r by (unfold zlen; lia). change (2 ^ 8) with 256. ring.
Qed.

Lemma be_cons b bs : bytes_ok (b :: bs) -> be (b :: bs) = b * 2 ^ (8 * zlen bs) + be bs.
Proof.
  intros H. apply Forall_cons in H as [Hb Hbs]. unfold read_be. rewrite !firstn_all.
  cbn [foldl]. rewrite be_foldl, lor_shift8 by done. lia.
Qed.

Lemma be_range bs : bytes_ok bs -> 0 <= be bs < 2 ^ (8 * zlen bs).
Proof.
  induction bs as [|b bs IH]; intros H; [by compute|].
  rewrite be_cons by done. apply Forall_cons in H as [Hb Hbs]. specialize (IH Hbs).
  replace (8 * zlen (b :: bs)) with (8 + 8 * zlen bs) by (unfold zlen; simpl; lia).
  rewrite Z.pow_add_r by (unfold zlen; lia). nia.
Qed.

Lemma be_bytes_high n a r : be_bytes n (a * 2 ^ (8 * Z.of_nat n) + r) = be_bytes n r.
Proof.
  assert (forall m, (m <= n)%nat ->
    be_bytes m (a * 2 ^ (8 * Z.of_nat n) + r) = be_bytes m r) as H; [|by apply H].
  induction m as [|m IH]; intros Hm; [done|]. cbn [be_bytes]. rewrite IH by lia. f_equal.
  unfold byte_of, u8. rewrite !Z.shiftr_div_pow2 by lia.
  replace (8 * Z.of_nat n) with (8 * (Z.of_nat n - Z.of_nat m - 1) + 8 + 8 * Z.of_nat m) by lia.
  rewrite !Z.pow_add_r by lia. assert (0 < 2 ^ (8 * Z.of_nat m)) by (apply Z.pow_pos_nonneg; lia).
  rewrite Z.mul_assoc, Z.div_add_l by lia.
  by rewrite Z.mul_assoc, Z.add_comm, Z.mod_add by lia.
Qed.

Lemma be_bytes_be bs : bytes_ok bs -> be_bytes (length bs) (be bs) = bs.
Proof.
  induction bs as [|b bs IH]; intros H; [done|]. rewrite be_cons by done.
  apply Forall_cons in H as [Hb Hbs]. cbn [length be_bytes].
  unfold zlen. rewrite be_bytes_high, IH by done. f_equal.
  unfold byte_of, u8. rewrite Z.shiftr_div_pow2 by lia.
  pose proof (be_range bs Hbs). unfold zlen in *.
  rewrite Z.div_add_l, Z.div_small, Z.add_0_r by lia. by apply Z.mod_small.
Qed.

Lemma be_nbytes b bs : bytes_ok (b :: bs) -> b <> 0 -> nbytes (length (b :: bs)) (be (b :: bs)).
Proof.
  intros H Hb. pose proof (be_range _ H). pose proof H as [Hb' Hbs]%Forall_cons.
  split; [|apply (be_range _ H)]. rewrite be_cons by done. pose proof (be_range bs Hbs). unfold zlen in *.
  replace (8 * (Z.of_nat (length (b :: bs)) - 1)) with (8 * Z.of_nat (length bs)) by (simpl; lia).
  nia.
Qed.

(** Canonical bytes are the ones the encoder writes. *)
Lemma putint_of_bytes b bs :
  bytes_ok (b :: bs) -> b <> 0 -> (length (b :: bs) <= 8)%nat -> putint (be (b :: bs)) = b :: bs.
Proof.
  intros H Hb Hl. rewrite (putint_be (length (b :: bs))), be_bytes_be; [done|done| |].
  - simpl in *. lia.
  - by apply be_nbytes.
Qed.

Lemma big_Bytes_of_bytes bs : bytes_ok bs -> canonical bs = true -> big_Bytes (be bs) = bs.
Proof.
  intros H Hc. destruct bs as [|b bs]; [done|]. assert (b <> 0) as Hb by (intros ->; done).
  pose proof (be_nbytes b bs H Hb) as Hn. unfold big_Bytes.
  destruct (Z.eqb_spec (be (b :: bs)) 0) as [E|].
  - destruct Hn as [Hn _]. rewrite E in Hn.
    assert (0 < 2 ^ (8 * (Z.of_nat (length (b :: bs)) - 1))) by (apply Z.pow_pos_nonneg; simpl; lia).
    lia.
  - rewrite (nbytes_log2 (length (b :: bs))), be_bytes_be; [done..| |done]. simpl. lia.
Qed.

Lemma big_Bytes_canonical x : 0 <= x -> canonical (big_Bytes x) = true.
Proof.
  intros Hx. unfold big_Bytes. destruct (Z.eqb_spec x 0); [done|].
  pose proof (Z.log2_spec x ltac:(lia)) as [Hlo Hhi]. pose proof (Z.log2_nonneg x).
  pose proof (Z.div_mod (Z.log2 x) 8 ltac:(lia)).
  pose proof (Z.mod_pos_bound (Z.log2 x) 8 ltac:(lia)).
  assert (0 <= Z.log2 x / 8) by (apply Z.div_pos; lia).
  replace (Z.to_nat (Z.log2 x / 8 + 1)) with (S (Z.to_nat (Z.log2 x / 8))) by lia.
  destruct (be_bytes_head (Z.to_nat (Z.log2 x / 8)) x) as (b & bs & -> & Hb).
  - split; rewrite Nat2Z.inj_succ, Z2Nat.id by lia.
    + eapply Z.le_trans; [|exact Hlo]. apply Z.pow_le_mono_r; lia.
    + eapply Z.lt_le_trans; [exact Hhi|]. apply Z.pow_le_mono_r; lia.
  - simpl. destruct b; done.
Qed.

Lemma be_big_Bytes x : 0 <= x -> be (big_Bytes x) = x.
Proof. intros Hx. unfold read_be. rewrite firstn_all. by apply big_Bytes_value. Qed.

(** ** Headers *)

Lemma reads_same bs s s1 s2 :
  reads bs s s1 ->
  s_in s2 = s_in s1 -> s_remaining s2 = s_remaining s1 -> s_limited s2 = s_limited s1 ->
  s_stack s2 = s_stack s1 -> reads bs s s2.
Proof. intros [? ? ? ?] Ei Er El Es. split; congruence. Qed.

Lemma canonical_head b : b <> [] -> (default 0 (b !! 0%nat) =? 0) = negb (canonical b).
Proof. destruct b as [|[] b]; done. Qed.

Lemma reads_nil s : ready s -> reads [] s (set_kind None s).
Proof.
  intros (_ & _ & Hst). split; [done| |done|].
  - simpl. unfold zlen. simpl. lia.
  - simpl. unfold zlen. simpl. destruct (s_stack s) as [|[p z] st]; [done|].
    simpl. rewrite Z.add_0_r, u64_small; [done|]. split; lia.
Qed.

Lemma readUint_ok bs rest s :
  ready s -> s_in s = bs ++ rest -> zlen bs <= room s -> (1 < zlen bs -> canonical bs = true) ->
  exists s', readUint (zlen bs) s = (s', Ok (be bs)) /\ reads bs s s' /\ s_in s' = rest /\
    s_kind s' = None.
Proof.
  intros Hs Hi Hroom Hc. unfold readUint.
  destruct bs as [|b [|b1 bs]].
  - exists (set_kind None s). split; [done|]. split; [by apply reads_nil|done].
  - change (zlen [b]) with 1. cbn [Z.eqb Pos.eqb]. rewrite (readByte_ok b rest) by done.
    eexists. repeat split. by rewrite Hi.
  - assert (1 < zlen (b :: b1 :: bs)) by (unfold zlen; simpl; lia).
    rewrite (proj2 (Z.eqb_neq _ 0)), (proj2 (Z.eqb_neq _ 1)) by lia. unfold bind.
    rewrite (readFull_ok _ rest) by done. rewrite canonical_head, Hc by done.
    eexists. split; [done|]. repeat split. by rewrite Hi.
Qed.

Lemma readUint_inv n s s' v :
  ready s -> 0 <= n -> 0 <= room s -> readUint n s = (s', Ok v) ->
  exists bs, zlen bs = n /\ n <= room s /\ reads bs s s' /\ s_kind s' = None /\ v = be bs /\
    (1 < n -> canonical bs = true).
Proof.
  intros Hs Hn Hr E. unfold readUint in E.
  destruct (Z.eqb_spec n 0) as [->|Hn0].
  - injection E as <- <-. exists []. repeat split; try done; try lia; apply reads_nil; done.
  - destruct (Z.eqb_spec n 1) as [->|Hn1].
    + apply readByte_inv in E as (Hroom & E & Hi); [|done]. exists [v].
      split_and!; [done|done|rewrite E; by apply (took_reads [v])|by rewrite E| |lia].
      unfold read_be. simpl. by destruct v.
    + unfold bind in E. destruct (readFull n s) as [s1 [b|e]] eqn:Ef; [|done].
      apply readFull_inv in Ef as (Hl & Hroom & Es & Hi); [|done..].
      assert (b <> []) as Hb by (intros ->; unfold zlen in Hl; simpl in Hl; lia).
      rewrite canonical_head in E by done. destruct (canonical b) eqn:Hc; [|done].
      injection E as <- <-. exists b. rewrite <- Hl in *.
      split_and!; [done|done|rewrite Es; by apply took_reads|by rewrite Es|done|done].
Qed.

(** The header bytes of a value: a single byte [b], or the header of [size]
    bytes of content. *)
Definition header (k : Kind) (size b : Z) : list Z :=
  match k with
  | Byte => [b]
  | String => puthead 0x80 0xB7 size
  | List => puthead 0xC0 0xF7 size
  end.

Definition valid (k : Kind) (size b : Z) : Prop :=
  in_u64 size /\ (k = Byte -> size = 0 /\ 0 <= b < 128).

Lemma putint_canonical n :
  0 < n -> in_u64 n -> canonical (putint n) = true /\ be (putint n) = n.
Proof.
  intros Hn Hu. destruct (u64_nbytes n Hn Hu) as (k & Hk & Hb).
  rewrite (putint_be k) by done. split.
  - destruct k as [|k]; [lia|]. destruct (be_bytes_head k n Hb) as (b & bs & -> & Hb0).
    by destruct b.
  - rewrite be_bytes_length, <- (app_nil_r (be_bytes k n)), read_be_bytes; [done|].
    destruct Hb. split; [|done]. assert (0 < n) by done. lia.
Qed.

(** A long header: the length of the length, then the length. *)
Lemma sized_ok size rest s :
  ready s -> 56 <= size -> in_u64 size -> s_in s = putint size ++ rest ->
  zlen (putint size) <= room s ->
  exists s', readUint (zlen (putint size)) s = (s', Ok size) /\ reads (putint size) s s' /\
    s_kind s' = None.
Proof.
  intros Hs H56 Hu Hi Hroom. destruct (putint_canonical size ltac:(lia) Hu) as [Hc Hb].
  destruct (readUint_ok (putint size) rest s) as (s' & E & Hr & _ & Hk); [done..|].
  rewrite Hb in E. by exists s'.
Qed.

Lemma header_length k size b : in_u64 size -> 1 <= zlen (header k size b) <= 9.
Proof.
  intros Hu. assert (1 <= headsize size <= 9).
  { unfold headsize. destruct (Z.ltb_spec size 56); [lia|].
    rewrite <- putint_length by (done || lia).
    pose proof (putint_length_bounds size ltac:(lia) Hu). unfold zlen in *. lia. }
  destruct k; [by compute| |]; unfold zlen; simpl; by rewrite puthead_length.
Qed.

(** [puthead] without the wrap-around of its tag byte. *)
Lemma puthead_tag sm lg size :
  in_u64 size -> 0 <= sm <= 200 -> 0 <= lg <= 247 ->
  puthead sm lg size
  = if size <? 56 then [sm + size] else (lg + zlen (putint size)) :: putint size.
Proof.
  intros Hu Hsm Hlg. unfold puthead. destruct Hu, (Z.ltb_spec size 56).
  - unfold u8. by rewrite Z.mod_small by lia.
  - pose proof (putint_length_bounds size ltac:(lia) ltac:(done)). unfold zlen in *.
    unfold u8. by rewrite Z.mod_small by lia.
Qed.

Lemma readKind_tag b rest s :
  ready s -> s_in s = b :: rest -> 1 <= room s ->
  let s1 := set_byteval 0 (set_in rest (took 1 s)) in
  readByte s = (set_in rest (took 1 s), Ok b) /\ reads [b] s s1 /\ ready s1 /\
  room s1 = room s - 1.
Proof.
  intros Hs Hi Hroom s1. assert (reads [b] s s1) as Hr
    by (eapply reads_same; [exact (took_reads [b] s rest Hi)|done..]).
  split; [by apply readByte_ok|]. split; [done|]. by apply (reads_ready [b]).
Qed.

Lemma readKind_ok k size b rest s :
  ready s -> valid k size b -> s_in s = header k size b ++ rest ->
  zlen (header k size b) <= room s ->
  exists s', readKind s = (s', (k, size, None)) /\ reads (header k size b) s s' /\
    s_kind s' = None /\ (k = Byte -> s_byteval s' = b).
Proof.
  intros Hs [Hu Hv] Hi Hroom. unfold readKind.
  destruct k; unfold header in Hi, Hroom |- *; rewrite ?puthead_tag in Hi, Hroom |- * by (done || lia).
  { destruct (Hv eq_refl) as [-> Hb].
    destruct (readKind_tag b rest s) as (-> & Hr & _); [done..|].
    tag_tests. eexists. split; [done|]. split; [|done]. by eapply reads_same. }
  all: destruct (Z.ltb_spec size 56) as [H56|H56].
  1, 3: destruct Hu; destruct (readKind_tag _ rest s Hs Hi Hroom) as (-> & Hr & _);
    tag_tests; eexists; split; [do 3 f_equal; lia|by split].
  all: pose proof (putint_length_bounds size ltac:(lia) Hu) as HL;
    assert (forall t, zlen (t :: putint size) = 1 + zlen (putint size)) as Hc
      by (intros; unfold zlen; simpl; lia); rewrite Hc in Hroom;
    destruct (readKind_tag _ (putint size ++ rest) s Hs Hi ltac:(lia)) as (-> & Hr & Hs1 & Hr1);
    tag_tests;
    rewrite (Z.add_simpl_l _ (zlen (putint size)));
    destruct (sized_ok size rest _ Hs1 H56 Hu) as (s' & -> & Hr' & Hk); [done|lia|];
    exists s'; tag_tests; split_and!; [done|by apply (reads_app [_] (putint size) s _ s' Hr)|done|done].
Qed.

Lemma ready_room s : ready s -> 0 <= room s.
Proof.
  intros (_ & [? ?] & Hst). unfold room. destruct (s_stack s) as [|[p z] st]; [done|]. lia.
Qed.

Lemma reads_bytes_ok bs s s' : reads bs s s' -> bytes_ok (s_in s) -> bytes_ok bs /\ bytes_ok (s_in s').
Proof. intros [-> _ _ _] H. by apply Forall_app in H. Qed.

(** What a long header is: [n] canonical bytes with a value of 56 or more. *)
Lemma sized_inv n s s' size :
  ready s -> bytes_ok (s_in s) -> 1 <= n <= 8 -> readUint n s = (s', Ok size) -> 56 <= size ->
  in_u64 size /\ zlen (putint size) = n /\ n <= room s /\ reads (putint size) s s' /\ s_kind s' = None.
Proof.
  intros Hs Hb Hn E H56.
  apply readUint_inv in E as (bs & Hl & Hroom & Hr & Hk & -> & Hc); [|done|lia|by apply ready_room].
  destruct (reads_bytes_ok _ _ _ Hr Hb) as [Hbs _].
  assert (putint (be bs) = bs) as ->.
  { destruct bs as [|b bs]; [unfold zlen in Hl; simpl in Hl; lia|].
    apply putint_of_bytes; [done| |unfold zlen in Hl; lia].
    intros ->. destruct bs as [|b1 bs]; [by destruct H56|].
    discriminate Hc. unfold zlen in Hl. simpl in Hl. lia. }
  pose proof (be_range bs Hbs) as Hrg. split; [|done]. split; [lia|].
  eapply Z.lt_le_trans; [apply Hrg|]. apply Z.pow_le_mono_r; lia.
Qed.

Lemma readKind_inv k size s s' :
  ready s -> bytes_ok (s_in s) -> readKind s = (s', (k, size, None)) ->
  exists b, valid k size b /\ reads (header k size b) s s' /\ zlen (header k size b) <= room s /\
    s_kind s' = None /\ (k = Byte -> s_byteval s' = b).
Proof.
  intros Hs Hb E. unfold readKind in E.
  destruct (readByte s) as [s1 [t|e]] eqn:E1; [|done].
  apply readByte_inv in E1 as (Hroom & Es & Hi); [|done].
  generalize dependent (s_in s1). intros r Es Hi. subst s1. rewrite Hi in Hb.
  apply Forall_cons in Hb as [Ht Hb].
  destruct (readKind_tag t r s Hs Hi Hroom) as (_ & Hr & Hs1 & Hr1).
  assert (forall kk sm lg s1, 0 <= sm <= 200 -> 0 <= lg <= 247 -> 1 <= t - lg <= 8 ->
    match readUint (t - lg) (set_byteval 0 (set_in r (took 1 s))) with
    | (s, Ok size) => (s, (kk, size, if size <? 56 then Some ErrCanonSize' else None))
    | (s, Err e) => (s, (kk, 0, Some e))
    end = (s1, (k, size, None)) ->
    kk = k /\ in_u64 size /\ zlen (puthead sm lg size) <= room s /\
    reads (puthead sm lg size) s s1 /\ s_kind s1 = None) as Hsized.
  { intros kk sm lg s2 Hsm Hlg Ht' E'. destruct (readUint (t - lg) _) as [s3 [sz|e]] eqn:Eu; [|done].
    destruct (Z.ltb_spec sz 56) as [|H56]; [done|]. injection E' as <- <- <-.
    apply sized_inv in Eu as (Hu & Hz & Hroom' & Hr' & Hk); [|done..].
    rewrite puthead_tag by done. tag_tests. rewrite Hz, Zplus_minus.
    split_and!; [done|done| |by apply (reads_app [t] _ s _ s3 Hr)|done].
    unfold zlen in *. simpl. lia. }
  destruct (Z.ltb_spec t 128).
  { injection E as <- <- <-. exists t. split; [by split; [|intros _; lia]|].
    split; [by eapply reads_same|done]. }
  exists 0. unfold valid, header.
  destruct (Z.ltb_spec t 184); [|destruct (Z.ltb_spec t 192); [|destruct (Z.ltb_spec t 248)]].
  1, 3: injection E as <- <- <-; rewrite puthead_tag by (done || split; lia);
    tag_tests; rewrite Zplus_minus; split; [by split; [split; lia|]|]; by split_and!.
  all: [> eapply (Hsized _ 128) in E as (<- & ? & ? & ? & ?)
        | eapply (Hsized _ 192) in E as (<- & ? & ? & ? & ?)]; try lia;
    (split; [by split|]); by split_and!.
Qed.

(** ** The value ahead *)

(** A complete header of a value was read, and the value itself is next. *)
Definition ahead (k : Kind) (size b : Z) (s : Stream) : Prop :=
  s_kind s = Some k /\ s_size s = size /\ s_kinderr s = None /\ (k = Byte -> s_byteval s = b).

(** The size announced ends within the enclosing list. *)
Definition within (size : Z) (s : Stream) : Prop :=
  match s_stack s with [] => size <= s_remaining s | (pos, z) :: _ => size <= z - pos end.

Lemma Stream_Kind_ok k size b rest s :
  ready s -> s_kind s = None -> valid k size b -> s_in s = header k size b ++ rest ->
  zlen (header k size b) + size <= room s ->
  exists s', Stream_Kind s = (s', Ok (k, size)) /\ reads (header k size b) s s' /\ ahead k size b s'.
Proof.
  intros Hs Hk Hv Hi Hroom. pose proof Hv as [Hu _].
  pose proof (header_length k size b Hu) as Hlen. unfold Stream_Kind. rewrite Hk.
  assert (room (clear_kinderr s) = room s) as Hrs by done. destruct Hu as [Hu0 Hu].
  destruct (readKind_ok k size b rest (clear_kinderr s)) as (s1 & -> & Hr & Hk1 & Hb1);
    [done|done|done|lia|].
  assert (reads (header k size b) s s1) as Hr' by (by destruct Hr; split).
  destruct (reads_ready _ _ _ Hs Hr') as [(Hl1 & [H1 H2] & Hst) Hr1]; [lia|].
  assert (match s_stack (clear_kinderr s) with [] => false | (pos, sz) :: _ => pos =? sz end = false) as ->.
  { unfold room in Hroom. simpl. destruct (s_stack s) as [|[p z] st]; [done|].
    apply Z.eqb_neq. lia. }
  replace (match s_stack s1 with
           | [] => if s_limited s1 && (s_remaining s1 <? size) then Some ErrValueTooLarge' else None
           | (pos, sz) :: _ => if u64 (sz - pos) <? size then Some ErrElemTooLarge else None
           end) with (@None derror).
  - exists (set_ahead k size None s1). split; [done|]. split; [by destruct Hr'; split|done].
  - assert (size <= room s1) as Hsz by lia. unfold room in Hsz. rewrite Hl1.
    destruct (s_stack s1) as [|[p z] st]; simpl.
    + by rewrite (proj2 (Z.ltb_ge _ _)) by lia.
    + by rewrite u64_small, (proj2 (Z.ltb_ge _ _)) by (try split; lia).
Qed.

Lemma Stream_Kind_inv k size s s' :
  ready s -> s_kind s = None -> bytes_ok (s_in s) -> Stream_Kind s = (s', Ok (k, size)) ->
  exists b, valid k size b /\ reads (header k size b) s s' /\ zlen (header k size b) <= room s /\
    ahead k size b s' /\ within size s'.
Proof.
  intros Hs Hk Hb E. unfold Stream_Kind in E. rewrite Hk in E.
  destruct (match s_stack (clear_kinderr s) with [] => false | _ => _ end); [done|].
  destruct (readKind (clear_kinderr s)) as [s1 [[k' size'] [e|]]] eqn:Ek; [done|].
  apply readKind_inv in Ek as (b & Hv & Hr & Hroom & Hk1 & Hb1); [|done..].
  assert (reads (header k' size' b) s s1) as Hr' by (by destruct Hr; split).
  destruct (reads_ready _ _ _ Hs Hr' Hroom) as [(Hl1 & [H1 H2] & Hst) _].
  assert (k = k' /\ size = size' /\ s' = set_ahead k' size' None s1 /\ within size' s1) as (-> & -> & -> & Hw).
  { unfold within. destruct (s_stack s1) as [|[p z] st]; rewrite ?Hl1 in E; simpl in E.
    - destruct (Z.ltb_spec (s_remaining s1) size'); [done|]. by simplify_eq.
    - rewrite u64_small in E by (split; lia).
      destruct (Z.ltb_spec (z - p) size'); [done|]. by simplify_eq. }
  exists b. split_and!; try done; try apply Hv. by destruct Hr'; split.
Qed.

(** Asking for the kind again changes nothing. *)
Lemma Kind_again s s' ks : Stream_Kind s = (s', Ok ks) -> Stream_Kind s' = (s', Ok ks).
Proof.
  unfold Stream_Kind at 1. intros E. destruct (s_kind s) as [k|] eqn:Hk.
  - destruct (s_kinderr s) eqn:He; [done|]. injection E as <- <-.
    unfold Stream_Kind. by rewrite Hk, He.
  - destruct (match s_stack (clear_kinderr s) with [] => false | _ => _ end); [done|].
    destruct (readKind (clear_kinderr s)) as [s1 [[k size] err]].
    set (err' := match err with Some _ => _ | None => _ end) in E. clearbody err'.
    destruct err'; [done|]. by injection E as <- <-.
Qed.

(** ** Strings and numbers *)

Lemma enc_str_byte b : 0 <= b < 128 -> enc_str [b] = [b].
Proof. intros. simpl. by rewrite (proj2 (Z.leb_le _ _)) by lia. Qed.

Lemma enc_str_header b :
  self_coded b = false -> enc_str b = header String (zlen b) 0 ++ b.
Proof. intros Hs. by rewrite enc_str_cases, Hs. Qed.

Lemma self_coded_inv b :
  bytes_ok b -> self_coded b = true -> exists x, b = [x] /\ 0 <= x < 128.
Proof.
  intros Hb Hs. destruct b as [|x [|]]; [done| |done]. apply Forall_cons in Hb as [Hx _].
  simpl in Hs. apply Z.leb_le in Hs. exists x. split; [done|lia].
Qed.

Lemma short_test b :
  self_coded b = (zlen b =? 1) && (default 0 (b !! 0%nat) <? 128).
Proof.
  destruct b as [|x [|y b]]; [done| |].
  - simpl. destruct (Z.leb_spec x 127), (Z.ltb_spec x 128); try lia; done.
  - by rewrite (proj2 (Z.eqb_neq (zlen (x :: y :: b)) 1)) by (unfold zlen; simpl; lia).
Qed.

(** The kind of an encoded string, and the state in which its content is next. *)
Lemma Kind_str b rest s :
  ready s -> s_kind s = None -> bytes_ok b -> s_in s = enc_str b ++ rest -> zlen (enc_str b) <= room s ->
  if self_coded b then
    exists x s', b = [x] /\ 0 <= x < 128 /\ Stream_Kind s = (s', Ok (Byte, 0)) /\
      s_byteval s' = x /\ reads (enc_str b) s (set_kind None s')
  else
    exists s', Stream_Kind s = (s', Ok (String, zlen b)) /\ ready s' /\ zlen b <= room s' /\
      s_in s' = b ++ rest /\ reads (header String (zlen b) 0) s s'.
Proof.
  intros Hs Hk Hb Hi Hroom. destruct (self_coded b) eqn:Hc.
  - apply self_coded_inv in Hc as (x & -> & Hx); [|done]. rewrite enc_str_byte in * by done.
    destruct (Stream_Kind_ok Byte 0 x rest s) as (s' & E & Hr & (_ & _ & _ & Hbv));
      [done|done|by split|done|done|].
    exists x, s'. split_and!; try done; [lia..|by apply Hbv|by eapply reads_same].
  - rewrite enc_str_header in * by done. rewrite zlen_app, <- app_assoc in *.
    pose proof (zlen_nonneg b). assert (in_u64 (zlen b)) as Hu.
    { split; [done|]. destruct Hs as (_ & [_ H64] & Hst). unfold room in Hroom.
      pose proof (zlen_nonneg (header String (zlen b) 0)).
      destruct (s_stack s) as [|[p z] st]; lia. }
    destruct (Stream_Kind_ok String (zlen b) 0 (b ++ rest) s) as (s' & E & Hr & _);
      [done|done|by split|done|lia|].
    destruct (reads_ready _ _ _ Hs Hr) as [Hs' Hr']; [lia|].
    exists s'. split_and!; try done; try apply Hr; [lia|].
    destruct Hr as [Hr _ _ _]. rewrite Hr in Hi. by apply app_inv_head in Hi.
Qed.

Lemma Stream_Bytes_ok b rest s :
  ready s -> s_kind s = None -> bytes_ok b -> s_in s = enc_str b ++ rest -> zlen (enc_str b) <= room s ->
  exists s', Stream_Bytes s = (s', Ok b) /\ reads (enc_str b) s s' /\ s_kind s' = None.
Proof.
  intros Hs Hk Hb Hi Hroom. pose proof (Kind_str b rest s Hs Hk Hb Hi Hroom) as H.
  unfold Stream_Bytes, bind. destruct (self_coded b) eqn:Hc.
  - destruct H as (x & s' & -> & Hx & -> & <- & Hr). by exists (set_kind None s').
  - destruct H as (s' & -> & Hs' & Hr' & Hi' & Hr). rewrite (readFull_ok b rest) by done.
    rewrite <- short_test, Hc. eexists. split; [done|]. split; [|done].
    rewrite enc_str_header by done. eapply reads_app; [done|by apply took_reads].
Qed.

Lemma Stream_Bytes_inv b s s' :
  ready s -> s_kind s = None -> bytes_ok (s_in s) -> Stream_Bytes s = (s', Ok b) ->
  reads (enc_str b) s s' /\ zlen (enc_str b) <= room s /\ s_kind s' = None.
Proof.
  intros Hs Hk Hb E. unfold Stream_Bytes, bind in E.
  destruct (Stream_Kind s) as [s1 [[k size]|e]] eqn:Ek; [|done].
  apply Stream_Kind_inv in Ek as (x & [Hu Hv] & Hr & Hroom & (_ & _ & _ & Hbv) & _); [|done..].
  destruct (reads_ready _ _ _ Hs Hr Hroom) as [Hs1 Hr1]. destruct k; [| |done].
  - destruct (Hv eq_refl) as [-> Hx]. rewrite Hbv in E by done. injection E as <- <-.
    rewrite enc_str_byte by done. split; [by eapply reads_same|done].
  - destruct (readFull size s1) as [s2 [b'|e]] eqn:Ef; [|done].
    apply readFull_inv in Ef as (<- & Hroom' & Es & Hi); [|done|apply Hu].
    rewrite <- short_test in E. destruct (self_coded b') eqn:Hc; [done|]. injection E as <- <-.
    rewrite enc_str_header by done. split_and!; [|rewrite zlen_app; simpl in *; lia|by rewrite Es].
    eapply reads_app; [done|]. rewrite Es. by apply took_reads.
Qed.

Lemma be_single x : be [x] = x.
Proof. unfold read_be. simpl. by destruct x. Qed.

(** A canonical number that is not its own encoding is at least 128. *)
Lemma be_large b :
  bytes_ok b -> canonical b = true -> self_coded b = false -> b <> [] -> 128 <= be b.
Proof.
  intros Hb Hc Hs Hn. destruct b as [|x [|y b]]; [done| |].
  - rewrite be_single. simpl in Hs. apply Z.leb_gt in Hs. lia.
  - assert (x <> 0) as Hx by (by intros ->). destruct (be_nbytes x (y :: b) Hb Hx) as [Hlo _].
    eapply Z.le_trans; [|exact Hlo]. change 128 with (2 ^ 7).
    apply Z.pow_le_mono_r; [lia|]. simpl. lia.
Qed.

Lemma Stream_uint_ok maxbits b rest s :
  ready s -> s_kind s = None -> bytes_ok b -> s_in s = enc_str b ++ rest ->
  zlen (enc_str b) <= room s -> canonical b = true -> zlen b <= Z.quot maxbits 8 ->
  exists s', Stream_uint maxbits s = (s', Ok (be b)) /\ reads (enc_str b) s s' /\ s_kind s' = None.
Proof.
  intros Hs Hk Hb Hi Hroom Hcan Hl. pose proof (Kind_str b rest s Hs Hk Hb Hi Hroom) as H.
  unfold Stream_uint, bind. destruct (self_coded b) eqn:Hc.
  - destruct H as (x & s' & -> & Hx & -> & <- & Hr). rewrite be_single.
    destruct (Z.eqb_spec (s_byteval s') 0) as [E|]; [by rewrite E in Hcan|].
    by exists (set_kind None s').
  - destruct H as (s' & -> & Hs' & Hr' & Hi' & Hr). rewrite (proj2 (Z.ltb_ge _ _)) by done.
    destruct (readUint_ok b rest s') as (s2 & E & Hr2 & _ & Hk2); [done..|].
    unfold map_err. rewrite E.
    replace ((0 <? zlen b) && (be b <? 128)) with false.
    + exists s2. split; [done|]. split; [|done]. rewrite enc_str_header by done. by eapply reads_app.
    + symmetry. destruct b as [|x b]; [done|]. pose proof (be_large _ Hb Hcan Hc ltac:(done)).
      by rewrite (proj2 (Z.ltb_ge (be (x :: b)) 128)), andb_false_r.
Qed.

Lemma Stream_uint_inv maxbits v s s' :
  1 <= Z.quot maxbits 8 -> ready s -> s_kind s = None -> bytes_ok (s_in s) ->
  Stream_uint maxbits s = (s', Ok v) ->
  exists b, bytes_ok b /\ v = be b /\ canonical b = true /\ zlen b <= Z.quot maxbits 8 /\
    reads (enc_str b) s s' /\ zlen (enc_str b) <= room s /\ s_kind s' = None.
Proof.
  intros Hm Hs Hk Hb E. unfold Stream_uint, bind in E.
  destruct (Stream_Kind s) as [s1 [[k size]|e]] eqn:Ek; [|done].
  apply Stream_Kind_inv in Ek as (x & [Hu Hv] & Hr & Hroom & (_ & _ & _ & Hbv) & _); [|done..].
  destruct (reads_ready _ _ _ Hs Hr Hroom) as [Hs1 Hr1]. destruct k; [| |done].
  - destruct (Hv eq_refl) as [-> Hx]. rewrite Hbv in E by done.
    destruct (Z.eqb_spec x 0); [done|]. injection E as <- <-. exists [x].
    rewrite enc_str_byte, be_single by done. split_and!; [|done| |done|by eapply reads_same|done|done].
    + apply Forall_cons. split; [lia|done].
    + by destruct x.
  - destruct (Z.ltb_spec (Z.quot maxbits 8) size); [done|]. unfold map_err in E.
    destruct (readUint size s1) as [s2 [v'|e]] eqn:Ef; [|done].
    apply readUint_inv in Ef as (b & <- & Hroom' & Hr2 & Hk2 & -> & Hc);
      [|done|apply Hu|by apply ready_room].
    destruct ((0 <? zlen b) && (be b <? 128)) eqn:Ht; [done|]. injection E as <- <-.
    destruct (reads_bytes_ok _ _ _ Hr Hb) as [_ Hb1].
    destruct (reads_bytes_ok _ _ _ Hr2 Hb1) as [Hbb _].
    assert (canonical b = true /\ self_coded b = false) as [Hcan Hsc].
    { destruct b as [|y [|z b]]; [done| |split; [|done]].
      - rewrite be_single in Ht. apply Z.ltb_ge in Ht. split; [destruct y; [lia|done..]|].
        simpl. apply Z.leb_gt. lia.
      - apply Hc. unfold zlen. simpl. lia. }
    exists b. rewrite enc_str_header, zlen_app by done.
    split_and!; [done|done|done|lia|by eapply reads_app|simpl in *; lia|done].
Qed.

(** ** Lists *)

(** [s1] is [s] inside the list of [size] bytes whose header is [hd]. *)
Record inside (hd : list Z) (size : Z) (s s1 : Stream) : Prop := {
  inside_in : s_in s = hd ++ s_in s1;
  inside_remaining : s_remaining s1 = s_remaining s - zlen hd;
  inside_limited : s_limited s1 = s_limited s;
  inside_stack : s_stack s1 = (0, size) :: bump (zlen hd) (s_stack s)
}.

Lemma inside_ready hd size s s1 :
  ready s -> in_u64 size -> inside hd size s s1 -> zlen hd <= room s ->
  ready s1 /\ room s1 = Z.min size (s_remaining s - zlen hd).
Proof.
  intros (Hl & [H1 H2] & Hst) [? ?] [_ R L K] Hroom. pose proof (zlen_nonneg hd).
  assert (zlen hd <= s_remaining s) by (unfold room in Hroom; destruct (s_stack s) as [|[p z] st]; lia).
  unfold ready, room. rewrite L, R, K. split; [|by rewrite Z.sub_0_r].
  repeat split; try done; lia.
Qed.

Lemma Stream_List_ok c rest s :
  ready s -> s_kind s = None -> in_u64 (zlen c) ->
  s_in s = header List (zlen c) 0 ++ c ++ rest -> zlen (header List (zlen c) 0) + zlen c <= room s ->
  exists s1, Stream_List s = (s1, Ok (zlen c)) /\ inside (header List (zlen c) 0) (zlen c) s s1 /\
    s_kind s1 = None.
Proof.
  intros Hs Hk Hu Hi Hroom. unfold Stream_List, bind.
  destruct (Stream_Kind_ok List (zlen c) 0 (c ++ rest) s) as (s1 & -> & Hr & _); [done|done|by split|done..|].
  eexists. split; [done|]. split; [|done]. destruct Hr as [? ? ? K].
  split; [done..|]. simpl. by rewrite K.
Qed.

Lemma Stream_List_inv size s s1 :
  ready s -> s_kind s = None -> bytes_ok (s_in s) -> Stream_List s = (s1, Ok size) ->
  inside (header List size 0) size s s1 /\ in_u64 size /\ s_kind s1 = None /\
  zlen (header List size 0) <= room s /\
  match s_stack s with [] => True | (p, z) :: _ => zlen (header List size 0) + size <= z - p end.
Proof.
  intros Hs Hk Hb E. unfold Stream_List, bind in E.
  destruct (Stream_Kind s) as [s2 [[k sz]|e]] eqn:Ek; [|done].
  apply Stream_Kind_inv in Ek as (x & [Hu _] & Hr & Hroom & _ & Hw); [|done..].
  destruct k; [done..|]. injection E as <- <-. pose proof Hr as [? ? ? K].
  split_and!; try done; try apply Hu; [split; [done..|]; simpl; by rewrite K|].
  unfold within in Hw. rewrite K in Hw. unfold room in Hroom. simpl in *.
  pose proof (zlen_nonneg (puthead 192 247 sz)). destruct Hs as (_ & _ & Hst).
  destruct (s_stack s) as [|[p z] st]; [done|]. simpl in Hw.
  rewrite u64_small in Hw by (split; lia). lia.
Qed.

Lemma Stream_ListEnd_ok hd c s s1 s2 :
  in_u64 (zlen c) -> inside hd (zlen c) s s1 -> reads c s1 s2 ->
  exists s3, Stream_ListEnd s2 = (s3, Ok tt) /\ reads (hd ++ c) s s3 /\ s_kind s3 = None.
Proof.
  intros Hu [I1 R1 L1 K1] [I2 R2 L2 K2]. unfold Stream_ListEnd. rewrite K2, K1. cbn [bump].
  rewrite Z.add_0_l, u64_small, Z.eqb_refl by done. cbn [negb].
  eexists. split; [done|]. split; [|done]. split; simpl.
  - by rewrite I1, I2, app_assoc.
  - rewrite R2, R1, zlen_app. lia.
  - by rewrite L2.
  - by rewrite bump_bump, zlen_app.
Qed.

Lemma Stream_ListEnd_inv hd size c s s1 s2 s3 :
  inside hd size s s1 -> reads c s1 s2 -> in_u64 size -> zlen c <= size ->
  Stream_ListEnd s2 = (s3, Ok tt) ->
  zlen c = size /\ reads (hd ++ c) s s3 /\ s_kind s3 = None.
Proof.
  intros Hin Hr [? ?] Hle E. pose proof (zlen_nonneg c). assert (zlen c = size) as <-.
  { destruct Hin as [_ _ _ K1], Hr as [_ _ _ K2]. unfold Stream_ListEnd in E.
    rewrite K2, K1 in E. cbn [bump] in E. rewrite Z.add_0_l, u64_small in E by (split; lia).
    destruct (Z.eqb_spec (zlen c) size); [done|done]. }
  split; [done|]. destruct (Stream_ListEnd_ok hd c s s1 s2) as (s3' & E' & Hr' & Hk); [by split|done..|].
  rewrite E in E'. by injection E' as <-.
Qed.

(** ** Sequences of values *)

Abbreviation enc_items l := (concat (map enc_item l)).

(** [m] reads the encoding of an item as [v]. *)
Definition accepts {A} (m : read A) (bs : list Z) (v : A) : Prop :=
  forall rest s, ready s -> s_kind s = None -> s_in s = bs ++ rest -> zlen bs <= room s ->
    exists s', m s = (s', Ok v) /\ reads bs s s' /\ s_kind s' = None.

(** At the end of a list [m] reports it and reads nothing. *)
Definition stops {A} (m : read A) : Prop :=
  forall s p st, s_kind s = None -> s_stack s = (p, p) :: st -> m s = (clear_kinderr s, Err EOL).

(** [m] reads the items [f] gives a value to, if they are shorter than [N]. *)
Definition conforms (N : nat) (f : item -> option goval) (m : read goval) : Prop :=
  forall it v, wf_item it -> f it = Some v -> (length (enc_item it) < N)%nat -> accepts m (enc_item it) v.

(** What [m] accepts is the encoding of an item, with the value [f] gives it. *)
Definition reflects (f : item -> option goval) (m : read goval) : Prop :=
  forall s s' v, ready s -> s_kind s = None -> bytes_ok (s_in s) -> m s = (s', Ok v) ->
    exists it, wf_item it /\ f it = Some v /\ reads (enc_item it) s s' /\
      zlen (enc_item it) <= room s /\ s_kind s' = None.

(** [m] reports the end of the list only there. *)
Definition eol_clean {A} (m : read A) : Prop :=
  forall s s', s_kind s = None -> m s = (s', Err EOL) -> s' = clear_kinderr s.

Lemma accepts_app {A B} (m : read A) (k : A -> read B) a b v w :
  accepts m a v -> accepts (k v) b w -> accepts (bind m k) (a ++ b) w.
Proof.
  intros Hm Hk rest s Hs Hkd Hi Hroom. rewrite zlen_app, <- app_assoc in *.
  pose proof (zlen_nonneg a). pose proof (zlen_nonneg b).
  destruct (Hm (b ++ rest) s) as (s1 & E1 & Hr1 & Hk1); [done..|lia|].
  destruct (reads_ready _ _ _ Hs Hr1) as [Hs1 Hroom1]; [lia|].
  destruct (Hk rest s1) as (s2 & E2 & Hr2 & Hk2); [done|done| |lia|].
  { destruct Hr1 as [Hr1 _ _ _]. rewrite Hr1 in Hi. by apply app_inv_head in Hi. }
  exists s2. unfold bind. rewrite E1. split; [done|]. split; [by eapply reads_app|done].
Qed.

Lemma accepts_ret {A} (v : A) : accepts (ret v) [] v.
Proof.
  intros rest s Hs Hk Hi Hroom. exists s. split; [done|]. split; [|done].
  eapply reads_same; [by apply reads_nil|done..].
Qed.

Lemma accepts_map {A B} (m : read A) (g : A -> B) bs v :
  accepts m bs v -> accepts (let* x := m in ret (g x)) bs (g v).
Proof.
  intros Hm. rewrite <- (app_nil_r bs). eapply accepts_app; [done|]. apply accepts_ret.
Qed.

Lemma accepts_wrap {A} (m : read A) bs v : accepts m bs v -> accepts (map_err wrapStreamError m) bs v.
Proof.
  intros Hm rest s Hs Hk Hi Hroom. destruct (Hm rest s) as (s' & E & H); [done..|].
  exists s'. unfold map_err. by rewrite E.
Qed.

(** A step that goes on after one value. *)
Lemma accepts_cons dec (m : read (list goval)) it bs v vs (h : derror -> derror) :
  accepts dec (enc_item it) v -> accepts m bs vs ->
  accepts (fun s => match dec s with
                    | (s, Err EOL) => (s, Err (h EOL))
                    | (s, Err e) => (s, Err e)
                    | (s, Ok v) => (let* vs := m in ret (v :: vs)) s
                    end) (enc_item it ++ bs) (v :: vs).
Proof.
  intros Hd Hm. pose proof (accepts_app dec (fun v => let* vs := m in ret (v :: vs)) _ _ _ _ Hd
    (accepts_map m (cons v) bs vs Hm)) as H.
  intros rest s Hs Hk Hi Hroom. destruct (H rest s Hs Hk Hi Hroom) as (s' & E & Hr).
  exists s'. split; [|done]. unfold bind at 1 in E. destruct (dec s) as [s1 [v1|e]]; [done|]. done.
Qed.

Lemma decodeFields_ok N fs decs l vs :
  Forall2 (conforms N) fs decs -> of_items fs l = Some vs -> Forall wf_item l ->
  (length (enc_items l) < N)%nat -> accepts (decodeFields decs) (enc_items l) vs.
Proof.
  intros H. revert l vs. induction H as [|f d fs decs Hf _ IH]; intros l vs E Hw HN.
  - destruct l; [|done]. injection E as <-. apply accepts_ret.
  - destruct l as [|it l]; [done|]. simpl in E. apply Forall_cons in Hw as [Hw Hl].
    apply bind_Some in E as (v & E1 & E). apply bind_Some in E as (vs' & E2 & [= <-]).
    simpl in *. rewrite length_app in HN.
    apply (accepts_cons d (decodeFields decs) it (enc_items l) v vs' (fun _ => decodeError ErrTooFew)).
    + apply Hf; [done..|lia].
    + apply IH; [done..|lia].
Qed.

Lemma decodeArrayElems_fields dec n s :
  decodeArrayElems dec n s = decodeFields (replicate n dec) s.
Proof.
  revert s. induction n as [|n IH]; intros s; [done|]. simpl.
  destruct (dec s) as [s1 [v|e]]; [|done]. unfold bind. by rewrite IH.
Qed.

(** [m] reads [bs] as the rest of the innermost list. *)
Definition accepts_rest {A} (m : read A) (bs : list Z) (v : A) : Prop :=
  forall rest s p st, ready s -> s_kind s = None -> s_in s = bs ++ rest -> zlen bs <= room s ->
    s_stack s = (p, p + zlen bs) :: st ->
    exists s', m s = (s', Ok v) /\ reads bs s s' /\ s_kind s' = None.

Lemma reads_stop s : ready s -> reads [] s (clear_kinderr s).
Proof. intros Hs. eapply reads_same; [by apply reads_nil|done..]. Qed.

Lemma decodeSliceElems_ok N f d fuel l vs :
  conforms N f d -> stops d -> list.mapM f l = Some vs -> Forall wf_item l ->
  (length (enc_items l) < N)%nat -> (length l < fuel)%nat ->
  accepts_rest (decodeSliceElems d fuel) (enc_items l) vs.
Proof.
  intros Hc Hstop. revert fuel vs. induction l as [|it l IH]; intros fuel vs E Hw HN Hf;
    (destruct fuel as [|fuel]; [simpl in Hf; lia|]); intros rest s p st Hs Hk Hi Hroom Hst; simpl.
  - injection E as <-. rewrite Z.add_0_r in Hst. rewrite (Hstop s p st) by done.
    eexists. split; [done|]. split; [by apply reads_stop|done].
  - simpl in *. apply bind_Some in E as (v & E1 & E). apply bind_Some in E as (vs' & E2 & [= <-]).
    apply Forall_cons in Hw as [Hw Hl]. rewrite length_app in HN. rewrite <- app_assoc in Hi.
    rewrite zlen_app in *. pose proof (zlen_nonneg (enc_item it)). pose proof (zlen_nonneg (enc_items l)).
    destruct (Hc it v Hw E1 ltac:(lia) (enc_items l ++ rest) s) as (s1 & -> & Hr1 & Hk1); [done..|lia|].
    destruct (reads_ready _ _ _ Hs Hr1) as [Hs1 Hroom1]; [lia|].
    pose proof Hr1 as [Hi1 _ _ K1]. rewrite Hst in K1. cbn [bump] in K1.
    destruct Hs as (_ & _ & Hok). rewrite Hst in Hok. rewrite u64_small in K1 by (split; lia).
    destruct (IH fuel vs' E2 Hl ltac:(lia) ltac:(lia) rest s1 (p + zlen (enc_item it)) st)
      as (s2 & E & Hr2 & Hk2); [done|done| |lia|by rewrite K1, Z.add_assoc|].
    { rewrite Hi1 in Hi. by apply app_inv_head in Hi. }
    exists s2. unfold bind. rewrite E. split; [done|]. split; [by eapply reads_app|done].
Qed.

Lemma room_u64 s n : ready s -> 0 <= n <= room s -> in_u64 n.
Proof.
  intros (_ & [? ?] & _) ?. split; [lia|]. unfold room in *.
  destruct (s_stack s) as [|[p z] st]; lia.
Qed.

Lemma header_nonneg k size b : 0 <= zlen (header k size b).
Proof. apply zlen_nonneg. Qed.

(** Reading a list whose content [k] reads to the end. *)
Lemma accepts_list {A} (k : Z -> read A) c v :
  (forall hd rest s s1, ready s1 -> s_kind s1 = None -> s_in s1 = c ++ rest -> zlen c <= room s1 ->
     in_u64 (zlen c) -> inside hd (zlen c) s s1 ->
     exists s', k (zlen c) s1 = (s', Ok v) /\ reads (hd ++ c) s s' /\ s_kind s' = None) ->
  accepts (let* size := map_err wrapStreamError Stream_List in k size) (header List (zlen c) 0 ++ c) v.
Proof.
  intros Hk rest s Hs Hkd Hi Hroom. rewrite zlen_app, <- app_assoc in *.
  pose proof (zlen_nonneg c). pose proof (header_nonneg List (zlen c) 0).
  assert (in_u64 (zlen c)) as Hu by (apply (room_u64 s); [done|lia]).
  destruct (Stream_List_ok c rest s) as (s1 & E & Hin & Hk1); [done..|].
  destruct (inside_ready _ _ _ _ Hs Hu Hin) as [Hs1 Hr1]; [lia|].
  unfold bind, map_err. rewrite E. apply (Hk _ rest s s1); try done.
  - destruct Hin as [Hi1 _ _ _]. rewrite Hi1 in Hi. by apply app_inv_head in Hi.
  - rewrite Hr1. unfold room in Hroom. destruct (s_stack s) as [|[p z] st]; lia.
Qed.

Lemma inside_stack_rest hd size s s1 :
  inside hd size s s1 -> exists st, s_stack s1 = (0, 0 + size) :: st.
Proof. intros [_ _ _ K]. eauto. Qed.

Lemma enc_item_nonempty it : (0 < length (enc_item it))%nat.
Proof.
  destruct it as [b|l]; simpl.
  - rewrite enc_str_cases. destruct (self_coded b) eqn:Hs; [destruct b as [|? []]; simpl; (done || lia)|].
    unfold puthead. case_match; simpl; lia.
  - unfold puthead. case_match; simpl; lia.
Qed.

Lemma enc_items_length l : (length l <= length (enc_items l))%nat.
Proof.
  induction l as [|it l IH]; simpl; [lia|]. rewrite length_app.
  pose proof (enc_item_nonempty it). lia.
Qed.

Lemma decodeListSlice_ok N f d fuel l vs :
  conforms N f d -> stops d -> list.mapM f l = Some vs -> Forall wf_item l ->
  (length (enc_items l) < N)%nat -> (length l < fuel)%nat ->
  accepts (decodeListSlice d fuel) (enc_item (Lst l)) vs.
Proof.
  intros Hc Hstop E Hw HN Hf. apply (accepts_list _ (enc_items l) vs).
  intros hd rest s s1 Hs1 Hk1 Hi Hroom Hu Hin. cbn beta. destruct (Z.eqb_spec (zlen (enc_items l)) 0) as [Hz|_].
  - destruct l as [|it l]; [|pose proof (enc_items_length (it :: l)); unfold zlen in Hz; simpl in *; lia].
    injection E as <-. destruct (Stream_ListEnd_ok hd [] s s1 s1) as (s3 & E & Hr & Hk); [done..| |].
    { eapply reads_same; [by apply reads_nil|done..]. }
    exists s3. unfold bind. by rewrite E.
  - destruct (inside_stack_rest _ _ _ _ Hin) as (st & Hst).
    destruct (decodeSliceElems_ok N f d fuel l vs Hc Hstop E Hw HN Hf rest s1 0 st)
      as (s2 & E2 & Hr2 & Hk2); [done..|].
    destruct (Stream_ListEnd_ok hd _ s s1 s2 Hu Hin Hr2) as (s3 & E3 & Hr3 & Hk3).
    exists s3. unfold bind. by rewrite E2, E3.
Qed.

Lemma accepts_list_fields (m : read (list goval)) (c : list Z) vs :
  accepts m c vs ->
  accepts (let* _ := map_err wrapStreamError Stream_List in
           let* vs := m in
           let* _ := map_err wrapStreamError Stream_ListEnd in ret vs)
    (header List (zlen c) 0 ++ c) vs.
Proof.
  intros Hm. apply (accepts_list (fun _ => _)).
  intros hd rest s s1 Hs1 Hk1 Hi Hroom Hu Hin.
  destruct (Hm rest s1) as (s2 & E2 & Hr2 & Hk2); [done..|].
  destruct (Stream_ListEnd_ok hd _ s s1 s2 Hu Hin Hr2) as (s3 & E3 & Hr3 & Hk3).
  exists s3. unfold bind, map_err. by rewrite E2, E3.
Qed.

(** ** Decoders look at the kind first *)

Definition peeks {A} (m : read A) : Prop :=
  forall s s1 ks, Stream_Kind s = (s1, Ok ks) -> m s1 = m s.

Lemma stops_Kind : stops Stream_Kind.
Proof.
  intros s p st Hk Hst. unfold Stream_Kind. rewrite Hk. simpl. by rewrite Hst, Z.eqb_refl.
Qed.

Lemma stops_bind {A B} (m : read A) (k : A -> read B) : stops m -> stops (bind m k).
Proof. intros H s p st Hk Hst. unfold bind. by rewrite (H s p st). Qed.

Lemma stops_wrap {A} (m : read A) : stops m -> stops (map_err wrapStreamError m).
Proof. intros H s p st Hk Hst. unfold map_err. by rewrite (H s p st). Qed.

Lemma peeks_Kind : peeks Stream_Kind.
Proof. intros s s1 ks E. by rewrite E, (Kind_again s s1 ks). Qed.

Lemma peeks_bind {A B} (m : read A) (k : A -> read B) : peeks m -> peeks (bind m k).
Proof. intros H s s1 ks E. unfold bind. by rewrite (H s s1 ks E). Qed.

Lemma peeks_wrap {A} f (m : read A) : peeks m -> peeks (map_err f m).
Proof. intros H s s1 ks E. unfold map_err. by rewrite (H s s1 ks E). Qed.

Lemma peeks_Bytes : peeks Stream_Bytes.
Proof. apply peeks_bind, peeks_Kind. Qed.

Lemma peeks_ListSlice d fuel : peeks (decodeListSlice d fuel).
Proof. apply peeks_bind, peeks_wrap, peeks_bind, peeks_Kind. Qed.

Lemma dtype_ind' (P : dtype -> Prop) :
  (forall bits, P (DUint bits)) -> P DBool -> P DString -> P DBytes -> (forall n, P (DByteArray n)) ->
  P DBigInt -> (forall t, P t -> P (DSlice t)) -> (forall n t, P t -> P (DArray n t)) ->
  (forall ts, Forall P ts -> P (DStruct ts)) -> (forall t, P t -> P (DPtr t)) ->
  (forall t, P t -> P (DOptPtr t)) -> P DIface -> forall t, P t.
Proof.
  intros H1 H2 H3 H4 H5 H6 H7 H8 H9 H10 H11 H12. fix IH 1. intros [| | | | | |t|n t|ts|t|t|].
  - apply H1. - apply H2. - apply H3. - apply H4. - apply H5. - apply H6.
  - apply H7, IH. - apply H8, IH.
  - apply H9. induction ts; constructor; [apply IH|done].
  - apply H10, IH. - apply H11, IH. - apply H12.
Qed.

Lemma decodeInterface_stops fuel : stops (decodeInterface (S fuel)).
Proof. apply stops_bind, stops_Kind. Qed.

Lemma decoder_stops t fuel : stops (decoder t (S fuel)).
Proof.
  induction t using dtype_ind'; cbn [decoder]; unfold decodeOptionalPtr, decodePtr;
    try (repeat (apply stops_bind || apply stops_wrap || apply stops_Kind); done).
  intros s p st Hk Hst. rewrite (stops_Kind s p st) by done. unfold set_kind, clear_kinderr.
  simpl. by rewrite Hk.
Qed.

Lemma decoder_peeks t fuel : peeks (decoder t (S fuel)).
Proof.
  induction t using dtype_ind'; cbn [decoder]; unfold decodeOptionalPtr, decodePtr;
    try (repeat (apply peeks_bind || apply peeks_wrap || apply peeks_Kind); done).
  intros s s1 ks E. by rewrite E, (Kind_again s s1 ks E).
Qed.

(** ** The decoder reads the items its type gives a value to *)

(** The types the theorems below are about: unsigned integers of Go's widths,
    and every other modelled type except those that contain [[1]byte].  The
    decoder does not consume a zero byte read into a [[1]byte], so a list
    with that element has other accepted forms and does not come back, see
    [byte_array_of_one_zero] below. *)
Fixpoint decodable (t : dtype) : bool :=
  match t with
  | DUint bits => (bits =? 8) || (bits =? 16) || (bits =? 32) || (bits =? 64)
  | DByteArray n => negb (n =? 1)%nat
  | DSlice t | DArray _ t | DPtr t | DOptPtr t => decodable t
  | DStruct ts => forallb decodable ts
  | _ => true
  end.

Lemma wf_str b : wf_item (Str b) -> bytes_ok b.
Proof. by inversion_clear 1. Qed.
Lemma wf_lst l : wf_item (Lst l) -> Forall wf_item l.
Proof. by inversion_clear 1. Qed.

Lemma accepts_ext {A} (m m' : read A) bs v :
  (forall s, m s = m' s) -> accepts m' bs v -> accepts m bs v.
Proof. intros He H rest s Hs Hk Hi Hroom. rewrite He. by apply (H rest). Qed.

Lemma accepts_Bytes b : bytes_ok b -> accepts (map_err wrapStreamError Stream_Bytes) (enc_str b) b.
Proof. intros Hb. apply accepts_wrap. intros rest s Hs Hk Hi Hroom. by apply (Stream_Bytes_ok b rest). Qed.

Lemma accepts_uint bits b :
  bytes_ok b -> canonical b = true -> zlen b <= Z.quot bits 8 ->
  accepts (Stream_uint bits) (enc_str b) (be b).
Proof. intros Hb Hc Hl rest s Hs Hk Hi Hroom. by apply (Stream_uint_ok bits b rest). Qed.

Lemma accepts_Bool b : b = [] \/ b = [1] -> accepts Stream_Bool (enc_str b) (bool_decide (b = [1])).
Proof.
  intros Hb rest s Hs Hk Hi Hroom.
  destruct (accepts_uint 8 b) with (rest := rest) (s := s) as (s' & E & H); try done.
  - destruct Hb as [->| ->]; [by constructor|]. apply Forall_cons. split; [lia|done].
  - by destruct Hb as [->| ->].
  - by destruct Hb as [->| ->].
  - exists s'. split; [|done]. unfold Stream_Bool, bind. rewrite E. by destruct Hb as [->| ->].
Qed.

Lemma accepts_ByteArray n b :
  bytes_ok b -> length b = n -> n <> 1%nat -> accepts (decodeByteArray n) (enc_str b) (VBytes b).
Proof.
  intros Hb <- Hn rest s Hs Hk Hi Hroom. pose proof (Kind_str b rest s Hs Hk Hb Hi Hroom) as H.
  unfold decodeByteArray, bind. destruct (self_coded b) eqn:Hc.
  - by destruct H as (x & s' & -> & _).
  - destruct H as (s' & -> & Hs' & Hr' & Hi' & Hr). fold (zlen b). rewrite Z.ltb_irrefl.
    rewrite (readFull_ok b rest), <- short_test, Hc by done.
    eexists. split; [done|]. split; [|done].
    rewrite enc_str_header by done. eapply reads_app; [done|by apply took_reads].
Qed.

Lemma accepts_BigInt b :
  bytes_ok b -> canonical b = true -> accepts decodeBigInt (enc_str b) (VBigInt (Some (be b))).
Proof.
  intros Hb Hc rest s Hs Hk Hi Hroom.
  destruct (accepts_Bytes b Hb rest s) as (s' & E & H); [done..|].
  exists s'. split; [|done]. unfold decodeBigInt, bind. rewrite E. by destruct b as [|[] b].
Qed.

(** The kind of an encoded item. *)
Lemma Kind_item it rest s :
  ready s -> s_kind s = None -> wf_item it -> s_in s = enc_item it ++ rest -> zlen (enc_item it) <= room s ->
  exists s1 size, Stream_Kind s = (s1, Ok (kind_of it, size)) /\
    (size =? 0) && bool_decide (kind_of it <> Byte) = empty_item it /\
    (empty_item it = true -> reads (enc_item it) s (set_kind None s1)).
Proof.
  intros Hs Hk Hw Hi Hroom. destruct it as [b|l].
  - pose proof (Kind_str b rest s Hs Hk (wf_str b Hw) Hi Hroom) as H. simpl.
    destruct (self_coded b) eqn:Hc.
    + destruct H as (x & s1 & -> & _ & E & _). by exists s1, 0.
    + destruct H as (s1 & E & _ & _ & _ & Hr). exists s1, (zlen b). split; [done|].
      destruct b as [|y b]; [|split; [by apply andb_false_iff; left; apply Z.eqb_neq|done]].
      split; [done|]. intros _. by eapply reads_same.
  - set (c := enc_items l). assert (enc_item (Lst l) = header List (zlen c) 0 ++ c) as Ee by done.
    rewrite Ee in *. rewrite zlen_app, <- app_assoc in *.
    pose proof (zlen_nonneg c). pose proof (header_nonneg List (zlen c) 0).
    destruct (Stream_Kind_ok List (zlen c) 0 (c ++ rest) s) as (s1 & E & Hr & _);
      [done|done|split; [apply (room_u64 s); [done|lia]|done]|done|lia|].
    exists s1, (zlen c). split; [done|]. simpl. destruct l as [|it l].
    + split; [done|]. intros _. by eapply reads_same.
    + split; [|done]. apply andb_false_iff. left. apply Z.eqb_neq.
      pose proof (enc_items_length (it :: l)). unfold c, zlen. simpl in *. lia.
Qed.

Lemma mapM_iface l : list.mapM (fun it => Some (iface_of it)) l = Some (map iface_of l).
Proof. induction l as [|it l IH]; [done|]. simpl. by rewrite IH. Qed.

Lemma enc_lst_length l : (length (enc_items l) < length (enc_item (Lst l)))%nat.
Proof. simpl. rewrite length_app. unfold puthead. case_match; simpl; lia. Qed.

Lemma decodeInterface_ok fuel : conforms fuel (fun it => Some (iface_of it)) (decodeInterface fuel).
Proof.
  induction fuel as [|fuel IH]; [by intros it v _ _ ?%Nat.nlt_0_r|].
  intros it v Hw [= <-] HN rest s Hs Hk Hi Hroom. cbn [decodeInterface].
  destruct (Kind_item it rest s) as (s1 & size & E & _); [done..|].
  unfold bind at 1. rewrite E. destruct it as [b|l]; cbn [kind_of].
  - assert (exists s', (let* b := Stream_Bytes in ret (VIface (Some (TBytes, VBytes b)))) s
        = (s', Ok (iface_of (Str b))) /\ reads (enc_item (Str b)) s s' /\ s_kind s' = None) as H.
    { apply (accepts_map Stream_Bytes (fun b => VIface (Some (TBytes, VBytes b))) _ b) with rest; [|done..].
      intros r2 s2 ? ? ? ?. apply (Stream_Bytes_ok b r2); [done|done|by apply wf_str|done..]. }
    rewrite <- (peeks_bind _ _ peeks_Bytes s s1 _ E) in H.
    by destruct (self_coded b).
  - pose proof (enc_lst_length l). pose proof (enc_items_length l).
    destruct fuel as [|fuel]; [lia|].
    rewrite (peeks_bind _ _ (peeks_ListSlice _ _) s s1 _ E).
    apply (accepts_map (decodeListSlice (decodeInterface (S fuel)) (S fuel))
      (fun vs => VIface (Some (TSlice TIface, VSlice vs))) _ (map iface_of l)) with rest; [|done..].
    apply (decodeListSlice_ok (S fuel) (fun it => Some (iface_of it))); try lia.
    + apply IH.
    + apply decodeInterface_stops.
    + apply mapM_iface.
    + by apply wf_lst.
Qed.

Lemma accepts_struct N fs decs l vs :
  Forall2 (conforms N) fs decs -> of_items fs l = Some vs -> Forall wf_item l ->
  (length (enc_items l) < N)%nat -> accepts (decodeStruct decs) (enc_item (Lst l)) vs.
Proof. intros. apply (accepts_list_fields _ (enc_items l)). by eapply decodeFields_ok. Qed.

Lemma decodeListArray_struct dec n s : decodeListArray dec n s = decodeStruct (replicate n dec) s.
Proof.
  unfold decodeListArray, decodeStruct, bind. destruct (map_err _ _ s) as [s1 [sz|e]]; [|done].
  by rewrite decodeArrayElems_fields.
Qed.

Lemma conforms_ptr fuel t :
  conforms fuel (of_item t) (decoder t fuel) ->
  conforms fuel (of_item (DPtr t)) (let* v := decoder t fuel in ret (VPtr (erase t) (Some v))).
Proof.
  intros IH it v Hw E HN. apply fmap_Some in E as (v' & E & ->).
  apply (accepts_map (decoder t fuel) (fun v => VPtr (erase t) (Some v))). by apply IH.
Qed.

Lemma decoder_ok t fuel : decodable t = true -> conforms fuel (of_item t) (decoder t fuel).
Proof.
  intros Hd. induction t using dtype_ind'; intros it v Hw E HN;
    (destruct fuel as [|fuel]; [lia|]); cbn [decoder of_item decodable] in *; unfold decodeUint, decodeBool, decodeString, decodeByteSlice,
      decodeOptionalPtr, decodePtr.
  1-6: destruct it as [b|l]; [|done]; pose proof (wf_str b Hw) as Hb.
  - destruct (canonical b) eqn:Hc; [|done]. destruct (Z.leb_spec (zlen b) (Z.quot bits 8)); [|done].
    injection E as <-. by apply (accepts_map _ VUint), accepts_wrap, accepts_uint.
  - assert (b = [] \/ b = [1]) as H.
    { destruct b as [|x [|]]; [by left| |done]. destruct (Z.eqb_spec x 1); [subst; by right|done]. }
    replace v with (VBool (bool_decide (b = [1]))) by (destruct H; subst; by injection E).
    by apply (accepts_map _ VBool), accepts_wrap, accepts_Bool.
  - injection E as <-. by apply (accepts_map _ VString), accepts_Bytes.
  - injection E as <-. by apply (accepts_map _ VBytes), accepts_Bytes.
  - destruct (Nat.eqb_spec (length b) n); [|done]. injection E as <-.
    apply accepts_ByteArray; [done..|]. intros ->. done.
  - destruct (canonical b) eqn:Hc; [|done]. injection E as <-. by apply accepts_BigInt.
  - destruct it as [b|l]; [done|]. apply fmap_Some in E as (vs & E & ->).
    pose proof (enc_lst_length l). pose proof (enc_items_length l).
    apply (accepts_map _ VSlice).
    apply (decodeListSlice_ok (S fuel) (of_item t)); try lia; auto using decoder_stops, wf_lst.
  - destruct it as [b|l]; [done|]. apply fmap_Some in E as (vs & E & ->).
    pose proof (enc_lst_length l). apply (accepts_map _ VSlice).
    eapply accepts_ext; [apply decodeListArray_struct|].
    apply (accepts_struct (S fuel) (replicate n (of_item t))); [|done|by apply wf_lst|lia].
    clear E. induction n; simpl; constructor; auto.
  - destruct it as [b|l]; [done|]. apply fmap_Some in E as (vs & E & ->).
    pose proof (enc_lst_length l). apply (accepts_map _ VStruct).
    apply (accepts_struct (S fuel) (map of_item ts)); [|done|by apply wf_lst|lia].
    clear - H Hd. induction H; simpl in *; constructor; apply andb_prop in Hd as [? ?]; auto.
  - by apply conforms_ptr; auto.
  - intros rest s Hs Hk Hi Hroom.
    destruct (Kind_item it rest s) as (s1 & size & Ek & He & Hr); [done..|]. rewrite Ek, He.
    destruct (empty_item it); [injection E as <-; by exists (set_kind None s1); auto|].
    rewrite (peeks_bind _ _ (decoder_peeks t fuel) s s1 _ Ek).
    by apply (conforms_ptr _ _ (IHt Hd) it v Hw E HN rest).
  - by apply decodeInterface_ok.
Qed.

(** ** The end of a list is reported only there *)

Definition never (e : derror) {A} (m : read A) : Prop := forall s s', m s <> (s', Err e).

(** The errors the stream itself does not raise after the kind was read. *)
Definition quiet (e : derror) : Prop := e = EOL \/ e = OutOfFuel.

Section never.
Context (e0 : derror) (Hq : quiet e0).

Lemma never_ret {A} (a : A) : never e0 (ret a).
Proof. by intros s s'. Qed.
Lemma never_fail {A} e : e <> e0 -> never e0 (@fail A e).
Proof. intros He s s' [= _ ->]. done. Qed.
Lemma never_bind {A B} (m : read A) (k : A -> read B) :
  never e0 m -> (forall a, never e0 (k a)) -> never e0 (bind m k).
Proof.
  intros Hm Hk s s'. unfold bind. destruct (m s) as [s1 [a|e]] eqn:E; [apply Hk|].
  intros [= -> ->]. by apply (Hm s s').
Qed.
Lemma never_map {A} f (m : read A) :
  (forall e, e <> e0 -> f e <> e0) -> never e0 m -> never e0 (map_err f m).
Proof.
  intros Hf Hm s s'. unfold map_err. destruct (m s) as [s1 [a|e]] eqn:E; [done|].
  intros [= -> H]. apply (Hf e); [|done]. intros ->. by apply (Hm s s').
Qed.

Lemma wrap_quiet e : e <> e0 -> wrapStreamError e <> e0.
Proof. by destruct Hq as [->| ->], e. Qed.

Lemma willRead_quiet n : never e0 (willRead n).
Proof. intros s s'. unfold willRead. destruct Hq as [->| ->]; repeat case_match; by intros [=]. Qed.

Lemma readByte_quiet : never e0 readByte.
Proof.
  apply never_bind; [apply willRead_quiet|]. intros _ s s'. simpl.
  destruct Hq as [->| ->]; by case_match.
Qed.

Lemma readFull_quiet n : never e0 (readFull n).
Proof.
  apply never_bind; [apply willRead_quiet|]. intros _ s s'. simpl.
  destruct Hq as [->| ->]; by case_match.
Qed.

Lemma readUint_quiet n : never e0 (readUint n).
Proof.
  unfold readUint. case_match; [by apply never_bind|]. case_match; [apply readByte_quiet|].
  apply never_bind; [apply readFull_quiet|].
  intros b. case_match; [apply never_fail; by destruct Hq as [->| ->]|apply never_ret].
Qed.

Lemma ListEnd_quiet : never e0 Stream_ListEnd.
Proof. intros s s'. unfold Stream_ListEnd. destruct Hq as [->| ->]; repeat case_match; done. Qed.

Lemma Kind_quiet s s' :
  s_kind s = None -> Stream_Kind s = (s', Err e0) -> e0 = EOL /\ s' = clear_kinderr s.
Proof.
  intros Hk E. unfold Stream_Kind in E. rewrite Hk in E.
  destruct (match s_stack (clear_kinderr s) with [] => false | _ => _ end); [by injection E as <- <-|].
  exfalso. destruct (readKind (clear_kinderr s)) as [s1 [[k size] [e|]]] eqn:Ek.
  - assert (e = e0) as -> by congruence. clear E. unfold readKind in Ek.
    destruct (readByte (clear_kinderr s)) as [s2 [b|e]] eqn:Eb.
    + assert (e0 <> ErrCanonSize') by (by destruct Hq as [->| ->]).
      repeat case_match; simplify_eq; by eapply readUint_quiet.
    + assert (e <> e0) by (intros ->; by eapply readByte_quiet).
      assert (e0 <> ErrEOF) by (by destruct Hq as [->| ->]). repeat case_match; congruence.
  - destruct Hq as [->| ->]; repeat case_match; congruence.
Qed.
End never.

Lemma quiet_EOL : quiet EOL.
Proof. by left. Qed.
Lemma quiet_OutOfFuel : quiet OutOfFuel.
Proof. by right. Qed.

Lemma sliceElems_EOL d fuel : never EOL (decodeSliceElems d fuel).
Proof.
  induction fuel as [|fuel IH]; [by apply never_fail|]. intros s s'. simpl.
  destruct (d s) as [s1 [v|e]]; [apply never_bind; [done|intros; apply never_ret]|].
  destruct e; done.
Qed.

Lemma fields_EOL decs : never EOL (decodeFields decs).
Proof.
  induction decs as [|d decs IH]; [apply never_ret|]. intros s s'. simpl.
  destruct (d s) as [s1 [v|e]]; [apply never_bind; [done|intros; apply never_ret]|].
  destruct e; done.
Qed.

Lemma eol_Kind : eol_clean Stream_Kind.
Proof. intros s s' Hk E. by apply (Kind_quiet EOL quiet_EOL) in E as [_ ?]. Qed.

Lemma eol_bind {A B} (m : read A) (k : A -> read B) :
  eol_clean m -> (forall a, never EOL (k a)) -> eol_clean (bind m k).
Proof.
  intros Hm Hn s s' Hk. unfold bind. destruct (m s) as [s1 [a|e]] eqn:E.
  - intros E2. by apply Hn in E2.
  - intros [= -> ->]. by apply Hm.
Qed.

Lemma eol_wrap {A} (m : read A) : eol_clean m -> eol_clean (map_err wrapStreamError m).
Proof.
  intros Hm s s' Hk. unfold map_err. destruct (m s) as [s1 [a|e]] eqn:E; [done|].
  intros [= <- H]. apply Hm; [done|]. rewrite E. by destruct e.
Qed.

Ltac never := repeat first
  [ apply never_ret | apply never_fail; done | apply ListEnd_quiet | apply readFull_quiet
  | apply sliceElems_EOL | apply fields_EOL | apply never_map; [by intros e ?; apply wrap_quiet; [by left + by right|]|]
  | apply never_bind; [|intros] | apply quiet_EOL | apply quiet_OutOfFuel | case_match ].

Lemma eol_Bytes : eol_clean Stream_Bytes.
Proof. apply eol_bind; [apply eol_Kind|]. intros [[] size]; never. by intros s s'. Qed.

Lemma eol_uint bits : eol_clean (Stream_uint bits).
Proof.
  apply eol_bind; [apply eol_Kind|]. intros [[] size]; never.
  - intros s s'. by case_match.
  - apply never_map; [|apply readUint_quiet, quiet_EOL]. intros e He. by case_decide.
Qed.

Lemma eol_List : eol_clean Stream_List.
Proof. apply eol_bind; [apply eol_Kind|]. intros [[] size]; never. by intros s s'. Qed.

Lemma eol_ListSlice d fuel : eol_clean (decodeListSlice d fuel).
Proof. apply eol_bind; [apply eol_wrap, eol_List|]. intros size. never. Qed.

Lemma eol_Struct decs : eol_clean (decodeStruct decs).
Proof. apply eol_bind; [apply eol_wrap, eol_List|]. intros size. never. Qed.

Lemma eol_ext {A} (m m' : read A) : (forall s, m s = m' s) -> eol_clean m' -> eol_clean m.
Proof. intros He H s s' Hk. rewrite He. by apply H. Qed.

Lemma eol_Interface fuel : eol_clean (decodeInterface (S fuel)).
Proof.
  intros s s' Hk E. cbn [decodeInterface] in E. unfold bind at 1 in E.
  destruct (Stream_Kind s) as [s1 [[k size]|e]] eqn:Ek; [|apply eol_Kind; congruence].
  destruct k.
  1, 2: rewrite (peeks_bind _ _ peeks_Bytes s s1 _ Ek) in E;
    exact (eol_bind _ _ eol_Bytes (fun _ => never_ret _ _) s s' Hk E).
  rewrite (peeks_bind _ _ (peeks_ListSlice _ _) s s1 _ Ek) in E.
  exact (eol_bind _ _ (eol_ListSlice _ _) (fun _ => never_ret _ _) s s' Hk E).
Qed.

Lemma decoder_eol t fuel : eol_clean (decoder t (S fuel)).
Proof.
  induction t using dtype_ind'; cbn [decoder]; unfold decodeOptionalPtr, decodePtr.
  1-4: apply eol_bind; [|by intros]; apply eol_wrap; auto using eol_uint, eol_Bytes.
  - apply eol_bind; [apply eol_uint|]. intros b. never.
  - apply eol_bind; [apply eol_Kind|]. intros [[] size]; never. intros s s'. by repeat case_match.
  - apply eol_bind; [apply eol_wrap, eol_Bytes|]. intros b. never.
  - apply eol_bind; [apply eol_ListSlice|by intros].
  - apply eol_bind; [|by intros]. eapply eol_ext; [apply decodeListArray_struct|apply eol_Struct].
  - apply eol_bind; [apply eol_Struct|by intros].
  - apply eol_bind; [done|by intros].
  - intros s s' Hk E. destruct (Stream_Kind s) as [s1 [[k size]|e]] eqn:Ek.
    + case_match; [done|]. rewrite (peeks_bind _ _ (decoder_peeks t fuel) s s1 _ Ek) in E.
      exact (eol_bind _ _ IHt (fun _ => never_ret _ _) s s' Hk E).
    + assert (e = EOL) as -> by congruence. apply eol_Kind in Ek as ->; [|done].
      injection E as <-. unfold set_kind, clear_kinderr. simpl. by rewrite Hk.
  - apply eol_Interface.
Qed.

(** ** What the decoder accepts is an encoding *)

(** A sequence of items was read. *)
Definition got (l : list item) (s s' : Stream) : Prop :=
  Forall wf_item l /\ reads (enc_items l) s s' /\ zlen (enc_items l) <= room s /\ s_kind s' = None.

Lemma got_nil s s' : ready s -> s_kind s = None -> s' = s \/ s' = clear_kinderr s -> got [] s s'.
Proof.
  intros Hs Hk H. split; [done|]. split; [|split; [by apply ready_room|by destruct H; subst]].
  destruct H; subst; [|by apply reads_stop]. eapply reads_same; [by apply reads_nil|done..].
Qed.

Lemma got_cons it l s s1 s2 :
  ready s -> bytes_ok (s_in s) -> wf_item it -> reads (enc_item it) s s1 -> zlen (enc_item it) <= room s ->
  (ready s1 -> bytes_ok (s_in s1) -> got l s1 s2) -> got (it :: l) s s2.
Proof.
  intros Hs Hb Hw Hr Hroom Hl. destruct (reads_ready _ _ _ Hs Hr Hroom) as [Hs1 Hroom1].
  destruct (reads_bytes_ok _ _ _ Hr Hb) as [_ Hb1].
  destruct (Hl Hs1 Hb1) as (Hwl & Hrl & Hrooml & Hk). split; [by constructor|]. simpl.
  split; [by eapply reads_app|]. rewrite zlen_app. split; [lia|done].
Qed.

Lemma decodeFields_inv fs decs s s' vs :
  Forall2 reflects fs decs -> ready s -> s_kind s = None -> bytes_ok (s_in s) ->
  decodeFields decs s = (s', Ok vs) -> exists l, of_items fs l = Some vs /\ got l s s'.
Proof.
  intros H. revert s s' vs. induction H as [|f d fs decs Hf _ IH]; intros s s' vs Hs Hk Hb E.
  - injection E as <- <-. exists []. split; [done|]. apply got_nil; auto.
  - simpl in E. destruct (d s) as [s1 [v|e]] eqn:Ed; [|by destruct e].
    destruct (Hf _ _ _ Hs Hk Hb Ed) as (it & Hw & Ei & Hr & Hroom & Hk1). unfold bind in E.
    destruct (decodeFields decs s1) as [s2 [vs'|e]] eqn:Es; [|done]. injection E as <- <-.
    destruct (reads_ready _ _ _ Hs Hr Hroom) as [Hs1 _]. destruct (reads_bytes_ok _ _ _ Hr Hb) as [_ Hb1].
    destruct (IH _ _ _ Hs1 Hk1 Hb1 Es) as (l & El & Hg). exists (it :: l). simpl. rewrite Ei, El.
    split; [done|]. by eapply got_cons.
Qed.

Lemma decodeSliceElems_inv f d fuel s s' vs :
  reflects f d -> eol_clean d -> ready s -> s_kind s = None -> bytes_ok (s_in s) ->
  decodeSliceElems d fuel s = (s', Ok vs) -> exists l, list.mapM f l = Some vs /\ got l s s'.
Proof.
  intros Hf He. revert s s' vs. induction fuel as [|fuel IH]; intros s s' vs Hs Hk Hb E; [done|].
  simpl in E. destruct (d s) as [s1 [v|e]] eqn:Ed.
  - destruct (Hf _ _ _ Hs Hk Hb Ed) as (it & Hw & Ei & Hr & Hroom & Hk1). unfold bind in E.
    destruct (decodeSliceElems d fuel s1) as [s2 [vs'|e]] eqn:Es; [|done]. injection E as <- <-.
    destruct (reads_ready _ _ _ Hs Hr Hroom) as [Hs1 _]. destruct (reads_bytes_ok _ _ _ Hr Hb) as [_ Hb1].
    destruct (IH _ _ _ Hs1 Hk1 Hb1 Es) as (l & El & Hg). exists (it :: l). simpl. rewrite Ei. simpl.
    rewrite El. split; [done|]. by eapply got_cons.
  - assert (e = EOL /\ s' = s1 /\ vs = []) as (-> & -> & ->) by (destruct e; by simplify_eq).
    exists []. split; [done|]. apply got_nil; auto.
Qed.

(** A list whose content was read to its end. *)
Lemma list_inv size s s1 s2 s3 l :
  ready s -> s_kind s = None -> bytes_ok (s_in s) -> Stream_List s = (s1, Ok size) ->
  (ready s1 -> s_kind s1 = None -> bytes_ok (s_in s1) -> got l s1 s2) ->
  Stream_ListEnd s2 = (s3, Ok tt) ->
  wf_item (Lst l) /\ reads (enc_item (Lst l)) s s3 /\ zlen (enc_item (Lst l)) <= room s /\ s_kind s3 = None.
Proof.
  intros Hs Hk Hb El Hl Ee. apply Stream_List_inv in El as (Hin & Hu & Hk1 & Hroom & Hfit); [|done..].
  destruct (inside_ready _ _ _ _ Hs Hu Hin Hroom) as [Hs1 Hr1].
  assert (bytes_ok (s_in s1)) as Hb1.
  { destruct Hin as [Hi _ _ _]. rewrite Hi in Hb. by apply Forall_app in Hb as [_ ?]. }
  destruct (Hl Hs1 Hk1 Hb1) as (Hw & Hr & Hroom2 & Hk2). rewrite Hr1 in Hroom2.
  apply (Stream_ListEnd_inv _ _ _ _ _ _ _ Hin Hr Hu ltac:(lia)) in Ee as (Hz & Hr3 & Hk3).
  subst size. split; [by constructor|]. split; [done|]. split; [|done].
  change (enc_item (Lst l)) with (header List (zlen (enc_items l)) 0 ++ enc_items l).
  rewrite zlen_app. unfold room. destruct (s_stack s) as [|[p z] st]; lia.
Qed.

Lemma bind_Ok {A B} (m : read A) (k : A -> read B) s s' v :
  bind m k s = (s', Ok v) -> exists s1 a, m s = (s1, Ok a) /\ k a s1 = (s', Ok v).
Proof. unfold bind. destruct (m s) as [s1 [a|e]] eqn:E; [by eauto|done]. Qed.

Lemma map_err_Ok {A} f (m : read A) s s' v : map_err f m s = (s', Ok v) -> m s = (s', Ok v).
Proof. unfold map_err. by destruct (m s) as [s1 [a|e]]. Qed.

Lemma ret_Ok {A} (a : A) s s' v : ret a s = (s', Ok v) -> s' = s /\ v = a.
Proof. by injection 1. Qed.

Lemma decodeListSlice_inv f d fuel s s' vs :
  reflects f d -> eol_clean d -> ready s -> s_kind s = None -> bytes_ok (s_in s) ->
  decodeListSlice d fuel s = (s', Ok vs) ->
  exists l, list.mapM f l = Some vs /\ wf_item (Lst l) /\ reads (enc_item (Lst l)) s s' /\
    zlen (enc_item (Lst l)) <= room s /\ s_kind s' = None.
Proof.
  intros Hf He Hs Hk Hb E. unfold decodeListSlice in E.
  apply bind_Ok in E as (s1 & size & El%map_err_Ok & E). case_match.
  - apply bind_Ok in E as (s2 & [] & Ee & [-> ->]%ret_Ok). exists []. split; [done|].
    eapply (list_inv _ _ s1 s1); [done..| |done]. intros. apply got_nil; auto.
  - apply bind_Ok in E as (s2 & vs' & Es & E).
    apply bind_Ok in E as (s3 & [] & Ee & [-> ->]%ret_Ok).
    pose proof (Stream_List_inv _ _ _ Hs Hk Hb El) as (Hin & Hu & Hk1 & Hroom & _).
    destruct (inside_ready _ _ _ _ Hs Hu Hin Hroom) as [Hs1 _].
    destruct (decodeSliceElems_inv f d fuel s1 s2 vs' Hf He Hs1 Hk1) as (l & Hl & Hg); [|done|].
    { destruct Hin as [Hi _ _ _]. rewrite Hi in Hb. by apply Forall_app in Hb as [_ ?]. }
    exists l. split; [done|]. by eapply (list_inv _ _ s1 s2).
Qed.

Lemma decodeStruct_inv fs decs s s' vs :
  Forall2 reflects fs decs -> ready s -> s_kind s = None -> bytes_ok (s_in s) ->
  decodeStruct decs s = (s', Ok vs) ->
  exists l, of_items fs l = Some vs /\ wf_item (Lst l) /\ reads (enc_item (Lst l)) s s' /\
    zlen (enc_item (Lst l)) <= room s /\ s_kind s' = None.
Proof.
  intros Hf Hs Hk Hb E. unfold decodeStruct in E.
  apply bind_Ok in E as (s1 & size & El%map_err_Ok & E).
  apply bind_Ok in E as (s2 & vs' & Es & E).
  apply bind_Ok in E as (s3 & [] & Ee%map_err_Ok & [-> ->]%ret_Ok).
  pose proof (Stream_List_inv _ _ _ Hs Hk Hb El) as (Hin & Hu & Hk1 & Hroom & _).
  destruct (inside_ready _ _ _ _ Hs Hu Hin Hroom) as [Hs1 _].
  destruct (decodeFields_inv fs decs s1 s2 vs' Hf Hs1 Hk1) as (l & Hl & Hg); [|done|].
  { destruct Hin as [Hi _ _ _]. rewrite Hi in Hb. by apply Forall_app in Hb as [_ ?]. }
  exists l. split; [done|]. by eapply (list_inv _ _ s1 s2).
Qed.

(** What [Bytes] returned was read as a string. *)
Lemma Bytes_reflects b s s' :
  ready s -> s_kind s = None -> bytes_ok (s_in s) -> Stream_Bytes s = (s', Ok b) ->
  wf_item (Str b) /\ reads (enc_item (Str b)) s s' /\ zlen (enc_item (Str b)) <= room s /\ s_kind s' = None.
Proof.
  intros Hs Hk Hb E. destruct (Stream_Bytes_inv b s s' Hs Hk Hb E) as (Hr & Hroom & Hk').
  split; [|done]. constructor. destruct (reads_bytes_ok _ _ _ Hr Hb) as [H _].
  rewrite enc_str_cases in H. case_match; [done|]. by apply Forall_app in H as [_ ?].
Qed.

Lemma decodeByteArray_inv n s s' v :
  n <> 1%nat -> decodeByteArray n s = (s', Ok v) ->
  exists b, v = VBytes b /\ length b = n /\ Stream_Bytes s = (s', Ok b).
Proof.
  intros Hn E. unfold decodeByteArray in E. apply bind_Ok in E as (s1 & [k size] & Ek & E).
  unfold Stream_Bytes, bind at 1. rewrite Ek. destruct k; [| |done].
  - destruct (Z.eqb_spec (Z.of_nat n) 0); [done|]. destruct (Z.ltb_spec 1 (Z.of_nat n)); [done|lia].
  - destruct (Z.ltb_spec (Z.of_nat n) size); [done|]. destruct (Z.ltb_spec size (Z.of_nat n)); [done|].
    assert (size = Z.of_nat n) as -> by lia. apply bind_Ok in E as (s2 & b & Ef & E).
    destruct ((Z.of_nat n =? 1) && _) eqn:Ht; [done|]. apply ret_Ok in E as [-> ->].
    exists b. split; [done|]. unfold bind. rewrite Ef, Ht. split; [|done].
    unfold readFull in Ef. apply bind_Ok in Ef as (s3 & [] & _ & Ef).
    destruct (Nat.ltb_spec (length (s_in s3)) (Z.to_nat (Z.of_nat n))); [done|].
    injection Ef as _ <-. rewrite length_take. lia.
Qed.

Lemma eol_Interface_any fuel : eol_clean (decodeInterface fuel).
Proof. destruct fuel; [by intros s s' _ [=]|apply eol_Interface]. Qed.

Lemma decodeInterface_inv fuel : reflects (fun it => Some (iface_of it)) (decodeInterface fuel).
Proof.
  induction fuel as [|fuel IH]; intros s s' v Hs Hk Hb E; [done|]. cbn [decodeInterface] in E.
  apply bind_Ok in E as (s1 & [k size] & Ek & E). destruct k.
  1, 2: rewrite (peeks_bind _ _ peeks_Bytes s s1 _ Ek) in E;
    apply bind_Ok in E as (s2 & b & Eb & [-> ->]%ret_Ok);
    destruct (Bytes_reflects b s s2 Hs Hk Hb Eb); by exists (Str b).
  rewrite (peeks_bind _ _ (peeks_ListSlice _ _) s s1 _ Ek) in E.
  apply bind_Ok in E as (s2 & vs & El & [-> ->]%ret_Ok).
  apply (decodeListSlice_inv (fun it => Some (iface_of it))) in El as (l & El & Hw & H);
    [|done|apply eol_Interface_any|done..].
  rewrite mapM_iface in El. injection El as <-. by exists (Lst l).
Qed.

Lemma Bool_inv b s s' :
  ready s -> s_kind s = None -> bytes_ok (s_in s) -> Stream_Bool s = (s', Ok b) ->
  let it := Str (if b then [1] else []) in
  reads (enc_item it) s s' /\ zlen (enc_item it) <= room s /\ s_kind s' = None.
Proof.
  intros Hs Hk Hb E. apply bind_Ok in E as (s1 & n & Eu & E).
  apply Stream_uint_inv in Eu as (bs & Hbs & -> & Hc & _ & H); [|done..].
  pose proof (big_Bytes_of_bytes bs Hbs Hc) as Hbig.
  destruct (Z.eqb_spec (be bs) 0) as [E0|_]; [|destruct (Z.eqb_spec (be bs) 1) as [E0|_]; [|done]];
    apply ret_Ok in E as [-> ->]; rewrite E0 in Hbig; by subst bs.
Qed.

Lemma reflects_ptr t (m : read goval) :
  reflects (of_item t) m ->
  reflects (of_item (DPtr t)) (let* v := m in ret (VPtr (erase t) (Some v))).
Proof.
  intros Hm s s' v Hs Hk Hb E. apply bind_Ok in E as (s1 & v' & E & [-> ->]%ret_Ok).
  destruct (Hm _ _ _ Hs Hk Hb E) as (it & Hw & Ei & H). exists it. simpl. by rewrite Ei.
Qed.

(** An empty value read for an optional pointer. *)
Lemma empty_inv k size s s1 :
  ready s -> s_kind s = None -> bytes_ok (s_in s) -> Stream_Kind s = (s1, Ok (k, size)) ->
  size = 0 -> k <> Byte ->
  exists it, wf_item it /\ empty_item it = true /\ reads (enc_item it) s (set_kind None s1) /\
    zlen (enc_item it) <= room s.
Proof.
  intros Hs Hk Hb Ek -> Hn. apply Stream_Kind_inv in Ek as (b & _ & Hr & Hroom & _); [|done..].
  exists (match k with List => Lst [] | _ => Str [] end).
  destruct k; [done|..]; (split; [by repeat constructor|]); (split; [done|]);
    (split; [by eapply reads_same|done]).
Qed.

Lemma uint_width bits :
  (bits =? 8) || (bits =? 16) || (bits =? 32) || (bits =? 64) = true -> 1 <= Z.quot bits 8.
Proof. rewrite !orb_true_iff, !Z.eqb_eq. by intros [[[->| ->]| ->]| ->]. Qed.

Lemma decoder_inv t fuel : decodable t = true -> reflects (of_item t) (decoder t (S fuel)).
Proof.
  induction t using dtype_ind'; cbn [decodable]; intros Hd s s' v Hs Hk Hb E; cbn [decoder] in E;
    unfold decodeUint, decodeBool, decodeString, decodeByteSlice,
      decodeOptionalPtr, decodePtr in E.
  - apply bind_Ok in E as (s1 & n & E%map_err_Ok & [-> ->]%ret_Ok).
    apply Stream_uint_inv in E as (b & Hbb & -> & Hc & Hl & H); [|by apply uint_width|done..].
    exists (Str b). split; [by constructor|]. split; [|done]. simpl.
    by rewrite Hc, (proj2 (Z.leb_le _ _)).
  - apply bind_Ok in E as (s1 & b & E%map_err_Ok & [-> ->]%ret_Ok).
    exists (Str (if b then [1] else [])). split; [destruct b; repeat constructor; lia|].
    split; [by destruct b|]. by apply Bool_inv.
  - apply bind_Ok in E as (s1 & b & E%map_err_Ok & [-> ->]%ret_Ok).
    destruct (Bytes_reflects b s s1 Hs Hk Hb E). by exists (Str b).
  - apply bind_Ok in E as (s1 & b & E%map_err_Ok & [-> ->]%ret_Ok).
    destruct (Bytes_reflects b s s1 Hs Hk Hb E). by exists (Str b).
  - apply decodeByteArray_inv in E as (b & -> & Hl & E); [|by intros ->].
    destruct (Bytes_reflects b s s' Hs Hk Hb E). exists (Str b). split; [done|]. simpl.
    by rewrite Hl, Nat.eqb_refl.
  - apply bind_Ok in E as (s1 & b & E%map_err_Ok & E1).
    destruct (Bytes_reflects b s s1 Hs Hk Hb E) as [Hw H].
    assert (canonical b = true /\ s' = s1 /\ v = VBigInt (Some (be b))) as (Hc & -> & ->)
      by (destruct b as [|[] b]; [by injection E1 as <- <-|done|by injection E1 as <- <-..]).
    exists (Str b). split; [done|]. simpl. by rewrite Hc.
  - apply bind_Ok in E as (s1 & vs & E & [-> ->]%ret_Ok).
    apply (decodeListSlice_inv (of_item t)) in E as (l & El & H); [|by auto|apply decoder_eol|done..].
    exists (Lst l). split; [apply H|]. simpl. rewrite El. split; [done|apply H].
  - apply bind_Ok in E as (s1 & vs & E & [-> ->]%ret_Ok). rewrite decodeListArray_struct in E.
    apply (decodeStruct_inv (replicate n (of_item t))) in E as (l & El & H); [|clear E|done..].
    + exists (Lst l). split; [apply H|]. simpl. rewrite El. split; [done|apply H].
    + induction n; constructor; auto.
  - apply bind_Ok in E as (s1 & vs & E & [-> ->]%ret_Ok).
    apply (decodeStruct_inv (map of_item ts)) in E as (l & El & H'); [|clear E|done..].
    + exists (Lst l). split; [apply H'|]. simpl. rewrite El. split; [done|apply H'].
    + clear -H Hd. induction H; simpl in *; constructor; apply andb_prop in Hd as [? ?]; auto.
  - by apply (reflects_ptr t (decoder t (S fuel)) (IHt Hd)).
  - destruct (Stream_Kind s) as [s1 [[k size]|e]] eqn:Ek; [|done].
    destruct ((size =? 0) && bool_decide (k <> Byte)) eqn:Ht.
    + apply andb_prop in Ht as [->%Z.eqb_eq Hn%bool_decide_eq_true]. injection E as <- <-.
      destruct (empty_inv k 0 s s1) as (it & Hw & He & H); [done..|]. exists it.
      cbn [of_item]. rewrite He. split_and!; try done; apply H.
    + rewrite (peeks_bind _ _ (decoder_peeks t fuel) s s1 _ Ek) in E.
      destruct (reflects_ptr t (decoder t (S fuel)) (IHt Hd) _ _ _ Hs Hk Hb E) as (it & Hw & Ei & Hr & Hroom & H).
      destruct (Kind_item it (s_in s') s) as (s2 & size2 & Ek2 & He & _); [done..|apply Hr|done|].
      rewrite Ek in Ek2. injection Ek2 as <- -> ->. rewrite Ht in He.
      exists it. cbn [of_item]. by rewrite <- He.
  - by apply decodeInterface_inv in E.
Qed.

(** ** Values of a type *)

(** The values a variable of type [t] can hold and the encoding can carry: no nil
    pointer but the optional ones, no optional pointer to an empty value. *)
Inductive typed : dtype -> goval -> Prop :=
| ty_uint bits n : 0 <= n < 2 ^ bits -> typed (DUint bits) (VUint n)
| ty_bool b : typed DBool (VBool b)
| ty_string b : bytes_ok b -> typed DString (VString b)
| ty_bytes b : bytes_ok b -> typed DBytes (VBytes b)
| ty_bytearray b : bytes_ok b -> typed (DByteArray (length b)) (VBytes b)
| ty_bigint z : 0 <= z -> typed DBigInt (VBigInt (Some z))
| ty_slice t vs : Forall (typed t) vs -> typed (DSlice t) (VSlice vs)
| ty_array t vs : Forall (typed t) vs -> typed (DArray (length vs) t) (VSlice vs)
| ty_struct ts vs : Forall2 typed ts vs -> typed (DStruct ts) (VStruct vs)
| ty_ptr t v : typed t v -> typed (DPtr t) (VPtr (erase t) (Some v))
| ty_nil t : typed (DOptPtr t) (VPtr (erase t) None)
| ty_opt t v it : typed t v -> item_of v = Ok it -> empty_item it = false ->
    typed (DOptPtr t) (VPtr (erase t) (Some v))
| ty_iface_bytes b : bytes_ok b -> typed DIface (VIface (Some (TBytes, VBytes b)))
| ty_iface_list vs : Forall (typed DIface) vs ->
    typed DIface (VIface (Some (TSlice TIface, VSlice vs))).

Lemma has_writer_erase t : has_writer (erase t) = true.
Proof.
  induction t using dtype_ind'; try done. simpl.
  induction H as [|t ts Ht _ IH]; [done|]. simpl. by rewrite Ht.
Qed.

Lemma nil_item_empty t : empty_item (nil_item t) = true.
Proof. by induction t. Qed.

(** The value [v] of type [t] is the one its item stands for. *)
Definition carried (t : dtype) (v : goval) : Prop :=
  wf_val v /\ exists it, item_of v = Ok it /\ of_item t it = Some v.

Lemma carried_seq (ts : list dtype) vs :
  Forall2 carried ts vs ->
  wf_val (VSlice vs) /\ exists l, mapM item_of vs = Ok l /\ of_items (map of_item ts) l = Some vs.
Proof.
  induction 1 as [|t v ts vs (Hw & it & Ei & Ev) _ (Hws & l & El & Evs)]; [by split; [|exists []]|].
  split; [by split|]. exists (it :: l). simpl. by rewrite Ei, El, Ev, Evs.
Qed.

Lemma of_items_mapM f l : list.mapM f l = of_items (replicate (length l) f) l.
Proof.
  induction l as [|it l IH]; [done|]. simpl. destruct (f it); simpl; [|done]. by rewrite IH.
Qed.

Lemma mapM_length {A B E} (f : A -> res E B) l l' : mapM f l = Ok l' -> length l' = length l.
Proof.
  revert l'. induction l as [|a l IH]; intros l' E'; simpl in E'; [by injection E' as <-|].
  destruct (f a); [|done]. destruct (mapM f l); [|done]. injection E' as <-. simpl. by rewrite IH.
Qed.

Lemma carried_slice t vs :
  Forall (carried t) vs -> carried (DSlice t) (VSlice vs) /\ carried (DArray (length vs) t) (VSlice vs).
Proof.
  intros H. destruct (carried_seq (replicate (length vs) t) vs) as (Hw & l & El & Ev).
  { induction H; constructor; auto. }
  pose proof (mapM_length _ _ _ El) as Hl.
  replace (map of_item (replicate (length vs) t)) with (replicate (length vs) (of_item t)) in Ev
    by (clear; induction vs; simpl; congruence).
  split; (split; [done|]); exists (Lst l); simpl; rewrite El; (split; [done|]).
  - by rewrite of_items_mapM, Hl, Ev.
  - by rewrite Ev.
Qed.

(** The bytes of a number fit its width. *)
Lemma big_Bytes_length x n : 0 <= n -> 0 <= x < 2 ^ (8 * n) -> zlen (big_Bytes x) <= n.
Proof.
  intros Hn Hx. unfold big_Bytes, zlen. destruct (Z.eqb_spec x 0); [simpl; lia|].
  rewrite be_bytes_length. assert (Z.log2 x < 8 * n) by (apply Z.log2_lt_pow2; lia).
  pose proof (Z.log2_nonneg x). assert (Z.log2 x / 8 < n) by (apply Z.div_lt_upper_bound; lia). 
  assert (0 <= Z.log2 x / 8) by (apply Z.div_pos; lia). lia.
Qed.

Lemma uint_bits bits :
  (bits =? 8) || (bits =? 16) || (bits =? 32) || (bits =? 64) = true ->
  bits = 8 * Z.quot bits 8 /\ 1 <= Z.quot bits 8 <= 8.
Proof. rewrite !orb_true_iff, !Z.eqb_eq. by intros [[[->| ->]| ->]| ->]. Qed.

Lemma typed_iface_carried v : typed DIface v -> carried DIface v.
Proof.
  revert v. fix IH 2. intros v Hv. inversion Hv as [| | | | | | | | | | | |b Hb|vs Hvs]; subst.
  - split; [done|]. by exists (Str b).
  - assert (wf_val (VSlice vs) /\ exists l, mapM item_of vs = Ok l /\ map iface_of l = vs) as (Hw & l & El & Ev).
    { clear Hv. induction Hvs as [|v vs Hv _ (Hws & l & El & Ev)]; [by split; [|exists []]|].
      destruct (IH v Hv) as (Hw & it & Ei & [= Ef]). split; [by split|].
      exists (it :: l). simpl. by rewrite Ei, El, Ef, Ev. }
    split; [done|]. exists (Lst l). simpl. rewrite El, Ev. done.
Qed.

Lemma typed_carried t v : decodable t = true -> typed t v -> carried t v.
Proof.
  revert v. induction t using dtype_ind'; intros v Hd Hv; cbn [decodable] in Hd.
  12: by apply typed_iface_carried.
  all: inversion Hv; subst; clear Hv.
  - apply uint_bits in Hd as [Hb Hq]. rewrite Hb in H0. assert (0 <= n) by lia.
    assert (2 ^ (8 * Z.quot bits 8) <= 2 ^ 64) by (apply Z.pow_le_mono_r; lia).
    split; [split; lia|]. eexists. split; [done|]. cbn [of_item].
    rewrite big_Bytes_canonical, (proj2 (Z.leb_le _ _)), be_big_Bytes by (try apply big_Bytes_length; lia). done.
  - split; [done|]. eexists. split; [done|]. by destruct b.
  - split; [done|]. by eexists.
  - split; [done|]. by eexists.
  - split; [done|]. eexists. split; [done|]. simpl. by rewrite Nat.eqb_refl.
  - split; [done|]. simpl. rewrite (proj2 (Z.ltb_ge _ _)) by done. eexists. split; [done|].
    cbn [of_item]. by rewrite big_Bytes_canonical, be_big_Bytes.
  - apply carried_slice. eapply Forall_impl; [done|]. auto.
  - apply carried_slice. eapply Forall_impl; [done|]. auto.
  - destruct (carried_seq ts vs) as (Hw & l & El & Ev).
    { match goal with Hf : Forall2 typed ts vs |- _ => revert Hd H; induction Hf end; [constructor|].
      simpl. intros [? ?]%andb_prop [? ?]%Forall_cons. constructor; auto. }
    split; [done|]. exists (Lst l). simpl. by rewrite El, Ev.
  - destruct (IHt _ Hd ltac:(done)) as (Hw & it & Ei & Ev). split; [done|]. exists it.
    simpl. by rewrite Ev.
  - split; [apply has_writer_erase|]. eexists. split; [done|]. cbn [of_item]. by rewrite nil_item_empty.
  - destruct (IHt _ Hd ltac:(done)) as (Hw & it' & Ei & Ev). split; [done|]. exists it'.
    split; [done|]. cbn [of_item]. assert (it' = it) as -> by congruence.
    match goal with He : empty_item it = false |- _ => rewrite He end. by rewrite Ev.
Qed.

(** No optional pointer. *)
Fixpoint strict (t : dtype) : bool :=
  match t with
  | DOptPtr _ => false
  | DSlice t | DArray _ t | DPtr t => strict t
  | DStruct ts => forallb strict ts
  | _ => true
  end.

(** The value [f] gives to an item has that item. *)
Definition denotes (t : dtype) (f : item -> option goval) : Prop :=
  forall it v, wf_item it -> f it = Some v -> item_of v = Ok it /\ typed t v /\ wf_val v.

Lemma denotes_seq ts fs l vs :
  Forall2 denotes ts fs -> Forall wf_item l -> of_items fs l = Some vs ->
  mapM item_of vs = Ok l /\ Forall2 typed ts vs /\ wf_val (VSlice vs).
Proof.
  intros H. revert l vs. induction H as [|t f ts fs Hf _ IH]; intros l vs Hw E.
  - destruct l; [|done]. by injection E as <-.
  - destruct l as [|it l]; [done|]. apply Forall_cons in Hw as [Hw Hl]. simpl in E.
    apply bind_Some in E as (v & E1 & E). apply bind_Some in E as (vs' & E2 & [= <-]).
    destruct (Hf it v Hw E1) as (Ei & Ht & Hv). destruct (IH l vs' Hl E2) as (El & Hts & Hvs).
    simpl. rewrite Ei, El. split; [done|]. split; [by constructor|done].
Qed.

Lemma denotes_slice t n l vs :
  denotes t (of_item t) -> Forall wf_item l -> of_items (replicate n (of_item t)) l = Some vs ->
  item_of (VSlice vs) = Ok (Lst l) /\ Forall (typed t) vs /\ length vs = n /\ wf_val (VSlice vs).
Proof.
  intros Hd Hw E. destruct (denotes_seq (replicate n t) (replicate n (of_item t)) l vs) as (El & Ht & Hv);
    [clear E; induction n; constructor; auto|done..|].
  simpl. rewrite El. split; [done|]. pose proof (Forall2_length _ _ _ Ht) as Hlen.
  rewrite length_replicate in Hlen. split; [|done]. clear -Ht.
  revert vs Ht. induction n; simpl; intros vs Ht; inversion_clear Ht; constructor; auto.
Qed.

Lemma denotes_iface : denotes DIface (fun it => Some (iface_of it)).
Proof.
  intros it v Hw [= <-]. revert Hw. induction it as [b|l IH] using item_ind'; intros Hw.
  - apply wf_str in Hw. simpl. split; [done|]. split; [by constructor|done].
  - apply wf_lst in Hw.
    assert (mapM item_of (map iface_of l) = Ok l /\ Forall (typed DIface) (map iface_of l) /\
            wf_val (VSlice (map iface_of l))) as (El & Ht & Hv).
    { induction Hw as [|it l Hw _ IHl]; [done|]. apply Forall_cons in IH as [IH1 IH].
      destruct (IH1 Hw) as (Ei & Hti & Hvi). destruct (IHl IH) as (El & Ht & Hv). simpl.
      rewrite Ei, El. split; [done|]. split; [by constructor|done]. }
    simpl. rewrite El. split; [done|]. split; [by constructor|done].
Qed.

Lemma of_item_denotes t : decodable t = true -> strict t = true -> denotes t (of_item t).
Proof.
  induction t using dtype_ind'; intros Hd Hst it v Hw E; cbn [decodable strict] in Hd, Hst.
  12: by apply denotes_iface.
  all: destruct it as [b|l]; try done; cbn [of_item] in E;
    try (apply wf_str in Hw); try (apply wf_lst in Hw).
  - apply uint_bits in Hd as [Hb Hq]. destruct (canonical b) eqn:Hc; [|done].
    destruct (Z.leb_spec (zlen b) (Z.quot bits 8)); [|done]. injection E as <-.
    pose proof (be_range b Hw) as [Hr0 Hr]. assert (be b < 2 ^ bits) as Hlt.
    { eapply Z.lt_le_trans; [exact Hr|]. apply Z.pow_le_mono_r; lia. }
    cbn [item_of]. rewrite big_Bytes_of_bytes by done. split; [done|]. split; [by constructor|].
    split; [done|]. eapply Z.lt_le_trans; [exact Hlt|]. apply Z.pow_le_mono_r; lia.
  - destruct b as [|x [|]]; [injection E as <-|destruct (Z.eqb_spec x 1) as [->|]; [injection E as <-|done]|done];
      (split; [done|]; split; [constructor|done]).
  - injection E as <-. split; [done|]. split; [by constructor|done].
  - injection E as <-. split; [done|]. split; [by constructor|done].
  - destruct (Nat.eqb_spec (length b) n) as [<-|]; [|done]. injection E as <-.
    split; [done|]. split; [by constructor|done].
  - destruct (canonical b) eqn:Hc; [|done]. injection E as <-.
    pose proof (be_range b Hw) as [Hr0 _]. cbn [item_of].
    rewrite (proj2 (Z.ltb_ge _ _)), big_Bytes_of_bytes by done. split; [done|]. split; [by constructor|done].
  - apply fmap_Some in E as (vs & E & ->). rewrite of_items_mapM in E.
    destruct (denotes_slice t _ l vs (IHt Hd Hst) Hw E) as (Ei & Ht & _ & Hv).
    split; [done|]. split; [by constructor|done].
  - apply fmap_Some in E as (vs & E & ->).
    destruct (denotes_slice t _ l vs (IHt Hd Hst) Hw E) as (Ei & Ht & <- & Hv).
    split; [done|]. split; [by constructor|done].
  - apply fmap_Some in E as (vs & E & ->).
    destruct (denotes_seq ts (map of_item ts) l vs) as (El & Ht & Hv); [|done..|].
    { clear -H Hd Hst. induction H; simpl in *; constructor;
        apply andb_prop in Hd as [? ?], Hst as [? ?]; auto. }
    simpl. rewrite El. split; [done|]. split; [by constructor|done].
  - apply fmap_Some in E as (v' & E & ->). destruct (IHt Hd Hst (Str b) v') as (Ei & Ht & Hv); [by constructor|done|].
    split; [done|]. split; [by constructor|done].
  - apply fmap_Some in E as (v' & E & ->). destruct (IHt Hd Hst (Lst l) v') as (Ei & Ht & Hv); [by constructor|done|].
    split; [done|]. split; [by constructor|done].
Qed.

(** ** Termination *)

(** [m] finishes on inputs of fewer than [N] bytes. *)
Definition runs (N : nat) {A} (m : read A) : Prop :=
  forall s s', ready s -> s_kind s = None -> bytes_ok (s_in s) -> (length (s_in s) < N)%nat ->
    m s <> (s', Err OutOfFuel).

Lemma runs_Kind N {A} (k : Kind * Z -> read A) :
  (forall ks, never OutOfFuel (k ks)) -> runs N (bind Stream_Kind k).
Proof.
  intros Hn s s' _ Hk _ _ E. unfold bind in E. destruct (Stream_Kind s) as [s1 [ks|e]] eqn:Ek.
  - by apply (Hn ks) in E.
  - injection E as -> ->. by apply Kind_quiet in Ek as [? _]; [|apply quiet_OutOfFuel|].
Qed.

Lemma runs_bind N {A B} (m : read A) (k : A -> read B) :
  runs N m -> (forall a, never OutOfFuel (k a)) -> runs N (bind m k).
Proof.
  intros Hm Hn s s' Hs Hk Hb HN E. unfold bind in E. destruct (m s) as [s1 [a|e]] eqn:Em.
  - by apply Hn in E.
  - injection E as -> ->. by eapply Hm.
Qed.

Lemma runs_wrap N {A} (m : read A) : runs N m -> runs N (map_err wrapStreamError m).
Proof.
  intros Hm s s' Hs Hk Hb HN E. unfold map_err in E. destruct (m s) as [s1 [a|e]] eqn:Em; [done|].
  injection E as -> E. apply (Hm s s'); try done. rewrite Em. by destruct e.
Qed.

Lemma runs_Bytes N : runs N Stream_Bytes.
Proof. apply runs_Kind. intros [[] size]; never. by intros s s'. Qed.

Lemma runs_uint N bits : runs N (Stream_uint bits).
Proof.
  apply runs_Kind. intros [[] size]; never.
  - intros s s'. by case_match.
  - apply never_map; [|apply readUint_quiet, quiet_OutOfFuel]. intros e He. by case_decide.
Qed.

Lemma runs_List N : runs N Stream_List.
Proof. apply runs_Kind. intros [[] size]; never. by intros s s'. Qed.

(** Every value read is at least a byte. *)
Lemma reads_shorter it s s' : reads (enc_item it) s s' -> (length (s_in s') < length (s_in s))%nat.
Proof.
  intros [-> _ _ _]. rewrite length_app. pose proof (enc_item_nonempty it). lia.
Qed.

Lemma runs_sliceElems N f d fuel s s' :
  reflects f d -> runs N d -> ready s -> s_kind s = None -> bytes_ok (s_in s) ->
  (length (s_in s) < N)%nat -> (length (s_in s) < fuel)%nat ->
  decodeSliceElems d fuel s <> (s', Err OutOfFuel).
Proof.
  intros Hf Hd. revert s. induction fuel as [|fuel IH]; intros s Hs Hk Hb HN Hl E; [lia|]. simpl in E.
  destruct (d s) as [s1 [v|e]] eqn:Ed.
  - destruct (Hf _ _ _ Hs Hk Hb Ed) as (it & _ & _ & Hr & Hroom & Hk1).
    destruct (reads_ready _ _ _ Hs Hr Hroom) as [Hs1 _]. destruct (reads_bytes_ok _ _ _ Hr Hb) as [_ Hb1].
    pose proof (reads_shorter _ _ _ Hr). unfold bind in E.
    destruct (decodeSliceElems d fuel s1) as [s2 [vs|e]] eqn:Es; [done|]. injection E as -> ->.
    apply (IH s1); try done; lia.
  - assert (e <> OutOfFuel) by (intros ->; by apply (Hd s s1)). by destruct e.
Qed.

Lemma runs_fields N fs decs s s' :
  Forall2 reflects fs decs -> Forall (runs N) decs -> ready s -> s_kind s = None -> bytes_ok (s_in s) ->
  (length (s_in s) < N)%nat -> decodeFields decs s <> (s', Err OutOfFuel).
Proof.
  intros H. revert s. induction H as [|f d fs decs Hf _ IH]; intros s Hd Hs Hk Hb HN E; [done|].
  apply Forall_cons in Hd as [Hd Hds]. simpl in E. destruct (d s) as [s1 [v|e]] eqn:Ed.
  - destruct (Hf _ _ _ Hs Hk Hb Ed) as (it & _ & _ & Hr & Hroom & Hk1).
    destruct (reads_ready _ _ _ Hs Hr Hroom) as [Hs1 _]. destruct (reads_bytes_ok _ _ _ Hr Hb) as [_ Hb1].
    pose proof (reads_shorter _ _ _ Hr). unfold bind in E.
    destruct (decodeFields decs s1) as [s2 [vs|e]] eqn:Es; [done|]. injection E as -> ->.
    apply (IH s1); try done; lia.
  - assert (e <> OutOfFuel) by (intros ->; by apply (Hd s s1)). by destruct e.
Qed.

(** Inside a list less than the input is left. *)
Lemma runs_in_list N {A} (k : Z -> read A) :
  (forall size s1 s', ready s1 -> s_kind s1 = None -> bytes_ok (s_in s1) -> (S (length (s_in s1)) < N)%nat ->
     k size s1 <> (s', Err OutOfFuel)) ->
  runs N (let* size := map_err wrapStreamError Stream_List in k size).
Proof.
  intros Hkk s s' Hs Hk Hb HN E. unfold bind in E.
  destruct (map_err wrapStreamError Stream_List s) as [s1 [size|e]] eqn:El.
  - apply map_err_Ok, Stream_List_inv in El as (Hin & Hu & Hk1 & Hroom & _); [|done..].
    destruct (inside_ready _ _ _ _ Hs Hu Hin Hroom) as [Hs1 _]. destruct Hin as [Hi _ _ _].
    pose proof (header_length List size 0 Hu). rewrite Hi in Hb, HN. rewrite length_app in HN.
    apply Forall_app in Hb as [_ Hb]. eapply Hkk; [..|exact E]; try done. unfold zlen in *. lia.
  - injection E as -> ->. by apply (runs_wrap N _ (runs_List N) s s').
Qed.

Lemma runs_ListSlice N f d fuel :
  reflects f d -> runs N d -> (N <= fuel)%nat -> runs (S N) (decodeListSlice d fuel).
Proof.
  intros Hf Hd HN. apply runs_in_list. intros size s1 s' Hs Hk Hb Hl E. case_match.
  - by apply never_bind in E; [|apply ListEnd_quiet, quiet_OutOfFuel|intros; apply never_ret].
  - unfold bind at 1 in E. destruct (decodeSliceElems d fuel s1) as [s2 [vs|e]] eqn:Es.
    + by apply never_bind in E; [|apply ListEnd_quiet, quiet_OutOfFuel|intros; apply never_ret].
    + injection E as -> ->. apply (runs_sliceElems N f d fuel) in Es; try done; lia.
Qed.

Lemma runs_Struct N fs decs :
  Forall2 reflects fs decs -> Forall (runs N) decs -> runs N (decodeStruct decs).
Proof.
  intros Hf Hd. apply runs_in_list. intros size s1 s' Hs Hk Hb Hl E.
  unfold bind at 1 in E. destruct (decodeFields decs s1) as [s2 [vs|e]] eqn:Es.
  - revert E. cbn beta. apply never_bind; [|intros; apply never_ret].
    apply never_map; [|apply ListEnd_quiet, quiet_OutOfFuel]. intros e. apply wrap_quiet, quiet_OutOfFuel.
  - injection E as -> ->. apply (runs_fields N fs decs) in Es; try done; lia.
Qed.

Lemma runs_mono N M {A} (m : read A) : (N <= M)%nat -> runs M m -> runs N m.
Proof. intros HN Hm s s' Hs Hk Hb Hl. apply Hm; try done. lia. Qed.

Lemma runs_Interface fuel : runs fuel (decodeInterface fuel).
Proof.
  induction fuel as [|fuel IH]; intros s s' Hs Hk Hb HN E; [lia|]. cbn [decodeInterface] in E.
  unfold bind at 1 in E. destruct (Stream_Kind s) as [s1 [[k size]|e]] eqn:Ek.
  - destruct k.
    1, 2: rewrite (peeks_bind _ _ peeks_Bytes s s1 _ Ek) in E;
      by apply (runs_bind _ _ _ (runs_Bytes (S fuel)) (fun _ => never_ret _ _)) in E.
    rewrite (peeks_bind _ _ (peeks_ListSlice _ _) s s1 _ Ek) in E.
    apply (runs_bind (S fuel)) in E; try done.
    by eapply runs_ListSlice; [apply decodeInterface_inv|done|].
  - injection E as -> ->. by apply Kind_quiet in Ek as [? _]; [|apply quiet_OutOfFuel|].
Qed.

Lemma decoder_runs t fuel : decodable t = true -> runs (S fuel) (decoder t (S fuel)).
Proof.
  induction t using dtype_ind'; cbn [decodable]; intros Hd; cbn [decoder]; unfold decodeOptionalPtr, decodePtr.
  1, 3, 4: apply runs_bind; [apply runs_wrap|intros; apply never_ret]; auto using runs_uint, runs_Bytes.
  - apply runs_bind; [apply runs_wrap|intros; apply never_ret].
    apply runs_bind; [apply runs_uint|]. intros n. never.
  - apply runs_Kind. intros [[] size]; never. intros s s'. by repeat case_match.
  - apply runs_bind; [apply runs_wrap, runs_Bytes|]. intros b. never.
  - apply runs_bind; [|intros; apply never_ret]. apply (runs_mono _ (S (S fuel))); [lia|].
    apply (runs_ListSlice _ (of_item t)); [by apply decoder_inv|by apply IHt|lia].
  - apply runs_bind; [|intros; apply never_ret]. intros s s' Hs Hk Hb HN.
    rewrite decodeListArray_struct. revert s s' Hs Hk Hb HN.
    apply (runs_Struct (S fuel) (replicate n (of_item t))).
    + induction n; constructor; auto using decoder_inv.
    + apply Forall_replicate. by apply IHt.
  - apply runs_bind; [|intros; apply never_ret]. apply (runs_Struct (S fuel) (map of_item ts));
      clear -H Hd; induction H; simpl in *; constructor; apply andb_prop in Hd as [? ?]; auto using decoder_inv.
  - apply runs_bind; [by apply IHt|intros; apply never_ret].
  - intros s s' Hs Hk Hb HN E. destruct (Stream_Kind s) as [s1 [[k size]|e]] eqn:Ek.
    + case_match; [done|]. rewrite (peeks_bind _ _ (decoder_peeks t fuel) s s1 _ Ek) in E.
      by apply (runs_bind _ _ _ (IHt Hd) (fun _ => never_ret _ _)) in E.
    + injection E as _ ->. by apply Kind_quiet in Ek as [? _]; [|apply quiet_OutOfFuel|].
  - apply runs_Interface.
Qed.

(** ** Properties of the package *)

Lemma NewStream_ready b : zlen b < 2 ^ 64 -> ready (NewStream b (zlen b)) /\ room (NewStream b (zlen b)) = zlen b.
Proof.
  intros Hl. pose proof (zlen_nonneg b). unfold ready, room, NewStream. simpl. fold (zlen b).
  destruct (Z.ltb_spec 0 (zlen b)); repeat split; lia.
Qed.

Lemma DecodeBytes_ok t it v rest :
  decodable t = true -> wf_item it -> of_item t it = Some v -> zlen (enc_item it ++ rest) < 2 ^ 64 ->
  DecodeBytes t (enc_item it ++ rest)
  = match rest with [] => Ok v | _ :: _ => Err ErrMoreThanOneValue end.
Proof.
  intros Hd Hw Hv Hl. destruct (NewStream_ready _ Hl) as [Hs Hroom]. unfold DecodeBytes, zlen in *.
  destruct (decoder_ok t (S (length (enc_item it ++ rest))) Hd it v Hw Hv) with
    (rest := rest) (s := NewStream (enc_item it ++ rest) (Z.of_nat (length (enc_item it ++ rest))))
    as (s' & -> & Hr & _); try done.
  - rewrite length_app. lia.
  - rewrite Hroom, length_app. unfold zlen. lia.
  - destruct Hr as [Hi _ _ _]. simpl in Hi. apply app_inv_head in Hi as <-. by destruct rest.
Qed.

(** C16: Encoding and decoding are inverse: a value that [EncodeToBytes] writes is
    what [DecodeBytes] reads from those bytes, at every nesting of structs,
    slices, arrays, pointers and interfaces; bytes after the value are reported
    as such.  This holds for types without [[1]byte] and for the values the
    decoder itself builds ([typed]): pointers are not nil unless the field is
    tagged optional, an optional pointer is nil or points to a value whose
    encoding is not empty, big integers are present and not negative, and an
    interface holds a byte slice or a list of such interfaces. *)
Theorem DecodeBytes_EncodeToBytes t v it rest :
  decodable t = true -> typed t v -> item_of v = Ok it -> zlen (enc_item it ++ rest) < 2 ^ 64 ->
  exists bytes, EncodeToBytes (erase t) v = Ok bytes /\
    DecodeBytes t (bytes ++ rest)
    = match rest with [] => Ok v | _ :: _ => Err ErrMoreThanOneValue end.
Proof.
  intros Hd Ht Hi Hl. destruct (typed_carried t v Hd Ht) as (Hw & it' & Ei & Ev).
  assert (it' = it) as -> by congruence. exists (enc_item it). split.
  - apply EncodeToBytes_item; [done|apply has_writer_erase|done|].
    rewrite zlen_app in Hl. pose proof (zlen_nonneg rest). lia.
  - apply DecodeBytes_ok; try done. by eapply item_of_wf.
Qed.

Lemma DecodeBytes_encodes t b v :
  decodable t = true -> strict t = true -> bytes_ok b -> zlen b < 2 ^ 64 ->
  DecodeBytes t b = Ok v -> typed t v /\ EncodeToBytes (erase t) v = Ok b.
Proof.
  intros Hd Hst Hb Hl E. destruct (NewStream_ready _ Hl) as [Hs Hroom].
  unfold DecodeBytes in E. fold (zlen b) in E.
  destruct (decoder t (S (length b)) (NewStream b (zlen b))) as [s' [v'|e]] eqn:Ed; [|done].
  destruct (Nat.ltb_spec 0 (length (s_in s'))) as [|Hend]; [done|]. injection E as ->.
  apply decoder_inv in Ed as (it & Hw & Ei & [Hi _ _ _] & _); [|done..].
  destruct (s_in s'); [|simpl in Hend; lia]. simpl in Hi. rewrite app_nil_r in Hi. subst b.
  destruct (of_item_denotes t Hd Hst it v Hw Ei) as (Eit & Ht & Hv). split; [done|].
  by apply EncodeToBytes_item; [|apply has_writer_erase|..].
Qed.

(** C17: The decoder accepts only canonical encodings: whatever bytes it takes for
    a value of a type without optional pointers and without [[1]byte] are the
    bytes the encoder writes for that value, so a decoded object has one wire
    form and one hash. *)
Theorem DecodeBytes_canonical t b v :
  decodable t = true -> strict t = true -> bytes_ok b -> zlen b < 2 ^ 64 ->
  DecodeBytes t b = Ok v -> typed t v /\ EncodeToBytes (erase t) v = Ok b.
Proof. apply DecodeBytes_encodes. Qed.

(** Decoding terminates on every input: the loops over list elements and over
    nested interfaces end within one round per input byte. *)
Theorem DecodeBytes_terminates t b :
  decodable t = true -> bytes_ok b -> zlen b < 2 ^ 64 -> DecodeBytes t b <> Err OutOfFuel.
Proof.
  intros Hd Hb Hl. destruct (NewStream_ready _ Hl) as [Hs _]. unfold DecodeBytes. fold (zlen b).
  destruct (decoder t (S (length b)) (NewStream b (zlen b))) as [s' [v|e]] eqn:Ed; [by case_match|].
  intros [= ->]. apply (decoder_runs t (length b) Hd) in Ed; try done. simpl. lia.
Qed.

(** ** Boundary cases *)

(** [decodeByteArray] drops the error [Uint] returns for a zero byte, and the
    byte is not consumed: the array [1]byte{0} and the number after it are not
    read back. *)
Lemma byte_array_of_one_zero :
  let t := DStruct [DByteArray 1; DUint 8] in
  EncodeToBytes (erase t) (VStruct [VBytes [0]; VUint 5]) = Ok [0xC2; 0; 5] /\
  DecodeBytes t [0xC2; 0; 5] = Err (decodeError ErrCanonInt).
Proof. by vm_compute. Qed.

(** In a slice of such arrays the zero byte is read again and again: no number
    of rounds ends the loop. *)
Lemma byte_array_slice_loops fuel :
  exists s, decoder (DSlice (DByteArray 1)) fuel (NewStream [0xC1; 0] 2) = (s, Err OutOfFuel).
Proof.
  set (stuck := mkStream [] 0 true (Some Byte) 0 0 None [(1, 1)]).
  assert (forall n, decodeSliceElems (decodeByteArray 1) n stuck = (stuck, Err OutOfFuel)) as Hl.
  { induction n as [|n IH]; [done|]. cbn [decodeSliceElems].
    change (decodeByteArray 1 stuck) with (stuck, @Ok derror _ (VBytes [0])).
    cbv beta iota. unfold bind. by rewrite IH. }
  destruct fuel as [|fuel]; [by eexists|]. exists stuck.
  cbn [decoder]. unfold decodeListSlice.
  set (k := fun size : Z => if size =? 0 then _ else _).
  change (bind (bind (map_err wrapStreamError Stream_List) k) (fun vs => ret (VSlice vs)) (NewStream [0xC1; 0] 2))
    with (bind (k 1) (fun vs => ret (VSlice vs)) (mkStream [0] 1 true None 0 0 None [(0, 1)])).
  unfold k. cbn [Z.eqb]. unfold bind at 1 2. cbn [decodeSliceElems].
  change (decodeByteArray 1 (mkStream [0] 1 true None 0 0 None [(0, 1)])) with (stuck, @Ok derror _ (VBytes [0])).
  cbv beta iota. unfold bind. by rewrite Hl.
Qed.

(** An empty string and an empty list both stand for a nil pointer in a field
    tagged "nil", as the recipient of a transaction is. *)
Lemma optional_two_encodings :
  let t := DStruct [DOptPtr (DByteArray 20)] in
  DecodeBytes t [0xC1; 0x80] = DecodeBytes t [0xC1; 0xC0] /\
  DecodeBytes t [0xC1; 0x80] = Ok (VStruct [VPtr TByteArray None]).
Proof. by vm_compute. Qed.

(** ** Examples *)

Definition sample_type : dtype := DStruct [DUint 64; DString; DSlice DBigInt].

Definition record : goval :=
  VStruct [VUint 1024; VString [0x64; 0x6F; 0x67]; VSlice [VBigInt (Some 0); VBigInt (Some 1)]].

Lemma record_typed : typed sample_type record.
Proof.
  unfold sample_type, record. repeat constructor; lia.
Qed.

(** [DecodeBytes_EncodeToBytes] on a record with a number, a string and a list. *)
Lemma DecodeBytes_EncodeToBytes_witness :
  exists bytes, EncodeToBytes (erase sample_type) record = Ok bytes /\
    DecodeBytes sample_type (bytes ++ []) = Ok record.
Proof.
  apply (DecodeBytes_EncodeToBytes sample_type record sample_item []); [done|apply record_typed|done|by vm_compute].
Defined.

(** [DecodeBytes_canonical] on the bytes of that record. *)
Lemma DecodeBytes_canonical_witness :
  typed sample_type record /\
  EncodeToBytes (erase sample_type) record
  = Ok [0xCA; 0x82; 4; 0; 0x83; 0x64; 0x6F; 0x67; 0xC2; 0x80; 1].
Proof.
  apply DecodeBytes_canonical; [done|done| |by vm_compute|by vm_compute].
  repeat constructor; lia.
Defined.

(** [DecodeBytes_terminates] on a list that announces more than it holds. *)
Lemma DecodeBytes_terminates_witness : DecodeBytes DIface [0xC3; 0xC1; 0x80] <> Err OutOfFuel.
Proof.
  apply DecodeBytes_terminates; [done| |by vm_compute]. repeat constructor; lia.
Defined.

End RlpDecode.
