(* ===== verification/Wire.v ===== *)
(** * Block headers on the wire

    Connects core/types/block.go with the codec of package [rlp]: the type the
    decoder sees for a [Header], and that a header has one wire form, which is
    the string its hash is computed from. *)

From S2P Require Import Prelude Common Rlp Crypto Types RlpDecode.

Module Wire.
Import Rlp RlpDecode.

(** The types of the fields of common/types.go and core/types/block.go. *)
Definition dHash : dtype := DByteArray 32.
Definition dAddress : dtype := DByteArray 20.
Definition dElect : dtype := DStruct [dAddress; DUint 16; DUint 8].
Definition dNetTopology : dtype :=
  DStruct [DUint 8; DSlice (DStruct [dAddress; DUint 16])].

Definition dHeader : dtype :=
  DStruct [dHash; dHash; dAddress; dAddress; dHash; dHash; dHash; DByteArray 256; DBigInt; DBigInt;
           DUint 64; DUint 64; DBigInt; DSlice dElect; dNetTopology; DSlice (DByteArray 65);
           DBytes; dHash; DByteArray 8; DBytes].

(** The ranges of the Go types of a header's fields; the big integers are those
    a header on the chain has. *)
Record wire_header (h : Header) : Prop := {
  wh_bigs : 0 <= Difficulty h /\ 0 <= Number h /\ 0 <= Time h;
  wh_gas : in_u64 (GasLimit h) /\ in_u64 (GasUsed h);
  wh_elect : Forall (fun e => 0 <= el_Stock e < 2 ^ 16 /\ 0 <= el_Type e < 2 ^ 8) (hElect h);
  wh_topo : 0 <= nt_Type (hNetTopology h) < 2 ^ 8 /\
    Forall (fun d => 0 <= ntd_Position d < 2 ^ 16) (nt_Data (hNetTopology h));
  wh_bytes : bytes_ok (Extra h) /\ bytes_ok (Version h)
}.

Lemma typed_byte_array n x : typed (DByteArray n) (byte_array n x).
Proof.
  unfold byte_array. rewrite <- (be_bytes_length n (Z.of_N x)) at 1. constructor.
  apply be_bytes_wf.
Qed.

Lemma typed_map {A} t (f : A -> goval) l : Forall (fun x => typed t (f x)) l -> typed (DSlice t) (VSlice (map f l)).
Proof. intros H. constructor. by apply Forall_map. Qed.

Lemma header_typed h : wire_header h -> typed dHeader (go_val h).
Proof.
  intros [(? & ? & ?) [? ?] He [? Ht] [? ?]]. constructor.
  repeat apply List.Forall2_cons; try apply typed_byte_array; try (by constructor).
  - apply typed_map. eapply Forall_impl; [exact He|]. intros e [? ?]. constructor.
    repeat apply List.Forall2_cons; [apply typed_byte_array|by constructor..|constructor].
  - constructor. repeat apply List.Forall2_cons; [by constructor| |constructor].
    apply (typed_map _ go_val). eapply Forall_impl; [exact Ht|]. intros d ?. constructor.
    repeat apply List.Forall2_cons; [apply typed_byte_array|by constructor|constructor].
  - apply (typed_map _ vSignature), Forall_true. intros s. apply typed_byte_array.
Qed.

Lemma go_type_header : forall v, EncodeToBytes (go_type Header) v = EncodeToBytes (erase dHeader) v.
Proof. done. Qed.

Section header.
Context `{Crypto}.

(** C30: A block header has exactly one wire form: [rlp] writes it, the decoder
    reads the header back from it and from no other string, and the block hash is
    the Keccak hash of that string; no other bytes can be passed off as the same
    header. *)
Theorem header_wire_form h it :
  wire_header h -> item_of (go_val h) = Ok it -> zlen (enc_item it) < 2 ^ 64 ->
  exists b, EncodeToBytes (go_type Header) (go_val h) = Ok b /\
    DecodeBytes dHeader b = Ok (go_val h) /\ Types.Header_Hash h = Keccak256 b /\
    forall b', bytes_ok b' -> zlen b' < 2 ^ 64 -> DecodeBytes dHeader b' = Ok (go_val h) -> b' = b.
Proof.
  intros Hh Hi Hl. pose proof (header_typed h Hh) as Ht.
  destruct (typed_carried dHeader _ eq_refl Ht) as (Hw & it' & Ei & Ev).
  assert (it' = it) as -> by congruence.
  assert (EncodeToBytes (erase dHeader) (go_val h) = Ok (enc_item it)) as He
    by (apply EncodeToBytes_item; [done|apply has_writer_erase|done..]).
  exists (enc_item it). split; [done|]. split; [|split].
  - rewrite <- (app_nil_r (enc_item it)) at 1. rewrite (DecodeBytes_ok dHeader it (go_val h) []); try done.
    + by eapply item_of_wf.
    + by rewrite app_nil_r.
  - unfold Types.Header_Hash, Types.rlpHash. by rewrite go_type_header, He.
  - intros b' Hb Hlb Ed. destruct (DecodeBytes_encodes dHeader b' (go_val h)) as [_ Eb]; [done..|].
    congruence.
Qed.
End header.

Definition sample_header : Header :=
  mkHeader 1 2 3 4 5 6 7 8 9 10 11 12 13 [mkElect 14 15 16] (mkNetTopology 0 [mkNetTopologyData 17 18])
    [19%N] [20] 21 22 [23].

(** [header_wire_form] on a header with an elected node and a topology entry. *)
Lemma header_wire_form_witness :
  exists b, EncodeToBytes (go_type Header) (go_val sample_header) = Ok b /\
    DecodeBytes dHeader b = Ok (go_val sample_header) /\
    @Types.Header_Hash Signature.toy_crypto sample_header = @Keccak256 Signature.toy_crypto b /\
    forall b', bytes_ok b' -> zlen b' < 2 ^ 64 -> DecodeBytes dHeader b' = Ok (go_val sample_header) -> b' = b.
Proof.
  eapply header_wire_form; [|by vm_compute|by vm_compute].
  split; simpl; [lia|split; split; lia| | |].
  - apply Forall_singleton. simpl. lia.
  - split; [lia|]. apply Forall_singleton. simpl. lia.
  - split; apply Forall_singleton; lia.
Defined.

End Wire.
