(* ===== verification/StateDB.v ===== *)
(** * Package [core/state]: the state database

    Models core/state/statedb.go, state_object.go and journal.go: the cache of
    accounts over the account trie, the journal of changes with snapshots, the
    removal of accounts at the end of a transaction, and copies.

    Tries and the database under them are an interface ([Tries]) with its laws
    ([TrieLaws]); errors of the database are not modelled.  A big integer is
    never changed in place by the code, so balances are values.  An object that
    a journal entry keeps is no longer in the map and is not changed, so entries
    hold objects by value. *)

From S2P Require Import Prelude Common Rlp Crypto RlpDecode Deposit.

(** Keys are addresses or hashes; an absent key has no bytes. *)
Class Tries := {
  trie : Type;
  TryGet : trie -> N -> list Z;
  TryUpdate : trie -> N -> list Z -> trie;
  TryDelete : trie -> N -> trie;
  trie_Hash : trie -> Hash;
  OpenStorageTrie : Hash -> Hash -> trie;         (* of an address hash, at a root *)
  ContractCode : Hash -> Hash -> list Z
}.

Class TrieLaws `{Tries} : Prop := {
  get_update t k v k' : TryGet (TryUpdate t k v) k' = if decide (k' = k) then v else TryGet t k';
  get_delete t k k' : TryGet (TryDelete t k) k' = if decide (k' = k) then [] else TryGet t k';
  hash_range t : (trie_Hash t < 2 ^ 256)%N;
  hash_content t t' : (forall k, TryGet t k = TryGet t' k) -> trie_Hash t = trie_Hash t';
  open_empty ah k : TryGet (OpenStorageTrie ah 0%N) k = []
}.

Module StateDB.
Section StateDB.
Context `{Crypto} `{Tries} `{GoRange}.

Definition NonceAddOne : Z := 0x0010000000000000.
Definition ripemd : Address := 3%N.

(** [common.BytesToHash]: the last 32 bytes. *)
Definition BytesToHash (b : list Z) : Hash :=
  Z.to_N (Rlp.read_be b (length b) mod 2 ^ 256).

Record Account := mkAccount {
  Nonce : Z;
  Balance : Z;
  Root : Hash;
  CodeHash : Hash                     (* 32 bytes *)
}.

Record stateObject := mkObject {
  address : Address;
  data : Account;
  so_trie : option trie;
  code : option (list Z);
  cachedStorage : gmap Hash Hash;
  dirtyStorage : gmap Hash Hash;
  dirtyCode : bool;
  suicided : bool;
  deleted : bool
}.

Record Log := mkLog {
  l_content : list Z;                 (* address, topics and data *)
  l_TxHash : Hash;
  l_BlockHash : Hash;
  l_TxIndex : Z;
  l_Index : Z
}.

Inductive journalEntry :=
| createObjectChange (account : Address)
| resetObjectChange (prev : stateObject)
| suicideChange (account : Address) (prev : bool) (prevbalance : Z)
| balanceChange (account : Address) (prev : Z)
| nonceChange (account : Address) (prev : Z)
| storageChange (account : Address) (key prevalue : Hash)
| codeChange (account : Address) (prevcode : option (list Z)) (prevhash : Hash)
| refundChange (prev : Z)
| addLogChange (txhash : Hash)
| addPreimageChange (hash : Hash)
| touchChange (account : Address).

Record StateDB := mkState {
  strie : trie;
  stateObjects : gmap Address stateObject;
  stateObjectsDirty : gset Address;
  refund : Z;
  thash : Hash;
  bhash : Hash;
  txIndex : Z;
  logs : gmap Hash (list Log);
  logSize : Z;
  preimages : gmap Hash (list Z);
  entries : list journalEntry;        (* the journal *)
  dirties : gmap Address Z;
  validRevisions : list (Z * nat);    (* id, journalIndex *)
  nextRevisionId : Z
}.

(** [New], over the trie of the root. *)
Definition New (t : trie) : StateDB := mkState t ∅ ∅ 0 0%N 0%N 0 ∅ 0 ∅ [] ∅ [] 0.

Definition set_objects (m : gmap Address stateObject) (s : StateDB) : StateDB :=
  mkState (strie s) m (stateObjectsDirty s) (refund s) (thash s) (bhash s) (txIndex s) (logs s)
    (logSize s) (preimages s) (entries s) (dirties s) (validRevisions s) (nextRevisionId s).
Definition set_refund (r : Z) (s : StateDB) : StateDB :=
  mkState (strie s) (stateObjects s) (stateObjectsDirty s) r (thash s) (bhash s) (txIndex s) (logs s)
    (logSize s) (preimages s) (entries s) (dirties s) (validRevisions s) (nextRevisionId s).
Definition set_logs (l : gmap Hash (list Log)) (n : Z) (s : StateDB) : StateDB :=
  mkState (strie s) (stateObjects s) (stateObjectsDirty s) (refund s) (thash s) (bhash s) (txIndex s) l
    n (preimages s) (entries s) (dirties s) (validRevisions s) (nextRevisionId s).
Definition set_preimages (p : gmap Hash (list Z)) (s : StateDB) : StateDB :=
  mkState (strie s) (stateObjects s) (stateObjectsDirty s) (refund s) (thash s) (bhash s) (txIndex s)
    (logs s) (logSize s) p (entries s) (dirties s) (validRevisions s) (nextRevisionId s).
Definition set_journal (es : list journalEntry) (d : gmap Address Z) (s : StateDB) : StateDB :=
  mkState (strie s) (stateObjects s) (stateObjectsDirty s) (refund s) (thash s) (bhash s) (txIndex s)
    (logs s) (logSize s) (preimages s) es d (validRevisions s) (nextRevisionId s).
Definition set_revisions (r : list (Z * nat)) (n : Z) (s : StateDB) : StateDB :=
  mkState (strie s) (stateObjects s) (stateObjectsDirty s) (refund s) (thash s) (bhash s) (txIndex s)
    (logs s) (logSize s) (preimages s) (entries s) (dirties s) r n.

(** ** Objects *)

Definition emptyCodeHash : Hash := Keccak256 [].

Definition newObject (a : Address) (d : Account) : stateObject :=
  mkObject a d None None ∅ ∅ false false false.

(** [Account{}] after [newObject] replaced the nil fields. *)
Definition zero_account : Account := mkAccount 0 0 0%N emptyCodeHash.

Definition empty (o : stateObject) : bool :=
  (Nonce (data o) =? 0) && (Balance (data o) =? 0) && (CodeHash (data o) =? emptyCodeHash)%N.

Definition set_data (d : Account) (o : stateObject) : stateObject :=
  mkObject (address o) d (so_trie o) (code o) (cachedStorage o) (dirtyStorage o) (dirtyCode o)
    (suicided o) (deleted o).

Definition setBalance (amount : Z) (o : stateObject) : stateObject :=
  set_data (mkAccount (Nonce (data o)) amount (Root (data o)) (CodeHash (data o))) o.

Definition setNonce (nonce : Z) (o : stateObject) : stateObject :=
  set_data (mkAccount nonce (Balance (data o)) (Root (data o)) (CodeHash (data o))) o.

Definition setCode (codeHash : Hash) (c : option (list Z)) (o : stateObject) : stateObject :=
  mkObject (address o) (mkAccount (Nonce (data o)) (Balance (data o)) (Root (data o)) codeHash)
    (so_trie o) c (cachedStorage o) (dirtyStorage o) true (suicided o) (deleted o).

Definition set_suicided (b : bool) (o : stateObject) : stateObject :=
  mkObject (address o) (data o) (so_trie o) (code o) (cachedStorage o) (dirtyStorage o) (dirtyCode o)
    b (deleted o).

Definition set_deleted (o : stateObject) : stateObject :=
  mkObject (address o) (data o) (so_trie o) (code o) (cachedStorage o) (dirtyStorage o) (dirtyCode o)
    (suicided o) true.

Definition addrHash (o : stateObject) : Hash := Keccak256 (Rlp.be_bytes 20 (Z.of_N (address o))).

(** [getTrie]: opened on first use. *)
Definition getTrie (o : stateObject) : trie :=
  match so_trie o with Some t => t | None => OpenStorageTrie (addrHash o) (Root (data o)) end.

(** What the storage trie holds under a key. *)
Definition read_trie (t : trie) (key : Hash) : Hash :=
  match TryGet t key with
  | [] => 0%N
  | enc => match Rlp.Split enc with Ok (_, content, _) => BytesToHash content | Err _ => 0%N end
  end.

(** [stateObject.GetState], with the object it leaves. *)
Definition obj_GetState (key : Hash) (o : stateObject) : stateObject * Hash :=
  match cachedStorage o !! key with
  | Some v => (o, v)
  | None =>
      let v := read_trie (getTrie o) key in
      (mkObject (address o) (data o) (Some (getTrie o)) (code o) (<[key := v]> (cachedStorage o))
         (dirtyStorage o) (dirtyCode o) (suicided o) (deleted o), v)
  end.

Definition setState (key value : Hash) (o : stateObject) : stateObject :=
  mkObject (address o) (data o) (so_trie o) (code o) (<[key := value]> (cachedStorage o))
    (<[key := value]> (dirtyStorage o)) (dirtyCode o) (suicided o) (deleted o).

(** [stateObject.Code], with the object it leaves. *)
Definition obj_Code (o : stateObject) : stateObject * option (list Z) :=
  match code o with
  | Some c => (o, Some c)
  | None =>
      if (CodeHash (data o) =? emptyCodeHash)%N then (o, None)
      else
        let c := ContractCode (addrHash o) (CodeHash (data o)) in
        (mkObject (address o) (data o) (so_trie o) (Some c) (cachedStorage o) (dirtyStorage o)
           (dirtyCode o) (suicided o) (deleted o), Some c)
  end.

(** ** The journal *)

Definition dirtied (e : journalEntry) : option Address :=
  match e with
  | createObjectChange a | suicideChange a _ _ | balanceChange a _ | nonceChange a _
  | storageChange a _ _ | codeChange a _ _ | touchChange a => Some a
  | resetObjectChange _ | refundChange _ | addLogChange _ | addPreimageChange _ => None
  end.

Definition incr (a : Address) (d : gmap Address Z) : gmap Address Z :=
  <[a := default 0 (d !! a) + 1]> d.

Definition journal_append (e : journalEntry) (s : StateDB) : StateDB :=
  set_journal (entries s ++ [e])
    (match dirtied e with Some a => incr a (dirties s) | None => dirties s end) s.

Definition journal_dirty (a : Address) (s : StateDB) : StateDB :=
  set_journal (entries s) (incr a (dirties s)) s.

(** ** Looking accounts up *)

Definition setStateObject (o : stateObject) (s : StateDB) : StateDB :=
  set_objects (<[address o := o]> (stateObjects s)) s.

Definition dAccount : RlpDecode.dtype :=
  RlpDecode.DStruct [RlpDecode.DUint 64; RlpDecode.DBigInt; RlpDecode.DByteArray 32; RlpDecode.DBytes].

(** The account that the trie holds under an address. *)
Definition load (t : trie) (a : Address) : option stateObject :=
  match TryGet t a with
  | [] => None
  | enc =>
      match RlpDecode.DecodeBytes dAccount enc with
      | Ok (Rlp.VStruct [Rlp.VUint n; Rlp.VBigInt (Some b); Rlp.VBytes root; Rlp.VBytes ch]) =>
          Some (newObject a (mkAccount n b (BytesToHash root) (BytesToHash ch)))
      | _ => None
      end
  end.

Definition getStateObject (a : Address) (s : StateDB) : StateDB * option stateObject :=
  match stateObjects s !! a with
  | Some o => if deleted o then (s, None) else (s, Some o)
  | None =>
      match load (strie s) a with
      | None => (s, None)
      | Some o => (setStateObject o s, Some o)
      end
  end.

Definition createObject (a : Address) (s : StateDB) : StateDB * stateObject * option stateObject :=
  let '(s, prev) := getStateObject a s in
  let newobj := setNonce NonceAddOne (newObject a zero_account) in
  let s := journal_append (match prev with
                           | None => createObjectChange a
                           | Some p => resetObjectChange p
                           end) s in
  (setStateObject newobj s, newobj, prev).

Definition GetOrNewStateObject (a : Address) (s : StateDB) : StateDB * stateObject :=
  let '(s, o) := getStateObject a s in
  match o with
  | Some o => (s, o)
  | None => let '(s, o, _) := createObject a s in (s, o)
  end.

(** ** Changes of an object *)

Definition obj_SetBalance (amount : Z) (o : stateObject) (s : StateDB) : StateDB :=
  setStateObject (setBalance amount o) (journal_append (balanceChange (address o) (Balance (data o))) s).

Definition touch (o : stateObject) (s : StateDB) : StateDB :=
  let s := journal_append (touchChange (address o)) s in
  if (address o =? ripemd)%N then journal_dirty (address o) s else s.

Definition obj_AddBalance (amount : Z) (o : stateObject) (s : StateDB) : StateDB :=
  if amount =? 0 then if empty o then touch o s else s
  else obj_SetBalance (Balance (data o) + amount) o s.

Definition obj_SubBalance (amount : Z) (o : stateObject) (s : StateDB) : StateDB :=
  if amount =? 0 then s else obj_SetBalance (Balance (data o) - amount) o s.

Definition obj_SetNonce (nonce : Z) (o : stateObject) (s : StateDB) : StateDB :=
  setStateObject (setNonce nonce o) (journal_append (nonceChange (address o) (Nonce (data o))) s).

Definition obj_SetCode (codeHash : Hash) (c : list Z) (o : stateObject) (s : StateDB) : StateDB :=
  let '(o, prevcode) := obj_Code o in
  setStateObject (setCode codeHash (Some c) o)
    (journal_append (codeChange (address o) prevcode (CodeHash (data o))) s).

Definition obj_SetState (key value : Hash) (o : stateObject) (s : StateDB) : StateDB :=
  let '(o, prevalue) := obj_GetState key o in
  setStateObject (setState key value o) (journal_append (storageChange (address o) key prevalue) s).

(** ** Readers: each leaves what it loaded in the cache *)

Definition Exist (a : Address) (s : StateDB) : StateDB * bool :=
  let '(s, o) := getStateObject a s in (s, match o with Some _ => true | None => false end).

Definition Empty (a : Address) (s : StateDB) : StateDB * bool :=
  let '(s, o) := getStateObject a s in (s, match o with Some o => empty o | None => true end).

Definition GetBalance (a : Address) (s : StateDB) : StateDB * Z :=
  let '(s, o) := getStateObject a s in (s, match o with Some o => Balance (data o) | None => 0 end).

Definition GetNonce (a : Address) (s : StateDB) : StateDB * Z :=
  let '(s, o) := getStateObject a s in
  (s, match o with Some o => Nonce (data o) | None => NonceAddOne end).

Definition GetCode (a : Address) (s : StateDB) : StateDB * list Z :=
  let '(s, o) := getStateObject a s in
  match o with
  | Some o => let '(o, c) := obj_Code o in (setStateObject o s, default [] c)
  | None => (s, [])
  end.

(** The length comes from the database when the code is not loaded. *)
Definition GetCodeSize (a : Address) (s : StateDB) : StateDB * Z :=
  let '(s, o) := getStateObject a s in
  (s, match o with
      | Some o => Z.of_nat (length (match code o with
                                    | Some c => c
                                    | None => ContractCode (addrHash o) (CodeHash (data o))
                                    end))
      | None => 0
      end).

Definition GetCodeHash (a : Address) (s : StateDB) : StateDB * Hash :=
  let '(s, o) := getStateObject a s in
  (s, match o with Some o => CodeHash (data o) | None => 0%N end).

Definition GetState (a : Address) (key : Hash) (s : StateDB) : StateDB * Hash :=
  let '(s, o) := getStateObject a s in
  match o with
  | Some o => let '(o, v) := obj_GetState key o in (setStateObject o s, v)
  | None => (s, 0%N)
  end.

Definition HasSuicided (a : Address) (s : StateDB) : StateDB * bool :=
  let '(s, o) := getStateObject a s in (s, match o with Some o => suicided o | None => false end).

(** ** Writers *)

Definition AddBalance (a : Address) (amount : Z) (s : StateDB) : StateDB :=
  let '(s, o) := GetOrNewStateObject a s in obj_AddBalance amount o s.

Definition SubBalance (a : Address) (amount : Z) (s : StateDB) : StateDB :=
  let '(s, o) := GetOrNewStateObject a s in obj_SubBalance amount o s.

Definition SetBalance (a : Address) (amount : Z) (s : StateDB) : StateDB :=
  let '(s, o) := GetOrNewStateObject a s in obj_SetBalance amount o s.

Definition SetNonce (a : Address) (nonce : Z) (s : StateDB) : StateDB :=
  let '(s, o) := GetOrNewStateObject a s in obj_SetNonce (Z.lor nonce NonceAddOne) o s.

Definition SetCode (a : Address) (c : list Z) (s : StateDB) : StateDB :=
  let '(s, o) := GetOrNewStateObject a s in obj_SetCode (Keccak256 c) c o s.

Definition SetState (a : Address) (key value : Hash) (s : StateDB) : StateDB :=
  let '(s, o) := GetOrNewStateObject a s in obj_SetState key value o s.

Definition Suicide (a : Address) (s : StateDB) : StateDB * bool :=
  let '(s, o) := getStateObject a s in
  match o with
  | None => (s, false)
  | Some o =>
      let s := journal_append (suicideChange a (suicided o) (Balance (data o))) s in
      (setStateObject (setBalance 0 (set_suicided true o)) s, true)
  end.

Definition CreateAccount (a : Address) (s : StateDB) : StateDB :=
  let '(s, new, prev) := createObject a s in
  match prev with
  | Some p => setStateObject (setBalance (Balance (data p)) new) s
  | None => s
  end.

Definition AddRefund (gas : Z) (s : StateDB) : StateDB :=
  set_refund (u64 (refund s + gas)) (journal_append (refundChange (refund s)) s).

Definition AddLog (content : list Z) (s : StateDB) : StateDB :=
  let s := journal_append (addLogChange (thash s)) s in
  let log := mkLog content (thash s) (bhash s) (txIndex s) (logSize s) in
  set_logs (<[thash s := default [] (logs s !! thash s) ++ [log]]> (logs s)) (u64 (logSize s + 1)) s.

Definition AddPreimage (hash : Hash) (preimage : list Z) (s : StateDB) : StateDB :=
  match preimages s !! hash with
  | Some _ => s
  | None => set_preimages (<[hash := preimage]> (preimages s)) (journal_append (addPreimageChange hash) s)
  end.

Definition Prepare (th bh : Hash) (ti : Z) (s : StateDB) : StateDB :=
  mkState (strie s) (stateObjects s) (stateObjectsDirty s) (refund s) th bh ti (logs s)
    (logSize s) (preimages s) (entries s) (dirties s) (validRevisions s) (nextRevisionId s).

(** ** Snapshots *)

(** [None] is a nil pointer or an index out of range. *)
Definition revert_entry (e : journalEntry) (s : StateDB) : option StateDB :=
  let on a (f : stateObject -> stateObject) :=
    let '(s, o) := getStateObject a s in
    match o with Some o => Some (setStateObject (f o) s) | None => None end in
  match e with
  | createObjectChange a =>
      Some (mkState (strie s) (delete a (stateObjects s)) (stateObjectsDirty s ∖ {[a]}) (refund s)
              (thash s) (bhash s) (txIndex s) (logs s) (logSize s) (preimages s) (entries s) (dirties s)
              (validRevisions s) (nextRevisionId s))
  | resetObjectChange prev => Some (setStateObject prev s)
  | suicideChange a prev prevbalance =>
      let '(s, o) := getStateObject a s in
      match o with
      | Some o => Some (setStateObject (setBalance prevbalance (set_suicided prev o)) s)
      | None => Some s
      end
  | balanceChange a prev => on a (setBalance prev)
  | nonceChange a prev => on a (setNonce prev)
  | codeChange a prevcode prevhash => on a (setCode prevhash prevcode)
  | storageChange a key prevalue => on a (setState key prevalue)
  | refundChange prev => Some (set_refund prev s)
  | addLogChange th =>
      match default [] (logs s !! th) with
      | [] => None
      | [_] => Some (set_logs (delete th (logs s)) (u64 (logSize s - 1)) s)
      | l => Some (set_logs (<[th := removelast l]> (logs s)) (u64 (logSize s - 1)) s)
      end
  | addPreimageChange h => Some (set_preimages (delete h (preimages s)) s)
  | touchChange _ => Some s
  end.

Definition decr (a : Address) (d : gmap Address Z) : gmap Address Z :=
  let n := default 0 (d !! a) - 1 in
  if n =? 0 then delete a d else <[a := n]> d.

(** The entries from the last to the first of [es], which ends the journal. *)
Fixpoint revert_loop (es : list journalEntry) (s : StateDB) : option StateDB :=
  match es with
  | [] => Some s
  | e :: es =>
      s ← revert_loop es s;
      s ← revert_entry e s;
      Some (set_journal (entries s)
              (match dirtied e with Some a => decr a (dirties s) | None => dirties s end) s)
  end.

Definition journal_revert (snapshot : nat) (s : StateDB) : option StateDB :=
  s ← revert_loop (drop snapshot (entries s)) s;
  Some (set_journal (take snapshot (entries s)) (dirties s) s).

Definition Snapshot (s : StateDB) : StateDB * Z :=
  let id := nextRevisionId s in
  (set_revisions (validRevisions s ++ [(id, length (entries s))]) (id + 1) s, id).

Definition RevertToSnapshot (revid : Z) (s : StateDB) : option StateDB :=
  '(idx, (id, snapshot)) ← list_find (fun r => revid <= r.1) (validRevisions s);
  if negb (id =? revid) then None
  else
    s' ← journal_revert snapshot s;
    Some (set_revisions (take idx (validRevisions s)) (nextRevisionId s') s').

Definition GetRefund (s : StateDB) : Z := refund s.

(** ** The end of a transaction *)

Definition set_strie (t : trie) (s : StateDB) : StateDB :=
  mkState t (stateObjects s) (stateObjectsDirty s) (refund s) (thash s) (bhash s) (txIndex s) (logs s)
    (logSize s) (preimages s) (entries s) (dirties s) (validRevisions s) (nextRevisionId s).

(** The value without its leading zero bytes. *)
Definition enc_value (v : Hash) : list Z :=
  match Rlp.EncodeToBytes Rlp.TBytes (Rlp.VBytes (Rlp.big_Bytes (Z.of_N v))) with
  | Ok b => b
  | Err _ => []
  end.

Definition write_slot (kv : Hash * Hash) (t : trie) : trie :=
  if (kv.2 =? 0)%N then TryDelete t kv.1 else TryUpdate t kv.1 (enc_value kv.2).

Definition updateTrie (o : stateObject) : stateObject :=
  mkObject (address o) (data o)
    (Some (foldl (fun t kv => write_slot kv t) (getTrie o) (range (dirtyStorage o))))
    (code o) (cachedStorage o) ∅ (dirtyCode o) (suicided o) (deleted o).

Definition updateRoot (o : stateObject) : stateObject :=
  let o := updateTrie o in
  set_data (mkAccount (Nonce (data o)) (Balance (data o)) (trie_Hash (getTrie o)) (CodeHash (data o))) o.

(** An account as [rlp] sees it. *)
Definition vAccount (d : Account) : Rlp.goval :=
  Rlp.VStruct [Rlp.VUint (Nonce d); Rlp.VBigInt (Some (Balance d));
               Rlp.VBytes (Rlp.be_bytes 32 (Z.of_N (Root d)));
               Rlp.VBytes (Rlp.be_bytes 32 (Z.of_N (CodeHash d)))].

(** [None]: an account that cannot be encoded panics. *)
Definition updateStateObject (o : stateObject) (s : StateDB) : option StateDB :=
  match Rlp.EncodeToBytes (RlpDecode.erase dAccount) (vAccount (data o)) with
  | Ok enc => Some (set_strie (TryUpdate (strie s) (address o) enc) s)
  | Err _ => None
  end.

Definition deleteStateObject (o : stateObject) (s : StateDB) : StateDB :=
  set_strie (TryDelete (strie s) (address o)) (setStateObject (set_deleted o) s).

Definition clearJournalAndRefund (s : StateDB) : StateDB :=
  set_refund 0 (set_revisions [] (nextRevisionId s) (set_journal [] ∅ s)).

Definition set_dirty (a : Address) (s : StateDB) : StateDB :=
  mkState (strie s) (stateObjects s) ({[a]} ∪ stateObjectsDirty s) (refund s) (thash s) (bhash s)
    (txIndex s) (logs s) (logSize s) (preimages s) (entries s) (dirties s) (validRevisions s)
    (nextRevisionId s).

(** One round of the loop of [Finalise]. *)
Definition finalise_one (deleteEmptyObjects : bool) (a : Address) (s : StateDB) : option StateDB :=
  match stateObjects s !! a with
  | None => Some s
  | Some o =>
      if suicided o || (deleteEmptyObjects && empty o) then Some (set_dirty a (deleteStateObject o s))
      else
        let o := updateRoot o in
        s ← updateStateObject o (setStateObject o s);
        Some (set_dirty a s)
  end.

Fixpoint finalise_loop (deleteEmptyObjects : bool) (l : list Address) (s : StateDB) : option StateDB :=
  match l with
  | [] => Some s
  | a :: l => s ← finalise_one deleteEmptyObjects a s; finalise_loop deleteEmptyObjects l s
  end.

Definition Finalise (deleteEmptyObjects : bool) (s : StateDB) : option StateDB :=
  clearJournalAndRefund <$> finalise_loop deleteEmptyObjects (range (dirties s)).*1 s.

Definition IntermediateRoot (deleteEmptyObjects : bool) (s : StateDB) : option (StateDB * Hash) :=
  s ← Finalise deleteEmptyObjects s;
  Some (s, trie_Hash (strie s)).

(** ** Copies *)

Definition deepCopy (o : stateObject) : stateObject :=
  mkObject (address o) (data o) (so_trie o) (code o) (dirtyStorage o) (dirtyStorage o) (dirtyCode o)
    (suicided o) (deleted o).

(** [None]: a dirty address without an object is a nil pointer. *)
Definition copy_dirty (s : StateDB) (m : gmap Address stateObject) (l : list Address)
    : option (gmap Address stateObject) :=
  foldr (fun a m => m ← m;
                    match m !! a with
                    | Some _ => Some m
                    | None => o ← stateObjects s !! a; Some (<[a := deepCopy o]> m)
                    end) (Some m) l.

Definition Copy (s : StateDB) : option StateDB :=
  let journalled := filter (fun a => is_Some (stateObjects s !! a)) (range (dirties s)).*1 in
  m ← copy_dirty s ∅ journalled;
  m ← copy_dirty s m (elements (stateObjectsDirty s));
  Some (mkState (strie s) m (dom m) (refund s) 0%N 0%N 0 (logs s) (logSize s) (preimages s) [] ∅ [] 0).

End StateDB.
End StateDB.
