(* ===== verification/Snapshot.v ===== *)
(** * Snapshots of the state database

    What the readers of a state database show is a [view]; the theorems relate
    the journal of StateDB.v to views: reverting to a snapshot gives back the
    view that was there when it was taken. *)

From stdpp Require Import sorting.
From S2P Require Import Prelude Common Rlp Crypto RlpDecode Deposit StateDB.

Module Snapshot.
Import StateDB.
Section Snapshot.
Context `{Crypto} `{TrieLaws} `{GoRange}.

(** ** Views *)

Record acct := mkAcct {
  ac_Nonce : Z;
  ac_Balance : Z;
  ac_CodeHash : Hash;
  ac_code : list Z;
  ac_suicided : bool
}.

Record view := mkView {
  v_acc : Address -> option acct;
  v_sto : Address -> Hash -> Hash;
  v_refund : Z;
  v_logs : gmap Hash (list Log);
  v_logSize : Z;
  v_preimages : gmap Hash (list Z)
}.

Definition same (V W : view) : Prop :=
  (forall a, v_acc V a = v_acc W a) /\ (forall a k, v_sto V a k = v_sto W a k) /\
  v_refund V = v_refund W /\ v_logs V = v_logs W /\ v_logSize V = v_logSize W /\
  v_preimages V = v_preimages W.

#[global] Instance same_equivalence : Equivalence same.
Proof.
  split.
  - intros V. by split_and!.
  - intros V W (? & ? & ? & ? & ? & ?). split_and!; intros; symmetry; auto.
  - intros U V W (A1 & S1 & ? & ? & ? & ?) (A2 & S2 & ? & ? & ? & ?).
    split_and!; intros; [by rewrite A1|by rewrite S1|congruence..].
Qed.

(** The code that an object with this hash and cached code shows. *)
Definition code_of (a : Address) (h : Hash) (c : option (list Z)) : list Z :=
  match c with
  | Some c => c
  | None => if (h =? emptyCodeHash)%N then []
            else ContractCode (Keccak256 (Rlp.be_bytes 20 (Z.of_N a))) h
  end.

Definition obj_acct (o : stateObject) : acct :=
  mkAcct (Nonce (data o)) (Balance (data o)) (CodeHash (data o))
    (code_of (address o) (CodeHash (data o)) (code o)) (suicided o).
Definition obj_sto (o : stateObject) (k : Hash) : Hash :=
  match cachedStorage o !! k with Some v => v | None => read_trie (getTrie o) k end.

(** What [getStateObject] finds. *)
Definition obj_at (s : StateDB) (a : Address) : option stateObject :=
  match stateObjects s !! a with
  | Some o => if deleted o then None else Some o
  | None => load (strie s) a
  end.

Definition view_of (s : StateDB) : view :=
  mkView (fun a => obj_acct <$> obj_at s a)
    (fun a k => match obj_at s a with Some o => obj_sto o k | None => 0%N end)
    (refund s) (logs s) (logSize s) (preimages s).

(** ** Undoing a change of a view *)

Definition fupd {A} (a : Address) (x : A) (f : Address -> A) : Address -> A :=
  fun b => if decide (b = a) then x else f b.

Definition upd_acc (a : Address) (x : option acct) (V : view) : view :=
  mkView (fupd a x (v_acc V)) (v_sto V) (v_refund V) (v_logs V) (v_logSize V) (v_preimages V).
Definition upd_sto (a : Address) (f : Hash -> Hash) (V : view) : view :=
  mkView (v_acc V) (fupd a f (v_sto V)) (v_refund V) (v_logs V) (v_logSize V) (v_preimages V).
Definition upd_refund (r : Z) (V : view) : view :=
  mkView (v_acc V) (v_sto V) r (v_logs V) (v_logSize V) (v_preimages V).
Definition upd_logs (l : gmap Hash (list Log)) (n : Z) (V : view) : view :=
  mkView (v_acc V) (v_sto V) (v_refund V) l n (v_preimages V).
Definition upd_preimages (p : gmap Hash (list Z)) (V : view) : view :=
  mkView (v_acc V) (v_sto V) (v_refund V) (v_logs V) (v_logSize V) p.

Definition with_balance (n : Z) (x : acct) : acct :=
  mkAcct (ac_Nonce x) n (ac_CodeHash x) (ac_code x) (ac_suicided x).
Definition with_nonce (n : Z) (x : acct) : acct :=
  mkAcct n (ac_Balance x) (ac_CodeHash x) (ac_code x) (ac_suicided x).
Definition with_code (h : Hash) (c : list Z) (x : acct) : acct :=
  mkAcct (ac_Nonce x) (ac_Balance x) h c (ac_suicided x).
Definition with_suicided (b : bool) (n : Z) (x : acct) : acct :=
  mkAcct (ac_Nonce x) n (ac_CodeHash x) (ac_code x) b.

Definition undo (e : journalEntry) (V : view) : option view :=
  match e with
  | createObjectChange a => Some (upd_acc a None (upd_sto a (fun _ => 0%N) V))
  | resetObjectChange prev =>
      Some (upd_acc (address prev) (Some (obj_acct prev)) (upd_sto (address prev) (obj_sto prev) V))
  | suicideChange a prev bal =>
      Some (upd_acc a (with_suicided prev bal <$> v_acc V a) V)
  | balanceChange a prev => x ← v_acc V a; Some (upd_acc a (Some (with_balance prev x)) V)
  | nonceChange a prev => x ← v_acc V a; Some (upd_acc a (Some (with_nonce prev x)) V)
  | codeChange a prevcode prevhash =>
      x ← v_acc V a; Some (upd_acc a (Some (with_code prevhash (code_of a prevhash prevcode) x)) V)
  | storageChange a key prev =>
      _ ← v_acc V a;
      Some (upd_sto a (fun k => if decide (k = key) then prev else v_sto V a k) V)
  | refundChange prev => Some (upd_refund prev V)
  | addLogChange th =>
      match default [] (v_logs V !! th) with
      | [] => None
      | [_] => Some (upd_logs (delete th (v_logs V)) (u64 (v_logSize V - 1)) V)
      | l => Some (upd_logs (<[th := removelast l]> (v_logs V)) (u64 (v_logSize V - 1)) V)
      end
  | addPreimageChange h => Some (upd_preimages (delete h (v_preimages V)) V)
  | touchChange _ => Some V
  end.

(** The last entry is undone first. *)
Fixpoint undo_all (es : list journalEntry) (V : view) : option view :=
  match es with
  | [] => Some V
  | e :: es => V ← undo_all es V; undo e V
  end.

Lemma undo_all_app es es' V : undo_all (es ++ es') V = (V ← undo_all es' V; undo_all es V).
Proof.
  induction es as [|e es IH]; simpl; [by destruct (undo_all es' V)|].
  rewrite IH. by destruct (undo_all es' V).
Qed.

Lemma undo_same e V W V' :
  same V W -> undo e V = Some V' -> exists W', undo e W = Some W' /\ same V' W'.
Proof.
  intros (A & S & R & L & LS & P) E.
  assert (forall a (x : option acct) b, fupd a x (v_acc V) b = fupd a x (v_acc W) b) as HA
    by (intros; unfold fupd; by case_decide).
  assert (forall a f b k, fupd a f (v_sto V) b k = fupd a f (v_sto W) b k) as HS
    by (intros; unfold fupd; by case_decide).
  destruct e as [a|prev|a b n|a n|a n|a key v|a c h|r|th|h|a]; simpl in *; rewrite <- ?A, <- ?L, <- ?LS, <- ?P, <- ?R.
  1-3, 8, 10, 11: injection E as <-; eexists; (split; [done|]); split_and!; simpl; auto; congruence.
  1, 2, 4: destruct (v_acc V a); [|done]; injection E as <-; eexists; (split; [done|]); split_and!; simpl; auto; congruence.
  - destruct (v_acc V a); [|done]. injection E as <-. eexists. split; [done|]. split_and!; try done.
    intros b k. simpl. unfold fupd. case_decide; [|done]. by rewrite S.
  - destruct (default [] (v_logs V !! th)) as [|x [|y l]]; [done|..]; injection E as <-;
      eexists; (split; [done|]); by split_and!.
Qed.

Lemma undo_all_same es V W V' :
  same V W -> undo_all es V = Some V' -> exists W', undo_all es W = Some W' /\ same V' W'.
Proof.
  intros HVW. revert V'. induction es as [|e es IH]; intros V' E; simpl in *; [injection E as <-; eauto|].
  apply bind_Some in E as (V1 & E1 & E). destruct (IH V1 E1) as (W1 & -> & HW1). simpl.
  by apply (undo_same e V1).
Qed.

(** ** The invariant *)

(** What is to be written to the trie is also in the cache. *)
Definition obj_ok (o : stateObject) : Prop :=
  forall k v, dirtyStorage o !! k = Some v -> cachedStorage o !! k = Some v.

(** A deleted account: it has left the trie and nothing in the journal is about it. *)
Definition dead (s : StateDB) (a : Address) : Prop :=
  load (strie s) a = None /\ dirties s !! a = None /\ Forall (fun e => dirtied e <> Some a) (entries s).

Record inv (s : StateDB) : Prop := {
  inv_objects a o : stateObjects s !! a = Some o ->
    address o = a /\ obj_ok o /\ (deleted o = true -> dead s a);
  inv_logs h : logs s !! h <> Some [];
  inv_logSize : in_u64 (logSize s)
}.

(** What an entry needs to be undone over the account trie [t]. *)
Definition entry_ok (t : trie) (e : journalEntry) : Prop :=
  match e with
  | createObjectChange a => load t a = None
  | resetObjectChange prev => deleted prev = false /\ obj_ok prev
  | _ => True
  end.

Lemma load_ok t a o : load t a = Some o -> address o = a /\ deleted o = false /\ obj_ok o.
Proof.
  unfold load. intros E. repeat case_match; try done; injection E as <-; split_and!; try done;
    intros k v; by rewrite lookup_empty.
Qed.

Lemma obj_at_put o s a :
  obj_at (setStateObject o s) a
  = if decide (a = address o) then (if deleted o then None else Some o) else obj_at s a.
Proof.
  unfold obj_at. simpl. case_decide as Ha.
  - subst a. by rewrite lookup_insert_eq.
  - by rewrite lookup_insert_ne.
Qed.

Lemma obj_at_inv s a o :
  inv s -> obj_at s a = Some o -> address o = a /\ deleted o = false /\ obj_ok o.
Proof.
  intros Hi. unfold obj_at. destruct (stateObjects s !! a) as [o'|] eqn:E; [|apply load_ok].
  destruct (deleted o') eqn:Hd; [done|]. intros [= <-].
  by destruct (inv_objects s Hi a o' E) as (? & ? & _).
Qed.

Lemma inv_put o s :
  inv s -> obj_ok o -> deleted o = false -> inv (setStateObject o s).
Proof.
  intros [Hi Hl Hs] Ho Hd. split; [|done..]. intros a o'. simpl. destruct (decide (a = address o)) as [->|].
  - rewrite lookup_insert_eq. intros [= <-]. split_and!; [done|done|by rewrite Hd].
  - rewrite lookup_insert_ne by done. apply Hi.
Qed.

Lemma lookup_incr a b d : b <> a -> incr a d !! b = d !! b.
Proof. intros. unfold incr. by rewrite lookup_insert_ne. Qed.

Lemma lookup_decr a b d : b <> a -> decr a d !! b = d !! b.
Proof. intros. unfold decr. case_match; [by rewrite lookup_delete_ne|by rewrite lookup_insert_ne]. Qed.

Lemma dead_append e s a : dirtied e <> Some a -> dead s a -> dead (journal_append e s) a.
Proof.
  intros He (Hl & Hd & Hf). unfold dead. simpl. split; [done|]. split.
  - destruct (dirtied e) as [b|] eqn:Eb; [|done]. rewrite lookup_incr; congruence.
  - by apply Forall_app_2, Forall_singleton.
Qed.

(** An entry about a live account. *)
Lemma inv_append e s :
  inv s -> (forall a o, dirtied e = Some a -> stateObjects s !! a = Some o -> deleted o = false) ->
  inv (journal_append e s).
Proof.
  intros [Hi Hl Hs] He. split; [|done..]. intros a o Ho. destruct (Hi a o Ho) as (Ha & Hok & Hd).
  split; [done|]. split; [done|]. intros Hdel. apply dead_append; [|by apply Hd].
  intros Hea. rewrite (He a o Hea Ho) in Hdel. done.
Qed.

Lemma inv_put_append e o s :
  inv s -> obj_ok o -> deleted o = false -> (dirtied e = None \/ dirtied e = Some (address o)) ->
  inv (setStateObject o (journal_append e s)).
Proof.
  intros Hi Hok Hd He. change (inv (journal_append e (setStateObject o s))).
  apply inv_append; [by apply inv_put|]. intros a o' Ha. destruct He as [He|He]; [congruence|].
  assert (a = address o) as -> by congruence. simpl. rewrite lookup_insert_eq. by intros [= <-].
Qed.

Lemma getStateObject_obj a s s' r : getStateObject a s = (s', r) -> r = obj_at s a.
Proof. unfold getStateObject, obj_at. intros E. repeat case_match; by simplify_eq. Qed.

(** Looking an account up shows it and changes nothing that can be seen. *)
Lemma getStateObject_spec a s s' r :
  inv s -> getStateObject a s = (s', r) ->
  r = obj_at s a /\ inv s' /\ (exists m, s' = set_objects m s) /\ forall b, obj_at s' b = obj_at s b.
Proof.
  intros Hi E. split; [by eapply getStateObject_obj|].
  assert (set_objects (stateObjects s) s = s) as Hid by (by destruct s).
  unfold getStateObject in E. destruct (stateObjects s !! a) as [o|] eqn:Ea.
  - assert (s' = s) as -> by (destruct (deleted o); congruence). split; [done|].
    split; [by exists (stateObjects s)|done].
  - destruct (load (strie s) a) as [o|] eqn:El.
    + injection E as <- <-. destruct (load_ok _ _ _ El) as (Ha & Hd & Ho).
      split; [by apply inv_put|]. split; [by eexists|]. intros b. rewrite obj_at_put, Hd, Ha.
      case_decide; [subst; unfold obj_at; by rewrite Ea, El|done].
    + injection E as <- <-. split; [done|]. split; [by exists (stateObjects s)|done].
Qed.

Lemma view_objects m s :
  (forall a, obj_at (set_objects m s) a = obj_at s a) -> same (view_of (set_objects m s)) (view_of s).
Proof. intros Ho. split_and!; try done; intros; simpl; by rewrite Ho. Qed.

Lemma view_put o s :
  deleted o = false ->
  same (view_of (setStateObject o s))
    (upd_acc (address o) (Some (obj_acct o)) (upd_sto (address o) (obj_sto o) (view_of s))).
Proof.
  intros Hd. split_and!; try done; intros; simpl; rewrite obj_at_put, Hd; unfold fupd; by case_decide.
Qed.

(** A change of an object that does not show. *)
Lemma view_put_same o o' s :
  obj_at s (address o') = Some o -> deleted o' = false -> obj_acct o' = obj_acct o ->
  (forall k, obj_sto o' k = obj_sto o k) -> same (view_of (setStateObject o' s)) (view_of s).
Proof.
  intros Ho Hd Ha Hst. rewrite view_put by done.
  split_and!; try done; intros; simpl; unfold fupd; case_decide; try done; subst.
  - by rewrite Ho, Ha.
  - by rewrite Ho, Hst.
Qed.

(** ** Steps that only add to the journal *)

Record evolves (s s' : StateDB) : Prop := {
  ev_inv : inv s';
  ev_trie : strie s' = strie s;
  ev_revisions : validRevisions s' = validRevisions s;
  ev_next : nextRevisionId s' = nextRevisionId s;
  ev_undo : exists es, entries s' = entries s ++ es /\ Forall (entry_ok (strie s)) es /\
    exists V, undo_all es (view_of s') = Some V /\ same V (view_of s)
}.

Lemma evolves_trans s1 s2 s3 : evolves s1 s2 -> evolves s2 s3 -> evolves s1 s3.
Proof.
  intros [Hi1 Ht1 Hr1 Hn1 (es1 & E1 & Ho1 & V1 & Hu1 & Hv1)] [Hi2 Ht2 Hr2 Hn2 (es2 & E2 & Ho2 & V2 & Hu2 & Hv2)].
  split; [done|congruence..|]. exists (es1 ++ es2). split; [by rewrite E2, E1, app_assoc|].
  split; [apply Forall_app; rewrite Ht1 in Ho2; done|].
  destruct (undo_all_same es1 _ V2 _ (symmetry Hv2) Hu1) as (W & Hw & Hs).
  exists W. rewrite undo_all_app, Hu2. split; [done|]. by rewrite <- Hs.
Qed.

Lemma evolves_quiet s s' :
  inv s' -> strie s' = strie s -> validRevisions s' = validRevisions s ->
  nextRevisionId s' = nextRevisionId s -> entries s' = entries s -> same (view_of s') (view_of s) ->
  evolves s s'.
Proof.
  intros. split; [done..|]. exists []. rewrite app_nil_r. split; [done|]. split; [done|]. by eexists.
Qed.

Lemma evolves_refl s : inv s -> evolves s s.
Proof. intros. by apply evolves_quiet. Qed.

Lemma evolves_get a s s' r :
  inv s -> getStateObject a s = (s', r) -> evolves s s' /\ r = obj_at s' a /\ r = obj_at s a.
Proof.
  intros Hi E. destruct (getStateObject_spec a s s' r Hi E) as (-> & Hi' & (m & ->) & Ho).
  split; [|by rewrite Ho]. apply evolves_quiet; try done. by apply view_objects.
Qed.

(** One more entry, which undoes what was done. *)
Lemma evolves_entry e s s' V :
  inv s' -> strie s' = strie s -> validRevisions s' = validRevisions s ->
  nextRevisionId s' = nextRevisionId s -> entries s' = entries s ++ [e] -> entry_ok (strie s) e ->
  undo e (view_of s') = Some V -> same V (view_of s) -> evolves s s'.
Proof.
  intros Hi Ht Hr Hn He Ho Hu Hv. split; [done..|]. exists [e]. split; [done|].
  split; [by apply Forall_singleton|]. exists V. done.
Qed.

(** A journalled change of an object. *)
Lemma evolves_put e s o o' V :
  inv s -> obj_at s (address o') = Some o -> deleted o' = false -> obj_ok o' -> entry_ok (strie s) e ->
  dirtied e = Some (address o') ->
  undo e (upd_acc (address o') (Some (obj_acct o')) (upd_sto (address o') (obj_sto o') (view_of s))) = Some V ->
  same V (view_of s) -> evolves s (setStateObject o' (journal_append e s)).
Proof.
  intros Hi Ho Hd Hok He Hdir Hu Hv.
  destruct (undo_same e _ (view_of (setStateObject o' (journal_append e s))) V (symmetry (view_put o' (journal_append e s) Hd)) Hu)
    as (W & Hw & HWV).
  apply (evolves_entry e s _ W); try done; [|by rewrite <- HWV].
  apply inv_put_append; auto.
Qed.

(** ** The operations *)

Lemma obj_Code_spec o o' c :
  obj_Code o = (o', c) ->
  address o' = address o /\ deleted o' = deleted o /\ obj_acct o' = obj_acct o /\
  (forall k, obj_sto o' k = obj_sto o k) /\ (obj_ok o -> obj_ok o') /\
  default [] c = ac_code (obj_acct o) /\ code_of (address o) (CodeHash (data o)) c = ac_code (obj_acct o) /\
  CodeHash (data o') = CodeHash (data o).
Proof.
  unfold obj_Code, obj_acct, code_of. intros E. destruct (code o) as [c0|] eqn:Ec.
  - injection E as <- <-. by rewrite Ec.
  - destruct (CodeHash (data o) =? emptyCodeHash)%N eqn:Eh; injection E as <- <-; simpl;
      rewrite ?Ec, ?Eh; by split_and!.
Qed.

Lemma obj_GetState_spec key o o' v :
  obj_GetState key o = (o', v) ->
  v = obj_sto o key /\ address o' = address o /\ deleted o' = deleted o /\ obj_acct o' = obj_acct o /\
  (forall k, obj_sto o' k = obj_sto o k) /\ (obj_ok o -> obj_ok o').
Proof.
  unfold obj_GetState, obj_sto. intros E. destruct (cachedStorage o !! key) as [v0|] eqn:Ec.
  - injection E as <- <-. by split_and!.
  - injection E as <- <-. split_and!; try done.
    + intros k. simpl. destruct (decide (k = key)) as [->|Hk].
      * by rewrite lookup_insert_eq, Ec.
      * by rewrite lookup_insert_ne.
    + intros Ho k v Hd. simpl in *. specialize (Ho k v Hd). destruct (decide (k = key)) as [->|Hk].
      * congruence.
      * by rewrite lookup_insert_ne.
Qed.

Lemma obj_sto_setState key v o k :
  obj_sto (setState key v o) k = if decide (k = key) then v else obj_sto o k.
Proof.
  unfold obj_sto. simpl. case_decide; [subst; by rewrite lookup_insert_eq|by rewrite lookup_insert_ne].
Qed.

Lemma obj_ok_setState key v o : obj_ok o -> obj_ok (setState key v o).
Proof.
  intros Ho k w. simpl. destruct (decide (k = key)) as [->|].
  - by rewrite !lookup_insert_eq.
  - rewrite !lookup_insert_ne by done. apply Ho.
Qed.

(** A loaded object is put back with more in its caches. *)
Lemma evolves_cache s o o' :
  inv s -> obj_at s (address o') = Some o -> deleted o' = false -> obj_ok o' ->
  obj_acct o' = obj_acct o -> (forall k, obj_sto o' k = obj_sto o k) -> evolves s (setStateObject o' s).
Proof.
  intros. apply evolves_quiet; try done; [by apply inv_put|]. by eapply view_put_same.
Qed.

Lemma new_object_sto a n k : obj_sto (setNonce n (newObject a zero_account)) k = 0%N.
Proof.
  unfold obj_sto. simpl. rewrite lookup_empty. unfold getTrie, read_trie. simpl. by rewrite open_empty.
Qed.

(** Solves that two views with updates at one address are the same. *)
Ltac solve_same :=
  split_and!; try done; intros; simpl; unfold fupd; repeat case_decide; subst; simpl; try done; try congruence.

Lemma obj_ok_new a : obj_ok (setNonce NonceAddOne (newObject a zero_account)).
Proof. intros k v. simpl. by rewrite lookup_empty. Qed.

(** A new object takes the place of what [getStateObject] found. *)
Lemma evolves_new a s s1 p o :
  inv s -> getStateObject a s = (s1, p) -> address o = a -> deleted o = false -> obj_ok o ->
  evolves s (setStateObject o (journal_append (match p with
                                               | None => createObjectChange a
                                               | Some p => resetObjectChange p
                                               end) s1)).
Proof.
  intros Hi Eg Ha Hd Hok. destruct (evolves_get a s s1 p Hi Eg) as (Hev & Hp1 & Hp).
  pose proof (ev_inv _ _ Hev) as Hi1. eapply evolves_trans; [done|].
  set (e := match p with None => _ | Some _ => _ end).
  assert (exists V, undo e (view_of (setStateObject o (journal_append e s1))) = Some V /\ same V (view_of s1)) as (V & Hu & Hv).
  { assert (match p with Some p => address p = a | None => True end) as Hpa.
    { destruct p as [p|]; [|done]. by destruct (obj_at_inv s1 a p Hi1 (eq_sym Hp1)) as (? & _). }
    destruct p as [p|]; unfold e; simpl; eexists; (split; [done|]); solve_same;
      rewrite ?obj_at_put, ?Hpa, ?decide_False, <- ?Hp1 by congruence; done. }
  apply (evolves_entry e _ _ V); try done; [apply inv_put_append; try done; rewrite Ha; destruct p; auto|].
  unfold e. destruct p as [p|]; simpl.
  - by destruct (obj_at_inv s1 a p Hi1 (eq_sym Hp1)) as (_ & ? & ?).
  - unfold obj_at in Hp1. destruct (stateObjects s1 !! a) as [o'|] eqn:Eo; [|done].
    destruct (deleted o') eqn:Hd'; [|done]. by destruct (inv_objects s1 Hi1 a o' Eo) as (_ & _ & [? _]).
Qed.

(** An object that the database holds. *)
Definition held (s : StateDB) (o : stateObject) : Prop :=
  inv s /\ obj_at s (address o) = Some o /\ deleted o = false /\ obj_ok o.

Lemma evolves_get_or_new a s s' o :
  inv s -> GetOrNewStateObject a s = (s', o) -> evolves s s' /\ held s' o /\ address o = a.
Proof.
  intros Hi E. unfold GetOrNewStateObject in E. destruct (getStateObject a s) as [s1 p] eqn:Eg.
  destruct (evolves_get a s s1 p Hi Eg) as (Hev & Hp1 & Hp). pose proof (ev_inv _ _ Hev) as Hi1.
  destruct p as [p|].
  - injection E as <- <-. destruct (obj_at_inv s1 a p Hi1 (eq_sym Hp1)) as (Ha & Hd & Ho).
    split; [done|]. split; [|done]. by rewrite <- Ha in Hp1.
  - unfold createObject in E. destruct (getStateObject a s1) as [s2 p2] eqn:Eg2. injection E as <- <-.
    assert (evolves s1 (setStateObject (setNonce NonceAddOne (newObject a zero_account))
      (journal_append (match p2 with None => createObjectChange a | Some p => resetObjectChange p end) s2))) as Hev2
      by (apply (evolves_new a s1); [done..|apply obj_ok_new]).
    split; [by eapply evolves_trans|]. split; [|done]. split; [by apply (ev_inv _ _ Hev2)|].
    split; [|split; [done|apply obj_ok_new]]. by rewrite obj_at_put, decide_True.
Qed.

Lemma fupd_eq {A} a (x : A) f : fupd a x f a = x.
Proof. unfold fupd. by rewrite decide_True. Qed.

(** Solves that a journalled change of a held object can be undone. *)
Ltac solve_put o :=
  intros (Hi & Ho & Hd & Hok);
  eapply (evolves_put _ _ o); [done|done|done|done|done|done|simpl; by rewrite fupd_eq|];
  solve_same; rewrite ?Ho; simpl; done.

Lemma evolves_SetBalance amount o s : held s o -> evolves s (obj_SetBalance amount o s).
Proof. solve_put o. Qed.

Lemma evolves_SetNonce nonce o s : held s o -> evolves s (obj_SetNonce nonce o s).
Proof. solve_put o. Qed.

Lemma evolves_touch o s : held s o -> evolves s (touch o s).
Proof.
  intros (Hi & Ho & Hd & _). unfold touch.
  assert (inv (journal_append (touchChange (address o)) s)) as Hi1.
  { apply inv_append; [done|]. intros a o' [= <-] Ho'. unfold obj_at in Ho. rewrite Ho' in Ho.
    by destruct (deleted o'). }
  case_match; apply (evolves_entry (touchChange (address o)) _ _ (view_of s)); try done.
  destruct Hi1 as [Hi1 Hl Hs]. split; [|done..]. intros a o' Ho'. destruct (Hi1 a o' Ho') as (? & ? & Hdead).
  split; [done|]. split; [done|]. intros Hdel. destruct (Hdead Hdel) as (? & Hdir & Hf). split; [done|]. split; [|done].
  simpl in *. apply Forall_app in Hf as [_ Hf]. apply Forall_cons in Hf as [Hf _]. simpl in Hf. rewrite lookup_incr; [done|]. intros ->. by apply Hf.
Qed.

Lemma evolves_AddBalance amount o s : held s o -> evolves s (obj_AddBalance amount o s).
Proof.
  intros Hh. unfold obj_AddBalance. repeat case_match; auto using evolves_touch, evolves_SetBalance.
  apply evolves_refl. by destruct Hh.
Qed.

Lemma evolves_SubBalance amount o s : held s o -> evolves s (obj_SubBalance amount o s).
Proof.
  intros Hh. unfold obj_SubBalance. case_match; auto using evolves_SetBalance.
  apply evolves_refl. by destruct Hh.
Qed.

Lemma evolves_SetCode h c o s : held s o -> evolves s (obj_SetCode h c o s).
Proof.
  intros (Hi & Ho & Hd & Hok). unfold obj_SetCode. destruct (obj_Code o) as [o1 pc] eqn:Eo.
  destruct (obj_Code_spec o o1 pc Eo) as (Ha & Hd1 & Hac & Hst & Hok1 & _ & Hco & Hch).
  eapply (evolves_put _ _ o); simpl; rewrite ?Ha, ?Hd1; auto; [by rewrite fupd_eq|].
  solve_same; rewrite ?Ho; [|exact (Hst k)]. rewrite Hch, Hco. simpl. f_equal.
  change (with_code (ac_CodeHash (obj_acct o)) (ac_code (obj_acct o)) (obj_acct o1) = obj_acct o).
  by rewrite Hac.
Qed.

Lemma evolves_SetState key v o s : held s o -> evolves s (obj_SetState key v o s).
Proof.
  intros (Hi & Ho & Hd & Hok). unfold obj_SetState. destruct (obj_GetState key o) as [o1 pv] eqn:Eo.
  destruct (obj_GetState_spec key o o1 pv Eo) as (-> & Ha & Hd1 & Hac & Hst & Hok1).
  eapply (evolves_put _ _ o); simpl; rewrite ?Ha, ?Hd1; auto using obj_ok_setState; [by rewrite !fupd_eq|].
  solve_same; rewrite ?Ho; [exact (f_equal Some Hac)|done|]. rewrite obj_sto_setState, decide_False by done. apply Hst.
Qed.

(** What an operation does to the object it gets or makes. *)
Lemma evolves_on a s (f : stateObject -> StateDB -> StateDB) :
  inv s -> (forall o s, held s o -> evolves s (f o s)) ->
  evolves s (let '(s, o) := GetOrNewStateObject a s in f o s).
Proof.
  intros Hi Hf. destruct (GetOrNewStateObject a s) as [s1 o] eqn:E.
  destruct (evolves_get_or_new a s s1 o Hi E) as (Hev & Hh & _). eapply evolves_trans; [done|]. by apply Hf.
Qed.

Lemma evolves_Suicide a s : inv s -> evolves s (Suicide a s).1.
Proof.
  intros Hi. unfold Suicide. destruct (getStateObject a s) as [s1 p] eqn:Eg.
  destruct (evolves_get a s s1 p Hi Eg) as (Hev & Hp1 & _). pose proof (ev_inv _ _ Hev) as Hi1.
  destruct p as [o|]; [|done]. symmetry in Hp1. destruct (obj_at_inv s1 a o Hi1 Hp1) as (<- & Hd & Hok).
  eapply evolves_trans; [done|]. eapply (evolves_put _ _ o); try done.
  solve_same; by rewrite ?Hp1.
Qed.

Lemma set_put o o' s : address o = address o' -> setStateObject o (setStateObject o' s) = setStateObject o s.
Proof. intros Ha. unfold setStateObject. simpl. by rewrite Ha, insert_insert_eq. Qed.

Lemma evolves_CreateAccount a s : inv s -> evolves s (CreateAccount a s).
Proof.
  intros Hi. unfold CreateAccount, createObject. destruct (getStateObject a s) as [s1 p] eqn:Eg.
  pose proof (fun o => evolves_new a s s1 p o Hi Eg) as Hn.
  destruct p as [p|]; [rewrite set_put by done|]; apply Hn; done || apply obj_ok_new.
Qed.

Lemma evolves_AddRefund gas s : inv s -> evolves s (AddRefund gas s).
Proof.
  intros Hi. eapply (evolves_entry (refundChange (refund s)) _ _ _); try done.
  destruct (inv_append (refundChange (refund s)) s Hi); [done|by split].
Qed.

Lemma evolves_AddPreimage h p s : inv s -> evolves s (AddPreimage h p s).
Proof.
  intros Hi. unfold AddPreimage. destruct (preimages s !! h) eqn:E; [by apply evolves_refl|].
  eapply (evolves_entry (addPreimageChange h) _ _ _); try done.
  - destruct (inv_append (addPreimageChange h) s Hi); [done|by split].
  - split_and!; try done. simpl. by rewrite delete_insert_id.
Qed.

Lemma evolves_AddLog c s : inv s -> evolves s (AddLog c s).
Proof.
  intros Hi. set (th := thash s). assert (u64 (u64 (logSize s + 1) - 1) = logSize s) as Hn.
  { rewrite <- (u64_small (logSize s)) at 2 by apply Hi. unfold u64. rewrite Zminus_mod_idemp_l. f_equal. lia. }
  assert (exists V, undo (addLogChange th) (view_of (AddLog c s)) = Some V /\ same V (view_of s)) as (V & Hu & Hv).
  { unfold undo, AddLog. cbn [view_of v_logs set_logs logs logSize v_logSize journal_append set_journal thash].
    fold th. rewrite lookup_insert_eq, Hn. cbn [default].
    destruct (logs s !! th) as [[|x l]|] eqn:El; cbn [default app]; [by destruct (inv_logs s Hi th)|..].
    - eexists (upd_logs (<[th := removelast ((x :: l) ++ [_])]> _) _ _). split; [by destruct l|].
      rewrite removelast_last. split_and!; try done. simpl. by rewrite insert_insert_eq, insert_id.
    - eexists. split; [done|]. split_and!; try done. simpl. by rewrite delete_insert_id. }
  apply (evolves_entry (addLogChange th) _ _ V); try done.
  destruct (inv_append (addLogChange th) s Hi) as [Hi1 Hi2 Hi3]; [done|]. split; [done| |apply u64_range].
  intros h. simpl. fold th. destruct (decide (h = th)) as [->|]; [|by rewrite lookup_insert_ne].
  rewrite lookup_insert_eq. intros [= Hc]. by apply app_eq_nil in Hc as [_ ?].
Qed.

(** ** Reverting *)

(** What the revert of an entry leaves: the view [V], and the rest as it was. *)
Record reverted (s s' : StateDB) (V : view) : Prop := {
  rv_inv : inv s';
  rv_view : same (view_of s') V;
  rv_trie : strie s' = strie s;
  rv_entries : entries s' = entries s;
  rv_revisions : validRevisions s' = validRevisions s;
  rv_next : nextRevisionId s' = nextRevisionId s
}.

(** An account that is there is changed. *)
Lemma revert_on a f s V :
  inv s ->
  (forall o, obj_at s a = Some o -> address (f o) = address o /\ deleted (f o) = deleted o /\
     (obj_ok o -> obj_ok (f o)) /\
     same (upd_acc a (Some (obj_acct (f o))) (upd_sto a (obj_sto (f o)) (view_of s))) V) ->
  (obj_at s a = None -> same (view_of s) V) ->
  exists s1, getStateObject a s = (s1, obj_at s a) /\
    reverted s (match obj_at s a with Some o => setStateObject (f o) s1 | None => s1 end) V.
Proof.
  intros Hi Hf Hn. destruct (getStateObject a s) as [s1 r] eqn:Eg.
  destruct (getStateObject_spec _ _ _ _ Hi Eg) as (-> & Hi1 & (m & ->) & Hat).
  exists (set_objects m s). split; [done|]. destruct (obj_at s a) as [o|] eqn:Ho.
  - destruct (obj_at_inv _ _ _ Hi Ho) as (Ha & Hd & Hok). destruct (Hf o eq_refl) as (Ha' & Hd' & Hok' & Hv).
    split; [apply inv_put; auto; congruence| |done..].
    rewrite <- Hv, view_put, Ha', Ha by congruence. solve_same; by rewrite Hat.
  - split; [done| |done..]. rewrite view_objects by done. by apply Hn.
Qed.

Lemma acc_Some s a x : v_acc (view_of s) a = Some x -> exists o, obj_at s a = Some o /\ x = obj_acct o.
Proof. simpl. intros (o & -> & ->)%fmap_Some. by exists o. Qed.

(** Solves the revert of a change of an account that is there. *)
Ltac solve_on f E :=
  apply bind_Some in E as (x & (o & Ho & ->)%acc_Some & [= <-]); simpl;
  match goal with |- exists s', (let '(_, _) := getStateObject ?a ?s in _) = _ /\ reverted _ _ ?V =>
    destruct (revert_on a f s V) as (s1 & Eg & Hr);
    [done| |by rewrite Ho|eexists; split; [|exact Hr]; by rewrite Eg, Ho]
  end;
  intros o' Ho'; assert (o' = o) as -> by congruence.

Lemma revert_create_view a s :
  inv s -> load (strie s) a = None ->
  exists s', revert_entry (createObjectChange a) s = Some s' /\
    reverted s s' (upd_acc a None (upd_sto a (fun _ => 0%N) (view_of s))).
Proof.
  intros Hi He. eexists. split; [done|]. split; try done.
  - destruct Hi as [Hi1 Hi2 Hi3]. split; [|done..]. intros b o. simpl.
    intros (? & ?)%lookup_delete_Some. by apply Hi1.
  - solve_same; unfold obj_at; simpl; rewrite ?lookup_delete_eq, ?He, ?lookup_delete_ne by done; done.
Qed.

Lemma revert_log_view th s V :
  inv s -> undo (addLogChange th) (view_of s) = Some V ->
  exists s', revert_entry (addLogChange th) s = Some s' /\ reverted s s' V.
Proof.
  intros [Hi1 Hi2 Hi3] E. simpl in *. destruct (default [] (logs s !! th)) as [|x [|y l]] eqn:El; [done|..];
    injection E as <-; (eexists; split; [done|]); split; try done; split; try done; try apply u64_range;
    intros h; simpl.
  - intros (_ & ?)%lookup_delete_Some. by apply (Hi2 h).
  - destruct (decide (h = th)) as [->|]; [by rewrite lookup_insert_eq|by rewrite lookup_insert_ne].
Qed.

Lemma revert_entry_view e s V :
  inv s -> entry_ok (strie s) e -> undo e (view_of s) = Some V ->
  exists s', revert_entry e s = Some s' /\ reverted s s' V.
Proof.
  intros Hi He E. destruct e as [a|prev|a b n|a n|a n|a key v|a c h|r|th|h|a]; cbn [undo] in E.
  - injection E as <-. by apply revert_create_view.
  - injection E as <-. destruct He as [Hd Hok]. eexists. split; [done|].
    split; [by apply inv_put|by apply view_put|done..].
  - injection E as <-.
    destruct (revert_on a (fun o => setBalance n (set_suicided b o)) s
                (upd_acc a (with_suicided b n <$> v_acc (view_of s) a) (view_of s))) as (s1 & Eg & Hr); [done|..].
    + intros o Ho. split; [done|]. split; [done|]. split; [done|]. solve_same; by rewrite Ho.
    + intros Hn. solve_same; by rewrite Hn.
    + eexists. split; [|exact Hr]. cbn [revert_entry]. rewrite Eg. by destruct (obj_at s a).
  - solve_on (setBalance n) E. split; [done|]. split; [done|]. split; [done|]. solve_same; by rewrite Ho.
  - solve_on (setNonce n) E. split; [done|]. split; [done|]. split; [done|]. solve_same; by rewrite Ho.
  - solve_on (setState key v) E. split; [done|]. split; [done|]. split; [apply obj_ok_setState|].
    solve_same; rewrite ?Ho, ?obj_sto_setState; done || by case_decide.
  - solve_on (setCode h c) E. split; [done|]. split; [done|]. split; [done|].
    destruct (obj_at_inv _ _ _ Hi Ho) as (<- & _). solve_same; by rewrite Ho.
  - injection E as <-. eexists. split; [done|]. split; try done. destruct Hi; by split.
  - by apply revert_log_view.
  - injection E as <-. eexists. split; [done|]. split; try done. destruct Hi; by split.
  - injection E as <-. eexists. split; [done|]. by split.
Qed.

Lemma inv_decr e s :
  inv s -> e ∈ entries s ->
  inv (set_journal (entries s) (match dirtied e with Some a => decr a (dirties s) | None => dirties s end) s).
Proof.
  intros [Hi Hl Hs] He. split; [|done..]. intros a o Ho. destruct (Hi a o Ho) as (? & ? & Hdead).
  split; [done|]. split; [done|]. intros Hdel. destruct (Hdead Hdel) as (? & Hdir & Hf). split; [done|].
  split; [|done]. simpl. rewrite Forall_forall in Hf. specialize (Hf e He).
  destruct (dirtied e) as [b|]; [|done]. rewrite lookup_decr; congruence.
Qed.

Lemma inv_take n s : inv s -> inv (set_journal (take n (entries s)) (dirties s) s).
Proof.
  intros [Hi Hl Hs]. split; [|done..]. intros a o Ho. destruct (Hi a o Ho) as (? & ? & Hdead).
  split; [done|]. split; [done|]. intros Hdel. destruct (Hdead Hdel) as (? & ? & Hf).
  split; [done|]. split; [done|]. by apply Forall_take.
Qed.

(** Reverting a list of entries undoes them. *)
Lemma revert_loop_view es s V :
  inv s -> (forall e, e ∈ es -> e ∈ entries s) -> Forall (entry_ok (strie s)) es -> undo_all es (view_of s) = Some V ->
  exists s', revert_loop es s = Some s' /\ reverted s s' V.
Proof.
  intros Hi Hin Hes. revert V. induction Hes as [|e es He Hes IH]; intros V E; simpl in *.
  - injection E as <-. exists s. split; [done|]. by split.
  - apply bind_Some in E as (V1 & E1 & E). destruct (IH ltac:(set_solver) V1 E1) as (s1 & -> & [Hi1 Hv1 Ht1 He1 Hr1 Hn1]).
    destruct (undo_same e V1 (view_of s1) V (symmetry Hv1) E) as (W & Hw & HVW). rewrite <- Ht1 in He.
    destruct (revert_entry_view e s1 W Hi1 He Hw) as (s2 & Hs2 & [Hi2 Hv2 Ht2 He2 Hr2 Hn2]).
    simpl. rewrite Hs2. simpl. eexists. split; [done|]. split; simpl; [| |congruence..].
    + apply inv_decr; [done|]. rewrite He2, He1. set_solver.
    + rewrite HVW. by rewrite <- Hv2.
Qed.

Lemma journal_revert_view n s V :
  inv s -> Forall (entry_ok (strie s)) (entries s) -> undo_all (drop n (entries s)) (view_of s) = Some V ->
  exists s', journal_revert n s = Some s' /\ inv s' /\ same (view_of s') V /\ strie s' = strie s /\
    entries s' = take n (entries s) /\ validRevisions s' = validRevisions s /\ nextRevisionId s' = nextRevisionId s.
Proof.
  intros Hi Hes E. 
  destruct (revert_loop_view (drop n (entries s)) s V Hi) as (s1 & Hs1 & [Hi1 Hv1 Ht1 He1 Hr1 Hn1]).
  { intros e (i & Hi')%list_elem_of_lookup. rewrite lookup_drop in Hi'. by apply list_elem_of_lookup_2 in Hi'. }
  { by apply Forall_drop. }
  { done. }
  unfold journal_revert. rewrite Hs1. simpl. eexists. split; [done|]. simpl. rewrite <- He1.
  split; [by apply inv_take|]. by split.
Qed.

Lemma evolves_GetCode a s : inv s -> evolves s (GetCode a s).1.
Proof.
  intros Hi. unfold GetCode. destruct (getStateObject a s) as [s1 p] eqn:Eg.
  destruct (evolves_get a s s1 p Hi Eg) as (Hev & Hp1 & _). pose proof (ev_inv _ _ Hev) as Hi1.
  destruct p as [o|]; [|done]. symmetry in Hp1. destruct (obj_at_inv s1 a o Hi1 Hp1) as (Ha & Hd & Hok).
  destruct (obj_Code o) as [o1 c] eqn:Eo. destruct (obj_Code_spec o o1 c Eo) as (Ha1 & Hd1 & Hac & Hst & Hok1 & _).
  eapply evolves_trans; [done|]. apply (evolves_cache s1 o); auto; congruence.
Qed.

Lemma evolves_GetState a k s : inv s -> evolves s (GetState a k s).1.
Proof.
  intros Hi. unfold GetState. destruct (getStateObject a s) as [s1 p] eqn:Eg.
  destruct (evolves_get a s s1 p Hi Eg) as (Hev & Hp1 & _). pose proof (ev_inv _ _ Hev) as Hi1.
  destruct p as [o|]; [|done]. symmetry in Hp1. destruct (obj_at_inv s1 a o Hi1 Hp1) as (Ha & Hd & Hok).
  destruct (obj_GetState k o) as [o1 v] eqn:Eo. destruct (obj_GetState_spec k o o1 v Eo) as (_ & Ha1 & Hd1 & Hac & Hst & Hok1).
  eapply evolves_trans; [done|]. apply (evolves_cache s1 o); auto; congruence.
Qed.

(** ** The revisions *)

(** Reverting to the revision [r] would show [V]. *)
Definition rev_ok (s : StateDB) (r : Z * nat) (V : view) : Prop :=
  exists W, undo_all (drop r.2 (entries s)) (view_of s) = Some W /\ same W V.

Record good (s : StateDB) : Prop := {
  g_inv : inv s;
  g_entries : Forall (entry_ok (strie s)) (entries s);
  g_sorted : StronglySorted (fun r r' => r.1 < r'.1 /\ (r.2 <= r'.2)%nat) (validRevisions s);
  g_revisions r : r ∈ validRevisions s ->
    r.1 < nextRevisionId s /\ (r.2 <= length (entries s))%nat /\ exists V, rev_ok s r V
}.

Lemma evolves_rev s s' r V :
  evolves s s' -> (r.2 <= length (entries s))%nat -> rev_ok s r V -> rev_ok s' r V.
Proof.
  intros [_ _ _ _ (es & He & _ & V1 & Hu & Hv)] Hl (W & HW & HWV). unfold rev_ok.
  rewrite He, drop_app_le, undo_all_app, Hu by done. simpl.
  destruct (undo_all_same _ _ V1 W (symmetry Hv) HW) as (W' & -> & Hs). exists W'. split; [done|].
  by rewrite <- Hs.
Qed.

Lemma evolves_good s s' : good s -> evolves s s' -> good s'.
Proof.
  intros [Hi He Hs Hr] Hev. pose proof Hev as [Hi' Ht Hv Hn (es & Hes & Ho & _)].
  split; [done|..].
  - rewrite Hes, Ht. by apply Forall_app.
  - by rewrite Hv.
  - rewrite Hv, Hn, Hes. intros r (H3 & H4 & V & HV)%Hr. rewrite length_app.
    split; [done|]. split; [lia|]. exists V. by apply (evolves_rev s).
Qed.

Lemma snapshot_good s : good s -> good (Snapshot s).1.
Proof.
  intros [Hi He Hs Hr]. split; simpl.
  - destruct Hi; by split.
  - done.
  - apply StronglySorted_app; split_and!; [|done|].
    + intros r r' Hin ->%list_elem_of_singleton. destruct (Hr r Hin) as (? & ? & _). simpl. lia.
    + apply SSorted_cons; [apply SSorted_nil|done].
  - intros r [Hin| ->%list_elem_of_singleton]%elem_of_app.
    + destruct (Hr r Hin) as (? & ? & ?). split; [lia|]. done.
    + simpl. split; [lia|]. split; [done|]. exists (view_of s), (view_of s). rewrite drop_ge by done. done.
Qed.

Lemma snapshot_rev s : rev_ok (Snapshot s).1 (nextRevisionId s, length (entries s)) (view_of s).
Proof. exists (view_of s). simpl. by rewrite drop_ge. Qed.

(** The search finds the revision with this id. *)
Lemma find_revision (l1 l2 : list (Z * nat)) id n :
  StronglySorted (fun r r' => r.1 < r'.1 /\ (r.2 <= r'.2)%nat) (l1 ++ (id, n) :: l2) ->
  list_find (fun r => id <= r.1) (l1 ++ (id, n) :: l2) = Some (length l1, (id, n)).
Proof.
  intros (Hl & _ & _)%StronglySorted_app. apply list_find_Some. split; [by apply list_lookup_middle|].
  split; [simpl; lia|]. intros j r Hj Hlt. rewrite lookup_app_l in Hj by done.
  apply list_elem_of_lookup_2 in Hj. destruct (Hl r (id, n) Hj) as [? _]; [by left|]. simpl in *. lia.
Qed.

Lemma rev_ok_take s s' n W r V :
  undo_all (drop n (entries s)) (view_of s) = Some W -> same (view_of s') W ->
  entries s' = take n (entries s) -> (r.2 <= n)%nat -> rev_ok s r V -> rev_ok s' r V.
Proof.
  intros HW Hv He Hle (U & HU & HUV). unfold rev_ok. rewrite He.
  assert (drop r.2 (entries s) = drop r.2 (take n (entries s)) ++ drop n (entries s)) as Hd.
  { rewrite <- (take_drop n (entries s)) at 1. destruct (decide (n <= length (entries s)))%nat.
    - rewrite drop_app_le by (rewrite length_take; lia). done.
    - rewrite (take_ge _ n), (drop_ge _ n), !app_nil_r by lia. done. }
  rewrite Hd, undo_all_app, HW in HU. simpl in HU.
  destruct (undo_all_same _ W (view_of s') U (symmetry Hv) HU) as (U' & HU' & HS).
  exists U'. split; [done|]. by rewrite <- HS.
Qed.

Lemma revert_good id n s :
  good s -> (id, n) ∈ validRevisions s ->
  exists s', RevertToSnapshot id s = Some s' /\ good s' /\
    (forall V, rev_ok s (id, n) V -> same (view_of s') V) /\
    forall r, r ∈ validRevisions s -> r.1 < id ->
      r ∈ validRevisions s' /\ forall V, rev_ok s r V -> rev_ok s' r V.
Proof.
  intros [Hi He Hs Hr] Hin. destruct (Hr _ Hin) as (_ & Hl & V & W & HW & _). simpl in *.
  destruct (journal_revert_view n s W Hi He HW) as (s1 & Hs1 & Hi1 & Hv1 & Ht1 & He1 & Hr1 & Hn1).
  apply list_elem_of_split in Hin as (l1 & l2 & Hl12). rewrite Hl12 in Hs.
  unfold RevertToSnapshot. rewrite Hl12, find_revision by done. simpl. rewrite Z.eqb_refl, Hs1. simpl.
  rewrite take_app_length. apply StronglySorted_app in Hs as (Hlt & Hs & Hs2).
  assert (forall r, r ∈ l1 -> r.1 < id /\ (r.2 <= n)%nat) as Hbefore by (intros r Hin; apply (Hlt r (id, n) Hin); by left).
  assert (forall r V, r ∈ l1 -> rev_ok s r V -> rev_ok (set_revisions l1 (nextRevisionId s1) s1) r V) as Hrev.
  { intros r V' Hin. apply rev_ok_take with n W; try done. by apply Hbefore. }
  eexists. split; [done|]. split; [|split].
  - split; simpl; [destruct Hi1; by split|by rewrite Ht1, He1; apply Forall_take|done|].
    intros r Hin. destruct (Hbefore r Hin). rewrite He1, length_take, Hn1.
    destruct (Hr r) as (? & ? & V' & HV'); [rewrite Hl12; apply elem_of_app; by left|].
    split; [done|]. split; [lia|]. exists V'. rewrite <- Hn1. by apply Hrev.
  - intros V0 (W0 & HW0 & HV0). simpl in HW0. assert (W0 = W) as -> by congruence. by rewrite <- HV0.
  - simpl. intros r Hin Hid. apply elem_of_app in Hin as [Hin|Hin]; [by auto|].
    exfalso. apply elem_of_cons in Hin as [->|Hin]; simpl in *; [lia|].
    apply StronglySorted_cons in Hs2 as [Hall _]. rewrite Forall_forall in Hall.
    destruct (Hall r Hin) as [? _]. simpl in *. lia.
Qed.
Lemma good_New t : good (New t).
Proof.
  split; simpl; [|done|apply SSorted_nil|by intros r ?%elem_of_nil].
  split; simpl; [intros a o|intros h|done]; by rewrite lookup_empty.
Qed.

(** A revert that succeeds finds its revision. *)
Lemma revert_found id s s' : RevertToSnapshot id s = Some s' -> exists n, (id, n) ∈ validRevisions s.
Proof.
  unfold RevertToSnapshot. intros ((idx & id' & n) & Hf & E)%bind_Some.
  apply list_find_Some in Hf as (Hl & _). apply list_elem_of_lookup_2 in Hl.
  destruct (id' =? id) eqn:Eid; [|done]. apply Z.eqb_eq in Eid as ->. by exists n.
Qed.

(** What the readers return. *)
Definition reads (a : Address) (k : Hash) (s : StateDB) :=
  ((Exist a s).2, (Empty a s).2, (GetBalance a s).2, (GetNonce a s).2, (GetCode a s).2,
   (GetCodeHash a s).2, (GetState a k s).2, (HasSuicided a s).2).

Definition reads_view (a : Address) (k : Hash) (V : view) :=
  match v_acc V a with
  | Some x => (true, (ac_Nonce x =? 0) && (ac_Balance x =? 0) && (ac_CodeHash x =? emptyCodeHash)%N,
               ac_Balance x, ac_Nonce x, ac_code x, ac_CodeHash x, v_sto V a k, ac_suicided x)
  | None => (false, true, 0, NonceAddOne, [], 0%N, 0%N, false)
  end.

Lemma reads_eq a k s : reads a k s = reads_view a k (view_of s).
Proof.
  unfold reads, reads_view, Exist, Empty, GetBalance, GetNonce, GetCode, GetCodeHash, GetState, HasSuicided.
  destruct (getStateObject a s) as [s1 p] eqn:Eg. rewrite (getStateObject_obj _ _ _ _ Eg). simpl. destruct (obj_at s a) as [o|]; [|done].
  destruct (obj_Code o) as [o1 c] eqn:Ec, (obj_GetState k o) as [o2 v] eqn:Es. simpl.
  destruct (obj_Code_spec o o1 c Ec) as (_ & _ & _ & _ & _ & -> & _).
  by destruct (obj_GetState_spec k o o2 v Es) as (-> & _).
Qed.

Lemma readers_same a k V W : same V W -> reads_view a k V = reads_view a k W.
Proof. intros (A & S & _). unfold reads_view. by rewrite A, S. Qed.

End Snapshot.
End Snapshot.
