(* ===== verification/StateRoot.v ===== *)
(** * The end of a transaction

    [Finalise] of StateDB.v removes the accounts that are to go, writes the
    others to the tries and clears the journal.  The theorems say what is left,
    that the root does not depend on the order in which Go ranges over its maps,
    and that what was written reads back. *)

From S2P Require Import Prelude Common Rlp Crypto RlpDecode Deposit StateDB Snapshot.

Module StateRoot.
Import Rlp RlpDecode StateDB Snapshot.
Section StateRoot.
Context `{Crypto} `{TrieLaws}.

(** ** Storage *)

Section range.
Context `{GoRange}.

(** What a slot holds after a value was written to it. *)
Definition slot (v : Hash) : list Z := if (v =? 0)%N then [] else enc_value v.

Lemma write_slot_get kv t k :
  TryGet (write_slot kv t) k = if decide (k = kv.1) then slot kv.2 else TryGet t k.
Proof.
  unfold write_slot, slot. destruct (kv.2 =? 0)%N; [apply get_delete|apply get_update].
Qed.

Lemma write_slots_get l t k :
  NoDup l.*1 ->
  TryGet (foldl (fun t kv => write_slot kv t) t l) k
  = match (list_to_map l : gmap Hash Hash) !! k with Some v => slot v | None => TryGet t k end.
Proof.
  revert t. induction l as [|[k' v] l IH]; intros t Hn; simpl; [by rewrite lookup_empty|].
  apply NoDup_cons in Hn as [Hk Hn]. rewrite IH, write_slot_get by done. simpl. case_decide as Hkk.
  - subst k'. rewrite lookup_insert_eq. by rewrite (not_elem_of_list_to_map_1 _ _ Hk).
  - by rewrite lookup_insert_ne.
Qed.

(** The storage trie of an object once it is up to date. *)
Definition slots (o : stateObject) (k : Hash) : list Z :=
  match dirtyStorage o !! k with Some v => slot v | None => TryGet (getTrie o) k end.

Lemma updateTrie_get o k : TryGet (getTrie (updateTrie o)) k = slots o k.
Proof.
  unfold getTrie at 1, slots. simpl. rewrite write_slots_get by apply range_NoDup_fst.
  replace (list_to_map (range (dirtyStorage o))) with (dirtyStorage o); [done|].
  rewrite <- (list_to_map_to_list (dirtyStorage o)) at 1.
  apply list_to_map_proper; [apply NoDup_fst_map_to_list|symmetry; apply range_perm].
Qed.

End range.

(** Writing the storage does not show. *)
Lemma updateRoot_sto `{GoRange} o k : obj_ok o -> obj_sto (updateRoot o) k = obj_sto o k.
Proof.
  intros Ho. unfold obj_sto. simpl. destruct (cachedStorage o !! k) as [v|] eqn:Ec; [done|].
  unfold read_trie. change (getTrie (updateRoot o)) with (getTrie (updateTrie o)).
  rewrite updateTrie_get. unfold slots. destruct (dirtyStorage o !! k) as [v|] eqn:Ed; [|done].
  apply Ho in Ed. congruence.
Qed.

(** ** Accounts *)

Section accounts.
Context `{GoRange} (deleteEmptyObjects : bool).

Definition removed (o : stateObject) : bool := suicided o || (deleteEmptyObjects && empty o).

Definition final (o : stateObject) : stateObject := if removed o then set_deleted o else updateRoot o.

(** What the account trie then holds; [None] if the account cannot be encoded. *)
Definition written (o : stateObject) : option (list Z) :=
  if removed o then Some []
  else match EncodeToBytes (erase dAccount) (vAccount (data (updateRoot o))) with
       | Ok enc => Some enc
       | Err _ => None
       end.

Definition addrs (s : StateDB) : Prop := forall a o, stateObjects s !! a = Some o -> address o = a.

(** The accounts of [l] are final in [s']. *)
Record finalised (l : list Address) (s s' : StateDB) : Prop := {
  fi_objects a : stateObjects s' !! a
    = if decide (a ∈ l) then final <$> stateObjects s !! a else stateObjects s !! a;
  fi_trie a : TryGet (strie s') a
    = if decide (a ∈ l)
      then match stateObjects s !! a with Some o => default [] (written o) | None => TryGet (strie s) a end
      else TryGet (strie s) a;
  fi_written a o : a ∈ l -> stateObjects s !! a = Some o -> is_Some (written o);
  fi_logs : logs s' = logs s;
  fi_logSize : logSize s' = logSize s;
  fi_preimages : preimages s' = preimages s;
  fi_next : nextRevisionId s' = nextRevisionId s
}.

Lemma final_address o : address (final o) = address o.
Proof. unfold final. by destruct (removed o). Qed.

Lemma finalise_one_cases a s :
  addrs s ->
  (exists s', finalise_one deleteEmptyObjects a s = Some s' /\ finalised [a] s s') \/
  finalise_one deleteEmptyObjects a s = None /\ exists o, stateObjects s !! a = Some o /\ written o = None.
Proof.
  intros Ha. unfold finalise_one. destruct (stateObjects s !! a) as [o|] eqn:Eo.
  2: { left. exists s. split; [done|]. split; try done; intros b; try case_decide as Hb; try done;
         [apply list_elem_of_singleton in Hb as ->; by rewrite Eo..|].
       intros o ->%list_elem_of_singleton. by rewrite Eo. }
  pose proof (Ha a o Eo) as Hoa. unfold written. change (suicided o || _) with (removed o).
  assert (forall s' t enc, stateObjects s' = <[a := final o]> (stateObjects s) -> written o = Some enc ->
    (forall b, TryGet (strie s') b = if decide (b = a) then enc else TryGet t b) -> t = strie s ->
    logs s' = logs s -> logSize s' = logSize s -> preimages s' = preimages s -> nextRevisionId s' = nextRevisionId s ->
    finalised [a] s s') as Hf.
  { intros s' t enc Hos Hw Ht -> Hl Hs Hp Hn. split; try done; intros b; destruct (decide (b = a)) as [->|Hb].
    - by rewrite Hos, lookup_insert_eq, decide_True, Eo by set_solver.
    - by rewrite Hos, lookup_insert_ne, decide_False by set_solver.
    - by rewrite Ht, !decide_True, Eo, Hw by set_solver.
    - by rewrite Ht, !decide_False by set_solver.
    - intros o' _. rewrite Eo. intros [= <-]. by rewrite Hw.
    - set_solver. }
  unfold written, final in Hf. destruct (removed o) eqn:Er.
  - left. eexists. split; [done|]. eapply Hf; try done; simpl; rewrite Hoa; [done|]. intros b. apply get_delete.
  - unfold updateStateObject. destruct (EncodeToBytes _ _) as [enc|] eqn:Ee.
    + left. eexists. split; [done|]. eapply Hf; try done; simpl; rewrite Hoa; [done|]. intros b. apply get_update.
    + right. split; [done|]. exists o. by rewrite Er, Ee.
Qed.

Lemma finalised_cons a l s s1 s2 :
  a ∉ l -> finalised [a] s s1 -> finalised l s1 s2 -> finalised (a :: l) s s2.
Proof.
  intros Ha [O1 T1 W1 L1 S1 P1 N1] [O2 T2 W2 L2 S2 P2 N2].
  split; [| | |congruence..]; intros b; specialize (O1 b); specialize (T1 b).
  - rewrite O2. destruct (decide (b = a)) as [->|Hb].
    + rewrite decide_False by done. rewrite O1, !decide_True by set_solver. done.
    + rewrite O1, (decide_False (P := b ∈ [a])) by set_solver. repeat case_decide; set_solver.
  - rewrite T2. destruct (decide (b = a)) as [->|Hb].
    + rewrite decide_False by done. rewrite T1, !decide_True by set_solver. done.
    + rewrite O1, T1, !(decide_False (P := b ∈ [a])) by set_solver. repeat case_decide; set_solver.
  - intros o [->|Hb]%elem_of_cons; [apply W1; by left|]. rewrite decide_False in O1 by set_solver.
    rewrite <- O1. by apply W2.
Qed.

Lemma finalised_addrs l s s' : addrs s -> finalised l s s' -> addrs s'.
Proof.
  intros Ha Hf a o Ho. rewrite (fi_objects _ _ _ Hf) in Ho. case_decide; [|by apply Ha].
  apply fmap_Some in Ho as (o' & Ho' & ->). rewrite final_address. by apply Ha.
Qed.

Lemma finalise_loop_cases l s :
  addrs s -> NoDup l ->
  (exists s', finalise_loop deleteEmptyObjects l s = Some s' /\ finalised l s s') \/
  finalise_loop deleteEmptyObjects l s = None /\
    exists a o, a ∈ l /\ stateObjects s !! a = Some o /\ written o = None.
Proof.
  revert s. induction l as [|a l IH]; intros s Ha Hn; simpl.
  - left. exists s. split; [done|]. split; try done. by intros a o ?%elem_of_nil.
  - apply NoDup_cons in Hn as [Hal Hn]. destruct (finalise_one_cases a s Ha) as [(s1 & -> & Hf1)|(-> & o & Ho)].
    2: { right. split; [done|]. exists a, o. split; [by left|done]. }
    simpl. destruct (IH s1 (finalised_addrs _ _ _ Ha Hf1) Hn) as [(s2 & -> & Hf2)|(-> & b & o & Hb & Ho & Hw)].
    + left. exists s2. split; [done|]. by apply (finalised_cons a l s s1).
    + right. split; [done|]. exists b, o. split; [by right|]. split; [|done].
      rewrite (fi_objects _ _ _ Hf1), decide_False in Ho; set_solver.
Qed.

(** ** What is left *)

(** The account goes: it is dirty, in the cache, and suicided or empty. *)
Definition gone (s : StateDB) (a : Address) : bool :=
  match dirties s !! a, stateObjects s !! a with
  | Some _, Some o => removed o
  | _, _ => false
  end.

Lemma load_ext t t' a : TryGet t a = TryGet t' a -> load t a = load t' a.
Proof. unfold load. by intros ->. Qed.

Lemma range_dirty s a : a ∈ (range (dirties s)).*1 <-> is_Some (dirties s !! a).
Proof.
  rewrite list_elem_of_fmap. split.
  - intros ((b & n) & -> & Hin%range_elem_of). by exists n.
  - intros [n Hn]. exists (a, n). split; [done|]. by apply range_elem_of.
Qed.

Lemma Finalise_cases s :
  inv s ->
  (exists s', Finalise deleteEmptyObjects s = Some (clearJournalAndRefund s') /\
     finalised (range (dirties s)).*1 s s') \/
  Finalise deleteEmptyObjects s = None /\
    exists a o, is_Some (dirties s !! a) /\ stateObjects s !! a = Some o /\ written o = None.
Proof.
  intros Hi. unfold Finalise. assert (addrs s) as Ha by (intros a o Ho; by apply (inv_objects s Hi)).
  destruct (finalise_loop_cases (range (dirties s)).*1 s Ha (range_NoDup_fst _)) as [(s' & -> & Hf)|(-> & a & o & Hin & Ho)].
  - left. by exists s'.
  - right. split; [done|]. exists a, o. split; [by apply range_dirty|done].
Qed.

Lemma finalised_view s s' a :
  inv s -> finalised (range (dirties s)).*1 s s' ->
  v_acc (view_of s') a = (if gone s a then None else v_acc (view_of s) a) /\
  forall k, v_sto (view_of s') a k = if gone s a then 0%N else v_sto (view_of s) a k.
Proof.
  intros Hi Hf. pose proof (fi_objects _ _ _ Hf a) as HO. pose proof (fi_trie _ _ _ Hf a) as HT.
  unfold gone. simpl. unfold obj_at. rewrite HO. case_decide as Hin.
  - apply range_dirty in Hin as [n ->]. destruct (stateObjects s !! a) as [o|] eqn:Eo; simpl.
    + unfold final. destruct (removed o); simpl; [done|]. destruct (deleted o); [done|]. split; [done|].
      intros k. apply updateRoot_sto. by apply (inv_objects s Hi a).
    + rewrite (load_ext _ _ _ HT). by destruct (dirties s !! a).
  - assert (dirties s !! a = None) as -> by (destruct (dirties s !! a) eqn:E; [destruct Hin; by apply range_dirty|done]).
    by rewrite (load_ext _ _ _ HT).
Qed.

Lemma finalised_inv s s' :
  inv s -> finalised (range (dirties s)).*1 s s' -> inv (clearJournalAndRefund s').
Proof.
  intros Hi Hf. split; simpl.
  - intros a o Ho. rewrite (fi_objects _ _ _ Hf) in Ho. pose proof (fi_trie _ _ _ Hf a) as HT. case_decide as Hin.
    + apply fmap_Some in Ho as (o0 & Ho & ->). destruct (inv_objects s Hi a o0 Ho) as (Ha & Hok & Hd).
      rewrite final_address. split; [done|]. unfold final. rewrite Ho in HT. unfold written in HT.
      destruct (removed o0); (split; [|intros Hdel]).
      * exact Hok.
      * split; [|done]. unfold load. simpl in *. by rewrite HT.
      * intros k v. simpl. by rewrite lookup_empty.
      * destruct (Hd Hdel) as (_ & Hn & _). apply range_dirty in Hin as [? ?]. congruence.
    + destruct (inv_objects s Hi a o Ho) as (? & ? & Hd). split; [done|]. split; [done|]. intros Hdel.
      split; [|done]. simpl. rewrite (load_ext _ _ _ HT). by apply Hd.
  - rewrite (fi_logs _ _ _ Hf). apply Hi.
  - rewrite (fi_logSize _ _ _ Hf). apply Hi.
Qed.

Lemma Finalise_good s s' : good s -> Finalise deleteEmptyObjects s = Some s' -> good s'.
Proof.
  intros [Hi _ _ _] E. destruct (Finalise_cases s Hi) as [(s1 & E1 & Hf)|[? _]]; [|congruence].
  assert (s' = clearJournalAndRefund s1) as -> by congruence.
  split; simpl; [by eapply finalised_inv|done|apply Sorted.SSorted_nil|by intros r ?%elem_of_nil].
Qed.

End accounts.

(** ** The order of the maps *)

Lemma updateRoot_order (R1 R2 : GoRange) o : data (@updateRoot _ _ R1 o) = data (@updateRoot _ _ R2 o).
Proof.
  unfold updateRoot. simpl. f_equal. apply hash_content. intros k. by rewrite !updateTrie_get.
Qed.

Lemma written_order (R1 R2 : GoRange) d o : @written R1 d o = @written R2 d o.
Proof. unfold written. by rewrite (updateRoot_order R1 R2). Qed.

Lemma finalised_order (R1 R2 : GoRange) d s s1 s2 :
  @finalised R1 d (@range R1 _ _ _ _ (dirties s)).*1 s s1 ->
  @finalised R2 d (@range R2 _ _ _ _ (dirties s)).*1 s s2 -> trie_Hash (strie s1) = trie_Hash (strie s2).
Proof.
  intros F1 F2. apply hash_content. intros a. rewrite (fi_trie _ _ _ _ F1), (fi_trie _ _ _ _ F2).
  destruct (decide (is_Some (dirties s !! a))) as [Hd|Hd].
  - rewrite !decide_True by (by apply range_dirty). destruct (stateObjects s !! a); [|done].
    by rewrite (written_order R1 R2).
  - by rewrite !decide_False by (by rewrite range_dirty).
Qed.

Lemma IntermediateRoot_order (R1 R2 : GoRange) d s :
  inv s -> snd <$> @IntermediateRoot _ _ R1 d s = snd <$> @IntermediateRoot _ _ R2 d s.
Proof.
  intros Hi. unfold IntermediateRoot.
  destruct (@Finalise_cases R1 d s Hi) as [(s1 & -> & F1)|(-> & a1 & o1 & Hd1 & Ho1 & Hw1)],
    (@Finalise_cases R2 d s Hi) as [(s2 & E2 & F2)|(E2 & a2 & o2 & Hd2 & Ho2 & Hw2)]; rewrite E2; try done; simpl.
  - f_equal. by apply (finalised_order R1 R2 d s).
  - apply range_dirty in Hd2. destruct (fi_written _ _ _ _ F1 a2 o2) as [? Hw];
      [by apply range_dirty; apply range_dirty in Hd2|done|]. rewrite (written_order R1 R2) in Hw. congruence.
  - apply range_dirty in Hd1. destruct (fi_written _ _ _ _ F2 a1 o1) as [? Hw];
      [by apply range_dirty; apply range_dirty in Hd1|done|]. rewrite (written_order R2 R1) in Hw. congruence.
Qed.

(** ** What was written reads back *)

Definition acc_ok (d : Account) : Prop :=
  in_u64 (Nonce d) /\ 0 <= Balance d < 2 ^ 256 /\ (Root d < 2 ^ 256)%N /\ (CodeHash d < 2 ^ 256)%N.

Lemma BytesToHash_be h : (h < 2 ^ 256)%N -> BytesToHash (be_bytes 32 (Z.of_N h)) = h.
Proof.
  intros Hh. unfold BytesToHash. rewrite be_bytes_length.
  rewrite <- (app_nil_r (be_bytes 32 (Z.of_N h))). rewrite read_be_bytes by lia.
  rewrite Z.mod_small by lia. lia.
Qed.

Lemma enc_str_short b : bytes_ok b -> zlen b <= 32 -> zlen (enc_str b) <= 41.
Proof.
  intros Hb Hl. destruct (self_coded b) eqn:Es.
  - destruct (self_coded_inv b Hb Es) as (x & -> & Hx). rewrite enc_str_byte by done. unfold zlen. simpl. lia.
  - rewrite enc_str_header, zlen_app by done. pose proof (zlen_nonneg b).
    destruct (header_length String (zlen b) 0); [unfold in_u64; lia|lia].
Qed.

Lemma enc_four a b c d :
  bytes_ok a -> bytes_ok b -> bytes_ok c -> bytes_ok d ->
  zlen a <= 32 -> zlen b <= 32 -> zlen c <= 32 -> zlen d <= 32 ->
  zlen (enc_item (Lst [Str a; Str b; Str c; Str d])) < 2 ^ 64.
Proof.
  intros. cbn [enc_item map concat]. rewrite app_nil_r, zlen_app.
  set (c0 := enc_str a ++ _). assert (0 <= zlen c0 <= 164) as Hc.
  { unfold c0. rewrite !zlen_app.
    assert (zlen (enc_str a) <= 41) by (by apply enc_str_short).
    assert (zlen (enc_str b) <= 41) by (by apply enc_str_short).
    assert (zlen (enc_str c) <= 41) by (by apply enc_str_short).
    assert (zlen (enc_str d) <= 41) by (by apply enc_str_short).
    pose proof (zlen_nonneg (enc_str a)).
    pose proof (zlen_nonneg (enc_str b)). pose proof (zlen_nonneg (enc_str c)). pose proof (zlen_nonneg (enc_str d)).
    lia. }
  destruct (header_length List (zlen c0) 0); [unfold in_u64; lia|].
  change (zlen (header List (zlen c0) 0) + zlen c0 < 2 ^ 64). lia.
Qed.

Lemma vAccount_typed d : acc_ok d -> typed dAccount (vAccount d).
Proof.
  intros (Hn & Hb & _). constructor.
  repeat apply List.Forall2_cons; [by constructor|constructor; lia| |constructor; apply be_bytes_wf|constructor].
  rewrite <- (be_bytes_length 32 (Z.of_N (Root d))) at 1. constructor. apply be_bytes_wf.
Qed.

Lemma account_item d :
  0 <= Balance d ->
  item_of (vAccount d) = Ok (Lst [Str (big_Bytes (Nonce d)); Str (big_Bytes (Balance d));
                                  Str (be_bytes 32 (Z.of_N (Root d))); Str (be_bytes 32 (Z.of_N (CodeHash d)))]).
Proof. intros Hb. cbn -[be_bytes big_Bytes]. by rewrite (proj2 (Z.ltb_ge _ _)) by lia. Qed.

Lemma encode_account d :
  acc_ok d -> exists enc, EncodeToBytes (erase dAccount) (vAccount d) = Ok enc /\
    DecodeBytes dAccount enc = Ok (vAccount d) /\ enc <> [].
Proof.
  intros Hd. destruct (typed_carried dAccount _ eq_refl (vAccount_typed d Hd)) as (Hw & it & Ei & Ev).
  assert (zlen (enc_item it) < 2 ^ 64) as Hl.
  { destruct Hd as (Hn & Hb & _ & _). unfold in_u64 in Hn. pose proof (account_item d ltac:(lia)) as Ha.
    rewrite Ha in Ei. replace it with (Lst [Str (big_Bytes (Nonce d)); Str (big_Bytes (Balance d));
      Str (be_bytes 32 (Z.of_N (Root d))); Str (be_bytes 32 (Z.of_N (CodeHash d)))]) by congruence.
    apply enc_four; try apply be_bytes_wf; try apply (wf_str _ (big_Bytes_wf _));
      try (apply big_Bytes_length; change (8 * 32) with 256; lia); unfold zlen; by rewrite be_bytes_length. }
  exists (enc_item it). split; [by apply EncodeToBytes_item; [|apply has_writer_erase|..]|]. split.
  - rewrite <- (app_nil_r (enc_item it)) at 1. rewrite (DecodeBytes_ok dAccount it (vAccount d) []); try done.
    + by eapply item_of_wf.
    + by rewrite app_nil_r.
  - intros E. pose proof (enc_item_nonempty it) as Hne. rewrite E in Hne. simpl in Hne. lia.
Qed.

Lemma load_written t a d enc :
  acc_ok d -> EncodeToBytes (erase dAccount) (vAccount d) = Ok enc -> TryGet t a = enc ->
  load t a = Some (newObject a d).
Proof.
  intros Hd Ee <-. destruct (encode_account d Hd) as (enc & Ee' & Ed & Hne).
  assert (enc = TryGet t a) as -> by congruence. unfold load. destruct (TryGet t a) as [|x l]; [done|].
  rewrite Ed. unfold vAccount. cbv iota beta. destruct Hd as (_ & _ & Hr & Hc). rewrite !BytesToHash_be by done. by destruct d.
Qed.

Lemma slot_reads t k v : (v < 2 ^ 256)%N -> TryGet t k = slot v -> read_trie t k = v.
Proof.
  intros Hv E. unfold read_trie. rewrite E. unfold slot. destruct (N.eqb_spec v 0) as [->|Hv0]; [done|].
  unfold enc_value.
  assert (wf_item (Str (big_Bytes (Z.of_N v)))) as Hw by apply big_Bytes_wf.
  assert (zlen (enc_str (big_Bytes (Z.of_N v))) <= 41) as Hl
    by (apply enc_str_short; [apply (wf_str _ (big_Bytes_wf _))|apply big_Bytes_length; change (8 * 32) with 256; lia]).
  rewrite (EncodeToBytes_item TBytes _ (Str (big_Bytes (Z.of_N v)))); [|apply (wf_str _ Hw)|done|done|cbn [enc_item]; lia].
  pose proof (enc_item_nonempty (Str (big_Bytes (Z.of_N v)))) as Hne.
  pose proof (Split_enc_item (Str (big_Bytes (Z.of_N v))) [] Hw) as Hs. rewrite app_nil_r in Hs.
  specialize (Hs ltac:(cbn [enc_item]; lia)). destruct (enc_item _); [simpl in Hne; lia|]. rewrite Hs.
  unfold BytesToHash. cbn [content_of]. rewrite be_big_Bytes, Z.mod_small by lia. lia.
Qed.

Section persist.
Context `{GoRange} (d : bool).

Lemma acc_ok_updateRoot o : acc_ok (data o) -> acc_ok (data (updateRoot o)).
Proof. intros (? & ? & _ & ?). split; [done|]. split; [done|]. split; [apply hash_range|done]. Qed.

Lemma written_ok o : acc_ok (data o) -> is_Some (written d o).
Proof.
  intros Ho. unfold written. destruct (removed d o); [done|].
  by destruct (encode_account _ (acc_ok_updateRoot o Ho)) as (enc & -> & _).
Qed.

Lemma load_new t a o : load t a = Some o -> o = newObject a (data o).
Proof. unfold load. intros E. repeat case_match; try done; by injection E as <-. Qed.

(** The trie holds what the cache shows. *)
Lemma finalised_load s s1 a :
  inv s -> finalised d (range (dirties s)).*1 s s1 -> is_Some (dirties s !! a) ->
  (forall o, stateObjects s !! a = Some o -> acc_ok (data o)) ->
  load (strie s1) a = (fun o => newObject a (data o)) <$> obj_at s1 a.
Proof.
  intros Hi Hf Ha Hok. pose proof (fi_objects _ _ _ _ Hf a) as HO. pose proof (fi_trie _ _ _ _ Hf a) as HT.
  apply range_dirty in Ha as Hin. rewrite decide_True in HO by done. rewrite decide_True in HT by done. unfold obj_at. rewrite HO.
  destruct (stateObjects s !! a) as [o|] eqn:Eo; cbn [fmap option_fmap option_map].
  - unfold final, written in *. destruct (removed d o); [simpl in *; unfold load; by rewrite HT|].
    destruct (encode_account _ (acc_ok_updateRoot o (Hok o eq_refl))) as (enc & Ee & _). rewrite Ee in HT.
    rewrite (load_written _ a _ enc (acc_ok_updateRoot o (Hok o eq_refl)) Ee HT).
    change (deleted (updateRoot o)) with (deleted o). destruct (deleted o) eqn:Hd; [|done]. destruct (inv_objects s Hi a o Eo) as (_ & _ & Hdead).
    destruct (Hdead Hd) as (_ & Hn & _). destruct Ha. congruence.
  - destruct (load (strie s1) a) eqn:El; [|done]. simpl. f_equal. by eapply load_new.
Qed.

(** The storage trie holds the values that were set. *)
Lemma finalised_slot s s1 a o' k v :
  finalised d (range (dirties s)).*1 s s1 -> is_Some (dirties s !! a) ->
  stateObjects s1 !! a = Some o' -> removed d o' = false -> (v < 2 ^ 256)%N ->
  (forall o, stateObjects s !! a = Some o -> dirtyStorage o !! k = Some v) ->
  read_trie (getTrie o') k = v.
Proof.
  intros Hf Ha%range_dirty Ho Hr Hv Hd. rewrite (fi_objects _ _ _ _ Hf), decide_True in Ho by done.
  apply fmap_Some in Ho as (o & Ho & ->). apply slot_reads; [done|]. unfold final in *.
  destruct (removed d o) eqn:Er; [change (removed d o = false) in Hr; congruence|].
  change (getTrie (updateRoot o)) with (getTrie (updateTrie o)). rewrite updateTrie_get. unfold slots.
  by rewrite (Hd o Ho).
Qed.

End persist.

(** What the readers of an account return. *)
Definition account_reads (a : Address) (s : StateDB) :=
  ((Exist a s).2, (GetBalance a s).2, (GetNonce a s).2, (GetCodeHash a s).2).

Lemma account_reads_eq a s :
  account_reads a s = match obj_at s a with
                      | Some o => (true, Balance (data o), Nonce (data o), CodeHash (data o))
                      | None => (false, 0, NonceAddOne, 0%N)
                      end.
Proof.
  unfold account_reads, Exist, GetBalance, GetNonce, GetCodeHash. destruct (getStateObject a s) as [s1 r] eqn:Eg.
  rewrite (getStateObject_obj _ _ _ _ Eg). by destruct (obj_at s a).
Qed.

End StateRoot.
End StateRoot.
