(* ===== verification/StateRun.v ===== *)
(** * Transactions over the state database

    The calls of StateDB.v in any order, over any number of transactions: what
    a revert restores, which calls panic. *)

From S2P Require Import Prelude Common Rlp Crypto RlpDecode Deposit StateDB Snapshot StateRoot.

Module StateRun.
Import Rlp RlpDecode StateDB Snapshot StateRoot.
Section StateRun.
Context `{Crypto} `{TrieLaws} `{GoRange}.

(** ** Runs *)

(** The calls that a transaction makes.  [OLookup] stands for the readers that
    only look an account up: [Exist], [Empty], [GetBalance], [GetNonce],
    [GetCodeHash], [HasSuicided]. *)
Inductive op :=
| OCreateAccount (a : Address)
| OAddBalance (a : Address) (amount : Z)
| OSubBalance (a : Address) (amount : Z)
| OSetBalance (a : Address) (amount : Z)
| OSetNonce (a : Address) (nonce : Z)
| OSetCode (a : Address) (c : list Z)
| OSetState (a : Address) (key value : Hash)
| OSuicide (a : Address)
| OAddRefund (gas : Z)
| OAddLog (content : list Z)
| OAddPreimage (h : Hash) (preimage : list Z)
| OPrepare (th bh : Hash) (ti : Z)
| OLookup (a : Address)
| OGetCode (a : Address)
| OGetState (a : Address) (key : Hash)
| OSnapshot
| ORevertToSnapshot (revid : Z)
| OFinalise (deleteEmptyObjects : bool).

Definition exec (o : op) (s : StateDB) : option StateDB :=
  match o with
  | OCreateAccount a => Some (CreateAccount a s)
  | OAddBalance a n => Some (AddBalance a n s)
  | OSubBalance a n => Some (SubBalance a n s)
  | OSetBalance a n => Some (SetBalance a n s)
  | OSetNonce a n => Some (SetNonce a n s)
  | OSetCode a c => Some (SetCode a c s)
  | OSetState a k v => Some (SetState a k v s)
  | OSuicide a => Some (Suicide a s).1
  | OAddRefund g => Some (AddRefund g s)
  | OAddLog c => Some (AddLog c s)
  | OAddPreimage h p => Some (AddPreimage h p s)
  | OPrepare th bh ti => Some (Prepare th bh ti s)
  | OLookup a => Some (getStateObject a s).1
  | OGetCode a => Some (GetCode a s).1
  | OGetState a k => Some (GetState a k s).1
  | OSnapshot => Some (Snapshot s).1
  | ORevertToSnapshot id => RevertToSnapshot id s
  | OFinalise d => Finalise d s
  end.

Fixpoint run (os : list op) (s : StateDB) : option StateDB :=
  match os with
  | [] => Some s
  | o :: os => s ← exec o s; run os s
  end.

Definition plain (o : op) : bool :=
  match o with OSnapshot | ORevertToSnapshot _ | OFinalise _ => false | _ => true end.

Lemma exec_evolves o s : inv s -> plain o = true -> exists s', exec o s = Some s' /\ evolves s s'.
Proof.
  intros Hi Hp. destruct o as [a|a n|a n|a n|a n|a c|a k v|a|g|c|h p|th bh ti|a|a|a k| |id|d]; try done;
    (eexists; split; [done|]); cbn [exec].
  - by apply evolves_CreateAccount.
  - apply evolves_on; auto using evolves_AddBalance.
  - apply evolves_on; auto using evolves_SubBalance.
  - apply evolves_on; auto using evolves_SetBalance.
  - apply (evolves_on a s (obj_SetNonce (Z.lor n NonceAddOne))); auto using evolves_SetNonce.
  - apply (evolves_on a s (obj_SetCode (Keccak256 c) c)); auto using evolves_SetCode.
  - apply evolves_on; auto using evolves_SetState.
  - by apply evolves_Suicide.
  - by apply evolves_AddRefund.
  - by apply evolves_AddLog.
  - by apply evolves_AddPreimage.
  - apply evolves_quiet; try done. destruct Hi; by split.
  - destruct (getStateObject a s) as [s1 p] eqn:Eg. by destruct (evolves_get a s s1 p Hi Eg).
  - by apply evolves_GetCode.
  - by apply evolves_GetState.
Qed.

(** The revision [id] is there and would show [V]. *)
Definition kept (id : Z) (V : view) (s : StateDB) : Prop :=
  exists n, (id, n) ∈ validRevisions s /\ rev_ok s (id, n) V.

(** The call does not revert to [id] or before it, and does not end the
    transaction. *)
Definition after (id : Z) (o : op) : bool :=
  match o with ORevertToSnapshot i => id <? i | OFinalise _ => false | _ => true end.

Lemma exec_good o s s' :
  good s -> exec o s = Some s' ->
  good s' /\ forall id V, after id o = true -> kept id V s -> kept id V s'.
Proof.
  intros Hg E. destruct (plain o) eqn:Hp.
  - destruct (exec_evolves o s (g_inv s Hg) Hp) as (s1 & E1 & Hev). assert (s1 = s') as -> by congruence.
    split; [by apply (evolves_good s)|]. intros id V _ (n & Hin & Hr). exists n.
    rewrite (ev_revisions _ _ Hev). split; [done|].
    apply (evolves_rev s); [done| |done]. by apply (g_revisions s Hg).
  - destruct o as [| | | | | | | | | | | | | | | |i|d]; try done; simpl in E.
    + injection E as <-. split; [by apply snapshot_good|]. intros id V _ (n & Hin & Hr). exists n.
      split; [simpl; apply elem_of_app; by left|done].
    + destruct (revert_found i s s' E) as [n Hin]. destruct (revert_good i n s Hg Hin) as (s1 & E1 & Hg1 & _ & Hk).
      assert (s1 = s') as -> by congruence. split; [done|]. intros id V Hid%Z.ltb_lt (m & Hm & Hr).
      destruct (Hk (id, m) Hm Hid) as [? ?]. exists m. auto.
    + split; [by eapply Finalise_good|done].
Qed.

Lemma run_good os s s' :
  good s -> run os s = Some s' ->
  good s' /\ forall id V, forallb (after id) os = true -> kept id V s -> kept id V s'.
Proof.
  revert s. induction os as [|o os IH]; intros s Hg E; simpl in *; [by injection E as <-|].
  apply bind_Some in E as (s1 & E1 & E). destruct (exec_good o s s1 Hg E1) as [Hg1 Hk1].
  destruct (IH s1 Hg1 E) as [Hg2 Hk2]. split; [done|]. intros id V [Ho Hos]%andb_true_iff Hk. auto.
Qed.

Lemma after_snapshot s s1 id os s2 :
  good s -> Snapshot s = (s1, id) -> run os s1 = Some s2 -> forallb (after id) os = true ->
  exists s3, RevertToSnapshot id s2 = Some s3 /\ good s3 /\ same (view_of s3) (view_of s).
Proof.
  intros Hg E Hr Ha. assert (s1 = (Snapshot s).1 /\ id = nextRevisionId s) as [-> ->] by (by injection E as <- <-).
  destruct (run_good os _ s2 (snapshot_good s Hg) Hr) as [Hg2 Hk].
  destruct (Hk _ (view_of s) Ha) as (n & Hin & Hrev).
  { exists (length (entries s)). split; [|apply snapshot_rev]. simpl. apply elem_of_app. right. by left. }
  destruct (revert_good _ n s2 Hg2 Hin) as (s3 & Hs3 & Hg3 & Hv & _). exists s3. auto.
Qed.

(** C11: from a new database, whatever calls transactions make before a snapshot
    and this one makes after it, nested snapshots and reverts to them included, as long as it
    does not revert to this one or an earlier one or end the transaction, [RevertToSnapshot] does not
    panic and every account, every storage slot, the refund, the logs and the
    preimages read as they did when the snapshot was taken. *)
Theorem snapshot_restores t os1 s s1 id os2 s2 :
  run os1 (New t) = Some s -> Snapshot s = (s1, id) ->
  run os2 s1 = Some s2 -> forallb (after id) os2 = true ->
  exists s3, RevertToSnapshot id s2 = Some s3 /\
    (forall a k, reads a k s3 = reads a k s) /\ GetRefund s3 = GetRefund s /\
    logs s3 = logs s /\ logSize s3 = logSize s /\ preimages s3 = preimages s.
Proof.
  intros H3 H4 H5 H6. destruct (run_good os1 _ s (good_New t) H3) as [Hg _].
  destruct (after_snapshot s s1 id os2 s2 Hg H4 H5 H6) as (s3 & Hs3 & Hg3 & Hv). exists s3. split; [done|].
  split; [|destruct Hv as (_ & _ & ? & ? & ? & ?); done].
  intros a k. rewrite !reads_eq. by apply readers_same.
Qed.

(** In a run from a new database no call but the end of a transaction panics,
    except a revert to an id that no snapshot gave or that an earlier revert or
    the end of the transaction removed. *)
Theorem only_invalid_revert_panics t os s o :
  run os (New t) = Some s -> (forall d, o <> OFinalise d) ->
  exec o s = None <-> exists id, o = ORevertToSnapshot id /\ id ∉ (validRevisions s).*1.
Proof.
  intros Hr Ho. destruct (run_good os _ s (good_New t) Hr) as [Hg _]. split.
  - intros E. destruct (plain o) eqn:Hp.
    + destruct (exec_evolves o s (g_inv s Hg) Hp) as (s1 & E1 & _). congruence.
    + destruct o as [| | | | | | | | | | | | | | | |i|d]; try done; [|by destruct (Ho d)]. exists i. split; [done|].
      intros ((i' & n) & -> & Hin)%list_elem_of_fmap. destruct (revert_good i' n s Hg Hin) as (s1 & E1 & _).
      simpl in E. congruence.
  - intros (id & -> & Hn). simpl. destruct (RevertToSnapshot id s) as [s'|] eqn:E; [|done].
    destruct Hn. destruct (revert_found id s s' E) as [n Hin]. apply list_elem_of_fmap. by exists (id, n).
Qed.

(** ** The end of a transaction *)

Definition absent := (false, true, 0, NonceAddOne, @nil Z, 0%N : Hash, 0%N : Hash, false).

(** At the end of a transaction exactly the dirty accounts that were suicided,
    or are empty when empty accounts are to go, read as absent; every other account
    and slot, the logs and the preimages read as before; the refund is zero and no
    snapshot is left. *)
Theorem Finalise_reads t os s d s' :
  run os (New t) = Some s -> Finalise d s = Some s' ->
  (forall a k, reads a k s' = if gone d s a then absent else reads a k s) /\
  GetRefund s' = 0 /\ logs s' = logs s /\ logSize s' = logSize s /\ preimages s' = preimages s /\
  entries s' = [] /\ validRevisions s' = [].
Proof.
  intros H3 E. destruct (run_good os _ s (good_New t) H3) as [[Hi _ _ _] _].
  destruct (Finalise_cases d s Hi) as [(s1 & E1 & Hf)|[? _]]; [|congruence].
  assert (s' = clearJournalAndRefund s1) as -> by congruence. split.
  - intros a k. rewrite !reads_eq. destruct (finalised_view d s s1 a Hi Hf) as [Ha Hs]. unfold reads_view.
    change (view_of (clearJournalAndRefund s1)) with (upd_refund 0 (view_of s1)). cbn [upd_refund v_acc v_sto].
    rewrite Ha, Hs. by destruct (gone d s a).
  - destruct Hf. by split_and!.
Qed.

(** C13: the state root of a block does not depend on the order in which Go ranges
    over the dirty accounts and over the dirty slots of each, so nodes that run the
    same calls compute the same root. *)
Theorem root_order_independent t os s d (R1 R2 : GoRange) :
  run os (New t) = Some s ->
  snd <$> @IntermediateRoot _ _ R1 d s = snd <$> @IntermediateRoot _ _ R2 d s.
Proof.
  intros Hr. destruct (run_good os _ s (good_New t) Hr) as [[Hi _ _ _] _]. by apply IntermediateRoot_order.
Qed.

(** C20: when every dirty account is in range, the end of the transaction does not
    panic and writes them all: a database opened on the new account trie reads each
    dirty account as this one does, and the storage trie of each account that stays
    holds every value that was set. *)
Theorem Finalise_persists t os s d :
  run os (New t) = Some s ->
  (forall a o, is_Some (dirties s !! a) -> stateObjects s !! a = Some o -> acc_ok (data o)) ->
  exists s', Finalise d s = Some s' /\
    forall a, is_Some (dirties s !! a) ->
      account_reads a (New (strie s')) = account_reads a s' /\
      forall o o' k v, stateObjects s !! a = Some o -> stateObjects s' !! a = Some o' ->
        removed d o' = false -> dirtyStorage o !! k = Some v -> (v < 2 ^ 256)%N ->
        read_trie (getTrie o') k = v.
Proof.
  intros H3 Hok. destruct (run_good os _ s (good_New t) H3) as [[Hi _ _ _] _].
  destruct (Finalise_cases d s Hi) as [(s1 & E1 & Hf)|(_ & a & o & Ha & Ho & Hw)].
  2: { destruct (written_ok d o (Hok a o Ha Ho)). congruence. }
  exists (clearJournalAndRefund s1). split; [done|]. intros a Ha. split.
  - rewrite !account_reads_eq. change (obj_at (clearJournalAndRefund s1) a) with (obj_at s1 a).
    unfold obj_at at 1. simpl. rewrite lookup_empty, (finalised_load d s s1 a Hi Hf Ha (fun o => Hok a o Ha)).
    by destruct (obj_at s1 a).
  - intros o o' k v Ho Ho' Hr Hv Hlt. apply (finalised_slot d s s1 a); try done. congruence.
Qed.

End StateRun.

(** ** Tries as finite maps *)

Definition map_hash (t : gmap N (list Z)) : Hash :=
  (map_fold (fun k v h => k + Z.to_N (be v) + h) 0 (filter (fun kv => kv.2 <> []) t) mod 2 ^ 256)%N.

#[local] Instance map_tries : Tries := {|
  trie := gmap N (list Z);
  TryGet t k := default [] (t !! k);
  TryUpdate t k v := <[k := v]> t;
  TryDelete t k := delete k t;
  trie_Hash := map_hash;
  OpenStorageTrie _ _ := ∅;
  ContractCode _ _ := []
|}.

#[local] Instance map_trie_laws : TrieLaws.
Proof.
  split; simpl.
  - intros t k v k'. case_decide; [subst; by rewrite lookup_insert_eq|by rewrite lookup_insert_ne].
  - intros t k k'. case_decide; [subst; by rewrite lookup_delete_eq|by rewrite lookup_delete_ne].
  - intros t. apply N.mod_lt. done.
  - intros t t' Ht. unfold map_hash. do 2 f_equal. apply map_eq. intros k. apply option_eq. intros v.
    rewrite !map_lookup_filter_Some. specialize (Ht k). simpl.
    split; intros [Hk Hv]; split; try done; rewrite Hk in Ht; simpl in Ht;
      [destruct (t' !! k)|destruct (t !! k)]; simpl in Ht; congruence.
  - intros ah k. by rewrite lookup_empty.
Qed.

#[local] Instance the_crypto : Crypto := Signature.toy_crypto.
#[local] Instance the_range : GoRange := sorted_range.

(** Two transactions, the second with a nested call that is undone. *)
Definition first_tx : list op :=
  [OAddBalance 7%N 100; OSetCode 7%N [96; 0]; OSetState 7%N 1%N 5%N; OAddBalance 9%N 1; OFinalise true;
   OSetNonce 7%N 3; OSuicide 9%N].
Definition second_call : list op :=
  [OSubBalance 7%N 30; OSetState 7%N 1%N 0%N; OAddLog [1]; OSnapshot; OCreateAccount 7%N; OAddBalance 11%N 30;
   OAddRefund 5; ORevertToSnapshot 1; OAddPreimage 4%N [2]; OSuicide 7%N].

Definition before : StateDB.StateDB := default (New ∅) (run first_tx (New ∅)).
Definition later : StateDB.StateDB := default (New ∅) (run second_call (Snapshot before).1).

Definition ran {A} (x : option A) : bool := match x with Some _ => true | None => false end.

Lemma ran_default {A} (x : option A) d : ran x = true -> x = Some (default d x).
Proof. by destruct x. Qed.

Lemma first_runs : run first_tx (New ∅) = Some before.
Proof. apply ran_default. by vm_compute. Qed.

Lemma second_runs : run second_call (Snapshot before).1 = Some later.
Proof. apply ran_default. by vm_compute. Qed.

#[local] Opaque before later.

Lemma first_next : nextRevisionId before = 0.
Proof. by vm_compute. Qed.

Lemma run_app os os' s s' : run os s = Some s' -> run (os ++ os') s = run os' s'.
Proof.
  revert s. induction os as [|o os IH]; intros s; simpl; [by intros [= <-]|].
  destruct (exec o s); simpl; [apply IH|done].
Qed.

Lemma run_snapshot os s : run (OSnapshot :: os) s = run os (Snapshot s).1.
Proof. done. Qed.

Lemma both_run : run (first_tx ++ OSnapshot :: second_call) (New ∅) = Some later.
Proof. rewrite (run_app _ _ _ _ first_runs), run_snapshot. exact second_runs. Qed.

Lemma snapshot_restores_witness :
  exists s3, RevertToSnapshot 0 later = Some s3 /\ (forall a k, reads a k s3 = reads a k before) /\
    GetRefund s3 = 0 /\ logs s3 = ∅ /\ logSize s3 = 0 /\ preimages s3 = ∅.
Proof.
  destruct (snapshot_restores (∅ : trie) first_tx before (Snapshot before).1 0 second_call later)
    as (s3 & ? & ? & ? & ? & ? & ?); [apply first_runs|by rewrite <- first_next|apply second_runs|by vm_compute|].
  exists s3. split; [done|]. split; [done|]. split; [|split; [|split]]; (etransitivity; [eassumption|by vm_compute]).
Defined.

Lemma only_invalid_revert_panics_witness :
  exec (ORevertToSnapshot 1) later = None <->
  exists id, ORevertToSnapshot 1 = ORevertToSnapshot id /\ id ∉ (validRevisions later).*1.
Proof.
  apply (only_invalid_revert_panics (∅ : trie) (first_tx ++ OSnapshot :: second_call)); [exact both_run|done].
Defined.

Lemma Finalise_reads_witness :
  exists s', Finalise true before = Some s' /\
    reads 9%N 0%N s' = absent /\ reads 7%N 1%N s' = reads 7%N 1%N before.
Proof.
  assert (Finalise true before = Some (default before (Finalise true before))) as E
    by (apply ran_default; by vm_compute).
  set (s' := default before (Finalise true before)) in E.
  destruct (Finalise_reads (∅ : trie) first_tx before true s' first_runs E) as [Hr _].
  exists s'. split; [done|]. split; rewrite Hr; by vm_compute.
Defined.

Definition reverse_range : GoRange :=
  {| range := fun K V _ _ m => reverse (map_to_list m);
     range_perm := fun K V _ _ m => reverse_Permutation _ |}.

Lemma root_order_independent_witness :
  snd <$> IntermediateRoot true before = snd <$> @IntermediateRoot _ _ reverse_range true before.
Proof. apply (root_order_independent (∅ : trie) first_tx before true the_range reverse_range first_runs). Defined.

Definition acc_okb (d : Account) : bool :=
  (0 <=? Nonce d) && (Nonce d <? 2 ^ 64) && (0 <=? Balance d) && (Balance d <? 2 ^ 256) &&
  (Root d <? 2 ^ 256)%N && (CodeHash d <? 2 ^ 256)%N.

Lemma before_in_range a o : stateObjects before !! a = Some o -> acc_ok (data o).
Proof.
  intros Ho. assert (forallb (fun p => acc_okb (data p.2)) (map_to_list (stateObjects before)) = true) as Hall
    by (by vm_compute).
  rewrite forallb_forall in Hall. specialize (Hall (a, o)). rewrite <- list_elem_of_In, elem_of_map_to_list in Hall.
  specialize (Hall Ho). unfold acc_okb, acc_ok, in_u64 in *. simpl in Hall. rewrite !andb_true_iff, !Z.leb_le, !Z.ltb_lt, !N.ltb_lt in Hall. tauto.
Qed.

Lemma Finalise_persists_witness :
  exists s', Finalise true before = Some s' /\
    account_reads 7%N (New (strie s')) = account_reads 7%N s' /\
    account_reads 9%N (New (strie s')) = account_reads 9%N s'.
Proof.
  destruct (Finalise_persists (∅ : trie) first_tx before true first_runs) as (s' & E & Hp).
  { intros a o _. apply before_in_range. }
  exists s'. split; [done|]. split; apply Hp; apply (bool_decide_unpack _); by vm_compute.
Defined.

(** ** Two consequences *)

(** A new account is never empty: the flag in its nonce counts. *)
Lemma created_not_empty a s : empty (createObject a s).1.2 = false.
Proof. unfold createObject. by destruct (getStateObject a s). Qed.

Lemma touched_account_stays :
  (fun s => (Exist 5%N s).2) <$> run [OAddBalance 5%N 0; OFinalise true] (New ∅) = Some true.
Proof. by vm_compute. Qed.

(** An account made over an old one is not marked dirty: the end of the
    transaction does not write it. *)
Lemma reset_not_written :
  (fun s => ((GetCodeHash 7%N s).2 =? (GetCodeHash 7%N (New (strie s))).2)%N)
    <$> run (first_tx ++ [OFinalise true; OCreateAccount 7%N; OFinalise true]) (New ∅) = Some false.
Proof. by vm_compute. Qed.

(** The copy shows the old account. *)
Lemma copy_loses_reset :
  (fun s => (fun s' => ((GetCodeHash 7%N s).2 =? (GetCodeHash 7%N s').2)%N) <$> Copy s)
    <$> run [OCreateAccount 7%N] (New (default ∅ (strie <$> Finalise true before))) = Some (Some false).
Proof. by vm_compute. Qed.

End StateRun.
