(* ===== verification/EvmWord.v ===== *)
(** * 256-bit words

    Models common/math/big.go and integer.go as far as the virtual machine uses
    them, and the arithmetic of core/vm/instructions.go on operands taken from
    the stack.  The theorem compares each operation with its meaning on unsigned
    and two's complement numbers. *)

From S2P Require Import Prelude Rlp.

Module Word.

Definition tt255 : Z := 2 ^ 255.
Definition tt256 : Z := 2 ^ 256.
Definition tt256m1 : Z := 2 ^ 256 - 1.
Definition MaxUint64 : Z := 2 ^ 64 - 1.

(** ** common/math *)

Definition U256 (x : Z) : Z := Z.land x tt256m1.

Definition S256 (x : Z) : Z := if x <? tt255 then x else x - tt256.

(** [Int.Bits]: the absolute value in words of 64 bits, the lowest first. *)
Definition Bits (x : Z) : list Z :=
  map (fun i => Z.abs x / 2 ^ (64 * Z.of_nat i) mod 2 ^ 64)
    (seq 0 (if x =? 0 then 0 else Z.to_nat (Z.log2 (Z.abs x) / 64 + 1))).

(** [Int.BitLen] *)
Definition BitLen (x : Z) : Z := if x =? 0 then 0 else Z.log2 (Z.abs x) + 1.

(** The 64 rounds on one word of the exponent. *)
Fixpoint exp_word (n : nat) (word result base : Z) : Z * Z :=
  match n with
  | O => (result, base)
  | S n =>
      let result := if Z.land word 1 =? 1 then U256 (result * base) else result in
      exp_word n (Z.shiftr word 1) result (U256 (base * base))
  end.

Definition Exp (base exponent : Z) : Z :=
  (foldl (fun '(result, base) word => exp_word 64 word result base) (1, base) (Bits exponent)).1.

Definition bigEndianByteAt (x : Z) (n : Z) : Z :=
  match Bits x !! Z.to_nat (n / 8) with
  | None => 0
  | Some word => Z.shiftr word (8 * (n mod 8)) mod 256
  end.

Definition Byte (x padlength n : Z) : Z :=
  if padlength <=? n then 0 else bigEndianByteAt x (padlength - 1 - n).

Definition SafeAdd (x y : Z) : Z * bool := (u64 (x + y), MaxUint64 - x <? y).

Definition SafeMul (x y : Z) : Z * bool :=
  if (x =? 0) || (y =? 0) then (0, false) else (u64 (x * y), MaxUint64 / x <? y).

(** ** The operations on words *)

Definition of_bool (b : bool) : Z := if b then 1 else 0.

Definition add (x y : Z) : Z := U256 (x + y).
Definition sub (x y : Z) : Z := U256 (x - y).
Definition mul (x y : Z) : Z := U256 (x * y).
Definition div (x y : Z) : Z := if y =? 0 then 0 else U256 (x / y).

Definition sdiv (a b : Z) : Z :=
  let x := S256 a in
  let y := S256 b in
  if (y =? 0) || (x =? 0) then 0
  else if negb (Z.sgn x =? Z.sgn y) then U256 (- (Z.abs x / Z.abs y))
  else U256 (Z.abs x / Z.abs y).

Definition mod_ (x y : Z) : Z := if y =? 0 then 0 else U256 (x mod y).

Definition smod (a b : Z) : Z :=
  let x := S256 a in
  let y := S256 b in
  if y =? 0 then 0
  else if x <? 0 then U256 (- (Z.abs x mod Z.abs y))
  else U256 (Z.abs x mod Z.abs y).

Definition addmod (x y z : Z) : Z := if 0 <? z then U256 ((x + y) mod z) else 0.
Definition mulmod (x y z : Z) : Z := if 0 <? z then U256 ((x * y) mod z) else 0.

(** The word under [back], once [back] is below 31. *)
Definition signextend (back num : Z) : Z :=
  let bit := back * 8 + 7 in
  let mask := Z.shiftl 1 bit - 1 in
  U256 (if Z.testbit num bit then Z.lor num (Z.lnot mask) else Z.land num mask).

Definition not (x : Z) : Z := U256 (Z.lnot x).
Definition lt (x y : Z) : Z := of_bool (x <? y).
Definition gt (x y : Z) : Z := of_bool (y <? x).

Definition slt (x y : Z) : Z :=
  if (tt255 <=? x) && (y <? tt255) then 1
  else if (x <? tt255) && (tt255 <=? y) then 0
  else of_bool (x <? y).

Definition sgt (x y : Z) : Z :=
  if (tt255 <=? x) && (y <? tt255) then 0
  else if (x <? tt255) && (tt255 <=? y) then 1
  else of_bool (y <? x).

Definition eq (x y : Z) : Z := of_bool (x =? y).
Definition iszero (x : Z) : Z := of_bool (negb (0 <? x)).
Definition and (x y : Z) : Z := Z.land x y.
Definition or (x y : Z) : Z := Z.lor x y.
Definition xor (x y : Z) : Z := Z.lxor x y.
Definition byte (th val : Z) : Z := if th <? 32 then Byte val 32 th else 0.

Definition shl (shift value : Z) : Z :=
  if 256 <=? U256 shift then 0 else U256 (Z.shiftl (U256 value) (U256 shift)).
Definition shr (shift value : Z) : Z :=
  if 256 <=? U256 shift then 0 else U256 (Z.shiftr (U256 value) (U256 shift)).
Definition sar (shift value : Z) : Z :=
  let v := S256 value in
  if 256 <=? U256 shift then U256 (if 0 <? v then 0 else -1)
  else U256 (Z.shiftr v (U256 shift)).

(** ** What they mean *)

Definition word (x : Z) : Prop := 0 <= x < 2 ^ 256.

(** The two's complement reading of a word, and the word of a number. *)
Definition signed (x : Z) : Z := (x + 2 ^ 255) mod 2 ^ 256 - 2 ^ 255.
Definition wrap (z : Z) : Z := z mod 2 ^ 256.

Lemma U256_wrap x : U256 x = wrap x.
Proof. unfold U256, wrap. change tt256m1 with (Z.ones 256). by rewrite Z.land_ones. Qed.

Lemma U256_range x : word (U256 x).
Proof. rewrite U256_wrap. unfold word, wrap. apply Z.mod_pos_bound. lia. Qed.

Lemma wrap_small x : word x -> wrap x = x.
Proof. apply Z.mod_small. Qed.

Lemma U256_small x : word x -> U256 x = x.
Proof. rewrite U256_wrap. apply wrap_small. Qed.

Lemma S256_signed x : word x -> S256 x = signed x.
Proof.
  unfold word, S256, signed, tt255, tt256. intros Hx.
  change (2 ^ 256) with (2 * 2 ^ 255) in *. set (h := 2 ^ 255) in *. assert (0 < h) by (unfold h; lia).
  destruct (Z.ltb_spec x h).
  - rewrite Z.mod_small by lia. lia.
  - replace ((x + h) mod (2 * h)) with (x + h - 2 * h); [lia|].
    apply Zmod_unique with 1; lia.
Qed.

Lemma signed_range x : - 2 ^ 255 <= signed x < 2 ^ 255.
Proof.
  unfold signed. pose proof (Z.mod_pos_bound (x + 2 ^ 255) (2 ^ 256)).
  change (2 ^ 256) with (2 * 2 ^ 255) in *. lia.
Qed.

Lemma sdiv_spec x y :
  word x -> word y -> sdiv x y = if y =? 0 then 0 else wrap (Z.quot (signed x) (signed y)).
Proof.
  intros Hx Hy. unfold sdiv. rewrite !S256_signed, !U256_wrap by done.
  pose proof (S256_signed y Hy) as Sy. set (a := signed x) in *. set (b := signed y) in *.
  assert (b = 0 <-> y = 0) as Hb.
  { rewrite <- Sy. unfold S256, word, tt255, tt256 in *. destruct (Z.ltb_spec y (2 ^ 255)); lia. }
  destruct (Z.eqb_spec y 0) as [E|E]; [by rewrite (proj2 (Z.eqb_eq _ _) (proj2 Hb E))|].
  assert (b <> 0) by tauto. rewrite (proj2 (Z.eqb_neq b 0)) by done. simpl.
  destruct (Z.eqb_spec a 0) as [->|Ha]; [by rewrite Z.quot_0_l|].
  rewrite <- Z.quot_div_nonneg by lia. rewrite Z.quot_abs by done.
  assert (0 < Z.abs b) by lia.
  destruct (Z.eqb_spec (Z.sgn a) (Z.sgn b)) as [Es|Es]; simpl; f_equal.
  - apply Z.abs_eq.
    destruct (Z.lt_ge_cases 0 a); [apply Z.quot_pos; lia|].
    rewrite <- Z.quot_opp_opp by done. apply Z.quot_pos; lia.
  - assert (Z.quot a b <= 0) as Hq.
    { destruct (Z.lt_ge_cases 0 a).
      - assert (Z.quot a (- b) >= 0) by (apply Z.le_ge, Z.quot_pos; lia). rewrite Z.quot_opp_r in * by done. lia.
      - assert (Z.quot (- a) b >= 0) by (apply Z.le_ge, Z.quot_pos; lia). rewrite Z.quot_opp_l in * by done. lia. }
    lia.
Qed.

Lemma smod_spec x y :
  word x -> word y -> smod x y = if y =? 0 then 0 else wrap (Z.rem (signed x) (signed y)).
Proof.
  intros Hx Hy. unfold smod. rewrite !S256_signed, !U256_wrap by done.
  pose proof (S256_signed y Hy) as Sy. set (a := signed x) in *. set (b := signed y) in *.
  assert (b = 0 <-> y = 0) as Hb.
  { rewrite <- Sy. unfold S256, word, tt255, tt256 in *. destruct (Z.ltb_spec y (2 ^ 255)); lia. }
  destruct (Z.eqb_spec y 0) as [E|E]; [by rewrite (proj2 (Z.eqb_eq _ _) (proj2 Hb E))|].
  assert (b <> 0) by tauto. rewrite (proj2 (Z.eqb_neq b 0)) by done.
  rewrite <- Z.rem_mod_nonneg by lia. rewrite Z.rem_abs_r by done.
  destruct (Z.ltb_spec a 0).
  - rewrite (Z.abs_neq a), Z.rem_opp_l by lia. f_equal. lia.
  - by rewrite (Z.abs_eq a) by lia.
Qed.

Lemma signed_lt x y :
  word x -> word y -> (signed x <? signed y) = if (tt255 <=? x) && (y <? tt255) then true
    else if (x <? tt255) && (tt255 <=? y) then false else x <? y.
Proof.
  intros Hx Hy. rewrite <- !S256_signed by done. unfold word, S256, tt255, tt256 in *.
  change (2 ^ 256) with (2 * 2 ^ 255) in *. set (h := 2 ^ 255) in *.
  destruct (Z.ltb_spec x h), (Z.ltb_spec y h), (Z.leb_spec h x), (Z.leb_spec h y); try lia; simpl; try done;
    try (apply Z.ltb_lt; lia); try (apply Z.ltb_ge; lia).
  destruct (Z.ltb_spec x y); [apply Z.ltb_lt|apply Z.ltb_ge]; lia.
Qed.

Lemma slt_spec x y : word x -> word y -> slt x y = of_bool (signed x <? signed y).
Proof. intros Hx Hy. rewrite signed_lt by done. unfold slt. by repeat case_match. Qed.

Lemma sgt_spec x y : word x -> word y -> sgt x y = of_bool (signed y <? signed x).
Proof.
  intros Hx Hy. rewrite signed_lt by done. unfold sgt. rewrite (andb_comm (x <? tt255)), (andb_comm (tt255 <=? x)).
  destruct (Z.leb_spec tt255 y), (Z.ltb_spec x tt255), (Z.leb_spec tt255 x), (Z.ltb_spec y tt255); simpl; try done; lia.
Qed.

Lemma shl_spec s x : word s -> word x -> shl s x = wrap (x * 2 ^ s).
Proof.
  intros Hs Hx. unfold shl. rewrite !(U256_small s), (U256_small x), U256_wrap by done.
  destruct (Z.leb_spec 256 s).
  - unfold wrap. replace s with (256 + (s - 256)) by lia. rewrite Z.pow_add_r by lia.
    replace (x * (2 ^ 256 * 2 ^ (s - 256))) with (x * 2 ^ (s - 256) * 2 ^ 256) by ring. by rewrite Z_mod_mult.
  - rewrite Z.shiftl_mul_pow2 by (unfold word in *; lia). done.
Qed.

Lemma pow2_large s : 256 <= s -> 2 ^ 256 <= 2 ^ s.
Proof. intros. apply Z.pow_le_mono_r; lia. Qed.

Lemma shr_spec s x : word s -> word x -> shr s x = x / 2 ^ s.
Proof.
  intros Hs Hx. unfold shr. rewrite !(U256_small s), (U256_small x) by done.
  destruct (Z.leb_spec 256 s) as [L|L].
  - symmetry. apply Z.div_small. pose proof (pow2_large s L). unfold word in *. lia.
  - unfold word in *. rewrite Z.shiftr_div_pow2 by lia. apply U256_small. unfold word.
    assert (0 < 2 ^ s) by (apply Z.pow_pos_nonneg; lia). split; [apply Z.div_pos; lia|].
    apply Z.div_lt_upper_bound; [lia|]. nia.
Qed.

(** An arithmetic shift is right except when zero is shifted by 256 or more. *)
Lemma sar_spec s x :
  word s -> word x -> sar s x = if (256 <=? s) && (x =? 0) then tt256m1 else wrap (signed x / 2 ^ s).
Proof.
  intros Hs Hx. unfold sar. rewrite !(U256_small s), !S256_signed by done.
  destruct (Z.leb_spec 256 s) as [L|L]; simpl.
  2:{ unfold word in *. by rewrite U256_wrap, Z.shiftr_div_pow2 by lia. }
  pose proof (pow2_large s L). pose proof (signed_range x) as R. pose proof (S256_signed x Hx) as Sx.
  destruct (Z.eqb_spec x 0) as [->|N]; [by vm_compute|]. rewrite U256_wrap. f_equal.
  assert (signed x <> 0).
  { rewrite <- Sx. unfold S256, word, tt255, tt256 in *. destruct (Z.ltb_spec x (2 ^ 255)); lia. }
  assert (2 ^ 255 < 2 ^ 256) by (apply Z.pow_lt_mono_r; lia).
  destruct (Z.ltb_spec 0 (signed x)).
  - symmetry. apply Z.div_small. lia.
  - apply Z.div_unique with (signed x + 2 ^ s); lia.
Qed.

(** ** Exponentiation *)

Lemma land_1 w : Z.land w 1 = w mod 2.
Proof. apply (Z.land_ones w 1). lia. Qed.

Lemma wrap_mul_l a b : wrap (wrap a * b) = wrap (a * b).
Proof. unfold wrap. by rewrite Zmult_mod_idemp_l. Qed.

Lemma wrap_mul_r a b : wrap (a * wrap b) = wrap (a * b).
Proof. unfold wrap. by rewrite Zmult_mod_idemp_r. Qed.

Lemma wrap_pow b k : wrap (wrap b ^ k) = wrap (b ^ k).
Proof.
  unfold wrap. by rewrite Z.mod_pow_l.
Qed.

(** [n] rounds multiply by the power whose exponent are the lowest [n] bits. *)
Lemma exp_word_spec n : forall w r b,
  wrap (exp_word n w r b).1 = wrap (r * b ^ (w mod 2 ^ Z.of_nat n)) /\
  wrap (exp_word n w r b).2 = wrap (b ^ (2 ^ Z.of_nat n)).
Proof.
  induction n as [|n IH]; intros w r b.
  - rewrite Z.mod_1_r, Z.pow_0_r, Z.pow_1_r. simpl. by rewrite Z.mul_1_r.
  - cbn [exp_word]. rewrite land_1, Z.shiftr_div_pow2 by lia. change (2 ^ 1) with 2.
    destruct (IH (w / 2) (if w mod 2 =? 1 then U256 (r * b) else r) (U256 (b * b))) as [-> ->].
    rewrite Nat2Z.inj_succ, Z.pow_succ_r by lia. rewrite !U256_wrap.
    assert (0 < 2 ^ Z.of_nat n) by (apply Z.pow_pos_nonneg; lia).
    pose proof (Z.mod_pos_bound (w / 2) (2 ^ Z.of_nat n)).
    replace (w mod (2 * 2 ^ Z.of_nat n)) with (w mod 2 + 2 * ((w / 2) mod 2 ^ Z.of_nat n))
      by (symmetry; apply Z.rem_mul_r; lia).
    pose proof (Z.mod_pos_bound w 2). rewrite Z.pow_add_r, (Z.pow_mul_r b 2), (Z.pow_mul_r b 2), wrap_pow by lia.
    rewrite Z.pow_2_r. split; [|done].
    set (k := (w / 2) mod 2 ^ Z.of_nat n) in *.
    rewrite <- wrap_mul_r, wrap_pow, wrap_mul_r.
    destruct (Z.eqb_spec (w mod 2) 1) as [->|E].
    + rewrite wrap_mul_l. f_equal. ring.
    + replace (w mod 2) with 0 by lia. f_equal. ring.
Qed.

Lemma exp_word_word n : forall w r b, word r -> word (exp_word n w r b).1.
Proof.
  induction n as [|n IH]; intros w r b Hr; [done|]. apply IH. case_match; [apply U256_range|done].
Qed.

(** The number of a list of 64-bit words, the lowest first. *)
Fixpoint limbs (ws : list Z) : Z :=
  match ws with [] => 0 | w :: ws => w + 2 ^ 64 * limbs ws end.

Lemma limbs_seq x n : forall k,
  limbs (map (fun i => x / 2 ^ (64 * Z.of_nat i) mod 2 ^ 64) (seq k n)) =
  (x / 2 ^ (64 * Z.of_nat k)) mod 2 ^ (64 * Z.of_nat n).
Proof.
  induction n as [|n IH]; intros k; cbn [seq map limbs].
  - by rewrite Z.mod_1_r.
  - rewrite IH. rewrite !Nat2Z.inj_succ, !Z.mul_succ_r, !Z.pow_add_r by lia.
    assert (0 < 2 ^ (64 * Z.of_nat n)) by (apply Z.pow_pos_nonneg; lia).
    assert (0 < 2 ^ (64 * Z.of_nat k)) by (apply Z.pow_pos_nonneg; lia).
    rewrite <- Z.div_div by lia. rewrite (Z.mul_comm (2 ^ (64 * Z.of_nat n))).
    by rewrite Z.rem_mul_r by lia.
Qed.

Lemma Bits_bound x : 0 <= x -> x < 2 ^ (64 * Z.of_nat (length (Bits x))).
Proof.
  intros Hx. unfold Bits. rewrite length_map, length_seq. destruct (Z.eqb_spec x 0) as [->|N]; [done|].
  rewrite Z.abs_eq by done. pose proof (Z.log2_spec x ltac:(lia)) as [_ Hl]. pose proof (Z.log2_nonneg x).
  eapply Z.lt_le_trans; [done|]. apply Z.pow_le_mono_r; [lia|].
  pose proof (Z.div_mod (Z.log2 x) 64). pose proof (Z.mod_pos_bound (Z.log2 x) 64).
  assert (0 <= Z.log2 x / 64) by (apply Z.div_pos; lia). lia.
Qed.

Lemma Bits_limbs x : 0 <= x -> limbs (Bits x) = x.
Proof.
  intros Hx. pose proof (Bits_bound x Hx) as B. unfold Bits in *. rewrite length_map, length_seq in B.
  rewrite limbs_seq, Z.div_1_r, (Z.abs_eq x) by done. rewrite (Z.abs_eq x) in B by done. apply Z.mod_small. done.
Qed.

Lemma Bits_lookup x i w :
  0 <= x -> Bits x !! i = Some w -> w = x / 2 ^ (64 * Z.of_nat i) mod 2 ^ 64.
Proof.
  unfold Bits. intros Hx Hl. rewrite Z.abs_eq in Hl by done.
  apply list_lookup_fmap_Some in Hl as (j & -> & [-> _]%lookup_seq). done.
Qed.

Lemma Bits_range x : Forall (fun w => 0 <= w < 2 ^ 64) (Bits x).
Proof. apply Forall_map, Forall_true. intros i. by apply Z.mod_pos_bound. Qed.

Lemma exp_words_spec ws : Forall (fun w => 0 <= w < 2 ^ 64) ws -> forall r b,
  word r ->
  (foldl (fun '(result, base) word => exp_word 64 word result base) (r, b) ws).1 = wrap (r * b ^ limbs ws).
Proof.
  induction 1 as [|w ws Hw Hws IH]; intros r b Hr; cbn [foldl limbs].
  - rewrite Z.pow_0_r, Z.mul_1_r. by rewrite wrap_small.
  - destruct (exp_word 64 w r b) as [r' b'] eqn:E.
    pose proof (exp_word_word 64 w r b Hr) as Hr'. destruct (exp_word_spec 64 w r b) as [E1 E2].
    rewrite E in *. cbn [fst snd] in *. rewrite IH by done.
    assert (0 <= limbs ws) by (clear - Hws; induction Hws; cbn [limbs]; lia).
    rewrite Z.mod_small in E1 by done. rewrite Z.pow_add_r, Z.pow_mul_r by lia.
    rewrite <- wrap_mul_l, E1, wrap_mul_l, <- wrap_mul_r, <- (wrap_pow b'), E2, wrap_pow, wrap_mul_r.
    f_equal. change (2 ^ Z.of_nat 64) with (2 ^ 64). ring.
Qed.

Lemma Exp_spec b e : word e -> Exp b e = wrap (b ^ e).
Proof.
  intros [He _]. unfold Exp. rewrite exp_words_spec; [|apply Bits_range|unfold word; lia].
  by rewrite Bits_limbs, Z.mul_1_l.
Qed.

(** ** Bytes and sign extension *)

Lemma mod_div_mod x a b c : 0 <= a -> 0 <= b -> a + b <= c -> (x mod 2 ^ c) / 2 ^ a mod 2 ^ b = x / 2 ^ a mod 2 ^ b.
Proof.
  intros. rewrite <- !Z.land_ones, <- !Z.shiftr_div_pow2 by lia. apply Z.bits_inj'. intros n Hn.
  rewrite !Z.land_spec, !Z.shiftr_spec, Z.land_spec by lia.
  destruct (Z.lt_ge_cases n b).
  - rewrite (Z.ones_spec_low c), andb_true_r by lia. done.
  - by rewrite !(Z.ones_spec_high b), !andb_false_r by lia.
Qed.

Lemma byte_spec th x : word th -> word x -> byte th x = if th <? 32 then x / 2 ^ (8 * (31 - th)) mod 256 else 0.
Proof.
  intros [Ht _] [Hx Hx']. unfold byte, Byte, bigEndianByteAt. destruct (Z.ltb_spec th 32) as [L|L]; [|done].
  rewrite (proj2 (Z.leb_gt 32 th) L). change (32 - 1 - th) with (31 - th). set (n := 31 - th).
  pose proof (Z.div_mod n 8). pose proof (Z.mod_pos_bound n 8). assert (0 <= n / 8) by (apply Z.div_pos; lia).
  destruct (Bits x !! Z.to_nat (n / 8)) as [w|] eqn:E.
  - apply Bits_lookup in E as ->; [|done]. rewrite Z2Nat.id, Z.shiftr_div_pow2 by lia.
    change 256 with (2 ^ 8). rewrite mod_div_mod by lia. rewrite Z.div_div by (try apply Z.pow_nonzero; lia || (apply Z.pow_pos_nonneg; lia)).
    rewrite <- Z.pow_add_r by lia. by replace (64 * (n / 8) + 8 * (n mod 8)) with (8 * n) by lia.
  - apply lookup_ge_None in E. pose proof (Bits_bound x Hx) as B. rewrite Z.div_small; [done|]. split; [done|].
    eapply Z.lt_le_trans; [done|]. apply Z.pow_le_mono_r; lia.
Qed.

(** The value of the lowest [8 * (back + 1)] bits, read as a signed number. *)
Lemma signextend_spec back num :
  0 <= back < 31 -> word num ->
  signextend back num = wrap ((num + 2 ^ (8 * back + 7)) mod 2 ^ (8 * back + 8) - 2 ^ (8 * back + 7)).
Proof.
  intros Hb Hn. unfold signextend. rewrite U256_wrap. f_equal. replace (back * 8 + 7) with (8 * back + 7) by lia.
  set (bit := 8 * back + 7). replace (8 * back + 8) with (Z.succ bit) by lia. assert (0 <= bit) by lia.
  rewrite Z.pow_succ_r, Z.shiftl_1_l by lia. set (h := 2 ^ bit). assert (0 < h) by (apply Z.pow_pos_nonneg; lia).
  assert (h - 1 = Z.ones bit) as -> by (rewrite Z.ones_equiv; unfold h; lia).
  pose proof (Z.div_mod num h). pose proof (Z.mod_pos_bound num h).
  rewrite Z.testbit_odd, Z.shiftr_div_pow2 by lia. fold h.
  assert (Z.lor num (Z.lnot (Z.ones bit)) = num mod h - h) as ->.
  { rewrite <- (Z.lnot_involutive num) at 1. rewrite <- Z.lnot_land, Z.land_ones by lia. fold h.
    assert (Z.lnot num mod h = h - 1 - num mod h) as ->; [|unfold Z.lnot; lia].
    symmetry. apply Z.mod_unique with (- (num / h) - 1); unfold Z.lnot; lia. }
  rewrite Z.land_ones by lia. fold h.
  rewrite Zodd_mod. pose proof (Z.div_mod (num / h) 2). pose proof (Z.mod_pos_bound (num / h) 2).
  destruct (Z.eqb_spec ((num / h) mod 2) 1).
  - f_equal. apply Z.mod_unique with (num / h / 2 + 1); nia.
  - assert ((num / h) mod 2 = 0) by lia.
    rewrite <- (Z.mod_unique (num + h) (2 * h) (num / h / 2) (num mod h + h)); nia.
Qed.

(** ** Operands and results *)

(** No operation leaves a negative number on the stack. *)
Definition keeps1 (f : Z -> Z) : Prop := forall x, 0 <= x -> 0 <= f x.
Definition keeps2 (f : Z -> Z -> Z) : Prop := forall x y, 0 <= x -> 0 <= y -> 0 <= f x y.
Definition keeps3 (f : Z -> Z -> Z -> Z) : Prop := forall x y z, 0 <= x -> 0 <= y -> 0 <= z -> 0 <= f x y z.

Lemma U256_nonneg x : 0 <= U256 x.
Proof. apply U256_range. Qed.
Lemma of_bool_nonneg b : 0 <= of_bool b.
Proof. by destruct b. Qed.

Lemma Exp_nonneg : keeps2 Exp.
Proof.
  intros b e _ _. unfold Exp. rewrite exp_words_spec; [|apply Bits_range|unfold word; lia].
  by apply Z.mod_pos_bound.
Qed.

Lemma byte_nonneg : keeps2 byte.
Proof.
  intros th v _ _. unfold byte, Byte, bigEndianByteAt. repeat case_match; try lia. by apply Z.mod_pos_bound.
Qed.

Lemma land_nonneg : keeps2 and.
Proof. intros x y Hx _. apply Z.land_nonneg. by left. Qed.
Lemma lor_nonneg : keeps2 or.
Proof. intros x y Hx Hy. by apply Z.lor_nonneg. Qed.
Lemma lxor_nonneg : keeps2 xor.
Proof. intros x y Hx Hy. by apply Z.lxor_nonneg. Qed.

(** For operations that end in [U256] or a comparison. *)
Ltac keeps :=
  unfold keeps1, keeps2, keeps3; intros; cbv delta [add sub mul div sdiv mod_ smod addmod mulmod signextend not lt gt slt sgt eq iszero
    shl shr sar]; cbv beta zeta; repeat case_match; try apply U256_nonneg; try apply of_bool_nonneg; lia.

Lemma keeps_all :
  (keeps1 iszero /\ keeps1 not) /\ (keeps3 addmod /\ keeps3 mulmod) /\
  Forall keeps2 [add; sub; mul; div; sdiv; mod_; smod; Exp; lt; gt; slt; sgt; eq; and; or; xor; byte;
                 shl; shr; sar; signextend].
Proof.
  split; [split; keeps|]. split; [split; keeps|].
  repeat constructor; first [exact Exp_nonneg|exact byte_nonneg|exact land_nonneg|exact lor_nonneg|exact lxor_nonneg|keeps].
Qed.

Lemma wrap_div x y : word x -> word y -> y <> 0 -> wrap (x / y) = x / y.
Proof.
  intros [? ?] [? ?] ?. apply wrap_small. split; [apply Z.div_pos; lia|]. apply Z.div_lt_upper_bound; nia.
Qed.

Lemma wrap_mod x y : word y -> y <> 0 -> wrap (x mod y) = x mod y.
Proof. intros [? ?] ?. apply wrap_small. pose proof (Z.mod_pos_bound x y). split; lia. Qed.

(** C28: on 256-bit words every arithmetic, comparison, shift and byte instruction
    computes its meaning on unsigned or two's complement numbers, reduced to a
    word: division and remainder round towards zero, [EXP] is the power modulo
    2^256, [SIGNEXTEND] reads the low bytes as a signed number.  The one exception
    is [SAR] of zero by 256 or more, which gives -1. *)
Theorem operations_exact x y z :
  word x -> word y -> word z ->
  (add x y = wrap (x + y) /\ sub x y = wrap (x - y) /\ mul x y = wrap (x * y) /\
   div x y = (if y =? 0 then 0 else x / y) /\ mod_ x y = (if y =? 0 then 0 else x mod y) /\
   sdiv x y = (if y =? 0 then 0 else wrap (Z.quot (signed x) (signed y))) /\
   smod x y = (if y =? 0 then 0 else wrap (Z.rem (signed x) (signed y))) /\
   addmod x y z = (if z =? 0 then 0 else (x + y) mod z) /\
   mulmod x y z = (if z =? 0 then 0 else (x * y) mod z) /\
   Exp x y = wrap (x ^ y)) /\
  (lt x y = of_bool (x <? y) /\ gt x y = of_bool (y <? x) /\ eq x y = of_bool (x =? y) /\
   slt x y = of_bool (signed x <? signed y) /\ sgt x y = of_bool (signed y <? signed x) /\
   iszero x = of_bool (x =? 0)) /\
  (not x = 2 ^ 256 - 1 - x /\
   byte x y = (if x <? 32 then y / 2 ^ (8 * (31 - x)) mod 256 else 0) /\
   shl x y = wrap (y * 2 ^ x) /\ shr x y = y / 2 ^ x /\
   sar x y = (if (256 <=? x) && (y =? 0) then 2 ^ 256 - 1 else wrap (signed y / 2 ^ x)) /\
   (x < 31 -> signextend x y = wrap ((y + 2 ^ (8 * x + 7)) mod 2 ^ (8 * x + 8) - 2 ^ (8 * x + 7)))).
Proof.
  intros Hx Hy Hz. split; [|split].
  - unfold add, sub, mul, div, mod_, addmod, mulmod. rewrite !U256_wrap, sdiv_spec, smod_spec, Exp_spec by done.
    assert ((0 <? z) = negb (z =? 0)) as ->.
    { unfold word in Hz. destruct (Z.ltb_spec 0 z), (Z.eqb_spec z 0); done || lia. }
    destruct (Z.eqb_spec y 0), (Z.eqb_spec z 0); simpl; split_and!; try done; by auto using wrap_div, wrap_mod.
  - rewrite slt_spec, sgt_spec by done. split_and!; try done. unfold iszero. f_equal. unfold word in Hx.
    destruct (Z.ltb_spec 0 x), (Z.eqb_spec x 0); try done; lia.
  - rewrite byte_spec, shl_spec, shr_spec, sar_spec by done. split_and!; try done.
    + unfold not, Z.lnot. rewrite U256_wrap. unfold wrap. symmetry. apply Z.mod_unique with (-1); unfold word in Hx; lia.
    + intros Hlt. apply signextend_spec; [unfold word in Hx; lia|done].
Qed.

Lemma operations_exact_witness :
  sdiv (2 ^ 256 - 7) 2 = 2 ^ 256 - 3 /\ sar 256 0 = 2 ^ 256 - 1 /\ Exp 3 5 = 243.
Proof.
  destruct (operations_exact (2 ^ 256 - 7) 2 0) as ((_ & _ & _ & _ & _ & -> & _) & _); [unfold word; lia..|].
  destruct (operations_exact 256 0 0) as (_ & _ & _ & _ & _ & _ & -> & _); [unfold word; lia..|].
  destruct (operations_exact 3 5 0) as ((_ & _ & _ & _ & _ & _ & _ & _ & _ & ->) & _); [unfold word; lia..|].
  by vm_compute.
Defined.

End Word.
