(* ===== verification/EvmMachine.v ===== *)
(** * The virtual machine: its data, memory and prices

    Models core/vm/memory.go, stack.go, contract.go, common.go, analysis.go,
    gas.go, gas_table.go and memory_table.go, with the tables of
    params/gas_table.go.  The interpreter is in Evm.v.

    The operand stack is a list with the top first.  The pool of reusable
    integers is not modelled: an integer goes back to the pool when nothing else
    refers to it. *)

From S2P Require Import Prelude Common Rlp Crypto RlpDecode Deposit StateDB EvmWord.

(** How a run of the interpreter can end without a result.  [StaleBitmap] is a panic
    as well, of one place: [codeSegment] indexes past the end of a bit vector that
    [destinations.has] found under the hash of the code but that belongs to another
    code.  [Stopped] is no end of the code; a proof that watches a run ends it so. *)
Inductive crash := Panic | StaleBitmap | Stopped | OutOfFuel.

Create HintDb evm.

Module Machine.
Import Word.

(** ** Data *)

Abbreviation zlen l := (Z.of_nat (length l)).

(** [l[a:b]]; the code never slices beyond the length into the capacity. *)
Definition slice (l : list Z) (a b : Z) : res crash (list Z) :=
  if (0 <=? a) && (a <=? b) && (b <=? zlen l) then Ok (take (Z.to_nat (b - a)) (drop (Z.to_nat a) l))
  else Err Panic.

(** [Int.Uint64] and [Int.Int64]: the lowest 64 bits. *)
Definition Uint64 (x : Z) : Z := u64 (Z.abs x).
Definition Int64 (x : Z) : Z := let v := i64 (Uint64 x) in if x <? 0 then i64 (- v) else v.

(** [Int.SetBytes] *)
Definition SetBytes (b : list Z) : Z := Rlp.read_be b (length b).

Definition BigToAddress (x : Z) : Address := Z.to_N (Z.abs x mod 2 ^ 160).
Definition BigToHash (x : Z) : Hash := Z.to_N (Z.abs x mod 2 ^ 256).

(** [make([]byte, l)] panics for a length that no slice has; the zeros are what the
    copy of [b] leaves of the new slice. *)
Definition make_zeros (l : Z) (b : list Z) : res crash (list Z) :=
  if Deposit.maxAlloc <? l then Err Panic else Ok (replicate (Z.to_nat l - length b) 0).
Definition RightPadBytes (b : list Z) (l : Z) : res crash (list Z) :=
  if l <=? zlen b then Ok b else let? zeros := make_zeros l b in Ok (b ++ zeros).
Definition LeftPadBytes (b : list Z) (l : Z) : res crash (list Z) :=
  if l <=? zlen b then Ok b else let? zeros := make_zeros l b in Ok (zeros ++ b).

Definition PaddedBigBytes (x n : Z) : list Z :=
  if n <=? BitLen x / 8 then Rlp.big_Bytes (Z.abs x) else Rlp.be_bytes (Z.to_nat n) (Z.abs x).

(** Errors of errors.go, interpreter.go, instructions.go and jump_table.go; the
    last constructor is for errors of precompiled contracts. *)
Inductive error :=
| ErrOutOfGas | ErrCodeStoreOutOfGas | ErrDepth | ErrInsufficientBalance | ErrContractAddressCollision
| errWriteProtection | errReturnDataOutOfBounds | errExecutionReverted | errMaxCodeSizeExceeded
| errGasUintOverflow | errInvalidOpcode (op : Z) | errStackUnderflow | errStackLimit
| errInvalidJump (op pos : Z) | errPrecompiled.
#[export] Instance error_eq_dec : EqDecision error.
Proof. solve_decision. Defined.

Record Contract := mkContract {
  CallerAddress : Address;
  self : Address;
  Code : list Z;
  CodeHash : Hash;
  CodeAddr : option Address;
  Input : list Z;
  Gas : Z;
  value : Z
}.

Definition set_gas (g : Z) (c : Contract) : Contract :=
  mkContract (CallerAddress c) (self c) (Code c) (CodeHash c) (CodeAddr c) (Input c) g (value c).
Definition set_input (i : list Z) (c : Contract) : Contract :=
  mkContract (CallerAddress c) (self c) (Code c) (CodeHash c) (CodeAddr c) i (Gas c) (value c).
Definition SetCallCode (addr : option Address) (hash : Hash) (code : list Z) (c : Contract) : Contract :=
  mkContract (CallerAddress c) (self c) code hash addr (Input c) (Gas c) (value c).

(** [None]: the gas does not suffice and nothing is taken. *)
Definition UseGas (gas : Z) (c : Contract) : option Contract :=
  if Gas c <? gas then None else Some (set_gas (Gas c - gas) c).

Definition GetByte (c : Contract) (n : Z) : Z :=
  if n <? zlen (Code c) then default 0 (Code c !! Z.to_nat n) else 0.
Definition GetOp (c : Contract) (n : Z) : Z := GetByte c n.

(** [params.GasTable] *)
Record GasTable := mkGasTable {
  gt_ExtcodeSize : Z;
  gt_ExtcodeCopy : Z;
  gt_Balance : Z;
  gt_SLoad : Z;
  gt_Calls : Z;
  gt_Suicide : Z;
  gt_ExpByte : Z;
  gt_CreateBySuicide : Z
}.

Definition GasTableHomestead : GasTable := mkGasTable 20 20 20 50 40 0 10 0.
Definition GasTableEIP150 : GasTable := mkGasTable 700 700 400 200 700 5000 10 25000.
Definition GasTableEIP158 : GasTable := mkGasTable 700 700 400 200 700 5000 50 25000.

(** What does not change while the machine runs: the block and transaction of
    [vm.Context], the fork rules at its number, the options of [vm.Config]. *)
Record Env := mkEnv {
  GetHash : Z -> Hash;
  Origin : Address;
  GasPrice : Z;
  Coinbase : Address;
  GasLimit : Z;
  BlockNumber : Z;
  Time : Z;
  Difficulty : Z;
  IsHomestead : bool;
  IsEIP150 : bool;
  IsEIP158 : bool;
  IsByzantium : bool;
  IsConstantinople : bool;
  NoRecursion : bool;
  EnablePreimageRecording : bool
}.

Definition gasTable (env : Env) : GasTable :=
  if IsEIP158 env then GasTableEIP158 else if IsEIP150 env then GasTableEIP150 else GasTableHomestead.

(** ** Memory *)

Record Memory := mkMemory { store : list Z; lastGasCost : Z }.

Definition NewMemory : Memory := mkMemory [] 0.
Definition Len (m : Memory) : Z := zlen (store m).

(** [copy(dst, src)] *)
Definition copy (dst src : list Z) : list Z := take (length dst) src ++ drop (length src) dst.

Definition Set_ (m : Memory) (offset size : Z) (v : list Z) : res crash Memory :=
  if Len m <? size then Err Panic
  else if 0 <? size then
    let stop := u64 (offset + size) in
    let? dst := slice (store m) offset stop in
    Ok (mkMemory (take (Z.to_nat offset) (store m) ++ copy dst v ++ drop (Z.to_nat stop) (store m))
          (lastGasCost m))
  else Ok m.

Definition Resize (m : Memory) (size : Z) : Memory :=
  if Len m <? size then mkMemory (store m ++ replicate (Z.to_nat (size - Len m)) 0) (lastGasCost m) else m.

(** [Get], and [GetPtr], which differs only in that it does not copy: the
    memory is not used any more after a call of it. *)
Definition Get (m : Memory) (offset size : Z) : res crash (list Z) :=
  if size =? 0 then Ok []
  else if offset <? Len m then slice (store m) offset (i64 (offset + size))
  else Ok [].
Definition GetPtr (m : Memory) (offset size : Z) : res crash (list Z) :=
  if size =? 0 then Ok []
  else if offset <? Len m then slice (store m) offset (i64 (offset + size))
  else Ok [].

(** [memory.store[off] = b] *)
Definition store_byte (m : Memory) (off b : Z) : res crash Memory :=
  if (0 <=? off) && (off <? Len m) then Ok (mkMemory (<[Z.to_nat off := b]> (store m)) (lastGasCost m))
  else Err Panic.

(** ** common.go *)

Definition calcMemSize (off l : Z) : Z := if l =? 0 then 0 else off + l.

Definition getData (data : list Z) (start size : Z) : res crash (list Z) :=
  let start := if zlen data <? start then zlen data else start in
  let stop := u64 (start + size) in
  let stop := if zlen data <? stop then zlen data else stop in
  let? d := slice data start stop in
  RightPadBytes d (i64 size).

Definition getDataBig (data : list Z) (start size : Z) : res crash (list Z) :=
  let s := Z.min start (zlen data) in
  let e := Z.min (s + size) (zlen data) in
  let? d := slice data (Uint64 s) (Uint64 e) in
  RightPadBytes d (i64 (Uint64 size)).

(** [None] is an overflow. *)
Definition bigUint64 (v : Z) : option Z := if 64 <? BitLen v then None else Some (Uint64 v).

Definition toWordSize (size : Z) : Z :=
  if MaxUint64 - 31 <? size then MaxUint64 / 32 + 1 else (size + 31) / 32.

Definition allZero (b : list Z) : bool := forallb (fun x => x =? 0) b.

(** [SafeAdd] and [SafeMul] where an overflow is an error. *)
Definition safe_add (x y : Z) : option Z := let '(r, overflow) := SafeAdd x y in if overflow then None else Some r.
Definition safe_mul (x y : Z) : option Z := let '(r, overflow) := SafeMul x y in if overflow then None else Some r.

(** ** analysis.go *)

Abbreviation bitvec := (list Z) (only parsing).
Definition JUMPDEST_byte : Z := 0x5b.
Definition PUSH1_byte : Z := 0x60.
Definition PUSH32_byte : Z := 0x7f.

Definition or_byte (bits : bitvec) (i b : Z) : res crash bitvec :=
  match bits !! Z.to_nat i with
  | Some old => Ok (<[Z.to_nat i := Z.lor old b]> bits)
  | None => Err Panic
  end.

Definition bit_set (pos : Z) (bits : bitvec) : res crash bitvec :=
  or_byte bits (pos / 8) (Z.shiftr 0x80 (pos mod 8)).

Definition bit_set8 (pos : Z) (bits : bitvec) : res crash bitvec :=
  let? bits := or_byte bits (pos / 8) (Z.shiftr 0xFF (pos mod 8)) in
  or_byte bits (pos / 8 + 1) (Z.lxor 0xFF (Z.shiftr 0xFF (pos mod 8))).

(** [None] is an index out of range. *)
Definition codeSegment (pos : Z) (bits : bitvec) : option bool :=
  b ← bits !! Z.to_nat (pos / 8);
  Some (Z.land b (Z.shiftr 0x80 (pos mod 8)) =? 0).

(** The two loops over the bytes that a push takes: eight at a time, then one. *)
Fixpoint mark8 (n : nat) (pc numbits : Z) (bits : bitvec) : res crash (Z * Z * bitvec) :=
  match n with
  | O => Ok (pc, numbits, bits)
  | S n =>
      if 8 <=? numbits then
        let? bits := bit_set8 pc bits in mark8 n (pc + 8) (numbits - 8) bits
      else Ok (pc, numbits, bits)
  end.

Fixpoint mark1 (n : nat) (pc : Z) (bits : bitvec) : res crash (Z * bitvec) :=
  match n with
  | O => Ok (pc, bits)
  | S n => let? bits := bit_set pc bits in mark1 n (pc + 1) bits
  end.

(** The loop over the code; [fuel] rounds. *)
Fixpoint bitmap_loop (fuel : nat) (code : list Z) (pc : Z) (bits : bitvec) : res crash bitvec :=
  match code !! Z.to_nat pc with
  | None => Ok bits
  | Some op =>
      match fuel with
      | O => Err OutOfFuel
      | S fuel =>
          if (PUSH1_byte <=? op) && (op <=? PUSH32_byte) then
            let numbits := op - PUSH1_byte + 1 in
            let? (pc, numbits, bits) := mark8 4 (pc + 1) numbits bits in
            let? (pc, bits) := mark1 (Z.to_nat numbits) pc bits in
            bitmap_loop fuel code pc bits
          else bitmap_loop fuel code (pc + 1) bits
      end
  end.

Definition codeBitmap (code : list Z) : res crash bitvec :=
  bitmap_loop (length code) code 0 (replicate (length code / 8 + 1 + 4) 0).

Abbreviation destinations := (gmap Hash (list Z)) (only parsing).

(** [destinations.has], with the map it leaves. *)
Definition has (d : destinations) (codehash : Hash) (code : list Z) (dest : Z)
    : res crash (destinations * bool) :=
  let udest := Uint64 dest in
  if (63 <=? BitLen dest) || (zlen code <=? udest) then Ok (d, false)
  else
    let? (d, m) :=
      match d !! codehash with
      | Some m => Ok (d, m)
      | None => let? m := codeBitmap code in Ok (<[codehash := m]> d, m)
      end in
    match code !! Z.to_nat udest, codeSegment udest m with
    | Some op, Some seg => Ok (d, (op =? JUMPDEST_byte) && seg)
    | Some op, None => if op =? JUMPDEST_byte then Err StaleBitmap else Ok (d, false)
    | None, _ => Err Panic
    end.

(** ** The state of the machine *)

Section Machine.
Context `{Crypto} `{Tries}.

(** [EVM] with its [Interpreter].  The jump destinations that the contracts of
    one call tree share belong to the tree. *)
Record evm := mkEvm {
  db : StateDB.StateDB;
  depth : Z;
  callGasTemp : Z;
  readOnly : bool;
  returnData : list Z;
  jumpdests : destinations
}.

Definition set_db (s : StateDB.StateDB) (e : evm) : evm :=
  mkEvm s (depth e) (callGasTemp e) (readOnly e) (returnData e) (jumpdests e).
Definition set_depth (n : Z) (e : evm) : evm :=
  mkEvm (db e) n (callGasTemp e) (readOnly e) (returnData e) (jumpdests e).
Definition set_callGasTemp (g : Z) (e : evm) : evm :=
  mkEvm (db e) (depth e) g (readOnly e) (returnData e) (jumpdests e).
Definition set_readOnly (b : bool) (e : evm) : evm :=
  mkEvm (db e) (depth e) (callGasTemp e) b (returnData e) (jumpdests e).
Definition set_returnData (r : list Z) (e : evm) : evm :=
  mkEvm (db e) (depth e) (callGasTemp e) (readOnly e) r (jumpdests e).
Definition set_jumpdests (d : destinations) (e : evm) : evm :=
  mkEvm (db e) (depth e) (callGasTemp e) (readOnly e) (returnData e) d.

(** A reader of the database: what it finds, and the machine with what it cached. *)
Definition ask {A} (f : StateDB.StateDB -> StateDB.StateDB * A) (e : evm) : evm * A :=
  let '(s, x) := f (db e) in (set_db s e, x).
Definition tell (f : StateDB.StateDB -> StateDB.StateDB) (e : evm) : evm := set_db (f (db e)) e.

(** [stack.Back(n)] *)
Definition Back (st : list Z) (n : nat) : res crash Z :=
  match st !! n with Some x => Ok x | None => Err Panic end.

(** ** Prices (gas.go, params/protocol_params.go) *)

Definition GasQuickStep : Z := 2.
Definition GasFastestStep : Z := 3.
Definition GasFastStep : Z := 5.
Definition GasMidStep : Z := 8.
Definition GasSlowStep : Z := 10.
Definition GasExtStep : Z := 20.
Definition MemoryGas : Z := 3.
Definition QuadCoeffDiv : Z := 512.
Definition CopyGas : Z := 3.
Definition SstoreSetGas : Z := 20000.
Definition SstoreResetGas : Z := 5000.
Definition SstoreClearGas : Z := 5000.
Definition SstoreRefundGas : Z := 15000.
Definition LogGas : Z := 375.
Definition LogTopicGas : Z := 375.
Definition LogDataGas : Z := 8.
Definition Sha3Gas : Z := 30.
Definition Sha3WordGas : Z := 6.
Definition CreateGas : Z := 32000.
Definition CreateDataGas : Z := 200.
Definition CallValueTransferGas : Z := 9000.
Definition CallNewAccountGas : Z := 25000.
Definition CallStipend : Z := 2300.
Definition SuicideRefundGas : Z := 24000.
Definition JumpdestGas : Z := 1.
Definition CallCreateDepth : Z := 1024.
Definition StackLimit : Z := 1024.
Definition MaxCodeSize : Z := 24576.

(** [callGas]; [None] is errGasUintOverflow. *)
Definition callGas (gt : GasTable) (availableGas base callCost : Z) : option Z :=
  let last := if 64 <? BitLen callCost then None else Some (Uint64 callCost) in
  if 0 <? gt_CreateBySuicide gt then
    let availableGas := u64 (availableGas - base) in
    let gas := availableGas - availableGas / 64 in
    if (64 <? BitLen callCost) || (gas <? Uint64 callCost) then Some gas else last
  else last.

(** ** gas_table.go *)

Definition memoryGasCost (mem : Memory) (newMemSize : Z) : Memory * option Z :=
  if newMemSize =? 0 then (mem, Some 0)
  else if 0xffffffffe0 <? newMemSize then (mem, None)
  else
    let newMemSizeWords := toWordSize newMemSize in
    let newMemSize := u64 (newMemSizeWords * 32) in
    if Len mem <? newMemSize then
      let square := u64 (newMemSizeWords * newMemSizeWords) in
      let linCoef := u64 (newMemSizeWords * MemoryGas) in
      let quadCoef := square / QuadCoeffDiv in
      let newTotalFee := u64 (linCoef + quadCoef) in
      (mkMemory (store mem) newTotalFee, Some (u64 (newTotalFee - lastGasCost mem)))
    else (mem, Some 0).

(** A gas function leaves the machine and the memory that it updated; [None] is
    an error, which the interpreter reports as [ErrOutOfGas] in any case. *)
Definition gasFunc : Type :=
  Env -> evm -> Contract -> list Z -> Memory -> Z -> res crash (evm * Memory * option Z).

Definition constGasFunc (gas : Z) : gasFunc := fun _ e _ _ mem _ => Ok (e, mem, Some gas).

(** The price of the memory, [base] and [perWord] for each word of a length. *)
Definition gasCopy (base perWord l : Z) (e : evm) (mem : Memory) (memorySize : Z)
    : res crash (evm * Memory * option Z) :=
  let '(mem, gas) := memoryGasCost mem memorySize in
  Ok (e, mem,
      gas ← gas; gas ← safe_add gas base;
      words ← bigUint64 l;
      words ← safe_mul (toWordSize words) perWord;
      safe_add gas words).

Definition gasCallDataCopy : gasFunc := fun env e c st mem memorySize =>
  let? l := Back st 2 in gasCopy GasFastestStep CopyGas l e mem memorySize.
Definition gasReturnDataCopy : gasFunc := fun env e c st mem memorySize =>
  let? l := Back st 2 in gasCopy GasFastestStep CopyGas l e mem memorySize.
Definition gasCodeCopy : gasFunc := fun env e c st mem memorySize =>
  let? l := Back st 2 in gasCopy GasFastestStep CopyGas l e mem memorySize.
Definition gasExtCodeCopy : gasFunc := fun env e c st mem memorySize =>
  let? l := Back st 3 in gasCopy (gt_ExtcodeCopy (gasTable env)) CopyGas l e mem memorySize.
Definition gasSha3 : gasFunc := fun env e c st mem memorySize =>
  let? l := Back st 1 in gasCopy Sha3Gas Sha3WordGas l e mem memorySize.

Definition gasSStore : gasFunc := fun env e c st mem memorySize =>
  let? y := Back st 1 in
  let? x := Back st 0 in
  let '(e, val) := ask (StateDB.GetState (self c) (BigToHash x)) e in
  if (val =? 0)%N && negb (BigToHash y =? 0)%N then Ok (e, mem, Some SstoreSetGas)
  else if negb (val =? 0)%N && (BigToHash y =? 0)%N then
    Ok (tell (StateDB.AddRefund SstoreRefundGas) e, mem, Some SstoreClearGas)
  else Ok (e, mem, Some SstoreResetGas).

Definition makeGasLog (n : Z) : gasFunc := fun env e c st mem memorySize =>
  let? l := Back st 1 in
  match bigUint64 l with
  | None => Ok (e, mem, None)
  | Some requestedSize =>
      let '(mem, gas) := memoryGasCost mem memorySize in
      Ok (e, mem,
          gas ← gas; gas ← safe_add gas LogGas; gas ← safe_add gas (n * LogTopicGas);
          memorySizeGas ← safe_mul requestedSize LogDataGas;
          safe_add gas memorySizeGas)
  end.

(** [gasMLoad], [gasMStore8], [gasMStore] and [gasCreate]. *)
Definition gasMemory (base : Z) : gasFunc := fun env e c st mem memorySize =>
  let '(mem, gas) := memoryGasCost mem memorySize in
  Ok (e, mem, gas ← gas; safe_add gas base).
Definition gasMLoad : gasFunc := gasMemory GasFastestStep.
Definition gasMStore8 : gasFunc := gasMemory GasFastestStep.
Definition gasMStore : gasFunc := gasMemory GasFastestStep.
Definition gasCreate : gasFunc := gasMemory CreateGas.

Definition gasBalance : gasFunc := fun env e c st mem _ => Ok (e, mem, Some (gt_Balance (gasTable env))).
Definition gasExtCodeSize : gasFunc := fun env e c st mem _ => Ok (e, mem, Some (gt_ExtcodeSize (gasTable env))).
Definition gasSLoad : gasFunc := fun env e c st mem _ => Ok (e, mem, Some (gt_SLoad (gasTable env))).

Definition gasExp : gasFunc := fun env e c st mem _ =>
  let? ex := Back st 1 in
  let expByteLen := (BitLen ex + 7) / 8 in
  Ok (e, mem, safe_add (u64 (expByteLen * gt_ExpByte (gasTable env))) GasSlowStep).

(** The end of the four call functions, with the price before the memory. *)
Definition gas_calls (env : Env) (gas : Z) (e : evm) (c : Contract) (st : list Z) (mem : Memory) (memorySize : Z)
    : res crash (evm * Memory * option Z) :=
  let? callCost := Back st 0 in
  let '(mem, memoryGas) := memoryGasCost mem memorySize in
  match memoryGas ≫= safe_add gas with
  | None => Ok (e, mem, None)
  | Some gas =>
      match callGas (gasTable env) (Gas c) gas callCost with
      | None => Ok (set_callGasTemp 0 e, mem, None)
      | Some temp => Ok (set_callGasTemp temp e, mem, safe_add gas temp)
      end
  end.

Definition gasCall : gasFunc := fun env e c st mem memorySize =>
  let? v := Back st 2 in
  let? a := Back st 1 in
  let transfersValue := negb (v =? 0) in
  let address := BigToAddress a in
  let gas := gt_Calls (gasTable env) in
  let '(e, gas) :=
    if IsEIP158 env then
      if transfersValue then
        let '(e, b) := ask (StateDB.Empty address) e in
        (e, if b then gas + CallNewAccountGas else gas)
      else (e, gas)
    else
      let '(e, b) := ask (StateDB.Exist address) e in
      (e, if b then gas else gas + CallNewAccountGas) in
  let gas := if transfersValue then gas + CallValueTransferGas else gas in
  gas_calls env gas e c st mem memorySize.

Definition gasCallCode : gasFunc := fun env e c st mem memorySize =>
  let? v := Back st 2 in
  let gas := gt_Calls (gasTable env) in
  gas_calls env (if negb (v =? 0) then gas + CallValueTransferGas else gas) e c st mem memorySize.

Definition gasDelegateCall : gasFunc := fun env e c st mem memorySize =>
  gas_calls env (gt_Calls (gasTable env)) e c st mem memorySize.
Definition gasStaticCall : gasFunc := fun env e c st mem memorySize =>
  gas_calls env (gt_Calls (gasTable env)) e c st mem memorySize.

Definition gasReturn : gasFunc := fun env e c st mem memorySize =>
  let '(mem, gas) := memoryGasCost mem memorySize in Ok (e, mem, gas).
Definition gasRevert : gasFunc := gasReturn.

Definition gasSuicide : gasFunc := fun env e c st mem memorySize =>
  let? a := Back st 0 in
  let address := BigToAddress a in
  let '(e, gas) :=
    if IsEIP150 env then
      let gas := gt_Suicide (gasTable env) in
      if IsEIP158 env then
        let '(e, b) := ask (StateDB.Empty address) e in
        if b then
          let '(e, bal) := ask (StateDB.GetBalance (self c)) e in
          (e, if negb (bal =? 0) then gas + gt_CreateBySuicide (gasTable env) else gas)
        else (e, gas)
      else
        let '(e, b) := ask (StateDB.Exist address) e in
        (e, if b then gas else gas + gt_CreateBySuicide (gasTable env))
    else (e, 0) in
  let '(e, gone) := ask (StateDB.HasSuicided (self c)) e in
  Ok (if gone then e else tell (StateDB.AddRefund SuicideRefundGas) e, mem, Some gas).

Definition gasPush : gasFunc := constGasFunc GasFastestStep.
Definition gasSwap : gasFunc := constGasFunc GasFastestStep.
Definition gasDup : gasFunc := constGasFunc GasFastestStep.

(** ** memory_table.go *)

Definition memorySizeFunc : Type := list Z -> res crash Z.

Definition memory_region (off l : nat) : memorySizeFunc := fun st =>
  let? o := Back st off in let? n := Back st l in Ok (calcMemSize o n).
Definition memory_fixed (off : nat) (l : Z) : memorySizeFunc := fun st =>
  let? o := Back st off in Ok (calcMemSize o l).
Definition memory_regions (o1 l1 o2 l2 : nat) : memorySizeFunc := fun st =>
  let? x := memory_region o1 l1 st in let? y := memory_region o2 l2 st in Ok (Z.max x y).

Definition memorySha3 := memory_region 0 1.
Definition memoryCallDataCopy := memory_region 0 2.
Definition memoryReturnDataCopy := memory_region 0 2.
Definition memoryCodeCopy := memory_region 0 2.
Definition memoryExtCodeCopy := memory_region 1 3.
Definition memoryMLoad := memory_fixed 0 32.
Definition memoryMStore8 := memory_fixed 0 1.
Definition memoryMStore := memory_fixed 0 32.
Definition memoryCreate := memory_region 1 2.
Definition memoryCall := memory_regions 5 6 3 4.
Definition memoryDelegateCall := memory_regions 4 5 2 3.
Definition memoryStaticCall := memory_regions 4 5 2 3.
Definition memoryReturn := memory_region 0 1.
Definition memoryRevert := memory_region 0 1.
Definition memoryLog := memory_region 0 1.

End Machine.
End Machine.
