(* ===== verification/EvmAnalysis.v ===== *)
(** * The analysis of jump destinations (core/vm/analysis.go)

    The bit vector that [codeBitmap] builds, eight bits at a time, marks exactly
    the bytes that a scan of the code from its start takes as push data. *)

From S2P Require Import Prelude Common Rlp Crypto RlpDecode Deposit StateDB EvmWord EvmMachine.

Module EvmAnalysis.
Import Machine.

(** ** The reference: one byte after the other *)

Definition push_size (op : Z) : nat :=
  if (PUSH1_byte <=? op) && (op <=? PUSH32_byte) then Z.to_nat (op - PUSH1_byte + 1) else 0.

(** Which bytes are push data; the first [skip] are. *)
Fixpoint pushdata (skip : nat) (code : list Z) : list bool :=
  match code with
  | [] => []
  | op :: code =>
      match skip with
      | S n => true :: pushdata n code
      | O => false :: pushdata (push_size op) code
      end
  end.

(** A position where an instruction starts and is a JUMPDEST. *)
Definition valid_dest (code : list Z) (pos : Z) : bool :=
  (0 <=? pos) && bool_decide (code !! Z.to_nat pos = Some JUMPDEST_byte)
  && bool_decide (pushdata 0 code !! Z.to_nat pos = Some false).

(** ** Bits *)

Definition getbit (bits : bitvec) (q : Z) : bool :=
  match bits !! Z.to_nat (q / 8) with Some b => Z.testbit b (7 - q mod 8) | None => false end.

Lemma or_byte_ok bits i b :
  0 <= i < zlen bits ->
  exists bits', or_byte bits i b = Ok bits' /\ length bits' = length bits /\
    forall q, 0 <= q -> getbit bits' q = getbit bits q || ((q / 8 =? i) && Z.testbit b (7 - q mod 8)).
Proof.
  intros Hi. unfold or_byte. destruct (lookup_lt_is_Some_2 bits (Z.to_nat i)) as [old Hold]; [lia|].
  rewrite Hold. eexists. split; [done|]. split; [apply length_insert|]. intros q Hq. unfold getbit.
  assert (0 <= q / 8) by (apply Z.div_pos; lia).
  destruct (Z.eqb_spec (q / 8) i) as [<-|N].
  - rewrite list_lookup_insert_eq by (apply lookup_lt_Some in Hold; lia). by rewrite Hold, Z.lor_spec.
  - rewrite list_lookup_insert_ne by lia. by rewrite orb_false_r.
Qed.

(** One bit of the three masks, by inspection of the cases. *)
Lemma mask_bits r k :
  0 <= r < 8 -> 0 <= k < 8 ->
  Z.testbit (Z.shiftr 0x80 r) (7 - k) = (k =? r) /\ Z.testbit (Z.shiftr 0xFF r) (7 - k) = (r <=? k) /\
  Z.testbit (Z.lxor 0xFF (Z.shiftr 0xFF r)) (7 - k) = (k <? r).
Proof.
  intros Hr Hk.
  assert (forallb (fun r => forallb (fun k =>
    Bool.eqb (Z.testbit (Z.shiftr 0x80 r) (7 - k)) (k =? r) &&
    Bool.eqb (Z.testbit (Z.shiftr 0xFF r) (7 - k)) (r <=? k) &&
    Bool.eqb (Z.testbit (Z.lxor 0xFF (Z.shiftr 0xFF r)) (7 - k)) (k <? r)) [0;1;2;3;4;5;6;7]) [0;1;2;3;4;5;6;7]
    = true) as Hall by (by vm_compute).
  rewrite forallb_forall in Hall. specialize (Hall r). rewrite forallb_forall in Hall.
  assert (forall x, 0 <= x < 8 -> In x [0;1;2;3;4;5;6;7]) as Hin by (intros x Hx; simpl; lia).
  specialize (Hall (Hin r Hr) k (Hin k Hk)). rewrite !andb_true_iff, !Bool.eqb_true_iff in Hall. tauto.
Qed.

Lemma bit_set_ok pos bits :
  0 <= pos -> pos / 8 < zlen bits ->
  exists bits', bit_set pos bits = Ok bits' /\ length bits' = length bits /\
    forall q, 0 <= q -> getbit bits' q = getbit bits q || (q =? pos).
Proof.
  intros Hp Hl. assert (0 <= pos / 8) by (apply Z.div_pos; lia).
  destruct (or_byte_ok bits (pos / 8) (Z.shiftr 0x80 (pos mod 8))) as (b & E & L & B); [lia|].
  exists b. split; [done|]. split; [done|]. intros q Hq. rewrite B by done. f_equal.
  pose proof (Z.mod_pos_bound pos 8). pose proof (Z.mod_pos_bound q 8).
  destruct (mask_bits (pos mod 8) (q mod 8)) as (-> & _); [lia..|].
  pose proof (Z.div_mod pos 8). pose proof (Z.div_mod q 8).
  destruct (Z.eqb_spec (q / 8) (pos / 8)), (Z.eqb_spec (q mod 8) (pos mod 8)), (Z.eqb_spec q pos); simpl; try done;
    subst; try congruence; lia.
Qed.

Lemma bit_set8_ok pos bits :
  0 <= pos -> pos / 8 + 1 < zlen bits ->
  exists bits', bit_set8 pos bits = Ok bits' /\ length bits' = length bits /\
    forall q, 0 <= q -> getbit bits' q = getbit bits q || ((pos <=? q) && (q <? pos + 8)).
Proof.
  intros Hp Hl. unfold bit_set8. assert (0 <= pos / 8) by (apply Z.div_pos; lia).
  destruct (or_byte_ok bits (pos / 8) (Z.shiftr 0xFF (pos mod 8))) as (b & -> & L & B); [lia|].
  destruct (or_byte_ok b (pos / 8 + 1) (Z.lxor 0xFF (Z.shiftr 0xFF (pos mod 8)))) as (b' & -> & L' & B'); [rewrite L; lia|].
  exists b'. split; [done|]. split; [congruence|]. intros q Hq. rewrite B', B by done. rewrite <- orb_assoc. f_equal.
  pose proof (Z.mod_pos_bound pos 8). pose proof (Z.mod_pos_bound q 8).
  destruct (mask_bits (pos mod 8) (q mod 8)) as (_ & -> & ->); [lia..|].
  pose proof (Z.div_mod pos 8). pose proof (Z.div_mod q 8).
  destruct (Z.eqb_spec (q / 8) (pos / 8)), (Z.eqb_spec (q / 8) (pos / 8 + 1)), (Z.leb_spec (pos mod 8) (q mod 8)),
    (Z.ltb_spec (q mod 8) (pos mod 8)), (Z.leb_spec pos q), (Z.ltb_spec q (pos + 8)); simpl; try done; lia.
Qed.

(** ** The two inner loops *)

Definition within (a b q : Z) : bool := (a <=? q) && (q <? b).

Lemma mark8_ok n : forall pc k bits,
  0 <= pc -> 0 <= k -> (pc + k) / 8 < zlen bits -> k < 8 * Z.of_nat n + 8 ->
  exists bits', mark8 n pc k bits = Ok (pc + 8 * (k / 8), k mod 8, bits') /\ length bits' = length bits /\
    forall q, 0 <= q -> getbit bits' q = getbit bits q || within pc (pc + 8 * (k / 8)) q.
Proof.
  induction n as [|n IH]; intros pc k bits Hp Hk Hl Hn; cbn [mark8].
  - rewrite Z.div_small, Z.mod_small by lia. exists bits. rewrite Z.mul_0_r, Z.add_0_r. split; [done|]. split; [done|].
    intros q Hq. unfold within. destruct (Z.leb_spec pc q), (Z.ltb_spec q pc); simpl; try lia; by rewrite orb_false_r.
  - destruct (Z.leb_spec 8 k).
    + assert (pc / 8 + 1 < zlen bits).
      { rewrite <- (Z.div_add pc 1 8) by lia. pose proof (Z.div_le_mono (pc + 1 * 8) (pc + k) 8). lia. }
      destruct (bit_set8_ok pc bits) as (b & -> & L & B); [done..|].
      destruct (IH (pc + 8) (k - 8) b) as (b' & E & L' & B'); [lia..|replace (pc + 8 + (k - 8)) with (pc + k) by lia; rewrite L; lia|lia|].
      assert ((k - 8) / 8 = k / 8 - 1 /\ (k - 8) mod 8 = k mod 8) as [Hd Hm].
      { replace (k - 8) with (k + (-1) * 8) by lia. rewrite Z.div_add, Z.mod_add by lia. lia. }
      rewrite Hd, Hm in *. exists b'. split; [rewrite E; by replace (pc + 8 + 8 * (k / 8 - 1)) with (pc + 8 * (k / 8)) by lia|]. split; [congruence|].
      intros q Hq. rewrite B', B by done. rewrite <- orb_assoc. f_equal. unfold within.
      assert (0 < k / 8) by (apply Z.div_str_pos; lia).
      destruct (Z.leb_spec pc q), (Z.ltb_spec q (pc + 8)), (Z.leb_spec (pc + 8) q),
        (Z.ltb_spec q (pc + 8 + 8 * (k / 8 - 1))), (Z.ltb_spec q (pc + 8 * (k / 8))); simpl; try done; lia.
    + rewrite Z.div_small, Z.mod_small by lia. exists bits. rewrite Z.mul_0_r, Z.add_0_r. split; [done|]. split; [done|].
      intros q Hq. unfold within. destruct (Z.leb_spec pc q), (Z.ltb_spec q pc); simpl; try lia; by rewrite orb_false_r.
Qed.

Lemma mark1_ok n : forall pc bits,
  0 <= pc -> (pc + Z.of_nat n) / 8 < zlen bits ->
  exists bits', mark1 n pc bits = Ok (pc + Z.of_nat n, bits') /\ length bits' = length bits /\
    forall q, 0 <= q -> getbit bits' q = getbit bits q || within pc (pc + Z.of_nat n) q.
Proof.
  induction n as [|n IH]; intros pc bits Hp Hl; cbn [mark1].
  - rewrite Z.add_0_r. exists bits. split; [done|]. split; [done|].
    intros q Hq. unfold within. destruct (Z.leb_spec pc q), (Z.ltb_spec q pc); simpl; try lia; by rewrite orb_false_r.
  - assert (pc / 8 < zlen bits) by (pose proof (Z.div_le_mono pc (pc + Z.of_nat (S n)) 8); lia).
    destruct (bit_set_ok pc bits) as (b & -> & L & B); [done..|].
    destruct (IH (pc + 1) b) as (b' & E & L' & B'); [lia|replace (pc + 1 + Z.of_nat n) with (pc + Z.of_nat (S n)) by lia; rewrite L; lia|].
    exists b'. split; [rewrite E; by replace (pc + 1 + Z.of_nat n) with (pc + Z.of_nat (S n)) by lia|]. split; [congruence|].
    intros q Hq. rewrite B', B by done. rewrite <- orb_assoc. f_equal. unfold within.
    destruct (Z.eqb_spec q pc), (Z.leb_spec pc q), (Z.leb_spec (pc + 1) q), (Z.ltb_spec q (pc + 1 + Z.of_nat n)),
      (Z.ltb_spec q (pc + Z.of_nat (S n))); simpl; try done; lia.
Qed.

(** ** The whole bitmap *)

Lemma push_size_bound op : (push_size op <= 32)%nat.
Proof. unfold push_size, PUSH1_byte, PUSH32_byte. case_match; [|lia]. bool_to_prop. lia. Qed.

Lemma pushdata_skip n code i :
  pushdata n code !! i = if decide (i < n)%nat then (fun _ => true) <$> code !! i else pushdata 0 (drop n code) !! (i - n)%nat.
Proof.
  revert code i. induction n as [|n IH]; intros code i.
  - by rewrite decide_False, Nat.sub_0_r by lia.
  - destruct code as [|op code]; cbn [pushdata drop].
    + case_decide; by rewrite ?lookup_nil.
    + destruct i as [|i]; [done|]. cbn [lookup list_lookup]. rewrite IH. repeat case_decide; done || lia.
Qed.

(** A step of the outer loop marks the data of one instruction. *)
Lemma pushdata_step code pc op i :
  code !! pc = Some op -> (pc < i)%nat -> (i < length code)%nat ->
  pushdata 0 (drop pc code) !! (i - pc)%nat
  = if decide (i <= pc + push_size op)%nat then Some true
    else pushdata 0 (drop (pc + 1 + push_size op) code) !! (i - (pc + 1 + push_size op))%nat.
Proof.
  intros Hop Hi Hlen. rewrite (drop_S _ op) by done. cbn [pushdata].
  replace (i - pc)%nat with (S (i - S pc)) by lia. cbn [lookup list_lookup]. rewrite pushdata_skip, drop_drop.
  destruct (decide (i <= pc + push_size op)%nat); [rewrite decide_True by lia|rewrite decide_False by lia].
  - rewrite lookup_drop. destruct (lookup_lt_is_Some_2 code (S pc + (i - S pc))) as [x ->]; [lia|done].
  - replace (S pc + push_size op)%nat with (pc + 1 + push_size op)%nat by lia.
    by replace (i - S pc - push_size op)%nat with (i - (pc + 1 + push_size op))%nat by lia.
Qed.

(** The bits that the loop has still to set. *)
Definition marks (code : list Z) (pc q : Z) : bool :=
  (pc <=? q) && bool_decide (pushdata 0 (drop (Z.to_nat pc) code) !! (Z.to_nat q - Z.to_nat pc)%nat = Some true).

Lemma marks_step code pc op q :
  0 <= pc -> 0 <= q < zlen code -> code !! Z.to_nat pc = Some op ->
  marks code pc q = within (pc + 1) (pc + 1 + Z.of_nat (push_size op)) q
                    || marks code (pc + 1 + Z.of_nat (push_size op)) q.
Proof.
  intros Hp Hq Hop. unfold marks, within. set (n := push_size op).
  destruct (Z.leb_spec pc q) as [L|L]; simpl.
  2:{ destruct (Z.leb_spec (pc + 1) q), (Z.leb_spec (pc + 1 + Z.of_nat n) q); simpl; try done; lia. }
  destruct (decide (q = pc)) as [->|N].
  - rewrite Nat.sub_diag, (drop_S _ op) by done. simpl.
    destruct (Z.leb_spec (pc + 1) pc), (Z.leb_spec (pc + 1 + Z.of_nat n) pc); simpl; try done; lia.
  - rewrite (pushdata_step code (Z.to_nat pc) op) by (done || lia). fold n.
    destruct (Z.leb_spec (pc + 1) q); [|lia]. simpl.
    destruct (Z.ltb_spec q (pc + 1 + Z.of_nat n)), (Z.leb_spec (pc + 1 + Z.of_nat n) q); try lia; simpl.
    + by rewrite decide_True by lia.
    + rewrite decide_False by lia. replace (Z.to_nat (pc + 1 + Z.of_nat n)) with (Z.to_nat pc + 1 + n)%nat by lia. done.
Qed.

Lemma bitmap_loop_ok code fuel : forall pc bits,
  0 <= pc -> zlen code <= pc + Z.of_nat fuel -> zlen code / 8 + 5 <= zlen bits ->
  exists bits', bitmap_loop fuel code pc bits = Ok bits' /\ length bits' = length bits /\
    forall q, 0 <= q < zlen code -> getbit bits' q = getbit bits q || marks code pc q.
Proof.
  induction fuel as [|fuel IH]; intros pc bits Hp Hf Hl; cbn [bitmap_loop];
    destruct (code !! Z.to_nat pc) as [op|] eqn:E.
  - apply lookup_lt_Some in E. lia.
  - exists bits. split; [done|]. split; [done|]. intros q Hq. unfold marks.
    destruct (Z.leb_spec pc q); simpl; [lia|]. by rewrite orb_false_r.
  - pose proof (lookup_lt_Some _ _ _ E) as Hlt. pose proof (marks_step code pc op) as Hm. revert Hm.
    unfold push_size. destruct ((PUSH1_byte <=? op) && (op <=? PUSH32_byte)) eqn:Epush; intros Hm.
    + unfold PUSH1_byte, PUSH32_byte in *. set (k := op - 0x60 + 1) in *.
      assert (1 <= k <= 32) by (unfold k; bool_to_prop; lia).
      assert ((pc + 1 + k) / 8 <= zlen code / 8 + 4).
      { rewrite <- (Z.div_add _ 4) by lia. apply Z.div_le_mono; lia. }
      pose proof (Z.div_mod k 8). pose proof (Z.mod_pos_bound k 8).
      destruct (mark8_ok 4 (pc + 1) k bits) as (b & -> & L & B); [lia..|].
      destruct (mark1_ok (Z.to_nat (k mod 8)) (pc + 1 + 8 * (k / 8)) b) as (b' & -> & L' & B'); [lia| |].
      { rewrite Z2Nat.id by lia. replace (pc + 1 + 8 * (k / 8) + k mod 8) with (pc + 1 + k) by lia. rewrite L. lia. }
      rewrite Z2Nat.id in * by lia. replace (pc + 1 + 8 * (k / 8) + k mod 8) with (pc + 1 + k) in * by lia.
      destruct (IH (pc + 1 + k) b') as (b2 & E2 & L2 & B2); [lia..|rewrite L', L; lia|].
      exists b2. split; [done|]. split; [congruence|]. intros q Hq.
      rewrite B2, B', B, Hm, <- !orb_assoc by (done || lia). f_equal. rewrite !orb_assoc. f_equal.
      unfold within. destruct (Z.leb_spec (pc + 1) q), (Z.ltb_spec q (pc + 1 + 8 * (k / 8))),
        (Z.leb_spec (pc + 1 + 8 * (k / 8)) q), (Z.ltb_spec q (pc + 1 + k)); simpl; try done; lia.
    + destruct (IH (pc + 1) bits) as (b2 & E2 & L2 & B2); [lia..|done|].
      exists b2. split; [done|]. split; [done|]. intros q Hq. rewrite B2, Hm by (done || lia). f_equal.
      rewrite Z.add_0_r. unfold within. destruct (Z.leb_spec (pc + 1) q), (Z.ltb_spec q (pc + 1)); simpl; try done; lia.
  - exists bits. split; [done|]. split; [done|]. intros q Hq. apply lookup_ge_None in E. unfold marks.
    destruct (Z.leb_spec pc q); simpl; [lia|]. by rewrite orb_false_r.
Qed.

Lemma getbit_empty n q : getbit (replicate n 0) q = false.
Proof.
  unfold getbit. destruct (replicate n 0 !! _) as [b|] eqn:E; [|done]. apply lookup_replicate in E as [-> _]. apply Z.bits_0.
Qed.

Lemma pushdata_length n code : length (pushdata n code) = length code.
Proof. revert n. induction code as [|op code IH]; intros [|n]; simpl; by rewrite ?IH. Qed.

Lemma land_bit b r : 0 <= r < 8 -> (Z.land b (Z.shiftr 0x80 r) =? 0) = negb (Z.testbit b (7 - r)).
Proof.
  intros Hr. assert (Z.shiftr 0x80 r = 2 ^ (7 - r)) as ->.
  { rewrite Z.shiftr_div_pow2 by lia. change 0x80 with (2 ^ 7). symmetry. apply Z.pow_sub_r; lia. }
  destruct (Z.testbit b (7 - r)) eqn:E; simpl.
  - apply Z.eqb_neq. intros Hz. apply (f_equal (fun z => Z.testbit z (7 - r))) in Hz.
    by rewrite Z.land_spec, E, Z.pow2_bits_true, Z.bits_0 in Hz by lia.
  - apply Z.eqb_eq, Z.bits_inj'. intros n Hn. rewrite Z.land_spec, Z.bits_0, Z.pow2_bits_eqb by lia.
    destruct (Z.eqb_spec (7 - r) n) as [<-|]; [by rewrite E|apply andb_false_r].
Qed.

(** The bit vector exists, and each bit of it. *)
Lemma codeBitmap_ok code :
  exists bits, codeBitmap code = Ok bits /\
    forall q, 0 <= q < zlen code ->
      codeSegment q bits = Some (bool_decide (pushdata 0 code !! Z.to_nat q = Some false)).
Proof.
  unfold codeBitmap. set (n := (length code / 8 + 1 + 4)%nat).
  assert (zlen code / 8 + 5 <= Z.of_nat n) as Hn.
  { unfold n. rewrite !Nat2Z.inj_add, Nat2Z.inj_div. lia. }
  destruct (bitmap_loop_ok code (length code) 0 (replicate n 0)) as (bits & -> & L & B);
    [lia..|by rewrite length_replicate|].
  exists bits. split; [done|]. intros q Hq. specialize (B q Hq). rewrite getbit_empty in B. simpl in B.
  rewrite length_replicate in L. unfold codeSegment. unfold getbit in B.
  assert (0 <= q / 8) by (apply Z.div_pos; lia). pose proof (Z.div_le_mono q (zlen code) 8).
  destruct (lookup_lt_is_Some_2 bits (Z.to_nat (q / 8))) as [b Hb]; [lia|]. rewrite Hb in *. simpl. f_equal.
  rewrite land_bit by (apply Z.mod_pos_bound; lia). rewrite B. unfold marks. rewrite (proj2 (Z.leb_le 0 q)) by lia.
  rewrite drop_0, Nat.sub_0_r. simpl.
  destruct (lookup_lt_is_Some_2 (pushdata 0 code) (Z.to_nat q)) as [[] ->]; [rewrite pushdata_length; lia|done..].
Qed.

(** ** Destinations *)

Lemma BitLen_le x n : 0 <= x -> 0 <= n -> Word.BitLen x <= n <-> x < 2 ^ n.
Proof.
  intros Hx Hn. unfold Word.BitLen. rewrite Z.abs_eq by done. destruct (Z.eqb_spec x 0) as [->|].
  - split; [intros _; apply Z.pow_pos_nonneg; lia|done].
  - rewrite Z.log2_lt_pow2 by lia. lia.
Qed.

Lemma Uint64_small x : in_u64 x -> Uint64 x = x.
Proof. intros Hx. unfold Uint64. rewrite Z.abs_eq by apply Hx. by apply u64_small. Qed.

(** The entry of a code in the map, if any, is its bit vector. *)
Definition entry_of (d : destinations) (h : Hash) (code : list Z) : Prop :=
  forall m, d !! h = Some m -> codeBitmap code = Ok m.

Lemma has_ok d h code dest :
  0 <= dest -> zlen code <= 2 ^ 62 -> entry_of d h code ->
  exists d', has d h code dest = Ok (d', valid_dest code dest) /\
    (d' = d \/ exists m, codeBitmap code = Ok m /\ d' = <[h := m]> d).
Proof.
  intros Hd Hc He. unfold has. destruct (Z.leb_spec 63 (Word.BitLen dest)) as [L|L]; simpl.
  - assert (~ dest < 2 ^ 62) by (rewrite <- BitLen_le by lia; lia).
    exists d. split; [|by left]. unfold valid_dest. rewrite lookup_ge_None_2 by lia.
    by rewrite andb_false_r.
  - assert (dest < 2 ^ 62) by (apply BitLen_le; lia). rewrite Uint64_small by (unfold in_u64; lia).
    destruct (Z.leb_spec (zlen code) dest).
    + exists d. split; [|by left]. unfold valid_dest. rewrite lookup_ge_None_2 by lia. by rewrite andb_false_r.
    + destruct (codeBitmap_ok code) as (bits & Eb & Hseg). specialize (Hseg dest ltac:(lia)).
      destruct (lookup_lt_is_Some_2 code (Z.to_nat dest)) as [op Hop]; [lia|].
      assert (valid_dest code dest = (op =? JUMPDEST_byte) && bool_decide (pushdata 0 code !! Z.to_nat dest = Some false)) as Hv.
      { unfold valid_dest. rewrite (proj2 (Z.leb_le 0 dest)), Hop by lia. simpl. f_equal.
        destruct (Z.eqb_spec op JUMPDEST_byte); [by rewrite bool_decide_true by congruence|by rewrite bool_decide_false by congruence]. }
      destruct (d !! h) as [m|] eqn:Em.
      * assert (m = bits) as -> by (pose proof (He m Em); congruence). rewrite Hop, Hseg, <- Hv. eauto.
      * rewrite Eb, Hop, Hseg, <- Hv. eauto 6.
Qed.

(** Without what the map should hold the analysis may also find a bit vector that is too
    short for the code. *)
Lemma has_cases d h code dest :
  0 <= dest -> zlen code <= 2 ^ 62 ->
  has d h code dest = Err StaleBitmap /\ ~ entry_of d h code \/
  exists d' b, has d h code dest = Ok (d', b) /\ (d' = d \/ exists m, codeBitmap code = Ok m /\ d' = <[h := m]> d).
Proof.
  intros Hd Hc. destruct (codeBitmap_ok code) as (bits & Eb & _).
  destruct (d !! h) as [m|] eqn:Em.
  2:{ right. destruct (has_ok d h code dest Hd Hc) as (d' & E & Hd'); [by intros m; rewrite Em|]. by eexists _, _. }
  destruct (decide (m = bits)) as [->|Hne].
  { right. destruct (has_ok d h code dest Hd Hc) as (d' & E & Hd'); [intros m'; rewrite Em; by intros [= <-]|].
    by eexists _, _. }
  assert (~ entry_of d h code) as Hn by (intros He; specialize (He m Em); congruence).
  unfold has. destruct (Z.leb_spec 63 (Word.BitLen dest)) as [L|L]; simpl; [right; eauto 6|].
  assert (dest < 2 ^ 62) by (apply BitLen_le; lia). rewrite Uint64_small by (unfold in_u64; lia).
  destruct (Z.leb_spec (zlen code) dest); [right; eauto 6|]. rewrite Em.
  destruct (lookup_lt_is_Some_2 code (Z.to_nat dest)) as [op ->]; [lia|].
  destruct (codeSegment dest m); [right; eauto 6|]. destruct (op =? JUMPDEST_byte); [by left|right; eauto 6].
Qed.

(** C19: a jump is accepted exactly at a JUMPDEST byte that a scan of the code from
    its start does not take as push data; the analysis does not panic, and what it
    leaves in the map is again the bit vector of the code. *)
Theorem has_exact d h code dest :
  0 <= dest -> zlen code <= 2 ^ 62 -> entry_of d h code ->
  exists d', has d h code dest = Ok (d', valid_dest code dest) /\ entry_of d' h code.
Proof.
  intros Hd Hc He. destruct (has_ok d h code dest Hd Hc He) as (d' & E & [->|(m & Em & ->)]); (eexists; split; [done|]); [done|].
  intros m'. rewrite lookup_insert_eq. by intros [= <-].
Qed.

(** PUSH2 0x5b5b, JUMPDEST. *)
Lemma has_exact_witness :
  (exists d', has ∅ 0%N [0x61; 0x5b; 0x5b; 0x5b] 2 = Ok (d', false) /\ entry_of d' 0%N [0x61; 0x5b; 0x5b; 0x5b]) /\
  (exists d', has ∅ 0%N [0x61; 0x5b; 0x5b; 0x5b] 3 = Ok (d', true) /\ entry_of d' 0%N [0x61; 0x5b; 0x5b; 0x5b]).
Proof.
  split; [apply (has_exact ∅ 0%N [0x61; 0x5b; 0x5b; 0x5b] 2)|apply (has_exact ∅ 0%N [0x61; 0x5b; 0x5b; 0x5b] 3)];
    done || (intros m; by rewrite lookup_empty).
Defined.

End EvmAnalysis.
