(* ===== verification/EvmState.v ===== *)
(** * What the virtual machine does to the state database

    The effect of every call of the database on its view, the two conditions on
    views that a run keeps, and the relation between the database before and
    after a run: snapshots taken before it are still there. *)

From S2P Require Import Prelude Common Rlp Crypto RlpDecode Deposit StateDB Snapshot StateRoot StateRun.

Module EvmState.
Import StateDB Snapshot StateRun.
Section EvmState.
Context `{Crypto} `{TrieLaws}.

(** ** Readers *)

(** Nothing that can be seen changed. *)
Definition quiet (s s' : StateDB) : Prop := evolves s s' /\ same (view_of s') (view_of s).

Lemma quiet_get a s : inv s -> quiet s (getStateObject a s).1.
Proof.
  intros Hi. destruct (getStateObject a s) as [s1 p] eqn:Eg. simpl.
  split; [by destruct (evolves_get a s s1 p Hi Eg)|].
  destruct (getStateObject_spec a s s1 p Hi Eg) as (_ & _ & (m & ->) & Ho). by apply view_objects.
Qed.

Lemma quiet_trans s1 s2 s3 : quiet s1 s2 -> quiet s2 s3 -> quiet s1 s3.
Proof. intros [E1 V1] [E2 V2]. split; [by eapply evolves_trans|by rewrite V2]. Qed.

(** A reader that leaves the object it found with something more in its cache. *)
Lemma quiet_cache a s (f : stateObject -> stateObject) :
  inv s ->
  (forall o, address (f o) = address o /\ deleted (f o) = deleted o /\ obj_acct (f o) = obj_acct o /\
     (forall k, obj_sto (f o) k = obj_sto o k) /\ (obj_ok o -> obj_ok (f o))) ->
  quiet s (let '(s, o) := getStateObject a s in match o with Some o => setStateObject (f o) s | None => s end).
Proof.
  intros Hi Hf. pose proof (quiet_get a s Hi) as Hq. destruct (getStateObject a s) as [s1 p] eqn:Eg. simpl in Hq.
  destruct (evolves_get a s s1 p Hi Eg) as (Hev & Hp1 & _). destruct p as [o|]; [|done].
  pose proof (ev_inv _ _ Hev) as Hi1. destruct (obj_at_inv s1 a o Hi1 (eq_sym Hp1)) as (Ha & Hd & Ho).
  destruct (Hf o) as (Fa & Fd & Fx & Fs & Fo). eapply quiet_trans; [done|].
  assert (obj_at s1 (address (f o)) = Some o) as Hat by (by rewrite Fa, Ha).
  split; [apply (evolves_cache s1 o); auto; congruence|apply (view_put_same o); auto; congruence].
Qed.

Lemma quiet_GetCode a s : inv s -> quiet s (GetCode a s).1.
Proof.
  intros Hi. pose proof (quiet_cache a s (fun o => (obj_Code o).1) Hi) as Hq.
  assert (forall o2, address (obj_Code o2).1 = address o2 /\ deleted (obj_Code o2).1 = deleted o2 /\
     obj_acct (obj_Code o2).1 = obj_acct o2 /\ (forall k', obj_sto (obj_Code o2).1 k' = obj_sto o2 k') /\
     (obj_ok o2 -> obj_ok (obj_Code o2).1)) as Hs.
  { intros o2. destruct (obj_Code o2) as [o3 c3] eqn:E3. by destruct (obj_Code_spec o2 o3 c3 E3) as (? & ? & ? & ? & ? & _). }
  specialize (Hq Hs). unfold GetCode. destruct (getStateObject a s) as [s1 [o|]]; [|done].
  destruct (obj_Code o) as [o1 c]. done.
Qed.

Lemma quiet_GetState a k s : inv s -> quiet s (GetState a k s).1.
Proof.
  intros Hi. pose proof (quiet_cache a s (fun o => (obj_GetState k o).1) Hi) as Hq.
  assert (forall o2, address (obj_GetState k o2).1 = address o2 /\ deleted (obj_GetState k o2).1 = deleted o2 /\
     obj_acct (obj_GetState k o2).1 = obj_acct o2 /\ (forall k', obj_sto (obj_GetState k o2).1 k' = obj_sto o2 k') /\
     (obj_ok o2 -> obj_ok (obj_GetState k o2).1)) as Hs.
  { intros o2. destruct (obj_GetState k o2) as [o3 c3] eqn:E3. by destruct (obj_GetState_spec k o2 o3 c3 E3) as (_ & ?). }
  specialize (Hq Hs). unfold GetState. destruct (getStateObject a s) as [s1 [o|]]; [|done].
  destruct (obj_GetState k o) as [o1 c]. done.
Qed.

(** ** Writers *)

(** An account that a call created. *)
Definition fresh : acct := mkAcct NonceAddOne 0 emptyCodeHash [] false.
Definition acct_at (V : view) (a : Address) : acct := default fresh (v_acc V a).

#[global] Instance upd_acc_same a x : Proper (same ==> same) (upd_acc a x).
Proof. intros V W (A & S & R & L & LS & P). split_and!; try done; intros; simpl; unfold fupd; by case_decide. Qed.
#[global] Instance upd_sto_same a f : Proper (same ==> same) (upd_sto a f).
Proof. intros V W (A & S & R & L & LS & P). split_and!; try done; intros; simpl; unfold fupd; by case_decide. Qed.

Lemma fresh_object a : obj_acct (setNonce NonceAddOne (newObject a zero_account)) = fresh.
Proof. unfold obj_acct, code_of. simpl. by rewrite N.eqb_refl. Qed.

(** The object that is there afterwards, and the view. *)
Lemma get_or_new_view a s s' o :
  inv s -> GetOrNewStateObject a s = (s', o) ->
  obj_acct o = acct_at (view_of s) a /\ (forall k, obj_sto o k = v_sto (view_of s) a k) /\
  same (view_of s') (upd_acc a (Some (obj_acct o)) (view_of s)).
Proof.
  intros Hi E. unfold GetOrNewStateObject in E. pose proof (quiet_get a s Hi) as [_ Hq].
  destruct (getStateObject a s) as [s1 p] eqn:Eg. simpl in Hq.
  destruct (evolves_get a s s1 p Hi Eg) as (Hev & Hp1 & Hp). unfold acct_at. cbn [view_of v_acc v_sto].
  rewrite <- Hp. destruct p as [p|]; cbn [fmap option_fmap option_map default].
  - injection E as <- <-. split; [done|]. split; [done|]. rewrite Hq.
    split_and!; try done. intros b. simpl. unfold fupd. case_decide; [subst; by rewrite <- Hp|done].
  - unfold createObject in E. pose proof (ev_inv _ _ Hev) as Hi1. pose proof (quiet_get a s1 Hi1) as [_ Hq2].
    destruct (getStateObject a s1) as [s2 p2] eqn:Eg2. injection E as <- <-. simpl in Hq2.
    rewrite fresh_object. split; [done|]. split; [apply new_object_sto|].
    rewrite view_put by done. rewrite fresh_object. cbn [address setNonce set_data newObject].
    change (view_of (journal_append _ s2)) with (view_of s2). rewrite Hq2, Hq.
    split_and!; try done. intros b k. simpl. unfold fupd. case_decide; [subst|done].
    rewrite new_object_sto. by rewrite <- Hp.
Qed.

(** A change of the object under [a]. *)
Lemma on_view a s s1 o o' e :
  inv s -> GetOrNewStateObject a s = (s1, o) -> address o' = a -> deleted o' = false ->
  same (view_of (setStateObject o' (journal_append e s1)))
    (upd_acc a (Some (obj_acct o')) (upd_sto a (obj_sto o') (view_of s))).
Proof.
  intros Hi E Ha Hd. destruct (get_or_new_view a s s1 o Hi E) as (_ & _ & Hv).
  rewrite view_put by done. change (view_of (journal_append e s1)) with (view_of s1). rewrite Hv, Ha.
  split_and!; try done; intros; simpl; unfold fupd; by repeat case_decide.
Qed.

Lemma upd_sto_id a V : same (upd_sto a (v_sto V a) V) V.
Proof. split_and!; try done. intros b k. simpl. unfold fupd. case_decide; by subst. Qed.

Lemma held_new a s s1 o :
  inv s -> GetOrNewStateObject a s = (s1, o) -> address o = a /\ deleted o = false.
Proof. intros Hi E. destruct (evolves_get_or_new a s s1 o Hi E) as (_ & (_ & _ & ? & _) & ?). done. Qed.

(** The object keeps its storage. *)
Lemma on_account_view a s s1 o o' e x :
  inv s -> GetOrNewStateObject a s = (s1, o) -> address o' = a -> deleted o' = false ->
  (forall k, obj_sto o' k = obj_sto o k) -> obj_acct o' = x ->
  same (view_of (setStateObject o' (journal_append e s1))) (upd_acc a (Some x) (view_of s)).
Proof.
  intros Hi E Ha Hd Hs <-. rewrite (on_view a s s1 o o' e Hi E Ha Hd).
  destruct (get_or_new_view a s s1 o Hi E) as (_ & Ho & _).
  split_and!; try done. intros b k. simpl. unfold fupd. case_decide; [subst b|done]. by rewrite Hs, Ho.
Qed.

Lemma view_SetBalance a n s :
  inv s -> same (view_of (SetBalance a n s)) (upd_acc a (Some (with_balance n (acct_at (view_of s) a))) (view_of s)).
Proof.
  intros Hi. unfold SetBalance. destruct (GetOrNewStateObject a s) as [s1 o] eqn:E.
  destruct (held_new a s s1 o Hi E) as [<- Hd]. destruct (get_or_new_view _ s s1 o Hi E) as (<- & _).
  by apply (on_account_view _ s s1 o).
Qed.

Lemma with_balance_id x : with_balance (ac_Balance x) x = x.
Proof. by destruct x. Qed.

Lemma view_touch a s s1 o :
  inv s -> GetOrNewStateObject a s = (s1, o) ->
  same (view_of s1) (upd_acc a (Some (acct_at (view_of s) a)) (view_of s)) /\ view_of (touch o s1) = view_of s1.
Proof.
  intros Hi E. destruct (get_or_new_view a s s1 o Hi E) as (<- & _ & Hv). split; [done|].
  unfold touch. by destruct (address o =? ripemd)%N.
Qed.

Lemma view_AddBalance a n s :
  inv s ->
  same (view_of (AddBalance a n s))
    (upd_acc a (Some (with_balance (ac_Balance (acct_at (view_of s) a) + n) (acct_at (view_of s) a))) (view_of s)).
Proof.
  intros Hi. unfold AddBalance. destruct (GetOrNewStateObject a s) as [s1 o] eqn:E. unfold obj_AddBalance.
  destruct (held_new a s s1 o Hi E) as [Ha Hd]. destruct (view_touch a s s1 o Hi E) as [Ht Ht'].
  destruct (Z.eqb_spec n 0) as [->|].
  - rewrite Z.add_0_r, with_balance_id. destruct (empty o); [by rewrite Ht'|done].
  - destruct (get_or_new_view _ s s1 o Hi E) as (<- & _). by apply (on_account_view _ s s1 o).
Qed.

Lemma view_SubBalance a n s :
  inv s ->
  same (view_of (SubBalance a n s))
    (upd_acc a (Some (with_balance (ac_Balance (acct_at (view_of s) a) - n) (acct_at (view_of s) a))) (view_of s)).
Proof.
  intros Hi. unfold SubBalance. destruct (GetOrNewStateObject a s) as [s1 o] eqn:E. unfold obj_SubBalance.
  destruct (held_new a s s1 o Hi E) as [Ha Hd]. destruct (view_touch a s s1 o Hi E) as [Ht _].
  destruct (Z.eqb_spec n 0) as [->|].
  - by rewrite Z.sub_0_r, with_balance_id.
  - destruct (get_or_new_view _ s s1 o Hi E) as (<- & _). by apply (on_account_view _ s s1 o).
Qed.

Lemma view_SetNonce a n s :
  inv s ->
  same (view_of (SetNonce a n s))
    (upd_acc a (Some (with_nonce (Z.lor n NonceAddOne) (acct_at (view_of s) a))) (view_of s)).
Proof.
  intros Hi. unfold SetNonce. destruct (GetOrNewStateObject a s) as [s1 o] eqn:E.
  destruct (held_new a s s1 o Hi E) as [Ha Hd]. destruct (get_or_new_view _ s s1 o Hi E) as (<- & _).
  by apply (on_account_view _ s s1 o).
Qed.

Lemma view_SetCode a c s :
  inv s ->
  same (view_of (SetCode a c s))
    (upd_acc a (Some (with_code (Keccak256 c) c (acct_at (view_of s) a))) (view_of s)).
Proof.
  intros Hi. unfold SetCode. destruct (GetOrNewStateObject a s) as [s1 o] eqn:E. unfold obj_SetCode.
  destruct (held_new a s s1 o Hi E) as [Ha Hd]. destruct (get_or_new_view _ s s1 o Hi E) as (<- & _).
  destruct (obj_Code o) as [o1 pc] eqn:Ec. destruct (obj_Code_spec o o1 pc Ec) as (Fa & Fd & Fx & Fs & _).
  apply (on_account_view _ s s1 o); try done; [by simpl; rewrite Fa|by simpl; rewrite Fd|].
  unfold with_code. rewrite <- Fx. done.
Qed.

Lemma view_SetState a k v s :
  inv s ->
  same (view_of (SetState a k v s))
    (upd_acc a (Some (acct_at (view_of s) a))
      (upd_sto a (fun k' => if decide (k' = k) then v else v_sto (view_of s) a k') (view_of s))).
Proof.
  intros Hi. unfold SetState. destruct (GetOrNewStateObject a s) as [s1 o] eqn:E. unfold obj_SetState.
  destruct (held_new a s s1 o Hi E) as [Ha Hd]. destruct (get_or_new_view _ s s1 o Hi E) as (<- & Ho & _).
  destruct (obj_GetState k o) as [o1 pv] eqn:Ec. destruct (obj_GetState_spec k o o1 pv Ec) as (_ & Fa & Fd & Fx & Fs & _).
  rewrite (on_view a s s1 o (setState k v o1)); [|done|done|by simpl; rewrite Fa|by simpl; rewrite Fd].
  change (obj_acct (setState k v o1)) with (obj_acct o1). rewrite Fx.
  split_and!; try done. intros b k'. simpl. unfold fupd. case_decide; [|done].
  rewrite obj_sto_setState, Fs, Ho. done.
Qed.

Lemma view_Suicide a s :
  inv s ->
  same (view_of (Suicide a s).1)
    (upd_acc a (with_suicided true 0 <$> v_acc (view_of s) a) (view_of s)).
Proof.
  intros Hi. unfold Suicide. pose proof (quiet_get a s Hi) as [_ Hq]. destruct (getStateObject a s) as [s1 p] eqn:Eg.
  destruct (evolves_get a s s1 p Hi Eg) as (Hev & Hp1 & Hp). simpl in Hq.
  assert (v_acc (view_of s) a = obj_acct <$> p) as Hacc by (simpl; by rewrite <- Hp).
  rewrite Hacc. destruct p as [o|]; simpl.
  - pose proof (ev_inv _ _ Hev) as Hi1. destruct (obj_at_inv s1 a o Hi1 (eq_sym Hp1)) as (<- & Hd & Hok).
    rewrite view_put by done. change (view_of (journal_append _ s1)) with (view_of s1). rewrite Hq.
    split_and!; try done. intros b k. simpl. unfold fupd. case_decide; [subst|done]. by rewrite <- Hp.
  - rewrite Hq. split_and!; try done. intros b. simpl. unfold fupd. case_decide; [subst; by rewrite <- Hp|done].
Qed.

Lemma view_CreateAccount a s :
  inv s ->
  same (view_of (CreateAccount a s))
    (upd_acc a (Some (with_balance (ac_Balance (acct_at (view_of s) a)) fresh))
       (upd_sto a (fun _ => 0%N) (view_of s))).
Proof.
  intros Hi. unfold CreateAccount, createObject. pose proof (quiet_get a s Hi) as [_ Hq].
  destruct (getStateObject a s) as [s1 p] eqn:Eg. simpl in Hq.
  destruct (evolves_get a s s1 p Hi Eg) as (_ & _ & Hp).
  assert (acct_at (view_of s) a = default fresh (obj_acct <$> p)) as -> by (unfold acct_at; simpl; by rewrite <- Hp).
  destruct p as [p|]; [rewrite set_put by done|]; rewrite view_put by done;
    change (view_of (journal_append _ s1)) with (view_of s1); rewrite Hq;
    (split_and!; [|intros b k|done..]); simpl; unfold fupd; try (intros b); case_decide; try done.
  - unfold obj_acct, code_of. simpl. by rewrite N.eqb_refl.
  - apply (new_object_sto a NonceAddOne).
  - unfold obj_acct, code_of. simpl. by rewrite N.eqb_refl.
  - apply (new_object_sto a NonceAddOne).
Qed.

(** ** What a run keeps *)

Definition byte (b : Z) : Prop := 0 <= b < 256.

(** Data that fits in a memory; a slice of the machine is never longer. *)
Definition max_len : Z := 2 ^ 40.
Definition bytes (l : list Z) : Prop := Forall byte l /\ Z.of_nat (length l) <= max_len.

(** Balances are not negative; code consists of bytes and has the hash that the
    account records. *)
Definition acct_ok (x : acct) : Prop :=
  0 <= ac_Balance x /\ bytes (ac_code x) /\ Keccak256 (ac_code x) = ac_CodeHash x.
Definition sane (V : view) : Prop := forall a x, v_acc V a = Some x -> acct_ok x.

(** The second view differs from the first only in accounts that were made and
    in preimages. *)
Definition static (V W : view) : Prop :=
  (forall a, v_acc W a = v_acc V a \/ (v_acc V a = None /\ v_acc W a = Some fresh)) /\
  (forall a k, v_sto W a k = v_sto V a k) /\
  v_refund W = v_refund V /\ v_logs W = v_logs V /\ v_logSize W = v_logSize V.

#[global] Instance sane_same : Proper (same ==> iff) sane.
Proof. intros V W (A & _). unfold sane. split; intros Hs a x; [rewrite <- A|rewrite A]; apply Hs. Qed.

#[global] Instance static_same : Proper (same ==> same ==> iff) static.
Proof.
  assert (forall V V' W W', same V V' -> same W W' -> static V W -> static V' W') as Hp.
  { intros V V' W W' (A1 & S1 & R1 & L1 & Z1 & _) (A2 & S2 & R2 & L2 & Z2 & _) (A & S & R & L & Z).
    split_and!; [|intros a k; by rewrite <- S1, <- S2|congruence..]. intros a. rewrite <- A1, <- A2. apply A. }
  intros V V' HV W W' HW. split; apply Hp; done || (by symmetry).
Qed.

#[global] Instance static_preorder : PreOrder static.
Proof.
  split.
  - intros V. split_and!; auto.
  - intros U V W (A1 & S1 & R1 & L1 & Z1) (A2 & S2 & R2 & L2 & Z2).
    split_and!; [|intros a k; by rewrite S2|congruence..]. intros a.
    destruct (A1 a) as [E1|[E1 E1']], (A2 a) as [E2|[E2 E2']]; first [left; congruence|right; split; congruence|congruence].
Qed.

Lemma same_static V W : same W V -> static V W.
Proof. intros ->. done. Qed.

Lemma acct_ok_fresh : acct_ok fresh.
Proof. split; [done|]. split; [|done]. split; [done|]. unfold max_len. simpl. lia. Qed.

Lemma sane_at V a : sane V -> acct_ok (acct_at V a).
Proof.
  intros Hs. unfold acct_at. destruct (v_acc V a) as [x|] eqn:E; [by apply Hs with a|apply acct_ok_fresh].
Qed.

Lemma sane_upd a x V : sane V -> acct_ok x -> sane (upd_acc a (Some x) V).
Proof. intros Hs Hx b y. simpl. unfold fupd. case_decide; [by intros [= <-]|apply Hs]. Qed.

Lemma sane_sto a f V : sane V -> sane (upd_sto a f V).
Proof. done. Qed.

(** Making an account that is not there, and touching one, is static. *)
Lemma static_fresh a V : v_acc V a = None -> static V (upd_acc a (Some fresh) V).
Proof.
  intros Ha. split_and!; try done. intros b. simpl. unfold fupd. case_decide; [subst; auto|auto].
Qed.

Lemma static_at a V : static V (upd_acc a (Some (acct_at V a)) V).
Proof.
  unfold acct_at. destruct (v_acc V a) as [x|] eqn:E; [|by apply static_fresh].
  apply same_static. split_and!; try done. intros b. simpl. unfold fupd. case_decide; by subst.
Qed.

(** ** Before and after *)

Definition sound (s : StateDB) : Prop := good s /\ sane (view_of s).

(** The snapshots that were there are still there. *)
Record ext (s s' : StateDB) : Prop := {
  ext_sound : sound s';
  ext_next : nextRevisionId s <= nextRevisionId s';
  ext_kept id V : id < nextRevisionId s -> kept id V s -> kept id V s'
}.

Lemma ext_refl s : sound s -> ext s s.
Proof. intros. split; [done|lia|done]. Qed.

Lemma ext_trans s1 s2 s3 : ext s1 s2 -> ext s2 s3 -> ext s1 s3.
Proof.
  intros [S1 N1 K1] [S2 N2 K2]. split; [done|lia|]. intros id V Hid Hk. apply K2; [lia|]. by apply K1.
Qed.

Lemma ext_evolves s s' : sound s -> evolves s s' -> sane (view_of s') -> ext s s'.
Proof.
  intros [Hg Hs] Hev Hs'. split; [|by rewrite (ev_next _ _ Hev)|].
  - split; [by apply (evolves_good s)|done].
  - intros id V _ (n & Hin & Hr). exists n. rewrite (ev_revisions _ _ Hev). split; [done|].
    apply (evolves_rev s); [done| |done]. by apply (g_revisions s Hg).
Qed.

Lemma ext_quiet s s' : sound s -> quiet s s' -> ext s s'.
Proof. intros Hs [Hev Hv]. apply ext_evolves; try done. rewrite Hv. by destruct Hs. Qed.

Lemma snapshot_ext s : sound s -> ext s (Snapshot s).1.
Proof.
  intros [Hg Hs]. split; [|simpl; lia|].
  - split; [by apply snapshot_good|done].
  - intros id V _ (n & Hin & Hr). exists n. split; [simpl; apply elem_of_app; by left|done].
Qed.

Lemma revert_entry_next e s s' : revert_entry e s = Some s' -> nextRevisionId s' = nextRevisionId s.
Proof.
  assert (forall a, nextRevisionId (getStateObject a s).1 = nextRevisionId s) as Hn
    by (intros a; unfold getStateObject; by repeat case_match).
  destruct e as [a| |a ? ?|a ?|a ?|a ? ?|a ? ?| | | |]; simpl; intros E;
    try (specialize (Hn a)); repeat case_match; simplify_eq/=; done.
Qed.

Lemma revert_loop_next es s s' : revert_loop es s = Some s' -> nextRevisionId s' = nextRevisionId s.
Proof.
  revert s'. induction es as [|e es IH]; simpl; intros s' E; [by simplify_eq|].
  apply bind_Some in E as (s1 & E1 & E). apply bind_Some in E as (s2 & E2 & E). simplify_eq/=.
  rewrite (revert_entry_next e s1 s2 E2). by apply IH.
Qed.

Lemma revert_next id s s' : RevertToSnapshot id s = Some s' -> nextRevisionId s' = nextRevisionId s.
Proof.
  unfold RevertToSnapshot. intros ((idx & id' & n) & _ & E)%bind_Some. case_match; [done|].
  apply bind_Some in E as (s1 & E1 & E). simplify_eq/=. unfold journal_revert in E1.
  apply bind_Some in E1 as (s2 & E2 & E1). simplify_eq/=. by apply revert_loop_next in E2.
Qed.

(** A revert to the snapshot that a run started with. *)
Lemma revert_back s s2 :
  sound s -> ext (Snapshot s).1 s2 ->
  exists s3, RevertToSnapshot (nextRevisionId s) s2 = Some s3 /\ ext s s3 /\ same (view_of s3) (view_of s).
Proof.
  intros Hs [[Hg2 _] Hn2 Hk2]. set (id := nextRevisionId s).
  destruct (Hk2 id (view_of s)) as (n & Hin & Hrev); [simpl; lia| |].
  { exists (length (entries s)). split; [|apply snapshot_rev]. simpl. apply elem_of_app. right. by left. }
  destruct (revert_good id n s2 Hg2 Hin) as (s3 & Hs3 & Hg3 & Hv & Hk3). exists s3. split; [done|].
  assert (same (view_of s3) (view_of s)) as Hv3 by auto. split; [|done]. split.
  - split; [done|]. rewrite Hv3. apply Hs.
  - rewrite (revert_next _ _ _ Hs3). simpl in Hn2. lia.
  - intros i V Hi Hk. destruct (Hk2 i V) as (m & Hm & Hr); [simpl; lia| |].
    { destruct Hk as (m & Hm & Hr). exists m. split; [simpl; apply elem_of_app; by left|done]. }
    destruct (Hk3 (i, m) Hm Hi) as [? ?]. exists m. auto.
Qed.

(** ** The writers, once more *)

Lemma ev_AddBalance a n s : inv s -> evolves s (AddBalance a n s).
Proof. intros Hi. apply evolves_on; auto using evolves_AddBalance. Qed.
Lemma ev_SubBalance a n s : inv s -> evolves s (SubBalance a n s).
Proof. intros Hi. apply evolves_on; auto using evolves_SubBalance. Qed.
Lemma ev_SetNonce a n s : inv s -> evolves s (SetNonce a n s).
Proof. intros Hi. apply (evolves_on a s (obj_SetNonce (Z.lor n NonceAddOne))); auto using evolves_SetNonce. Qed.
Lemma ev_SetCode a c s : inv s -> evolves s (SetCode a c s).
Proof. intros Hi. apply (evolves_on a s (obj_SetCode (Keccak256 c) c)); auto using evolves_SetCode. Qed.
Lemma ev_SetState a k v s : inv s -> evolves s (SetState a k v s).
Proof. intros Hi. apply evolves_on; auto using evolves_SetState. Qed.

Lemma sound_inv s : sound s -> inv s.
Proof. intros [Hg _]. apply Hg. Qed.

Lemma acct_ok_balance n x : acct_ok x -> 0 <= n -> acct_ok (with_balance n x).
Proof. intros (_ & ? & ?) ?. by split_and!. Qed.

(** A writer of one account. *)
Lemma ext_upd s s' a x :
  sound s -> evolves s s' -> same (view_of s') (upd_acc a (Some x) (view_of s)) -> acct_ok x -> ext s s'.
Proof. intros Hs Hev Hv Hx. apply ext_evolves; [done..|]. rewrite Hv. apply sane_upd; [apply Hs|done]. Qed.

Lemma ext_AddBalance a n s : sound s -> 0 <= n -> ext s (AddBalance a n s).
Proof.
  intros Hs Hn. pose proof (sound_inv s Hs) as Hi. pose proof (sane_at _ a (proj2 Hs)) as Ha.
  eapply ext_upd; [done|by apply ev_AddBalance|by apply view_AddBalance|].
  apply acct_ok_balance; [done|]. destruct Ha. lia.
Qed.

Lemma ext_SubBalance a n s : sound s -> n <= ac_Balance (acct_at (view_of s) a) -> ext s (SubBalance a n s).
Proof.
  intros Hs Hn. pose proof (sound_inv s Hs) as Hi. pose proof (sane_at _ a (proj2 Hs)) as Ha.
  eapply ext_upd; [done|by apply ev_SubBalance|by apply view_SubBalance|].
  apply acct_ok_balance; [done|lia].
Qed.

Lemma ext_SetNonce a n s : sound s -> ext s (SetNonce a n s).
Proof.
  intros Hs. pose proof (sound_inv s Hs) as Hi. pose proof (sane_at _ a (proj2 Hs)) as Ha.
  eapply ext_upd; [done|by apply ev_SetNonce|by apply view_SetNonce|]. done.
Qed.

Lemma ext_SetCode a c s : sound s -> bytes c -> ext s (SetCode a c s).
Proof.
  intros Hs Hc. pose proof (sound_inv s Hs) as Hi. pose proof (sane_at _ a (proj2 Hs)) as Ha.
  eapply ext_upd; [done|by apply ev_SetCode|by apply view_SetCode|]. destruct Ha. by split_and!.
Qed.

Lemma ext_SetState a k v s : sound s -> ext s (SetState a k v s).
Proof.
  intros Hs. pose proof (sound_inv s Hs) as Hi. apply ext_evolves; [done|by apply ev_SetState|].
  rewrite view_SetState by done. apply sane_upd; [apply Hs|]. apply sane_at, Hs.
Qed.

Lemma ext_Suicide a s : sound s -> ext s (Suicide a s).1.
Proof.
  intros Hs. pose proof (sound_inv s Hs) as Hi. apply ext_evolves; [done|by apply evolves_Suicide|].
  rewrite view_Suicide by done. intros b x. simpl. unfold fupd. case_decide as Eb; [|apply Hs].
  intros (o & Ho & ->)%fmap_Some. destruct Hs as [_ Hs]. destruct (Hs a o Ho) as (_ & ? & ?). by split_and!.
Qed.

Lemma ext_CreateAccount a s : sound s -> ext s (CreateAccount a s).
Proof.
  intros Hs. pose proof (sound_inv s Hs) as Hi. apply ext_evolves; [done|by apply evolves_CreateAccount|].
  rewrite view_CreateAccount by done. apply sane_upd; [apply Hs|].
  apply acct_ok_balance; [apply acct_ok_fresh|]. apply (sane_at _ a (proj2 Hs)).
Qed.

(** The writers that change no account. *)
Lemma ext_rest s s' : sound s -> evolves s s' -> v_acc (view_of s') = v_acc (view_of s) -> ext s s'.
Proof. intros Hs Hev Hv. apply ext_evolves; [done..|]. intros a x. rewrite Hv. apply Hs. Qed.

Lemma ext_AddRefund g s : sound s -> ext s (AddRefund g s).
Proof. intros Hs. apply ext_rest; [done|apply evolves_AddRefund; by apply sound_inv|done]. Qed.
Lemma ext_AddLog c s : sound s -> ext s (AddLog c s).
Proof. intros Hs. apply ext_rest; [done|apply evolves_AddLog; by apply sound_inv|done]. Qed.
Lemma ext_AddPreimage h p s : sound s -> ext s (AddPreimage h p s).
Proof.
  intros Hs. apply ext_rest; [done|apply evolves_AddPreimage; by apply sound_inv|].
  unfold AddPreimage. by destruct (preimages s !! h).
Qed.

(** ** Balances *)

Lemma balance_of a s : (GetBalance a s).2 = ac_Balance (acct_at (view_of s) a).
Proof.
  unfold GetBalance, acct_at. destruct (getStateObject a s) as [s1 p] eqn:Eg.
  rewrite (getStateObject_obj _ _ _ _ Eg). simpl. by destruct (obj_at s a).
Qed.

Lemma exist_of a s : (Exist a s).2 = match v_acc (view_of s) a with Some _ => true | None => false end.
Proof.
  unfold Exist. destruct (getStateObject a s) as [s1 p] eqn:Eg.
  rewrite (getStateObject_obj _ _ _ _ Eg). simpl. by destruct (obj_at s a).
Qed.

End EvmState.
End EvmState.
