(* ===== verification/Evm.v ===== *)
(** * The virtual machine: instructions, interpreter and calls

    Models core/vm/opcodes.go, jump_table.go, stack_table.go, instructions.go,
    interpreter.go and evm.go, and the transfers of core/evm.go.

    Precompiled contracts are behind the interface that contracts.go declares
    ([PrecompiledContract]); the ones of the node are in EvmNatives.v.  Tracing
    and the cancellation of a run are not modelled.

    A run recurses through the calls it makes.  [loop] takes fuel, one unit for
    every instruction and passed on to inner calls; EvmTotal.v shows that the gas
    of the call bounds the fuel it needs. *)

From S2P Require Import Prelude Common Rlp Crypto RlpDecode Deposit StateDB EvmWord EvmMachine.

Module Evm.
Import Machine.

(** ** Instructions *)

Inductive OpCode :=
| STOP | ADD | MUL | SUB | DIV | SDIV | MOD | SMOD | ADDMOD | MULMOD | EXP | SIGNEXTEND
| LT | GT | SLT | SGT | EQ | ISZERO | AND | OR | XOR | NOT | BYTE | SHL | SHR | SAR | SHA3
| ADDRESS | BALANCE | ORIGIN | CALLER | CALLVALUE | CALLDATALOAD | CALLDATASIZE | CALLDATACOPY
| CODESIZE | CODECOPY | GASPRICE | EXTCODESIZE | EXTCODECOPY | RETURNDATASIZE | RETURNDATACOPY
| BLOCKHASH | COINBASE | TIMESTAMP | NUMBER | DIFFICULTY | GASLIMIT
| POP | MLOAD | MSTORE | MSTORE8 | SLOAD | SSTORE | JUMP | JUMPI | PC | MSIZE | GAS | JUMPDEST
| PUSH (n : nat) | DUP (n : nat) | SWAP (n : nat) | LOG (n : nat)
| CREATE | CALL | CALLCODE | RETURN | DELEGATECALL | STATICCALL | REVERT | SELFDESTRUCT.

Definition opcodes : list (Z * list OpCode) :=
  [(0x00, [STOP; ADD; MUL; SUB; DIV; SDIV; MOD; SMOD; ADDMOD; MULMOD; EXP; SIGNEXTEND]);
   (0x10, [LT; GT; SLT; SGT; EQ; ISZERO; AND; OR; XOR; NOT; BYTE; SHL; SHR; SAR]);
   (0x20, [SHA3]);
   (0x30, [ADDRESS; BALANCE; ORIGIN; CALLER; CALLVALUE; CALLDATALOAD; CALLDATASIZE; CALLDATACOPY;
           CODESIZE; CODECOPY; GASPRICE; EXTCODESIZE; EXTCODECOPY; RETURNDATASIZE; RETURNDATACOPY]);
   (0x40, [BLOCKHASH; COINBASE; TIMESTAMP; NUMBER; DIFFICULTY; GASLIMIT]);
   (0x50, [POP; MLOAD; MSTORE; MSTORE8; SLOAD; SSTORE; JUMP; JUMPI; PC; MSIZE; GAS; JUMPDEST]);
   (0x60, PUSH <$> seq 1 32);
   (0x80, DUP <$> seq 1 16);
   (0x90, SWAP <$> seq 1 16);
   (0xa0, LOG <$> seq 0 5);
   (0xf0, [CREATE; CALL; CALLCODE; RETURN; DELEGATECALL]);
   (0xfa, [STATICCALL]); (0xfd, [REVERT]); (0xff, [SELFDESTRUCT])].

(** The instruction of a byte of the code. *)
Fixpoint lookup_op (t : list (Z * list OpCode)) (b : Z) : option OpCode :=
  match t with
  | [] => None
  | (base, ops) :: t =>
      if (base <=? b) && (b <? base + zlen ops) then ops !! Z.to_nat (b - base) else lookup_op t b
  end.

(** Which instruction set has it: [NewFrontierInstructionSet] and the sets built
    on it. *)
Definition in_set (env : Env) (op : OpCode) : bool :=
  match op with
  | SHL | SHR | SAR => IsConstantinople env
  | STATICCALL | RETURNDATASIZE | RETURNDATACOPY | REVERT => IsConstantinople env || IsByzantium env
  | DELEGATECALL => IsConstantinople env || IsByzantium env || IsHomestead env
  | _ => true
  end.

Definition decode (env : Env) (b : Z) : option OpCode :=
  op ← lookup_op opcodes b; if in_set env op then Some op else None.

Definition halts (op : OpCode) : bool :=
  match op with STOP | RETURN | SELFDESTRUCT => true | _ => false end.
Definition jumps (op : OpCode) : bool := match op with JUMP | JUMPI => true | _ => false end.
Definition writes (op : OpCode) : bool :=
  match op with SSTORE | LOG _ | CREATE | SELFDESTRUCT => true | _ => false end.
Definition reverts (op : OpCode) : bool := match op with REVERT => true | _ => false end.
Definition returns (op : OpCode) : bool :=
  match op with CREATE | CALL | CALLCODE | DELEGATECALL | STATICCALL | REVERT => true | _ => false end.

(** The arguments of [makeStackFunc]. *)
Definition stack_effect (op : OpCode) : Z * Z :=
  match op with
  | STOP | JUMPDEST => (0, 0)
  | ADD | MUL | SUB | DIV | SDIV | MOD | SMOD | EXP | SIGNEXTEND | LT | GT | SLT | SGT | EQ | AND | OR | XOR
  | BYTE | SHL | SHR | SAR | SHA3 => (2, 1)
  | ADDMOD | MULMOD => (3, 1)
  | ISZERO | NOT | BALANCE | CALLDATALOAD | EXTCODESIZE | BLOCKHASH | MLOAD | SLOAD => (1, 1)
  | ADDRESS | ORIGIN | CALLER | CALLVALUE | CALLDATASIZE | CODESIZE | GASPRICE | RETURNDATASIZE | COINBASE
  | TIMESTAMP | NUMBER | DIFFICULTY | GASLIMIT | PC | MSIZE | GAS | PUSH _ => (0, 1)
  | CALLDATACOPY | CODECOPY | RETURNDATACOPY => (3, 0)
  | EXTCODECOPY => (4, 0)
  | POP | JUMP | SELFDESTRUCT => (1, 0)
  | MSTORE | MSTORE8 | SSTORE | JUMPI | RETURN | REVERT => (2, 0)
  | DUP n => (Z.of_nat n, Z.of_nat n + 1)
  | SWAP n => (Z.of_nat n + 1, Z.of_nat n + 1)
  | LOG n => (Z.of_nat n + 2, 0)
  | CREATE => (3, 1)
  | CALL | CALLCODE => (7, 1)
  | DELEGATECALL | STATICCALL => (6, 1)
  end.

Definition validateStack (op : OpCode) (st : list Z) : option error :=
  let '(pop, push) := stack_effect op in
  if zlen st <? pop then Some errStackUnderflow
  else if StackLimit <? zlen st + push - pop then Some errStackLimit
  else None.

Definition memorySize (op : OpCode) : option memorySizeFunc :=
  match op with
  | SHA3 => Some memorySha3
  | CALLDATACOPY => Some memoryCallDataCopy
  | RETURNDATACOPY => Some memoryReturnDataCopy
  | CODECOPY => Some memoryCodeCopy
  | EXTCODECOPY => Some memoryExtCodeCopy
  | MLOAD => Some memoryMLoad
  | MSTORE8 => Some memoryMStore8
  | MSTORE => Some memoryMStore
  | CREATE => Some memoryCreate
  | CALL | CALLCODE => Some memoryCall
  | DELEGATECALL => Some memoryDelegateCall
  | STATICCALL => Some memoryStaticCall
  | RETURN => Some memoryReturn
  | REVERT => Some memoryRevert
  | LOG _ => Some memoryLog
  | _ => None
  end.

Section Evm.
Context `{Crypto} `{Tries}.

Definition gasCost (op : OpCode) : gasFunc :=
  match op with
  | STOP => constGasFunc 0
  | ADD | SUB | LT | GT | SLT | SGT | EQ | ISZERO | AND | OR | XOR | NOT | BYTE | SHL | SHR | SAR
  | CALLDATALOAD => constGasFunc GasFastestStep
  | MUL | DIV | SDIV | MOD | SMOD | SIGNEXTEND => constGasFunc GasFastStep
  | ADDMOD | MULMOD | JUMP => constGasFunc GasMidStep
  | JUMPI => constGasFunc GasSlowStep
  | ADDRESS | ORIGIN | CALLER | CALLVALUE | CALLDATASIZE | CODESIZE | GASPRICE | RETURNDATASIZE | COINBASE
  | TIMESTAMP | NUMBER | DIFFICULTY | GASLIMIT | POP | PC | MSIZE | GAS => constGasFunc GasQuickStep
  | BLOCKHASH => constGasFunc GasExtStep
  | JUMPDEST => constGasFunc JumpdestGas
  | EXP => gasExp
  | SHA3 => gasSha3
  | BALANCE => gasBalance
  | CALLDATACOPY => gasCallDataCopy
  | CODECOPY => gasCodeCopy
  | EXTCODESIZE => gasExtCodeSize
  | EXTCODECOPY => gasExtCodeCopy
  | RETURNDATACOPY => gasReturnDataCopy
  | MLOAD => gasMLoad
  | MSTORE => gasMStore
  | MSTORE8 => gasMStore8
  | SLOAD => gasSLoad
  | SSTORE => gasSStore
  | PUSH _ => gasPush
  | DUP _ => gasDup
  | SWAP _ => gasSwap
  | LOG n => makeGasLog (Z.of_nat n)
  | CREATE => gasCreate
  | CALL => gasCall
  | CALLCODE => gasCallCode
  | DELEGATECALL => gasDelegateCall
  | STATICCALL => gasStaticCall
  | RETURN => gasReturn
  | REVERT => gasRevert
  | SELFDESTRUCT => gasSuicide
  end.

(** ** The frame of a running contract *)

Record frame := mkFrame {
  pc : Z;
  stack : list Z;
  mem : Memory;
  contract : Contract;
  vm : evm
}.

Definition set_pc (n : Z) (f : frame) : frame := mkFrame n (stack f) (mem f) (contract f) (vm f).
Definition set_stack (st : list Z) (f : frame) : frame := mkFrame (pc f) st (mem f) (contract f) (vm f).
Definition set_mem (m : Memory) (f : frame) : frame := mkFrame (pc f) (stack f) m (contract f) (vm f).
Definition set_contract (c : Contract) (f : frame) : frame := mkFrame (pc f) (stack f) (mem f) c (vm f).
Definition set_vm (e : evm) (f : frame) : frame := mkFrame (pc f) (stack f) (mem f) (contract f) e.

(** What an instruction returns beside the frame: data and an error. *)
Definition result : Type := res crash (frame * list Z * option error).
Definition done (f : frame) : result := Ok (f, [], None).

(** ** instructions.go: operations on the stack *)

Definition nullary (x : Z) (f : frame) : result := done (set_stack (x :: stack f) f).
Definition unary (g : Z -> Z) (f : frame) : result :=
  match stack f with x :: st => done (set_stack (g x :: st) f) | _ => Err Panic end.
Definition binary (g : Z -> Z -> Z) (f : frame) : result :=
  match stack f with x :: y :: st => done (set_stack (g x y :: st) f) | _ => Err Panic end.
Definition ternary (g : Z -> Z -> Z -> Z) (f : frame) : result :=
  match stack f with x :: y :: z :: st => done (set_stack (g x y z :: st) f) | _ => Err Panic end.

(** A reader of the database takes the place of an address on the stack. *)
Definition lookup_account (g : Address -> StateDB.StateDB -> StateDB.StateDB * Z) (f : frame) : result :=
  match stack f with
  | a :: st => let '(e, x) := ask (g (BigToAddress a)) (vm f) in done (set_stack (x :: st) (set_vm e f))
  | _ => Err Panic
  end.

Definition opSignExtend (f : frame) : result :=
  match stack f with
  | back :: st =>
      if back <? 31 then
        match st with num :: st => done (set_stack (Word.signextend back num :: st) f) | _ => Err Panic end
      else done (set_stack st f)
  | _ => Err Panic
  end.

Definition opPop (f : frame) : result :=
  match stack f with _ :: st => done (set_stack st f) | _ => Err Panic end.

Definition makePush (n : nat) (f : frame) : result :=
  let codeLen := zlen (Code (contract f)) in
  let next := i64 (u64 (pc f + 1)) in
  let startMin := if next <? codeLen then next else codeLen in
  let endMin := if startMin + Z.of_nat n <? codeLen then startMin + Z.of_nat n else codeLen in
  let? d := slice (Code (contract f)) startMin endMin in
  let? d := RightPadBytes d (Z.of_nat n) in
  done (set_pc (u64 (pc f + Z.of_nat n)) (set_stack (SetBytes d :: stack f) f)).

Definition makeDup (n : nat) (f : frame) : result :=
  let? x := Back (stack f) (n - 1) in nullary x f.

(** [makeSwap] has added one to the size. *)
Definition makeSwap (n : nat) (f : frame) : result :=
  let? x := Back (stack f) 0 in
  let? y := Back (stack f) n in
  done (set_stack (<[0%nat := y]> (<[n := x]> (stack f))) f).

(** ** Environment *)

Definition opCallDataLoad (f : frame) : result :=
  match stack f with
  | x :: st =>
      let? d := getDataBig (Input (contract f)) x 32 in
      done (set_stack (SetBytes d :: st) f)
  | _ => Err Panic
  end.

(** The three instructions that copy [data] with padding. *)
Definition copy_data (data : list Z) (f : frame) : result :=
  match stack f with
  | memOffset :: dataOffset :: l :: st =>
      let? d := getDataBig data dataOffset l in
      let? m := Set_ (mem f) (Uint64 memOffset) (Uint64 l) d in
      done (set_mem m (set_stack st f))
  | _ => Err Panic
  end.
Definition opCallDataCopy (f : frame) : result := copy_data (Input (contract f)) f.
Definition opCodeCopy (f : frame) : result := copy_data (Code (contract f)) f.
Definition opExtCodeCopy (f : frame) : result :=
  match stack f with
  | a :: st =>
      let '(e, c) := ask (StateDB.GetCode (BigToAddress a)) (vm f) in
      copy_data c (set_stack st (set_vm e f))
  | _ => Err Panic
  end.

Definition opReturnDataCopy (f : frame) : result :=
  match stack f with
  | memOffset :: dataOffset :: l :: st =>
      let stop := dataOffset + l in
      if (64 <? Word.BitLen stop) || (zlen (returnData (vm f)) <? Uint64 stop) then
        Ok (set_stack st f, [], Some errReturnDataOutOfBounds)
      else
        let? d := slice (returnData (vm f)) (Uint64 dataOffset) (Uint64 stop) in
        let? m := Set_ (mem f) (Uint64 memOffset) (Uint64 l) d in
        done (set_mem m (set_stack st f))
  | _ => Err Panic
  end.

Definition opBlockhash (env : Env) (f : frame) : result :=
  unary (fun num =>
    if (BlockNumber env - 257 <? num) && (num <? BlockNumber env) then Z.of_N (GetHash env (Uint64 num))
    else 0) f.

(** ** Memory, storage and flow *)

Definition opSha3 (env : Env) (f : frame) : result :=
  match stack f with
  | offset :: size :: st =>
      let? d := Get (mem f) (Int64 offset) (Int64 size) in
      let hash := Keccak256 d in
      let e := if EnablePreimageRecording env then tell (StateDB.AddPreimage hash d) (vm f) else vm f in
      done (set_stack (Z.of_N hash :: st) (set_vm e f))
  | _ => Err Panic
  end.

Definition opMload (f : frame) : result :=
  match stack f with
  | offset :: st =>
      let? d := Get (mem f) (Int64 offset) 32 in
      done (set_stack (SetBytes d :: st) f)
  | _ => Err Panic
  end.

Definition opMstore (f : frame) : result :=
  match stack f with
  | mStart :: v :: st =>
      let? m := Set_ (mem f) (Uint64 mStart) 32 (PaddedBigBytes v 32) in
      done (set_mem m (set_stack st f))
  | _ => Err Panic
  end.

Definition opMstore8 (f : frame) : result :=
  match stack f with
  | off :: v :: st =>
      let? m := store_byte (mem f) (Int64 off) (Z.land (Int64 v) 0xff) in
      done (set_mem m (set_stack st f))
  | _ => Err Panic
  end.

Definition opSload (f : frame) : result :=
  match stack f with
  | x :: st =>
      let '(e, v) := ask (StateDB.GetState (self (contract f)) (BigToHash x)) (vm f) in
      done (set_stack (Z.of_N v :: st) (set_vm e f))
  | _ => Err Panic
  end.

Definition opSstore (f : frame) : result :=
  match stack f with
  | loc :: v :: st =>
      done (set_stack st
        (set_vm (tell (StateDB.SetState (self (contract f)) (BigToHash loc) (BigToHash v)) (vm f)) f))
  | _ => Err Panic
  end.

(** Both jumps, to a position that must be a destination. *)
Definition jump_to (pos : Z) (f : frame) : result :=
  let? (d, ok) := has (jumpdests (vm f)) (CodeHash (contract f)) (Code (contract f)) pos in
  let f := set_vm (set_jumpdests d (vm f)) f in
  if ok then done (set_pc (Uint64 pos) f)
  else Ok (f, [], Some (errInvalidJump (GetOp (contract f) (Uint64 pos)) pos)).

Definition opJump (f : frame) : result :=
  match stack f with pos :: st => jump_to pos (set_stack st f) | _ => Err Panic end.

Definition opJumpi (f : frame) : result :=
  match stack f with
  | pos :: cond :: st =>
      let f := set_stack st f in
      if negb (cond =? 0) then jump_to pos f else done (set_pc (u64 (pc f + 1)) f)
  | _ => Err Panic
  end.

Definition opReturn (f : frame) : result :=
  match stack f with
  | offset :: size :: st =>
      let? ret := GetPtr (mem f) (Int64 offset) (Int64 size) in
      Ok (set_stack st f, ret, None)
  | _ => Err Panic
  end.
Definition opRevert (f : frame) : result := opReturn f.

Definition opSuicide (f : frame) : result :=
  match stack f with
  | a :: st =>
      let '(e, balance) := ask (StateDB.GetBalance (self (contract f))) (vm f) in
      let e := tell (StateDB.AddBalance (BigToAddress a) balance) e in
      let e := tell (fun s => (StateDB.Suicide (self (contract f)) s).1) e in
      done (set_stack st (set_vm e f))
  | _ => Err Panic
  end.

(** The fields of a log in one list: the address, the topics, the data. *)
Definition log_content (a : Address) (topics : list Hash) (data : list Z) : list Z :=
  Rlp.be_bytes 20 (Z.of_N a) ++ zlen topics :: concat ((fun t => Rlp.be_bytes 32 (Z.of_N t)) <$> topics) ++ data.

Definition makeLog (size : nat) (f : frame) : result :=
  match stack f with
  | mStart :: mSize :: st =>
      if (length st <? size)%nat then Err Panic
      else
        let topics := BigToHash <$> take size st in
        let? d := Get (mem f) (Int64 mStart) (Int64 mSize) in
        done (set_stack (drop size st)
          (set_vm (tell (StateDB.AddLog (log_content (self (contract f)) topics d)) (vm f)) f))
  | _ => Err Panic
  end.

(** ** evm.go *)

(** A caller is an account or a running contract. *)
Inductive ContractRef := AccountRef (a : Address) | ContractOf (c : Contract).

Definition ref_Address (r : ContractRef) : Address :=
  match r with AccountRef a => a | ContractOf c => self c end.

(** A contract reuses the jump destinations of the contract that calls it. *)
Definition NewContract (caller : ContractRef) (object : Address) (v gas : Z) (e : evm) : evm * Contract :=
  (match caller with ContractOf _ => e | AccountRef _ => set_jumpdests ∅ e end,
   mkContract (ref_Address caller) object [] 0%N None [] gas v).

(** The caller must be a contract. *)
Definition AsDelegate (caller : ContractRef) (c : Contract) : res crash Contract :=
  match caller with
  | AccountRef _ => Err Panic
  | ContractOf parent =>
      Ok (mkContract (CallerAddress parent) (self c) (Code c) (CodeHash c) (CodeAddr c) (Input c) (Gas c)
            (value parent))
  end.

Definition CanTransfer (a : Address) (amount : Z) (s : StateDB.StateDB) : StateDB.StateDB * bool :=
  let '(s, b) := StateDB.GetBalance a s in (s, amount <=? b).

Definition Transfer (sender recipient : Address) (amount : Z) (s : StateDB.StateDB) : StateDB.StateDB :=
  StateDB.AddBalance recipient amount (StateDB.SubBalance sender amount s).

(** [crypto.CreateAddress] *)
Definition CreateAddress (b : Address) (nonce : Z) : Address :=
  let enc := Rlp.EncodeToBytes (Rlp.TSlice Rlp.TIface)
               (Rlp.VSlice [Rlp.VIface (Some (Rlp.TByteArray, Rlp.VBytes (Rlp.be_bytes 20 (Z.of_N b))));
                            Rlp.VIface (Some (Rlp.TUint, Rlp.VUint nonce))]) in
  match enc with Ok d => (Keccak256 d mod 2 ^ 160)%N | Err _ => (Keccak256 [] mod 2 ^ 160)%N end.

(** [PrecompiledContract]: the price of an input, and the run with the block. *)
Record PrecompiledContract := mkPrecompiled {
  RequiredGas : list Z -> Z;
  native_Run : list Z -> Contract -> Env -> StateDB.StateDB
               -> res crash (StateDB.StateDB * list Z * option error)
}.

(** What a call returns: the machine, data, the gas left, an error. *)
Definition outcome : Type := evm * list Z * Z * option error.

Definition RunPrecompiledContract (env : Env) (p : PrecompiledContract) (input : list Z) (c : Contract) (e : evm)
    : res crash outcome :=
  match UseGas (RequiredGas p input) c with
  | Some c =>
      let? (s, ret, err) := native_Run p input c env (db e) in
      Ok (set_db s e, ret, Gas c, err)
  | None => Ok (e, [], Gas c, Some ErrOutOfGas)
  end.

Section Calls.
Context (env : Env) (precompiles : Address -> option PrecompiledContract).

(** The loop of the interpreter, with less fuel. *)
Context (lp : frame -> res crash outcome).

(** [Interpreter.Run]; the depth is restored when it returns. *)
Definition Run (c : Contract) (input : list Z) (e : evm) : res crash outcome :=
  let e := set_returnData [] (set_depth (depth e + 1) e) in
  let? (e, ret, gas, err) :=
    match Code c with
    | [] => Ok (e, [], Gas c, None)
    | _ => lp (mkFrame 0 [] NewMemory (set_input input c) e)
    end in
  Ok (set_depth (depth e - 1) e, ret, gas, err).

Definition run (c : Contract) (input : list Z) (e : evm) : res crash outcome :=
  match CodeAddr c ≫= precompiles with
  | Some p => RunPrecompiledContract env p input c e
  | None => Run c input e
  end.

(** After the run: an error undoes the changes, and takes the gas unless the
    contract reverted. *)
Definition settle (snapshot : Z) (r : outcome) : res crash outcome :=
  let '(e, ret, gas, err) := r in
  match err with
  | None => Ok (e, ret, gas, None)
  | Some x =>
      match StateDB.RevertToSnapshot snapshot (db e) with
      | None => Err Panic
      | Some s => Ok (set_db s e, ret, if decide (x = errExecutionReverted) then gas else 0, Some x)
      end
  end.

(** The code that a call runs. *)
Definition load_code (addr : Address) (c : Contract) (e : evm) : evm * Contract :=
  let '(e, hash) := ask (StateDB.GetCodeHash addr) e in
  let '(e, code) := ask (StateDB.GetCode addr) e in
  (e, SetCallCode (Some addr) hash code c).

Definition no_recursion (e : evm) : bool := NoRecursion env && (0 <? depth e).
Definition too_deep (e : evm) : bool := CallCreateDepth <? depth e.

Definition Call (caller : ContractRef) (addr : Address) (input : list Z) (gas v : Z) (e : evm)
    : res crash outcome :=
  if no_recursion e then Ok (e, [], gas, None)
  else if too_deep e then Ok (e, [], gas, Some ErrDepth)
  else
    let '(e, can) := ask (CanTransfer (ref_Address caller) v) e in
    if negb can then Ok (e, [], gas, Some ErrInsufficientBalance)
    else
      let '(e, snapshot) := ask StateDB.Snapshot e in
      let '(e, there) := ask (StateDB.Exist addr) e in
      if negb there && bool_decide (precompiles addr = None) && IsEIP158 env && (v =? 0) then
        Ok (e, [], gas, None)
      else
        let e := if there then e else tell (StateDB.CreateAccount addr) e in
        let e := tell (Transfer (ref_Address caller) addr v) e in
        let '(e, c) := NewContract caller addr v gas e in
        let '(e, c) := load_code addr c e in
        let? r := run c input e in settle snapshot r.

Definition CallCode (caller : ContractRef) (addr : Address) (input : list Z) (gas v : Z) (e : evm)
    : res crash outcome :=
  if no_recursion e then Ok (e, [], gas, None)
  else if too_deep e then Ok (e, [], gas, Some ErrDepth)
  else
    let '(e, can) := ask (CanTransfer (ref_Address caller) v) e in
    if negb can then Ok (e, [], gas, Some ErrInsufficientBalance)
    else
      let '(e, snapshot) := ask StateDB.Snapshot e in
      let '(e, c) := NewContract caller (ref_Address caller) v gas e in
      let '(e, c) := load_code addr c e in
      let? r := run c input e in settle snapshot r.

Definition DelegateCall (caller : ContractRef) (addr : Address) (input : list Z) (gas : Z) (e : evm)
    : res crash outcome :=
  if no_recursion e then Ok (e, [], gas, None)
  else if too_deep e then Ok (e, [], gas, Some ErrDepth)
  else
    let '(e, snapshot) := ask StateDB.Snapshot e in
    let '(e, c) := NewContract caller (ref_Address caller) 0 gas e in
    let? c := AsDelegate caller c in
    let '(e, c) := load_code addr c e in
    let? r := run c input e in settle snapshot r.

Definition StaticCall (caller : ContractRef) (addr : Address) (input : list Z) (gas : Z) (e : evm)
    : res crash outcome :=
  if no_recursion e then Ok (e, [], gas, None)
  else if too_deep e then Ok (e, [], gas, Some ErrDepth)
  else
    let before := readOnly e in
    let e := set_readOnly true e in
    let '(e, snapshot) := ask StateDB.Snapshot e in
    let '(e, c) := NewContract caller addr 0 gas e in
    let '(e, c) := load_code addr c e in
    let? r := run c input e in
    let? (e, ret, gas, err) := settle snapshot r in
    Ok (set_readOnly before e, ret, gas, err).

(** The end of [Create]: the price of the code and the code. *)
Definition deploy (addr : Address) (snapshot : Z) (r : outcome) : res crash (outcome * Address) :=
  let '(e, ret, gas, err) := r in
  let maxCodeSizeExceeded := IsEIP158 env && (MaxCodeSize <? zlen ret) in
  let '(e, gas, err) :=
    if bool_decide (err = None) && negb maxCodeSizeExceeded then
      let createDataGas := u64 (zlen ret * CreateDataGas) in
      if gas <? createDataGas then (e, gas, Some ErrCodeStoreOutOfGas)
      else (tell (StateDB.SetCode addr ret) e, gas - createDataGas, None)
    else (e, gas, err) in
  if maxCodeSizeExceeded
     || (bool_decide (err <> None) && (IsHomestead env || bool_decide (err <> Some ErrCodeStoreOutOfGas))) then
    match StateDB.RevertToSnapshot snapshot (db e) with
    | None => Err Panic
    | Some s =>
        let gas := if decide (err = Some errExecutionReverted) then gas else 0 in
        let err := if maxCodeSizeExceeded && bool_decide (err = None) then Some errMaxCodeSizeExceeded else err in
        Ok (set_db s e, ret, gas, err, addr)
    end
  else Ok (e, ret, gas, err, addr).

Definition Create (caller : ContractRef) (code : list Z) (gas v : Z) (e : evm)
    : res crash (outcome * Address) :=
  if too_deep e then Ok (e, [], gas, Some ErrDepth, 0%N)
  else
    let '(e, can) := ask (CanTransfer (ref_Address caller) v) e in
    if negb can then Ok (e, [], gas, Some ErrInsufficientBalance, 0%N)
    else
      let '(e, nonce) := ask (StateDB.GetNonce (ref_Address caller)) e in
      let e := tell (StateDB.SetNonce (ref_Address caller) (u64 (nonce + 1))) e in
      let contractAddr := CreateAddress (ref_Address caller) nonce in
      let '(e, contractHash) := ask (StateDB.GetCodeHash contractAddr) e in
      let '(e, nonce') := ask (StateDB.GetNonce contractAddr) e in
      if negb (nonce' =? StateDB.NonceAddOne)
         || (negb (contractHash =? 0)%N && negb (contractHash =? StateDB.emptyCodeHash)%N) then
        Ok (e, [], 0, Some ErrContractAddressCollision, 0%N)
      else
        let '(e, snapshot) := ask StateDB.Snapshot e in
        let e := tell (StateDB.CreateAccount contractAddr) e in
        let e := if IsEIP158 env then tell (StateDB.SetNonce contractAddr 1) e else e in
        let e := tell (Transfer (ref_Address caller) contractAddr v) e in
        let '(e, c) := NewContract caller contractAddr v gas e in
        let c := SetCallCode (Some contractAddr) (Keccak256 code) code c in
        if no_recursion e then Ok (e, [], gas, None, contractAddr)
        else let? r := run c [] e in deploy contractAddr snapshot r.

(** ** The instructions that call *)

Definition opCreate (f : frame) : result :=
  match stack f with
  | v :: offset :: size :: st =>
      let? input := Get (mem f) (Int64 offset) (Int64 size) in
      let g := Gas (contract f) in
      let gas := if IsEIP150 env then g - g / 64 else g in
      let c := set_gas (g - gas) (contract f) in
      let? (e, ret, returnGas, suberr, addr) := Create (ContractOf c) input gas v (vm f) in
      let x :=
        if IsHomestead env && bool_decide (suberr = Some ErrCodeStoreOutOfGas) then 0
        else if bool_decide (suberr <> None) && bool_decide (suberr <> Some ErrCodeStoreOutOfGas) then 0
        else Z.of_N addr in
      let c := set_gas (u64 (Gas c + returnGas)) c in
      Ok (set_vm e (set_contract c (set_stack (x :: st) f)),
          if bool_decide (suberr = Some errExecutionReverted) then ret else [], None)
  | _ => Err Panic
  end.

(** The end of the four calls: the flag, the data copied to memory, the gas. *)
Definition finish_call (r : outcome) (retOffset retSize : Z) (st : list Z) (f : frame) : result :=
  let '(e, ret, returnGas, err) := r in
  let x := if bool_decide (err = None) then 1 else 0 in
  let? m :=
    if bool_decide (err = None) || bool_decide (err = Some errExecutionReverted)
    then Set_ (mem f) (Uint64 retOffset) (Uint64 retSize) ret else Ok (mem f) in
  let c := set_gas (u64 (Gas (contract f) + returnGas)) (contract f) in
  Ok (set_vm e (set_contract c (set_mem m (set_stack (x :: st) f))), ret, None).

Definition opCall (f : frame) : result :=
  match stack f with
  | _ :: addr :: v :: inOffset :: inSize :: retOffset :: retSize :: st =>
      let v := Word.U256 v in
      let? args := Get (mem f) (Int64 inOffset) (Int64 inSize) in
      let gas := callGasTemp (vm f) in
      let gas := if negb (v =? 0) then u64 (gas + CallStipend) else gas in
      let? r := Call (ContractOf (contract f)) (BigToAddress addr) args gas v (vm f) in
      finish_call r retOffset retSize st f
  | _ => Err Panic
  end.

Definition opCallCode (f : frame) : result :=
  match stack f with
  | _ :: addr :: v :: inOffset :: inSize :: retOffset :: retSize :: st =>
      let v := Word.U256 v in
      let? args := Get (mem f) (Int64 inOffset) (Int64 inSize) in
      let gas := callGasTemp (vm f) in
      let gas := if negb (v =? 0) then u64 (gas + CallStipend) else gas in
      let? r := CallCode (ContractOf (contract f)) (BigToAddress addr) args gas v (vm f) in
      finish_call r retOffset retSize st f
  | _ => Err Panic
  end.

Definition opDelegateCall (f : frame) : result :=
  match stack f with
  | _ :: addr :: inOffset :: inSize :: retOffset :: retSize :: st =>
      let? args := Get (mem f) (Int64 inOffset) (Int64 inSize) in
      let? r := DelegateCall (ContractOf (contract f)) (BigToAddress addr) args (callGasTemp (vm f)) (vm f) in
      finish_call r retOffset retSize st f
  | _ => Err Panic
  end.

Definition opStaticCall (f : frame) : result :=
  match stack f with
  | _ :: addr :: inOffset :: inSize :: retOffset :: retSize :: st =>
      let? args := Get (mem f) (Int64 inOffset) (Int64 inSize) in
      let? r := StaticCall (ContractOf (contract f)) (BigToAddress addr) args (callGasTemp (vm f)) (vm f) in
      finish_call r retOffset retSize st f
  | _ => Err Panic
  end.

(** ** jump_table.go: what an instruction does *)

Definition execute (op : OpCode) : frame -> result := fun f =>
  match op with
  | STOP | JUMPDEST => done f
  | ADD => binary Word.add f | MUL => binary Word.mul f | SUB => binary Word.sub f | DIV => binary Word.div f
  | SDIV => binary Word.sdiv f | MOD => binary Word.mod_ f | SMOD => binary Word.smod f
  | ADDMOD => ternary Word.addmod f | MULMOD => ternary Word.mulmod f | EXP => binary Word.Exp f
  | SIGNEXTEND => opSignExtend f
  | LT => binary Word.lt f | GT => binary Word.gt f | SLT => binary Word.slt f | SGT => binary Word.sgt f
  | EQ => binary Word.eq f | ISZERO => unary Word.iszero f | AND => binary Word.and f | OR => binary Word.or f
  | XOR => binary Word.xor f | NOT => unary Word.not f | BYTE => binary Word.byte f
  | SHL => binary Word.shl f | SHR => binary Word.shr f | SAR => binary Word.sar f
  | SHA3 => opSha3 env f
  | ADDRESS => nullary (Z.of_N (self (contract f))) f
  | BALANCE => lookup_account StateDB.GetBalance f
  | ORIGIN => nullary (Z.of_N (Origin env)) f
  | CALLER => nullary (Z.of_N (CallerAddress (contract f))) f
  | CALLVALUE => nullary (value (contract f)) f
  | CALLDATALOAD => opCallDataLoad f
  | CALLDATASIZE => nullary (zlen (Input (contract f))) f
  | CALLDATACOPY => opCallDataCopy f
  | CODESIZE => nullary (zlen (Code (contract f))) f
  | CODECOPY => opCodeCopy f
  | GASPRICE => nullary (GasPrice env) f
  | EXTCODESIZE => lookup_account StateDB.GetCodeSize f
  | EXTCODECOPY => opExtCodeCopy f
  | RETURNDATASIZE => nullary (zlen (returnData (vm f))) f
  | RETURNDATACOPY => opReturnDataCopy f
  | BLOCKHASH => opBlockhash env f
  | COINBASE => nullary (Z.of_N (Coinbase env)) f
  | TIMESTAMP => nullary (Word.U256 (Time env)) f
  | NUMBER => nullary (Word.U256 (BlockNumber env)) f
  | DIFFICULTY => nullary (Word.U256 (Difficulty env)) f
  | GASLIMIT => nullary (Word.U256 (GasLimit env)) f
  | POP => opPop f
  | MLOAD => opMload f | MSTORE => opMstore f | MSTORE8 => opMstore8 f
  | SLOAD => opSload f | SSTORE => opSstore f
  | JUMP => opJump f | JUMPI => opJumpi f
  | PC => nullary (pc f) f
  | MSIZE => nullary (Len (mem f)) f
  | GAS => nullary (Gas (contract f)) f
  | PUSH n => makePush n f | DUP n => makeDup n f | SWAP n => makeSwap n f | LOG n => makeLog n f
  | CREATE => opCreate f
  | CALL => opCall f | CALLCODE => opCallCode f
  | DELEGATECALL => opDelegateCall f | STATICCALL => opStaticCall f
  | RETURN => opReturn f | REVERT => opRevert f
  | SELFDESTRUCT => opSuicide f
  end.

(** ** interpreter.go *)

Definition enforceRestrictions (op : OpCode) (f : frame) : res crash (option error) :=
  if IsByzantium env && readOnly (vm f) then
    if writes op then Ok (Some errWriteProtection)
    else
      match op with
      | CALL => let? v := Back (stack f) 2 in Ok (if 0 <? Word.BitLen v then Some errWriteProtection else None)
      | _ => Ok None
      end
  else Ok None.

(** The size the memory must have for the instruction, in bytes of whole words;
    [None] is an overflow. *)
Definition required_memory (op : OpCode) (st : list Z) : res crash (option Z) :=
  match memorySize op with
  | None => Ok (Some 0)
  | Some size => let? n := size st in Ok (n ← bigUint64 n; safe_mul (toWordSize n) 32)
  end.

(** One round of the loop: the run ends, or goes on with the next frame. *)
Inductive round := Ends (r : outcome) | Goes (f : frame).

Definition ends (f : frame) (ret : list Z) (err : option error) : res crash round :=
  Ok (Ends (vm f, ret, Gas (contract f), err)).

(** After the instruction. *)
Definition after_op (op : OpCode) (f : frame) (ret : list Z) (err : option error) : res crash round :=
  let f := if returns op then set_vm (set_returnData ret (vm f)) f else f in
  match err with
  | Some x => ends f [] (Some x)
  | None =>
      if reverts op then ends f ret (Some errExecutionReverted)
      else if halts op then ends f ret None
      else if jumps op then Ok (Goes f)
      else Ok (Goes (set_pc (u64 (pc f + 1)) f))
  end.

Definition step (f : frame) : res crash round :=
  let b := GetOp (contract f) (pc f) in
  match decode env b with
  | None => ends f [] (Some (errInvalidOpcode b))
  | Some op =>
      match validateStack op (stack f) with
      | Some x => ends f [] (Some x)
      | None =>
          let? w := enforceRestrictions op f in
          match w with
          | Some x => ends f [] (Some x)
          | None =>
              let? size := required_memory op (stack f) in
              match size with
              | None => ends f [] (Some errGasUintOverflow)
              | Some size =>
                  let? (e, m, cost) := gasCost op env (vm f) (contract f) (stack f) (mem f) size in
                  let f := set_vm e (set_mem m f) in
                  match cost ≫= fun cost => UseGas cost (contract f) with
                  | None => ends f [] (Some ErrOutOfGas)
                  | Some c =>
                      let f := set_contract c f in
                      let f := if 0 <? size then set_mem (Resize (mem f) size) f else f in
                      let? (f, ret, err) := execute op f in
                      after_op op f ret err
                  end
              end
          end
      end
  end.

End Calls.

Fixpoint loop (env : Env) (precompiles : Address -> option PrecompiledContract) (fuel : nat) (f : frame)
    : res crash outcome :=
  match fuel with
  | O => Err OutOfFuel
  | S fuel =>
      let? r := step env precompiles (loop env precompiles fuel) f in
      match r with
      | Ends o => Ok o
      | Goes f => loop env precompiles fuel f
      end
  end.
End Evm.
End Evm.
