(* ===== verification/EvmFrame.v ===== *)
(** * Frames of the virtual machine: what an instruction needs and keeps

    Memory is always a whole number of words, priced as its size says; it covers
    the region that an instruction asked for.  The operand stack holds no negative
    number.  [moves] relates the machine before and after any part of a run. *)

From S2P Require Import Prelude Common Rlp Crypto RlpDecode Deposit StateDB Snapshot StateRoot StateRun EvmWord EvmMachine EvmAnalysis EvmState Evm.

Module EvmFrame.
Import Snapshot StateRun Machine EvmAnalysis EvmState Evm.

(** ** Numbers *)

Lemma Int64_small x : 0 <= x < 2 ^ 63 -> Int64 x = x.
Proof.
  intros Hx. unfold Int64. rewrite Uint64_small by (unfold in_u64; lia). rewrite (i64_small x) by (unfold in_i64; lia).
  by rewrite (proj2 (Z.ltb_ge x 0)) by lia.
Qed.

Lemma Uint64_range x : in_u64 (Uint64 x).
Proof. apply u64_range. Qed.

Lemma bigUint64_Some x y : 0 <= x -> bigUint64 x = Some y -> y = x /\ in_u64 x.
Proof.
  intros Hx. unfold bigUint64. destruct (Z.ltb_spec 64 (Word.BitLen x)); [done|]. intros [= <-].
  assert (x < 2 ^ 64) by (apply BitLen_le; lia). assert (in_u64 x) by (unfold in_u64; lia).
  by rewrite Uint64_small.
Qed.

Lemma safe_add_Some x y z : in_u64 x -> in_u64 y -> safe_add x y = Some z -> z = x + y /\ in_u64 z.
Proof.
  unfold safe_add, Word.SafeAdd, Word.MaxUint64, in_u64. intros Hx Hy. destruct (Z.ltb_spec (2 ^ 64 - 1 - x) y); [done|].
  intros [= <-]. rewrite u64_small by (unfold in_u64; lia). lia.
Qed.

Lemma safe_mul_Some x y z : in_u64 x -> in_u64 y -> safe_mul x y = Some z -> z = x * y /\ in_u64 z.
Proof.
  unfold safe_mul, Word.SafeMul, Word.MaxUint64, in_u64. intros Hx Hy.
  destruct (Z.eqb_spec x 0) as [->|]; simpl; [intros [= <-]; lia|].
  destruct (Z.eqb_spec y 0) as [->|]; simpl; [intros [= <-]; lia|].
  destruct (Z.ltb_spec ((2 ^ 64 - 1) / x) y); [done|]. intros [= <-].
  assert (x * y < 2 ^ 64).
  { pose proof (Z.mul_div_le (2 ^ 64 - 1) x ltac:(lia)). nia. }
  rewrite u64_small by (unfold in_u64; nia). nia.
Qed.

Lemma toWordSize_range x : in_u64 x -> in_u64 (toWordSize x) /\ x <= toWordSize x * 32.
Proof.
  unfold toWordSize, Word.MaxUint64, in_u64. intros Hx. destruct (Z.ltb_spec (2 ^ 64 - 1 - 31) x).
  - split; [|]; change ((2 ^ 64 - 1) / 32) with (2 ^ 59 - 1); lia.
  - pose proof (Z.div_mod (x + 31) 32). pose proof (Z.mod_pos_bound (x + 31) 32).
    assert (0 <= (x + 31) / 32) by (apply Z.div_pos; lia). lia.
Qed.

(** ** Memory *)

Definition max_mem : Z := 0xffffffffe0.

(** What [memoryGasCost] has charged for [k] words; the square wraps. *)
Definition fee (k : Z) : Z := u64 (u64 (k * MemoryGas) + u64 (k * k) / QuadCoeffDiv).

Record mem_ok (m : Memory) : Prop := {
  mem_bytes : Forall byte (store m);
  mem_words : exists k, Len m = 32 * k /\ lastGasCost m = fee k;
  mem_max : Len m <= max_mem
}.

Lemma NewMemory_ok : mem_ok NewMemory.
Proof. split; [by constructor|by exists 0|done]. Qed.

Definition grow (m : Memory) (size : Z) : Memory := if 0 <? size then Resize m size else m.

Lemma memoryGasCost_ok m w m' g :
  mem_ok m -> 0 <= w -> memoryGasCost m (32 * w) = (m', Some g) ->
  in_u64 g /\ mem_ok (grow m' (32 * w)) /\ 32 * w <= Len (grow m' (32 * w)).
Proof.
  intros Hm Hw. unfold memoryGasCost, grow. destruct (Z.eqb_spec (32 * w) 0) as [E|E].
  { intros [= <- <-]. rewrite E. simpl. unfold in_u64, Len. split; [lia|]. split; [done|lia]. }
  destruct (Z.ltb_spec 0xffffffffe0 (32 * w)) as [|Hmax]; [done|].
  assert (toWordSize (32 * w) = w) as ->.
  { unfold toWordSize, Word.MaxUint64. destruct (Z.ltb_spec (2 ^ 64 - 1 - 31) (32 * w)); [lia|].
    symmetry. apply Z.div_unique with 31; lia. }
  rewrite (u64_small (w * 32)) by (unfold in_u64; lia). rewrite (proj2 (Z.ltb_lt 0 (32 * w))) by lia.
  destruct Hm as [Hb (k & Hk & Hc) Hl]. destruct (Z.ltb_spec (Len m) (w * 32)); intros [= <- <-].
  - split; [apply u64_range|]. unfold Resize, Len in *. cbn [store]. rewrite (proj2 (Z.ltb_lt _ (32 * w))) by lia.
    cbn [store]. rewrite length_app, length_replicate. split; [|lia]. split; unfold Len; cbn [store lastGasCost].
    + apply Forall_app. split; [done|]. apply Forall_replicate. unfold byte. lia.
    + exists w. rewrite length_app, length_replicate. split; [lia|done].
    + rewrite length_app, length_replicate. unfold max_mem. lia.
  - unfold Resize. rewrite (proj2 (Z.ltb_ge (Len m) (32 * w))) by lia.
    split; [unfold in_u64; lia|]. split; [|lia]. split; eauto.
Qed.

Lemma slice_ok l a b : Forall byte l -> 0 <= a -> a <= b -> b <= zlen l ->
  exists d, slice l a b = Ok d /\ Forall byte d /\ zlen d = b - a.
Proof.
  intros Hl Ha Hab Hb. unfold slice. rewrite (proj2 (Z.leb_le 0 a)), (proj2 (Z.leb_le a b)), (proj2 (Z.leb_le b _)) by lia.
  eexists. split; [done|]. split; [by apply Forall_take, Forall_drop|]. rewrite length_take, length_drop. lia.
Qed.

(** The memory covers [l] bytes from [off]. *)
Definition covers (m : Memory) (off l : Z) : Prop := 0 <= off /\ 0 <= l /\ (l = 0 \/ off + l <= Len m).

Lemma Get_ok m off l :
  mem_ok m -> covers m off l -> exists d, Get m (Int64 off) (Int64 l) = Ok d /\ bytes d.
Proof.
  intros Hm (Ho & Hl & [->|Hle]); unfold Get.
  - exists []. split; [done|]. split; [constructor|]. unfold max_len. simpl. lia.
  - pose proof (mem_max m Hm) as Hmax. unfold max_mem in Hmax. rewrite !Int64_small by lia.
    destruct (Z.eqb_spec l 0); [exists []; split; [done|]; split; [constructor|unfold max_len; simpl; lia]|].
    rewrite (proj2 (Z.ltb_lt off (Len m))) by lia. rewrite i64_small by (unfold in_i64; lia).
    destruct (slice_ok (store m) off (off + l)) as (d & -> & Hd & Hz); [apply Hm|unfold Len in *; lia..|].
    exists d. split; [done|]. split; [done|]. rewrite Hz. unfold max_len. lia.
Qed.

Lemma copy_ok dst src : Forall byte dst -> Forall byte src -> Forall byte (copy dst src) /\ length (copy dst src) = length dst.
Proof.
  intros Hd Hs. unfold copy. split; [apply Forall_app; split; [by apply Forall_take|by apply Forall_drop]|].
  rewrite length_app, length_take, length_drop. lia.
Qed.

Lemma Set_ok m off l v :
  mem_ok m -> covers m off l -> Forall byte v ->
  exists m', Set_ m (Uint64 off) (Uint64 l) v = Ok m' /\ mem_ok m' /\ Len m' = Len m.
Proof.
  intros Hm (Ho & Hl & Hc) Hv. unfold Set_. pose proof (mem_max m Hm) as Hmax. unfold max_mem in Hmax.
  destruct Hc as [->|Hle].
  { exists m. split; [|done]. change (Uint64 0) with 0. by rewrite (proj2 (Z.ltb_ge (Len m) 0)) by (unfold Len; lia). }
  rewrite !Uint64_small by (unfold in_u64; lia). rewrite (proj2 (Z.ltb_ge (Len m) l)) by lia.
  destruct (Z.ltb_spec 0 l); [|by exists m]. rewrite u64_small by (unfold in_u64; lia).
  destruct (slice_ok (store m) off (off + l)) as (d & -> & Hd & Hz); [apply Hm|unfold Len in *; lia..|].
  destruct (copy_ok d v Hd Hv) as [Hcb Hcl]. destruct Hm as [Hb Hw Hx].
  assert (forall g, Len (mkMemory (take (Z.to_nat off) (store m) ++ copy d v ++ drop (Z.to_nat (off + l)) (store m)) g) = Len m) as HL.
  { intros g. unfold Len in *. cbn [store]. rewrite !length_app, Hcl, length_take, length_drop. lia. }
  eexists. split; [done|]. split; [|apply HL]. split; rewrite ?HL; try done. cbn [store].
  apply Forall_app. split; [by apply Forall_take|]. apply Forall_app. split; [done|by apply Forall_drop].
Qed.

Lemma store_byte_ok m off b :
  mem_ok m -> covers m off 1 -> byte b ->
  exists m', store_byte m (Int64 off) b = Ok m' /\ mem_ok m' /\ Len m' = Len m.
Proof.
  intros Hm (Ho & _ & [?|Hle]) Hb; [lia|]. pose proof (mem_max m Hm) as Hmax. unfold max_mem in Hmax.
  unfold store_byte. rewrite Int64_small by lia. rewrite (proj2 (Z.leb_le 0 off)), (proj2 (Z.ltb_lt off _)) by lia. simpl.
  assert (forall g, Len (mkMemory (<[Z.to_nat off := b]> (store m)) g) = Len m) as HL.
  { intros g. unfold Len. cbn [store]. by rewrite length_insert. }
  eexists. split; [done|]. split; [|apply HL]. destruct Hm. split; rewrite ?HL; try done. by apply Forall_insert.
Qed.

(** ** Regions *)

(** The memory that an instruction with one region asked for covers it. *)
Lemma region_covers off l size m :
  0 <= off -> 0 <= l -> (n ← bigUint64 (calcMemSize off l); safe_mul (toWordSize n) 32) = Some size ->
  size <= Len m -> covers m off l.
Proof.
  intros Ho Hl (n & En & Es)%bind_Some Hm. split; [done|]. split; [done|]. unfold calcMemSize in En.
  destruct (Z.eqb_spec l 0); [by left|]. right. apply bigUint64_Some in En as [-> Hn]; [|lia].
  destruct (toWordSize_range _ Hn) as [Hw Hle]. apply safe_mul_Some in Es as [-> _]; [lia|done|unfold in_u64; lia].
Qed.

Lemma regions_cover o1 l1 o2 l2 size m :
  0 <= o1 -> 0 <= l1 -> 0 <= o2 -> 0 <= l2 ->
  (n ← bigUint64 (Z.max (calcMemSize o1 l1) (calcMemSize o2 l2)); safe_mul (toWordSize n) 32) = Some size ->
  size <= Len m -> covers m o1 l1 /\ covers m o2 l2.
Proof.
  intros Ho1 Hl1 Ho2 Hl2 (n & En & Es)%bind_Some Hm. unfold calcMemSize in En.
  apply bigUint64_Some in En as [-> Hn]; [|repeat case_match; lia].
  destruct (toWordSize_range _ Hn) as [Hw Hle]. apply safe_mul_Some in Es as [-> _]; [|done|unfold in_u64; lia].
  unfold covers. destruct (Z.eqb_spec l1 0), (Z.eqb_spec l2 0); lia.
Qed.

Lemma required_words op st size :
  Forall (fun x => 0 <= x) st -> required_memory op st = Ok (Some size) -> exists w, 0 <= w /\ size = 32 * w.
Proof.
  intros Hst. unfold required_memory. destruct (memorySize op) as [f|] eqn:E; [|intros [= <-]; by exists 0].
  destruct (f st) as [n|]; [|done]. intros [= (n' & En & Es)%bind_Some].
  assert (0 <= n' /\ in_u64 n') as [Hn Hn'].
  { unfold bigUint64 in En. case_match; [done|]. injection En as <-. pose proof (Uint64_range n) as Hr. unfold in_u64 in *. lia. }
  destruct (toWordSize_range _ Hn') as [Hw _]. apply safe_mul_Some in Es as [-> _]; [|done|unfold in_u64; lia].
  exists (toWordSize n'). unfold in_u64 in Hw. lia.
Qed.

(** ** Machines *)

(** What a run is started with at most: an amount whose sums stay within a word. *)
Definition max_gas : Z := 2 ^ 62.
Class GasLimit := { gas_limit : Z; gas_limit_max : gas_limit <= max_gas }.

Section Frame.
Context `{Crypto} `{TrieLaws} {GL : GasLimit} (env : Env) (precompiles : Address -> option PrecompiledContract).

(** A precompiled contract, run as part of a contract that could pay for it.  The code
    of a new contract has no input; what is returned to it is stored. *)
Record native_ok (p : PrecompiledContract) : Prop := {
  native_gas input : 0 <= RequiredGas p input;
  native_runs input c s :
    sound s -> bytes input -> RequiredGas p input <= gas_limit -> 0 <= value c ->
    exists s' ret err, native_Run p input c env s = Ok (s', ret, err) /\ ext s s' /\ Forall byte ret;
  native_empty c s s' ret err : native_Run p [] c env s = Ok (s', ret, err) -> bytes ret
}.

(** The precompiled contracts do not write. *)
Definition natives_static : Prop :=
  forall a p input c s s' ret err,
    precompiles a = Some p -> sound s -> native_Run p input c env s = Ok (s', ret, err) ->
    static (view_of s) (view_of s').

(** The map of jump destinations holds, under a hash, the bit vector of a code with this
    hash. *)
Definition dests_ok (d : destinations) : Prop :=
  forall h m, d !! h = Some m -> exists code, bytes code /\ Keccak256 code = h /\ codeBitmap code = Ok m.

Record evm_ok (e : evm) : Prop := {
  ok_db : sound (db e);
  ok_data : Forall byte (returnData e);
  ok_dests : dests_ok (jumpdests e)
}.

(** A run that must not write. *)
Definition read_only (e : evm) : Prop := natives_static /\ IsByzantium env = true /\ readOnly e = true.

Record moves (e e' : evm) : Prop := {
  mv_ok : evm_ok e';
  mv_ext : ext (db e) (db e');
  mv_depth : depth e' = depth e;
  mv_readOnly : readOnly e' = readOnly e;
  mv_static : read_only e -> static (view_of (db e)) (view_of (db e'))
}.

Lemma moves_refl e : evm_ok e -> moves e e.
Proof. intros He. split; try done. apply ext_refl, He. Qed.

Lemma moves_trans e1 e2 e3 : moves e1 e2 -> moves e2 e3 -> moves e1 e3.
Proof.
  intros [O1 X1 D1 R1 S1] [O2 X2 D2 R2 S2]. split; [done|by eapply ext_trans|congruence..|].
  intros Hr. etrans; [by apply S1|]. apply S2. unfold read_only in *. by rewrite R1.
Qed.

Lemma moves_db e s :
  evm_ok e -> ext (db e) s -> (read_only e -> static (view_of (db e)) (view_of s)) -> moves e (set_db s e).
Proof. intros [? ? ?] Hx Hs. split; try done. split; try done. apply Hx. Qed.

Lemma moves_callGasTemp e g : evm_ok e -> moves e (set_callGasTemp g e).
Proof. intros He. destruct (moves_refl e He) as [[] ? ? ? ?]. by split. Qed.
Lemma moves_returnData e r : evm_ok e -> Forall byte r -> moves e (set_returnData r e).
Proof. intros He Hr. destruct (moves_refl e He) as [[] ? ? ? ?]. by split. Qed.
Lemma moves_jumpdests e d : evm_ok e -> dests_ok d -> moves e (set_jumpdests d e).
Proof. intros He Hd. destruct (moves_refl e He) as [[] ? ? ? ?]. by split. Qed.

(** ** Readers *)

Definition reader {A} (f : StateDB.StateDB -> StateDB.StateDB * A) : Prop :=
  forall s, inv s -> quiet s (f s).1.

(** Readers that only look an account up. *)
Lemma reader_get {A} a (g : option StateDB.stateObject -> A) :
  reader (fun s => let '(s, o) := StateDB.getStateObject a s in (s, g o)).
Proof. intros s Hi. pose proof (quiet_get a s Hi). by destruct (StateDB.getStateObject a s). Qed.

Lemma reader_CanTransfer a v : reader (CanTransfer a v).
Proof.
  intros s Hi. unfold CanTransfer, StateDB.GetBalance. pose proof (quiet_get a s Hi).
  by destruct (StateDB.getStateObject a s).
Qed.

Lemma reader_GetCode a : reader (StateDB.GetCode a).
Proof. intros s Hi. by apply quiet_GetCode. Qed.
Lemma reader_GetState a k : reader (StateDB.GetState a k).
Proof. intros s Hi. by apply quiet_GetState. Qed.

Lemma moves_ask {A} (f : StateDB.StateDB -> StateDB.StateDB * A) e e' x :
  reader f -> evm_ok e -> ask f e = (e', x) ->
  moves e e' /\ x = (f (db e)).2 /\ same (view_of (db e')) (view_of (db e)) /\ db e' = (f (db e)).1 /\
  callGasTemp e' = callGasTemp e.
Proof.
  intros Hf He. unfold ask. destruct (f (db e)) as [s y] eqn:E. intros [= <- <-].
  assert (quiet (db e) s) as Hq. { pose proof (Hf (db e) (g_inv _ (proj1 (ok_db e He)))) as Hq. by rewrite E in Hq. }
  split; [|by destruct Hq]. apply moves_db; [done|by apply ext_quiet; [apply He|]|].
  intros _. apply same_static, Hq.
Qed.

(** ** Writers *)

Lemma moves_tell f e :
  evm_ok e -> ext (db e) (f (db e)) ->
  (read_only e -> static (view_of (db e)) (view_of (f (db e)))) -> moves e (tell f e).
Proof. intros He Hx Hst. by apply moves_db. Qed.

(** A transfer that the sender can pay, and one of nothing. *)
Definition balance (s : StateDB.StateDB) (a : Address) : Z := ac_Balance (acct_at (view_of s) a).

Lemma CanTransfer_balance a v s : (CanTransfer a v s).2 = (v <=? balance s a).
Proof.
  unfold CanTransfer, balance. pose proof (balance_of a s) as Hb. destruct (StateDB.GetBalance a s) as [s1 n].
  simpl in *. by rewrite Hb.
Qed.

Lemma balance_same s s' a : same (view_of s') (view_of s) -> balance s' a = balance s a.
Proof. intros (A & _). unfold balance, acct_at. by rewrite A. Qed.

Lemma balance_upd s s' a x b :
  same (view_of s') (upd_acc a (Some x) (view_of s)) -> ac_Balance x = balance s a -> balance s' b = balance s b.
Proof.
  intros (A & _) Hx. unfold balance, acct_at in *. rewrite A. simpl. unfold fupd. case_decide; [subst; by simpl|done].
Qed.

Lemma balance_SetNonce a n s b : inv s -> balance (StateDB.SetNonce a n s) b = balance s b.
Proof. intros Hi. by apply (balance_upd s _ a _ b (view_SetNonce a n s Hi)). Qed.

Lemma balance_CreateAccount a s b : inv s -> balance (StateDB.CreateAccount a s) b = balance s b.
Proof.
  intros Hi. pose proof (view_CreateAccount a s Hi) as (A & _). unfold balance, acct_at at 1. rewrite A. simpl.
  unfold fupd. case_decide; [by subst|done].
Qed.

Lemma ext_Transfer a b v s : sound s -> 0 <= v <= balance s a -> ext s (Transfer a b v s).
Proof.
  intros Hs Hv. unfold balance in Hv. eapply ext_trans; [apply (ext_SubBalance a v); [done|lia]|].
  apply ext_AddBalance; [|lia]. apply (ext_SubBalance a v s); [done|lia].
Qed.

Lemma static_Transfer a b s : inv s -> static (view_of s) (view_of (Transfer a b 0 s)).
Proof.
  intros Hi. unfold Transfer. pose proof (ev_inv _ _ (ev_SubBalance a 0 s Hi)) as Hi1.
  rewrite (view_AddBalance b 0 _ Hi1), Z.add_0_r, with_balance_id. etrans; [|apply static_at].
  rewrite (view_SubBalance a 0 s Hi), Z.sub_0_r, with_balance_id. apply static_at.
Qed.

Lemma static_CreateAccount a s :
  inv s -> v_acc (view_of s) a = None -> static (view_of s) (view_of (StateDB.CreateAccount a s)).
Proof.
  intros Hi Ha. rewrite view_CreateAccount by done. unfold acct_at. rewrite Ha. cbn [default].
  rewrite with_balance_id. etrans; [|apply static_fresh; by simpl].
  apply same_static. split_and!; try done. intros b k. simpl. unfold fupd. case_decide; [subst|done].
  simpl in Ha. by destruct (obj_at s a).
Qed.

(** ** Frames *)

Record contract_ok (c : Contract) : Prop := {
  ct_code : bytes (Code c);
  ct_input : bytes (Input c);
  ct_gas : 0 <= Gas c <= gas_limit;
  ct_value : 0 <= value c;
  ct_hash : Code c = [] \/ CodeHash c = Keccak256 (Code c)
}.

Record frame_ok (f : frame) : Prop := {
  fr_vm : evm_ok (vm f);
  fr_stack : Forall (fun x => 0 <= x) (stack f);
  fr_mem : mem_ok (mem f);
  fr_contract : contract_ok (contract f);
  fr_pc : 0 <= pc f
}.

(** ** Prices *)

(** The memory that the price paid for. *)
Definition paid_memory (m : Memory) (size : Z) : Prop := mem_ok (grow m size) /\ size <= Len (grow m size).

Lemma memory_price mem w m g :
  mem_ok mem -> 0 <= w -> memoryGasCost mem (32 * w) = (m, g) ->
  forall x, g = Some x -> in_u64 x /\ paid_memory m (32 * w).
Proof. intros Hm Hw E x ->. by apply (memoryGasCost_ok mem w m x). Qed.

Lemma gasMemory_ok base e c st mem w :
  in_u64 base -> mem_ok mem -> 0 <= w ->
  exists m cost, gasMemory base env e c st mem (32 * w) = Ok (e, m, cost) /\
    forall x, cost = Some x -> base <= x /\ paid_memory m (32 * w).
Proof.
  intros Hb Hm Hw. unfold gasMemory. destruct (memoryGasCost mem (32 * w)) as [m g] eqn:E.
  do 2 eexists. split; [done|]. intros x (y & -> & Ex)%bind_Some.
  destruct (memory_price mem w m _ Hm Hw E y eq_refl) as [Hy Hp]. split; [|done].
  apply safe_add_Some in Ex as [-> _]; [|done..]. unfold in_u64 in *. lia.
Qed.

Lemma gasReturn_ok e c st mem w :
  mem_ok mem -> 0 <= w ->
  exists m cost, gasReturn env e c st mem (32 * w) = Ok (e, m, cost) /\
    forall x, cost = Some x -> 0 <= x /\ paid_memory m (32 * w).
Proof.
  intros Hm Hw. unfold gasReturn. destruct (memoryGasCost mem (32 * w)) as [m g] eqn:E.
  do 2 eexists. split; [done|]. intros x ->.
  destruct (memory_price mem w m _ Hm Hw E x eq_refl) as [Hy Hp]. split; [apply Hy|done].
Qed.

Lemma gasCopy_ok base perWord l e mem w :
  in_u64 base -> in_u64 perWord -> 0 <= l -> mem_ok mem -> 0 <= w ->
  exists m cost, gasCopy base perWord l e mem (32 * w) = Ok (e, m, cost) /\
    forall x, cost = Some x -> base <= x /\ paid_memory m (32 * w).
Proof.
  intros Hb Hpw Hl Hm Hw. unfold gasCopy. destruct (memoryGasCost mem (32 * w)) as [m g] eqn:E.
  do 2 eexists. split; [done|]. intros x (y & -> & Ex)%bind_Some.
  destruct (memory_price mem w m _ Hm Hw E y eq_refl) as [Hy Hp]. split; [|done].
  apply bind_Some in Ex as (z & Ez & Ex). apply safe_add_Some in Ez as [-> Hz]; [|done..].
  apply bind_Some in Ex as (n & En & Ex). apply bigUint64_Some in En as [-> Hn]; [|done].
  apply bind_Some in Ex as (k & Ek & Ex). destruct (toWordSize_range _ Hn) as [Hws _].
  apply safe_mul_Some in Ek as [-> Hk]; [|done..].
  apply safe_add_Some in Ex as [-> _]; [|done..]. unfold in_u64 in *. lia.
Qed.

Lemma makeGasLog_ok n l e c st mem w :
  0 <= n <= 4 -> 0 <= l -> Back st 1 = Ok l -> mem_ok mem -> 0 <= w ->
  exists m cost, makeGasLog n env e c st mem (32 * w) = Ok (e, m, cost) /\
    forall x, cost = Some x -> LogGas <= x /\ paid_memory m (32 * w).
Proof.
  intros Hn Hl El Hm Hw. unfold makeGasLog. rewrite El. destruct (bigUint64 l) as [k|] eqn:Ek; [|by do 2 eexists].
  apply bigUint64_Some in Ek as [-> Hk]; [|done].
  destruct (memoryGasCost mem (32 * w)) as [m g] eqn:E.
  do 2 eexists. split; [done|]. intros x (y & -> & Ex)%bind_Some.
  destruct (memory_price mem w m _ Hm Hw E y eq_refl) as [Hy Hp]. split; [|done]. unfold LogGas, LogTopicGas, LogDataGas in *.
  apply bind_Some in Ex as (z & Ez & Ex). apply safe_add_Some in Ez as [-> Hz]; [|done|unfold in_u64; lia].
  apply bind_Some in Ex as (z & Ez & Ex). apply safe_add_Some in Ez as [-> Hz']; [|done|unfold in_u64; lia].
  apply bind_Some in Ex as (z & Ez & Ex). apply safe_mul_Some in Ez as [-> Hz'']; [|done|unfold in_u64; lia].
  apply safe_add_Some in Ex as [-> _]; [|done..]. unfold in_u64 in *. lia.
Qed.

(** The four calls: what is given to the callee is part of the price. *)
Lemma gas_calls_ok gas e c st mem w callCost :
  0 <= gas <= 100000 -> 0 <= callCost -> Back st 0 = Ok callCost -> mem_ok mem -> 0 <= w ->
  exists temp m cost, gas_calls env gas e c st mem (32 * w) = Ok (set_callGasTemp temp e, m, cost) /\
    forall x, cost = Some x -> paid_memory m (32 * w) /\ 0 <= temp /\ gas + temp <= x.
Proof.
  intros Hg Hc Ec Hm Hw. unfold gas_calls. rewrite Ec. destruct (memoryGasCost mem (32 * w)) as [m g] eqn:E.
  destruct (g ≫= safe_add gas) as [gas'|] eqn:Eg.
  2:{ exists (callGasTemp e), m, None. split; [|done]. by destruct e. }
  apply bind_Some in Eg as (y & -> & Eg). destruct (memory_price mem w m _ Hm Hw E y eq_refl) as [Hy Hp].
  apply safe_add_Some in Eg as [-> Hg']; [|unfold in_u64; lia|done].
  destruct (callGas (gasTable env) (Gas c) (gas + y) callCost) as [temp|] eqn:Et.
  2:{ by exists 0, m, None. }
  exists temp, m, (safe_add (gas + y) temp). split; [done|]. intros x Ex.
  assert (in_u64 temp) as Ht.
  { unfold callGas in Et. pose proof (u64_range (Gas c - (gas + y))) as Hr. set (av := u64 _) in *.
    assert (in_u64 (av - av / 64)).
    { unfold in_u64 in *. pose proof (Z.div_mod av 64). pose proof (Z.mod_pos_bound av 64). assert (0 <= av / 64) by (apply Z.div_pos; lia). lia. }
    repeat case_match; simplify_eq; try done; apply Uint64_range. }
  apply safe_add_Some in Ex as [-> _]; [|done..]. unfold in_u64 in *. split; [done|]. lia.
Qed.

End Frame.
End EvmFrame.
