(* ===== verification/EvmSteps.v ===== *)
(** * Instructions of the virtual machine: no instruction panics

    Every instruction that passed the checks of the interpreter returns, keeps
    the frame well formed, and takes gas unless it ends the run.  The one exception
    is a jump in a code whose hash is that of another code: the bit vector it finds
    may be too short ([StaleBitmap], [stale_collides]). *)

From S2P Require Import Prelude Common Rlp Crypto RlpDecode Deposit StateDB Snapshot StateRoot StateRun EvmWord EvmMachine EvmAnalysis EvmState Evm EvmFrame.

Module EvmSteps.
Import Rlp Snapshot StateRun Machine EvmAnalysis EvmState Evm EvmFrame.
Section Steps.
Context `{Crypto} `{TrieLaws} {GL : GasLimit} (env : Env) (precompiles : Address -> option PrecompiledContract).

Local Abbreviation moves := (moves env precompiles).
Local Abbreviation read_only := (read_only env precompiles).

(** ** Prices *)

Definition ending (op : OpCode) : bool := halts op || reverts op.

(** The gas that a call with this value gets for free. *)
Definition stipend (v : Z) : Z := if Word.U256 v =? 0 then 0 else CallStipend.

(** The price of a call covers more than the gas it gives away. *)
Definition call_paid (op : OpCode) (st : list Z) (e : evm) (c : Z) : Prop :=
  match op, st with
  | (CALL | CALLCODE), _ :: _ :: v :: _ => 0 <= callGasTemp e /\ callGasTemp e + stipend v < c
  | (DELEGATECALL | STATICCALL), _ => 0 <= callGasTemp e /\ callGasTemp e < c
  | _, _ => True
  end.

(** What a machine in read-only mode lets pass. *)
Definition allowed (op : OpCode) (f : frame) : Prop :=
  read_only (vm f) -> writes op = false /\ (op = CALL -> forall v, stack f !! 2%nat = Some v -> v = 0).

Definition gas_spec (op : OpCode) (f : frame) (size : Z) : Prop :=
  exists e m cost,
    gasCost op env (vm f) (contract f) (stack f) (mem f) size = Ok (e, m, cost) /\ moves (vm f) e /\
    forall x, cost = Some x ->
      (if ending op then 0 else 1) <= x /\ paid_memory m size /\ call_paid op (stack f) e x.

(** The operands that the instruction takes. *)
Definition enough (op : OpCode) (f : frame) : Prop := (stack_effect op).1 <= zlen (stack f).

Lemma validateStack_ok op f : validateStack op (stack f) = None -> enough op f.
Proof.
  unfold validateStack, enough. destruct (stack_effect op) as [pop push]. simpl.
  destruct (Z.ltb_spec (zlen (stack f)) pop); [done|lia].
Qed.

(** Takes the operands off the stack. *)
Ltac operands f :=
  match goal with H : enough _ f |- _ => unfold enough in H; cbn [stack_effect fst] in H end;
  match goal with H : frame_ok f |- _ => pose proof (fr_stack f H) as Hnn end;
  destruct f as [fpc st fmem fct fvm]; cbn [stack mem contract vm pc] in *;
  repeat (destruct st as [|? st]; [exfalso; cbn [length] in *; lia|]);
  repeat match goal with H : Forall _ (_ :: _) |- _ => apply Forall_cons in H as [? H] end.

Lemma gas_fixed op f size k :
  gasCost op = constGasFunc k -> memorySize op = None -> (if ending op then 0 else 1) <= k ->
  (forall st e x, call_paid op st e x) ->
  frame_ok f -> required_memory op (stack f) = Ok (Some size) -> gas_spec op f size.
Proof.
  intros Eg Em Hk Hc Hf. unfold required_memory. rewrite Em. intros [= <-]. unfold gas_spec. rewrite Eg.
  exists (vm f), (mem f), (Some k). split; [done|]. split; [apply moves_refl, Hf|]. intros x [= <-].
  split; [done|]. split; [|done]. split; [apply Hf|]. unfold Len. cbn. lia.
Qed.

(** Prices that only depend on the table. *)
Lemma gas_table op f size g :
  gasCost op = (fun env e c st mem _ => Ok (e, mem, Some (g (gasTable env)))) -> memorySize op = None ->
  1 <= g GasTableHomestead -> 1 <= g GasTableEIP150 -> 1 <= g GasTableEIP158 ->
  (forall st e x, call_paid op st e x) ->
  frame_ok f -> required_memory op (stack f) = Ok (Some size) -> gas_spec op f size.
Proof.
  intros Eg Em H2 H3 H4 Hc Hf. unfold required_memory. rewrite Em. intros [= <-]. unfold gas_spec. rewrite Eg.
  do 3 eexists. split; [done|]. split; [apply moves_refl, Hf|]. intros x [= <-].
  split; [unfold gasTable; repeat case_match; lia|]. split; [|done]. split; [apply Hf|]. unfold Len. cbn. lia.
Qed.

Lemma gas_priced op f size low :
  (forall e c st mem w, mem_ok mem -> 0 <= w -> Forall (fun x => 0 <= x) st -> (stack_effect op).1 <= zlen st ->
     exists m cost, gasCost op env e c st mem (32 * w) = Ok (e, m, cost) /\
       forall x, cost = Some x -> low <= x /\ paid_memory m (32 * w)) ->
  (if ending op then 0 else 1) <= low -> (forall st e x, call_paid op st e x) ->
  frame_ok f -> enough op f -> required_memory op (stack f) = Ok (Some size) -> gas_spec op f size.
Proof.
  intros Hg Hlow Hc Hf He Hr. destruct (required_words op _ size (fr_stack f Hf) Hr) as (w & Hw & ->).
  destruct (Hg (vm f) (contract f) (stack f) (mem f) w) as (m & cost & E & Hx); [apply Hf|done|apply Hf|done|].
  exists (vm f), m, cost. split; [done|]. split; [apply moves_refl, Hf|]. intros x Ex.
  destruct (Hx x Ex). split; [lia|]. done.
Qed.

Ltac stack_cases st :=
  repeat (destruct st as [|? st]; [exfalso; cbn [length] in *; lia|]);
  repeat match goal with H : Forall _ (_ :: _) |- _ => apply Forall_cons in H as [? H] end.

Lemma gasTable_range : in_u64 (gt_ExtcodeCopy (gasTable env)) /\ 20 <= gt_ExtcodeCopy (gasTable env) /\
  40 <= gt_Calls (gasTable env) <= 700 /\ 0 <= gt_Suicide (gasTable env) /\ 0 <= gt_CreateBySuicide (gasTable env) /\
  0 <= gt_ExpByte (gasTable env).
Proof. unfold gasTable, in_u64. repeat case_match; cbn; lia. Qed.

Lemma gas_Exp f size :
  frame_ok f -> enough EXP f -> required_memory EXP (stack f) = Ok (Some size) -> gas_spec EXP f size.
Proof.
  intros Hf He [= <-]. unfold gas_spec. operands f. cbn [gasCost]. unfold gasExp. cbn [Back lookup list_lookup].
  do 3 eexists. split; [done|]. split; [apply moves_refl, Hf|]. intros x Hx.
  apply safe_add_Some in Hx as [-> _]; [|apply u64_range|unfold in_u64, GasSlowStep; lia].
  pose proof (u64_range ((Word.BitLen z0 + 7) / 8 * gt_ExpByte (gasTable env))) as Hr. unfold in_u64, GasSlowStep in *. cbn.
  split; [lia|]. split; [|done]. split; [apply Hf|]. cbn. unfold Len. lia.
Qed.

Lemma gas_Sstore f size :
  frame_ok f -> enough SSTORE f -> allowed SSTORE f ->
  required_memory SSTORE (stack f) = Ok (Some size) -> gas_spec SSTORE f size.
Proof.
  intros Hf He Ha [= <-]. unfold gas_spec. pose proof (fr_mem f Hf) as Hm. pose proof (fr_vm f Hf) as Hv.
  assert (paid_memory (mem f) 0) as Hp by (split; [done|unfold Len; cbn; lia]).
  operands f. cbn [gasCost]. unfold gasSStore. cbn [Back lookup list_lookup].
  destruct (ask _ _) as [e val] eqn:E. destruct (moves_ask env precompiles _ _ _ _ (reader_GetState _ _) Hv E) as (Hmv & _).
  pose proof (mv_ok _ _ _ _ Hmv) as He'.
  repeat case_match; (do 3 eexists; split; [done|]); (split; [|intros x [= <-]; done]); try done.
  eapply moves_trans; [done|]. apply moves_tell; [done|apply ext_AddRefund, He'|].
  intros Hr. destruct Ha as [? _]; [|done]. destruct Hr as (? & ? & Hr). split; [done|]. split; [done|].
  cbn. by rewrite <- (mv_readOnly _ _ _ _ Hmv).
Qed.

Lemma reader_Empty a : reader (StateDB.Empty a).
Proof. apply (reader_get a (fun o => match o with Some o => StateDB.empty o | None => true end)). Qed.
Lemma reader_Exist a : reader (StateDB.Exist a).
Proof. apply (reader_get a (fun o => match o with Some _ => true | None => false end)). Qed.
Lemma reader_GetBalance a : reader (StateDB.GetBalance a).
Proof. apply (reader_get a (fun o => match o with Some o => StateDB.Balance (StateDB.data o) | None => 0 end)). Qed.
Lemma reader_GetNonce a : reader (StateDB.GetNonce a).
Proof. apply (reader_get a (fun o => match o with Some o => StateDB.Nonce (StateDB.data o) | None => StateDB.NonceAddOne end)). Qed.
Lemma reader_GetCodeHash a : reader (StateDB.GetCodeHash a).
Proof. apply (reader_get a (fun o => match o with Some o => StateDB.CodeHash (StateDB.data o) | None => 0%N end)). Qed.
Lemma reader_HasSuicided a : reader (StateDB.HasSuicided a).
Proof. apply (reader_get a (fun o => match o with Some o => StateDB.suicided o | None => false end)). Qed.
Lemma reader_GetCodeSize a : reader (StateDB.GetCodeSize a).
Proof.
  apply (reader_get a (fun o => match o with
    | Some o => Z.of_nat (length (match StateDB.code o with Some c => c
        | None => ContractCode (StateDB.addrHash o) (StateDB.CodeHash (StateDB.data o)) end))
    | None => 0 end)).
Qed.

Hint Resolve reader_Empty reader_Exist reader_GetBalance reader_GetNonce reader_GetCodeHash reader_HasSuicided
  reader_GetCodeSize reader_GetCode reader_GetState reader_CanTransfer : evm.

(** Runs the next reader. *)
Ltac reads H :=
  let e := fresh "e" in let x := fresh "x" in let E := fresh "E" in
  destruct (ask _ _) as [e x] eqn:E;
  apply (moves_ask env precompiles) in E as (H & ? & ? & ? & ?);
  [pose proof (mv_ok _ _ _ _ H)|solve [auto with evm]|done].

Lemma gas_Suicide f size :
  frame_ok f -> enough SELFDESTRUCT f -> allowed SELFDESTRUCT f ->
  required_memory SELFDESTRUCT (stack f) = Ok (Some size) -> gas_spec SELFDESTRUCT f size.
Proof.
  intros Hf He Ha [= <-]. unfold gas_spec. pose proof (fr_mem f Hf) as Hm. pose proof (fr_vm f Hf) as Hv.
  assert (paid_memory (mem f) 0) as Hp by (split; [done|unfold Len; cbn; lia]).
  assert (~ read_only (vm f)) as Hro by (intros Hr; by destruct (Ha Hr)).
  operands f. cbn [gasCost]. unfold gasSuicide. cbn [Back lookup list_lookup].
  pose proof gasTable_range as (_ & _ & _ & Hs & Hcs & _).
  set (price := if IsEIP150 env then _ else _).
  assert (exists e gas, price = (e, gas) /\ moves fvm e /\ 0 <= gas) as (e & gas & -> & Hmv & Hg).
  { unfold price. destruct (IsEIP150 env); [|by exists fvm, 0; split; [|split; [apply moves_refl|]]].
    destruct (IsEIP158 env).
    - reads M1. destruct x; [|by do 2 eexists]. reads M2. do 2 eexists. split; [done|].
      split; [by eapply moves_trans|]. case_match; lia.
    - reads M1. do 2 eexists. split; [done|]. split; [done|]. case_match; lia. }
  pose proof (mv_ok _ _ _ _ Hmv) as Hoe. reads M3.
  do 3 eexists. split; [done|]. split; [|intros y [= <-]; done].
  eapply moves_trans; [done|]. eapply moves_trans; [done|]. case_match; [by apply moves_refl|].
  apply moves_tell; [done|by apply ext_AddRefund, ok_db|].
  intros (Hn & Hb & Hr). destruct Hro. split; [done|]. split; [done|].
  by rewrite <- (mv_readOnly _ _ _ _ Hmv), <- (mv_readOnly _ _ _ _ M3).
Qed.

Lemma stipend_range v : 0 <= v -> 0 <= stipend v <= if v =? 0 then 0 else CallStipend.
Proof.
  intros Hv. unfold stipend, CallStipend. destruct (Z.eqb_spec v 0) as [->|]; [done|]. case_match; lia.
Qed.

Lemma gas_Call f size :
  frame_ok f -> enough CALL f -> required_memory CALL (stack f) = Ok (Some size) -> gas_spec CALL f size.
Proof.
  intros Hf He Hr. destruct (required_words _ _ size (fr_stack f Hf) Hr) as (w & Hw & ->).
  unfold gas_spec. pose proof (fr_mem f Hf) as Hm. pose proof (fr_vm f Hf) as Hv.
  operands f. cbn [gasCost]. unfold gasCall. cbn [Back lookup list_lookup].
  pose proof gasTable_range as (_ & _ & Hc & _). rename z1 into v. pose proof (stipend_range v ltac:(done)) as Hst.
  set (price := if IsEIP158 env then _ else _).
  assert (exists e gas, price = (e, gas) /\ moves fvm e /\ 40 <= gas <= 25700) as (e & gas & -> & Hmv & Hg).
  { unfold price, CallNewAccountGas. destruct (IsEIP158 env).
    - destruct (negb (v =? 0)).
      + reads M1. do 2 eexists. split; [done|]. split; [done|]. destruct x; lia.
      + do 2 eexists. split; [done|]. split; [by apply moves_refl|]. lia.
    - reads M1. do 2 eexists. split; [done|]. split; [done|]. destruct x; lia. }
  unfold CallStipend, CallValueTransferGas in *.
  edestruct gas_calls_ok as (temp & m & cost & -> & Hcost); [| |cbn; reflexivity|exact Hm|exact Hw|];
    [destruct (v =? 0); cbn; lia|done|].
  do 3 eexists. split; [done|]. split.
  { eapply moves_trans; [done|]. apply moves_callGasTemp. by apply (mv_ok _ _ _ _ Hmv). }
  intros x Hx. destruct (Hcost x Hx) as (? & ? & ?). destruct (v =? 0); cbn in *; (split; [lia|]); (split; [done|]); lia.
Qed.

Lemma gas_CallCode f size :
  frame_ok f -> enough CALLCODE f -> required_memory CALLCODE (stack f) = Ok (Some size) -> gas_spec CALLCODE f size.
Proof.
  intros Hf He Hr. destruct (required_words _ _ size (fr_stack f Hf) Hr) as (w & Hw & ->).
  unfold gas_spec. pose proof (fr_mem f Hf) as Hm. pose proof (fr_vm f Hf) as Hv.
  operands f. cbn [gasCost]. unfold gasCallCode. cbn [Back lookup list_lookup].
  pose proof gasTable_range as (_ & _ & Hc & _). rename z1 into v. pose proof (stipend_range v ltac:(done)) as Hst.
  unfold CallStipend, CallValueTransferGas in *.
  edestruct gas_calls_ok as (temp & m & cost & -> & Hcost); [| |cbn; reflexivity|exact Hm|exact Hw|];
    [destruct (v =? 0); cbn; lia|done|].
  do 3 eexists. split; [done|]. split; [by apply moves_callGasTemp|].
  intros x Hx. destruct (Hcost x Hx) as (? & ? & ?). destruct (v =? 0); cbn in *; (split; [lia|]); (split; [done|]); lia.
Qed.

Lemma gas_calls_plain op f size :
  (op = DELEGATECALL \/ op = STATICCALL) ->
  frame_ok f -> enough op f -> required_memory op (stack f) = Ok (Some size) -> gas_spec op f size.
Proof.
  intros Hop Hf He Hr. destruct (required_words _ _ size (fr_stack f Hf) Hr) as (w & Hw & ->).
  unfold gas_spec. pose proof (fr_mem f Hf) as Hm. pose proof (fr_vm f Hf) as Hv.
  pose proof gasTable_range as (_ & _ & Hc & _).
  destruct Hop as [-> | ->]; operands f; cbn [gasCost]; unfold gasDelegateCall, gasStaticCall;
  (edestruct gas_calls_ok as (temp & m & cost & -> & Hcost); [| |cbn; reflexivity|exact Hm|exact Hw|]; [lia|done|]);
  (do 3 eexists; split; [done|]; split; [by apply moves_callGasTemp|]);
  intros x Hx; destruct (Hcost x Hx) as (? & ? & ?); cbn in *; (split; [lia|]); (split; [done|]); lia.
Qed.

(** The instructions with a number that a byte decodes to. *)
Definition legal (op : OpCode) : Prop :=
  match op with
  | PUSH n => (1 <= n <= 32)%nat
  | DUP n | SWAP n => (1 <= n <= 16)%nat
  | LOG n => (n <= 4)%nat
  | _ => True
  end.

Lemma decode_legal b op : decode env b = Some op -> legal op.
Proof.
  unfold decode. intros (op' & Hl & E)%bind_Some. destruct (in_set env op'); [|done]. injection E as ->.
  assert (Forall (fun r => Forall legal r.2) opcodes) as Hall.
  { repeat constructor; unfold legal; simpl; lia. }
  induction Hall as [|[base ops] t Hx _ IH]; [done|]. cbn [lookup_op] in Hl. case_match; [|by apply IH].
  by eapply Forall_lookup_1.
Qed.

Lemma decode_STOP : decode env 0 = Some STOP.
Proof. done. Qed.

Ltac copy_price :=
  intros ? ? st ? ? ? ? ? ?; cbn [stack_effect fst] in *; stack_cases st;
  cbn [gasCost]; unfold gasCallDataCopy, gasReturnDataCopy, gasCodeCopy, gasExtCodeCopy, gasSha3; cbn [Back lookup list_lookup];
  apply gasCopy_ok; first [done|apply gasTable_range|unfold in_u64, GasFastestStep, CopyGas, Sha3Gas, Sha3WordGas; lia].

Lemma gas_ok op f size :
  legal op -> frame_ok f -> enough op f -> allowed op f ->
  required_memory op (stack f) = Ok (Some size) -> gas_spec op f size.
Proof.
  intros Hl Hf He Ha Hr. destruct op;
    try solve [eapply gas_fixed; [reflexivity|reflexivity|by vm_compute|done|done|done]].
  - by apply gas_Exp.
  - apply (gas_priced _ _ _ Sha3Gas); [copy_price|done..].
  - by apply (gas_table _ _ _ gt_Balance).
  - apply (gas_priced _ _ _ GasFastestStep); [copy_price|done..].
  - apply (gas_priced _ _ _ GasFastestStep); [copy_price|done..].
  - by apply (gas_table _ _ _ gt_ExtcodeSize).
  - apply (gas_priced _ _ _ (gt_ExtcodeCopy (gasTable env))); try done; [copy_price|].
    pose proof gasTable_range. cbn. lia.
  - apply (gas_priced _ _ _ GasFastestStep); [copy_price|done..].
  - apply (gas_priced _ _ _ GasFastestStep); try done. intros. by apply gasMemory_ok.
  - apply (gas_priced _ _ _ GasFastestStep); try done. intros. by apply gasMemory_ok.
  - apply (gas_priced _ _ _ GasFastestStep); try done. intros. by apply gasMemory_ok.
  - by apply (gas_table _ _ _ gt_SLoad).
  - by apply gas_Sstore.
  - apply (gas_priced _ _ _ LogGas); try done. intros e c st m w Hm Hw Hst Hen. cbn [stack_effect fst] in Hen.
    cbn in Hl. stack_cases st. apply (makeGasLog_ok env _ z0); try done. lia.
  - apply (gas_priced _ _ _ CreateGas); try done. intros. by apply gasMemory_ok.
  - by apply gas_Call.
  - by apply gas_CallCode.
  - apply (gas_priced _ _ _ 0); try done. intros. by apply gasReturn_ok.
  - apply gas_calls_plain; auto.
  - apply gas_calls_plain; auto.
  - apply (gas_priced _ _ _ 0); try done. intros. by apply gasReturn_ok.
  - by apply gas_Suicide.
Qed.

(** ** Instructions that do not call *)

(** The instruction returns a well-formed frame of the same contract. *)
Definition yields (f : frame) (r : result) : Prop :=
  exists f' ret err, r = Ok (f', ret, err) /\ frame_ok f' /\ moves (vm f) (vm f') /\ bytes ret /\
    contract f' = contract f.

Lemma bytes_nil : bytes [].
Proof. split; [constructor|]. unfold max_len. cbn. lia. Qed.

Lemma yields_done f f' :
  frame_ok f' -> moves (vm f) (vm f') -> contract f' = contract f -> yields f (done f').
Proof. intros. do 3 eexists. split; [done|]. split; [done|]. split; [done|]. split; [apply bytes_nil|done]. Qed.

Lemma frame_stack st f : frame_ok f -> Forall (fun x => 0 <= x) st -> frame_ok (set_stack st f).
Proof. intros [] Hs. by split. Qed.
Lemma frame_mem m f : frame_ok f -> mem_ok m -> frame_ok (set_mem m f).
Proof. intros [] Hm. by split. Qed.
Lemma frame_vm e f : frame_ok f -> moves (vm f) e -> frame_ok (set_vm e f).
Proof. intros [] Hm. split; try done. apply Hm. Qed.
Lemma frame_pc n f : frame_ok f -> 0 <= n -> frame_ok (set_pc n f).
Proof. intros [] Hn. by split. Qed.

Lemma yields_stack f st : frame_ok f -> Forall (fun x => 0 <= x) st -> yields f (done (set_stack st f)).
Proof. intros Hf Hs. apply yields_done; [by apply frame_stack|apply moves_refl, Hf|done]. Qed.

Lemma yields_nullary x f : frame_ok f -> 0 <= x -> yields f (nullary x f).
Proof. intros Hf Hx. apply yields_stack; [done|]. constructor; [done|apply Hf]. Qed.

Lemma yields_unary g f : Word.keeps1 g -> frame_ok f -> 1 <= zlen (stack f) -> yields f (unary g f).
Proof.
  intros Hg Hf Hl. unfold unary. pose proof (fr_stack f Hf) as Hs. destruct (stack f) as [|x st]; [cbn in *; lia|].
  apply Forall_cons in Hs as [Hx Hs]. apply yields_stack; auto.
Qed.

Lemma yields_binary g f : Word.keeps2 g -> frame_ok f -> 2 <= zlen (stack f) -> yields f (binary g f).
Proof.
  intros Hg Hf Hl. unfold binary. pose proof (fr_stack f Hf) as Hs. destruct (stack f) as [|x st]; [cbn in *; lia|].
  destruct st as [|y st]; [cbn in *; lia|].
  apply Forall_cons in Hs as [Hx Hs]. apply Forall_cons in Hs as [Hy Hs]. apply yields_stack; auto.
Qed.

Lemma yields_ternary g f : Word.keeps3 g -> frame_ok f -> 3 <= zlen (stack f) -> yields f (ternary g f).
Proof.
  intros Hg Hf Hl. unfold ternary. pose proof (fr_stack f Hf) as Hs. destruct (stack f) as [|x st]; [cbn in *; lia|].
  destruct st as [|y st]; [cbn in *; lia|]. destruct st as [|z st]; [cbn in *; lia|].
  apply Forall_cons in Hs as [Hx Hs]. apply Forall_cons in Hs as [Hy Hs]. apply Forall_cons in Hs as [Hz Hs].
  apply yields_stack; auto.
Qed.

(** A new stack on a machine that moved on. *)
Lemma yields_vm f e st :
  frame_ok f -> moves (vm f) e -> Forall (fun x => 0 <= x) st -> yields f (done (set_stack st (set_vm e f))).
Proof.
  intros Hf He Hs. apply yields_done; [|done..]. apply frame_stack; [by apply frame_vm|done].
Qed.

Lemma yields_lookup g f :
  (forall a, reader (g a)) -> (forall a s, sound s -> 0 <= (g a s).2) -> frame_ok f -> 1 <= zlen (stack f) ->
  yields f (lookup_account g f).
Proof.
  intros Hr Hg Hf Hl. unfold lookup_account. pose proof (fr_stack f Hf) as Hs. pose proof (fr_vm f Hf) as Hv.
  destruct (stack f) as [|x st]; [cbn in *; lia|]. apply Forall_cons in Hs as [Hx Hs].
  destruct (ask _ _) as [e y] eqn:E. apply (moves_ask env precompiles) in E as (Hm & -> & _); [|auto..].
  apply yields_vm; [done..|]. constructor; [apply Hg, Hv|done].
Qed.

(** What an instruction finds when the interpreter starts it. *)
Record ready (op : OpCode) (f : frame) : Prop := {
  rd_frame : frame_ok f;
  rd_legal : legal op;
  rd_enough : enough op f;
  rd_allowed : allowed op f;
  rd_memory : exists size, required_memory op (stack f) = Ok (Some size) /\ size <= Len (mem f);
  rd_code : op = STOP \/ pc f < zlen (Code (contract f))
}.

Lemma operand f i x : frame_ok f -> stack f !! i = Some x -> 0 <= x.
Proof. intros Hf Hi. pose proof (fr_stack f Hf) as Hs. by apply (Forall_lookup_1 _ _ _ _ Hs Hi). Qed.

(** The memory covers the regions of the instruction. *)
Lemma ready_region op f i j off l :
  ready op f -> memorySize op = Some (memory_region i j) ->
  stack f !! i = Some off -> stack f !! j = Some l -> covers (mem f) off l.
Proof.
  intros [Hf _ _ _ (size & Hr & Hsz) _] Em Hi Hj. unfold required_memory in Hr.
  rewrite Em in Hr. unfold memory_region, Back in Hr. rewrite Hi, Hj in Hr. injection Hr as Hr.
  apply (region_covers off l size); [by apply (operand f i)|by apply (operand f j)|done..].
Qed.

Lemma ready_fixed op f i l off :
  ready op f -> memorySize op = Some (memory_fixed i l) -> 0 <= l -> stack f !! i = Some off -> covers (mem f) off l.
Proof.
  intros [Hf _ _ _ (size & Hr & Hsz) _] Em Hl Hi. unfold required_memory in Hr.
  rewrite Em in Hr. unfold memory_fixed, Back in Hr. rewrite Hi in Hr. injection Hr as Hr.
  apply (region_covers off l size); [by apply (operand f i)|done..].
Qed.

Lemma ready_regions op f i1 j1 i2 j2 o1 l1 o2 l2 :
  ready op f -> memorySize op = Some (memory_regions i1 j1 i2 j2) ->
  stack f !! i1 = Some o1 -> stack f !! j1 = Some l1 -> stack f !! i2 = Some o2 -> stack f !! j2 = Some l2 ->
  covers (mem f) o1 l1 /\ covers (mem f) o2 l2.
Proof.
  intros [Hf _ _ _ (size & Hr & Hsz) _] Em H2 H3 H4 H5. unfold required_memory in Hr.
  rewrite Em in Hr. unfold memory_regions, memory_region, Back in Hr. rewrite H2, H3, H4, H5 in Hr. injection Hr as Hr.
  apply (regions_cover o1 l1 o2 l2 size); [by eapply operand..|done|done].
Qed.

(** Unpacks a ready frame and its operands. *)
Ltac unpack H f :=
  pose proof (rd_frame _ _ H) as Hf; pose proof (rd_enough _ _ H) as He;
  pose proof (fr_vm f Hf) as Hv; pose proof (fr_mem f Hf) as Hm; pose proof (fr_contract f Hf) as Hct;
  let Hst := fresh "Hst" in pose proof (fr_stack f Hf) as Hst;
  unfold enough in He; cbn [stack_effect fst] in He;
  let st := fresh "st" in destruct (stack f) as [|? st] eqn:Estk; [exfalso; cbn [length] in *; lia|];
  stack_cases st.

Lemma SetBytes_nonneg d : Forall byte d -> 0 <= SetBytes d.
Proof. intros Hd. apply RlpDecode.be_range. exact Hd. Qed.

(** Padding to a length that a slice can have. *)
Lemma make_zeros_ok l b :
  l <= Deposit.maxAlloc -> make_zeros l b = Ok (replicate (Z.to_nat l - length b) 0).
Proof. intros Hl. unfold make_zeros. by rewrite (proj2 (Z.ltb_ge Deposit.maxAlloc l)). Qed.

Lemma RightPad_ok d l :
  Forall byte d -> l <= Deposit.maxAlloc ->
  exists d', RightPadBytes d l = Ok d' /\ Forall byte d' /\ zlen d' = Z.max l (zlen d).
Proof.
  intros Hd Hl. unfold RightPadBytes. destruct (Z.leb_spec l (zlen d)); [exists d; split; [done|]; split; [done|lia]|].
  rewrite make_zeros_ok by done. eexists. split; [done|]. rewrite length_app, length_replicate. split; [|lia].
  apply Forall_app. split; [done|]. apply Forall_replicate. unfold byte. lia.
Qed.

Lemma getDataBig_ok data start size :
  bytes data -> 0 <= start -> 0 <= size <= Deposit.maxAlloc -> exists d, getDataBig data start size = Ok d /\ Forall byte d.
Proof.
  intros [Hd Hl] Hs Hz. unfold getDataBig, max_len in *.
  assert (size < 2 ^ 62) by (unfold Deposit.maxAlloc in Hz; lia). rewrite !Uint64_small by (unfold in_u64; lia).
  destruct (slice_ok data (Z.min start (zlen data)) (Z.min (Z.min start (zlen data) + size) (zlen data)))
    as (d & -> & Hb & _); [done|lia..|].
  rewrite i64_small by (unfold in_i64; lia). destruct (RightPad_ok d size Hb) as (d' & E & ? & _); [lia|by exists d'].
Qed.

Lemma yields_copy data f memOffset dataOffset l st :
  frame_ok f -> bytes data -> stack f = memOffset :: dataOffset :: l :: st ->
  Forall (fun x => 0 <= x) (stack f) -> covers (mem f) memOffset l -> yields f (copy_data data f).
Proof.
  intros Hf Hd Es Hst Hc. unfold copy_data. rewrite Es in *.
  repeat match goal with H : Forall _ (_ :: _) |- _ => apply Forall_cons in H as [? H] end.
  assert (0 <= l <= Deposit.maxAlloc).
  { destruct Hc as (_ & ? & Hc). pose proof (mem_max _ (fr_mem f Hf)). unfold Deposit.maxAlloc, max_mem in *. lia. }
  destruct (getDataBig_ok data dataOffset l) as (d & -> & Hb); [done..|].
  destruct (Set_ok (mem f) memOffset l d) as (m & -> & Hm & _); [apply Hf|done..|].
  apply yields_done; [|apply moves_refl, Hf|done]. apply frame_mem; [by apply frame_stack|done].
Qed.

Lemma yields_Sha3 f : ready SHA3 f -> yields f (opSha3 env f).
Proof.
  intros Hrd. unpack Hrd f. unfold opSha3. rewrite Estk.
  destruct (Get_ok (mem f) z z0) as (d & -> & Hd);
    [done|apply (ready_region SHA3 f 0 1); [done|done|by rewrite Estk..]|].
  destruct (EnablePreimageRecording env);
    (apply yields_vm; [done| |constructor; [apply N2Z.is_nonneg|done]]); [|by apply moves_refl].
  apply moves_tell; [done|apply ext_AddPreimage, Hv|]. intros _. unfold StateDB.AddPreimage.
  destruct (StateDB.preimages _ !! _); [reflexivity|]. split_and!; auto.
Qed.

Lemma yields_CallDataLoad f : ready CALLDATALOAD f -> yields f (opCallDataLoad f).
Proof.
  intros Hrd. unpack Hrd f. unfold opCallDataLoad. rewrite Estk.
  destruct (getDataBig_ok (Input (contract f)) z 32) as (d & -> & Hd); [apply Hct|done|unfold Deposit.maxAlloc; lia|].
  apply yields_stack; [done|]. constructor; [by apply SetBytes_nonneg|done].
Qed.

Lemma yields_CallDataCopy f : ready CALLDATACOPY f -> yields f (opCallDataCopy f).
Proof.
  intros Hrd. unpack Hrd f. eapply yields_copy; [done|apply Hct|done|apply Hf|].
  apply (ready_region CALLDATACOPY f 0 2); [done|done|by rewrite Estk..].
Qed.

Lemma yields_CodeCopy f : ready CODECOPY f -> yields f (opCodeCopy f).
Proof.
  intros Hrd. unpack Hrd f. eapply yields_copy; [done|apply Hct|done|apply Hf|].
  apply (ready_region CODECOPY f 0 2); [done|done|by rewrite Estk..].
Qed.

Lemma code_bytes a s : sound s -> bytes (StateDB.GetCode a s).2.
Proof.
  intros [_ Hs]. pose proof (reads_eq a 0%N s) as Hr. unfold reads, reads_view in Hr.
  destruct (v_acc (view_of s) a) as [x|] eqn:E; injection Hr as _ _ _ _ -> _ _ _.
  - by destruct (Hs a x E) as (_ & ? & _).
  - apply bytes_nil.
Qed.

Lemma yields_ExtCodeCopy f : ready EXTCODECOPY f -> yields f (opExtCodeCopy f).
Proof.
  intros Hrd. unpack Hrd f. unfold opExtCodeCopy. rewrite Estk.
  destruct (ask _ _) as [e c] eqn:E. apply (moves_ask env precompiles) in E as (Hmv & -> & _); [|auto with evm..|done].
  set (f' := set_stack (z0 :: z1 :: z2 :: st) (set_vm e f)).
  assert (frame_ok f') as Hf' by (apply frame_stack; [by apply frame_vm|by repeat constructor]).
  destruct (yields_copy (StateDB.GetCode (BigToAddress z) (db (vm f))).2 f' z0 z1 z2 st) as (f2 & ret & err & E2 & ? & ? & ? & ?);
    [done|by apply code_bytes, ok_db|done|apply Hf'|apply (ready_region EXTCODECOPY f 1 3); [done|done|by rewrite Estk..]|].
  exists f2, ret, err. split; [done|]. split; [done|]. split; [|done]. by eapply moves_trans.
Qed.

Lemma yields_ReturnDataCopy f : ready RETURNDATACOPY f -> yields f (opReturnDataCopy f).
Proof.
  intros Hrd. unpack Hrd f. unfold opReturnDataCopy. rewrite Estk.
  pose proof (ok_data _ Hv) as Hrb.
  destruct (Z.ltb_spec 64 (Word.BitLen (z0 + z1))) as [L|L]; simpl.
  { do 3 eexists. split; [done|]. split; [by apply frame_stack|]. split; [by apply moves_refl|]. split; [apply bytes_nil|done]. }
  assert (z0 + z1 < 2 ^ 64) by (apply BitLen_le; lia). rewrite !(Uint64_small (z0 + z1)), (Uint64_small z0) by (unfold in_u64; lia).
  destruct (Z.ltb_spec (zlen (returnData (vm f))) (z0 + z1)); simpl.
  { do 3 eexists. split; [done|]. split; [by apply frame_stack|]. split; [by apply moves_refl|]. split; [apply bytes_nil|done]. }
  destruct (slice_ok (returnData (vm f)) z0 (z0 + z1)) as (d & -> & Hd & _); [done|lia..|].
  destruct (Set_ok (mem f) z z1 d) as (m & -> & Hm' & _);
    [done|apply (ready_region RETURNDATACOPY f 0 2); [done|done|by rewrite Estk..]|done|].
  apply yields_done; [|by apply moves_refl|done]. apply frame_mem; [by apply frame_stack|done].
Qed.

Lemma yields_Mload f : ready MLOAD f -> yields f (opMload f).
Proof.
  intros Hrd. unpack Hrd f. unfold opMload. rewrite Estk.
  destruct (Get_ok (mem f) z 32) as (d & E & Hd); [done|apply (ready_fixed MLOAD f 0); [done|done|lia|by rewrite Estk]|].
  change (Int64 32) with 32 in E. rewrite E. apply yields_stack; [done|]. constructor; [apply SetBytes_nonneg, Hd|done].
Qed.

Lemma Padded_bytes x n : Forall byte (PaddedBigBytes x n).
Proof.
  unfold PaddedBigBytes. case_match; [|apply be_bytes_wf].
  unfold big_Bytes. case_match; [constructor|apply be_bytes_wf].
Qed.

Lemma yields_Mstore f : ready MSTORE f -> yields f (opMstore f).
Proof.
  intros Hrd. unpack Hrd f. unfold opMstore. rewrite Estk.
  destruct (Set_ok (mem f) z 32 (PaddedBigBytes z0 32)) as (m & E & Hm' & _);
    [done|apply (ready_fixed MSTORE f 0); [done|done|lia|by rewrite Estk]|apply Padded_bytes|].
  change (Uint64 32) with 32 in E. rewrite E.
  apply yields_done; [|by apply moves_refl|done]. apply frame_mem; [by apply frame_stack|done].
Qed.

Lemma yields_Mstore8 f : ready MSTORE8 f -> yields f (opMstore8 f).
Proof.
  intros Hrd. unpack Hrd f. unfold opMstore8. rewrite Estk.
  destruct (store_byte_ok (mem f) z (Z.land (Int64 z0) 0xff)) as (m & -> & Hm' & _);
    [done|apply (ready_fixed MSTORE8 f 0); [done|done|lia|by rewrite Estk]| |].
  { change 0xff with (Z.ones 8). rewrite Z.land_ones by lia. unfold byte. by apply Z.mod_pos_bound. }
  apply yields_done; [|by apply moves_refl|done]. apply frame_mem; [by apply frame_stack|done].
Qed.

Lemma yields_Sload f : ready SLOAD f -> yields f (opSload f).
Proof.
  intros Hrd. unpack Hrd f. unfold opSload. rewrite Estk. reads Hmv.
  apply yields_vm; [done..|]. constructor; [apply N2Z.is_nonneg|done].
Qed.

(** A write is not allowed in read-only mode. *)
Lemma not_read_only op f : ready op f -> writes op = true -> ~ read_only (vm f).
Proof. intros Hrd Hw Hr. destruct (rd_allowed _ _ Hrd Hr). congruence. Qed.

Lemma yields_Sstore f : ready SSTORE f -> yields f (opSstore f).
Proof.
  intros Hrd. pose proof (not_read_only _ _ Hrd eq_refl). unpack Hrd f. unfold opSstore. rewrite Estk.
  apply yields_vm; [done| |done]. apply moves_tell; [done|apply ext_SetState, Hv|done].
Qed.

Lemma yields_Log n f : ready (LOG n) f -> yields f (makeLog n f).
Proof.
  intros Hrd. pose proof (not_read_only _ _ Hrd eq_refl). unpack Hrd f. unfold makeLog. rewrite Estk.
  cbn [length] in He. rewrite (proj2 (Nat.ltb_ge (length st) n)) by lia.
  destruct (Get_ok (mem f) z z0) as (d & -> & Hd);
    [done|apply (ready_region (LOG n) f 0 1); [done|done|by rewrite Estk..]|].
  apply yields_vm; [done| |by apply Forall_drop]. apply moves_tell; [done|apply ext_AddLog, Hv|done].
Qed.

Lemma yields_Return op f : ready op f -> op = RETURN \/ op = REVERT -> yields f (opReturn f).
Proof.
  intros Hrd Hop. assert (memorySize op = Some (memory_region 0 1)) as Em by (by destruct Hop as [-> | ->]).
  assert ((stack_effect op).1 = 2) as Es by (by destruct Hop as [-> | ->]).
  pose proof (rd_enough _ _ Hrd) as He. unfold enough in He. rewrite Es in He.
  pose proof (rd_frame _ _ Hrd) as Hf. pose proof (fr_stack f Hf) as Hst. unfold opReturn.
  destruct (stack f) as [|z st] eqn:Estk; [cbn in *; lia|]. stack_cases st.
  destruct (Get_ok (mem f) z z0) as (d & E & Hd); [apply Hf|apply (ready_region op f 0 1); [done|done|by rewrite Estk..]|].
  change (GetPtr (mem f)) with (Get (mem f)). rewrite E.
  do 3 eexists. split; [done|]. split; [by apply frame_stack|]. split; [apply moves_refl, Hf|done].
Qed.

Lemma yields_Suicide f : ready SELFDESTRUCT f -> yields f (opSuicide f).
Proof.
  intros Hrd. pose proof (not_read_only _ _ Hrd eq_refl) as Hro. unpack Hrd f. unfold opSuicide. rewrite Estk.
  reads Hmv. apply yields_vm; [done| |done]. eapply moves_trans; [done|].
  assert (~ read_only e) as Hroe.
  { intros (? & ? & Hr). apply Hro. split; [done|]. split; [done|]. by rewrite <- (mv_readOnly _ _ _ _ Hmv). }
  assert (moves e (tell (StateDB.AddBalance (BigToAddress z) x) e)) as Hm1.
  { apply moves_tell; [done| |done]. apply ext_AddBalance; [by apply ok_db|].
    subst x. rewrite balance_of. apply sane_at, Hv. }
  eapply moves_trans; [done|]. apply moves_tell; [apply Hm1|apply ext_Suicide, ok_db, Hm1|].
  intros (? & ? & Hr). destruct Hroe. split; [done|]. split; [done|]. by rewrite <- (mv_readOnly _ _ _ _ Hm1).
Qed.

Lemma yields_SignExtend f : ready SIGNEXTEND f -> yields f (opSignExtend f).
Proof.
  intros Hrd. unpack Hrd f. unfold opSignExtend. rewrite Estk. destruct (z <? 31).
  - apply yields_stack; [done|]. constructor; [apply Word.U256_nonneg|done].
  - apply yields_stack; [done|]. by constructor.
Qed.

Lemma yields_Push n f : ready (PUSH n) f -> yields f (makePush n f).
Proof.
  intros Hrd. pose proof (rd_frame _ _ Hrd) as Hf. destruct (rd_code _ _ Hrd) as [?|Hpc]; [done|].
  destruct (ct_code _ (fr_contract f Hf)) as [Hb Hl]. unfold max_len in Hl. pose proof (fr_pc f Hf) as Hp.
  unfold makePush. rewrite u64_small by (unfold in_u64; lia). rewrite i64_small by (unfold in_i64; lia).
  set (startMin := if pc f + 1 <? _ then _ else _). set (endMin := if startMin + _ <? _ then _ else _).
  assert (0 <= startMin <= endMin /\ endMin <= zlen (Code (contract f))) as (? & ?).
  { unfold endMin, startMin. destruct (Z.ltb_spec (pc f + 1) (zlen (Code (contract f)))); case_match; bool_to_prop; lia. }
  destruct (slice_ok (Code (contract f)) startMin endMin) as (d & -> & Hd & _); [done|lia..|].
  pose proof (rd_legal _ _ Hrd) as Hn. cbn in Hn.
  destruct (RightPad_ok d (Z.of_nat n) Hd) as (d' & -> & Hd' & _); [unfold Deposit.maxAlloc; lia|].
  apply yields_done; [|apply moves_refl, Hf|done]. apply frame_pc; [|apply u64_range].
  apply frame_stack; [done|]. constructor; [by apply SetBytes_nonneg|apply Hf].
Qed.

Lemma yields_Dup n f : ready (DUP n) f -> yields f (makeDup n f).
Proof.
  intros Hrd. pose proof (rd_frame _ _ Hrd) as Hf. pose proof (rd_enough _ _ Hrd) as He. pose proof (rd_legal _ _ Hrd) as Hl.
  unfold enough in He. cbn in He, Hl. unfold makeDup, Back.
  destruct (lookup_lt_is_Some_2 (stack f) (n - 1)) as [x Hx]; [lia|]. rewrite Hx.
  apply yields_nullary; [done|]. by apply (operand f (n - 1)).
Qed.

Lemma yields_Swap n f : ready (SWAP n) f -> yields f (makeSwap n f).
Proof.
  intros Hrd. pose proof (rd_frame _ _ Hrd) as Hf. pose proof (rd_enough _ _ Hrd) as He. pose proof (rd_legal _ _ Hrd) as Hl.
  unfold enough in He. cbn in He, Hl. unfold makeSwap, Back.
  destruct (lookup_lt_is_Some_2 (stack f) 0) as [x Hx]; [lia|]. rewrite Hx.
  destruct (lookup_lt_is_Some_2 (stack f) n) as [y Hy]; [lia|]. rewrite Hy.
  apply yields_stack; [done|]. apply Forall_insert; [apply Forall_insert; [apply Hf|]|]; by eapply operand.
Qed.

(** ** Jumps *)

(** A bit vector that is too short belongs to another code with the same hash. *)
Lemma stale_collides d code pos :
  dests_ok d -> 0 <= pos -> bytes code -> has d (Keccak256 code) code pos = Err StaleBitmap ->
  exists code' m, d !! Keccak256 code = Some m /\ codeBitmap code' = Ok m /\ bytes code' /\
    Keccak256 code' = Keccak256 code /\ code' <> code.
Proof.
  intros Hd Hp [Hb Hl] E. unfold max_len in Hl.
  destruct (has_cases d (Keccak256 code) code pos Hp ltac:(lia)) as [[_ Hn]|(d' & b & E' & _)]; [|congruence].
  destruct (d !! Keccak256 code) as [m|] eqn:Em; [|destruct Hn; intros m; by rewrite Em].
  destruct (Hd _ _ Em) as (code' & Hb' & Hk & Hm). exists code', m. do 4 (split; [done|]).
  intros ->. destruct Hn. intros m'. rewrite Em. by intros [= <-].
Qed.

(** A jump may find such a bit vector. *)
Definition yields_or_stale (f : frame) (r : result) : Prop := r = Err StaleBitmap \/ yields f r.

Lemma yields_jump_to pos f :
  frame_ok f -> 0 <= pos -> pc f < zlen (Code (contract f)) -> yields_or_stale f (jump_to pos f).
Proof.
  intros Hf Hp Hpc. pose proof (fr_contract f Hf) as Hct. pose proof (fr_vm f Hf) as Hv.
  destruct (ct_hash _ Hct) as [E|E]; [pose proof (fr_pc f Hf); rewrite E in Hpc; cbn in Hpc; lia|].
  pose proof (ct_code _ Hct) as Hc. unfold jump_to. rewrite E.
  destruct (has_cases (jumpdests (vm f)) (Keccak256 (Code (contract f))) (Code (contract f)) pos)
    as [[-> _]|(d' & b & -> & Hd')]; [done|destruct Hc; unfold max_len in *; lia|by left|right].
  assert (moves (vm f) (set_jumpdests d' (vm f))) as Hm.
  { apply moves_jumpdests; [done|]. destruct Hd' as [->|(m & Em & ->)]; [by apply ok_dests|].
    intros h m' [[<- <-]|[_ Hl]]%lookup_insert_Some; [by eauto|]. by apply (ok_dests _ Hv). }
  destruct b.
  - apply yields_done; [|done..]. apply frame_pc; [by apply frame_vm|apply Uint64_range].
  - do 3 eexists. split; [done|]. split; [by apply frame_vm|]. split; [done|]. split; [apply bytes_nil|done].
Qed.

Lemma yields_Jump f : ready JUMP f -> yields_or_stale f (opJump f).
Proof.
  intros Hrd. destruct (rd_code _ _ Hrd) as [?|Hpc]; [done|]. unpack Hrd f. unfold opJump. rewrite Estk.
  by apply (yields_jump_to z (set_stack st f)); [apply frame_stack|..].
Qed.

Lemma yields_Jumpi f : ready JUMPI f -> yields_or_stale f (opJumpi f).
Proof.
  intros Hrd. destruct (rd_code _ _ Hrd) as [?|Hpc]; [done|]. unpack Hrd f. unfold opJumpi. rewrite Estk.
  destruct (negb (z0 =? 0)).
  - by apply (yields_jump_to z (set_stack st f)); [apply frame_stack|..].
  - right. apply yields_done; [|by apply moves_refl|done]. apply frame_pc; [by apply frame_stack|apply u64_range].
Qed.

(** ** All of them *)

Definition calls (op : OpCode) : bool :=
  match op with CREATE | CALL | CALLCODE | DELEGATECALL | STATICCALL => true | _ => false end.

Lemma size_nonneg a s : 0 <= (StateDB.GetCodeSize a s).2.
Proof. unfold StateDB.GetCodeSize. destruct (StateDB.getStateObject a s) as [s1 [o|]]; simpl; lia. Qed.

Lemma balance_nonneg a s : sound s -> 0 <= (StateDB.GetBalance a s).2.
Proof. intros [_ Hs]. rewrite balance_of. by apply sane_at. Qed.

(** The block has a price that is not negative. *)
Context (Hprice : 0 <= GasPrice env).

Ltac pure :=
  first [apply yields_binary|apply yields_unary|apply yields_ternary]; [|done|done];
  first [apply Word.keeps_all|
    apply (proj1 (Forall_forall _ _) (proj2 (proj2 Word.keeps_all)));
    repeat first [apply list_elem_of_here|apply list_elem_of_further]].

Lemma execute_plain lp op f : calls op = false -> ready op f -> yields_or_stale f (execute env precompiles lp op f).
Proof.
  intros Hc Hrd. pose proof (rd_frame _ _ Hrd) as Hf. pose proof (rd_enough _ _ Hrd) as He. unfold enough in He.
  pose proof (fr_contract f Hf) as Hct.
  destruct op; try done; cbn [execute]; cbn [stack_effect fst] in He; try solve [by apply yields_Jump|by apply yields_Jumpi];
    right;
    try solve [pure]; try solve [apply yields_nullary; [done|first [apply N2Z.is_nonneg|apply Word.U256_nonneg|unfold Len; lia|apply Hct|apply Hf|done]]].
  - apply yields_done; [done|apply moves_refl, Hf|done].
  - by apply yields_SignExtend.
  - by apply yields_Sha3.
  - apply yields_lookup; [auto with evm|intros; by apply balance_nonneg|done|done].
  - by apply yields_CallDataLoad.
  - by apply yields_CallDataCopy.
  - by apply yields_CodeCopy.
  - apply yields_lookup; [auto with evm|intros; apply size_nonneg|done|done].
  - by apply yields_ExtCodeCopy.
  - by apply yields_ReturnDataCopy.
  - apply yields_unary; [|done|done]. intros x Hx. case_match; [apply N2Z.is_nonneg|lia].
  - unfold opPop. pose proof (fr_stack f Hf) as Hst. destruct (stack f) as [|x st]; [cbn in He; lia|].
    apply Forall_cons in Hst as [? ?]. by apply yields_stack.
  - by apply yields_Mload.
  - by apply yields_Mstore.
  - by apply yields_Mstore8.
  - by apply yields_Sload.
  - by apply yields_Sstore.
  - apply yields_done; [done|apply moves_refl, Hf|done].
  - by apply yields_Push.
  - by apply yields_Dup.
  - by apply yields_Swap.
  - by apply yields_Log.
  - by eapply yields_Return; [|left].
  - by eapply yields_Return; [|right].
  - by apply yields_Suicide.
Qed.

End Steps.
End EvmSteps.
