(* ===== verification/EvmTotal.v ===== *)
(** * Runs of the virtual machine: termination, gas, and what a failed or static call leaves

    The calls of evm.go are proved against what the interpreter does with less
    fuel; the loop ties the knot.  Every instruction that does not end the run
    takes gas, and an inner call gets less gas than the frame had, so a run needs
    no more fuel than it has gas.  Every statement has the case of [StaleBitmap]. *)

From S2P Require Import Prelude Common Rlp Crypto RlpDecode Deposit StateDB Snapshot StateRoot StateRun EvmWord EvmMachine EvmAnalysis EvmState Evm EvmFrame EvmSteps.

Module EvmTotal.
Import Snapshot StateRun Machine EvmAnalysis EvmState Evm EvmFrame EvmSteps.
Section Total.
Context `{Crypto} `{TrieLaws} {GL : GasLimit} (env : Env) (precompiles : Address -> option PrecompiledContract).

Local Abbreviation moves := (moves env precompiles).
Local Abbreviation read_only := (read_only env precompiles).

(** What the proofs assume: the interface of the precompiled contracts and a gas price
    that is not negative. *)
Record assumptions : Prop := {
  as_natives a p : precompiles a = Some p -> native_ok env p;
  as_price : 0 <= GasPrice env
}.
Context (Has : assumptions).

(** ** Outcomes *)

(** A result with a property, or the panic of a jump. *)
Definition or_stale {A} (P : A -> Prop) (x : res crash A) : Prop :=
  x = Err StaleBitmap \/ exists a, x = Ok a /\ P a.

Lemma or_stale_ok {A} (P : A -> Prop) a : P a -> or_stale P (Ok a).
Proof. right. by exists a. Qed.

Lemma or_stale_mono {A} (P Q : A -> Prop) x : (forall a, P a -> Q a) -> or_stale P x -> or_stale Q x.
Proof. intros HPQ [->|(a & -> & Ha)]; [by left|]. by apply or_stale_ok, HPQ. Qed.

Lemma or_stale_bind {A B} (P : A -> Prop) (Q : B -> Prop) x f :
  or_stale P x -> (forall a, P a -> or_stale Q (f a)) -> or_stale Q (match x with Ok a => f a | Err e => Err e end).
Proof. intros [->|(a & -> & Ha)] Hf; [by left|by apply Hf]. Qed.

Definition outcome_ok (e : evm) (gas : Z) (r : outcome) : Prop :=
  let '(e', ret, gas', _) := r in moves e e' /\ Forall byte ret /\ 0 <= gas' <= gas.

(** The interpreter returns what fits in its memory. *)
Definition fits (r : outcome) : Prop := bytes r.1.1.2.

Definition lp_ok (n : Z) (lp : frame -> res crash outcome) : Prop :=
  forall f, frame_ok f -> Gas (contract f) < n ->
    or_stale (fun r => outcome_ok (vm f) (Gas (contract f)) r /\ fits r) (lp f).

(** The calls also undo what they did when they return an error. *)
Definition undone (e : evm) (r : outcome) : Prop :=
  let '(e', _, _, err) := r in err <> None -> same (view_of (db e')) (view_of (db e)).
(** An error takes all gas, unless the call did not start or the code reverted. *)
Definition spent (r : outcome) : Prop :=
  let '(_, _, gas, err) := r in
  match err with
  | None | Some ErrDepth | Some ErrInsufficientBalance | Some errExecutionReverted => True
  | Some _ => gas = 0
  end.
Definition call_spec (e : evm) (gas : Z) (x : res crash outcome) : Prop :=
  or_stale (fun r => outcome_ok e gas r /\ undone e r /\ spent r) x.

Context (n : Z) (lp : frame -> res crash outcome) (Hlp : lp_ok n lp).

Lemma RunPrecompiled_ok a p input c e :
  precompiles a = Some p -> evm_ok e -> contract_ok c -> bytes input ->
  exists r, RunPrecompiledContract env p input c e = Ok r /\ outcome_ok e (Gas c) r /\ (input = [] -> fits r).
Proof.
  intros Hp He Hc Hi. destruct (as_natives Has a p Hp) as [Hg Hr Hem]. pose proof (ct_gas _ Hc) as Hgas.
  unfold RunPrecompiledContract, UseGas. destruct (Z.ltb_spec (Gas c) (RequiredGas p input)).
  - eexists. split; [done|]. split; [split; [by apply moves_refl|]; split; [constructor|lia]|]. intros _. apply bytes_nil.
  - destruct (Hr input (set_gas (Gas c - RequiredGas p input) c) (db e)) as (s & ret & err & E & Hx & Hb);
      [apply He|done|lia|apply Hc|].
    rewrite E. eexists. split; [done|]. split; [|intros ->; by eapply Hem].
    split; [|split; [done|cbn; specialize (Hg input); lia]]. apply moves_db; [done..|]. intros (Hns & _). by eapply (Hns a); [..|exact E]; [|apply He].
Qed.

Lemma vm_run_ok c input e :
  evm_ok e -> contract_ok c -> bytes input -> Gas c < n ->
  or_stale (fun r => outcome_ok e (Gas c) r /\ (input = [] -> fits r)) (run env precompiles lp c input e).
Proof.
  intros He Hc Hi Hn. unfold run. destruct (CodeAddr c ≫= precompiles) as [p|] eqn:Ep.
  { apply bind_Some in Ep as (a & _ & Ep). destruct (RunPrecompiled_ok a p input c e) as (r & -> & ?); [done..|].
    by apply or_stale_ok. }
  unfold Run. set (e1 := set_returnData [] (set_depth (depth e + 1) e)).
  assert (evm_ok e1) as He1 by (destruct He; by split).
  apply (or_stale_bind (fun r => outcome_ok e1 (Gas c) r /\ fits r)).
  { pose proof (ct_gas _ Hc). destruct (Code c) as [|b code] eqn:Ec.
    - apply or_stale_ok. split; [|apply bytes_nil]. split; [by apply moves_refl|]. split; [constructor|lia].
    - apply (Hlp (mkFrame 0 [] NewMemory (set_input input c) e1)); [|done].
      split; cbn; [done|constructor|apply NewMemory_ok| |lia]. destruct Hc. split; cbn; try done. }
  intros [[[e2 ret] gas] err] [(Hm & Hb & Hg) Hft]. apply or_stale_ok. split; [|done].
  split; [|done]. destruct Hm as [[] Hx Hd Hr Hs]. split; [by split|done|cbn; rewrite Hd; cbn; lia|done|done].
Qed.

(** ** The end of a call *)

Definition snapped (e : evm) : evm := set_db (StateDB.Snapshot (db e)).1 e.

Lemma snapped_moves e : evm_ok e -> moves e (snapped e).
Proof. intros He. apply moves_db; [done|apply snapshot_ext, He|]. intros _. apply same_static. done. Qed.

(** The machine that [r] left goes back to the database of [e]. *)
Lemma revert_moves e er :
  evm_ok e -> moves (snapped e) er ->
  exists s, StateDB.RevertToSnapshot (StateDB.nextRevisionId (db e)) (db er) = Some s /\
    moves e (set_db s er) /\ same (view_of s) (view_of (db e)).
Proof.
  intros He [[Ho Hdt Hde] Hx Hd Hr Hs]. destruct (revert_back (db e) (db er)) as (s & E & Hxs & Hv); [apply He|done|].
  exists s. split; [done|]. split; [|done]. split; cbn; try done; [|intros _; by apply same_static].
  split; try done. apply Hxs.
Qed.

Lemma settle_ok e er ret gas' gas err :
  evm_ok e -> moves (snapped e) er -> Forall byte ret -> 0 <= gas' <= gas ->
  call_spec e gas (settle (StateDB.nextRevisionId (db e)) (er, ret, gas', err)).
Proof.
  intros He Hm Hb Hg. unfold settle, call_spec. destruct err as [x|].
  - destruct (revert_moves e er He Hm) as (s & -> & Hms & Hv). apply or_stale_ok.
    split; [split; [done|]; split; [done|]; case_decide; lia|]. split; [by intros _|].
    cbn. case_decide; [by subst|by destruct x].
  - apply or_stale_ok. split; [|done]. split; [|done]. eapply moves_trans; [by apply snapped_moves|done].
Qed.

Lemma ask_Snapshot e : ask StateDB.Snapshot e = (snapped e, StateDB.nextRevisionId (db e)).
Proof. done. Qed.

(** A call that does not start. *)
Lemma stopped e gas err :
  evm_ok e -> 0 <= gas -> err = None \/ err = Some ErrDepth \/ err = Some ErrInsufficientBalance ->
  call_spec e gas (Ok (e, [], gas, err)).
Proof.
  intros He Hg Herr. apply or_stale_ok. split; [split; [by apply moves_refl|]; split; [constructor|lia]|].
  split; [done|]. by destruct Herr as [-> |[-> | ->]].
Qed.

(** A call that continues from a machine with the same view. *)
Lemma call_spec_after e e' gas x :
  moves e e' -> same (view_of (db e')) (view_of (db e)) -> call_spec e' gas x -> call_spec e gas x.
Proof.
  intros Hm Hv. apply or_stale_mono. intros [[[er ret] g] err] ((Hmr & ? & ?) & Hu & Hsp). split; [split; [by eapply moves_trans|done]|]. split; [|done].
  intros Herr. by rewrite (Hu Herr).
Qed.

(** ** The contract of a call *)

Lemma NewContract_ok caller object v gas e :
  evm_ok e -> 0 <= v -> 0 <= gas <= gas_limit ->
  exists e' c, NewContract caller object v gas e = (e', c) /\ moves e e' /\ contract_ok c /\ Gas c = gas /\ db e' = db e /\
    value c = v.
Proof.
  intros He Hv Hg. unfold NewContract. do 2 eexists. split; [done|]. split; [|split; [|by destruct caller]].
  - destruct caller; [|by apply moves_refl]. apply moves_jumpdests; [done|]. intros h m. by rewrite lookup_empty.
  - split; cbn; try done; try apply bytes_nil. by left.
Qed.

Lemma load_code_ok addr c e :
  evm_ok e -> contract_ok c ->
  exists e' c', load_code addr c e = (e', c') /\ moves e e' /\ contract_ok c' /\ Gas c' = Gas c.
Proof.
  intros He Hc. unfold load_code. destruct (ask (StateDB.GetCodeHash addr) e) as [e1 h] eqn:E1.
  apply (moves_ask env precompiles) in E1 as (M1 & -> & V1 & D1 & _); [|apply reader_GetCodeHash|done].
  destruct (ask (StateDB.GetCode addr) e1) as [e2 code] eqn:E2.
  apply (moves_ask env precompiles) in E2 as (M2 & -> & V2 & D2 & _); [|apply reader_GetCode|apply M1].
  do 2 eexists. split; [done|]. split; [by eapply moves_trans|]. split; [|done].
  pose proof (reads_eq addr 0%N (db e)) as R0. pose proof (reads_eq addr 0%N (db e1)) as R1.
  rewrite (readers_same addr 0%N _ _ V1), <- R0 in R1. unfold reads in R1. injection R1 as _ _ _ _ Hcode _ _ _.
  rewrite Hcode. destruct Hc. split; cbn; try done; [apply code_bytes, He|].
  unfold reads, reads_view in R0. destruct (v_acc (view_of (db e)) addr) as [x|] eqn:Ex;
    injection R0 as _ _ _ _ -> -> _ _; [|by left].
  right. pose proof (ok_db e He) as [_ Hs]. destruct (Hs addr x Ex) as (_ & _ & Hh). done.
Qed.

(** The part that the four calls share: code, run, and the end. *)
Lemma finish_ok e e1 c addr input :
  evm_ok e -> moves (snapped e) e1 -> contract_ok c -> bytes input -> Gas c < n ->
  call_spec e (Gas c)
    (let '(e1, c) := load_code addr c e1 in
     let? r := run env precompiles lp c input e1 in settle (StateDB.nextRevisionId (db e)) r).
Proof.
  intros He Hm Hc Hi Hn. destruct (load_code_ok addr c e1 (mv_ok _ _ _ _ Hm) Hc) as (e2 & c2 & -> & M2 & Hc2 & Eg).
  rewrite <- Eg in *.
  eapply or_stale_bind; [by apply (vm_run_ok c2 input e2 (mv_ok _ _ _ _ M2))|].
  intros [[[er ret] g] err] [(Hmr & Hb & Hg) _]. apply settle_ok; try done. eapply moves_trans; [done|]. by eapply moves_trans.
Qed.

(** ** The four calls *)

Ltac early :=
  match goal with |- context [if ?b then _ else _] => destruct b; [apply stopped; auto|] end.

Lemma Call_ok caller addr input gas v e :
  evm_ok e -> bytes input -> 0 <= gas <= gas_limit -> gas < n -> 0 <= v -> (read_only e -> v = 0) ->
  call_spec e gas (Call env precompiles lp caller addr input gas v e).
Proof.
  intros He Hi Hg Hn Hv Hro. unfold Call. assert (0 <= gas) by lia. do 2 early.
  destruct (ask (CanTransfer _ v) e) as [e1 can] eqn:E1.
  apply (moves_ask env precompiles) in E1 as (M1 & -> & V1 & _); [|apply reader_CanTransfer|done].
  apply (call_spec_after e e1); [done..|]. pose proof (mv_ok _ _ _ _ M1) as He1.
  rewrite CanTransfer_balance. set (from := ref_Address caller).
  destruct (Z.leb_spec v (balance (db e) from)) as [Hbal|]; cbn [negb]; [|apply stopped; auto].
  rewrite <- (balance_same _ _ from V1) in Hbal.
  assert (read_only e1 -> v = 0) as Hro1.
  { intros (? & ? & Hr). apply Hro. split; [done|]. split; [done|]. by rewrite <- (mv_readOnly _ _ _ _ M1). }
  rewrite ask_Snapshot. destruct (ask (StateDB.Exist addr) (snapped e1)) as [e2 there] eqn:E2.
  pose proof (snapped_moves e1 He1) as M1'.
  apply (moves_ask env precompiles) in E2 as (M2 & Ex & V2 & _); [|apply reader_Exist|apply M1'].
  rewrite exist_of in Ex. pose proof (mv_ok _ _ _ _ M2) as He2.
  match goal with |- context [if ?b then Ok _ else _] => destruct b end.
  { apply or_stale_ok. split; [|done]. split; [by eapply moves_trans|]. split; [constructor|lia]. }
  set (e3 := if there then e2 else tell (StateDB.CreateAccount addr) e2).
  assert (moves e2 e3 /\ balance (db e3) from = balance (db e1) from) as [M3 B3].
  { unfold e3. destruct there; [split; [by apply moves_refl|by apply balance_same]|].
    pose proof (sound_inv _ (ok_db _ He2)) as Hi2. split.
    - apply moves_tell; [done|apply ext_CreateAccount, He2|]. intros _. apply static_CreateAccount; [done|].
      destruct V2 as (A & _). rewrite A. by destruct (v_acc (view_of (db (snapped e1))) addr).
    - cbn. rewrite balance_CreateAccount by done. by apply balance_same. }
  pose proof (mv_ok _ _ _ _ M3) as He3.
  assert (moves e3 (tell (Transfer from addr v) e3)) as M4.
  { apply moves_tell; [done|apply ext_Transfer; [apply He3|lia]|]. intros Hr. rewrite Hro1.
    - apply static_Transfer, sound_inv, He3.
    - destruct Hr as (? & ? & Hr). split; [done|]. split; [done|].
      by rewrite <- (mv_readOnly _ _ _ _ M1'), <- (mv_readOnly _ _ _ _ M2), <- (mv_readOnly _ _ _ _ M3). }
  destruct (NewContract_ok caller addr v gas (tell (Transfer from addr v) e3)) as (e5 & c & -> & M5 & Hc & <- & _ & _);
    [apply M4|lia|done|].
  apply finish_ok; try done. eapply moves_trans; [done|]. eapply moves_trans; [done|]. by eapply moves_trans.
Qed.

Lemma CallCode_ok caller addr input gas v e :
  evm_ok e -> bytes input -> 0 <= gas <= gas_limit -> gas < n -> 0 <= v ->
  call_spec e gas (CallCode env precompiles lp caller addr input gas v e).
Proof.
  intros He Hi Hg Hn Hv. unfold CallCode. assert (0 <= gas) by lia. do 2 early.
  destruct (ask (CanTransfer _ v) e) as [e1 can] eqn:E1.
  apply (moves_ask env precompiles) in E1 as (M1 & -> & V1 & _); [|apply reader_CanTransfer|done].
  apply (call_spec_after e e1); [done..|]. pose proof (mv_ok _ _ _ _ M1) as He1.
  early. rewrite ask_Snapshot.
  destruct (NewContract_ok caller (ref_Address caller) v gas (snapped e1)) as (e5 & c & -> & M5 & Hc & <- & _ & _);
    [by apply snapped_moves|lia|done|].
  by apply finish_ok.
Qed.

Lemma DelegateCall_ok parent addr input gas e :
  evm_ok e -> bytes input -> 0 <= gas <= gas_limit -> gas < n -> 0 <= value parent ->
  call_spec e gas (DelegateCall env precompiles lp (ContractOf parent) addr input gas e).
Proof.
  intros He Hi Hg Hn Hv. unfold DelegateCall. assert (0 <= gas) by lia. do 2 early.
  rewrite ask_Snapshot. pose proof (snapped_moves e He) as M1.
  destruct (NewContract_ok (ContractOf parent) (self parent) 0 gas (snapped e)) as (e5 & c & E & M5 & Hc & <- & _ & _);
    [by apply M1|lia|done|].
  cbn [ref_Address]. rewrite E. cbn [AsDelegate].
  apply (finish_ok e e5 (mkContract (CallerAddress parent) (self c) (Code c) (CodeHash c) (CodeAddr c) (Input c) (Gas c)
            (value parent))); try done.
  destruct Hc. by split.
Qed.

Lemma StaticCall_ok caller addr input gas e :
  evm_ok e -> bytes input -> 0 <= gas <= gas_limit -> gas < n ->
  or_stale (fun r => (outcome_ok e gas r /\ undone e r /\ spent r) /\
      (natives_static env precompiles -> IsByzantium env = true -> static (view_of (db e)) (view_of (db r.1.1.1))))
    (StaticCall env precompiles lp caller addr input gas e).
Proof.
  intros He Hi Hg Hn. unfold StaticCall. assert (0 <= gas) by lia.
  assert (forall err, err = None \/ err = Some ErrDepth -> or_stale (fun r => (outcome_ok e gas r /\ undone e r /\ spent r) /\
    (natives_static env precompiles -> IsByzantium env = true -> static (view_of (db e)) (view_of (db r.1.1.1))))
    (Ok (e, [], gas, err))) as Hstop.
  { intros err Herr. apply or_stale_ok. split; [|done]. destruct (stopped e gas err He) as [|(r & [= <-] & Hr)];
      [done|tauto|done..]. }
  destruct (no_recursion env e); [by apply Hstop; left|]. destruct (too_deep e); [by apply Hstop; right|].
  set (e0 := set_readOnly true e). assert (evm_ok e0) as He0 by (destruct He; by split).
  rewrite ask_Snapshot.
  destruct (NewContract_ok caller addr 0 gas (snapped e0)) as (e5 & c & -> & M5 & Hc & <- & _ & _);
    [by apply snapped_moves|lia|done|].
  pose proof (finish_ok e0 e5 c addr input He0 M5 Hc Hi Hn) as Hfin.
  change (StateDB.nextRevisionId (db e)) with (StateDB.nextRevisionId (db e0)).
  destruct (load_code addr c e5) as [e6 c6].
  destruct (run env precompiles lp c6 input e6) as [ro|]; [|destruct Hfin as [[= ->]|(r & ? & _)]; [by left|done]].
  eapply or_stale_bind; [exact Hfin|]. intros [[[er ret] g] err] (([[] Hx Hd Hr Hs] & Hb & Hgg) & Hu & Hsp).
  apply or_stale_ok. split; [split; [split; [|done]|done]|].
  - split; cbn; try done. intros (Hns & Hbz & Hrd). by apply Hs.
  - intros Hns Hbz. by apply Hs.
Qed.

(** ** Creation *)

Lemma not_read_only_moves e e' : ~ read_only e -> moves e e' -> ~ read_only e'.
Proof. intros Hn Hm (? & ? & Hr). apply Hn. split; [done|]. split; [done|]. by rewrite <- (mv_readOnly _ _ _ _ Hm). Qed.

Lemma moves_write f e : evm_ok e -> ~ read_only e -> ext (db e) (f (db e)) -> moves e (tell f e).
Proof. intros He Hn Hx. by apply moves_tell. Qed.

(** What an error of [Create] undoes. *)
Definition undone_if (b : bool) (e : evm) (r : outcome) : Prop :=
  let '(e', _, _, err) := r in err <> None -> b = true -> same (view_of (db e')) (view_of (db e)).

Lemma deploy_ok addr e er ret gas' gas err :
  evm_ok e -> ~ read_only e -> moves (snapped e) er -> bytes ret -> 0 <= gas' <= gas ->
  exists r, deploy env addr (StateDB.nextRevisionId (db e)) (er, ret, gas', err) = Ok (r, addr) /\ outcome_ok e gas r /\
    undone_if (IsHomestead env) e r.
Proof.
  intros He Hro Hm Hb Hg. unfold deploy.
  pose proof (not_read_only_moves _ _ (not_read_only_moves _ _ Hro (snapped_moves e He)) Hm) as Hror.
  set (big := IsEIP158 env && _).
  match goal with |- context [let '(_, _) := ?x in _] => set (stored := x) end.
  assert (exists e2 g2 err2, stored = (e2, g2, err2) /\ moves (snapped e) e2 /\ 0 <= g2 <= gas) as (e2 & g2 & err2 & -> & M2 & Hg2).
  { unfold stored. case_match; [|by do 3 eexists].
    pose proof (u64_range (zlen ret * CreateDataGas)) as Hr. unfold in_u64 in Hr.
    destruct (Z.ltb_spec gas' (u64 (zlen ret * CreateDataGas))); [by do 3 eexists|].
    do 3 eexists. split; [done|]. split; [|lia]. eapply moves_trans; [done|].
    apply moves_write; [apply Hm|done|]. apply ext_SetCode; [apply Hm|done]. }
  destruct (big || _) eqn:Hc.
  - destruct (revert_moves e e2 He M2) as (s & -> & Hms & Hv). eexists. split; [done|]. split; [|by intros _ _].
    split; [done|]. split; [apply Hb|]. destruct (decide (err2 = Some errExecutionReverted)); lia.
  - eexists. split; [done|]. split; [split; [eapply moves_trans; [by apply snapped_moves|done]|split; [apply Hb|done]]|].
    intros Herr Hh. apply orb_false_iff in Hc as [_ Hc]. rewrite Hh in Hc.
    rewrite bool_decide_true in Hc by done. done.
Qed.

(** The machine that the code of a new contract starts on. *)
Definition created (from a : Address) (v : Z) (e : evm) : evm :=
  let e := tell (StateDB.CreateAccount a) (snapped e) in
  let e := if IsEIP158 env then tell (StateDB.SetNonce a 1) e else e in
  tell (Transfer from a v) e.

Lemma created_moves from a v e :
  evm_ok e -> ~ read_only e -> 0 <= v <= balance (db e) from -> moves (snapped e) (created from a v e).
Proof.
  intros He Hro Hv. pose proof (snapped_moves e He) as M1. pose proof (not_read_only_moves _ _ Hro M1) as Hro1.
  pose proof (mv_ok _ _ _ _ M1) as He1. unfold created. set (e2 := tell (StateDB.CreateAccount a) (snapped e)).
  assert (moves (snapped e) e2) as M2 by (apply moves_write; [done..|apply ext_CreateAccount, He1]).
  pose proof (not_read_only_moves _ _ Hro1 M2) as Hro2. pose proof (mv_ok _ _ _ _ M2) as He2.
  assert (balance (db e2) from = balance (db e) from) as B2.
  { unfold e2. cbn [tell set_db db]. by rewrite balance_CreateAccount by apply sound_inv, He1. }
  set (e3 := if IsEIP158 env then _ else e2).
  assert (moves e2 e3 /\ balance (db e3) from = balance (db e2) from) as [M3 B3].
  { unfold e3. destruct (IsEIP158 env); [|split; [by apply moves_refl|done]].
    split; [apply moves_write; [done..|apply ext_SetNonce, He2]|]. cbn.
    by rewrite balance_SetNonce by apply sound_inv, He2. }
  pose proof (mv_ok _ _ _ _ M3) as He3. eapply moves_trans; [done|]. eapply moves_trans; [done|].
  apply moves_write; [done|by apply (not_read_only_moves _ _ Hro2)|]. apply ext_Transfer; [apply He3|lia].
Qed.

(** The part of [Create] after the checks. *)
Lemma create_body_ok caller a code gas v e :
  evm_ok e -> ~ read_only e -> bytes code -> 0 <= gas <= gas_limit -> gas < n ->
  0 <= v <= balance (db e) (ref_Address caller) ->
  or_stale (fun r => outcome_ok e gas r.1 /\ undone_if (IsHomestead env) e r.1)
    (let '(e1, c) := NewContract caller a v gas (created (ref_Address caller) a v e) in
     let c := SetCallCode (Some a) (Keccak256 code) code c in
     if no_recursion env e1 then Ok (e1, [], gas, None, a)
     else let? r := run env precompiles lp c [] e1 in deploy env a (StateDB.nextRevisionId (db e)) r).
Proof.
  intros He Hro Hcode Hg Hn Hv. pose proof (created_moves _ a _ e He Hro Hv) as M1.
  destruct (NewContract_ok caller a v gas (created (ref_Address caller) a v e)) as (e1 & c & -> & M2 & Hc & <- & _ & _);
    [apply M1|lia|done|].
  pose proof (moves_trans _ _ _ _ _ M1 M2) as M12. cbv zeta. destruct (no_recursion env e1).
  { apply or_stale_ok. split; [|done]. split; [|split; [constructor|lia]].
    eapply moves_trans; [by apply snapped_moves|done]. }
  set (c' := SetCallCode (Some a) (Keccak256 code) code c).
  assert (contract_ok c') as Hc' by (destruct Hc; split; cbn; auto).
  eapply or_stale_bind; [apply (vm_run_ok c' [] e1); [apply M12|done|apply bytes_nil|done]|].
  intros [[[er ret] g] err] [(Hm & _ & Hgg) Hb]. specialize (Hb eq_refl).
  destruct (deploy_ok a e er ret g (Gas c) err) as (r & -> & Ho & Hu); [done|done|by eapply moves_trans|done|done|].
  by apply or_stale_ok.
Qed.

(** Everything but the nonce of the creator is as it was. *)
Definition only_nonce (a : Address) (V W : view) : Prop :=
  same W V \/ exists m, same W (upd_acc a (Some (with_nonce m (acct_at V a))) V).

Definition create_undone (a : Address) (e : evm) (r : outcome) : Prop :=
  let '(e', _, _, err) := r in
  err <> None -> IsHomestead env = true -> only_nonce a (view_of (db e)) (view_of (db e')).

Lemma Create_ok caller code gas v e :
  evm_ok e -> bytes code -> 0 <= gas <= gas_limit -> gas < n -> 0 <= v -> ~ read_only e ->
  or_stale (fun r => outcome_ok e gas r.1 /\ create_undone (ref_Address caller) e r.1)
    (Create env precompiles lp caller code gas v e).
Proof.
  intros He Hcode Hg Hn Hv Hro. unfold Create. set (from := ref_Address caller).
  destruct (too_deep e).
  { apply or_stale_ok. split; [split; [by apply moves_refl|split; [constructor|lia]]|]. by left. }
  destruct (ask (CanTransfer from v) e) as [e1 can] eqn:E1.
  apply (moves_ask env precompiles) in E1 as (M1 & -> & V1 & _); [|apply reader_CanTransfer|done].
  rewrite CanTransfer_balance. destruct (Z.leb_spec v (balance (db e) from)) as [Hbal|]; cbn [negb].
  2:{ apply or_stale_ok. split; [split; [done|split; [constructor|lia]]|]. by left. }
  rewrite <- (balance_same _ _ from V1) in Hbal. pose proof (mv_ok _ _ _ _ M1) as He1.
  destruct (ask (StateDB.GetNonce from) e1) as [e2 nonce] eqn:E2.
  apply (moves_ask env precompiles) in E2 as (M2 & _ & V2 & _); [|apply reader_GetNonce|done].
  pose proof (mv_ok _ _ _ _ M2) as He2. pose proof (sound_inv _ (ok_db _ He2)) as Hi2.
  pose proof (moves_trans _ _ _ _ _ M1 M2) as M02. pose proof (not_read_only_moves _ _ Hro M02) as Hro2.
  set (e3 := tell (StateDB.SetNonce from (u64 (nonce + 1))) e2). set (a := CreateAddress from nonce).
  assert (moves e2 e3) as M3 by (apply moves_write; [done..|apply ext_SetNonce, He2]).
  assert (only_nonce from (view_of (db e)) (view_of (db e3))) as Hnonce.
  { right. exists (Z.lor (u64 (nonce + 1)) StateDB.NonceAddOne). unfold e3. cbn [tell set_db db].
    rewrite view_SetNonce by done. assert (same (view_of (db e2)) (view_of (db e))) as V02 by (by rewrite V2).
    unfold acct_at. rewrite (proj1 V02 from). by rewrite V02. }
  assert (balance (db e3) from = balance (db e1) from) as B3.
  { unfold e3. cbn. rewrite balance_SetNonce by done. by apply balance_same. }
  destruct (ask (StateDB.GetCodeHash a) e3) as [e4 h] eqn:E4.
  apply (moves_ask env precompiles) in E4 as (M4 & _ & V4 & _); [|apply reader_GetCodeHash|apply M3].
  destruct (ask (StateDB.GetNonce a) e4) as [e5 nonce'] eqn:E5.
  apply (moves_ask env precompiles) in E5 as (M5 & _ & V5 & _); [|apply reader_GetNonce|apply M4].
  assert (same (view_of (db e5)) (view_of (db e3))) as V35 by (by rewrite V5).
  pose proof (moves_trans _ _ _ _ _ M02 (moves_trans _ _ _ _ _ M3 (moves_trans _ _ _ _ _ M4 M5))) as M05.
  pose proof (mv_ok _ _ _ _ M05) as He5. pose proof (not_read_only_moves _ _ Hro M05) as Hro5.
  assert (forall W, same W (view_of (db e5)) -> only_nonce from (view_of (db e)) W) as Hback.
  { intros W HW. destruct Hnonce as [Hs|(m & Hs)]; [left|right; exists m]; by rewrite HW, V35. }
  match goal with |- context [if ?b then Ok _ else _] => destruct b end.
  { apply or_stale_ok. split; [split; [done|split; [constructor|lia]]|]. intros _ _. by apply Hback. }
  rewrite ask_Snapshot. eapply or_stale_mono; [|apply (create_body_ok caller a code gas v e5); try done].
  2:{ change (ref_Address caller) with from. rewrite (balance_same _ _ _ V35), B3. lia. }
  intros [[[[er ret] g] err] addr] [(Hm & Hrest) Hu]. split; [split; [by eapply moves_trans|done]|]. intros Herr Hh. by apply Hback, Hu.
Qed.

(** ** The instructions that call *)

(** The instruction returns a well-formed frame with less than [n] gas. *)
Definition goes (f : frame) : result -> Prop := or_stale (fun '(f', ret, _) =>
  frame_ok f' /\ moves (vm f) (vm f') /\ Forall byte ret /\ Gas (contract f') < n).

Lemma frame_gas g f : frame_ok f -> 0 <= g <= gas_limit -> frame_ok (set_contract (set_gas g (contract f)) f).
Proof. intros [? ? ? [] ?] Hg. by split. Qed.

Lemma finish_call_ok f e ret g err gas retOffset retSize st :
  frame_ok f -> n <= gas_limit -> moves (vm f) e -> Forall byte ret -> 0 <= g <= gas -> Gas (contract f) + gas < n ->
  covers (mem f) retOffset retSize -> Forall (fun x => 0 <= x) st ->
  goes f (finish_call (e, ret, g, err) retOffset retSize st f).
Proof.
  intros Hf Hn Hm Hb Hg Hgas Hc Hst. unfold finish_call. pose proof (ct_gas _ (fr_contract f Hf)) as Hgf.
  assert (exists m, (if bool_decide (err = None) || bool_decide (err = Some errExecutionReverted)
    then Set_ (mem f) (Uint64 retOffset) (Uint64 retSize) ret else Ok (mem f)) = Ok m /\ mem_ok m) as (m & -> & Hmem).
  { case_match; [|by eexists; split; [|apply Hf]].
    destruct (Set_ok (mem f) retOffset retSize ret) as (m & ? & ? & _); [apply Hf|done|done|by exists m]. }
  pose proof gas_limit_max as Hmax. unfold max_gas in Hmax. rewrite u64_small by (unfold in_u64; lia). apply or_stale_ok.
  split; [|split; [done|split; [done|cbn; lia]]]. apply (frame_vm env precompiles); [|done].
  set (f' := set_mem m (set_stack ((if bool_decide (err = None) then 1 else 0) :: st) f)).
  change (contract f) with (contract f'). apply frame_gas; [|cbn; lia].
  apply frame_mem; [|done]. apply frame_stack; [done|]. constructor; [case_match; lia|done].
Qed.

(** The gas of the frame and of the call together are less than what the frame
    had before the instruction. *)
Definition funded (op : OpCode) (f : frame) : Prop :=
  n <= gas_limit /\ Gas (contract f) < n /\
  match op, stack f with
  | (CALL | CALLCODE), _ :: _ :: v :: _ =>
      0 <= callGasTemp (vm f) /\ Gas (contract f) + callGasTemp (vm f) + stipend v < n
  | (DELEGATECALL | STATICCALL), _ => 0 <= callGasTemp (vm f) /\ Gas (contract f) + callGasTemp (vm f) < n
  | _, _ => True
  end.

Ltac open_stack Hrd f :=
  pose proof (rd_frame _ _ _ _ Hrd) as Hf; pose proof (rd_enough _ _ _ _ Hrd) as He;
  pose proof (fr_vm f Hf) as Hv; pose proof (fr_contract f Hf) as Hct; pose proof (ct_gas _ Hct) as Hgas;
  pose proof (fr_stack f Hf) as Hst; unfold enough in He; cbn [stack_effect fst] in He;
  destruct (stack f) as [|? st] eqn:Estk; [exfalso; cbn [length] in *; lia|];
  repeat (destruct st as [|? st]; [exfalso; cbn [length] in *; lia|]);
  repeat match goal with H : Forall _ (_ :: _) |- _ => apply Forall_cons in H as [? H] end.

(** The gas of a call, with the stipend. *)
Lemma call_gas_eq f v :
  0 <= callGasTemp (vm f) -> callGasTemp (vm f) + stipend v < n -> n <= gas_limit ->
  (if negb (Word.U256 v =? 0) then u64 (callGasTemp (vm f) + CallStipend) else callGasTemp (vm f))
  = callGasTemp (vm f) + stipend v /\ 0 <= stipend v.
Proof.
  unfold stipend, CallStipend. intros Ht Hlt Hn. pose proof gas_limit_max as Hmax. unfold max_gas in Hmax. destruct (Word.U256 v =? 0); cbn [negb].
  - lia.
  - rewrite u64_small by (unfold in_u64; lia). lia.
Qed.

Lemma goes_Call f : ready env precompiles CALL f -> funded CALL f -> goes f (opCall env precompiles lp f).
Proof.
  intros Hrd (Hn & Hg & Hfd). pose proof (rd_allowed _ _ _ _ Hrd) as Ha. open_stack Hrd f. unfold opCall. rewrite Estk.
  destruct (ready_regions env precompiles CALL f 5 6 3 4 z4 z5 z2 z3 Hrd) as [Hout Hin]; [done|by rewrite Estk..|].
  destruct (Get_ok (mem f) z2 z3) as (args & -> & Hargs); [apply Hf|done|]. destruct Hfd as [Ht Hfd].
  destruct (call_gas_eq f z1) as [Hgas' Hs]; [lia..|]. rewrite Hgas'.
  eapply or_stale_bind; [apply Call_ok; [done|done|lia|lia|apply Word.U256_nonneg|]|].
  { intros Hr. destruct (Ha Hr) as [_ Hz]. rewrite (Hz eq_refl z1); [done|by rewrite Estk]. }
  intros [[[e ret] g] err] [(Hm & Hb & Hgg) _]. apply (finish_call_ok f e ret g err (callGasTemp (vm f) + stipend z1)); try done. lia.
Qed.

Lemma goes_CallCode f : ready env precompiles CALLCODE f -> funded CALLCODE f -> goes f (opCallCode env precompiles lp f).
Proof.
  intros Hrd (Hn & Hg & Hfd). open_stack Hrd f. unfold opCallCode. rewrite Estk.
  destruct (ready_regions env precompiles CALLCODE f 5 6 3 4 z4 z5 z2 z3 Hrd) as [Hout Hin]; [done|by rewrite Estk..|].
  destruct (Get_ok (mem f) z2 z3) as (args & -> & Hargs); [apply Hf|done|]. destruct Hfd as [Ht Hfd].
  destruct (call_gas_eq f z1) as [Hgas' Hs]; [lia..|]. rewrite Hgas'.
  eapply or_stale_bind; [apply CallCode_ok; [done|done|lia|lia|apply Word.U256_nonneg]|].
  intros [[[e ret] g] err] [(Hm & Hb & Hgg) _].
  apply (finish_call_ok f e ret g err (callGasTemp (vm f) + stipend z1)); try done. lia.
Qed.

Lemma goes_DelegateCall f :
  ready env precompiles DELEGATECALL f -> funded DELEGATECALL f -> goes f (opDelegateCall env precompiles lp f).
Proof.
  intros Hrd (Hn & Hg & Hfd). open_stack Hrd f. unfold opDelegateCall. rewrite Estk. destruct Hfd as [Ht Hfd].
  destruct (ready_regions env precompiles DELEGATECALL f 4 5 2 3 z3 z4 z1 z2 Hrd) as [Hout Hin]; [done|by rewrite Estk..|].
  destruct (Get_ok (mem f) z1 z2) as (args & -> & Hargs); [apply Hf|done|].
  eapply or_stale_bind; [apply DelegateCall_ok; [done|done|lia|lia|apply Hct]|].
  intros [[[e ret] g] err] [(Hm & Hb & Hgg) _].
  by apply (finish_call_ok f e ret g err (callGasTemp (vm f))).
Qed.

Lemma goes_StaticCall f :
  ready env precompiles STATICCALL f -> funded STATICCALL f -> goes f (opStaticCall env precompiles lp f).
Proof.
  intros Hrd (Hn & Hg & Hfd). open_stack Hrd f. unfold opStaticCall. rewrite Estk. destruct Hfd as [Ht Hfd].
  destruct (ready_regions env precompiles STATICCALL f 4 5 2 3 z3 z4 z1 z2 Hrd) as [Hout Hin]; [done|by rewrite Estk..|].
  destruct (Get_ok (mem f) z1 z2) as (args & -> & Hargs); [apply Hf|done|].
  eapply or_stale_bind; [apply StaticCall_ok; [done|done|lia|lia]|].
  intros [[[e ret] g] err] [((Hm & Hb & Hgg) & _) _].
  by apply (finish_call_ok f e ret g err (callGasTemp (vm f))).
Qed.

Lemma goes_Create f : ready env precompiles CREATE f -> funded CREATE f -> goes f (opCreate env precompiles lp f).
Proof.
  intros Hrd (Hn & Hg & _). pose proof (not_read_only env precompiles _ _ Hrd eq_refl) as Hro.
  open_stack Hrd f. unfold opCreate. rewrite Estk.
  destruct (Get_ok (mem f) z0 z1) as (input & -> & Hin);
    [apply Hf|apply (ready_region env precompiles CREATE f 1 2); [done|done|by rewrite Estk..]|].
  set (gas := if IsEIP150 env then _ else _).
  assert (0 <= gas <= Gas (contract f)) as Hgas'.
  { unfold gas. destruct (IsEIP150 env); [|lia]. pose proof (Z.div_le_upper_bound (Gas (contract f)) 64 (Gas (contract f))).
    assert (0 <= Gas (contract f) / 64) by (apply Z.div_pos; lia). lia. }
  eapply or_stale_bind; [apply Create_ok; [done|done|lia|lia|done|done]|].
  intros [[[[e ret] g] err] addr] [(Hm & Hb & Hgg) _].
  cbn [Gas set_gas]. pose proof gas_limit_max as Hmax. unfold max_gas in Hmax. rewrite u64_small by (unfold in_u64; lia). apply or_stale_ok.
  split; [|split; [done|split; [case_match; [done|constructor]|cbn; lia]]].
  apply (frame_vm env precompiles); [|done].
  match goal with |- frame_ok (set_contract _ ?x) => set (f' := x) end.
  change (set_gas (Gas (contract f) - gas + g) (set_gas (Gas (contract f) - gas) (contract f)))
    with (set_gas (Gas (contract f) - gas + g) (contract f')).
  apply frame_gas; [|lia]. apply frame_stack; [done|].
  constructor; [repeat case_match; try lia; apply N2Z.is_nonneg|done].
Qed.

(** ** One round of the loop *)

Definition round_ok (f : frame) : res crash round -> Prop := or_stale (fun r =>
  match r with
  | Ends o => outcome_ok (vm f) n o /\ fits o
  | Goes f' => frame_ok f' /\ moves (vm f) (vm f') /\ Gas (contract f') < n
  end).

Lemma ends_ok f f' ret err :
  moves (vm f) (vm f') -> bytes ret -> 0 <= Gas (contract f') <= n -> round_ok f (ends f' ret err).
Proof. intros ? [? ?] ?. apply or_stale_ok. split; [by split|by split]. Qed.

Lemma after_op_ok op f f' ret err :
  frame_ok f' -> moves (vm f) (vm f') -> Forall byte ret -> (ending op = true -> bytes ret) -> Gas (contract f') <= n ->
  (ending op = false -> Gas (contract f') < n) -> round_ok f (after_op op f' ret err).
Proof.
  intros Hf Hm Hb Hbb Hg Hlt. unfold after_op.
  set (f1 := if returns op then _ else f').
  assert (frame_ok f1 /\ moves (vm f) (vm f1) /\ contract f1 = contract f') as (Hf1 & Hm1 & Hc1).
  { unfold f1. destruct (returns op); [|done]. assert (moves (vm f') (set_returnData ret (vm f'))) as Hr
      by (apply moves_returnData; [apply Hf|done]).
    split; [by apply (frame_vm env precompiles)|]. split; [by eapply moves_trans|done]. }
  pose proof (ct_gas _ (fr_contract _ Hf1)) as Hgas. rewrite Hc1 in Hgas.
  destruct err as [x|]; [apply ends_ok; [done|apply bytes_nil|rewrite Hc1; lia]|].
  unfold ending in *. destruct (reverts op); [rewrite orb_true_r in Hbb; apply ends_ok; [done|auto|rewrite Hc1; lia]|].
  destruct (halts op); [apply ends_ok; [done|auto|rewrite Hc1; lia]|].
  destruct (jumps op); apply or_stale_ok; (split; [|split; [done|cbn; rewrite Hc1; by apply Hlt]]); [done|].
  apply frame_pc; [done|apply u64_range].
Qed.

Lemma BitLen_0 v : 0 <= v -> (0 <? Word.BitLen v) = false -> v = 0.
Proof.
  intros Hv. unfold Word.BitLen. destruct (Z.eqb_spec v 0); [done|]. pose proof (Z.log2_nonneg (Z.abs v)).
  intros Hb%Z.ltb_ge. lia.
Qed.

Lemma enforce_ok op f :
  frame_ok f -> enough op f ->
  exists w, enforceRestrictions env op f = Ok w /\ (w = None -> allowed env precompiles op f).
Proof.
  intros Hf He. unfold enforceRestrictions, allowed.
  destruct (IsByzantium env && readOnly (vm f)) eqn:Eb.
  2:{ eexists. split; [done|]. intros _ (_ & Hb & Hr). by rewrite Hb, Hr in Eb. }
  destruct (writes op) eqn:Ew; [by eexists|].
  destruct op; try done; try (eexists; split; [done|]; by intros _ _).
  unfold enough in He. cbn [stack_effect fst] in He. unfold Back.
  destruct (lookup_lt_is_Some_2 (stack f) 2) as [v Hv]; [lia|]. rewrite Hv. eexists. split; [done|].
  intros Hw _. split; [done|]. intros _ v' [= <-]. apply BitLen_0; [by apply (operand f 2)|].
  by destruct (0 <? Word.BitLen v).
Qed.

Lemma required_ok op f : enough op f -> exists x, required_memory op (stack f) = Ok x.
Proof.
  intros He. unfold enough in He. unfold required_memory. assert (forall i, (Z.of_nat i < (stack_effect op).1) ->
    exists x, Back (stack f) i = Ok x) as Hb.
  { intros i Hi. unfold Back. destruct (lookup_lt_is_Some_2 (stack f) i) as [x ->]; [lia|by eexists]. }
  destruct op; cbn [memorySize stack_effect fst] in *; try (by eexists);
    unfold memorySha3, memoryCallDataCopy, memoryReturnDataCopy, memoryCodeCopy, memoryExtCodeCopy, memoryMLoad,
      memoryMStore8, memoryMStore, memoryCreate, memoryCall, memoryDelegateCall, memoryStaticCall, memoryReturn,
      memoryRevert, memoryLog, memory_fixed, memory_regions, memory_region;
    repeat match goal with |- context [Back (stack f) ?i] =>
      let x := fresh "x" in let E := fresh "E" in destruct (Hb i) as [x E]; [lia|]; rewrite E end; by eexists.
Qed.

(** What the instruction is started on. *)
Lemma ready_after op f e m size cost :
  frame_ok f -> decode env (GetOp (contract f) (pc f)) = Some op -> enough op f -> allowed env precompiles op f ->
  required_memory op (stack f) = Ok (Some size) -> moves (vm f) e -> paid_memory m size ->
  0 <= cost <= Gas (contract f) ->
  let f2 := set_contract (set_gas (Gas (contract f) - cost) (contract f)) (set_vm e (set_mem m f)) in
  ready env precompiles op (if 0 <? size then set_mem (Resize (mem f2) size) f2 else f2).
Proof.
  intros Hf Hd He Ha Hr Hm [Hmem Hsz] Hc f2. pose proof (ct_gas _ (fr_contract f Hf)) as Hg.
  set (f3 := if 0 <? size then _ else f2).
  assert (f3 = set_mem (grow m size) (set_contract (set_gas (Gas (contract f) - cost) (contract f)) (set_vm e f))) as ->.
  { unfold f3, f2, grow. by destruct (0 <? size). }
  split.
  - apply frame_mem; [|done]. change (contract f) with (contract (set_vm e f)).
    apply frame_gas; [by apply (frame_vm env precompiles)|cbn; lia].
  - by eapply decode_legal.
  - done.
  - intros (Hn & Hb & Hro). apply Ha. split; [done|]. split; [done|]. cbn in Hro. by rewrite <- (mv_readOnly _ _ _ _ Hm).
  - by exists size.
  - cbn. destruct (Z.lt_ge_cases (pc f) (zlen (Code (contract f)))) as [?|Hge]; [by right|]. left.
    unfold GetOp, GetByte in Hd. rewrite (proj2 (Z.ltb_ge _ _)) in Hd by done. rewrite decode_STOP in Hd. congruence.
Qed.

Lemma execute_ok op f :
  ready env precompiles op f -> funded op f \/ ending op = true /\ n <= gas_limit /\ Gas (contract f) <= n ->
  or_stale (fun '(f', ret, _) => frame_ok f' /\ moves (vm f) (vm f') /\
    Forall byte ret /\ (ending op = true -> bytes ret) /\ Gas (contract f') <= n /\
    (ending op = false -> Gas (contract f') < n)) (execute env precompiles lp op f).
Proof.
  intros Hrd Hfd. destruct (calls op) eqn:Ec.
  - destruct Hfd as [Hfd|(He & _)]; [|by destruct op].
    assert (goes f (execute env precompiles lp op f)) as Hgo.
    { destruct op; try done; cbn [execute].
      - by apply goes_Create.
      - by apply goes_Call.
      - by apply goes_CallCode.
      - by apply goes_DelegateCall.
      - by apply goes_StaticCall. }
    eapply or_stale_mono; [|exact Hgo]. intros [[f' ret] err] (? & ? & ? & ?).
    do 3 (split; [done|]). split; [by destruct op|]. split; [lia|done].
  - destruct (execute_plain env precompiles (as_price Has) lp op f Ec Hrd)
      as [->|(f' & ret & err & -> & ? & ? & Hb & Hct)]; [by left|]. apply or_stale_ok.
    do 2 (split; [done|]). split; [apply Hb|]. split; [done|]. rewrite Hct.
    destruct Hfd as [(? & ? & _)|(He & ? & ?)]; [split; [lia|done]|split; [lia|congruence]].
Qed.

Lemma vm_step_ok f : frame_ok f -> Gas (contract f) = n -> round_ok f (step env precompiles lp f).
Proof.
  intros Hf Hn. pose proof (ct_gas _ (fr_contract f Hf)) as Hg. pose proof (fr_vm f Hf) as Hv. unfold step.
  assert (forall x, round_ok f (ends f [] (Some x))) as Hend
    by (intros x; apply ends_ok; [by apply moves_refl|apply bytes_nil|lia]).
  destruct (decode env _) as [op|] eqn:Ed; [|done].
  destruct (validateStack op (stack f)) as [x|] eqn:Es; [done|]. apply validateStack_ok in Es.
  destruct (enforce_ok op f Hf Es) as ([x|] & -> & Ha); [done|]. specialize (Ha eq_refl).
  destruct (required_ok op f Es) as ([size|] & Er); rewrite Er; [|done].
  destruct (gas_ok env precompiles op f size) as (e & m & cost & -> & Hm & Hcost);
    [by eapply decode_legal|done..|].
  destruct (cost ≫= fun cost => UseGas cost (contract (set_vm e (set_mem m f)))) as [c|] eqn:Ec.
  2:{ apply ends_ok; [done|apply bytes_nil|cbn; lia]. }
  apply bind_Some in Ec as (g & -> & Eg). destruct (Hcost g eq_refl) as (Hlow & Hpm & Hpaid).
  unfold UseGas in Eg. cbn [contract set_vm set_mem] in Eg. destruct (Z.ltb_spec (Gas (contract f)) g); [done|].
  injection Eg as <-. assert (0 <= g) by (destruct (ending op); lia).
  pose proof (ready_after op f e m size g Hf Ed Es Ha Er Hm Hpm ltac:(lia)) as Hrd. cbv zeta in Hrd.
  set (f3 := if 0 <? size then _ else _) in *.
  assert (vm f3 = e /\ stack f3 = stack f /\ Gas (contract f3) = n - g) as (Ev & Est & Eg3)
    by (unfold f3; destruct (0 <? size); cbn; rewrite Hn; done).
  eapply or_stale_bind; [apply (execute_ok op f3 Hrd)|].
  { destruct (ending op) eqn:Een; [right; split; [done|lia]|]. left. unfold funded. rewrite Est, Ev, Eg3.
    split; [lia|]. split; [lia|]. unfold call_paid in Hpaid. destruct op; try done; repeat case_match; try done; lia. }
  intros [[f' ret] err] (? & Hm' & ? & ? & ? & ?). apply after_op_ok; try done. rewrite Ev in Hm'. by eapply moves_trans.
Qed.

End Total.

(** ** The loop *)

Section Loop.
Context `{Crypto} `{TrieLaws} {GL : GasLimit} (env : Env) (precompiles : Address -> option PrecompiledContract).
Context (Has : assumptions env precompiles).

(** Gas bounds fuel. *)
Lemma loop_ok fuel : lp_ok env precompiles (Z.of_nat fuel) (loop env precompiles fuel).
Proof.
  induction fuel as [|fuel IH]; intros f Hf Hg; [pose proof (ct_gas _ (fr_contract f Hf)); lia|]. cbn [loop].
  set (g := Gas (contract f)) in *.
  eapply or_stale_bind; [apply (vm_step_ok env precompiles Has g (loop env precompiles fuel)); [|done|done]|].
  { intros f1 Hf1 Hg1. apply IH; [done|lia]. }
  intros [o|f'] Hr; [by apply or_stale_ok|]. destruct Hr as (Hf' & Hm & Hlt).
  eapply or_stale_mono; [|apply (IH f' Hf'); lia].
  intros [[[e ret] gas] err] [(Hmr & Hb & Hgas) Hft]. split; [|done].
  split; [by eapply moves_trans|]. split; [done|]. unfold g. lia.
Qed.

(** A machine as [NewEVM] makes it. *)
Definition NewEVM (s : StateDB.StateDB) : evm := mkEvm s 0 0 false [] ∅.

Lemma NewEVM_ok s : sound s -> evm_ok (NewEVM s).
Proof. intros Hs. split; [done|constructor|]. intros h m. cbn. by rewrite lookup_empty. Qed.

End Loop.
End EvmTotal.
