(* ===== verification/EvmNatives.v ===== *)
(** * The precompiled contracts of the node (core/vm/contracts.go)

    Each contract is a price and a run.  The hash functions of Go's library and
    the elliptic curve of crypto/bn256 are parameters ([Natives]), and what is
    needed of them are [NativeLaws].  The deposit contract of deposit.go is the one
    of Deposit.v, working on the state database of StateDB.v. *)

From S2P Require Import Prelude Common Rlp Crypto Types RlpDecode Abi Deposit StateDB Snapshot StateRoot StateRun EvmWord EvmMachine EvmAnalysis EvmState Evm EvmFrame EvmSteps EvmTotal.

(** The part of a contract that the deposit contract looks at. *)
Definition deposit_contract (caller self : Address) (value gas : Z) : Contract :=
  mkContract caller self value gas.

Module Natives.
Import Snapshot StateRun Machine EvmAnalysis EvmState Evm EvmFrame EvmSteps EvmTotal.

Class Natives := {
  sha256_Sum256 : list Z -> list Z;
  ripemd160_Sum : list Z -> list Z;
  G1 : Type;
  G2 : Type;
  G1_Unmarshal : list Z -> option G1;
  G2_Unmarshal : list Z -> option G2;
  G1_Add : G1 -> G1 -> G1;
  G1_ScalarMult : G1 -> Z -> G1;
  G1_Marshal : G1 -> list Z;
  PairingCheck : list G1 -> list G2 -> bool
}.

(** The outputs are bytes, a sum of sha256 and a marshalled point have 32 and 64 of them,
    and a recovered key is not empty. *)
Class NativeLaws `{Crypto} `{Natives} : Prop := {
  sha256_bytes l : Forall byte (sha256_Sum256 l);
  sha256_length l : length (sha256_Sum256 l) = 32%nat;
  ripemd160_bytes l : Forall byte (ripemd160_Sum l);
  ripemd160_length l : length (ripemd160_Sum l) = 20%nat;
  G1_Marshal_bytes p : Forall byte (G1_Marshal p);
  G1_Marshal_length p : length (G1_Marshal p) = 64%nat;
  Ecrecover_key h sig pub : Ecrecover h sig = Some pub -> pub <> []
}.

Section Contracts.
Context `{Crypto} `{Tries} `{Natives}.

(** ** ecrecover *)

Definition secp256k1N : Z := 0xfffffffffffffffffffffffffffffffebaaedce6af48a03bbfd25e8cd0364141.
Definition secp256k1halfN : Z := secp256k1N / 2.

Definition ValidateSignatureValues (v r s : Z) (homestead : bool) : bool :=
  if (r <? 1) || (s <? 1) then false
  else if homestead && (secp256k1halfN <? s) then false
  else (r <? secp256k1N) && (s <? secp256k1N) && ((v =? 0) || (v =? 1)).

Definition ecrecover_Run (input : list Z) : res crash (list Z) :=
  let? input := RightPadBytes input 128 in
  let? rb := slice input 64 96 in
  let? sb := slice input 96 128 in
  let r := SetBytes rb in
  let s := SetBytes sb in
  let v := u8 (default 0 (input !! 63%nat) - 27) in
  let? mid := slice input 32 63 in
  if negb (allZero mid) || negb (ValidateSignatureValues v r s false) then Ok []
  else
    let? hash := slice input 0 32 in
    let? rs := slice input 64 128 in
    match Ecrecover (Z.to_N (SetBytes hash)) (Z.to_N (SetBytes (rs ++ [v]))) with
    | None => Ok []
    | Some pubKey =>
        let? key := slice pubKey 1 (zlen pubKey) in
        LeftPadBytes (drop 12 (Rlp.be_bytes 32 (Z.of_N (Keccak256 key)))) 32
    end.

(** ** The hash functions and the copy *)

(** [uint64(len(input)+31)/32*perWord + base] *)
Definition per_word (perWord base : Z) (input : list Z) : Z :=
  u64 (u64 ((zlen input + 31) / 32 * perWord) + base).

Definition sha256_RequiredGas : list Z -> Z := per_word 12 60.
Definition ripemd160_RequiredGas : list Z -> Z := per_word 120 600.
Definition dataCopy_RequiredGas : list Z -> Z := per_word 3 15.

Definition ripemd160_Run (input : list Z) : res crash (list Z) := LeftPadBytes (ripemd160_Sum input) 32.

(** ** bigModExp *)

(** [SetBytes(getData(data, start, size))] where [getData] does not panic, as for
    every size of at most 32 ([getData_ok]). *)
Definition number_at (data : list Z) (start size : Z) : Z :=
  match getData data start size with Ok d => SetBytes d | Err _ => 0 end.

Definition tail96 (input : list Z) : list Z := if 96 <? zlen input then drop 96 input else [].

(** The price of a multiplication of numbers of [x] bytes. *)
Definition mul_price (x : Z) : Z :=
  if x <=? 64 then x * x
  else if x <=? 1024 then x * x / 4 + (96 * x - 3072)
  else x * x / 16 + (480 * x - 199680).

Definition adjExpLen (expLen expHead : Z) : Z :=
  let bitlen := Word.BitLen expHead in
  let msb := if 0 <? bitlen then bitlen - 1 else 0 in
  (if 32 <? expLen then 8 * (expLen - 32) else 0) + msb.

Definition bigModExp_RequiredGas (input : list Z) : Z :=
  let baseLen := number_at input 0 32 in
  let expLen := number_at input 32 32 in
  let modLen := number_at input 64 32 in
  let input := tail96 input in
  let expHead := if zlen input <=? baseLen then 0
                 else if 32 <? expLen then number_at input (Uint64 baseLen) 32
                 else number_at input (Uint64 baseLen) (Uint64 expLen) in
  let gas := mul_price (Z.max modLen baseLen) * Z.max (adjExpLen expLen expHead) 1 / 20 in
  if 64 <? Word.BitLen gas then Word.MaxUint64 else Uint64 gas.

(** [base.Exp(base, exp, mod)] for a modulus that is not zero. *)
Definition bigModExp_Run (input : list Z) : res crash (list Z) :=
  let? b := getData input 0 32 in
  let? e := getData input 32 32 in
  let? m := getData input 64 32 in
  let baseLen := Uint64 (SetBytes b) in
  let expLen := Uint64 (SetBytes e) in
  let modLen := Uint64 (SetBytes m) in
  let input := tail96 input in
  if (baseLen =? 0) && (modLen =? 0) then Ok []
  else
    let? base := getData input 0 baseLen in
    let? exp := getData input baseLen expLen in
    let? mod_ := getData input (u64 (baseLen + expLen)) modLen in
    let n := SetBytes mod_ in
    if Word.BitLen n =? 0 then LeftPadBytes [] (i64 modLen)
    else LeftPadBytes (Rlp.big_Bytes (SetBytes base ^ SetBytes exp mod n)) (i64 modLen).

(** ** The elliptic curve *)

Definition bn256Add_Run (input : list Z) : res crash (option (list Z)) :=
  let? bx := getData input 0 64 in
  match G1_Unmarshal bx with
  | None => Ok None
  | Some x =>
      let? b := getData input 64 64 in
      match G1_Unmarshal b with
      | None => Ok None
      | Some y => Ok (Some (G1_Marshal (G1_Add x y)))
      end
  end.

Definition bn256ScalarMul_Run (input : list Z) : res crash (option (list Z)) :=
  let? bp := getData input 0 64 in
  match G1_Unmarshal bp with
  | None => Ok None
  | Some p =>
      let? k := getData input 64 32 in
      Ok (Some (G1_Marshal (G1_ScalarMult p (SetBytes k))))
  end.

Definition bn256Pairing_RequiredGas (input : list Z) : Z :=
  u64 (100000 + u64 (zlen input / 192 * 80000)).

(** The loop over [n] blocks of 192 bytes. *)
Fixpoint pairing_points (n : nat) (input : list Z) : option (list G1 * list G2) :=
  match n with
  | O => Some ([], [])
  | S n =>
      c ← G1_Unmarshal (take 64 input);
      t ← G2_Unmarshal (take 128 (drop 64 input));
      '(cs, ts) ← pairing_points n (drop 192 input);
      Some (c :: cs, t :: ts)
  end.

Definition true32Byte : list Z := replicate 31 0 ++ [1].
Definition false32Byte : list Z := replicate 32 0.

Definition bn256Pairing_Run (input : list Z) : option (list Z) :=
  if 0 <? zlen input mod 192 then None
  else
    '(cs, ts) ← pairing_points (Z.to_nat (zlen input / 192)) input;
    Some (if PairingCheck cs ts then true32Byte else false32Byte).

(** ** The deposit contract on the state database *)

(** A read also caches the account and the value that it loads, which no reader
    sees; here the database stays as it is. *)
#[export] Instance statedb_access : Access StateDB.StateDB := {|
  GetState s a k := (StateDB.GetState a k s).2;
  SetState s a k v := StateDB.SetState a k v s;
  GetBalance s a := (StateDB.GetBalance a s).2;
  AddBalance s a v := StateDB.AddBalance a v s;
  SubBalance s a v := StateDB.SubBalance a v s
|}.

(** Where a method fails the calls go back to their snapshot; the state is left
    as it was before. *)
Definition MatrixDeposit_Run (input : list Z) (c : Contract) (env : Env) (s : StateDB.StateDB)
    : res crash (StateDB.StateDB * list Z * option error) :=
  match Deposit.Run input (deposit_contract (CallerAddress c) (self c) (value c) (Gas c)) (BlockNumber env) s with
  | Ok (ret, s) => Ok (s, ret, None)
  | Err (Deposit.errAbi Abi.ErrPanic | Deposit.errMakeSlice) => Err Panic
  | Err Deposit.ErrInsufficientBalance => Ok (s, [], Some ErrInsufficientBalance)
  | Err _ => Ok (s, [], Some errPrecompiled)
  end.

(** ** The table *)

(** Contracts that only look at their input. *)
Definition pure_native (gas : list Z -> Z) (run : list Z -> res crash (option (list Z))) : PrecompiledContract :=
  mkPrecompiled gas (fun input _ _ s =>
    let? out := run input in
    match out with
    | Some ret => Ok (s, ret, None)
    | None => Ok (s, [], Some errPrecompiled)
    end).

Definition always {A} (f : list Z -> res crash A) (input : list Z) : res crash (option A) :=
  let? x := f input in Ok (Some x).

Definition PrecompiledContractsByzantium (a : Address) : option PrecompiledContract :=
  match a with
  | 1%N => Some (pure_native (fun _ => 3000) (always ecrecover_Run))
  | 2%N => Some (pure_native sha256_RequiredGas (fun i => Ok (Some (sha256_Sum256 i))))
  | 3%N => Some (pure_native ripemd160_RequiredGas (always ripemd160_Run))
  | 4%N => Some (pure_native dataCopy_RequiredGas (fun i => Ok (Some i)))
  | 5%N => Some (pure_native bigModExp_RequiredGas (always bigModExp_Run))
  | 6%N => Some (pure_native (fun _ => 500) bn256Add_Run)
  | 7%N => Some (pure_native (fun _ => 40000) bn256ScalarMul_Run)
  | 8%N => Some (pure_native bn256Pairing_RequiredGas (fun i => Ok (bn256Pairing_Run i)))
  | 10%N => Some (mkPrecompiled Deposit.RequiredGas MatrixDeposit_Run)
  | _ => None
  end.

End Contracts.

(** ** Data *)

Lemma getData_ok data start size :
  Forall byte data -> 0 <= start -> 0 <= size <= Deposit.maxAlloc -> zlen data <= 2 ^ 40 ->
  exists d, getData data start size = Ok d /\ Forall byte d /\ zlen d = size.
Proof.
  intros Hd Hs Hz Hl. pose proof Hz as Hz'. unfold Deposit.maxAlloc in Hz'. unfold getData.
  set (st := if zlen data <? start then zlen data else start).
  assert (0 <= st <= zlen data) as Hst by (unfold st; destruct (Z.ltb_spec (zlen data) start); lia).
  rewrite (u64_small (st + size)) by (unfold in_u64; lia).
  set (en := if zlen data <? st + size then zlen data else st + size).
  assert (st <= en <= zlen data /\ en <= st + size) as He by (unfold en; destruct (Z.ltb_spec (zlen data) (st + size)); lia).
  destruct (slice_ok data st en) as (d & -> & Hb & Hlen); [done|lia..|]. cbn.
  rewrite (i64_small size) by (unfold in_i64; lia).
  destruct (RightPad_ok d size Hb) as (d' & E & Hd' & Hl'); [lia|]. exists d'. split; [done|]. split; [done|lia].
Qed.

Lemma LeftPad_ok d l :
  Forall byte d -> l <= Deposit.maxAlloc ->
  exists d', LeftPadBytes d l = Ok d' /\ Forall byte d' /\ zlen d' = Z.max l (zlen d).
Proof.
  intros Hd Hl. unfold LeftPadBytes. destruct (Z.leb_spec l (zlen d)); [exists d; split; [done|]; split; [done|lia]|].
  rewrite make_zeros_ok by done. eexists. split; [done|]. rewrite length_app, length_replicate. split; [|lia].
  apply Forall_app. split; [|done]. apply Forall_replicate. unfold byte. lia.
Qed.

(** Bytes or a panic. *)
Definition bytes_or_panic (x : res crash (list Z)) : Prop := x = Err Panic \/ exists d, x = Ok d /\ Forall byte d.

Lemma slice_ends l a b : Forall byte l -> bytes_or_panic (slice l a b).
Proof. intros Hl. unfold slice. case_match; [right|by left]. eexists. split; [done|]. by apply Forall_take, Forall_drop. Qed.

Lemma pad_ends d l : Forall byte d -> bytes_or_panic (RightPadBytes d l) /\ bytes_or_panic (LeftPadBytes d l).
Proof.
  intros Hd. destruct (Z.lt_ge_cases Deposit.maxAlloc l) as [Hl|Hl].
  - unfold RightPadBytes, LeftPadBytes, make_zeros. rewrite (proj2 (Z.ltb_lt _ l) Hl).
    case_match; (split; [|]); (by left) || (right; by exists d).
  - destruct (RightPad_ok d l Hd Hl) as (x & Ex & ? & _), (LeftPad_ok d l Hd Hl) as (y & Ey & ? & _).
    split; right; eauto.
Qed.

Lemma getData_ends data start size : Forall byte data -> bytes_or_panic (getData data start size).
Proof.
  intros Hd. unfold getData. edestruct slice_ends as [->|(d & -> & Hb)]; [exact Hd|by left|]. by apply pad_ends.
Qed.

Lemma tail96_bytes input : bytes input -> bytes (tail96 input).
Proof.
  intros [Hb Hl]. unfold tail96. case_match; [|apply bytes_nil]. split; [by apply Forall_drop|].
  rewrite length_drop. lia.
Qed.

Lemma big_Bytes_bytes x : Forall byte (Rlp.big_Bytes x).
Proof. unfold Rlp.big_Bytes. case_match; [done|apply Rlp.be_bytes_wf]. Qed.

Lemma bytes_zlen l : bytes l -> zlen l <= 2 ^ 40.
Proof. by intros [_ Hl]. Qed.

Section Laws.
Context `{Crypto} `{TrieLaws} {GL : GasLimit} `{!Natives} `{!NativeLaws} (env : Env).

(** ** Contracts that only look at their input *)

Lemma pure_ok gas run :
  (forall input, 0 <= gas input) ->
  (forall input, bytes input -> gas input <= gas_limit ->
     exists out, run input = Ok out /\ forall ret, out = Some ret -> Forall byte ret) ->
  (forall ret, run [] = Ok (Some ret) -> bytes ret) ->
  native_ok env (pure_native gas run).
Proof.
  intros Hg Hr He. split; [done| |].
  - intros input c s Hs Hi Hmax _. destruct (Hr input Hi Hmax) as (out & E & Hout).
    cbn [pure_native native_Run]. rewrite E. pose proof (ext_refl s Hs).
    destruct out as [ret|]; eexists _, _, _; (split; [done|]); split; auto.
  - intros c s s' ret err. cbn [pure_native native_Run]. destruct (run []) as [[r|]|]; [|intros [= _ <- _]; apply bytes_nil|done].
    intros [= _ <- _]. by apply He.
Qed.

Lemma per_word_nonneg a b input : 0 <= per_word a b input.
Proof. apply u64_range. Qed.

Lemma short_bytes l : Forall byte l -> (length l <= 64)%nat -> bytes l.
Proof. intros Hb Hl. split; [done|]. unfold max_len. lia. Qed.

Lemma ecrecover_ok input : bytes input -> exists ret, ecrecover_Run input = Ok ret /\ Forall byte ret.
Proof.
  intros [Hb _]. unfold ecrecover_Run.
  destruct (RightPad_ok input 128 Hb) as (l & -> & Hl & Hlen); [unfold Deposit.maxAlloc; lia|].
  destruct (slice_ok l 64 96) as (rb & -> & _); [done|lia..|].
  destruct (slice_ok l 96 128) as (sb & -> & _); [done|lia..|].
  destruct (slice_ok l 32 63) as (mid & -> & _); [done|lia..|]. cbn.
  case_match; [by eexists|]. destruct (slice_ok l 0 32) as (h & -> & _); [done|lia..|].
  destruct (slice_ok l 64 128) as (rs & -> & _); [done|lia..|]. cbn.
  destruct (Ecrecover _ _) as [pub|] eqn:E; [|by eexists]. apply Ecrecover_key in E.
  unfold slice. rewrite (proj2 (Z.leb_le 1 (zlen pub))), Z.leb_refl by (destruct pub; [done|simpl; lia]).
  destruct (LeftPad_ok (drop 12 (Rlp.be_bytes 32 (Z.of_N (Keccak256
    (take (Z.to_nat (zlen pub - 1)) (drop (Z.to_nat 1) pub)))))) 32) as (d & E' & Hd & _);
    [apply Forall_drop, Rlp.be_bytes_wf|unfold Deposit.maxAlloc; lia|]. by exists d.
Qed.

Lemma ripemd160_ok input : exists ret, ripemd160_Run input = Ok ret /\ Forall byte ret.
Proof.
  unfold ripemd160_Run. destruct (LeftPad_ok (ripemd160_Sum input) 32 (ripemd160_bytes input)) as (d & E & Hd & _);
    [unfold Deposit.maxAlloc; lia|by exists d].
Qed.

Lemma bn256Add_ok input :
  bytes input -> exists out, bn256Add_Run input = Ok out /\ forall ret, out = Some ret -> Forall byte ret.
Proof.
  intros Hi. unfold bn256Add_Run. pose proof (bytes_zlen _ Hi). destruct Hi as [Hb _].
  destruct (getData_ok input 0 64) as (x & -> & _); [done|unfold Deposit.maxAlloc; lia..|]. cbn.
  destruct (G1_Unmarshal x); [|by eexists]. destruct (getData_ok input 64 64) as (y & -> & _); [done|unfold Deposit.maxAlloc; lia..|]. cbn.
  destruct (G1_Unmarshal y); [|by eexists]. eexists. split; [done|]. intros ? [= <-]. apply G1_Marshal_bytes.
Qed.

Lemma bn256ScalarMul_ok input :
  bytes input -> exists out, bn256ScalarMul_Run input = Ok out /\ forall ret, out = Some ret -> Forall byte ret.
Proof.
  intros Hi. unfold bn256ScalarMul_Run. pose proof (bytes_zlen _ Hi). destruct Hi as [Hb _].
  destruct (getData_ok input 0 64) as (x & -> & _); [done|unfold Deposit.maxAlloc; lia..|]. cbn.
  destruct (G1_Unmarshal x); [|by eexists]. destruct (getData_ok input 64 32) as (k & -> & _); [done|unfold Deposit.maxAlloc; lia..|]. cbn.
  eexists. split; [done|]. intros ? [= <-]. apply G1_Marshal_bytes.
Qed.

Lemma bn256Pairing_ok input ret : bn256Pairing_Run input = Some ret -> Forall byte ret.
Proof.
  unfold bn256Pairing_Run. case_match; [done|]. intros ([cs ts] & _ & E)%bind_Some. injection E as <-.
  case_match; repeat (apply Forall_cons; split; [unfold byte; lia|]); constructor.
Qed.

(** ** bigModExp *)

(** Gas with which no operand is too long for a slice. *)
Definition modexp_gas : Z := 2 ^ 46.

(** The price of a multiplication is at least that of reading the operands. *)
Lemma mul_price_ge x : 0 <= x -> x <= mul_price x /\ x * x / 16 <= mul_price x.
Proof.
  intros Hx. unfold mul_price. destruct (Z.leb_spec x 64).
  - split; [nia|]. apply Z.div_le_upper_bound; nia.
  - destruct (Z.leb_spec x 1024).
    + assert (x * x / 16 <= x * x / 4) by (apply Z.div_le_compat_l; nia). assert (0 <= x * x / 16) by (apply Z.div_pos; nia). lia.
    + assert (0 <= x * x / 16) by (apply Z.div_pos; nia). lia.
Qed.

Lemma adjExpLen_ge e h : 8 * (e - 32) <= adjExpLen e h.
Proof.
  unfold adjExpLen. assert (0 <= if 0 <? Word.BitLen h then Word.BitLen h - 1 else 0) by (destruct (Z.ltb_spec 0 (Word.BitLen h)); lia).
  destruct (Z.ltb_spec 32 e); lia.
Qed.

(** What can be paid for has operands that fit in memory. *)
Lemma modexp_sizes baseLen expLen modLen head :
  0 <= baseLen -> 0 <= expLen -> 0 <= modLen ->
  mul_price (Z.max modLen baseLen) * Z.max (adjExpLen expLen head) 1 / 20 <= modexp_gas ->
  baseLen < 2 ^ 36 /\ modLen < 2 ^ 36 /\ (baseLen = 0 /\ modLen = 0 \/ expLen <= Deposit.maxAlloc).
Proof.
  intros Hb He Hm Hg. unfold modexp_gas in Hg. set (x := Z.max modLen baseLen) in *. set (a := Z.max (adjExpLen expLen head) 1) in *.
  destruct (mul_price_ge x ltac:(lia)) as [Hge Hsq]. pose proof (adjExpLen_ge expLen head).
  assert (1 <= a) as Ha by lia. assert (0 <= mul_price x) by lia.
  assert (mul_price x * a < 20 * (2 ^ 46 + 1)).
  { pose proof (Z.div_mod (mul_price x * a) 20 ltac:(lia)). pose proof (Z.mod_pos_bound (mul_price x * a) 20 ltac:(lia)). lia. }
  assert (mul_price x < 20 * (2 ^ 46 + 1)) by nia.
  assert (x < 2 ^ 36).
  { destruct (Z.lt_ge_cases x (2 ^ 36)); [done|]. assert (2 ^ 68 <= x * x / 16) by (apply Z.div_le_lower_bound; nia). lia. }
  split; [lia|]. split; [lia|]. destruct (Z.eq_dec x 0); [left; lia|]. right.
  assert (a <= mul_price x * a) by nia. unfold Deposit.maxAlloc. lia.
Qed.

Lemma number_at_ok input start :
  bytes input -> 0 <= start -> exists d, getData input start 32 = Ok d /\ number_at input start 32 = SetBytes d /\ 0 <= SetBytes d.
Proof.
  intros Hi Hs. pose proof (bytes_zlen _ Hi). destruct Hi as [Hb _]. unfold number_at.
  destruct (getData_ok input start 32) as (d & -> & Hd & _); [done|unfold Deposit.maxAlloc; lia..|]. exists d. split; [done|].
  split; [done|by apply SetBytes_nonneg].
Qed.

Lemma Uint64_gas g : 0 <= g -> (if 64 <? Word.BitLen g then Word.MaxUint64 else Uint64 g) <= modexp_gas -> g <= modexp_gas.
Proof.
  intros Hg. destruct (Z.ltb_spec 64 (Word.BitLen g)); [unfold Word.MaxUint64, modexp_gas; lia|].
  rewrite Uint64_small; [done|]. unfold in_u64. assert (g < 2 ^ 64) by (apply BitLen_le; lia). lia.
Qed.

Lemma bigModExp_ok input :
  bytes input -> bigModExp_RequiredGas input <= modexp_gas -> exists ret, bigModExp_Run input = Ok ret /\ Forall byte ret.
Proof.
  intros Hi. unfold bigModExp_RequiredGas, bigModExp_Run.
  destruct (number_at_ok input 0 Hi ltac:(lia)) as (b & -> & -> & Hb).
  destruct (number_at_ok input 32 Hi ltac:(lia)) as (e & -> & -> & He).
  destruct (number_at_ok input 64 Hi ltac:(lia)) as (m & -> & -> & Hm).
  pose proof (tail96_bytes _ Hi) as Ht. pose proof (bytes_zlen _ Ht) as Htl. destruct Ht as [Htb _].
  intros Hg. apply Uint64_gas in Hg.
  2:{ apply Z.div_pos; [|lia]. apply Z.mul_nonneg_nonneg; [|lia]. destruct (mul_price_ge (Z.max (SetBytes m) (SetBytes b))); lia. }
  destruct (modexp_sizes _ _ _ _ Hb He Hm Hg) as (Hb' & Hm' & Hor). cbn.
  rewrite (Uint64_small (SetBytes b)), (Uint64_small (SetBytes m)) by (unfold in_u64; lia).
  destruct (_ && _) eqn:Ez; [by eexists|].
  assert (SetBytes e <= Deposit.maxAlloc) as He'.
  { destruct Hor as [[Eb Em]|]; [|done]. by rewrite Eb, Em in Ez. }
  pose proof He' as He2. unfold Deposit.maxAlloc in He2. rewrite (Uint64_small (SetBytes e)) by (unfold in_u64; lia).
  assert (2 ^ 36 <= Deposit.maxAlloc) by (unfold Deposit.maxAlloc; lia).
  destruct (getData_ok (tail96 input) 0 (SetBytes b)) as (base & -> & _); [done|lia..|].
  destruct (getData_ok (tail96 input) (SetBytes b) (SetBytes e)) as (exp & -> & _); [done|lia..|].
  pose proof (u64_range (SetBytes b + SetBytes e)) as Hr. unfold in_u64 in Hr.
  destruct (getData_ok (tail96 input) (u64 (SetBytes b + SetBytes e)) (SetBytes m)) as (md & -> & _); [done|lia..|].
  rewrite (i64_small (SetBytes m)) by (unfold in_i64; lia).
  destruct (Word.BitLen (SetBytes md) =? 0);
    (edestruct LeftPad_ok as (d & -> & Hd & _); [|by transitivity (2 ^ 36); [lia|]|by exists d]);
    [constructor|apply big_Bytes_bytes].
Qed.

(** Whatever the input costs. *)
Lemma bigModExp_ends input : bytes input -> bytes_or_panic (bigModExp_Run input).
Proof.
  intros Hi. destruct (tail96_bytes _ Hi) as [Ht _]. destruct Hi as [Hb _]. unfold bigModExp_Run.
  do 3 (edestruct getData_ends as [->|(? & -> & _)]; [exact Hb|by left|]). cbn.
  case_match; [right; by exists []|].
  do 3 (edestruct getData_ends as [->|(? & -> & _)]; [exact Ht|by left|]). cbn.
  case_match; apply pad_ends; [constructor|apply big_Bytes_bytes].
Qed.

(** The bytes of a number, padded. *)
Lemma be_bytes_pad p k x : 0 <= x < 2 ^ (8 * Z.of_nat k) -> Rlp.be_bytes (p + k) x = replicate p 0 ++ Rlp.be_bytes k x.
Proof.
  intros Hx. induction p as [|p IH]; [done|]. cbn [Rlp.be_bytes Nat.add replicate app]. rewrite IH. f_equal.
  unfold Rlp.byte_of. rewrite Z.shiftr_div_pow2, Z.div_small by lia || (split; [lia|]; eapply Z.lt_le_trans; [apply Hx|];
    apply Z.pow_le_mono_r; lia). done.
Qed.

Lemma LeftPad_big_Bytes x k :
  0 <= x < 2 ^ (8 * Z.of_nat k) -> Z.of_nat k <= Deposit.maxAlloc ->
  LeftPadBytes (Rlp.big_Bytes x) (Z.of_nat k) = Ok (Rlp.be_bytes k x).
Proof.
  intros Hx Hk. pose proof (RlpDecode.big_Bytes_length x (Z.of_nat k) ltac:(lia) Hx) as Hl. unfold Rlp.zlen in Hl.
  assert (exists j, Rlp.big_Bytes x = Rlp.be_bytes j x /\ 0 <= x < 2 ^ (8 * Z.of_nat j)) as (j & Ej & Hj).
  { unfold Rlp.big_Bytes. destruct (Z.eqb_spec x 0) as [->|]; [by exists 0%nat|]. eexists. split; [done|].
    split; [lia|]. apply Z.log2_lt_pow2; [lia|]. pose proof (Z.log2_nonneg x).
    pose proof (Z.div_mod (Z.log2 x) 8). pose proof (Z.mod_pos_bound (Z.log2 x) 8). lia. }
  rewrite Ej in *. rewrite Rlp.be_bytes_length in Hl. unfold LeftPadBytes. rewrite Rlp.be_bytes_length.
  destruct (Z.leb_spec (Z.of_nat k) (Z.of_nat j)); [by replace k with j by lia|].
  rewrite make_zeros_ok by done. cbn. rewrite Rlp.be_bytes_length, <- be_bytes_pad by done. f_equal. f_equal. lia.
Qed.

Lemma SetBytes_be n x : 0 <= x < 2 ^ (8 * Z.of_nat n) -> SetBytes (Rlp.be_bytes n x) = x.
Proof.
  intros Hx. unfold SetBytes. rewrite Rlp.be_bytes_length. rewrite <- (app_nil_r (Rlp.be_bytes n x)).
  by apply Rlp.read_be_bytes.
Qed.

Lemma getData_app pre d post :
  zlen (pre ++ d ++ post) < 2 ^ 63 -> getData (pre ++ d ++ post) (zlen pre) (zlen d) = Ok d.
Proof.
  intros Hl. rewrite !length_app in Hl. unfold getData. rewrite !length_app.
  rewrite (proj2 (Z.ltb_ge _ (zlen pre))) by lia. rewrite (u64_small (zlen pre + zlen d)) by (unfold in_u64; lia).
  rewrite (proj2 (Z.ltb_ge _ (zlen pre + zlen d))) by lia. unfold slice. rewrite !length_app.
  rewrite (proj2 (Z.leb_le 0 _)), (proj2 (Z.leb_le (zlen pre) _)), (proj2 (Z.leb_le (zlen pre + zlen d) _)) by lia. cbn [andb].
  rewrite (i64_small (zlen d)) by (unfold in_i64; lia).
  rewrite Nat2Z.id, drop_app_length. replace (Z.to_nat (zlen pre + zlen d - zlen pre)) with (length d) by lia.
  rewrite take_app_length. unfold RightPadBytes. by rewrite Z.leb_refl.
Qed.

(** The input for numbers of given lengths. *)
Definition modexp_input (bl el ml : nat) (b e m : Z) : list Z :=
  Rlp.be_bytes 32 (Z.of_nat bl) ++ Rlp.be_bytes 32 (Z.of_nat el) ++ Rlp.be_bytes 32 (Z.of_nat ml) ++
  Rlp.be_bytes bl b ++ Rlp.be_bytes el e ++ Rlp.be_bytes ml m.

Lemma getData_at l a n pre d post :
  l = pre ++ d ++ post -> zlen l < 2 ^ 63 -> a = zlen pre -> n = zlen d -> getData l a n = Ok d.
Proof. intros -> Hl -> ->. by apply getData_app. Qed.

(** C35: the contract at address 5 computes the modular power: on the encoding of
    three numbers with the lengths of their fields it returns the power, as long as the
    modulus. *)
Theorem bigModExp_correct bl el ml b e m :
  0 <= b < 2 ^ (8 * Z.of_nat bl) -> 0 <= e < 2 ^ (8 * Z.of_nat el) -> 0 < m < 2 ^ (8 * Z.of_nat ml) ->
  Z.of_nat (bl + el + ml) < 2 ^ 40 ->
  bigModExp_Run (modexp_input bl el ml b e m) = Ok (Rlp.be_bytes ml (b ^ e mod m)).
Proof.
  intros Hb He Hm Hl. set (input := modexp_input bl el ml b e m).
  assert (0 < ml)%nat by (destruct ml; [cbn in Hm; lia|lia]).
  assert (zlen input = 96 + Z.of_nat (bl + el + ml)) as Hz.
  { unfold input, modexp_input. rewrite !length_app, !Rlp.be_bytes_length. lia. }
  assert (forall n : nat, (n <= bl + el + ml)%nat -> 0 <= Z.of_nat n < 2 ^ (8 * Z.of_nat 32)) as Hsmall.
  { intros n Hn. split; [lia|]. eapply Z.lt_trans; [|apply (Z.pow_lt_mono_r 2 40); lia]. lia. }
  unfold bigModExp_Run.
  rewrite (getData_at input 0 32 [] (Rlp.be_bytes 32 (Z.of_nat bl)) _ eq_refl) by (done || lia).
  rewrite (getData_at input 32 32 (Rlp.be_bytes 32 (Z.of_nat bl)) (Rlp.be_bytes 32 (Z.of_nat el)) _ eq_refl) by (done || lia).
  rewrite (getData_at input 64 32 (Rlp.be_bytes 32 (Z.of_nat bl) ++ Rlp.be_bytes 32 (Z.of_nat el))
    (Rlp.be_bytes 32 (Z.of_nat ml)) (Rlp.be_bytes bl b ++ Rlp.be_bytes el e ++ Rlp.be_bytes ml m))
    by first [unfold input, modexp_input; by rewrite <- !app_assoc | done | lia].
  rewrite !SetBytes_be by (apply Hsmall; lia). rewrite !Uint64_small by (unfold in_u64; lia).
  assert (tail96 input = Rlp.be_bytes bl b ++ Rlp.be_bytes el e ++ Rlp.be_bytes ml m) as ->.
  { unfold tail96. rewrite (proj2 (Z.ltb_lt 96 _)) by lia. unfold input, modexp_input.
    rewrite (app_assoc _ (Rlp.be_bytes 32 (Z.of_nat el))), app_assoc. apply drop_app_length'.
    by rewrite !length_app, !Rlp.be_bytes_length. }
  rewrite (proj2 (Z.eqb_neq (Z.of_nat ml) 0)), andb_false_r by lia. rewrite (u64_small (_ + _)) by (unfold in_u64; lia).
  set (tl := Rlp.be_bytes bl b ++ _). assert (zlen tl < 2 ^ 63) as Htl.
  { unfold tl. rewrite !length_app, !Rlp.be_bytes_length. lia. }
  rewrite (getData_at tl 0 _ [] (Rlp.be_bytes bl b) _ eq_refl) by (rewrite ?Rlp.be_bytes_length; done).
  rewrite (getData_at tl _ _ (Rlp.be_bytes bl b) (Rlp.be_bytes el e) _ eq_refl) by (rewrite ?Rlp.be_bytes_length; done).
  rewrite (getData_at tl _ _ (Rlp.be_bytes bl b ++ Rlp.be_bytes el e) (Rlp.be_bytes ml m) [])
    by first [unfold tl; by rewrite app_nil_r, <- app_assoc | done | rewrite ?length_app, ?Rlp.be_bytes_length; lia].
  rewrite !SetBytes_be by lia. unfold Word.BitLen. rewrite (proj2 (Z.eqb_neq m 0)) by lia.
  pose proof (Z.log2_nonneg (Z.abs m)). rewrite (proj2 (Z.eqb_neq _ 0)) by lia.
  rewrite (i64_small (Z.of_nat ml)) by (unfold in_i64; lia). rewrite LeftPad_big_Bytes; [done| |unfold Deposit.maxAlloc; lia].
  pose proof (Z.mod_pos_bound (b ^ e) m). lia.
Qed.

(** ** The deposit contract *)

Lemma ext_then s s1 s2 : ext s s1 -> (sound s1 -> ext s1 s2) -> ext s s2.
Proof. intros H1' H2'. eapply ext_trans; [done|]. apply H2', H1'. Qed.

Lemma ext_set (s : StateDB.StateDB) a k v : sound s -> ext s (SetState s a k v).
Proof. apply ext_SetState. Qed.

Lemma ext_setNodeID c (s : StateDB.StateDB) id : sound s -> ext s (Deposit.setNodeID c s id).
Proof.
  intros Hs. unfold Deposit.setNodeID. case_match; [by apply ext_refl|].
  eapply ext_then; [by apply ext_set|]. apply ext_set.
Qed.

Lemma ext_insertDepositList c (s : StateDB.StateDB) : sound s -> ext s (Deposit.insertDepositList c s).
Proof.
  intros Hs. unfold Deposit.insertDepositList. destruct (Deposit.getDepositListNum c s);
    (eapply ext_then; [by apply ext_set|]); apply ext_set.
Qed.

Lemma ext_modifyDepositState c id (s : StateDB.StateDB) : sound s -> ext s (Deposit.modifyDepositState c id s).1.
Proof.
  intros Hs. unfold Deposit.modifyDepositState, Deposit.addDeposit. destruct (2 ^ 256 <=? _); [by apply ext_refl|].
  cbn. eapply ext_then; [by apply ext_set|]. intros Hs1. eapply ext_then; [by apply ext_setNodeID|]. intros Hs2.
  case_match; [by apply ext_insertDepositList|by apply ext_refl].
Qed.

Lemma ext_removeDepositList c (s s' : StateDB.StateDB) :
  sound s -> Deposit.removeDepositList c s = Ok s' -> ext s s'.
Proof.
  intros Hs. unfold Deposit.removeDepositList. destruct (Deposit.getDepositListNum c s); [|done].
  case_match; [|done]. intros [= <-]. eapply ext_then; [by apply ext_set|]. apply ext_set.
Qed.

Lemma ext_modifyRefundState c bn (s s' : StateDB.StateDB) v :
  sound s -> Deposit.modifyRefundState c bn s = Ok (v, s') -> ext s s' /\ 0 <= v.
Proof.
  intros Hs. unfold Deposit.modifyRefundState. set (d := Deposit.getDeposit c s _).
  assert (0 <= d) by (unfold d, Deposit.getDeposit, Deposit.Hash_Big; case_match; lia).
  destruct (d =? 0); [done|]. destruct (_ =? 0); [done|]. destruct (bn <? _); [done|].
  intros [= <- <-]. split; [|done].
  eapply ext_then; [by apply ext_set|]. intros Hs1. eapply ext_then; [by apply ext_setNodeID|]. intros Hs2.
  eapply ext_then; [by apply ext_set|]. intros Hs3. eapply ext_then; [by apply ext_set|]. intros Hs4.
  destruct (Deposit.removeDepositList _ _) eqn:E; [|by apply ext_refl].
  eapply ext_removeDepositList; [exact Hs4|exact E].
Qed.

(** What a method of the contract does. *)
Definition method_ok (s : StateDB.StateDB) (r : res Deposit.error (list Z * StateDB.StateDB)) : Prop :=
  match r with
  | Ok (ret, s') => ext s s' /\ Forall byte ret
  | Err e => e <> Deposit.errAbi Abi.ErrPanic /\ e <> Deposit.errMakeSlice
  end.

Lemma done_ok s s' : ext s s' -> method_ok s (Ok ([1], s')).
Proof. split; [done|]. apply Forall_singleton. unfold byte. lia. Qed.

Lemma UnpackAtomic_bytes input v : Abi.UnpackAtomic Abi.BytesTy input = Ok v -> exists b, v = Abi.byte_slice b.
Proof.
  unfold Abi.UnpackAtomic, Abi.UnpackValues. cbn [Abi.UnpackValues_loop Abi.toGoType Abi.requiresLengthPrefix].
  destruct (_ <? _); [done|]. destruct (Abi.lengthPrefixPointsTo _ _) as [[i l]|]; [|done]. intros [= <-]. by eexists.
Qed.

Lemma deposit_ok input c t (s : StateDB.StateDB) : sound s -> method_ok s (Deposit.deposit input c t s).
Proof.
  intros Hs. unfold Deposit.deposit, Deposit.bytes_value. destruct (_ <? _); [done|].
  destruct (Abi.UnpackAtomic _ _) as [v|] eqn:E; [|done]. apply UnpackAtomic_bytes in E as [b ->].
  rewrite Abi.Bytes_byte_slice. destruct (negb _); [done|]. destruct (0 <? _); [done|]. destruct (_ <? t); [done|].
  by apply done_ok, ext_modifyDepositState.
Qed.

Lemma withdraw_ok c bn (s : StateDB.StateDB) : sound s -> method_ok s (Deposit.withdraw c bn s).
Proof.
  intros Hs. unfold Deposit.withdraw, Deposit.modifyWithdrawState. destruct (_ =? 0); [done|].
  by apply done_ok, ext_set.
Qed.

Lemma refund_ok c bn (s : StateDB.StateDB) : sound s -> method_ok s (Deposit.refund c bn s).
Proof.
  intros Hs. unfold Deposit.refund. destruct (Deposit.modifyRefundState c bn s) as [[v s1]|e] eqn:E.
  - apply ext_modifyRefundState in E as [Hx Hv]; [|done]. cbn. unfold Deposit.CanTransfer.
    destruct (Z.leb_spec v (GetBalance s1 (Deposit.self c))) as [Hle|]; [|done]. apply done_ok.
    eapply ext_then; [done|]. intros Hs1. apply ext_Transfer; [done|]. unfold balance. by rewrite <- balance_of.
  - unfold Deposit.modifyRefundState in E. cbn. split; intros ->; by repeat case_match.
Qed.

(** What the two readers return is packed without error and consists of bytes. *)
Lemma U256_bytes n : Forall byte (Abi.U256 n).
Proof. rewrite Abi.U256_eq. apply Rlp.be_bytes_wf. Qed.

Lemma packBytesSlice_bytes b l : Forall byte b -> Forall byte (Abi.packBytesSlice b l).
Proof.
  intros Hb. unfold Abi.packBytesSlice, Abi.RightPadBytes. repeat apply Forall_app_2; [apply U256_bytes|done|].
  apply Forall_replicate. unfold byte. lia.
Qed.

Lemma mapM_fmap_ok {E A B C} (f : A -> res E C) (g : B -> A) (h : B -> C) l :
  (forall x, f (g x) = Ok (h x)) -> mapM f (g <$> l) = Ok (h <$> l).
Proof. intros Hf. induction l as [|x l IH]; [done|]. cbn in *. by rewrite Hf, IH. Qed.

Lemma pack_address b : Abi.pack Abi.AddressTy (Abi.byte_array b) = Ok (Abi.LeftPadBytes b 32).
Proof. unfold Abi.pack, Abi.packElement. rewrite Abi.Bytes_byte_array. done. Qed.

Lemma pack_addresses (l : list (list Z)) :
  mapM (Abi.pack Abi.AddressTy) (Abi.byte_array <$> l) = Ok ((fun b => Abi.LeftPadBytes b 32) <$> l).
Proof. by apply mapM_fmap_ok, pack_address. Qed.

(** The count of the list of depositors in the storage of the running contract. *)
Definition list_count (a : Address) (s : StateDB.StateDB) : Z :=
  Types.Uint64 (Deposit.Hash_Big (GetState s a (Deposit.key a Deposit.sDNUM))).

Lemma getDepositList_ok c (s : StateDB.StateDB) :
  sound s ->
  let r := (let? out := Deposit.getDepositList c s in Ok (out, s)) in
  method_ok s r \/ r = Err Deposit.errMakeSlice /\ Deposit.maxAlloc < 20 * list_count (Deposit.self c) s.
Proof.
  intros Hs. cbn zeta. unfold Deposit.getDepositList. cbv zeta. fold (list_count (Deposit.self c) s).
  destruct (Z.ltb_spec Deposit.maxAlloc (20 * list_count (Deposit.self c) s)) as [|_]; [by right|left].
  set (l := Deposit.address_bytes <$> Deposit.listed c s).
  assert ((fun a => Abi.byte_array (Deposit.address_bytes a)) <$> Deposit.listed c s = Abi.byte_array <$> l) as ->.
  { unfold l. by rewrite <- list_fmap_compose. }
  assert (Abi.pack (Abi.SliceTy Abi.AddressTy) (Abi.Slice Abi.KArray (Abi.byte_array <$> l)) =
    Ok (Abi.packBytesSlice (concat ((fun b => Abi.LeftPadBytes b 32) <$> l)) (Abi.zlength (Abi.byte_array <$> l)))) as Hp.
  { cbn [Abi.pack Abi.typeCheck Abi.sliceTypeCheck]. rewrite bool_decide_true by done. cbn.
    pose proof (pack_addresses l) as Hm. cbn in Hm. by rewrite Hm. }
  unfold Abi.Pack. cbn [length Nat.eqb negb zip zip_with Abi.Pack_loop]. rewrite Hp. split; [by apply ext_refl|].
  apply Forall_app_2; [apply U256_bytes|]. apply packBytesSlice_bytes, Forall_concat, Forall_fmap, Forall_fmap.
  apply Forall_true. intros a. unfold compose, Abi.LeftPadBytes. apply Forall_app_2; [|apply Rlp.be_bytes_wf].
  apply Forall_replicate. unfold byte. lia.
Qed.

Lemma UnpackAtomic_address input :
  Abi.UnpackAtomic Abi.AddressTy input =
  if Abi.zlength input <? 32 then Err Abi.ErrInsufficient else Ok (Abi.BytesToAddress (Abi.slice input 0 32)).
Proof.
  unfold Abi.UnpackAtomic, Abi.UnpackValues. cbn [Abi.UnpackValues_loop Abi.toGoType].
  change ((0 + 0) * 32) with 0. change (0 + 32) with 32. by destruct (_ <? _).
Qed.

Lemma getDepositInfo_ok input c (s : StateDB.StateDB) :
  sound s -> method_ok s (let? out := Deposit.getDepositInfo input c s in Ok (out, s)).
Proof.
  intros Hs. unfold Deposit.getDepositInfo. rewrite UnpackAtomic_address. destruct (_ <? _); [done|].
  unfold Deposit.bytes_value, Abi.BytesToAddress. rewrite Abi.Bytes_byte_array.
  cbv beta iota. destruct (_ =? 0); [done|]. set (id := Rlp.be_bytes 64 _). set (d := Deposit.getDeposit _ _ _).
  set (w := Deposit.getWithdrawHeight _ _ _).
  assert (Forall byte id) as Hid by apply Rlp.be_bytes_wf. clearbody id.
  assert (Abi.pack Abi.BytesTy (Abi.byte_slice id) = Ok (Abi.packBytesSlice id (Abi.zlength id))) as Hp.
  { unfold Abi.pack, Abi.packElement. rewrite Abi.Bytes_byte_slice. done. }
  unfold Abi.Pack. cbn [length Nat.eqb negb zip zip_with Abi.Pack_loop]. rewrite Hp. split; [by apply ext_refl|].
  repeat (apply U256_bytes || (by apply packBytesSlice_bytes) || apply Forall_app_2).
Qed.

Lemma Deposit_Run_ok input c bn (s : StateDB.StateDB) :
  sound s ->
  method_ok s (Deposit.Run input c bn s) \/
  Deposit.Run input c bn s = Err Deposit.errMakeSlice /\ Deposit.maxAlloc < 20 * list_count (Deposit.self c) s.
Proof.
  intros Hs. unfold Deposit.Run. destruct (_ <? _); [by left|]. set (args := drop 4 input).
  case_bool_decide; [left; by apply deposit_ok|]. case_bool_decide; [left; by apply deposit_ok|].
  case_bool_decide; [left; by apply withdraw_ok|]. case_bool_decide; [left; by apply refund_ok|].
  case_bool_decide; [by apply getDepositList_ok|]. left. case_bool_decide; [by apply getDepositInfo_ok|done].
Qed.

(** The deposit contract panics only where its list of depositors is longer than a
    slice can be. *)
Lemma MatrixDeposit_runs input c s :
  sound s ->
  (exists s' ret err, MatrixDeposit_Run input c env s = Ok (s', ret, err) /\ ext s s' /\ Forall byte ret) \/
  MatrixDeposit_Run input c env s = Err Panic /\ Deposit.maxAlloc < 20 * list_count (self c) s.
Proof.
  intros Hs. unfold MatrixDeposit_Run. pose proof (ext_refl s Hs).
  destruct (Deposit_Run_ok input (deposit_contract (CallerAddress c) (self c) (value c) (Gas c)) (BlockNumber env) s Hs)
    as [Hr|[-> Hr]]; [left|by right].
  destruct (Deposit.Run _ _ _ _) as [[ret s']|e]; [by eexists _, _, _|]. destruct Hr as [Hr1 Hr2].
  destruct e as [| | | |[]| | | |]; first [by destruct Hr1 | by destruct Hr2 | by eexists _, _, _].
Qed.

Lemma always_ok {A} (f : list Z -> res crash A) P input :
  (exists x, f input = Ok x /\ P x) -> exists out, always f input = Ok out /\ forall x, out = Some x -> P x.
Proof. intros (x & E & Hx). unfold always. rewrite E. eexists. split; [done|]. by intros ? [= <-]. Qed.

Lemma bigModExp_price input : 0 <= bigModExp_RequiredGas input.
Proof.
  unfold bigModExp_RequiredGas. destruct (64 <? _); [unfold Word.MaxUint64; lia|apply Uint64_range].
Qed.

(** What the contracts return without an input. *)
Lemma marshal_bytes p : bytes (G1_Marshal p).
Proof. apply short_bytes; [apply G1_Marshal_bytes|]. by rewrite G1_Marshal_length. Qed.
Lemma bn256Add_empty ret : bn256Add_Run [] = Ok (Some ret) -> bytes ret.
Proof.
  unfold bn256Add_Run. repeat (destruct (getData _ _ _); [|done]; destruct (G1_Unmarshal _); [|done]).
  intros [= <-]. apply marshal_bytes.
Qed.
Lemma bn256ScalarMul_empty ret : bn256ScalarMul_Run [] = Ok (Some ret) -> bytes ret.
Proof.
  unfold bn256ScalarMul_Run. destruct (getData _ _ _); [|done]. destruct (G1_Unmarshal _); [|done].
  destruct (getData _ _ _); [|done]. intros [= <-]. apply marshal_bytes.
Qed.
Lemma ripemd160_empty ret : always ripemd160_Run [] = Ok (Some ret) -> bytes ret.
Proof.
  unfold always, ripemd160_Run. destruct (LeftPad_ok (ripemd160_Sum []) 32 (ripemd160_bytes [])) as (d & -> & Hd & Hl);
    [unfold Deposit.maxAlloc; lia|]. intros [= <-]. apply short_bytes; [done|]. rewrite ripemd160_length in Hl. lia.
Qed.

(** Every other contract of the table keeps the interface of the calls. *)
Lemma natives_ok a p :
  PrecompiledContractsByzantium a = Some p -> a <> 10%N -> (a = 5%N -> gas_limit <= modexp_gas) -> native_ok env p.
Proof.
  assert (forall (f : list Z -> option (list Z)) gas,
    (forall i, 0 <= gas i) -> (forall i r, bytes i -> f i = Some r -> Forall byte r) ->
    (forall r, f [] = Some r -> (length r <= 64)%nat) ->
    native_ok env (pure_native gas (fun i => Ok (f i)))) as Hf.
  { intros f gas Hg Hr He. apply pure_ok; [done| |].
    - intros i Hi _. exists (f i). split; [done|]. intros r E. by apply (Hr i).
    - intros r [= E]. apply short_bytes; [by apply (Hr [] r bytes_nil)|by apply He]. }
  destruct a as [|a]; [done|]. cbn. do 4 (try destruct a as [a|a|]); intros [= <-] Ha Hlim.
  - apply pure_ok; [lia|intros i Hi _; by apply bn256ScalarMul_ok|apply bn256ScalarMul_empty].
  - apply pure_ok; [apply bigModExp_price|intros i Hi Hg; apply always_ok, bigModExp_ok; [done|specialize (Hlim eq_refl); lia]|]. intros r [= <-]. apply bytes_nil.
  - apply pure_ok; [apply per_word_nonneg|intros i _ _; apply always_ok, ripemd160_ok|apply ripemd160_empty].
  - done.
  - apply pure_ok; [lia|intros i Hi _; by apply bn256Add_ok|apply bn256Add_empty].
  - apply Hf; [intros; apply u64_range|intros i r _; apply bn256Pairing_ok|]. intros r. unfold bn256Pairing_Run.
    cbn. intros E. apply (inj Some) in E as <-. destruct (PairingCheck [] []); cbn; lia.
  - apply (Hf (fun i => Some i)); [apply per_word_nonneg|intros i r Hi [= <-]; apply Hi|]. intros r [= <-]. cbn. lia.
  - apply (Hf (fun i => Some _)); [apply per_word_nonneg|intros i r _ [= <-]; apply sha256_bytes|].
    intros r [= <-]. rewrite sha256_length. lia.
  - apply pure_ok; [lia|intros i Hi _; by apply always_ok, ecrecover_ok|]. intros r [= <-]. apply bytes_nil.
Qed.

End Laws.

(** An exponent of 2^50 bytes, for which 450359962737036 gas is enough, is longer than any
    slice: with so much gas the contract panics. *)
Lemma bigModExp_panics :
  let input := Rlp.be_bytes 32 0 ++ Rlp.be_bytes 32 (2 ^ 50) ++ Rlp.be_bytes 32 1 in
  bigModExp_RequiredGas input = 450359962737036 /\ bigModExp_Run input = Err Panic.
Proof. by vm_compute. Qed.

Lemma bigModExp_correct_witness :
  bigModExp_Run (modexp_input 1 1 2 3 5 1000) = Ok [0; 243].
Proof. apply (bigModExp_correct 1 1 2 3 5 1000); cbn; lia. Defined.

End Natives.
