(* ===== verification/EvmGuard.v ===== *)
(** * Machines with other precompiled contracts

    A machine is compared with one whose precompiled contracts do the same but for
    some ends: it ends so, or does exactly what the other machine does.  EvmRun.v uses
    it for the deposit contract, the only one of the table that can panic, which is
    compared with a contract that returns an error instead ([guard]), and the only one
    that writes, which is compared with one that does not ([watched], [muted]). *)

From S2P Require Import Prelude Common Rlp Crypto Types RlpDecode Abi Deposit StateDB Snapshot StateRoot StateRun EvmWord EvmMachine EvmAnalysis EvmState Evm EvmFrame EvmSteps EvmTotal EvmNatives.

Module Guard.
Import Snapshot StateRun Machine EvmState Evm EvmFrame EvmSteps EvmTotal Natives.

Definition guarded `{Tries} (p : PrecompiledContract) : PrecompiledContract :=
  mkPrecompiled (RequiredGas p) (fun input c env s =>
    match native_Run p input c env s with
    | Err Panic => Ok (s, [], Some errPrecompiled)
    | r => r
    end).

Definition guard `{Tries} (precompiles : Address -> option PrecompiledContract) (a : Address) : option PrecompiledContract :=
  guarded <$> precompiles a.

(** The same unless the first ends badly. *)
Definition upto (bad : crash -> Prop) {A} (x y : res crash A) : Prop := (exists c, bad c /\ x = Err c) \/ x = y.

Lemma upto_refl bad {A} (x : res crash A) : upto bad x x.
Proof. by right. Qed.

Lemma upto_bad (bad : crash -> Prop) {A} c (y : res crash A) : bad c -> upto bad (Err c) y.
Proof. left. by exists c. Qed.

Lemma upto_bind bad {A B} (x y : res crash A) (f g : A -> res crash B) :
  upto bad x y -> (forall a, upto bad (f a) (g a)) ->
  upto bad (match x with Ok a => f a | Err e => Err e end) (match y with Ok a => g a | Err e => Err e end).
Proof. intros [(c & Hc & ->) | ->] Hf; [by apply upto_bad|]. destruct y; [apply Hf|by right]. Qed.

(** A result is not a bad end. *)
Lemma upto_Ok bad {A} (x y : res crash A) r : upto bad x y -> x = Ok r -> y = Ok r.
Proof. intros [(c & _ & ->)|E] Ex; congruence. Qed.

Definition alike `{Tries} (bad : crash -> Prop) (p p' : PrecompiledContract) : Prop :=
  RequiredGas p = RequiredGas p' /\
  forall input c env s, upto bad (native_Run p input c env s) (native_Run p' input c env s).

(** Two tables with the same addresses. *)
Definition tables_alike `{Tries} (bad : crash -> Prop) (t t' : Address -> option PrecompiledContract) : Prop :=
  forall a, option_Forall2 (alike bad) (t a) (t' a).

Section Simulation.
Context `{Crypto} `{Tries} (env : Env) (bad : crash -> Prop) (precompiles precompiles' : Address -> option PrecompiledContract).
Context (Hpre : tables_alike bad precompiles precompiles').
Context (lp lp' : frame -> res crash outcome) (Hlp : forall f, upto bad (lp f) (lp' f)).

Lemma alike_none a : bool_decide (precompiles' a = None) = bool_decide (precompiles a = None).
Proof. apply bool_decide_ext. by destruct (Hpre a). Qed.

Lemma RunPrecompiled_upto p p' input c e :
  alike bad p p' -> upto bad (RunPrecompiledContract env p input c e) (RunPrecompiledContract env p' input c e).
Proof.
  intros [Hg Hr]. unfold RunPrecompiledContract. rewrite Hg. destruct (UseGas _ c) as [c'|]; [|apply upto_refl].
  apply upto_bind; [apply Hr|]. intros. apply upto_refl.
Qed.

Lemma run_upto c input e : upto bad (run env precompiles lp c input e) (run env precompiles' lp' c input e).
Proof.
  unfold run. destruct (CodeAddr c) as [a|]; cbn [mbind option_bind];
    [destruct (Hpre a) as [p p' Hp|]; [by apply RunPrecompiled_upto|]|];
    unfold Run; apply upto_bind; try (intros; apply upto_refl); destruct (Code c); auto using upto_refl.
Qed.

Lemma settled_upto c input e snapshot :
  upto bad (let? r := run env precompiles lp c input e in settle snapshot r)
       (let? r := run env precompiles' lp' c input e in settle snapshot r).
Proof. apply upto_bind; [apply run_upto|]. intros. apply upto_refl. Qed.

(** The two sides take the same way up to a run of the called code. *)
Ltac alike := repeat first [apply upto_refl | apply settled_upto | case_match].

Lemma Call_upto caller addr input gas v e :
  upto bad (Call env precompiles lp caller addr input gas v e) (Call env precompiles' lp' caller addr input gas v e).
Proof. unfold Call. rewrite alike_none. alike. Qed.

Lemma CallCode_upto caller addr input gas v e :
  upto bad (CallCode env precompiles lp caller addr input gas v e) (CallCode env precompiles' lp' caller addr input gas v e).
Proof. unfold CallCode. alike. Qed.

Lemma DelegateCall_upto caller addr input gas e :
  upto bad (DelegateCall env precompiles lp caller addr input gas e) (DelegateCall env precompiles' lp' caller addr input gas e).
Proof. unfold DelegateCall. alike. Qed.

Lemma StaticCall_upto caller addr input gas e :
  upto bad (StaticCall env precompiles lp caller addr input gas e) (StaticCall env precompiles' lp' caller addr input gas e).
Proof.
  unfold StaticCall. do 2 (case_match; [apply upto_refl|]). destruct (ask _ _). destruct (NewContract _ _ _ _ _).
  destruct (load_code _ _ _). apply upto_bind; [apply run_upto|]. intros. apply upto_refl.
Qed.

Lemma Create_upto caller code gas v e :
  upto bad (Create env precompiles lp caller code gas v e) (Create env precompiles' lp' caller code gas v e).
Proof.
  unfold Create. case_match; [apply upto_refl|]. destruct (ask _ _). case_match; [apply upto_refl|].
  do 3 (destruct (ask _ _)). case_match; [apply upto_refl|]. destruct (ask _ _). destruct (NewContract _ _ _ _ _).
  case_match; [apply upto_refl|]. apply upto_bind; [apply run_upto|]. intros. apply upto_refl.
Qed.

(** Instructions, rounds and the loop. *)

Lemma opCreate_upto f : upto bad (opCreate env precompiles lp f) (opCreate env precompiles' lp' f).
Proof.
  unfold opCreate. destruct (stack f) as [|? [|? [|? ?]]]; try apply upto_refl.
  destruct (Get _ _ _); [|apply upto_refl]. apply upto_bind; [apply Create_upto|]. intros. apply upto_refl.
Qed.

Ltac instruction lem :=
  (destruct (Get _ _ _); [|apply upto_refl]); apply upto_bind; [apply lem|]; intros; apply upto_refl.

Lemma execute_upto op f : upto bad (execute env precompiles lp op f) (execute env precompiles' lp' op f).
Proof.
  destruct op; try apply upto_refl; cbn [execute].
  - apply opCreate_upto.
  - unfold opCall. destruct (stack f) as [|? [|? [|? [|? [|? [|? [|? ?]]]]]]]; try apply upto_refl. instruction Call_upto.
  - unfold opCallCode. destruct (stack f) as [|? [|? [|? [|? [|? [|? [|? ?]]]]]]]; try apply upto_refl.
    instruction CallCode_upto.
  - unfold opDelegateCall. destruct (stack f) as [|? [|? [|? [|? [|? [|? ?]]]]]]; try apply upto_refl.
    instruction DelegateCall_upto.
  - unfold opStaticCall. destruct (stack f) as [|? [|? [|? [|? [|? [|? ?]]]]]]; try apply upto_refl.
    instruction StaticCall_upto.
Qed.

Lemma step_upto f : upto bad (step env precompiles lp f) (step env precompiles' lp' f).
Proof.
  unfold step. destruct (decode _ _) as [op|]; [|apply upto_refl]. destruct (validateStack _ _); [apply upto_refl|].
  destruct (enforceRestrictions _ _ _) as [[w|]|]; try apply upto_refl.
  destruct (required_memory _ _) as [[size|]|]; try apply upto_refl.
  destruct (gasCost _ _ _ _ _ _ _) as [[[e m] cost]|]; [|apply upto_refl].
  destruct (cost ≫= _); [|apply upto_refl]. apply upto_bind; [apply execute_upto|]. intros. apply upto_refl.
Qed.

End Simulation.

Section Loop.
Context `{Crypto} `{Tries} (env : Env) (bad : crash -> Prop) (precompiles precompiles' : Address -> option PrecompiledContract).
Context (Hpre : tables_alike bad precompiles precompiles').

Lemma loop_upto fuel f : upto bad (loop env precompiles fuel f) (loop env precompiles' fuel f).
Proof.
  revert f. induction fuel as [|fuel IH]; intros f; [apply upto_refl|]. cbn [loop].
  apply upto_bind; [by apply step_upto|]. intros [o|f']; [apply upto_refl|apply IH].
Qed.

End Loop.

(** ** The table of the node *)

Lemma guard_alike `{Tries} t : tables_alike (eq Panic) t (guard t).
Proof.
  intros a. unfold guard. destruct (t a) as [p|]; constructor. split; [done|]. intros input c env s.
  cbn [guarded native_Run]. destruct (native_Run p input c env s) as [x|[]]; first [by apply upto_refl|by apply upto_bad].
Qed.

(** The input names a method of the deposit contract that writes. *)
Definition writing `{Crypto} (input : list Z) : bool :=
  bool_decide (take 4 input ∈ Deposit.method_id <$>
    [Deposit.sig_valiDeposit; Deposit.sig_minerDeposit; Deposit.sig_withdraw; Deposit.sig_refund]).

(** [stop] instead of a method that writes. *)
Definition on_write `{Crypto} `{Tries} (stop : StateDB.StateDB -> res crash (StateDB.StateDB * list Z * option error))
    (p : PrecompiledContract) : PrecompiledContract :=
  mkPrecompiled (RequiredGas p) (fun input c env s => if writing input then stop s else native_Run p input c env s).

Definition at_deposit `{Tries} (f : PrecompiledContract -> PrecompiledContract)
    (t : Address -> option PrecompiledContract) (a : Address) : option PrecompiledContract :=
  if decide (a = Deposit.depositAddress) then f <$> t a else t a.

(** The table with a deposit contract that ends the run where it would write, and with
    one that fails there. *)
Definition watched `{Crypto} `{Tries} : (Address -> option PrecompiledContract) -> Address -> option PrecompiledContract :=
  at_deposit (on_write (fun _ => Err Stopped)).
Definition muted `{Crypto} `{Tries} (t : Address -> option PrecompiledContract) : Address -> option PrecompiledContract :=
  guard (at_deposit (on_write (fun s => Ok (s, [], Some errPrecompiled))) t).

Lemma watched_alike `{Crypto} `{Tries} t : tables_alike (eq Stopped) (watched t) t.
Proof.
  intros a. unfold watched, at_deposit. case_decide; destruct (t a) as [p|]; constructor; (split; [done|]); intros;
    [|apply upto_refl]. cbn. destruct (writing _); [by apply upto_bad|apply upto_refl].
Qed.

Lemma watched_muted `{Crypto} `{Tries} t : tables_alike (fun c => c = Panic \/ c = Stopped) (watched t) (muted t).
Proof.
  intros a. unfold watched, muted, guard, at_deposit. case_decide; destruct (t a) as [p|]; constructor;
    (split; [done|]); intros; cbn [guarded on_write native_Run]; [destruct (writing _); [apply upto_bad; by right|]|];
    destruct (native_Run p _ _ _ _) as [x|[]]; first [by apply upto_refl|apply upto_bad; by left].
Qed.

Section Node.
Context `{Crypto} `{TrieLaws} {GL : GasLimit} `{!Natives} `{!NativeLaws} (env : Env).

Lemma guarded_ok p : native_ok env p -> native_ok env (guarded p).
Proof.
  intros [Hg Hr He]. split; [done| |].
  - intros input c s Hs Hi Hm Hv. destruct (Hr input c s Hs Hi Hm Hv) as (s' & ret & err & E & ?).
    exists s', ret, err. cbn [guarded native_Run]. by rewrite E.
  - intros c s s' ret err. cbn [guarded native_Run]. destruct (native_Run p [] c env s) as [x|[]] eqn:E; try done.
    + intros [= ->]. by eapply He.
    + intros [= _ <- _]. apply bytes_nil.
Qed.

Lemma deposit_price input : 0 <= Deposit.RequiredGas input.
Proof. unfold Deposit.RequiredGas. case_match; lia. Qed.

Lemma guarded_deposit_ok : native_ok env (guarded (mkPrecompiled Deposit.RequiredGas MatrixDeposit_Run)).
Proof.
  split; [apply deposit_price| |].
  - intros input c s Hs _ _ _. cbn [guarded native_Run].
    destruct (MatrixDeposit_runs env input c s Hs) as [(s' & ret & err & -> & Hx)|[-> _]]; [by exists s', ret, err|].
    eexists _, _, _. split; [done|]. split; [by apply ext_refl|constructor].
  - intros c s s' ret err [= _ <- _]. apply bytes_nil.
Qed.

(** The modular power, with gas for operands that are too long. *)
Lemma guarded_modexp_ok : native_ok env (guarded (pure_native bigModExp_RequiredGas (always bigModExp_Run))).
Proof.
  split; [apply bigModExp_price| |].
  - intros input c s Hs Hi _ _. cbn [guarded pure_native native_Run]. pose proof (ext_refl s Hs).
    unfold always. destruct (bigModExp_ends input Hi) as [->|(d & -> & Hd)]; by eexists _, _, _.
  - intros c s s' ret err [= _ <- _]. apply bytes_nil.
Qed.

Lemma guarded_natives_ok a p : guard PrecompiledContractsByzantium a = Some p -> native_ok env p.
Proof.
  unfold guard. destruct (PrecompiledContractsByzantium a) as [q|] eqn:E; [|done]. intros [= <-].
  destruct (decide (a = 10%N)) as [->|Ha]; [injection E as <-; apply guarded_deposit_ok|].
  destruct (decide (a = 5%N)) as [->|Ha5]; [injection E as <-; apply guarded_modexp_ok|].
  by eapply guarded_ok, natives_ok.
Qed.

(** A contract that fails instead of writing. *)
Lemma muted_ok p : native_ok env (guarded p) -> native_ok env (guarded (on_write (fun s => Ok (s, [], Some errPrecompiled)) p)).
Proof.
  intros [Hg Hr He]. split; [done| |].
  - intros input c s Hs Hi Hm Hv. cbn [guarded on_write native_Run]. destruct (writing input); [|by apply Hr].
    eexists _, _, _. split; [done|]. split; [by apply ext_refl|constructor].
  - intros c s s' ret err. cbn [guarded on_write native_Run]. destruct (writing []); [|apply He].
    intros [= _ <- _]. apply bytes_nil.
Qed.

Lemma muted_natives_ok a p : muted PrecompiledContractsByzantium a = Some p -> native_ok env p.
Proof.
  unfold muted, guard, at_deposit. pose proof (guarded_natives_ok a) as Ha. unfold guard in Ha.
  case_decide; [|apply Ha]. destruct (PrecompiledContractsByzantium a) as [q|]; [|done].
  intros [= <-]. by apply muted_ok, Ha.
Qed.

(** Every contract but the deposit contract leaves the database alone, and the deposit
    contract does where its method only reads. *)
Lemma natives_pure a p input c s s' ret err :
  PrecompiledContractsByzantium a = Some p -> a <> 10%N -> native_Run p input c env s = Ok (s', ret, err) -> s' = s.
Proof.
  assert (forall gas run, native_Run (pure_native gas run) input c env s = Ok (s', ret, err) -> s' = s) as Hp.
  { intros gas run. cbn. destruct (run input) as [[?|]|]; [..|done]; by intros [= <- _ _]. }
  destruct a as [|a]; [done|]. cbn. do 4 (try destruct a as [a|a|]); intros [= <-] Ha; try done; apply Hp.
Qed.

Lemma deposit_reads input c s s' ret err :
  writing input = false -> MatrixDeposit_Run input c env s = Ok (s', ret, err) -> s' = s.
Proof.
  intros Hw%bool_decide_eq_false. set_unfold in Hw. unfold MatrixDeposit_Run, Deposit.Run.
  destruct (_ <? _); [by intros [= <- _ _]|].
  do 4 (rewrite bool_decide_false by (intros E; apply Hw; rewrite E; eauto 8)).
  case_bool_decide; [|case_bool_decide].
  - destruct (Deposit.getDepositList _ _) as [?|[| | | |[]| | | |]]; intros E; simplify_eq; done.
  - destruct (Deposit.getDepositInfo _ _ _) as [?|[| | | |[]| | | |]]; intros E; simplify_eq; done.
  - by intros [= <- _ _].
Qed.

Lemma muted_static : natives_static env (muted PrecompiledContractsByzantium).
Proof.
  intros a p input c s s' ret err. unfold muted, guard, at_deposit.
  destruct (decide (a = Deposit.depositAddress)) as [->|Ha].
  - intros [= <-] _. cbn [guarded on_write native_Run]. destruct (writing input) eqn:Ew; [by intros [= <- _ _]|].
    destruct (MatrixDeposit_Run input c env s) as [x|[]] eqn:E; [intros [= ->]|intros [= <- _ _]; done|done..].
    by apply deposit_reads in E as ->.
  - destruct (PrecompiledContractsByzantium a) as [q|] eqn:Eq; [|done]. intros [= <-] _. cbn [guarded native_Run].
    destruct (native_Run q input c env s) as [x|[]] eqn:E; [intros [= ->]|intros [= <- _ _]; done|done..].
    by eapply natives_pure in E as ->.
Qed.

End Node.
End Guard.
