(* ===== verification/EvmRun.v ===== *)
(** * Calls of the virtual machine

    What the four calls of core/vm/evm.go and the creation of a contract promise to
    their callers, for the node's table of precompiled contracts: they return, unless
    the deposit contract panics or the hashes of two codes collide, they leave nothing
    behind when they fail, they take the gas they may take, and a static call writes
    nothing unless it reaches a method of the deposit contract that does.  At the end,
    runs that show what is not kept. *)

From S2P Require Import Prelude Common Rlp Crypto Types RlpDecode Abi Deposit StateDB Snapshot StateRoot StateRun EvmWord EvmMachine EvmAnalysis EvmState Evm EvmFrame EvmSteps EvmTotal EvmNatives EvmGuard.

Module EvmRun.
Import Snapshot StateRun Machine EvmAnalysis EvmState Evm EvmFrame EvmSteps EvmTotal Natives Guard.

(** ** The calls *)

Inductive kind := KCall | KCallCode | KDelegateCall | KStaticCall.

Section Calls.
Context `{Crypto} `{Tries} (env : Env) (precompiles : Address -> option PrecompiledContract) (fuel : nat).

(** A call of each kind; only the first two take a value. *)
Definition call (k : kind) (caller : ContractRef) (addr : Address) (input : list Z) (gas v : Z) (e : evm)
    : res crash outcome :=
  match k with
  | KCall => Call env precompiles (loop env precompiles fuel) caller addr input gas v e
  | KCallCode => CallCode env precompiles (loop env precompiles fuel) caller addr input gas v e
  | KDelegateCall => DelegateCall env precompiles (loop env precompiles fuel) caller addr input gas e
  | KStaticCall => StaticCall env precompiles (loop env precompiles fuel) caller addr input gas e
  end.
End Calls.

(** What a caller provides: data that fits in a memory, an amount of gas, a value,
    which is zero in a static context; only a contract can delegate. *)
Record call_input `{Tries} (k : kind) (caller : ContractRef) (input : list Z) (gas v : Z) (e : evm) : Prop := {
  in_data : bytes input;
  in_gas : 0 <= gas <= max_gas;
  in_value : 0 <= v;
  in_static : readOnly e = true -> v = 0;
  in_caller : k = KDelegateCall -> exists parent, caller = ContractOf parent /\ 0 <= Machine.value parent
}.

(** Two databases that read the same. *)
Definition unchanged `{Crypto} `{Tries} (s s' : StateDB.StateDB) : Prop :=
  (forall a k, reads a k s' = reads a k s) /\ StateDB.GetRefund s' = StateDB.GetRefund s /\
  StateDB.logs s' = StateDB.logs s /\ StateDB.logSize s' = StateDB.logSize s /\ StateDB.preimages s' = StateDB.preimages s.

Lemma same_unchanged `{Crypto} `{TrieLaws} s s' : same (view_of s') (view_of s) -> unchanged s s'.
Proof.
  intros Hs. split; [|by destruct Hs as (_ & _ & ? & ? & ? & ?)]. intros a k. rewrite !reads_eq. by apply readers_same.
Qed.

(** What an account has, apart from its nonce. *)
Definition worth `{Crypto} `{Tries} (a : Address) (k : Hash) (s : StateDB.StateDB) :=
  ((StateDB.GetBalance a s).2, (StateDB.GetCode a s).2, (StateDB.GetState a k s).2, (StateDB.HasSuicided a s).2).



(** The same in terms of the view. *)
Definition worth_view (a : Address) (k : Hash) (V : view) :=
  match v_acc V a with
  | Some x => (ac_Balance x, ac_code x, v_sto V a k, ac_suicided x)
  | None => (0, [], 0%N, false)
  end.
Lemma worth_eq `{Crypto} `{TrieLaws} a k s : worth a k s = worth_view a k (view_of s).
Proof.
  pose proof (reads_eq a k s) as Hr. unfold reads, reads_view, worth, worth_view in *.
  destruct (v_acc (view_of s) a); congruence.
Qed.
Lemma nonce_eq `{Crypto} `{TrieLaws} a s :
  (StateDB.GetNonce a s).2 = match v_acc (view_of s) a with Some x => ac_Nonce x | None => StateDB.NonceAddOne end.
Proof. pose proof (reads_eq a 0%N s) as Hr. unfold reads, reads_view in Hr. destruct (v_acc (view_of s) a); congruence. Qed.

Lemma absent_slot `{Crypto} `{TrieLaws} a k s : v_acc (view_of s) a = None -> v_sto (view_of s) a k = 0%N.
Proof. simpl. by destruct (obj_at s a). Qed.


Section General.
Context `{Crypto} `{TrieLaws} {GL : GasLimit} (env : Env) (precompiles : Address -> option PrecompiledContract).
Context (Has : assumptions env precompiles).

Lemma call_ok fuel k caller addr input gas v e :
  evm_ok e -> call_input k caller input gas v e -> gas <= gas_limit -> gas < Z.of_nat fuel ->
  call_spec env precompiles e gas (call env precompiles fuel k caller addr input gas v e).
Proof.
  intros He [Hi [Hg _] Hv Hro Hc] Hlim Hn. pose proof (loop_ok env precompiles Has fuel) as Hlp. destruct k; cbn [call].
  - apply (Call_ok env precompiles Has (Z.of_nat fuel)); try done. intros (_ & _ & Hr). by apply Hro.
  - by apply (CallCode_ok env precompiles Has (Z.of_nat fuel)).
  - destruct (Hc eq_refl) as (parent & -> & Hp). by apply (DelegateCall_ok env precompiles Has (Z.of_nat fuel)).
  - eapply or_stale_mono; [|by apply (StaticCall_ok env precompiles Has (Z.of_nat fuel) _ Hlp)]. by intros r [? _].
Qed.

End General.

(** ** The machine of the node *)

Section Node.
Context `{Crypto} `{TrieLaws} `{!Natives} `{!NativeLaws} (env : Env).
Context (Hprice : 0 <= GasPrice env).

(** All gas that a call may have, and what keeps the operands of the modular power short. *)
Definition all_gas : GasLimit := Build_GasLimit max_gas (Z.le_refl _).
Definition short_gas : GasLimit := Build_GasLimit modexp_gas ltac:(by vm_compute).
#[local] Existing Instance all_gas.

(** The contracts of the table apart from the deposit contract. *)
Definition standard (a : Address) : option PrecompiledContract :=
  if decide (a = 10%N) then None else PrecompiledContractsByzantium a.

Lemma standard_assumptions : assumptions (GL := short_gas) env standard.
Proof. unfold standard. split; [|done]. intros a p. case_decide; [done|]. intros E. by apply (natives_ok env a p). Qed.

Lemma node_assumptions : assumptions env (guard PrecompiledContractsByzantium).
Proof. split; [apply guarded_natives_ok|done]. Qed.

Lemma muted_assumptions : assumptions env (muted PrecompiledContractsByzantium).
Proof. split; [apply muted_natives_ok|done]. Qed.

Lemma call_upto bad t t' fuel k caller addr input gas v e :
  tables_alike bad t t' ->
  upto bad (call env t fuel k caller addr input gas v e) (call env t' fuel k caller addr input gas v e).
Proof.
  intros Ht. pose proof (loop_upto env bad t t' Ht fuel).
  destruct k; [by apply Call_upto|by apply CallCode_upto|by apply DelegateCall_upto|by apply StaticCall_upto].
Qed.

(** A call that returned kept its promises. *)
Lemma node_call fuel k caller addr input gas v e r :
  evm_ok e -> call_input k caller input gas v e -> gas < Z.of_nat fuel ->
  call env PrecompiledContractsByzantium fuel k caller addr input gas v e = Ok r ->
  outcome_ok env (guard PrecompiledContractsByzantium) e gas r /\ undone e r /\ spent r.
Proof.
  intros He Hin Hn E.
  pose proof (upto_Ok _ _ _ _ (call_upto _ _ _ fuel k caller addr input gas v e (guard_alike _)) E) as E'.
  destruct (call_ok env _ node_assumptions fuel k caller addr input gas v e He Hin (proj2 (in_gas _ _ _ _ _ _ Hin)) Hn)
    as [Es|(r' & Er & Hr)];
    rewrite E' in *; [done|by injection Er as <-].
Qed.

(** The call returns, with the machine in order and no more gas than it got. *)
Definition returned (e : evm) (gas : Z) (x : res crash outcome) : Prop :=
  exists e' ret rest err, x = Ok (e', ret, rest, err) /\
    evm_ok e' /\ depth e' = depth e /\ readOnly e' = readOnly e /\ 0 <= rest <= gas.

Lemma spec_returned precompiles e gas x : call_spec env precompiles e gas x -> x = Err StaleBitmap \/ returned e gas x.
Proof.
  intros [->|([[[e' ret] rest] err] & -> & (Hm & _ & Hl) & _)]; [by left|right]. exists e', ret, rest, err. by destruct Hm.
Qed.

(** C7: with more fuel than gas every call of every kind, nested calls included, returns
    or panics, and returns with the machine in order, the call depth as it was, and between
    none and all of its gas: it does not run out of fuel.  Without the deposit contract and
    with at most 2^46 gas, too little for an operand of the modular power that is longer
    than any slice, it can panic in one place only: where a jump finds, under the hash of
    its code, the bit vector of another code with the same hash. *)
Theorem calls_return fuel k caller addr input gas v e :
  evm_ok e -> call_input k caller input gas v e -> gas < Z.of_nat fuel ->
  (call env PrecompiledContractsByzantium fuel k caller addr input gas v e ∈ [Err Panic; Err StaleBitmap] \/
   returned e gas (call env PrecompiledContractsByzantium fuel k caller addr input gas v e)) /\
  (gas <= modexp_gas ->
   call env standard fuel k caller addr input gas v e = Err StaleBitmap \/
   returned e gas (call env standard fuel k caller addr input gas v e)).
Proof.
  intros He Hin Hn. split; [|intros Hg; by eapply spec_returned, (call_ok (GL := short_gas)); [apply standard_assumptions|..]].
  pose proof (proj2 (in_gas _ _ _ _ _ _ Hin)) as Hg.
  destruct (call_upto _ _ _ fuel k caller addr input gas v e (guard_alike PrecompiledContractsByzantium))
    as [(c & <- & ->)|E]; [left; apply list_elem_of_here|]. rewrite E.
  destruct (spec_returned _ e gas _ (call_ok env _ node_assumptions fuel k caller addr input gas v e He Hin Hg Hn)) as [->|Hr];
    [left; apply list_elem_of_further, list_elem_of_here|by right].
Qed.

(** C6: a call that ends with an error leaves no trace: every account and storage
    slot, the refund, the logs and the preimages read as before, whatever the called code
    and the calls that it made did. *)
Theorem failed_call_undone fuel k caller addr input gas v e e' ret rest x :
  evm_ok e -> call_input k caller input gas v e -> gas < Z.of_nat fuel ->
  call env PrecompiledContractsByzantium fuel k caller addr input gas v e = Ok (e', ret, rest, Some x) ->
  unchanged (db e) (db e').
Proof.
  intros He Hin Hn E. destruct (node_call fuel k caller addr input gas v e _ He Hin Hn E) as (_ & Hu & _).
  by apply same_unchanged, Hu.
Qed.

(** C36: a call that ends with an error has used up its gas, unless it did not start
    because of the depth or the balance or the code reverted. *)
Theorem failed_call_takes_gas fuel k caller addr input gas v e e' ret rest x :
  evm_ok e -> call_input k caller input gas v e -> gas < Z.of_nat fuel ->
  call env PrecompiledContractsByzantium fuel k caller addr input gas v e = Ok (e', ret, rest, Some x) ->
  rest = 0 \/ x ∈ [ErrDepth; ErrInsufficientBalance; errExecutionReverted].
Proof.
  intros He Hin Hn E. destruct (node_call fuel k caller addr input gas v e _ He Hin Hn E) as (_ & _ & Hs).
  cbn in Hs. set_unfold. destruct x; tauto.
Qed.


(** ** Static calls *)

(** C12: under the Byzantium rules a static call, and every call that it leads to,
    changes no balance, nonce, code, storage slot, suicide mark, refund or log, if it does
    not reach the deposit contract with a method that writes.  That it does not is a
    property of the run: the same call on the machine whose deposit contract ends the run
    at such a method is not ended so. *)
Theorem static_call_writes_nothing fuel caller addr input gas e e' ret rest err :
  IsByzantium env = true -> evm_ok e -> bytes input -> 0 <= gas <= max_gas -> gas < Z.of_nat fuel ->
  call env (watched PrecompiledContractsByzantium) fuel KStaticCall caller addr input gas 0 e <> Err Stopped ->
  call env PrecompiledContractsByzantium fuel KStaticCall caller addr input gas 0 e = Ok (e', ret, rest, err) ->
  (forall a k, worth a k (db e') = worth a k (db e) /\ (StateDB.GetNonce a (db e')).2 = (StateDB.GetNonce a (db e)).2) /\
  StateDB.GetRefund (db e') = StateDB.GetRefund (db e) /\ StateDB.logs (db e') = StateDB.logs (db e).
Proof.
  intros Hbyz He Hi Hg Hn Hw E.
  destruct (call_upto _ _ _ fuel KStaticCall caller addr input gas 0 e (watched_alike PrecompiledContractsByzantium))
    as [(c & <- & ?)|Ew]; [done|]. rewrite E in Ew.
  pose proof (upto_Ok _ _ _ _ (call_upto _ _ _ fuel KStaticCall caller addr input gas 0 e (watched_muted _)) Ew) as Em.
  destruct (StaticCall_ok env _ muted_assumptions (Z.of_nat fuel) _ (loop_ok env _ muted_assumptions fuel) caller addr input gas e)
    as [Es|(r & Er & _ & Hst)]; [done..| |]; cbn [call] in Em; rewrite Em in *; [done|]. injection Er as <-.
  specialize (Hst (muted_static env) Hbyz). cbn [fst] in Hst. destruct Hst as (A & S & R & L & _). split; [|done].
  intros a k. rewrite !worth_eq, !nonce_eq.
  unfold worth_view. rewrite S. destruct (A a) as [-> |[E1 ->]]; [done|]. rewrite E1, absent_slot by done. done.
Qed.

End Node.

(** ** A machine to run *)

(** A hash of 256 bits to run with. *)
Definition toy_hash (l : list Z) : Hash := (11 + 2 ^ 160 * (Z.to_N (RlpDecode.be (1%Z :: l)) mod 2 ^ 96))%N.

#[local] Instance toy_crypto : Crypto := {|
  seckey := unit;
  Keccak256 := toy_hash;
  Ecrecover _ _ := None;
  secp256k1_Sign _ _ := None
|}.
#[local] Existing Instance map_tries.
#[local] Existing Instance map_trie_laws.
#[local] Instance no_natives : Natives := {|
  sha256_Sum256 _ := replicate 32 0;
  ripemd160_Sum _ := replicate 20 0;
  G1 := unit;
  G2 := unit;
  G1_Unmarshal _ := None;
  G2_Unmarshal _ := None;
  G1_Add _ _ := tt;
  G1_ScalarMult _ _ := tt;
  G1_Marshal _ := replicate 64 0;
  PairingCheck _ _ := true
|}.
#[local] Instance no_native_laws : NativeLaws.
Proof. split; try done; intros; apply Forall_replicate; unfold byte; lia. Qed.

Definition env0 : Env :=
  mkEnv (fun _ => 0%N) 7%N 1 9%N 8000000 100 1500000000 1 true true true true false false false.

(** Account 100 writes, calls account 101 with a value, and then stops or fails;
    account 101 logs and writes. *)
Definition calling : list Z :=
  [0x60; 5; 0x60; 1; 0x55; 0x60; 0; 0x60; 0; 0x60; 0; 0x60; 0; 0x60; 3; 0x60; 101; 0x61; 0x61; 0xA8; 0xF1].
Definition called : list Z := [0x60; 0; 0x60; 0; 0xA0; 0x60; 7; 0x60; 2; 0x55; 0].

Definition db0 (last : Z) : StateDB.StateDB :=
  StateDB.SetCode 101%N called
    (StateDB.SetCode 100%N (calling ++ [last]) (StateDB.AddBalance 7%N 1000 (StateDB.New ∅))).

Lemma sound_empty : sound (StateDB.New (∅ : StateDB.trie)).
Proof.
  split; [apply good_New|]. intros a x. cbn. unfold obj_at, StateDB.load. cbn. by rewrite lookup_empty.
Qed.

Lemma bytesb l : forallb (fun b => (0 <=? b) && (b <? 256)) l = true -> Z.of_nat (length l) <= max_len -> bytes l.
Proof.
  intros Hb Hl. split; [|done]. apply Forall_forall. intros b Hin. apply list_elem_of_In in Hin.
  rewrite forallb_forall in Hb. specialize (Hb b Hin). unfold byte. lia.
Qed.

Lemma db0_sound last : 0 <= last < 256 -> sound (db0 last).
Proof.
  intros Hl. assert (sound (StateDB.AddBalance 7%N 1000 (StateDB.New (∅ : StateDB.trie)))) as H1
    by (apply ext_AddBalance; [apply sound_empty|lia]).
  apply ext_SetCode; [|by apply bytesb]. apply ext_SetCode; [done|].
  split; [|unfold max_len; simpl; lia]. apply Forall_app_2; [|by apply Forall_singleton].
  apply (bytesb calling); by vm_compute.
Qed.

Lemma db0_ok last : 0 <= last < 256 -> evm_ok (NewEVM (db0 last)).
Proof. intros Hl. by apply NewEVM_ok, db0_sound. Qed.

Definition gas0 : Z := 100000.
Definition fuel0 : nat := Z.to_nat 100001.

Lemma gas0_range : 0 <= gas0 <= max_gas.
Proof. unfold gas0, max_gas. lia. Qed.

Lemma fuel_enough : gas0 < Z.of_nat fuel0.
Proof. unfold fuel0, gas0. rewrite Z2Nat.id; lia. Qed.

Definition run0 (k : kind) (last : Z) : res crash outcome :=
  call env0 PrecompiledContractsByzantium fuel0 k (AccountRef 7%N) 100%N [] gas0 10 (NewEVM (db0 last)).

Lemma input0 k last : k <> KDelegateCall -> call_input k (AccountRef 7%N) [] gas0 10 (NewEVM (db0 last)).
Proof. intros Hk. split; [apply bytes_nil|unfold gas0, max_gas; lia|lia|done|done]. Qed.

Definition shows (r : res crash outcome) : option (list Z * Z * option error * (N * N * Z * Z * Z)) :=
  match r with
  | Ok (e, ret, rest, err) =>
      Some (ret, rest, err,
        ((StateDB.GetState 100%N 1%N (db e)).2, (StateDB.GetState 101%N 2%N (db e)).2,
         (StateDB.GetBalance 7%N (db e)).2, (StateDB.GetBalance 100%N (db e)).2, (StateDB.GetBalance 101%N (db e)).2))
  | Err _ => None
  end.

(** The first run keeps what it did, the second, which fails after its call, does not. *)
Lemma run0_results :
  shows (run0 KCall 0) = Some ([], 52186, None, (5%N, 7%N, 990, 7, 3)) /\
  shows (run0 KCall 0xFE) = Some ([], 0, Some (errInvalidOpcode 0xFE), (0%N, 0%N, 1000, 0, 0)) /\
  shows (run0 KStaticCall 0) = Some ([], 0, Some errWriteProtection, (0%N, 0%N, 1000, 0, 0)).
Proof. by vm_compute. Qed.

Definition failed (r : res crash outcome) : bool :=
  match r with Ok (_, _, _, Some _) => true | _ => false end.
Lemma failed_run r : failed r = true -> exists e' ret rest x, r = Ok (e', ret, rest, Some x).
Proof. destruct r as [[[[e ret] g] [x|]]|]; try done. intros _. by eexists _, _, _, _. Qed.

Lemma fails_ok : evm_ok (NewEVM (db0 0xFE)).
Proof. by apply db0_ok. Qed.

Lemma run0_fails : failed (run0 KCall 0xFE) = true.
Proof. by vm_compute. Qed.

Lemma calls_return_witness :
  let x := call env0 standard fuel0 KCall (AccountRef 7%N) 100%N [] gas0 10 (NewEVM (db0 0)) in
  (run0 KCall 0 ∈ [Err Panic; Err StaleBitmap] \/ returned (NewEVM (db0 0)) gas0 (run0 KCall 0)) /\
  (gas0 <= modexp_gas -> x = Err StaleBitmap \/ returned (NewEVM (db0 0)) gas0 x).
Proof.
  apply (calls_return env0 ltac:(done) fuel0 KCall (AccountRef 7%N) 100%N [] gas0 10).
  - exact (db0_ok 0 (conj (Z.le_refl 0) eq_refl)).
  - apply input0. discriminate.
  - exact fuel_enough.
Defined.

Lemma failed_call_undone_witness :
  exists e' ret rest x, run0 KCall 0xFE = Ok (e', ret, rest, Some x) /\ unchanged (db0 0xFE) (db e').
Proof.
  destruct (failed_run _ run0_fails) as (e' & ret & rest & x & E). exists e', ret, rest, x. split; [exact E|].
  apply (failed_call_undone env0 ltac:(done) fuel0 KCall (AccountRef 7%N) 100%N [] gas0 10
    (NewEVM (db0 0xFE)) e' ret rest x).
  - exact fails_ok.
  - apply input0. discriminate.
  - exact fuel_enough.
  - exact E.
Defined.

Lemma failed_call_takes_gas_witness :
  exists e' ret rest x, run0 KCall 0xFE = Ok (e', ret, rest, Some x) /\
    (rest = 0 \/ x ∈ [ErrDepth; ErrInsufficientBalance; errExecutionReverted]).
Proof.
  destruct (failed_run _ run0_fails) as (e' & ret & rest & x & E). exists e', ret, rest, x. split; [exact E|].
  apply (failed_call_takes_gas env0 ltac:(done) fuel0 KCall (AccountRef 7%N) 100%N [] gas0 10
    (NewEVM (db0 0xFE)) e' ret rest x).
  - exact fails_ok.
  - apply input0. discriminate.
  - exact fuel_enough.
  - exact E.
Defined.



(** Account 103 calls account 102, which reads. *)
Definition db1 : StateDB.StateDB :=
  StateDB.SetCode 102%N [0x60; 1; 0x54; 0x50; 0]
    (StateDB.SetCode 103%N [0x60; 0; 0x60; 0; 0x60; 0; 0x60; 0; 0x60; 0; 0x60; 102; 0x61; 0x61; 0xA8; 0xF1; 0]
       (StateDB.SetState 102%N 1%N 6%N (StateDB.AddBalance 7%N 1000 (StateDB.New ∅)))).

Lemma db1_sound : sound db1.
Proof.
  assert (sound (StateDB.AddBalance 7%N 1000 (StateDB.New (∅ : StateDB.trie)))) as H1
    by (apply ext_AddBalance; [apply sound_empty|lia]).
  repeat (apply ext_SetCode; [|by apply bytesb]). by apply ext_SetState.
Qed.

Definition static_run (t : Address -> option PrecompiledContract) : res crash outcome :=
  call env0 t fuel0 KStaticCall (AccountRef 7%N) 103%N [] gas0 0 (NewEVM db1).
Definition static0 : res crash outcome := static_run PrecompiledContractsByzantium.
Definition succeeds (r : res crash outcome) : bool :=
  match r with Ok (_, _, _, None) => true | _ => false end.
Lemma succeeds_run r : succeeds r = true -> exists e' ret rest, r = Ok (e', ret, rest, None).
Proof. destruct r as [[[[e ret] g] [x|]]|]; try done. intros _. by eexists _, _, _. Qed.
Lemma static0_succeeds : succeeds static0 = true.
Proof. by vm_compute. Qed.
Lemma watched_succeeds : succeeds (static_run (watched PrecompiledContractsByzantium)) = true.
Proof. by vm_compute. Qed.
Lemma not_stopped r : succeeds r = true -> r <> Err Stopped.
Proof. by intros Hs ->. Qed.

Lemma static_call_writes_nothing_witness :
  exists e' ret rest, static0 = Ok (e', ret, rest, None) /\
    (forall a k, worth a k (db e') = worth a k db1 /\ (StateDB.GetNonce a (db e')).2 = (StateDB.GetNonce a db1).2) /\
    StateDB.GetRefund (db e') = StateDB.GetRefund db1 /\ StateDB.logs (db e') = StateDB.logs db1.
Proof.
  destruct (succeeds_run _ static0_succeeds) as (e' & ret & rest & E). exists e', ret, rest. split; [exact E|].
  apply (static_call_writes_nothing env0 ltac:(done) fuel0 (AccountRef 7%N) 103%N [] gas0 (NewEVM db1) e' ret rest None).
  - reflexivity.
  - exact (NewEVM_ok _ db1_sound).
  - apply bytes_nil.
  - exact gas0_range.
  - exact fuel_enough.
  - exact (not_stopped _ watched_succeeds).
  - exact E.
Defined.

(** ** What the machine does not keep *)

(** The deposit contract writes in a static call: [withdraw] sets the height. *)
Lemma static_call_writes_deposit :
  let db := StateDB.SetState 10%N (Deposit.key 7 Deposit.sD) 5%N (db0 0) in
  let input := Deposit.method_id Deposit.sig_withdraw in
  match call env0 PrecompiledContractsByzantium fuel0 KStaticCall (AccountRef 7%N) 10%N input gas0 0 (NewEVM db) with
  | Ok (e, _, _, err) =>
      Some (err, (StateDB.GetState 10%N (Deposit.key 7 Deposit.sWH) db).2,
            (StateDB.GetState 10%N (Deposit.key 7 Deposit.sWH) (Machine.db e)).2)
  | Err _ => None
  end = Some (None, 0%N, 100%N).
Proof. by vm_compute. Qed.

(** Where the deposit contract is watched, that call is ended. *)
Lemma watched_stops :
  let db := StateDB.SetState 10%N (Deposit.key 7 Deposit.sD) 5%N (db0 0) in
  let input := Deposit.method_id Deposit.sig_withdraw in
  call env0 (watched PrecompiledContractsByzantium) fuel0 KStaticCall (AccountRef 7%N) 10%N input gas0 0 (NewEVM db) = Err Stopped.
Proof. by vm_compute. Qed.

(** The code of account 105 jumps, so that its bit vector is kept, and calls account 106;
    the two codes end with the same twelve bytes and so have the same [toy_hash], and the
    second is longer: its jump reads past the end of the bit vector of the first. *)
Lemma stale_bitmap_panics :
  let jumping := [0x60; 3; 0x56; 0x5b; 0x60; 0; 0x60; 0; 0x60; 0; 0x60; 0; 0x60; 0; 0x60; 106; 0x61; 0x61; 0xA8; 0xF1]
                 ++ replicate 12 0 in
  let longer := [0x60; 80; 0x56] ++ replicate 80 0x5b ++ replicate 12 0 in
  call env0 PrecompiledContractsByzantium fuel0 KCall (AccountRef 7%N) 105%N [] gas0 0
    (NewEVM (StateDB.SetCode 106%N longer (StateDB.SetCode 105%N jumping (db0 0)))) = Err StaleBitmap.
Proof. by vm_compute. Qed.

(** [getDepositList] has a fixed price and visits as many slots as the count in the
    storage of the running contract says, which is the caller's own in [CallCode]. *)
Lemma deposit_list_unmetered :
  let count := 300 in
  let db := StateDB.SetState 100%N (Deposit.key 100 Deposit.sDNUM) (Z.to_N count) (db0 0) in
  let input := Deposit.method_id Deposit.sig_getDepositList in
  match call env0 PrecompiledContractsByzantium fuel0 KCallCode (AccountRef 100%N) 10%N input gas0 0 (NewEVM db) with
  | Ok (_, ret, rest, err) => Some (zlen ret =? 64 + 32 * count, gas0 - rest, err)
  | Err _ => None
  end = Some (true, 40000, None).
Proof. by vm_compute. Qed.

(** A count that no slice can have makes [make] panic.  Account 104 writes such a count
    into its own storage and then asks for the list by [CALLCODE]: the process ends. *)
Definition attack : list Z :=
  [0x67; 0x80; 0; 0; 0; 0; 0; 0; 0] ++ [0x7F] ++ Rlp.be_bytes 32 (Z.of_N (Deposit.key 104 Deposit.sDNUM)) ++ [0x55] ++
  [0x63] ++ Deposit.method_id Deposit.sig_getDepositList ++ [0x60; 0; 0x52] ++
  [0x60; 0; 0x60; 0; 0x60; 4; 0x60; 28; 0x60; 0; 0x60; 10; 0x61; 0xC3; 0x50; 0xF2].

Lemma deposit_list_panics :
  call env0 PrecompiledContractsByzantium fuel0 KCall (AccountRef 7%N) 104%N [] gas0 0
    (NewEVM (StateDB.SetCode 104%N attack (db0 0))) = Err Panic.
Proof. by vm_compute. Qed.

(** A region of 2^37 bytes costs less than one of 2^36: the square of the number of
    words wraps. *)
Lemma memory_price_wraps :
  (memoryGasCost NewMemory (2 ^ 37)).2 = Some 12884901888 /\
  (memoryGasCost NewMemory (2 ^ 36)).2 = Some (9007199254740992 + 6442450944).
Proof. by vm_compute. Qed.

End EvmRun.
